(* ===== verification/_CoqProject ===== *)
-Q . S2P
Prelude.v
GoStrings.v
GoSha1.v
GoNet.v
Errors.v
NsxUtil.v
IPUtil.v
Names.v
VlanPool.v
Interfaces.v
GoMonad.v
Compare.v
SubnetBinding.v
PortAlloc.v
GatewayCache.v
PolicyTree.v
MixedMode.v
RealizeState.v
Service.v
DnsOwners.v
DnsZones.v
DnsService.v
DnsLocks.v
GroupExpr.v
NativeGroup.v
NetPolicy.v
SpStore.v
SpBuild.v
SpService.v
SpTheorems.v
NsxCluster.v
Subnet.v
SubnetService.v
SubnetCache.v
Vpc.v
VpcService.v
StaticRoute.v
IPAllocation.v
IPReservation.v
CtlCommon.v
Webhooks.v
SubnetAlloc.v
SubnetPortService.v
IPBlocksInfo.v
