(* ===== verification/Prelude.v ===== *)
(** * NSX operator: a verification development

    The NSX operator watches Kubernetes resources and makes NSX have the
    networking objects they describe. This library models the parts of it that
    decide what NSX gets, in Go under src/pkg, and proves what makes them correct.
    This root file also holds the prelude: results, lists, options, integers,
    the tactics and the hint databases shared by all files.

    ** How the program is put together, and what models it

    A controller reads a resource and calls a service (pkg/nsx/services); the
    service builds NSX objects, compares them with its stores (client-go
    indexers), sends the difference to NSX in hierarchical requests, waits for
    the realization and applies the difference to the stores.

    - GoStrings, GoSha1, GoNet: the parts of Go's strings, strconv, crypto/sha1
      and net the code relies on, written out and executable.
    - Errors (pkg/nsx/util/errors.go, utils.go): error values with wrapping, NSX
      error details, categories, retry hints and error codes.
    - NsxUtil (pkg/nsx/util/utils.go, license.go): tags, ports, URLs, licenses.
    - IPUtil (pkg/util/ip.go): ranges of addresses, CIDR blocks with exceptions.
    - Names (pkg/util/utils.go, services/common/builder.go, types.go):
      normalized names, identifiers, tags and resource paths.
    - Interfaces: client-go indexers and retries as type classes with their
      documented laws and concrete instances; Compare (services/common/compare.go).
    - GoMonad: the state monad of stateful code, with panics, errors and catching.
    - VlanPool (services/vlanpool) and SubnetBinding (services/subnetbinding):
      the VLANs of connection bindings, reserved, committed and released by
      concurrent reconciles, and the bindings themselves.
    - PortAlloc (services/subnetport): the address capacity of Subnets.
    - GatewayCache (controllers/gateway/gateway_ip_cache.go): the sharded cache
      of admitted Gateways with its index of ListenerSets.
    - PolicyTree (services/common/policy_tree.go, wrap.go): resources as a tree of
      references, merged, wrapped and sent in pages.
    - MixedMode (config/mixed_mode.go): which provider a Namespace belongs to.
    - RealizeState (services/realizestate): polling until realized.
    - DnsOwners, DnsZones, DnsService, DnsLocks (services/dns, third_party/
      externaldns): the owners of records and their packing into tags, zones,
      creation and deletion, and the locks of concurrent calls.
    - GroupExpr, NativeGroup (services/securitypolicy/builder.go,
      builder_namespace.go): selectors as NSX group expressions.
    - NetPolicy (firewall.go, parse.go, builder.go): rules, ports, and the two
      internal policies of a Kubernetes NetworkPolicy.
    - SpStore, SpBuild, SpService, SpTheorems (store.go, compare.go, builder.go,
      expand.go, firewall.go, wrap.go): NSX policies, rules, groups and shares
      built from a SecurityPolicy, with the stores and the whole life cycle.
    - NsxCluster (pkg/nsx/cluster.go, transport.go, endpoint.go, client.go,
      ratelimiter; third_party/retry): the managers of a cluster, the choice of one
      for a request, retries, sessions, health, versions and adaptive rates.
    - Subnet, SubnetService, SubnetCache (services/subnet): Subnets built from and
      mapped to CRs, merged with the stored ones, created, updated and restored;
      the caches of shared Subnets and of port settings under interleaved calls.
    - Service: what the services share: the state of a service with its store and
      the world of NSX, calls that change either, indexers as lists with finders.
    - Vpc, VpcService (services/vpc): network configurations, building and
      comparing VPCs, their creation, realization, restoration and deletion,
      network stacks, load-balancer providers and connection checks.
    - StaticRoute, IPAllocation, IPReservation (services/staticroute,
      ipaddressallocation, subnetipreservation): the life cycle of static routes,
      of address allocations and of the reservations of a Subnet.
    - IPBlocksInfo (services/ipblocksinfo): the address blocks of the VPCs, merged
      and shown in one Kubernetes object.
    - SubnetPortService (services/subnetport): ports built for SubnetPorts and
      Pods, their creation, check, deletion and cleanup, and virtual interfaces.
    - CtlCommon (controllers/common/utils.go), Webhooks (the validating webhooks
      of controllers/) and SubnetAlloc (controllers/common, pod, subnetport): what
      updates may change, what is admitted, and how a port gets its Subnet.

    A Go string is a [string] of bytes, an int a [Z], a nil pointer an [option],
    a map a [gmap]; a function that returns an error gives a [result]; a panic is
    [None]. Stateful code passes its state; locks and interleavings are step
    relations. Code outside the repository is a class or a parameter with its
    documented laws, and every theorem that uses one has a witness with a
    concrete instance.

    ** What the theorems show

    Claims are numbered C1 to C40 in their doc comments, which also name what
    each one takes for granted.
    - Meaning: group expressions, native expressions and translated NetworkPolicies
      select what the resources say. The code over-matches for an empty
      intersection of In values and for empty label values; the theorems on
      expressions name these inputs and leave them out.
    - Reconciliation: creation and update bring the stores of a SecurityPolicy to
      what is built, once NSX has accepted it, and a second reconcile sends
      nothing; deletion collects what it can and leaves the rest to the garbage
      collection; what is built is reloaded at start by the queries of its store
      and of no other.
    - Stores: the Subnet and the VPC that enter a store are those NSX returned and
      realized, and one that leaves it after an error is the one NSX reported;
      allocations and reservations keep their addresses; a port and NSX agree on
      its attachment, and other ports are left alone; the shown address blocks
      are those of NSX.
    - Ports and Subnets: a reconcile leaves no reservation and no lock behind, a
      SubnetSet gets a Subnet only when the counters of all it has refuse the
      port, and a Subnet that ran out of addresses is left alone for its release
      time as long as the operator has counters of it.
    - Admission: updates of users only widen a Subnet and do not change whether it
      is shared; AddressBindings of a machine are apart, but for those that the
      cached list of an admission did not show.
    - Concurrency: two CRs come to have the same VLAN only if a reconcile was
      misled by the VLANs it had read before it took the lock of the pool, or if
      bindings were removed during a reconcile of their CR, and no reservation of
      a VLAN outlives the reconcile that made it; calls on DNS records with a
      common record exclude each other, but for a promotion between the two reads
      of an owner's records, and cannot deadlock; the connection counters of
      managers are exact, and a cached snapshot of port settings is never older
      than an invalidation.
    - Requests: a round trip restores its counters and answers once; paged sending
      reports to the store the objects of the accepted pages and no others.
    - Refinement: the cache of Gateways behaves as a map, the tree sends exactly
      its resources.
    - Bounds and ends: the criteria of selectors stay within the limits of NSX,
      reservations within the capacity of a pool, the rate of requests within its
      range; reading port settings ends.
    - Round trips: a built Subnet maps back to its specification, field by field.
    - Errors: an entity in error gives the codes of its alarms.
    The other theorems of the files support these or state what the smaller
    operations do (identifiers, paths, tags, retries, look-ups), and some show
    how the exceptions above come about.

    ** Bounds and fuel

    The pool of VLANs has 4094 values, the fuel of the search for a free one. Splitting,
    SHA-1 blocks and base 36 digits use fuel given by the length of their input
    (32 digits are enough for 160 bits). The search for a free identifier draws random UUIDs without
    bound: [id_fuel] is a parameter and its termination theorem says which fuel
    suffices. Retries run at most as often as their back-off says.

    ** Not modelled

    Kubernetes reconcile loops, watches and status updates (they only move data
    between the API server and the services); HTTP, certificates and token
    exchange; generated code, vendored code, commands, logging and metrics; log
    lines and events. PROJECT.json lists every part with its reason. *)
From stdpp Require Export prelude gmap strings list sorting pretty.
From Stdlib Require Export ZArith Ascii Lia.

(** ** Scopes *)
Declare Scope nsx_scope.
Delimit Scope nsx_scope with nsx.
#[global] Open Scope nsx_scope.

(** ** Results: a Go function returning [(T, error)] *)
Inductive result (E A : Type) : Type :=
  | Ok (a : A)
  | Err (e : E).
Arguments Ok {E A} a.
Arguments Err {E A} e.

#[global] Instance result_ret {E} : MRet (result E) := fun A a => Ok a.
#[global] Instance result_bind {E} : MBind (result E) := fun A B k m =>
  match m with Ok a => k a | Err e => Err e end.
#[global] Instance result_fmap {E} : FMap (result E) := fun A B f m =>
  match m with Ok a => Ok (f a) | Err e => Err e end.

#[global] Instance result_eq_dec {E A} `{EqDecision E, EqDecision A} :
  EqDecision (result E A).
Proof. solve_decision. Defined.

Definition is_ok {E A} (r : result E A) : bool :=
  match r with Ok _ => true | Err _ => false end.

(** The error part of a result, [None] for Go's [nil]. *)
Definition err_of {E A} (r : result E A) : option E :=
  match r with Ok _ => None | Err e => Some e end.

Lemma result_bind_Ok {E A B} (m : result E A) (k : A -> result E B) b :
  mbind k m = Ok b <-> exists a, m = Ok a /\ k a = Ok b.
Proof.
  destruct m; simpl; split.
  - eauto.
  - by intros (? & [= <-] & ?).
  - done.
  - by intros (? & ? & ?).
Qed.

(** [for _, x := range l] whose body may return an error early: the loop
    threads an accumulator and stops at the first error. *)
Fixpoint range_result {E A S} (f : S -> A -> result E S) (s : S) (l : list A)
  : result E S :=
  match l with
  | [] => Ok s
  | x :: l' => match f s x with Ok s' => range_result f s' l' | Err e => Err e end
  end.

Lemma range_result_app {E A S} (f : S -> A -> result E S) s l1 l2 :
  range_result f s (l1 ++ l2) =
  match range_result f s l1 with Ok s' => range_result f s' l2 | Err e => Err e end.
Proof. revert s; induction l1 as [|x l1 IH]; intros s; simpl; [done|]. by destruct (f s x). Qed.

(** Rule of invariants for such a loop. *)
Lemma range_result_inv {E A S} (P : S -> Prop) (f : S -> A -> result E S) l s s' :
  (forall s x s', x ∈ l -> P s -> f s x = Ok s' -> P s') ->
  P s -> range_result f s l = Ok s' -> P s'.
Proof.
  revert s; induction l as [|x l IH]; intros s Hstep HP; simpl.
  - by intros [= <-].
  - destruct (f s x) as [s1|e] eqn:E1; [|done].
    intros H. eapply (IH s1); eauto.
    + intros ????. eapply Hstep. by apply list_elem_of_further.
    + eapply Hstep; eauto. apply list_elem_of_here.
Qed.

(** ** Automation shared by the components *)
Create HintDb nsx discriminated.
#[export] Hint Constructors Forall NoDup Sorted HdRel : nsx.
#[export] Hint Resolve list_elem_of_here list_elem_of_further : nsx.

Create Rewrite HintDb nsx_rw.

(** Split the conditions of the code ([if decide P then .. else ..] and
    [match .. with ..]) one after the other, closing the absurd branches. *)
Ltac case_code :=
  repeat first
    [ case_decide; simplify_eq/=; try done
    | case_match; simplify_eq/=; try done ].

(** Turn boolean equations of the code into propositions. *)
Ltac go_bool :=
  repeat match goal with
  | H : context [andb _ _ = true] |- _ => rewrite andb_true_iff in H
  | H : context [andb _ _ = false] |- _ => rewrite andb_false_iff in H
  | H : context [orb _ _ = true] |- _ => rewrite orb_true_iff in H
  | H : context [orb _ _ = false] |- _ => rewrite orb_false_iff in H
  | H : context [negb _ = true] |- _ => rewrite negb_true_iff in H
  | H : context [negb _ = false] |- _ => rewrite negb_false_iff in H
  | H : context [(_ <=? _)%Z = true] |- _ => rewrite Z.leb_le in H
  | H : context [(_ <=? _)%Z = false] |- _ => rewrite Z.leb_gt in H
  | H : context [(_ <? _)%Z = true] |- _ => rewrite Z.ltb_lt in H
  | H : context [(_ <? _)%Z = false] |- _ => rewrite Z.ltb_ge in H
  | H : context [(_ =? _)%Z = true] |- _ => rewrite Z.eqb_eq in H
  | H : context [(_ =? _)%Z = false] |- _ => rewrite Z.eqb_neq in H
  | H : bool_decide _ = true |- _ => apply bool_decide_eq_true in H
  | H : bool_decide _ = false |- _ => apply bool_decide_eq_false in H
  end.

(** ** Generic list lemmas *)

Lemma length_drop_le {A} n (l : list A) : length (drop n l) <= length l.
Proof. rewrite length_drop; lia. Qed.

Lemma concat_snoc {A} (ls : list (list A)) l : mjoin (ls ++ [l]) = mjoin ls ++ l.
Proof. induction ls as [|x ls IH]; simpl; [by rewrite app_nil_r|]. by rewrite IH, (assoc_L (++)). Qed.

Lemma mapM_snoc_Some {A B} (f : A -> option B) l x ys :
  mapM f l = Some ys -> mapM f (l ++ [x]) = (fun y => ys ++ [y]) <$> f x.
Proof.
  revert ys; induction l as [|a l IH]; intros ys; simpl.
  - intros [= <-]. by destruct (f x).
  - destruct (f a) as [b|]; [|done]. simpl. destruct (mapM f l) as [zs|] eqn:El; [|done].
    intros [= <-]. rewrite (IH zs) by done. by destruct (f x).
Qed.

Lemma filter_all {A} (P : A -> Prop) `{forall x, Decision (P x)} (l : list A) :
  Forall P l -> filter P l = l.
Proof.
  induction 1 as [|x l Hx Hl IH]; [done|].
  rewrite filter_cons_True by done. by rewrite IH.
Qed.

(** ** Maps built from lists *)

(** [m[k] = v] for each pair in order: the last write of a key wins, as in a
    Go loop that fills a map. *)
Definition map_of_writes {K V} `{Countable K} (l : list (K * V)) : gmap K V :=
  foldl (fun m kv => <[kv.1 := kv.2]> m) ∅ l.

Lemma map_of_writes_snoc {K V} `{Countable K} (l : list (K * V)) k v :
  map_of_writes (l ++ [(k, v)]) = <[k := v]> (map_of_writes l).
Proof. unfold map_of_writes. by rewrite foldl_app. Qed.

Lemma map_of_writes_nil {K V} `{Countable K} : map_of_writes [] = (∅ : gmap K V).
Proof. done. Qed.

Lemma map_of_writes_is_Some {K V} `{Countable K} (l : list (K * V)) k :
  is_Some (map_of_writes l !! k) <-> k ∈ l.*1.
Proof.
  induction l as [|[k' v'] l IH] using rev_ind; simpl.
  - rewrite map_of_writes_nil, lookup_empty. split; [by intros []|by intros ?%elem_of_nil].
  - rewrite map_of_writes_snoc, fmap_app, elem_of_app, <- IH. simpl.
    rewrite list_elem_of_singleton.
    destruct (decide (k' = k)) as [->|Hne].
    + rewrite lookup_insert_eq. naive_solver eauto.
    + rewrite lookup_insert_ne by done. naive_solver.
Qed.

Lemma map_of_writes_elem {K V} `{Countable K} (l : list (K * V)) k v :
  map_of_writes l !! k = Some v -> (k, v) ∈ l.
Proof.
  induction l as [|[k' v'] l IH] using rev_ind.
  { by rewrite map_of_writes_nil, lookup_empty. }
  rewrite map_of_writes_snoc. intros [[-> ->]|[? ?]]%lookup_insert_Some.
  - apply elem_of_app; right. by apply list_elem_of_singleton.
  - apply elem_of_app; left; auto.
Qed.

Lemma map_of_writes_NoDup {K V} `{Countable K} (l : list (K * V)) k v :
  NoDup l.*1 -> (k, v) ∈ l -> map_of_writes l !! k = Some v.
Proof.
  induction l as [|[k' v'] l IH] using rev_ind; [by intros _ ?%elem_of_nil|].
  rewrite map_of_writes_snoc, fmap_app. simpl.
  intros (Hnd & Hdisj & _)%NoDup_app [Hin|Heq]%elem_of_app.
  - rewrite lookup_insert_ne; [auto|]. intros ->.
    apply (Hdisj k); [by apply (list_elem_of_fmap_2 fst _ (k, v))|apply list_elem_of_here].
  - apply list_elem_of_singleton in Heq as [= -> ->]. apply lookup_insert_eq.
Qed.

(** A sorted list without duplicates is strictly sorted. *)
Lemma Sorted_lt_of_le_NoDup (l : list Z) : Sorted Z.le l -> NoDup l -> Sorted Z.lt l.
Proof.
  induction 1 as [|x l Hs IH Hd]; [constructor|].
  intros [Hx Hnd]%NoDup_cons. constructor; [auto|].
  destruct Hd as [|y l Hxy]; constructor. assert (x <> y) by (intros ->; apply Hx; left). lia.
Qed.
