(* ===== verification/GoStrings.v ===== *)
(** * The Go standard library the sources use on strings and integers

    A Go [string] is a sequence of bytes, here a [string] of [ascii] bytes, so
    [String.length] is Go's [len]. The functions follow the documentation of
    packages [strings], [strconv], [sort] and [crypto/sha1]. [strings.ToUpper],
    [ToLower] and [TrimSpace] are given on ASCII text, which is what the
    operator passes to them (annotations, enumeration names, object names). *)
From S2P Require Import Prelude.

#[global] Open Scope string_scope.
#[global] Open Scope list_scope.
#[global] Open Scope Z_scope.
#[global] Arguments String.append !s1 s2 : simpl nomatch.

(** ** Byte order on strings ([<] on Go strings, [sort.Strings]) *)
Definition byte_le (a b : ascii) : bool := N.leb (N_of_ascii a) (N_of_ascii b).

Fixpoint str_leb (s t : string) : bool :=
  match s, t with
  | "", _ => true
  | String _ _, "" => false
  | String a s', String b t' =>
      if decide (a = b) then str_leb s' t' else byte_le a b
  end.
Definition str_le (s t : string) : Prop := str_leb s t = true.

#[global] Instance str_le_dec : RelDecision str_le.
Proof. intros s t. unfold str_le. apply _. Defined.

Lemma byte_le_antisym a b : byte_le a b = true -> byte_le b a = true -> a = b.
Proof.
  unfold byte_le. intros ?%N.leb_le ?%N.leb_le.
  rewrite <- (ascii_N_embedding a), <- (ascii_N_embedding b). f_equal. lia.
Qed.
Lemma byte_le_trans a b c : byte_le a b = true -> byte_le b c = true -> byte_le a c = true.
Proof. unfold byte_le. intros ?%N.leb_le ?%N.leb_le. apply N.leb_le. lia. Qed.
Lemma byte_le_total a b : byte_le a b = true \/ byte_le b a = true.
Proof. unfold byte_le. rewrite !N.leb_le. lia. Qed.

#[global] Instance str_le_trans : Transitive str_le.
Proof.
  unfold str_le. intros s. induction s as [|a s IH]; intros [|b t] [|c u]; simpl; try done.
  repeat case_decide; subst; try done; eauto using byte_le_trans.
  intros H1 H2. by destruct (byte_le_antisym b c).
Qed.
#[global] Instance str_le_antisym : AntiSymm eq str_le.
Proof.
  unfold str_le. intros s. induction s as [|a s IH]; intros [|b t]; simpl; try done.
  repeat case_decide; subst; try done; intros; f_equal; eauto using byte_le_antisym.
  by destruct H; apply byte_le_antisym.
Qed.
#[global] Instance str_le_total : Total str_le.
Proof.
  unfold str_le. intros s. induction s as [|a s IH]; intros [|b t]; simpl; auto.
  repeat case_decide; subst; try done; auto using byte_le_total.
Qed.

(** [sort.Strings]; the result does not depend on the sorting algorithm. *)
Definition sort_strings (l : list string) : list string := merge_sort str_le l.

Lemma sort_strings_perm l : sort_strings l ≡ₚ l.
Proof. apply merge_sort_Permutation. Qed.
Lemma sort_strings_sorted l : Sorted str_le (sort_strings l).
Proof. apply (Sorted_merge_sort _). Qed.
Lemma sort_strings_proper l1 l2 : l1 ≡ₚ l2 -> sort_strings l1 = sort_strings l2.
Proof.
  intros Hp. apply (Sorted_unique str_le); [apply sort_strings_sorted..|].
  by rewrite !sort_strings_perm.
Qed.
#[global] Instance sort_strings_Proper : Proper ((≡ₚ) ==> (=)) sort_strings.
Proof. intros ???. by apply sort_strings_proper. Qed.

(** [sets.List(s)]: the sorted members of a set of strings. *)
Definition sets_List (s : gset string) : list string := sort_strings (elements s).

Lemma elem_of_sets_List x s : x ∈ sets_List s <-> x ∈ s.
Proof. unfold sets_List. by rewrite sort_strings_perm, elem_of_elements. Qed.
Lemma NoDup_sets_List s : NoDup (sets_List s).
Proof. unfold sets_List. rewrite sort_strings_perm. apply NoDup_elements. Qed.

(** ** Slices of strings *)
Fixpoint take_str (n : nat) (s : string) : string :=
  match n, s with
  | O, _ | _, "" => ""
  | S n', String a s' => String a (take_str n' s')
  end.
Fixpoint drop_str (n : nat) (s : string) : string :=
  match n, s with
  | O, _ => s
  | _, "" => ""
  | S n', String _ s' => drop_str n' s'
  end.
(** Go's [len(s)]. *)
Definition slen (s : string) : Z := Z.of_nat (String.length s).
(** [s[:n]] panics when [n] is negative or more than [len(s)]. *)
Definition slice_to (s : string) (n : Z) : option string :=
  if bool_decide (0 <= n <= slen s) then Some (take_str (Z.to_nat n) s) else None.

Lemma length_take_str n s : String.length (take_str n s) = Nat.min n (String.length s).
Proof. revert n; induction s as [|a s IH]; intros [|n]; simpl; auto. Qed.
Lemma take_str_ge n s : (String.length s <= n)%nat -> take_str n s = s.
Proof. revert n; induction s as [|a s IH]; intros [|n]; simpl; intros; try lia; f_equal; auto with lia. Qed.
Lemma length_app_str s t : String.length (s +:+ t) = (String.length s + String.length t)%nat.
Proof. induction s; simpl; auto. Qed.
Lemma slice_to_Some s n t : slice_to s n = Some t -> slen t = n /\ 0 <= n.
Proof.
  unfold slice_to, slen. intros. case_code. go_bool. rewrite length_take_str. lia.
Qed.
Lemma app_str_nil_r s : s +:+ "" = s.
Proof. induction s as [|a s IH]; [done|]. simpl. by rewrite IH. Qed.
Lemma app_str_assoc s t u : (s +:+ t) +:+ u = s +:+ (t +:+ u).
Proof. induction s as [|a s IH]; [done|]. simpl. by rewrite IH. Qed.
#[export] Hint Rewrite length_app_str length_take_str app_str_nil_r app_str_assoc : nsx_rw.

(** ** [strings.Split] on a one-byte separator and [strings.Join] *)
Fixpoint split_on (c : ascii) (s : string) : list string :=
  match s with
  | "" => [""]
  | String a s' =>
      if decide (a = c) then "" :: split_on c s'
      else match split_on c s' with
           | w :: ws => String a w :: ws
           | [] => [String a ""]
           end
  end.

Fixpoint join (sep : string) (l : list string) : string :=
  match l with
  | [] => ""
  | [x] => x
  | x :: l' => x +:+ sep +:+ join sep l'
  end.

(** [strings.SplitN(s, c, n)]. *)
Fixpoint split_n (n : nat) (c : ascii) (s : string) : list string :=
  match n with
  | O => []
  | S O => [s]
  | S n' =>
      (fix go (s : string) :=
         match s with
         | "" => [""]
         | String a s' =>
             if decide (a = c) then "" :: split_n n' c s'
             else match go s' with
                  | w :: ws => String a w :: ws
                  | [] => [String a ""]
                  end
         end) s
  end.

(** Is byte [c] in [s]? ([strings.Contains] of a one-byte string) *)
Fixpoint contains_byte (c : ascii) (s : string) : bool :=
  match s with
  | "" => false
  | String a s' => if decide (a = c) then true else contains_byte c s'
  end.

Lemma split_on_not_nil c s : split_on c s <> [].
Proof. destruct s as [|a s]; simpl; [done|]. case_decide; [done|]. by destruct (split_on c s). Qed.

Lemma split_on_no_sep c s : contains_byte c s = false -> split_on c s = [s].
Proof.
  induction s as [|a s IH]; simpl; [done|]. case_decide; [done|].
  intros H1. by rewrite IH.
Qed.

Lemma split_on_app_sep c s t :
  contains_byte c s = false -> split_on c (s +:+ String c t) = s :: split_on c t.
Proof.
  induction s as [|a s IH]; simpl; [by rewrite decide_True|].
  case_decide; [done|]. intros H1. by rewrite IH.
Qed.

Lemma contains_byte_app c s t :
  contains_byte c (s +:+ t) = contains_byte c s || contains_byte c t.
Proof. induction s as [|a s IH]; simpl; [done|]. by case_decide. Qed.

(** Splitting undoes joining when no part holds the separator. *)
Lemma split_join c l :
  l <> [] -> Forall (fun s => contains_byte c s = false) l ->
  split_on c (join (String c "") l) = l.
Proof.
  intros Hne Hall. induction Hall as [|s l Hs Hall IH]; [done|].
  destruct l as [|t l]; simpl; [by apply split_on_no_sep|].
  rewrite split_on_app_sep by done. f_equal. by apply IH.
Qed.

Lemma join_cons sep x l : l <> [] -> join sep (x :: l) = x +:+ sep +:+ join sep l.
Proof. by destruct l. Qed.

(** Joining undoes splitting, always. *)
Lemma join_split c s : join (String c "") (split_on c s) = s.
Proof.
  induction s as [|a s IH]; simpl; [done|].
  pose proof (split_on_not_nil c s) as Hne.
  case_decide as Hd.
  - subst a. rewrite join_cons, IH by done. done.
  - destruct (split_on c s) as [|w ws]; [done|].
    destruct ws; [by rewrite <- IH|].
    rewrite join_cons in IH by done. rewrite join_cons by done.
    rewrite <- IH. done.
Qed.

Lemma split_on_app c s t : split_on c (s +:+ String c t) = split_on c s ++ split_on c t.
Proof.
  induction s as [|a s IH]; simpl; [by rewrite decide_True|]. case_decide; [by rewrite IH|].
  rewrite IH. by destruct (split_on c s) as [|w ws] eqn:E; [destruct (split_on_not_nil c s)|].
Qed.
Lemma split_on_no_sep_elem c s w : w ∈ split_on c s -> contains_byte c w = false.
Proof.
  revert w; induction s as [|a s IH]; intros w; simpl.
  - by intros ->%list_elem_of_singleton.
  - case_decide as Hd.
    + intros [->|?]%elem_of_cons; auto.
    + destruct (split_on c s) as [|w' ws] eqn:E; [by destruct (split_on_not_nil c s)|].
      intros [->|?]%elem_of_cons; simpl.
      * rewrite decide_False by done. apply IH, list_elem_of_here.
      * apply IH. by apply list_elem_of_further.
Qed.

(** ** Other functions of package [strings] *)

(** [strings.ReplaceAll(s, c, rep)] for a one-byte [c]. *)
Fixpoint replace_all (c : ascii) (rep s : string) : string :=
  match s with
  | "" => ""
  | String a s' =>
      if decide (a = c) then rep +:+ replace_all c rep s' else String a (replace_all c rep s')
  end.

Fixpoint map_str (f : ascii -> ascii) (s : string) : string :=
  match s with "" => "" | String a s' => String (f a) (map_str f s') end.

Definition upper_byte (a : ascii) : ascii :=
  let n := nat_of_ascii a in
  if bool_decide (97 <= n <= 122)%nat then ascii_of_nat (n - 32) else a.
Definition lower_byte (a : ascii) : ascii :=
  let n := nat_of_ascii a in
  if bool_decide (65 <= n <= 90)%nat then ascii_of_nat (n + 32) else a.
Definition to_upper : string -> string := map_str upper_byte.
Definition to_lower : string -> string := map_str lower_byte.

Definition is_space (a : ascii) : bool :=
  bool_decide (nat_of_ascii a ∈ [9; 10; 11; 12; 13; 32]%nat).

Fixpoint trim_left_by (p : ascii -> bool) (s : string) : string :=
  match s with
  | "" => ""
  | String a s' => if p a then trim_left_by p s' else s
  end.
Fixpoint trim_right_by (p : ascii -> bool) (s : string) : string :=
  match s with
  | "" => ""
  | String a s' =>
      match trim_right_by p s' with
      | "" => if p a then "" else String a ""
      | t => String a t
      end
  end.
(** [strings.TrimSpace] and [strings.Trim(s, "c")]. *)
Definition trim_space (s : string) : string := trim_right_by is_space (trim_left_by is_space s).
Definition trim_byte (c : ascii) (s : string) : string :=
  let p := fun a => bool_decide (a = c) in trim_right_by p (trim_left_by p s).

Fixpoint has_prefix (p s : string) : bool :=
  match p, s with
  | "", _ => true
  | String a p', String b s' => bool_decide (a = b) && has_prefix p' s'
  | String _ _, "" => false
  end.
Fixpoint contains_str (sub s : string) : bool :=
  has_prefix sub s || match s with "" => false | String _ s' => contains_str sub s' end.
Definition has_suffix (suf s : string) : bool :=
  bool_decide (String.length suf <= String.length s)%nat &&
  bool_decide (drop_str (String.length s - String.length suf) s = suf).
(** [strings.Index(s, c)] for a one-byte [c]; [None] for -1. *)
Fixpoint index_byte (c : ascii) (s : string) : option nat :=
  match s with
  | "" => None
  | String a s' => if decide (a = c) then Some 0%nat else S <$> index_byte c s'
  end.

(** ** [strconv] *)
Definition digit_val (a : ascii) : option Z :=
  let n := Z.of_nat (nat_of_ascii a) in
  if bool_decide (48 <= n <= 57) then Some (n - 48) else None.

Fixpoint digits_val (acc : Z) (s : string) : option Z :=
  match s with
  | "" => Some acc
  | String a s' => d ← digit_val a; digits_val (acc * 10 + d) s'
  end.

Definition max_int64 : Z := 2 ^ 63 - 1.
Definition min_int64 : Z := - 2 ^ 63.

(** [strconv.Atoi] and [strconv.ParseInt(s, 10, 64)] on a 64-bit platform. *)
Definition atoi (s : string) : option Z :=
  let '(neg, body) :=
    match s with
    | String "-" s' => (true, s')
    | String "+" s' => (false, s')
    | _ => (false, s)
    end in
  match body with
  | "" => None
  | _ =>
      n ← digits_val 0 body;
      let v := if (neg : bool) then - n else n in
      if bool_decide (min_int64 <= v <= max_int64) then Some v else None
  end.
(** [strconv.Itoa], [%d]. *)
Definition itoa (n : Z) : string := pretty n.

(** ** Bytes of a string *)
Fixpoint bytes_of (s : string) : list Z :=
  match s with "" => [] | String a s' => Z.of_nat (nat_of_ascii a) :: bytes_of s' end.
Definition hex_digit (n : Z) : ascii :=
  ascii_of_nat (Z.to_nat (if bool_decide (n < 10) then 48 + n else 87 + n)).
Definition hex_byte (b : Z) : string := String (hex_digit (b / 16)) (String (hex_digit (b mod 16)) "").
(** [fmt.Sprintf("%x", bytes)]. *)
Fixpoint hex_bytes (l : list Z) : string :=
  match l with [] => "" | b :: l' => hex_byte b +:+ hex_bytes l' end.

Lemma length_hex_bytes l : String.length (hex_bytes l) = (2 * length l)%nat.
Proof. induction l as [|b l IH]; [done|]. cbn [hex_bytes hex_byte String.append String.length length]. lia. Qed.

(** [%q], on printable text without quotes or backslashes. *)
Definition quoted (s : string) : string :=
  String (ascii_of_nat 34) (s +:+ String (ascii_of_nat 34) "").

(** ** Bytes that all satisfy a predicate *)
Fixpoint all_bytes (p : ascii -> bool) (s : string) : bool :=
  match s with "" => true | String a s' => p a && all_bytes p s' end.
Lemma all_bytes_app p s t : all_bytes p (s +:+ t) = all_bytes p s && all_bytes p t.
Proof. induction s as [|a s IH]; simpl; [done|]. by rewrite IH, andb_assoc. Qed.
Lemma all_bytes_impl (p q : ascii -> bool) s :
  (forall a, p a = true -> q a = true) -> all_bytes p s = true -> all_bytes q s = true.
Proof.
  intros Hpq. induction s as [|a s IH]; simpl; [done|]. rewrite !andb_true_iff. intros [? ?]. auto.
Qed.
Lemma all_bytes_no_sep c s :
  all_bytes (fun a => negb (bool_decide (a = c))) s = true -> contains_byte c s = false.
Proof.
  induction s as [|a s IH]; simpl; [done|]. rewrite andb_true_iff, negb_true_iff, bool_decide_eq_false.
  intros [Ha Hs]. rewrite decide_False by done. auto.
Qed.

(** Trimming bytes that are not there, around what must stay. *)
Lemma trim_left_keep p s t :
  s <> "" -> all_bytes (fun a => negb (p a)) s = true -> trim_left_by p (s +:+ t) = s +:+ t.
Proof.
  destruct s as [|a s]; [done|]. simpl. rewrite andb_true_iff, negb_true_iff. intros _ [Ha _]. by rewrite Ha.
Qed.
Lemma trim_right_app p s t :
  t <> "" -> trim_right_by p t = t -> trim_right_by p (s +:+ t) = s +:+ t.
Proof.
  intros Hne Ht. induction s as [|a s IH]; [done|]. simpl. rewrite IH.
  destruct (s +:+ t) eqn:E; [|done]. destruct s; simpl in E; [subst; done|done].
Qed.
Lemma trim_right_id p s : all_bytes (fun a => negb (p a)) s = true -> trim_right_by p s = s.
Proof.
  induction s as [|a s IH]; simpl; [done|]. rewrite andb_true_iff, negb_true_iff. intros [Ha Hs].
  rewrite (IH Hs). destruct s; [by rewrite Ha|done].
Qed.
Lemma trim_space_id s : all_bytes (fun a => negb (is_space a)) s = true -> trim_space s = s.
Proof.
  intros Hs. unfold trim_space. destruct s as [|a s]; [done|].
  rewrite <- (app_str_nil_r (String a s)) at 1. rewrite trim_left_keep by done.
  rewrite app_str_nil_r. by apply trim_right_id.
Qed.

(** ** Numbers read back *)
Lemma digit_val_char x : (x < 10)%N -> digit_val (pretty_N_char x) = Some (Z.of_N x).
Proof.
  intros Hx. assert (Hc : (x = 0 \/ x = 1 \/ x = 2 \/ x = 3 \/ x = 4 \/ x = 5 \/ x = 6 \/ x = 7 \/ x = 8 \/ x = 9)%N) by lia.
  by repeat (destruct Hc as [->|Hc]); subst; vm_compute.
Qed.
Lemma digits_val_go x s : digits_val 0 (pretty_N_go x s) = digits_val (Z.of_N x) s.
Proof.
  revert s. induction (N.lt_wf_0 x) as [x _ IH]; intros s. destruct (decide (0 < x)%N) as [Hx|Hx].
  - rewrite pretty_N_go_step by done. rewrite IH by (apply N.div_lt; lia). cbn [digits_val].
    rewrite digit_val_char by (apply N.mod_lt; lia). cbn [mbind option_bind]. f_equal.
    pose proof (N.div_mod' x 10). lia.
  - replace x with 0%N by lia. by rewrite pretty_N_go_0.
Qed.
Lemma digits_itoa n : 0 <= n -> digits_val 0 (itoa n) = Some n.
Proof.
  intros Hn. unfold itoa. destruct n as [|p|p]; [done| |done]. change (pretty (Z.pos p)) with (pretty_N_go (N.pos p) "").
  by rewrite digits_val_go.
Qed.
Definition is_digit (a : ascii) : bool := match digit_val a with Some _ => true | None => false end.
Lemma digits_all s : forall acc n, digits_val acc s = Some n -> all_bytes is_digit s = true.
Proof.
  induction s as [|a s IH]; intros acc n; simpl; [done|]. unfold is_digit. destruct (digit_val a) as [d|]; [|done]. simpl. apply IH.
Qed.
Lemma itoa_digits n : 0 <= n -> all_bytes is_digit (itoa n) = true /\ itoa n <> "".
Proof.
  intros Hn. pose proof (digits_itoa n Hn) as Hd. split; [by eapply digits_all|]. intros He. rewrite He in Hd. cbn in Hd.
  injection Hd as <-. done.
Qed.
Lemma atoi_digits s n : s <> "" -> digits_val 0 s = Some n -> 0 <= n <= max_int64 -> atoi s = Some n.
Proof.
  intros Hs Hd Hn. unfold atoi. destruct s as [|a s]; [done|].
  assert (Hb : match String a s with String "-" s' => (true, s') | String "+" s' => (false, s') | _ => (false, String a s) end
    = (false, String a s)).
  { pose proof (digits_all _ _ _ Hd) as Ha. cbn [all_bytes] in Ha. apply andb_true_iff in Ha as [Ha _]. clear Hd.
    destruct a as [[] [] [] [] [] [] [] []]; done. }
  rewrite Hb, Hd. cbn [mbind option_bind]. rewrite bool_decide_true; [done|]. unfold min_int64. lia.
Qed.
Lemma atoi_itoa n : 0 <= n <= max_int64 -> atoi (itoa n) = Some n.
Proof. intros Hn. apply atoi_digits; [apply itoa_digits; lia|apply digits_itoa; lia|done]. Qed.
