(* ===== verification/GoSha1.v ===== *)
(** * Package [crypto/sha1] of the Go standard library, executable

    The digest of FIPS 180-1 on byte lists, with words kept at 32 bits. The
    name-shortening functions of the operator take their suffixes from it. *)
From S2P Require Import Prelude GoStrings.

Module Sha1.

Definition w32 (x : Z) : Z := x mod 2 ^ 32.
Definition rotl (n x : Z) : Z := w32 (Z.lor (Z.shiftl x n) (Z.shiftr x (32 - n))).
Definition not32 (x : Z) : Z := 2 ^ 32 - 1 - x.

(** Big-endian bytes of a word of [n] bytes. *)
Fixpoint be_bytes (n : nat) (x : Z) : list Z :=
  match n with
  | O => []
  | S n' => Z.shiftr x (8 * Z.of_nat n') mod 256 :: be_bytes n' x
  end.

Definition pad (msg : list Z) : list Z :=
  let k := (- (Z.of_nat (length msg) + 9)) mod 64 in
  msg ++ [128] ++ repeat 0 (Z.to_nat k) ++ be_bytes 8 (8 * Z.of_nat (length msg)).

Fixpoint words (fuel : nat) (l : list Z) : list Z :=
  match fuel, l with
  | S f, a :: b :: c :: d :: l' => (((a * 256 + b) * 256 + c) * 256 + d) :: words f l'
  | _, _ => []
  end.

(** The message schedule, most recent word first. *)
Definition schedule_step (w : list Z) : list Z :=
  rotl 1 (Z.lxor (Z.lxor (nth 2 w 0) (nth 7 w 0)) (Z.lxor (nth 13 w 0) (nth 15 w 0))) :: w.
Definition schedule (block : list Z) : list Z :=
  rev (Nat.iter 64 schedule_step (rev block)).

Definition round_fk (t : nat) (b c d : Z) : Z * Z :=
  if bool_decide (t < 20)%nat then
    (Z.lor (Z.land b c) (Z.land (not32 b) d), 0x5A827999)
  else if bool_decide (t < 40)%nat then (Z.lxor (Z.lxor b c) d, 0x6ED9EBA1)
  else if bool_decide (t < 60)%nat then
    (Z.lor (Z.lor (Z.land b c) (Z.land b d)) (Z.land c d), 0x8F1BBCDC)
  else (Z.lxor (Z.lxor b c) d, 0xCA62C1D6).

Record hstate := HState { ha : Z; hb : Z; hc : Z; hd : Z; he : Z }.

Definition round (s : hstate) (tw : nat * Z) : hstate :=
  let '(f, k) := round_fk tw.1 (hb s) (hc s) (hd s) in
  HState (w32 (rotl 5 (ha s) + f + he s + k + tw.2)) (ha s) (rotl 30 (hb s)) (hc s) (hd s).

Definition compress (s : hstate) (block : list Z) : hstate :=
  let s' := foldl round s (imap pair (schedule block)) in
  HState (w32 (ha s + ha s')) (w32 (hb s + hb s')) (w32 (hc s + hc s'))
         (w32 (hd s + hd s')) (w32 (he s + he s')).

Fixpoint blocks (fuel : nat) (w : list Z) : list (list Z) :=
  match fuel, w with
  | S f, _ :: _ => take 16 w :: blocks f (drop 16 w)
  | _, _ => []
  end.

Definition init : hstate :=
  HState 0x67452301 0xEFCDAB89 0x98BADCFE 0x10325476 0xC3D2E1F0.

(** [sha1.Sum]: 20 bytes. *)
Definition sum (msg : list Z) : list Z :=
  let p := pad msg in
  let w := words (length p) p in
  let s := foldl compress init (blocks (length w) w) in
  be_bytes 4 (ha s) ++ be_bytes 4 (hb s) ++ be_bytes 4 (hc s) ++
  be_bytes 4 (hd s) ++ be_bytes 4 (he s).

Lemma length_be4 n x : length (be_bytes n x) = n.
Proof. induction n; simpl; auto. Qed.
Lemma length_sum msg : length (sum msg) = 20%nat.
Proof. unfold sum. by rewrite !length_app, !length_be4. Qed.

(** The test vector of FIPS 180-1. *)
Example sum_abc : hex_bytes (sum (bytes_of "abc")) = "a9993e364706816aba3e25717850c26c9cd0d89d".
Proof. vm_compute. reflexivity. Qed.
Example sum_two_blocks :
  hex_bytes (sum (bytes_of "abcdbcdecdefdefgefghfghighijhijkijkljklmklmnlmnomnopnopq")) =
  "84983e441c3bd26ebaae4aa1f95129e5e54670f1".
Proof. vm_compute. reflexivity. Qed.

End Sha1.
