(* ===== verification/GoNet.v ===== *)
(** * Package [net] of the Go standard library: addresses and CIDR blocks

    A [net.IP] is a byte slice of length 4 or 16 ([nil] is the empty slice);
    bytes are integers of [0..255]. [ParseIP] and [ParseCIDR] follow
    [netip.ParseAddr]: dotted decimal without leading zeros, and IPv6 text with
    an optional [::] and an optional trailing dotted quad. *)
From S2P Require Import Prelude GoStrings.

Abbreviation IP := (list Z).

(** ** Bytes *)
Definition is_byte (b : Z) : Prop := 0 <= b < 256.
Definition wf_ip (ip : IP) : Prop := Forall is_byte ip.

Definition v4InV6Prefix : list Z := [0; 0; 0; 0; 0; 0; 0; 0; 0; 0; 255; 255].

(** [IP.To4]: [None] is Go's [nil]. *)
Definition To4 (ip : IP) : option IP :=
  if bool_decide (length ip = 4%nat) then Some ip
  else if bool_decide (length ip = 16%nat) && bool_decide (take 12 ip = v4InV6Prefix)
  then Some (drop 12 ip) else None.
(** [IP.To16]: the empty slice is [nil]. *)
Definition To16 (ip : IP) : IP :=
  if bool_decide (length ip = 4%nat) then v4InV6Prefix ++ ip
  else if bool_decide (length ip = 16%nat) then ip else [].

(** [IP.Equal]: an IPv4 address and its 16-byte form are equal. *)
Definition IP_Equal (ip x : IP) : bool :=
  if bool_decide (length ip = length x) then bool_decide (ip = x)
  else if bool_decide (length ip = 4%nat) && bool_decide (length x = 16%nat) then
    bool_decide (take 12 x = v4InV6Prefix) && bool_decide (ip = drop 12 x)
  else if bool_decide (length ip = 16%nat) && bool_decide (length x = 4%nat) then
    bool_decide (take 12 ip = v4InV6Prefix) && bool_decide (drop 12 ip = x)
  else false.

(** ** Big-endian value: [big.Int.SetBytes] and [big.Int.Bytes] *)
Definition be_val (l : list Z) : Z := foldl (fun acc b => acc * 256 + b) 0 l.
Fixpoint be_bytes (n : nat) (x : Z) : list Z :=
  match n with
  | O => []
  | S n' => be_bytes n' (x / 256) ++ [x mod 256]
  end.

Lemma be_val_snoc l b : be_val (l ++ [b]) = be_val l * 256 + b.
Proof. unfold be_val. by rewrite foldl_app. Qed.
Lemma be_val_app l1 l2 : be_val (l1 ++ l2) = be_val l1 * 256 ^ Z.of_nat (length l2) + be_val l2.
Proof.
  induction l2 as [|b l2 IH] using rev_ind.
  - rewrite app_nil_r. change (be_val []) with 0. simpl. lia.
  - rewrite (assoc_L (++)), !be_val_snoc, IH, length_app, Nat2Z.inj_add. simpl length.
    rewrite Z.pow_add_r by lia. change (256 ^ Z.of_nat 1) with 256. lia.
Qed.
Lemma be_val_cons b l : be_val (b :: l) = b * 256 ^ Z.of_nat (length l) + be_val l.
Proof. change (b :: l) with ([b] ++ l). rewrite be_val_app. unfold be_val at 1. simpl. lia. Qed.
Lemma be_val_bounds l : wf_ip l -> 0 <= be_val l < 256 ^ Z.of_nat (length l).
Proof.
  induction l as [|b l IH] using rev_ind; intros Hwf.
  - change (be_val []) with 0. simpl. lia.
  - apply Forall_app in Hwf as [Hl Hb]. apply Forall_cons in Hb as [Hb _].
    specialize (IH Hl). unfold is_byte in Hb.
    rewrite be_val_snoc, length_app, Nat2Z.inj_add, Z.pow_add_r by lia.
    change (256 ^ Z.of_nat (length [b])) with 256. lia.
Qed.
Lemma be_val_inj l1 l2 :
  wf_ip l1 -> wf_ip l2 -> length l1 = length l2 -> be_val l1 = be_val l2 -> l1 = l2.
Proof.
  revert l2. induction l1 as [|b1 l1 IH] using rev_ind; intros l2 H1 H2 Hlen Hval.
  - by destruct l2.
  - destruct l2 as [|b2 l2 _] using rev_ind; [rewrite length_app in Hlen; simpl in Hlen; lia|].
    rewrite !length_app in Hlen. simpl in Hlen.
    apply Forall_app in H1 as [H1 Hb1], H2 as [H2 Hb2].
    apply Forall_cons in Hb1 as [Hb1 _], Hb2 as [Hb2 _]. unfold is_byte in *.
    rewrite !be_val_snoc in Hval.
    assert (be_val l1 = be_val l2 /\ b1 = b2) as [Hv ->] by lia.
    f_equal. apply IH; auto with lia.
Qed.
Lemma length_be_bytes n x : length (be_bytes n x) = n.
Proof. revert x; induction n as [|n IH]; intros x; simpl; [done|]. rewrite length_app, IH. simpl. lia. Qed.
Lemma wf_be_bytes n x : wf_ip (be_bytes n x).
Proof.
  revert x; induction n as [|n IH]; intros x; simpl; [constructor|].
  apply Forall_app; split; [apply IH|]. constructor; [|constructor].
  unfold is_byte. apply Z.mod_pos_bound. lia.
Qed.
Lemma be_val_be_bytes n x : 0 <= x -> be_val (be_bytes n x) = x mod 256 ^ Z.of_nat n.
Proof.
  revert x; induction n as [|n IH]; intros x Hx.
  - simpl. by rewrite Z.mod_1_r.
  - cbn [be_bytes]. rewrite be_val_snoc, IH by (apply Z.div_pos; lia).
    rewrite Nat2Z.inj_succ, Z.pow_succ_r by lia.
    pose proof (Z.rem_mul_r x 256 (256 ^ Z.of_nat n)). lia.
Qed.

(** ** Masks *)
Fixpoint cidr_mask (n : Z) (len : nat) : list Z :=
  match len with
  | O => []
  | S len' =>
      if bool_decide (8 <= n) then 255 :: cidr_mask (n - 8) len'
      else (255 - 255 / 2 ^ n) :: cidr_mask 0 len'
  end.
(** [net.CIDRMask(ones, bits)]; the callers pass [0 <= ones <= bits]. *)
Definition CIDRMask (ones bits : Z) : list Z := cidr_mask ones (Z.to_nat (bits / 8)).

(** [IP.Mask]. *)
Definition IP_Mask (ip : IP) (mask : list Z) : IP :=
  let mask := if bool_decide (length mask = 16%nat) && bool_decide (length ip = 4%nat) &&
                 bool_decide (take 12 mask = repeat 255 12)
              then drop 12 mask else mask in
  let ip := if bool_decide (length mask = 4%nat) && bool_decide (length ip = 16%nat) &&
               bool_decide (take 12 ip = v4InV6Prefix)
            then drop 12 ip else ip in
  if bool_decide (length ip = length mask) then zip_with Z.land ip mask else [].

Record IPNet := mkIPNet { net_IP : IP; net_Mask : list Z }.

(** ** Parsing *)
Definition parse_octet (s : string) : option Z :=
  match s with
  | "" => None
  | String "0" (String _ _) => None
  | _ =>
      if bool_decide (String.length s <= 3)%nat then
        v ← digits_val 0 s; if bool_decide (v <= 255) then Some v else None
      else None
  end.
Definition parse_ipv4 (s : string) : option (list Z) :=
  match split_on "." s with
  | [a; b; c; d] =>
      a ← parse_octet a; b ← parse_octet b; c ← parse_octet c; d ← parse_octet d;
      Some [a; b; c; d]
  | _ => None
  end.

Definition hex_val (a : ascii) : option Z :=
  let n := Z.of_nat (nat_of_ascii a) in
  if bool_decide (48 <= n <= 57) then Some (n - 48)
  else if bool_decide (97 <= n <= 102) then Some (n - 87)
  else if bool_decide (65 <= n <= 70) then Some (n - 55)
  else None.

(** The leading hexadecimal digits: value, number of digits, rest. *)
Fixpoint hex_run (acc : Z) (off : nat) (s : string) : Z * nat * string :=
  match s with
  | String a s' =>
      match hex_val a with
      | Some d => hex_run (acc * 16 + d) (S off) s'
      | None => (acc, off, s)
      end
  | "" => (acc, off, "")
  end.

(** The loop of [parseIPv6] over 16-bit groups: [ip] holds the bytes read so
    far and [ell] the position of [::]. The result is the bytes and [ell]. *)
Fixpoint ipv6_groups (fuel : nat) (ip : list Z) (ell : option nat) (s : string)
  : option (list Z * option nat) :=
  match fuel with
  | O => if bool_decide (s = "") then Some (ip, ell) else None
  | S fuel' =>
      if bool_decide (16 <= length ip)%nat then
        if bool_decide (s = "") then Some (ip, ell) else None
      else
      let '(acc, off, rest) := hex_run 0 0 s in
      if bool_decide (off = 0%nat) || bool_decide (4 < off)%nat then None else
      match rest with
      | String "." _ =>
          if (bool_decide (ell = None) && negb (bool_decide (length ip = 12%nat)))
             || bool_decide (12 < length ip)%nat
          then None
          else q ← parse_ipv4 s; Some (ip ++ q, ell)
      | "" => Some (ip ++ [acc / 256; acc mod 256], ell)
      | String ":" "" => None
      | String ":" (String ":" rest') =>
          if bool_decide (ell = None) then
            let ip' := ip ++ [acc / 256; acc mod 256] in
            if bool_decide (rest' = "") then Some (ip', Some (length ip'))
            else ipv6_groups fuel' ip' (Some (length ip')) rest'
          else None
      | String ":" rest' => ipv6_groups fuel' (ip ++ [acc / 256; acc mod 256]) ell rest'
      | _ => None
      end
  end.

Definition parse_ipv6 (s : string) : option (list Z) :=
  if contains_byte "%" s then None else
  let '(ell, body) := if has_prefix "::" s then (Some 0%nat, drop_str 2 s) else (None, s) in
  if bool_decide (ell = Some 0%nat) && bool_decide (body = "") then Some (repeat 0 16) else
  '(ip, ell) ← ipv6_groups 8 [] ell body;
  if bool_decide (length ip < 16)%nat then
    e ← ell; Some (take e ip ++ repeat 0 (16 - length ip) ++ drop e ip)
  else if bool_decide (ell = None) then Some ip else None.

(** [netip.ParseAddr] without zones: the first of [.], [:] decides. *)
Fixpoint first_sep (s : string) : option ascii :=
  match s with
  | "" => None
  | String a s' =>
      if bool_decide (a = "."%char \/ a = ":"%char \/ a = "%"%char) then Some a else first_sep s'
  end.
Definition parse_addr (s : string) : option (list Z) :=
  match first_sep s with
  | Some "."%char => parse_ipv4 s
  | Some ":"%char => parse_ipv6 s
  | _ => None
  end.

(** [net.ParseIP]: 16 bytes, or [nil]. *)
Definition ParseIP (s : string) : option IP := To16 <$> parse_addr s.

(** [net.ParseCIDR]: the address (16 bytes) and the network. *)
Definition dtoi (s : string) : option Z :=
  match s with
  | "" => None
  | _ => n ← digits_val 0 s; if bool_decide (n < 0xFFFFFF) then Some n else None
  end.
Definition cut_slash (s : string) : option (string * string) :=
  i ← index_byte "/" s; Some (take_str i s, drop_str (S i) s).
Definition ParseCIDR (s : string) : option (IP * IPNet) :=
  '(addr, mask) ← cut_slash s;
  ip ← parse_addr addr;
  n ← dtoi mask;
  let bits := 8 * Z.of_nat (length ip) in
  if bool_decide (n <= bits) then
    let m := CIDRMask n bits in
    Some (To16 ip, mkIPNet (IP_Mask (To16 ip) m) m)
  else None.

(** ** Printing: [IP.String] *)
Definition dotted (ip : IP) : string := join "." (map itoa ip).

Fixpoint v6_groups (l : list Z) : list Z :=
  match l with a :: b :: l' => (a * 256 + b) :: v6_groups l' | _ => [] end.
Definition hex_group (g : Z) : string :=
  let d := fun i => String (hex_digit (g / 16 ^ i mod 16)) "" in
  if bool_decide (4096 <= g) then d 3 +:+ d 2 +:+ d 1 +:+ d 0
  else if bool_decide (256 <= g) then d 2 +:+ d 1 +:+ d 0
  else if bool_decide (16 <= g) then d 1 +:+ d 0 else d 0.
Fixpoint zero_run (l : list Z) : nat :=
  match l with g :: l' => if bool_decide (g = 0) then S (zero_run l') else 0%nat | [] => 0%nat end.
(** The longest run of at least two zero groups, the first on a tie:
    start and length. *)
Fixpoint longest_zero (i : nat) (l : list Z) (best : nat * nat) : nat * nat :=
  match l with
  | [] => best
  | _ :: l' =>
      let r := zero_run l in
      longest_zero (S i) l'
        (if bool_decide (2 <= r)%nat && bool_decide (best.2 < r)%nat then (i, r) else best)
  end.
Definition v6_string (ip : IP) : string :=
  let gs := v6_groups ip in
  let '(i, r) := longest_zero 0 gs (0%nat, 0%nat) in
  if bool_decide (r = 0%nat) then join ":" (map hex_group gs)
  else join ":" (map hex_group (take i gs)) +:+ "::" +:+ join ":" (map hex_group (drop (i + r) gs)).

Definition IP_String (ip : IP) : string :=
  if bool_decide (length ip = 0%nat) then "<nil>"
  else if negb (bool_decide (length ip = 4%nat)) && negb (bool_decide (length ip = 16%nat)) then
    "?" +:+ hex_bytes ip
  else match To4 ip with Some p4 => dotted p4 | None => v6_string ip end.

(** ** Conformance examples *)
Example parse_v4 : ParseIP "10.0.0.1" = Some (v4InV6Prefix ++ [10; 0; 0; 1]).
Proof. vm_compute. reflexivity. Qed.
Example parse_v4_zero : ParseIP "10.0.0.01" = None.
Proof. vm_compute. reflexivity. Qed.
Example parse_v6 :
  ParseIP "2001:db8::1" = Some [32; 1; 13; 184; 0; 0; 0; 0; 0; 0; 0; 0; 0; 0; 0; 1].
Proof. vm_compute. reflexivity. Qed.
Example parse_v6_embedded : ParseIP "::ffff:1.2.3.4" = ParseIP "1.2.3.4".
Proof. vm_compute. reflexivity. Qed.
Example parse_v6_bad : ParseIP "1:2:3:4:5:6:7::8:9" = None /\ ParseIP "1::2::3" = None.
Proof. split; vm_compute; reflexivity. Qed.
Example print_v6 : IP_String <$> ParseIP "2001:DB8:0:0:1:0:0:1" = Some "2001:db8::1:0:0:1".
Proof. vm_compute. reflexivity. Qed.
Example print_v6_edges :
  map (fun s => IP_String <$> ParseIP s) ["::"; "::1"; "fe80::"; "1:2:3:4:5:6:7:8"] =
  [Some "::"; Some "::1"; Some "fe80::"; Some "1:2:3:4:5:6:7:8"].
Proof. vm_compute. reflexivity. Qed.
Example parse_cidr : ParseCIDR "10.1.2.3/20" =
  Some (v4InV6Prefix ++ [10; 1; 2; 3], mkIPNet [10; 1; 0; 0] [255; 255; 240; 0]).
Proof. vm_compute. reflexivity. Qed.

(** ** Parsed addresses are byte lists of length 4 or 16 *)
Lemma digits_val_nonneg acc s v : 0 <= acc -> digits_val acc s = Some v -> 0 <= v.
Proof.
  revert acc; induction s as [|a s IH]; intros acc Hacc; simpl; [by intros [= <-]|].
  unfold digit_val. case_bool_decide; simpl; [|done]. apply IH. lia.
Qed.
Lemma dtoi_nonneg s v : dtoi s = Some v -> 0 <= v.
Proof.
  unfold dtoi. destruct s; [done|]. intros (n & Hn & Hv)%bind_Some.
  case_bool_decide; simplify_eq. by eapply (digits_val_nonneg 0).
Qed.
Lemma parse_octet_byte s v : parse_octet s = Some v -> is_byte v.
Proof.
  unfold parse_octet, is_byte. destruct s as [|a s]; [done|]. intros Hv.
  assert (exists w, digits_val 0 (String a s) = Some w /\
            (if bool_decide (w <= 255) then Some w else None) = Some v) as (w & Hw & Hv').
  { repeat case_match; try done; apply bind_Some in Hv; done. }
  case_bool_decide; simplify_eq. apply digits_val_nonneg in Hw; lia.
Qed.
Lemma parse_ipv4_wf s ip : parse_ipv4 s = Some ip -> wf_ip ip /\ length ip = 4%nat.
Proof.
  unfold parse_ipv4, wf_ip. intros Hp. repeat (case_match; try done).
  repeat match goal with H : _ ≫= _ = Some _ |- _ => apply bind_Some in H as (? & ?%parse_octet_byte & H) end.
  simplify_eq. split; [|done]. by repeat (apply Forall_cons_2; [done|]).
Qed.
Lemma hex_run_bound s : forall acc off acc' off' r,
  0 <= acc < 16 ^ Z.of_nat off -> hex_run acc off s = (acc', off', r) ->
  0 <= acc' < 16 ^ Z.of_nat off'.
Proof.
  induction s as [|a s IH]; intros acc off acc' off' r Hacc; simpl; [by intros; simplify_eq|].
  destruct (hex_val a) as [d|] eqn:Ed; [|by intros; simplify_eq].
  apply IH. assert (0 <= d < 16).
  { unfold hex_val in Ed. repeat case_bool_decide; simplify_eq; lia. }
  rewrite Nat2Z.inj_succ, Z.pow_succ_r by lia. lia.
Qed.
Lemma wf_group_snoc ip acc : wf_ip ip -> 0 <= acc < 65536 -> wf_ip (ip ++ [acc / 256; acc mod 256]).
Proof.
  intros. apply Forall_app; split; [done|].
  apply Forall_cons_2; [|apply Forall_cons_2; [|done]]; unfold is_byte.
  - split; [apply Z.div_pos|apply Z.div_lt_upper_bound]; lia.
  - apply Z.mod_pos_bound. lia.
Qed.
Lemma ipv6_groups_wf fuel : forall ip ell s ip' ell',
  wf_ip ip -> Nat.Even (length ip) -> (length ip <= 16)%nat ->
  ipv6_groups fuel ip ell s = Some (ip', ell') -> wf_ip ip' /\ (length ip' <= 16)%nat.
Proof.
  induction fuel as [|fuel IH]; intros ip ell s ip' ell' Hwf [k Hk] Hle; cbn [ipv6_groups].
  { case_bool_decide; intros; simplify_eq; auto. }
  case_bool_decide as H16; [case_bool_decide; intros; simplify_eq; auto|].
  destruct (hex_run 0 0 s) as [[acc off] rest] eqn:Eh.
  case_bool_decide as Hoff0; [done|]. case_bool_decide as Hoff; [done|]. cbn [orb].
  assert (Hacc : 0 <= acc < 65536).
  { apply hex_run_bound in Eh; [|simpl; lia].
    assert (16 ^ Z.of_nat off <= 16 ^ 4) by (apply Z.pow_le_mono_r; lia). lia. }
  assert (Hlen : length (ip ++ [acc / 256; acc mod 256]) = (2 * (k + 1))%nat)
    by (rewrite length_app; simpl; lia).
  assert (Hwf' := wf_group_snoc ip acc Hwf Hacc).
  assert (Heven : Nat.Even (length (ip ++ [acc / 256; acc mod 256]))) by (eexists; exact Hlen).
  intros Hres. repeat (case_match; try done); simplify_eq;
    try (eapply IH; [exact Hwf'|exact Heven|lia|eassumption]);
    try (split; [done|lia]).
  apply bind_Some in Hres as (q & [Hq Hq4]%parse_ipv4_wf & [= <- <-]).
  split; [by apply Forall_app|]. rewrite length_app.
  match goal with H : _ || _ = false |- _ => apply orb_false_iff in H as [_ H] end.
  go_bool. lia.
Qed.
Lemma parse_addr_wf s ip :
  parse_addr s = Some ip -> wf_ip ip /\ (length ip = 4%nat \/ length ip = 16%nat).
Proof.
  unfold parse_addr. destruct (first_sep s) as [c|]; [|done].
  destruct (decide (c = "."%char)) as [->|]; [intros ?%parse_ipv4_wf; naive_solver|].
  destruct (decide (c = ":"%char)) as [->|];
    [|intros Hp; exfalso; repeat (case_match; try done); naive_solver].
  assert (Hrep : forall n, wf_ip (repeat 0 n)).
  { intros k; induction k; simpl; constructor; [unfold is_byte; lia|done]. }
  unfold parse_ipv6. case_match; [done|]. intros Hp.
  destruct (if has_prefix "::" s then _ else _) as [ell body].
  case_match; [simplify_eq; split; [apply (Hrep 16%nat)|auto]|].
  apply bind_Some in Hp as ([ip0 ell0] & Hg & Hp).
  apply ipv6_groups_wf in Hg as [Hwf Hle]; [|constructor|by exists 0%nat|simpl; lia].
  case_bool_decide as Hl.
  - apply bind_Some in Hp as (e & _ & [= <-]). split.
    + apply Forall_app; split; [by apply Forall_take|].
      apply Forall_app; split; [apply Hrep|by apply Forall_drop].
    + right. rewrite !length_app, repeat_length, length_take, length_drop. lia.
  - case_bool_decide; simplify_eq. split; [done|lia].
Qed.

(** ** Masks and values *)
Definition byte_mask_ok (n b : Z) : bool :=
  (Z.land b (255 - 255 / 2 ^ n) =? b / 2 ^ (8 - n) * 2 ^ (8 - n)) &&
  (Z.lor (Z.land b (255 - 255 / 2 ^ n)) (255 - (255 - 255 / 2 ^ n)) =?
   b / 2 ^ (8 - n) * 2 ^ (8 - n) + 2 ^ (8 - n) - 1).
Lemma byte_mask n b :
  0 <= n < 8 -> 0 <= b < 256 ->
  Z.land b (255 - 255 / 2 ^ n) = b / 2 ^ (8 - n) * 2 ^ (8 - n) /\
  Z.lor (Z.land b (255 - 255 / 2 ^ n)) (255 - (255 - 255 / 2 ^ n)) =
  b / 2 ^ (8 - n) * 2 ^ (8 - n) + 2 ^ (8 - n) - 1.
Proof.
  intros Hn Hb.
  assert (Hall : forallb (fun n => forallb (byte_mask_ok n) (seqZ 0 256)) (seqZ 0 8) = true)
    by (vm_compute; reflexivity).
  rewrite forallb_forall in Hall. specialize (Hall n). rewrite <- list_elem_of_In in Hall.
  specialize (Hall ltac:(apply elem_of_seqZ; lia)). rewrite forallb_forall in Hall.
  specialize (Hall b). rewrite <- list_elem_of_In in Hall.
  specialize (Hall ltac:(apply elem_of_seqZ; lia)). unfold byte_mask_ok in Hall.
  go_bool. exact Hall.
Qed.

(** *** IPv4 addresses read back *)
Lemma parse_octet_itoa b : is_byte b -> parse_octet (itoa b) = Some b.
Proof.
  intros Hb. assert (Hall : Forall (fun b => parse_octet (itoa b) = Some b) (seqZ 0 256)).
  { apply (bool_decide_eq_true_1 _). by vm_compute. }
  apply (proj1 (Forall_forall _ _) Hall). apply elem_of_seqZ. unfold is_byte in Hb. lia.
Qed.
Lemma first_sep_digits s c t :
  all_bytes is_digit s = true -> (c = "."%char \/ c = ":"%char \/ c = "%"%char) -> first_sep (s +:+ String c t) = Some c.
Proof.
  intros Hs Hc. induction s as [|a s IH].
  - cbn. by rewrite bool_decide_true.
  - cbn [all_bytes] in Hs. apply andb_true_iff in Hs as [Ha Hs].
    change (String a s +:+ String c t) with (String a (s +:+ String c t)). cbn [first_sep].
    rewrite bool_decide_false; [by apply IH|]. intros [->|[->| ->]]; done.
Qed.
Lemma digits_no_byte c s : is_digit c = false -> all_bytes is_digit s = true -> contains_byte c s = false.
Proof.
  intros Hc. induction s as [|a s IH]; [done|]. cbn. intros [Ha Hs]%andb_true_iff. case_decide; [congruence|]. by apply IH.
Qed.
Lemma dotted_v4 a b c d : dotted [a; b; c; d] = itoa a +:+ "." +:+ itoa b +:+ "." +:+ itoa c +:+ "." +:+ itoa d.
Proof. done. Qed.
Lemma parse_dotted l : wf_ip l -> length l = 4%nat -> parse_addr (dotted l) = Some l.
Proof.
  intros Hwf Hlen. destruct l as [|a [|b [|c [|d [|]]]]]; try done.
  assert (Hb : Forall is_byte [a; b; c; d]) by exact Hwf. rewrite !Forall_cons in Hb. destruct Hb as (Ha & Hb & Hc & Hd & _).
  unfold parse_addr. rewrite dotted_v4. change ("." +:+ itoa b +:+ "." +:+ itoa c +:+ "." +:+ itoa d)
    with (String "." (itoa b +:+ "." +:+ itoa c +:+ "." +:+ itoa d)).
  rewrite first_sep_digits; [|apply itoa_digits; unfold is_byte in *; lia|by left].
  change (itoa a +:+ String "." (itoa b +:+ "." +:+ itoa c +:+ "." +:+ itoa d)) with (join (String "." "") [itoa a; itoa b; itoa c; itoa d]).
  unfold parse_ipv4. rewrite split_join; [|done|].
  - by rewrite !parse_octet_itoa.
  - repeat constructor; (apply digits_no_byte; [done|]; apply itoa_digits; unfold is_byte in *; lia).
Qed.
Lemma dotted_no_byte c l : wf_ip l -> is_digit c = false -> c <> "."%char -> contains_byte c (dotted l) = false.
Proof.
  intros Hwf Hc Hdot. unfold dotted. induction Hwf as [|b l Hb _ IH]; [done|].
  assert (Hi : contains_byte c (itoa b) = false) by (apply digits_no_byte; [done|]; apply itoa_digits; unfold is_byte in Hb; lia).
  destruct l as [|b' l]; [exact Hi|].
  change (map itoa (b :: b' :: l)) with (itoa b :: map itoa (b' :: l)). rewrite join_cons by done.
  rewrite !contains_byte_app, Hi, IH. cbn. by rewrite decide_False by auto.
Qed.
Lemma IP_String_v4 l : length l = 4%nat -> IP_String l = dotted l.
Proof. intros Hl. unfold IP_String, To4. by rewrite Hl. Qed.
