(* ===== verification/Errors.v ===== *)
(** * pkg/nsx/util: the error values of the operator (errors.go, utils.go)

    One inductive type holds every error value the modelled components return,
    so that Go's type switches, [errors.As] and the retry predicates are
    functions on it. *)
From S2P Require Import Prelude GoStrings.

(** ** Data of the NSX API *)
Record RelatedApiError := mkRelated {
  rel_ErrorCode : option Z;
  rel_ErrorMessage : option string;
  rel_Details : option string;
  rel_ModuleName : option string }.
Record ApiError := mkApiError {
  api_ErrorCode : option Z;
  api_ErrorMessage : option string;
  api_Details : option string;
  api_RelatedErrors : list RelatedApiError }.

(** [ErrorDetail] *)
Record ErrorDetail := mkErrorDetail {
  StatusCode : Z;
  ErrorCode : Z;
  RelatedErrorCodes : list Z;
  RelatedStatusCodes : list string;
  Details : string }.

(** The concrete [NsxError] types of errors.go. *)
Inductive nsx_kind :=
  | ObjectAlreadyExists | NotImplemented | ObjectNotGenerated | CertificateError
  | GeneralNsxLibInvalidInput | GeneralManagerError | ResourceNotFound
  | MultipleResourcesFound | BackendResourceNotFound | InvalidInput | RealizationError
  | StaleRevision | GeneralServerBusy | TooManyRequests | ServiceUnavailable
  | ClientCertificateNotTrusted | BadXSRFToken | InvalidCredentials | InvalidLicense
  | BadJSONWebTokenProviderRequest | ServiceClusterUnavailable | NSGroupMemberNotFound
  | NSGroupIsFull | SecurityGroupMaximumCapacityReached | NsxSearchInvalidQuery
  | GeneralSearchError | NsxIndexingInProgress | NsxSearchTimeout | NsxSearchOutOfSync
  | NsxPendingDelete | NsxSegmentWithVM | NsxOverlapAddresses | NsxOverlapVlan
  | APITransactionAborted | CannotConnectToServer | ResourceInUse | Timeout
  | ConnectionError | GeneralNsxError.
#[global] Instance nsx_kind_eq_dec : EqDecision nsx_kind.
Proof. solve_decision. Defined.

(** ** Error values *)
Inductive goerr :=
  | EText (msg : string)                       (* errors.New, fmt.Errorf *)
  | EWrap (msg : string) (cause : goerr)       (* fmt.Errorf with %w *)
  | EJoin (e1 e2 : goerr)                      (* errors.Join *)
  | EParseCIDR (s : string)                    (* net.ParseError *)
  | EAtoi (s : string)                         (* strconv.NumError *)
  | EValidation (desc : string)                (* *ValidationError *)
  | ERestriction (desc : string)
  | ENoEffective (desc : string)
  | EPageMax (desc : string)
  | EStatus (code : Z) (msg : string)          (* Status *)
  | ECtx (msg : string)                        (* ctx.Err() *)
  | ENsx (k : nsx_kind) (detail : ErrorDetail) (msg : string)
  | ENSXApi (api : option ApiError) (ty : string)
  | ESdk (ty : string) (api : option ApiError) (* lib/vapi/std/errors, data already cast *)
  | ERealizeState (msg : string) (code : Z) (related : list Z)
  | ERetryRealize (msg : string)
  | EVlanAllocation (cause : goerr).

#[global] Instance RelatedApiError_eq_dec : EqDecision RelatedApiError.
Proof. solve_decision. Defined.
#[global] Instance ApiError_eq_dec : EqDecision ApiError.
Proof. solve_decision. Defined.
#[global] Instance ErrorDetail_eq_dec : EqDecision ErrorDetail.
Proof. solve_decision. Defined.
#[global] Instance goerr_eq_dec : EqDecision goerr.
Proof. solve_decision. Defined.

(** The error itself and the errors it wraps, in the order of [errors.As]. *)
Fixpoint chain (e : goerr) : list goerr :=
  e :: match e with
       | EWrap _ c => chain c
       | EJoin e1 e2 => chain e1 ++ chain e2
       | EVlanAllocation c => chain c
       | _ => []
       end.
(** [errors.As(err, &target)]: the first error of the chain of the type. *)
Definition errors_As {A} (sel : goerr -> option A) (e : goerr) : option A :=
  head (omap sel (chain e)).

Definition noDetail : ErrorDetail := mkErrorDetail 0 0 [] [] "".
(** [errorTable]'s factories: [&T{}]. *)
Definition new_nsx (k : nsx_kind) : goerr := ENsx k noDetail "".

(** [%v] on a slice. *)
Definition fmt_ints (l : list Z) : string := "[" +:+ join " " (map itoa l) +:+ "]".
Definition fmt_strs (l : list string) : string := "[" +:+ join " " l +:+ "]".

(** [(e *ErrorDetail) Error] *)
Definition ErrorDetail_Error (e : ErrorDetail) : string :=
  let msg := "StatusCode is " +:+ itoa (StatusCode e) +:+ "," in
  let msg := if bool_decide (0 < ErrorCode e)
             then msg +:+ "ErrorCode is " +:+ itoa (ErrorCode e) +:+ "," else msg in
  let msg := if bool_decide (RelatedErrorCodes e <> [])
             then msg +:+ "RelatedErrorCodes is " +:+ fmt_ints (RelatedErrorCodes e) +:+ ","
             else msg in
  let msg := if bool_decide (RelatedStatusCodes e <> [])
             then msg +:+ "RelatedStatusCodes is " +:+ fmt_strs (RelatedStatusCodes e) +:+ ","
             else msg in
  if bool_decide (Details e <> "") then msg +:+ "Detail is " +:+ Details e else msg.

(** [(impl *nsxErrorImpl) Error] and [setDetail] *)
Definition nsxErrorImpl_Error (detail : ErrorDetail) (msg : string) : string :=
  if bool_decide (StatusCode detail <> 0) then msg +:+ ErrorDetail_Error detail else msg.
Definition setDetail (e : goerr) (detail : ErrorDetail) : goerr :=
  match e with ENsx k _ msg => ENsx k detail msg | _ => e end.

Definition CreateGeneralManagerError (manager operation details : string) : goerr :=
  ENsx GeneralManagerError noDetail
    ("Unexpected error from backend manager (" +:+ manager +:+ ") for " +:+ operation +:+ details).
Definition CreateTimeout (host : string) : goerr :=
  ENsx Timeout noDetail ("Connect to " +:+ host +:+ " timeout").
Definition CreateConnectionError (host : string) : goerr :=
  ENsx ConnectionError noDetail ("Connect to " +:+ host +:+ " error").
Definition CreateNsxPendingDelete : goerr :=
  ENsx NsxPendingDelete noDetail
    "An object with the same name is marked for deletion. Either use another path or wait for the purge cycle to permanently remove the deleted object".
Definition CreateServiceClusterUnavailable (clusterID : string) : goerr :=
  ENsx ServiceClusterUnavailable noDetail
    ("Service cluster: '" +:+ clusterID +:+
     "' is unavailable. Please, check NSX setup and/or configuration").

(** ** Categories of errors (utils.go) *)

(** Go's name of the type, the part after the dot of [reflect.TypeOf(err).String()]. *)
Definition kind_name (k : nsx_kind) : string :=
  match k with
  | ObjectAlreadyExists => "ObjectAlreadyExists" | NotImplemented => "NotImplemented"
  | ObjectNotGenerated => "ObjectNotGenerated" | CertificateError => "CertificateError"
  | GeneralNsxLibInvalidInput => "GeneralNsxLibInvalidInput"
  | GeneralManagerError => "GeneralManagerError" | ResourceNotFound => "ResourceNotFound"
  | MultipleResourcesFound => "MultipleResourcesFound"
  | BackendResourceNotFound => "BackendResourceNotFound" | InvalidInput => "InvalidInput"
  | RealizationError => "RealizationError" | StaleRevision => "StaleRevision"
  | GeneralServerBusy => "GeneralServerBusy" | TooManyRequests => "TooManyRequests"
  | ServiceUnavailable => "ServiceUnavailable"
  | ClientCertificateNotTrusted => "ClientCertificateNotTrusted"
  | BadXSRFToken => "BadXSRFToken" | InvalidCredentials => "InvalidCredentials"
  | InvalidLicense => "InvalidLicense"
  | BadJSONWebTokenProviderRequest => "BadJSONWebTokenProviderRequest"
  | ServiceClusterUnavailable => "ServiceClusterUnavailable"
  | NSGroupMemberNotFound => "NSGroupMemberNotFound" | NSGroupIsFull => "NSGroupIsFull"
  | SecurityGroupMaximumCapacityReached => "SecurityGroupMaximumCapacityReached"
  | NsxSearchInvalidQuery => "NsxSearchInvalidQuery" | GeneralSearchError => "GeneralSearchError"
  | NsxIndexingInProgress => "NsxIndexingInProgress" | NsxSearchTimeout => "NsxSearchTimeout"
  | NsxSearchOutOfSync => "NsxSearchOutOfSync" | NsxPendingDelete => "NsxPendingDelete"
  | NsxSegmentWithVM => "NsxSegmentWithVM" | NsxOverlapAddresses => "NsxOverlapAddresses"
  | NsxOverlapVlan => "NsxOverlapVlan" | APITransactionAborted => "APITransactionAborted"
  | CannotConnectToServer => "CannotConnectToServer" | ResourceInUse => "ResourceInUse"
  | Timeout => "Timeout" | ConnectionError => "ConnectionError"
  | GeneralNsxError => "GeneralNsxError"
  end.
Definition go_type_name (e : goerr) : string :=
  match e with
  | EText _ => "errorString" | EWrap _ _ => "wrapError" | EJoin _ _ => "joinError"
  | EParseCIDR _ => "ParseError" | EAtoi _ => "NumError" | EValidation _ => "ValidationError"
  | ERestriction _ => "RestrictionError" | ENoEffective _ => "NoEffectiveOption"
  | EPageMax _ => "PageMaxError" | EStatus _ _ => "Status" | ECtx _ => "deadlineExceededError"
  | ENsx k _ _ => kind_name k | ENSXApi _ _ => "NSXApiError" | ESdk ty _ => ty
  | ERealizeState _ _ _ => "RealizeStateError" | ERetryRealize _ => "RetryRealizeError"
  | EVlanAllocation _ => "VlanAllocationError"
  end.

Definition groundTriggers : list string := ["ConnectionError"; "Timeout"].
Definition retriables : list string :=
  ["APITransactionAborted"; "CannotConnectToServer"; "ServerBusy"].
Definition regenerateTriggers : list string :=
  ["InvalidCredentials"; "ClientCertificateNotTrusted"; "BadXSRFToken"].
Definition category (err : option goerr) (table : list string) : bool :=
  match err with
  | None => false
  | Some e => bool_decide (go_type_name e ∈ table)
  end.
Definition ShouldGroundPoint (err : option goerr) : bool := category err groundTriggers.
Definition ShouldRetry (err : option goerr) : bool := category err retriables.
Definition ShouldRegenerate (err : option goerr) : bool := category err regenerateTriggers.

(** ** From HTTP responses to errors (utils.go) *)
Definition errmap := gmap string nsx_kind.
Definition errorTable : gmap string (gmap string nsx_kind) := list_to_map
  [("404", list_to_map [("202", BackendResourceNotFound); ("500090", StaleRevision);
                        ("default", ResourceNotFound)]);
   ("400", list_to_map [("60508", NsxIndexingInProgress); ("60514", NsxSearchTimeout);
                        ("60515", NsxSearchOutOfSync); ("8327", NsxOverlapVlan);
                        ("640873", NsxOverlapVlan); ("500045", NsxPendingDelete);
                        ("500030", ResourceInUse); ("500087", StaleRevision);
                        ("500105", NsxOverlapAddresses); ("500232", StaleRevision);
                        ("503040", NsxSegmentWithVM); ("100148", StaleRevision)]);
   ("500", list_to_map [("98", CannotConnectToServer); ("99", ClientCertificateNotTrusted);
                        ("607", APITransactionAborted)]);
   ("403", list_to_map [("98", BadXSRFToken); ("403", InvalidCredentials);
                        ("505", InvalidLicense)])].
Definition errorTable1 : gmap string nsx_kind := list_to_map
  [("409", StaleRevision); ("412", StaleRevision); ("429", TooManyRequests);
   ("503", ServiceUnavailable)].

Definition httpErrortoNSXError (detail : ErrorDetail) : goerr :=
  let from_table :=
    match errorTable !! itoa (StatusCode detail) with
    | None => None
    | Some e =>
        let direct :=
          if bool_decide (0 < ErrorCode detail) then e !! itoa (ErrorCode detail) else None in
        let related := head (omap (fun i => e !! itoa i) (RelatedErrorCodes detail)) in
        match direct with
        | Some k => Some k
        | None => match related with Some k => Some k | None => e !! "default" end
        end
    end in
  match from_table with
  | Some k => setDetail (new_nsx k) detail
  | None =>
      match errorTable1 !! itoa (StatusCode detail) with
      | Some k => setDetail (new_nsx k) detail
      | None => CreateGeneralManagerError "" "" (ErrorDetail_Error detail)
      end
  end.

(** The decoded body of an NSX error response. *)
Record relatedErrors := mkRelatedErrors {
  re_HTTPStatus : string; re_ErrorCode : Z; re_ErrorMessage : string }.
Record responseBody := mkResponseBody {
  rb_ErrorCode : Z; rb_RelatedErr : list relatedErrors; rb_ErrorMsg : string }.

Section Http.
(** [json.Unmarshal] into a [responseBody]: the value, or the error text. *)
Variable unmarshal : string -> result string responseBody.

Definition extractHTTPDetailFromBody (host : string) (statusCode : Z) (body : string)
  : ErrorDetail * option goerr :=
  let ec := mkErrorDetail statusCode 0 [] [] "" in
  if bool_decide (body = "") then (ec, None)
  else match unmarshal body with
  | Err msg => (ec, Some (CreateGeneralManagerError host "decode body" msg))
  | Ok res =>
      let msg := rb_ErrorMsg res :: map re_ErrorMessage (rb_RelatedErr res) in
      (mkErrorDetail statusCode (rb_ErrorCode res)
         (map re_ErrorCode (rb_RelatedErr res)) (map re_HTTPStatus (rb_RelatedErr res))
         (rb_ErrorMsg res +:+ join " " msg), None)
  end.

(** [err.Error()] of a [CreateGeneralManagerError] value. *)
Definition nsx_text (e : goerr) : string :=
  match e with ENsx _ d msg => nsxErrorImpl_Error d msg | _ => "" end.

Definition InitErrorFromResponse (host : string) (statusCode : Z) (body : string)
  : option goerr :=
  match extractHTTPDetailFromBody host statusCode body with
  | (_, Some e) => Some (CreateGeneralManagerError host "decode body" (nsx_text e))
  | (detail, None) =>
      if bool_decide (ErrorCode detail = 0) || bool_decide (StatusCode detail = 200) then None
      else Some (httpErrortoNSXError detail)
  end.
End Http.

(** ** NSX API errors (utils.go) *)
Definition InvalidLicenseErrorCode : Z := 505.
Definition ProviderNotReadyErrorCode : Z := 500042.
Definition PendingDeleteErrorCode : Z := 500045.
Definition VpcOverlapVlanErrorCode : Z := 640873.
Definition IsMixedModeIPAllocationError (code : Z) : bool :=
  bool_decide (660000 <= code) && bool_decide (code <= 660011).

Definition safeString (p : option string) : string := default "" p.
Definition safeInt (p : option Z) : Z := default 0 p.

Definition relatedErrorToString (err : RelatedApiError) : string :=
  let details := safeString (rel_Details err) in
  let tail := "ErrorCode: " +:+ itoa (safeInt (rel_ErrorCode err)) +:+ ", ErrorMessage: " +:+
              safeString (rel_ErrorMessage err) +:+ ", ModuleName: " +:+
              safeString (rel_ModuleName err) +:+ "}" in
  if bool_decide (details <> "") then "{Details: " +:+ details +:+ ", " +:+ tail
  else "{" +:+ tail.
(** A nil slice prints as [nil] and an empty one as []; both are left out of
    the message by the caller. *)
Definition relatedErrorsToString (errors : list RelatedApiError) : string :=
  match errors with
  | [] => "nil"
  | _ => "[" +:+ join ", " (map relatedErrorToString errors) +:+ "]"
  end.

(** [( *NSXApiError) Error] *)
Definition NSXApiError_Error (api : option ApiError) : string :=
  match api with
  | None => "SDKError: unknown error"
  | Some a =>
      let msg := "nsx error code: " +:+ itoa (safeInt (api_ErrorCode a)) +:+ ", message: " +:+
                 safeString (api_ErrorMessage a) in
      let details := safeString (api_Details a) in
      let msg := if bool_decide (details <> "") then msg +:+ ", details: " +:+ details else msg in
      let rel := relatedErrorsToString (api_RelatedErrors a) in
      if bool_decide (rel <> "nil") && bool_decide (rel <> "[]")
      then msg +:+ ", related error: " +:+ rel else msg
  end.

(** The vAPI error types [DumpAPIError] lists. *)
Definition dumped_types : list string :=
  ["AlreadyExists"; "AlreadyInDesiredState"; "Canceled"; "ConcurrentChange"; "Error";
   "FeatureInUse"; "InternalServerError"; "InvalidRequest"; "InvalidArgument";
   "InvalidElementConfiguration"; "InvalidElementType"; "NotAllowedInCurrentState"; "NotFound";
   "OperationNotFound"; "ResourceBusy"; "ResourceInUse"; "ResourceInaccessible";
   "ServiceUnavailable"; "TimedOut"; "UnableToAllocateResource"; "Unauthenticated";
   "Unauthorized"; "UnexpectedInput"; "Unsupported"; "UnverifiedPeer"].
Definition DumpAPIError (err : goerr) : option ApiError * option string :=
  match err with
  | ESdk ty api => if bool_decide (ty ∈ dumped_types) then (api, Some ty) else (None, None)
  | _ => (None, None)
  end.

Definition TransNSXApiError (err : option goerr) : option goerr :=
  match err with
  | None => None
  | Some e =>
      match DumpAPIError e with
      | (Some api, Some ty) => Some (ENSXApi (Some api) ty)
      | _ => Some e
      end
  end.

(** ** Errors that carry a retry delay *)
Definition DefaultPendingDeleteRetryAfterSeconds : Z := 300.
Definition RetryAfterSeconds (e : goerr) : option Z :=
  match e with
  | ENsx NsxPendingDelete _ _ => Some DefaultPendingDeleteRetryAfterSeconds
  | _ => None
  end.
Definition AsRetryAfterError (err : option goerr) : option goerr :=
  e ← err; errors_As (fun e => if RetryAfterSeconds e is Some _ then Some e else None) e.

Definition isPendingDeleteCode (code : option Z) : bool :=
  bool_decide (code = Some PendingDeleteErrorCode).
Definition toNsxPendingDelete (code : option Z) (errMsg details : option string) : goerr :=
  match CreateNsxPendingDelete with
  | ENsx k d m =>
      let m := default m errMsg in
      match code with
      | Some c => setDetail (ENsx k d m) (mkErrorDetail 0 c [] [] (safeString details))
      | None => ENsx k d m
      end
  | e => e
  end.
Definition apiErrorToRetryAfterError (err : option ApiError) : option goerr :=
  a ← err;
  if isPendingDeleteCode (api_ErrorCode a)
  then Some (toNsxPendingDelete (api_ErrorCode a) (api_ErrorMessage a) (api_Details a))
  else
    rel ← List.find (fun r => isPendingDeleteCode (rel_ErrorCode r)) (api_RelatedErrors a);
    Some (toNsxPendingDelete (rel_ErrorCode rel) (rel_ErrorMessage rel) (rel_Details rel)).

(** The first [*NSXApiError] of the chain, and its API error when not nil. *)
Definition as_NSXApiError (e : goerr) : option (option ApiError) :=
  errors_As (fun e => match e with ENSXApi api _ => Some api | _ => None end) e.

Definition ConvertToRetryAfterError (err : option goerr) : option goerr :=
  match err with
  | None => None
  | Some e =>
      match AsRetryAfterError err with
      | Some r => Some r
      | None =>
          match apiErrorToRetryAfterError (mjoin (as_NSXApiError e)) with
          | Some r => Some r
          | None => apiErrorToRetryAfterError (DumpAPIError e).1
          end
      end
  end.

(** ** Error codes of an error (errors.go) *)
Definition addCode (codes : list Z) (code : Z) : list Z :=
  if bool_decide (0 < code) && bool_decide (code ∉ codes) then codes ++ [code] else codes.

Definition as_RealizeState (e : goerr) : option (Z * list Z) :=
  errors_As (fun e => match e with ERealizeState _ c r => Some (c, r) | _ => None end) e.
Definition as_GeneralNsxError (e : goerr) : option ErrorDetail :=
  errors_As (fun e => match e with ENsx GeneralNsxError d _ => Some d | _ => None end) e.

(** The codes each of the three steps of [ExtractAllErrorCodes] offers. *)
Definition api_codes (api : option ApiError) : list Z :=
  match api with
  | None => []
  | Some a => omap id (api_ErrorCode a :: map rel_ErrorCode (api_RelatedErrors a))
  end.
Definition offered_codes (e : goerr) : list Z :=
  api_codes (mjoin (as_NSXApiError e)) ++
  match as_RealizeState e with Some (c, r) => c :: r | None => [] end ++
  match as_GeneralNsxError e with Some d => ErrorCode d :: RelatedErrorCodes d | None => [] end.

Definition ExtractAllErrorCodes (err : option goerr) : list Z :=
  match err with
  | None => []
  | Some e =>
      let codes := [] in
      let codes :=
        match as_NSXApiError e with
        | Some (Some a) =>
            let codes := match api_ErrorCode a with Some c => addCode codes c | None => codes end in
            foldl (fun codes rel =>
                     match rel_ErrorCode rel with Some c => addCode codes c | None => codes end)
              codes (api_RelatedErrors a)
        | _ => codes
        end in
      let codes :=
        match as_RealizeState e with
        | Some (c, related) =>
            let codes := if bool_decide (0 < c) then addCode codes c else codes in
            foldl (fun codes rc => if bool_decide (0 < rc) then addCode codes rc else codes)
              codes related
        | None => codes
        end in
      match as_GeneralNsxError e with
      | Some d => foldl addCode (addCode codes (ErrorCode d)) (RelatedErrorCodes d)
      | None => codes
      end
  end.

Definition HasAnyErrorCode (err : option goerr) (targetCodes : list Z) : bool :=
  match err, targetCodes with
  | None, _ | _, [] => false
  | _, _ => existsb (fun c => existsb (Z.eqb c) targetCodes) (ExtractAllErrorCodes err)
  end.
Definition GetFirstMatchingErrorCode (err : option goerr) (targetCodes : list Z) : Z :=
  match err, targetCodes with
  | None, _ | _, [] => 0
  | _, _ =>
      default 0 (List.find (fun t => existsb (fun c => c =? t) (ExtractAllErrorCodes err))
                   targetCodes)
  end.
Definition LBSEdgeCapacityErrorCodes : list Z := [502105; 502103; 10087; 10145].
Definition IsLBSEdgeCapacityError (err : option goerr) : bool :=
  HasAnyErrorCode err LBSEdgeCapacityErrorCodes.
Definition GetLBSEdgeCapacityErrorCode (err : option goerr) : Z :=
  GetFirstMatchingErrorCode err LBSEdgeCapacityErrorCodes.

Definition IsRealizeStateError (err : option goerr) : bool :=
  match err with Some (ERealizeState _ _ _) => true | _ => false end.

(** Only a top-level [*NSXApiError] is looked at; its [ErrorCode] field is that
    of the embedded pointer, so a nil API error panics. *)
Definition IsVpcOverlapVlanError (err : option goerr) : option bool :=
  match err with
  | Some (ENSXApi None _) => None
  | Some (ENSXApi (Some a) _) =>
      Some (bool_decide (api_ErrorCode a = Some VpcOverlapVlanErrorCode) ||
            existsb (fun r => bool_decide (rel_ErrorCode r = Some VpcOverlapVlanErrorCode))
              (api_RelatedErrors a))
  | _ => Some false
  end.

(** *** Facts about the collected codes *)
Lemma elem_of_addCode codes c x :
  x ∈ addCode codes c <-> x ∈ codes \/ (x = c /\ 0 < c).
Proof.
  unfold addCode. case_bool_decide; case_bool_decide; simpl; set_solver by lia.
Qed.
Lemma NoDup_addCode codes c : NoDup codes -> NoDup (addCode codes c).
Proof.
  unfold addCode. intros. case_bool_decide; case_bool_decide; simpl; try done.
  apply NoDup_app. split_and!; [done|set_solver|apply NoDup_singleton].
Qed.
Lemma addCode_guard codes c :
  (if bool_decide (0 < c) then addCode codes c else codes) = addCode codes c.
Proof. unfold addCode. by case_bool_decide. Qed.

Lemma elem_of_foldl_addCode l codes x :
  x ∈ foldl addCode codes l <-> x ∈ codes \/ (x ∈ l /\ 0 < x).
Proof.
  revert codes; induction l as [|c l IH]; intros codes; simpl; [set_solver|].
  rewrite IH, elem_of_addCode. set_solver.
Qed.
Lemma NoDup_foldl_addCode l codes : NoDup codes -> NoDup (foldl addCode codes l).
Proof. revert codes; induction l as [|c l IH]; simpl; auto using NoDup_addCode. Qed.

Lemma ExtractAllErrorCodes_offered e :
  ExtractAllErrorCodes (Some e) = foldl addCode [] (offered_codes e).
Proof.
  unfold ExtractAllErrorCodes, offered_codes. rewrite !foldl_app.
  assert (Hrel : forall rels codes,
    foldl (fun codes rel => match rel_ErrorCode rel with
                            | Some c => addCode codes c | None => codes end) codes rels =
    foldl addCode codes (omap id (map rel_ErrorCode rels))).
  { induction rels as [|r rels IH]; intros codes; simpl; [done|].
    rewrite IH. by destruct (rel_ErrorCode r). }
  assert (Hg : forall l codes,
    foldl (fun codes rc => if bool_decide (0 < rc) then addCode codes rc else codes) codes l =
    foldl addCode codes l).
  { induction l as [|c l IH]; intros codes; simpl; [done|]. by rewrite addCode_guard, IH. }
  destruct (as_NSXApiError e) as [[a|]|]; simpl; rewrite ?Hrel;
    destruct (as_RealizeState e) as [[c r]|]; simpl; rewrite ?Hg, ?addCode_guard;
    destruct (as_GeneralNsxError e); simpl; try done;
    by destruct (api_ErrorCode a).
Qed.

(** *** Facts about the error tables *)
Lemma itoa_inj m n : itoa m = itoa n -> m = n.
Proof. apply pretty_Z_inj. Qed.

(** Looking up a number in a table with one more numeric key. *)
Lemma lookup_itoa_insert {A} (m : gmap string A) (s : string) v n :
  itoa (default 0 (atoi s)) = s ->
  <[s := v]> m !! itoa n = if decide (n = default 0 (atoi s)) then Some v else m !! itoa n.
Proof.
  generalize (default 0 (atoi s)) as k. intros k <-.
  case_decide as Hd; [subst; apply lookup_insert_eq|].
  apply lookup_insert_ne. intros Heq. by apply itoa_inj in Heq.
Qed.

Definition row_values_ok (sc : Z) : bool :=
  match errorTable !! itoa sc with
  | Some row => forallb (fun kv => negb (bool_decide (kind_name kv.2 ∈ retriables)))
                  (map_to_list row)
  | None => true
  end.

Lemma row_not_retriable sc row s k :
  row_values_ok sc = true -> errorTable !! itoa sc = Some row -> row !! s = Some k ->
  kind_name k ∉ retriables.
Proof.
  unfold row_values_ok. intros Hok Hrow Hk. rewrite Hrow, forallb_forall in Hok.
  specialize (Hok (s, k)). simpl in Hok. rewrite negb_true_iff, bool_decide_eq_false in Hok.
  apply Hok. apply list_elem_of_In. by apply elem_of_map_to_list.
Qed.

Lemma errorTable_cases sc :
  (sc = 500 /\ exists row, errorTable !! itoa sc = Some row /\ row !! "default" = None /\
     forall c, row !! itoa c = if decide (c = 98) then Some CannotConnectToServer else
       if decide (c = 99) then Some ClientCertificateNotTrusted else
       if decide (c = 607) then Some APITransactionAborted else None)
  \/ (sc <> 500 /\ row_values_ok sc = true).
Proof.
  destruct (decide (sc = 500)) as [->|Hne]; [left|right].
  - split; [done|]. eexists. split; [reflexivity|]. split; [reflexivity|].
    intros c. cbn [list_to_map foldr fst snd].
    rewrite !lookup_itoa_insert by reflexivity. by rewrite lookup_empty.
  - split; [done|]. unfold row_values_ok, errorTable. cbn [list_to_map foldr fst snd].
    rewrite !lookup_itoa_insert by reflexivity. rewrite lookup_empty.
    repeat case_decide; subst; try done.
Qed.

(** The codes [httpErrortoNSXError] tries, in order. *)
Definition codes_tried (d : ErrorDetail) : list Z :=
  (if bool_decide (0 < ErrorCode d) then [ErrorCode d] else []) ++ RelatedErrorCodes d.
Lemma omap_head_codes {A} (f : Z -> option A) (dflt : option A) (d : ErrorDetail) :
  match (if bool_decide (0 < ErrorCode d) then f (ErrorCode d) else None) with
  | Some k => Some k
  | None => match head (omap f (RelatedErrorCodes d)) with Some k => Some k | None => dflt end
  end = match head (omap f (codes_tried d)) with Some k => Some k | None => dflt end.
Proof. unfold codes_tried. case_bool_decide; simpl; [by destruct (f (ErrorCode d))|done]. Qed.

Lemma head_omap_elem {A B} (f : A -> option B) l b :
  head (omap f l) = Some b -> exists a, f a = Some b.
Proof.
  induction l as [|a l IH]; simpl; [done|]. destruct (f a) eqn:Ea; simpl; [|done].
  intros [= ->]. eauto.
Qed.
Lemma kind_retriable k :
  kind_name k ∈ retriables <-> k = APITransactionAborted \/ k = CannotConnectToServer.
Proof.
  rewrite <- (bool_decide_eq_true (_ ∈ _)), <- (bool_decide_eq_true (_ \/ _)).
  by destruct k.
Qed.

(** *** Facts about retry delays *)
Lemma apiErrorToRetryAfterError_iff api :
  is_Some (apiErrorToRetryAfterError api) <-> PendingDeleteErrorCode ∈ api_codes api.
Proof.
  destruct api as [a|]; simpl; [|split; [by intros []|set_solver]].
  unfold isPendingDeleteCode. destruct (api_ErrorCode a) as [c|] eqn:Ec; simpl.
  - case_bool_decide as Hc; [split; [set_solver|eauto]|].
    rewrite elem_of_cons. assert (PendingDeleteErrorCode <> c) by congruence.
    induction (api_RelatedErrors a) as [|r rs IH]; simpl; [naive_solver set_solver|].
    case_bool_decide as Hr; [rewrite Hr; simpl; split; [set_solver|eauto]|].
    destruct (rel_ErrorCode r); simpl; [rewrite elem_of_cons|]; naive_solver.
  - try rewrite bool_decide_eq_false_2 by done.
    induction (api_RelatedErrors a) as [|r rs IH]; simpl; [split; [by intros []|set_solver]|].
    case_bool_decide as Hr; [rewrite Hr; simpl; split; [set_solver|eauto]|].
    destruct (rel_ErrorCode r); simpl; [rewrite elem_of_cons|]; naive_solver.
Qed.
Lemma apiErrorToRetryAfterError_delay api r :
  apiErrorToRetryAfterError api = Some r -> RetryAfterSeconds r = Some 300.
Proof.
  assert (Ht : forall c m d, RetryAfterSeconds (toNsxPendingDelete c m d) = Some 300)
    by (by intros [c|] m d).
  destruct api as [a|]; simpl; [|done]. case_match; [by intros [= <-]|].
  destruct (List.find _ _); simpl; [by intros [= <-]|done].
Qed.
(** ** Properties *)

(** The codes collected from an error are distinct and are exactly the
    positive codes its first [*NSXApiError], [*RealizeStateError] and
    [*GeneralNsxError] carry. *)
Theorem ExtractAllErrorCodes_spec e :
  NoDup (ExtractAllErrorCodes (Some e)) /\
  forall c, c ∈ ExtractAllErrorCodes (Some e) <-> c ∈ offered_codes e /\ 0 < c.
Proof.
  rewrite ExtractAllErrorCodes_offered. split.
  - apply NoDup_foldl_addCode, NoDup_nil_2.
  - intros c. rewrite elem_of_foldl_addCode. set_solver.
Qed.

(** [GetFirstMatchingErrorCode] respects the priority of its targets: a
    result other than 0 is a code of the error, and no target listed before it
    is. *)
Theorem GetFirstMatchingErrorCode_priority e ts t :
  GetFirstMatchingErrorCode (Some e) ts = t -> t <> 0 ->
  exists before after, ts = before ++ t :: after /\
    t ∈ ExtractAllErrorCodes (Some e) /\
    Forall (fun b => b ∉ ExtractAllErrorCodes (Some e)) before.
Proof.
  destruct ts as [|t0 ts]; [by intros <-|].
  unfold GetFirstMatchingErrorCode.
  generalize (ExtractAllErrorCodes (Some e)) as codes; intros codes Hf Hne.
  assert (Hex : forall x, existsb (fun c => c =? x) codes = true <-> x ∈ codes).
  { intros x. rewrite existsb_exists. setoid_rewrite <- list_elem_of_In.
    setoid_rewrite Z.eqb_eq. naive_solver. }
  revert Hf. generalize (t0 :: ts) as l. induction l as [|x l IH]; simpl; [naive_solver|].
  destruct (existsb (fun c => c =? x) codes) eqn:Ex; simpl.
  - intros ->. exists [], l. rewrite Hex in Ex. naive_solver.
  - intros Hf. destruct (IH Hf) as (b & a & -> & Hin & Hall).
    exists (x :: b), a. split_and!; [done..|]. constructor; [|done].
    rewrite <- Hex. congruence.
Qed.
Lemma GetFirstMatchingErrorCode_priority_witness :
  let e := ENSXApi (Some (mkApiError (Some 10087) None None [mkRelated (Some 502103) None None None])) "Error" in
  GetFirstMatchingErrorCode (Some e) LBSEdgeCapacityErrorCodes = 502103 /\
  exists before after, LBSEdgeCapacityErrorCodes = before ++ 502103 :: after /\
    502103 ∈ ExtractAllErrorCodes (Some e) /\
    Forall (fun b => b ∉ ExtractAllErrorCodes (Some e)) before.
Proof.
  split; [vm_compute; reflexivity|].
  apply GetFirstMatchingErrorCode_priority; [vm_compute; reflexivity|lia].
Defined.

(** An HTTP error is retried exactly when its status is 500 and the first
    code the table knows is 98 (cannot connect to the server) or 607
    (transaction aborted): in particular neither 429 nor 503 is retried. *)
Theorem ShouldRetry_http d :
  ShouldRetry (Some (httpErrortoNSXError d)) = true <->
  StatusCode d = 500 /\
  (head (filter (fun c => c = 98 \/ c = 99 \/ c = 607) (codes_tried d)) = Some 98 \/
   head (filter (fun c => c = 98 \/ c = 99 \/ c = 607) (codes_tried d)) = Some 607).
Proof.
  unfold ShouldRetry, category, httpErrortoNSXError.
  rewrite bool_decide_eq_true.
  destruct (errorTable_cases (StatusCode d)) as [(Hsc & row & Hrow & Hdef & Hcodes)|[Hsc Hok]].
  - rewrite Hrow, (omap_head_codes (fun i => row !! itoa i)), Hdef, Hsc.
    assert (H1 : errorTable1 !! itoa 500 = None) by reflexivity. rewrite H1.
    induction (codes_tried d) as [|c l IH]; cbn [omap list_omap head].
    { etransitivity; [apply (kind_retriable GeneralManagerError)|]. cbn. naive_solver. }
    rewrite Hcodes, filter_cons. destruct (decide (c = 98)) as [->|]; [|
      destruct (decide (c = 99)) as [->|]; [|destruct (decide (c = 607)) as [->|]]];
      [rewrite decide_True by lia; cbn [head];
       (etransitivity; [apply kind_retriable|]); clear; cbn; naive_solver..|].
    rewrite decide_False by (clear -n n0 n1; naive_solver). exact IH.
  - split; [|by intros [? _]]. intros Hin. exfalso. revert Hin.
    assert (H1 : forall k, errorTable1 !! itoa (StatusCode d) = Some k ->
                   kind_name k ∉ retriables).
    { intros k. unfold errorTable1. cbn [list_to_map foldr fst snd].
      rewrite !lookup_itoa_insert by reflexivity. rewrite lookup_empty.
      repeat case_decide; intros; simplify_eq; rewrite kind_retriable; clear; naive_solver. }
    assert (H2 : forall k, kind_name k ∉ retriables ->
                   go_type_name (setDetail (new_nsx k) d) ∉ retriables) by done.
    assert (H3 : kind_name GeneralManagerError ∉ retriables)
      by (rewrite kind_retriable; naive_solver).
    destruct (errorTable !! itoa (StatusCode d)) as [row|] eqn:Hrow;
      [rewrite (omap_head_codes (fun i => row !! itoa i));
       destruct (head (omap _ _)) as [k|] eqn:Hh; [|destruct (row !! "default") as [k|] eqn:Hdef]|].
    + apply head_omap_elem in Hh as (c & Hc). apply H2, (row_not_retriable _ _ _ _ Hok Hrow Hc).
    + apply H2, (row_not_retriable _ _ _ _ Hok Hrow Hdef).
    + destruct (errorTable1 !! itoa _) eqn:E1; [by apply H2, H1|done].
    + destruct (errorTable1 !! itoa _) eqn:E1; [by apply H2, H1|done].
Qed.

(** An error asks for a delayed retry exactly when an error of its chain
    carries a delay, or code 500045 (pending delete) occurs in the first
    [*NSXApiError] of the chain or in the vAPI error itself; the delay is
    always 300 seconds. *)
Theorem ConvertToRetryAfterError_spec e :
  (is_Some (ConvertToRetryAfterError (Some e)) <->
     (exists x, x ∈ chain e /\ is_Some (RetryAfterSeconds x)) \/
     PendingDeleteErrorCode ∈ api_codes (mjoin (as_NSXApiError e)) \/
     PendingDeleteErrorCode ∈ api_codes (DumpAPIError e).1) /\
  (forall r, ConvertToRetryAfterError (Some e) = Some r -> RetryAfterSeconds r = Some 300).
Proof.
  rewrite <- !apiErrorToRetryAfterError_iff.
  unfold ConvertToRetryAfterError, AsRetryAfterError. simpl. unfold errors_As.
  assert (Has : forall l : list goerr,
    match head (omap (fun e => if RetryAfterSeconds e is Some _ then Some e else None) l) with
    | Some r => RetryAfterSeconds r = Some 300 /\ r ∈ l
    | None => forall x, x ∈ l -> RetryAfterSeconds x = None
    end).
  { induction l as [|x l IH]; simpl; [set_solver|].
    destruct (RetryAfterSeconds x) as [n|] eqn:Ex; simpl.
    - split; [|set_solver]. destruct x; simpl in *; try done. by destruct k.
    - destruct (head _); [set_solver|]. intros y [->|?]%elem_of_cons; auto. }
  specialize (Has (chain e)). destruct (head _) as [r|].
  - destruct Has as [Hr Hin]. split; [|naive_solver].
    split; [intros _; left; eauto|eauto].
  - assert (Hno : ~ exists x, x ∈ chain e /\ is_Some (RetryAfterSeconds x)).
    { intros (x & Hx & Hs). rewrite (Has x Hx) in Hs. by destruct Hs. }
    destruct (apiErrorToRetryAfterError (mjoin _)) as [r|] eqn:E1.
    + split; [naive_solver eauto|]. intros r' [= <-]. by eapply apiErrorToRetryAfterError_delay.
    + split; [|apply apiErrorToRetryAfterError_delay].
      split; [by auto|]. intros [?|[Hs|?]]; [done|by destruct Hs|done].
Qed.
