(* ===== verification/NsxUtil.v ===== *)
(** * pkg/nsx/util: helpers of utils.go and the license table of license.go *)
From S2P Require Import Prelude GoStrings Errors.

(** A [model.Tag]; both fields are pointers. *)
Record Tag := mkTag { tag_Scope : option string; tag_Tag : option string }.
#[global] Instance Tag_eq_dec : EqDecision Tag.
Proof. solve_decision. Defined.
(** [model.Tag{Scope: String(s), Tag: String(t)}] *)
Definition newTag (s t : string) : Tag := mkTag (Some s) (Some t).

(** [FindTag]: [None] is the panic on a nil [Scope] or [Tag]. *)
Fixpoint FindTag (tags : list Tag) (tagScope : string) : option string :=
  match tags with
  | [] => Some ""
  | tag :: tags' =>
      s ← tag_Scope tag;
      if decide (s = tagScope) then tag_Tag tag else FindTag tags' tagScope
  end.

(** ** Port addresses *)
Record PortAddress := mkPortAddress { Port : Z; IPs : list string }.

(** [sort.Ints] *)
#[global] Instance Zle_total : Total Z.le.
Proof. intros x y. lia. Qed.
Definition sort_ints (l : list Z) : list Z := merge_sort Z.le l.

Definition mergeStep (st : list Z * gmap Z (list string)) (pa : PortAddress)
  : list Z * gmap Z (list string) :=
  match st.2 !! Port pa with
  | None => (st.1 ++ [Port pa], <[Port pa := IPs pa]> st.2)
  | Some ips => (st.1, <[Port pa := ips ++ IPs pa]> st.2)
  end.
Definition MergeAddressByPort (portAddressOriginal : list PortAddress) : list PortAddress :=
  let '(sortKeys, mappedPorts) := foldl mergeStep ([], ∅) portAddressOriginal in
  map (fun key => mkPortAddress key (default [] (mappedPorts !! key))) (sort_ints sortKeys).

(** ** Request URLs *)
Record url := mkUrl { Host : string; Path : string }.

(** [for i, u := range urls { if u == "http1" { index = i; break } }] *)
Definition http1_index (urls : list string) : nat :=
  default O (fst <$> list_find (fun u => u = "http1") urls).

(** [urls[i] = v]; [None] is the out-of-range panic. *)
Definition set_at (i : nat) (v : string) (urls : list string) : option (list string) :=
  if bool_decide (i < length urls)%nat then Some (<[i := v]> urls) else None.

Definition UpdateURL (reqUrl : url) (nsxtHost : string) : option url :=
  let urls := split_on "/" (Path reqUrl) in
  let index := if contains_str "localhost" (Host reqUrl) then http1_index urls else O in
  if decide (index = O) then Some (mkUrl nsxtHost (Path reqUrl))
  else
    urls ← set_at (index + 1) nsxtHost urls;
    Some (mkUrl (Host reqUrl) (join "/" urls)).

Definition UpdateRequestURL (reqUrl : url) (nsxtHost thumbprint : string) : option url :=
  let urls := split_on "/" (Path reqUrl) in
  let index := if contains_str "localhost" (Host reqUrl) then http1_index urls else O in
  if decide (index = O) then Some (mkUrl nsxtHost (Path reqUrl))
  else
    urls ← set_at (index + 1) nsxtHost urls;
    u1 ← urls !! 1%nat;
    urls ← if contains_str "external-tp" u1 then set_at (index + 3) thumbprint urls
           else Some urls;
    Some (mkUrl (Host reqUrl) (join "/" urls)).

(** ** Slices compared as sets *)
Section Arrays.
Context {T} `{Countable T}.

Definition MergeArraysWithoutDuplicate (oldArray newArray : list T) : list T :=
  match oldArray, newArray with
  | [], _ => newArray
  | _, [] => oldArray
  | _, _ => elements (list_to_set (oldArray ++ newArray) : gset T)
  end.
Definition CompareArraysWithoutOrder (oldArray newArray : list T) : bool :=
  if bool_decide (length oldArray = length newArray)
  then bool_decide ((list_to_set oldArray : gset T) = list_to_set newArray)
  else false.
Definition DiffArrays (firstArray secondArray : list T) : list T :=
  elements ((list_to_set firstArray : gset T) ∖ list_to_set secondArray).
End Arrays.

(** ** Licenses *)
Notation licenseMap := (gmap string bool).
Definition FeatureLicenseMap : gmap string (list string) := list_to_map
  [("CONTAINER", ["CONTAINER_NETWORKING"; "CONTAINER"]); ("DFW", ["DFW"]);
   ("VPC_SECURITY", ["VPC_SECURITY"]); ("VPC", ["VPC_NETWORKING"])].
(** [FeaturesToCheck], in the order [init] ranges over the map. *)
Definition FeaturesToCheck : list string := (map_to_list FeatureLicenseMap).*1.
Definition initial_licenses : licenseMap := (fun _ => false) <$> FeatureLicenseMap.

(** A result of the licenses API: feature name, licensed or not. *)
Definition NsxLicense := list (string * bool).

Definition IsLicensed (m : licenseMap) (feature : string) : bool := default false (m !! feature).
Definition UpdateLicense (m : licenseMap) (feature : string) (isLicensed : bool) : licenseMap :=
  <[feature := isLicensed]> m.
Definition dfw_license (hasVPC : bool) : string := if hasVPC then "VPC_SECURITY" else "DFW".
Definition GetDFWLicense (hasVPC : bool) (m : licenseMap) : bool :=
  IsLicensed m (dfw_license hasVPC).
Definition UpdateDFWLicense (hasVPC : bool) (m : licenseMap) (isLicensed : bool) : licenseMap :=
  UpdateLicense m (dfw_license hasVPC) isLicensed.

Fixpoint searchLicense (licenses : NsxLicense) (licenseNames : list string) : bool :=
  match licenseNames with
  | [] => false
  | n :: names' =>
      match List.find (fun f => bool_decide (f.1 = n)) licenses with
      | Some f => f.2
      | None => searchLicense licenses names'
      end
  end.
Definition UpdateFeatureLicense (m : licenseMap) (licenses : option NsxLicense) : licenseMap :=
  match licenses with
  | None | Some [] => m
  | Some ls =>
      foldl (fun m feature =>
               UpdateLicense m feature
                 (searchLicense ls (default [] (FeatureLicenseMap !! feature))))
        m FeaturesToCheck
  end.

(** [IsInvalidLicense]: the answer and the license table after it; [None] is
    the panic on a nil API error, error code or message. *)
Definition IsInvalidLicense (hasVPC : bool) (m : licenseMap) (err : option goerr)
  : option (bool * licenseMap) :=
  match err with
  | Some (ENSXApi api _) =>
      a ← api;
      let check (bad : bool) (code : option Z) (msg : option string) : option bool :=
        c ← code;
        if decide (c = InvalidLicenseErrorCode) then (fun _ => true) <$> msg else Some bad in
      bad ← foldl (fun acc r => bad ← acc; check bad (rel_ErrorCode r) (rel_ErrorMessage r))
              (Some false) (api_RelatedErrors a);
      bad ← check bad (api_ErrorCode a) (api_ErrorMessage a);
      Some (bad, if bad : bool then UpdateDFWLicense hasVPC m false else m)
  | _ => Some (false, m)
  end.

(** [ParseDHCPMode] *)
Definition ParseDHCPMode (mode : string) : string :=
  if decide (mode = "DHCPDeactivated") then "DHCP_DEACTIVATED"
  else if decide (mode = "DHCPServer") then "DHCP_SERVER"
  else if decide (mode = "DHCPRelay") then "DHCP_RELAY"
  else if decide (mode = "DHCPServerStateless") then "DHCP_SERVER_STATELESS"
  else "".

Section Thumbprint.
(** SHA-1 and SHA-256 of the certificate, in lower-case hex. *)
Variables sha1_hex sha256_hex : string -> string.
Definition VerifyNsxCertWithThumbprint (der thumbprint : string) : option goerr :=
  let tbRaw := to_lower (trim_space (replace_all ":" "" thumbprint)) in
  let compare (tbFromCert : string) :=
    if decide (tbRaw = tbFromCert) then None
    else Some (EText "server certificate didn't match trusted fingerprint") in
  if decide (slen tbRaw = 40) then compare (sha1_hex der)
  else if decide (slen tbRaw = 64) then compare (sha256_hex der)
  else Some (EText "invalid thumbprint format").
End Thumbprint.

(** *** Facts about the merge *)
Definition ips_of_port (p : Z) (l : list PortAddress) : list string :=
  mjoin (map IPs (filter (fun pa => Port pa = p) l)).

Lemma mergeStep_inv l :
  let st := foldl mergeStep ([], ∅) l in
  NoDup st.1 /\ (forall p, p ∈ st.1 <-> p ∈ map Port l) /\
  forall p, st.2 !! p = if decide (p ∈ map Port l) then Some (ips_of_port p l) else None.
Proof.
  induction l as [|pa l IH] using rev_ind; simpl.
  { split_and!; [constructor|done|]. intros p. by rewrite lookup_empty. }
  rewrite foldl_app. simpl. destruct (foldl mergeStep ([], ∅) l) as [keys m].
  simpl in IH. destruct IH as (Hnd & Hk & Hm). unfold mergeStep; simpl.
  assert (Hips : forall p, ips_of_port p (l ++ [pa]) =
    ips_of_port p l ++ (if decide (Port pa = p) then IPs pa else [])).
  { intros p. unfold ips_of_port. rewrite filter_app, map_app, join_app, filter_cons.
    case_decide; simpl; by rewrite ?app_nil_r. }
  assert (Hnil : forall p, p ∉ map Port l -> ips_of_port p l = []).
  { intros p Hp. unfold ips_of_port.
    replace (filter (fun pa => Port pa = p) l) with (@nil PortAddress); [done|].
    symmetry. apply elem_of_nil_inv. intros q.
    rewrite list_elem_of_filter. intros [<- Hq]. apply Hp. by apply (list_elem_of_fmap_2 Port). }
  assert (Hin : forall p, p ∈ map Port (l ++ [pa]) <-> p ∈ map Port l \/ p = Port pa).
  { intros p. rewrite map_app. set_solver. }
  rewrite Hm. case_decide as Hd; simpl.
  - split_and!; [done|intros p; rewrite Hin, Hk; set_solver|].
    intros p. rewrite Hips. destruct (decide (Port pa = p)) as [<-|Hne].
    + rewrite lookup_insert_eq, decide_True by (rewrite Hin; auto). done.
    + rewrite lookup_insert_ne, Hm, app_nil_r by done.
      apply decide_ext. rewrite Hin. naive_solver.
  - split_and!.
    + apply NoDup_app. split_and!; [done|set_solver|apply NoDup_singleton].
    + intros p. rewrite Hin, elem_of_app, Hk, list_elem_of_singleton. done.
    + intros p. rewrite Hips. destruct (decide (Port pa = p)) as [<-|Hne].
      * rewrite lookup_insert_eq, decide_True by (rewrite Hin; auto). by rewrite Hnil.
      * rewrite lookup_insert_ne, Hm, app_nil_r by done.
        apply decide_ext. rewrite Hin. naive_solver.
Qed.

(** ** Properties *)

(** Merging by port yields one entry per port of the input, in strictly
    increasing port order, and the entry of a port holds the addresses of all
    the input entries of that port, in input order. *)
Theorem MergeAddressByPort_spec l :
  Sorted Z.lt (map Port (MergeAddressByPort l)) /\
  (forall p, p ∈ map Port (MergeAddressByPort l) <-> p ∈ map Port l) /\
  (forall pa, pa ∈ MergeAddressByPort l -> IPs pa = ips_of_port (Port pa) l).
Proof.
  unfold MergeAddressByPort. pose proof (mergeStep_inv l) as Hinv. simpl in Hinv.
  destruct (foldl mergeStep ([], ∅) l) as [keys m]. destruct Hinv as (Hnd & Hk & Hm).
  rewrite map_map. simpl. rewrite map_id. split_and!.
  - apply Sorted_lt_of_le_NoDup; [apply (Sorted_merge_sort _)|].
    unfold sort_ints. by rewrite merge_sort_Permutation.
  - intros p. unfold sort_ints. by rewrite merge_sort_Permutation.
  - intros pa (p & -> & Hp)%list_elem_of_fmap. simpl.
    unfold sort_ints in Hp. rewrite merge_sort_Permutation, Hk in Hp.
    by rewrite Hm, decide_True.
Qed.

(** A license update grants a feature exactly when the first license name
    of its list that the NSX answer mentions is licensed there; features the
    table does not check keep their value, and an empty answer changes
    nothing. *)
Theorem UpdateFeatureLicense_spec m ls feature :
  IsLicensed (UpdateFeatureLicense m (Some ls)) feature =
  match ls, FeatureLicenseMap !! feature with
  | _ :: _, Some names =>
      default false (snd <$> head (omap (fun n => List.find (fun f => bool_decide (f.1 = n)) ls) names))
  | _, _ => IsLicensed m feature
  end.
Proof.
  destruct ls as [|f0 ls']; [done|]. unfold UpdateFeatureLicense.
  generalize (f0 :: ls') as ls; intros ls.
  assert (Hs : forall names, searchLicense ls names =
    default false (snd <$> head (omap (fun n => List.find (fun f => bool_decide (f.1 = n)) ls) names))).
  { induction names as [|n names IH]; simpl; [done|]. by destruct (List.find _ ls). }
  assert (Hfold : forall fs (m : licenseMap),
    IsLicensed (foldl (fun m feature => UpdateLicense m feature
       (searchLicense ls (default [] (FeatureLicenseMap !! feature)))) m fs) feature =
    if decide (feature ∈ fs) then searchLicense ls (default [] (FeatureLicenseMap !! feature))
    else IsLicensed m feature).
  { induction fs as [|g fs IH]; intros m'; simpl; [done|]. rewrite IH.
    unfold IsLicensed, UpdateLicense. destruct (decide (feature ∈ fs)) as [Hin|Hin].
    - by rewrite decide_True by (by right).
    - destruct (decide (feature = g)) as [<-|Hne].
      + by rewrite decide_True, lookup_insert_eq by (by left).
      + rewrite decide_False, lookup_insert_ne; [done|done|set_solver]. }
  rewrite Hfold. destruct (FeatureLicenseMap !! feature) as [names|] eqn:Ef.
  - rewrite decide_True; [apply Hs|]. unfold FeaturesToCheck.
    apply (list_elem_of_fmap_2 fst _ (feature, names)). by apply elem_of_map_to_list.
  - rewrite decide_False; [done|]. unfold FeaturesToCheck.
    intros ([g names] & -> & Hin%elem_of_map_to_list)%list_elem_of_fmap. simpl in Ef. congruence.
Qed.
