(* ===== verification/IPUtil.v ===== *)
(** * pkg/util/ip.go: address ranges, CIDR blocks and address families

    The ranges left of a CIDR block after its excepts ([GetCIDRRangesWithExcept],
    used for ipBlock peers of policies) are shown to be the set difference. *)
From S2P Require Import Prelude GoStrings GoNet.

(** ** Prefixes and masks *)
Definition RemoveIPPrefix (ipAddress : string) : result string string :=
  let ip := default "" (head (split_on "/" ipAddress)) in
  match ParseIP ip with None => Err "invalid IP address" | Some _ => Ok ip end.

(** The value is returned next to the error, as in Go. *)
Definition GetIPPrefix (ipAddress : string) : Z * option string :=
  match split_on "/" ipAddress with
  | _ :: p :: _ =>
      match atoi p with
      | Some num => (num, None)
      | None => (-1, Some "strconv.Atoi")
      end
  | _ => (-1, Some "invalid IP address or CIDR format")
  end.

(** [GetSubnetMask]; [uint32] shifts drop the high bits. *)
Definition GetSubnetMask (subnetLength : Z) : result string string :=
  if bool_decide (subnetLength < 0) || bool_decide (32 < subnetLength)
  then Err "invalid subnet mask length"
  else
    let m := Z.shiftl 0xffffffff (32 - subnetLength) mod 2 ^ 32 in
    let byte i := Z.shiftr m i mod 256 in
    Ok (IP_String (v4InV6Prefix ++ [byte 24; byte 16; byte 8; byte 0])).

(** ** Address families *)
Definition IsIPv6CIDR (cidrStr : string) : bool :=
  match ParseCIDR cidrStr with
  | None => false
  | Some (ip, _) => bool_decide (To4 ip = None)
  end.
Definition ContainsIPv4CIDR (cidrs : list string) : bool :=
  existsb (fun c => match ParseCIDR c with
                    | None => false
                    | Some (ip, _) => negb (bool_decide (To4 ip = None))
                    end) cidrs.
Definition ContainsIPv6CIDR (cidrs : list string) : bool := existsb IsIPv6CIDR cidrs.
Definition IsIPv6 (addr : string) : bool :=
  match ParseIP addr with None => false | Some ip => bool_decide (To4 ip = None) end.

Section Count.
(** [cidr.AddressCount] of go-cidr, a [uint64]. *)
Variable AddressCount : IPNet -> Z.
(** [int(x)] of a [uint64], and 64-bit addition. *)
Definition wrap64 (x : Z) : Z := (x + 2 ^ 63) mod 2 ^ 64 - 2 ^ 63.
Definition CalculateIPFromCIDRs (IPAddresses : list string) : Z * bool :=
  match range_result (E := unit) (fun total addr =>
          match ParseCIDR addr with
          | None => Err tt
          | Some (_, ipNet) => Ok (wrap64 (total + wrap64 (AddressCount ipNet)))
          end) 0 IPAddresses with
  | Ok total => (total, true)
  | Err _ => (-1, false)
  end.
End Count.

(** ** Addresses as integers *)
Definition normalizeIP (ip : IP) : IP :=
  match To4 ip with Some v4 => v4 | None => To16 ip end.
Definition ipToBigInt (ip : IP) : Z := be_val (normalizeIP ip).
(** [n.Bytes()] cut to its last [ipLen] bytes and padded with zeros on the left. *)
Definition bigIntToIP (n : Z) (ipLen : nat) : IP :=
  if bool_decide (n <= 0) then repeat 0 ipLen else be_bytes ipLen n.
Definition calculateOffsetIP (ip : IP) (offset : Z) : IP :=
  let ip := normalizeIP ip in
  bigIntToIP (ipToBigInt ip + offset) (length ip).
Definition compareIP (ip1 ip2 : IP) : bool := bool_decide (ipToBigInt ip1 < ipToBigInt ip2).
Definition equalIP (ip1 ip2 : IP) : bool := IP_Equal (normalizeIP ip1) (normalizeIP ip2).

(** [parseCIDRRange]: [None] is the error of [net.ParseCIDR]. *)
Definition parseCIDRRange (cidr : string) : option (IP * IP) :=
  '(_, ipnet) ← ParseCIDR cidr;
  let startIP := normalizeIP (net_IP ipnet) in
  Some (startIP, zip_with (fun s m => Z.lor s (255 - m)) startIP (net_Mask ipnet)).

(** ** Ranges *)
Abbreviation iprange := (IP * IP)%type.
Inductive location :=
  | LocationBeforeStart | LocationAtStart | LocationBetween | LocationAtEnd | LocationAfterEnd.

Definition getIPPositionInRange (rng : iprange) (ip : IP) : location :=
  if compareIP ip rng.1 then LocationBeforeStart
  else if equalIP ip rng.1 then LocationAtStart
  else if compareIP ip rng.2 then LocationBetween
  else if equalIP ip rng.2 then LocationAtEnd
  else LocationAfterEnd.

Definition rangeAppend (ranges : list iprange) (appendRange : iprange) : list iprange :=
  if compareIP appendRange.2 appendRange.1 then ranges else ranges ++ [appendRange].

Definition rangesAbstractStep (except : iprange) (results : list iprange) (r : iprange)
  : list iprange :=
  let rng := (normalizeIP r.1, normalizeIP r.2) in
  let exceptPrev := calculateOffsetIP except.1 (-1) in
  let exceptNext := calculateOffsetIP except.2 1 in
  match getIPPositionInRange rng except.1 with
  | LocationBeforeStart =>
      match getIPPositionInRange rng except.2 with
      | LocationBeforeStart => rangeAppend results rng
      | LocationAtStart | LocationBetween => rangeAppend results (exceptNext, rng.2)
      | _ => results
      end
  | LocationAtStart =>
      match getIPPositionInRange rng except.2 with
      | LocationAtStart | LocationBetween => rangeAppend results (exceptNext, rng.2)
      | _ => results
      end
  | LocationBetween =>
      match getIPPositionInRange rng except.2 with
      | LocationBetween =>
          rangeAppend (rangeAppend results (rng.1, exceptPrev)) (exceptNext, rng.2)
      | _ => rangeAppend results (rng.1, exceptPrev)
      end
  | LocationAtEnd => rangeAppend results (rng.1, exceptPrev)
  | LocationAfterEnd => rangeAppend results rng
  end.
Definition rangesAbstractRange (ranges : list iprange) (except : iprange) : list iprange :=
  let except := (normalizeIP except.1, normalizeIP except.2) in
  foldl (rangesAbstractStep except) [] ranges.

(** The loop over the excepts, before the ranges are printed. *)
Definition calculatedRanges (cidr : string) (excepts : list string) : option (list iprange) :=
  main ← parseCIDRRange cidr;
  foldl (fun acc except =>
           ranges ← acc; e ← parseCIDRRange except; Some (rangesAbstractRange ranges e))
    (Some [main]) excepts.
Definition GetCIDRRangesWithExcept (cidr : string) (excepts : list string)
  : option (list string) :=
  map (fun rng => IP_String rng.1 +:+ "-" +:+ IP_String rng.2) <$> calculatedRanges cidr excepts.

(** ** Enumerations of address types *)
Definition IPAddressTypeIncludesIPv6 (ipType : string) : bool :=
  bool_decide (ipType = "IPv6") || bool_decide (ipType = "IPv4IPv6").
Definition IPAddressTypeIncludesIPv4 (ipType : string) : bool := negb (bool_decide (ipType = "IPv6")).
Definition StaticIPAllocationTypeIncludesIPv4 (t : string) : bool :=
  bool_decide (t = "IPv4") || bool_decide (t = "IPv4IPv6").
Definition StaticIPAllocationTypeIncludesIPv6 (t : string) : bool :=
  bool_decide (t = "IPv6") || bool_decide (t = "IPv4IPv6").

(** [CountAddressBindingsByFamily] over the [IPAddress] of the bindings. *)
Definition CountAddressBindingsByFamily (addrs : list string) : Z * Z :=
  foldl (fun c addr =>
           if bool_decide (addr = "") then (c.1 + 1, c.2)
           else match ParseIP addr with
                | Some ip => if bool_decide (To4 ip = None) then (c.1, c.2 + 1) else (c.1 + 1, c.2)
                | None => (c.1 + 1, c.2)
                end) (0, 0) addrs.

(** ** Values of addresses *)

(** [n]-byte addresses that [normalizeIP] keeps: every IPv4 address, and an
    IPv6 address outside the IPv4-mapped block. *)
Definition plain (n : nat) (x : Z) : Prop := n = 4%nat \/ x / 2 ^ 32 <> 65535.
Record wf_addr (n : nat) (a : IP) : Prop := mk_wf_addr {
  wa_bytes : wf_ip a;
  wa_length : length a = n;
  wa_family : n = 4%nat \/ n = 16%nat;
  wa_plain : plain n (be_val a) }.
Definition max_addr (n : nat) : Z := 256 ^ Z.of_nat n - 1.

Lemma mapped_prefix a :
  wf_ip a -> length a = 16%nat -> take 12 a = v4InV6Prefix -> be_val a / 2 ^ 32 = 65535.
Proof.
  intros Hwf Hlen Hp. rewrite <- (take_drop 12 a), Hp, be_val_app.
  assert (Hd : length (drop 12 a) = 4%nat) by (rewrite length_drop; lia). rewrite Hd.
  assert (Hb := be_val_bounds (drop 12 a) (Forall_drop _ _ _ Hwf)). rewrite Hd in Hb.
  change (256 ^ Z.of_nat 4) with (2 ^ 32) in *.
  rewrite Z.div_add_l, (Z.div_small (be_val _)) by lia. reflexivity.
Qed.
Lemma normalizeIP_wf n a : wf_addr n a -> normalizeIP a = a.
Proof.
  intros [Hwf Hlen [-> | ->] Hpl]; unfold normalizeIP, To4, To16.
  - by rewrite bool_decide_eq_true_2.
  - rewrite bool_decide_eq_false_2, (bool_decide_eq_true_2 (length a = 16%nat)) by lia. simpl.
    case_bool_decide as Hp; [|done]. destruct Hpl as [?|Hpl]; [done|].
    by destruct Hpl; apply mapped_prefix.
Qed.
Lemma ipToBigInt_wf n a : wf_addr n a -> ipToBigInt a = be_val a.
Proof. intros Ha. unfold ipToBigInt. by rewrite (normalizeIP_wf n). Qed.
Lemma wf_addr_bounds n a : wf_addr n a -> 0 <= be_val a <= max_addr n.
Proof. intros [Hwf <- _ _]. unfold max_addr. apply be_val_bounds in Hwf. lia. Qed.
Lemma equalIP_wf n a b : wf_addr n a -> wf_addr n b -> equalIP a b = bool_decide (be_val a = be_val b).
Proof.
  intros Ha Hb. unfold equalIP, IP_Equal. rewrite !(normalizeIP_wf n) by done.
  rewrite bool_decide_eq_true_2 by (by rewrite (wa_length _ _ Ha), (wa_length _ _ Hb)).
  apply bool_decide_ext. split; [by intros ->|].
  apply be_val_inj; [apply Ha|apply Hb|]. by rewrite (wa_length _ _ Ha), (wa_length _ _ Hb).
Qed.
Lemma calculateOffsetIP_wf n a k :
  wf_addr n a -> 0 <= be_val a + k <= max_addr n -> plain n (be_val a + k) ->
  wf_addr n (calculateOffsetIP a k) /\ be_val (calculateOffsetIP a k) = be_val a + k.
Proof.
  intros Ha Hk Hpl. unfold calculateOffsetIP, bigIntToIP, max_addr in *.
  rewrite (normalizeIP_wf n), (ipToBigInt_wf n), (wa_length _ _ Ha) by done.
  assert (Hr : forall m, be_val (repeat 0 m) = 0 /\ wf_ip (repeat 0 m)).
  { induction m as [|m [IH1 IH2]]; simpl; [split; [done|constructor]|].
    rewrite be_val_cons, IH1. split; [lia|]. apply Forall_cons_2; [unfold is_byte; lia|done]. }
  destruct (Hr n) as [Hr1 Hr2].
  case_bool_decide as Hz.
  - assert (be_val a + k = 0) as H0 by lia. rewrite H0 in *. split; [|done].
    split; [done|apply repeat_length|apply Ha|by rewrite Hr1].
  - assert (Hv : be_val (be_bytes n (be_val a + k)) = be_val a + k)
      by (rewrite be_val_be_bytes, Z.mod_small by lia; done).
    split; [|done]. split; [apply wf_be_bytes|apply length_be_bytes|apply Ha|by rewrite Hv].
Qed.

(** ** Ranges as sets of values *)

(** The successor of a value is an address again. It fails for the greatest
    address, where [calculateOffsetIP] wraps around to zero, and just below the
    IPv4-mapped block, where [normalizeIP] changes the family. *)
Definition has_next (n : nat) (x : Z) : Prop := x < max_addr n /\ plain n (x + 1).
Record wf_range (n : nat) (r : iprange) : Prop := mk_wf_range {
  wr_start : wf_addr n r.1;
  wr_end : wf_addr n r.2;
  wr_le : be_val r.1 <= be_val r.2;
  wr_plain : forall x, be_val r.1 <= x <= be_val r.2 -> plain n x;
  wr_next : has_next n (be_val r.1) }.
Definition in_range (r : iprange) (x : Z) : Prop := be_val r.1 <= x <= be_val r.2.
Definition in_ranges (rs : list iprange) (x : Z) : Prop := exists r, r ∈ rs /\ in_range r x.

Lemma in_ranges_nil x : ~ in_ranges [] x.
Proof. by intros (r & ?%elem_of_nil & _). Qed.
Lemma in_ranges_snoc rs r x : in_ranges (rs ++ [r]) x <-> in_ranges rs x \/ in_range r x.
Proof. unfold in_ranges. setoid_rewrite elem_of_app. setoid_rewrite list_elem_of_singleton. naive_solver. Qed.
Lemma in_ranges_cons rs r x : in_ranges (r :: rs) x <-> in_range r x \/ in_ranges rs x.
Proof. unfold in_ranges. setoid_rewrite elem_of_cons. naive_solver. Qed.

Lemma rangeAppend_ok n rs r :
  wf_range n r -> rangeAppend rs r = rs ++ [r].
Proof.
  intros [H1 H2 Hle _ _]. unfold rangeAppend, compareIP.
  rewrite !(ipToBigInt_wf n) by done. rewrite bool_decide_eq_false_2 by lia. done.
Qed.

(** Where an address lies in a range. *)
Definition location_spec (r : iprange) (x : Z) (l : location) : Prop :=
  match l with
  | LocationBeforeStart => x < be_val r.1
  | LocationAtStart => x = be_val r.1
  | LocationBetween => be_val r.1 < x < be_val r.2
  | LocationAtEnd => x = be_val r.2 /\ be_val r.1 < x
  | LocationAfterEnd => be_val r.2 < x
  end.
Lemma getIPPositionInRange_spec n r a :
  wf_range n r -> wf_addr n a -> location_spec r (be_val a) (getIPPositionInRange r a).
Proof.
  intros [H1 H2 Hle _ _] Ha. unfold getIPPositionInRange, compareIP.
  rewrite !(ipToBigInt_wf n), !(equalIP_wf n) by done.
  repeat (case_bool_decide; simpl; try lia).
Qed.

(** The part of a range before, and after, a value inside it. *)
Lemma wf_range_before n r e :
  wf_range n r -> wf_addr n e -> be_val r.1 < be_val e <= be_val r.2 ->
  wf_range n (r.1, calculateOffsetIP e (-1)) /\
  forall x, in_range (r.1, calculateOffsetIP e (-1)) x <-> be_val r.1 <= x < be_val e.
Proof.
  intros [Hs Hend Hle Hpl Hn] He Hin.
  pose proof (wf_addr_bounds _ _ Hs). pose proof (wf_addr_bounds _ _ He).
  destruct (calculateOffsetIP_wf n e (-1)) as [Hwf Hv]; [done|lia|apply Hpl; lia|].
  split; [|unfold in_range; simpl; rewrite Hv; intros; lia].
  split; simpl; rewrite ?Hv; try done; [lia|]. intros x Hx. apply Hpl. lia.
Qed.
Lemma wf_range_after n r e :
  wf_range n r -> wf_addr n e -> be_val r.1 <= be_val e < be_val r.2 ->
  has_next n (be_val e + 1) ->
  wf_range n (calculateOffsetIP e 1, r.2) /\
  forall x, in_range (calculateOffsetIP e 1, r.2) x <-> be_val e < x <= be_val r.2.
Proof.
  intros [Hs Hend Hle Hpl Hn] He Hin Hne.
  pose proof (wf_addr_bounds _ _ Hend). pose proof (wf_addr_bounds _ _ He).
  destruct (calculateOffsetIP_wf n e 1) as [Hwf Hv]; [done|lia|apply Hpl; lia|].
  split; [|unfold in_range; simpl; rewrite Hv; intros; lia].
  split; simpl; rewrite ?Hv; try done; [lia|]. intros x Hx. apply Hpl. lia.
Qed.
(** A single-address range is dropped by [rangeAppend] when its address is. *)
Lemma rangeAppend_empty n rs r e :
  wf_range n r -> wf_addr n e -> be_val e = be_val r.1 -> be_val r.1 = be_val r.2 ->
  rangeAppend rs (calculateOffsetIP e 1, r.2) = rs.
Proof.
  intros [Hs Hend Hle Hpl [Hn1 Hn2]] He He1 Hr.
  pose proof (wf_addr_bounds _ _ He).
  destruct (calculateOffsetIP_wf n e 1) as [Hwf Hv]; [done|lia|by rewrite He1|].
  unfold rangeAppend, compareIP. simpl. rewrite !(ipToBigInt_wf n), Hv by done.
  by rewrite bool_decide_eq_true_2 by lia.
Qed.

(** An except range. *)
Record wf_except (n : nat) (e : iprange) : Prop := mk_wf_except {
  we_start : wf_addr n e.1;
  we_end : wf_addr n e.2;
  we_le : be_val e.1 <= be_val e.2;
  we_next : be_val e.2 + 1 < max_addr n -> has_next n (be_val e.2 + 1);
  we_edge : be_val e.2 + 1 <> max_addr n }.

Definition step_spec (n : nat) (r e : iprange) (new : list iprange) : Prop :=
  Forall (wf_range n) new /\
  forall x, in_ranges new x <-> in_range r x /\ ~ in_range e x.

Lemma step_spec_nil n r e :
  (forall x, in_range r x -> in_range e x) -> step_spec n r e [].
Proof. intros H. split; [constructor|]. intros x. split; [by intros ?%in_ranges_nil|naive_solver]. Qed.
Lemma step_spec_one n r e s :
  wf_range n s -> (forall x, in_range s x <-> in_range r x /\ ~ in_range e x) ->
  step_spec n r e [s].
Proof.
  intros Hs H. split; [by apply Forall_singleton|]. intros x.
  rewrite in_ranges_cons, <- H. pose proof (in_ranges_nil x). naive_solver.
Qed.
Lemma step_spec_two n r e s1 s2 :
  wf_range n s1 -> wf_range n s2 ->
  (forall x, in_range s1 x \/ in_range s2 x <-> in_range r x /\ ~ in_range e x) ->
  step_spec n r e [s1; s2].
Proof.
  intros H1 H2 H. split; [by apply Forall_cons; split; [|apply Forall_singleton]|]. intros x.
  rewrite !in_ranges_cons, <- H. pose proof (in_ranges_nil x). naive_solver.
Qed.

Lemma rangesAbstractStep_spec n rs r e :
  wf_range n r -> wf_except n e ->
  exists new, rangesAbstractStep e rs r = rs ++ new /\ step_spec n r e new.
Proof.
  intros Hr [He1 He2 Hele Hnext Hedge].
  unfold rangesAbstractStep.
  rewrite (normalizeIP_wf n r.1), (normalizeIP_wf n r.2) by apply Hr.
  rewrite <- surjective_pairing.
  pose proof (getIPPositionInRange_spec n r e.1 Hr He1) as L1.
  pose proof (getIPPositionInRange_spec n r e.2 Hr He2) as L2.
  pose proof (wf_addr_bounds _ _ (wr_end _ _ Hr)) as Hb.
  pose proof (wr_le _ _ Hr) as Hle.
  assert (Hafter : be_val r.1 <= be_val e.2 -> be_val e.2 < be_val r.2 ->
    wf_range n (calculateOffsetIP e.2 1, r.2) /\
    forall x, in_range (calculateOffsetIP e.2 1, r.2) x <-> be_val e.2 < x <= be_val r.2).
  { intros. apply wf_range_after; auto. apply Hnext. lia. }
  assert (Hone : be_val r.1 <= be_val e.2 -> be_val e.1 <= be_val r.1 ->
    location_spec r (be_val e.2) LocationAtStart \/ location_spec r (be_val e.2) LocationBetween ->
    exists new, rangeAppend rs (calculateOffsetIP e.2 1, r.2) = rs ++ new /\ step_spec n r e new).
  { intros Hge Hle1 Hl. destruct (decide (be_val e.2 < be_val r.2)) as [Hlt|Hnlt].
    - destruct (Hafter Hge Hlt) as [Hw Hx]. exists [(calculateOffsetIP e.2 1, r.2)].
      split; [by rewrite (rangeAppend_ok n)|]. apply step_spec_one; [done|].
      intros x. rewrite Hx. unfold in_range. lia.
    - exists []. rewrite app_nil_r. split.
      + apply (rangeAppend_empty n); simpl in Hl; try done; lia.
      + apply step_spec_nil. unfold in_range. simpl in Hl. lia. }
  assert (Hall : (forall x, in_range r x -> ~ in_range e x) ->
    exists new, rangeAppend rs r = rs ++ new /\ step_spec n r e new).
  { intros Hd. exists [r]. rewrite (rangeAppend_ok n) by done. split; [done|].
    apply step_spec_one; [done|]. naive_solver. }
  assert (Hnone : (forall x, in_range r x -> in_range e x) ->
    exists new, rs = rs ++ new /\ step_spec n r e new).
  { intros Hd. exists []. by rewrite app_nil_r; auto using step_spec_nil. }
  assert (Hbefore : be_val r.1 < be_val e.1 <= be_val r.2 -> be_val r.2 <= be_val e.2 ->
    exists new, rangeAppend rs (r.1, calculateOffsetIP e.1 (-1)) = rs ++ new /\ step_spec n r e new).
  { intros Hin Hge. destruct (wf_range_before n r e.1 Hr He1 Hin) as [Hw Hx].
    eexists. rewrite (rangeAppend_ok n) by done. split; [done|]. apply step_spec_one; [done|].
    intros x. rewrite Hx. unfold in_range. lia. }
  destruct (getIPPositionInRange r e.1); destruct (getIPPositionInRange r e.2);
    simpl in L1, L2; try lia;
    first [ apply Hall; unfold in_range; lia
          | apply Hnone; unfold in_range; lia
          | apply Hone; simpl; lia
          | apply Hbefore; lia
          | idtac ].
  destruct (wf_range_before n r e.1 Hr He1) as [Hw1 Hx1]; [lia|].
  destruct Hafter as [Hw2 Hx2]; [lia..|].
  eexists. rewrite !(rangeAppend_ok n) by done. rewrite <- (assoc_L (++)). split; [done|].
  apply step_spec_two; [done..|]. intros x. rewrite Hx1, Hx2. unfold in_range. lia.
Qed.

(** ** CIDR blocks *)
Lemma length_cidr_mask p len : length (cidr_mask p len) = len.
Proof. revert p; induction len as [|len IH]; intros p; simpl; [done|]. case_bool_decide; simpl; by rewrite IH. Qed.

Lemma byte_ops b m : is_byte b -> is_byte m -> is_byte (Z.land b m) /\ is_byte (Z.lor b (255 - m)).
Proof.
  unfold is_byte. intros Hb Hm.
  assert (Hall : forallb (fun b => forallb (fun m =>
     (0 <=? Z.land b m) && (Z.land b m <? 256) && (0 <=? Z.lor b (255 - m)) &&
     (Z.lor b (255 - m) <? 256)) (seqZ 0 256)) (seqZ 0 256) = true) by (vm_compute; reflexivity).
  rewrite forallb_forall in Hall. specialize (Hall b). rewrite <- list_elem_of_In in Hall.
  specialize (Hall ltac:(apply elem_of_seqZ; lia)). rewrite forallb_forall in Hall.
  specialize (Hall m). rewrite <- list_elem_of_In in Hall.
  specialize (Hall ltac:(apply elem_of_seqZ; lia)). go_bool. lia.
Qed.
Lemma wf_zip_bytes (f : Z -> Z -> Z) l ms :
  (forall b m, is_byte b -> is_byte m -> is_byte (f b m)) ->
  wf_ip l -> wf_ip ms -> wf_ip (zip_with f l ms).
Proof.
  intros Hf Hl. revert ms. induction Hl as [|b l Hb Hl IH]; intros ms Hm; [constructor|].
  destruct Hm as [|m ms Hm Hms]; simpl; [constructor|]. apply Forall_cons_2; [by apply Hf|by apply IH].
Qed.
Lemma cidr_mask_bytes len q : 0 <= q -> wf_ip (cidr_mask q len).
Proof.
  revert q; induction len as [|len IH]; intros q Hq; simpl; [constructor|].
  case_bool_decide as H8; apply Forall_cons_2; [unfold is_byte; lia|apply IH; lia| |apply IH; lia].
  assert (0 < 2 ^ q) by (apply Z.pow_pos_nonneg; lia).
  assert (0 <= 255 / 2 ^ q) by (apply Z.div_pos; lia).
  assert (255 / 2 ^ q <= 255) by (apply Z.div_le_upper_bound; lia). unfold is_byte. lia.
Qed.

Definition block_bits (len : nat) (p : Z) : Z := 8 * Z.of_nat len - p.
Definition not_mask (s m : Z) : Z := Z.lor s (255 - m).

Lemma masked_values l p :
  wf_ip l -> 0 <= p <= 8 * Z.of_nat (length l) ->
  let h := block_bits (length l) p in
  let start := zip_with Z.land l (cidr_mask p (length l)) in
  be_val start = be_val l / 2 ^ h * 2 ^ h /\
  be_val (zip_with not_mask start (cidr_mask p (length l))) = be_val l / 2 ^ h * 2 ^ h + 2 ^ h - 1.
Proof.
  revert p; induction l as [|b l IH]; intros p Hwf Hp.
  { simpl in *. assert (p = 0) as -> by lia. by vm_compute. }
  apply Forall_cons in Hwf as [Hb Hwf]. unfold is_byte in Hb.
  pose proof (be_val_bounds l Hwf) as Hv. unfold block_bits in *.
  cbn [length cidr_mask]. rewrite Nat2Z.inj_succ.
  set (len := Z.of_nat (length l)) in *.
  assert (H256 : 256 ^ len = 2 ^ (8 * len)) by (rewrite Z.pow_mul_r by lia; done).
  case_bool_decide as H8; cbn [zip_with]; unfold not_mask at 1; cbn zeta;
    rewrite !be_val_cons, !length_zip_with, !length_cidr_mask, !Nat.min_id; fold len.
  - destruct (IH (p - 8) Hwf) as [IH1 IH2]; [simpl length in Hp; lia|].
    change 255 with (Z.ones 8) at 1 2. rewrite Z.land_ones by lia.
    rewrite (Z.mod_small b (2 ^ 8)) by lia. change (255 - Z.ones 8) with 0. rewrite Z.lor_0_r.
    replace (8 * len - (p - 8)) with (8 * Z.succ len - p) in IH1, IH2 by lia.
    rewrite IH1, IH2. set (h := 8 * Z.succ len - p).
    assert (Hh : 256 ^ len = 2 ^ (8 * len - h) * 2 ^ h).
    { rewrite <- Z.pow_add_r by (unfold h; simpl length in Hp; lia). rewrite H256. f_equal. lia. }
    assert (Hdiv : (b * 256 ^ len + be_val l) / 2 ^ h = b * 2 ^ (8 * len - h) + be_val l / 2 ^ h).
    { rewrite Hh, Z.mul_assoc, Z.div_add_l; [lia|]. apply Z.pow_nonzero; unfold h; simpl length in Hp; lia. }
    rewrite Hdiv, Hh. lia.
  - destruct (IH 0 Hwf) as [IH1 IH2]; [lia|].
    destruct (byte_mask p b) as [M1 M2]; [lia..|].
    rewrite Z.sub_0_r in IH1, IH2.
    rewrite <- H256, Z.div_small in IH1, IH2 by lia.
    rewrite IH1, IH2, M2, M1.
    assert (Hh : 2 ^ (8 * Z.succ len - p) = 2 ^ (8 - p) * 256 ^ len).
    { rewrite H256, <- Z.pow_add_r by lia. f_equal. lia. }
    assert (Hpos : 0 < 2 ^ (8 - p)) by (apply Z.pow_pos_nonneg; lia).
    assert (Hdiv : (b * 256 ^ len + be_val l) / 2 ^ (8 * Z.succ len - p) = b / 2 ^ (8 - p)).
    { rewrite Hh, (Z.mul_comm (2 ^ (8 - p))), <- Z.div_div by lia.
      rewrite Z.div_add_l, (Z.div_small (be_val l)) by lia. f_equal. lia. }
    rewrite Hdiv, Hh. lia.
Qed.

(** The address and the prefix length of a CIDR text. *)
Definition cidr_block (c : string) : option (IP * Z) :=
  '(addr, mask) ← cut_slash c;
  ip ← parse_addr addr;
  p ← dtoi mask;
  if bool_decide (p <= 8 * Z.of_nat (length ip)) then Some (ip, p) else None.
Definition in_block (b : IP * Z) (x : Z) : Prop :=
  let h := block_bits (length b.1) b.2 in x / 2 ^ h = be_val b.1 / 2 ^ h.
Definition block_first (b : IP * Z) : Z :=
  let h := block_bits (length b.1) b.2 in be_val b.1 / 2 ^ h * 2 ^ h.
Definition block_last (b : IP * Z) : Z :=
  block_first b + 2 ^ block_bits (length b.1) b.2 - 1.

Lemma cidr_block_wf c b :
  cidr_block c = Some b ->
  wf_ip b.1 /\ (length b.1 = 4%nat \/ length b.1 = 16%nat) /\ 0 <= b.2 <= 8 * Z.of_nat (length b.1).
Proof.
  unfold cidr_block. intros ([a m] & _ & (ip & [Hwf Hlen]%parse_addr_wf & (p & Hp%dtoi_nonneg & Hb)%bind_Some)%bind_Some)%bind_Some.
  case_bool_decide; simplify_eq. simpl. auto.
Qed.
Lemma in_block_iff c b x :
  cidr_block c = Some b -> in_block b x <-> block_first b <= x <= block_last b.
Proof.
  intros (_ & _ & Hp)%cidr_block_wf. unfold in_block, block_last, block_first, block_bits in *.
  set (h := 8 * Z.of_nat (length b.1) - b.2) in *.
  assert (Hpos : 0 < 2 ^ h) by (apply Z.pow_pos_nonneg; lia).
  generalize (be_val b.1 / 2 ^ h) as q. intros q. split.
  - intros <-. pose proof (Z.div_mod x (2 ^ h)). pose proof (Z.mod_pos_bound x (2 ^ h)). lia.
  - intros Hx. symmetry. apply (Z.div_unique_pos _ _ _ (x - q * 2 ^ h)); lia.
Qed.

Lemma IP_Mask_same ip ms : length ms = length ip -> IP_Mask ip ms = zip_with Z.land ip ms.
Proof.
  intros Hl. unfold IP_Mask.
  assert (E1 : bool_decide (length ms = 16%nat) && bool_decide (length ip = 4%nat) = false).
  { rewrite Hl. repeat case_bool_decide; try done. lia. }
  assert (E2 : bool_decide (length ms = 4%nat) && bool_decide (length ip = 16%nat) = false).
  { rewrite Hl. repeat case_bool_decide; try done. lia. }
  rewrite E1. cbn [andb]. rewrite E2. cbn [andb]. by rewrite bool_decide_eq_true_2.
Qed.
Lemma IP_Mask_v4 ip ms :
  length ip = 4%nat -> length ms = 4%nat -> IP_Mask (v4InV6Prefix ++ ip) ms = zip_with Z.land ip ms.
Proof.
  intros Hi Hm. unfold IP_Mask. rewrite Hm, length_app, Hi.
  rewrite (bool_decide_eq_false_2 (4%nat = 16%nat)) by done. cbn [andb].
  rewrite Hm, take_app_length', drop_app_length' by done.
  rewrite !bool_decide_eq_true_2 by done. cbn [andb]. by rewrite ?Hi, ?bool_decide_eq_true_2 by done.
Qed.
Lemma ParseCIDR_block c ip p :
  cidr_block c = Some (ip, p) ->
  ParseCIDR c = Some (To16 ip, mkIPNet (zip_with Z.land ip (cidr_mask p (length ip)))
                                 (cidr_mask p (length ip))).
Proof.
  intros Hc. pose proof (cidr_block_wf c _ Hc) as (Hwf & Hlen & Hp). simpl in *. revert Hc.
  unfold cidr_block, ParseCIDR. destruct (cut_slash c) as [[a m]|]; [|done]. simpl.
  destruct (parse_addr a) as [ip'|]; [|done]. simpl. destruct (dtoi m) as [p'|]; [|done]. simpl.
  case_bool_decide; intros; simplify_eq. unfold CIDRMask.
  replace (Z.to_nat (8 * Z.of_nat (length ip) / 8)) with (length ip)
    by (rewrite Z.mul_comm, Z.div_mul; lia).
  do 3 f_equal. pose proof (length_cidr_mask p (length ip)) as Hm. unfold To16.
  destruct Hlen as [H4|H16].
  - rewrite (bool_decide_eq_true_2 (length ip = 4%nat)) by done. apply IP_Mask_v4; congruence.
  - rewrite bool_decide_eq_false_2, bool_decide_eq_true_2 by lia. by apply IP_Mask_same.
Qed.

Lemma parseCIDRRange_block c b :
  cidr_block c = Some b -> plain (length b.1) (block_first b) -> plain (length b.1) (block_last b) ->
  exists r, parseCIDRRange c = Some r /\
    be_val r.1 = block_first b /\ be_val r.2 = block_last b /\
    wf_addr (length b.1) r.1 /\ wf_addr (length b.1) r.2.
Proof.
  intros Hc Hpl Hpl2. pose proof (cidr_block_wf c b Hc) as (Hwf & Hlen & Hp).
  destruct b as [ip p]. simpl in *.
  unfold parseCIDRRange. rewrite (ParseCIDR_block c ip p Hc). simpl.
  destruct (masked_values ip p Hwf Hp) as [M1 M2].
  pose proof (cidr_mask_bytes (length ip) p ltac:(lia)) as Hmb.
  set (start := zip_with Z.land ip (cidr_mask p (length ip))) in *.
  assert (Hls : length start = length ip)
    by (unfold start; by rewrite length_zip_with, length_cidr_mask, Nat.min_id).
  assert (Hs : wf_addr (length ip) start).
  { split; [|done|done|by rewrite M1]. apply wf_zip_bytes; [|done..]. intros; by apply byte_ops. }
  exists (start, zip_with not_mask start (cidr_mask p (length ip))).
  rewrite (normalizeIP_wf _ _ Hs). simpl. split_and!; try done. split; [| |done|by rewrite M2].
  - apply wf_zip_bytes; [|apply Hs|done]. intros; by apply byte_ops.
  - by rewrite length_zip_with, length_cidr_mask, Hls, Nat.min_id.
Qed.

(** [rangesAbstractRange] is set difference. *)
Lemma rangesAbstractRange_spec n ranges e :
  Forall (wf_range n) ranges -> wf_except n e ->
  Forall (wf_range n) (rangesAbstractRange ranges e) /\
  forall x, in_ranges (rangesAbstractRange ranges e) x <-> in_ranges ranges x /\ ~ in_range e x.
Proof.
  intros Hrs He. unfold rangesAbstractRange.
  rewrite (normalizeIP_wf n e.1), (normalizeIP_wf n e.2) by apply He.
  rewrite <- surjective_pairing.
  assert (Hacc : forall acc, Forall (wf_range n) acc ->
    Forall (wf_range n) (foldl (rangesAbstractStep e) acc ranges) /\
    forall x, in_ranges (foldl (rangesAbstractStep e) acc ranges) x <->
      in_ranges acc x \/ in_ranges ranges x /\ ~ in_range e x).
  { induction Hrs as [|r rs Hr Hrs IH]; intros acc Hwf; simpl.
    { split; [done|]. intros x. pose proof (in_ranges_nil x). naive_solver. }
    destruct (rangesAbstractStep_spec n acc r e Hr He) as (new & -> & Hnew & Hx).
    destruct (IH (acc ++ new)) as [IH1 IH2]; [by apply Forall_app|]. split; [done|].
    intros x. rewrite IH2, in_ranges_cons. specialize (Hx x).
    assert (Happ : in_ranges (acc ++ new) x <-> in_ranges acc x \/ in_ranges new x).
    { unfold in_ranges. setoid_rewrite elem_of_app. naive_solver. }
    rewrite Happ, Hx. naive_solver. }
  destruct (Hacc [] (Forall_nil_2 _)) as [H1 H2]. split; [done|].
  intros x. rewrite H2. pose proof (in_ranges_nil x). naive_solver.
Qed.

(** A main block whose addresses keep their family and whose first address has
    a successor, and an except block of the same family that does not end just
    below the greatest address. Every IPv4 block is [plain]. *)
Definition main_ok (b : IP * Z) : Prop :=
  (forall x, in_block b x -> plain (length b.1) x) /\ has_next (length b.1) (block_first b).
Definition except_ok (n : nat) (e : IP * Z) : Prop :=
  length e.1 = n /\ plain n (block_first e) /\ plain n (block_last e) /\
  block_last e + 1 <> max_addr n /\
  (block_last e + 1 < max_addr n -> has_next n (block_last e + 1)).

Lemma block_le c b : cidr_block c = Some b -> block_first b <= block_last b.
Proof.
  intros (_ & _ & Hp)%cidr_block_wf. unfold block_last.
  assert (0 < 2 ^ block_bits (length b.1) b.2); [|lia].
  apply Z.pow_pos_nonneg; unfold block_bits; lia.
Qed.
Lemma parse_main c b :
  cidr_block c = Some b -> main_ok b ->
  exists r, parseCIDRRange c = Some r /\ wf_range (length b.1) r /\
    forall x, in_range r x <-> in_block b x.
Proof.
  intros Hc [Hpl Hn]. pose proof (block_le c b Hc) as Hle.
  destruct (parseCIDRRange_block c b Hc) as (r & Hr & Hv1 & Hv2 & Hw1 & Hw2);
    [apply Hpl, (in_block_iff c); [done|lia]..|].
  exists r. split; [done|]. split.
  - split; rewrite ?Hv1, ?Hv2; try done. intros x Hx. apply Hpl. by apply (in_block_iff c).
  - intros x. unfold in_range. by rewrite Hv1, Hv2, (in_block_iff c).
Qed.
Lemma parse_except n c e :
  cidr_block c = Some e -> except_ok n e ->
  exists r, parseCIDRRange c = Some r /\ wf_except n r /\
    forall x, in_range r x <-> in_block e x.
Proof.
  intros Hc (<- & Hp1 & Hp2 & Hedge & Hn). pose proof (block_le c e Hc) as Hle.
  destruct (parseCIDRRange_block c e Hc Hp1 Hp2) as (r & Hr & Hv1 & Hv2 & Hw1 & Hw2).
  exists r. split; [done|]. split.
  - split; rewrite ?Hv1, ?Hv2; done.
  - intros x. unfold in_range. by rewrite Hv1, Hv2, (in_block_iff c).
Qed.

(** ** Properties *)

Lemma cidr_ranges_difference cidr excepts b bs :
  cidr_block cidr = Some b -> main_ok b ->
  Forall2 (fun c e => cidr_block c = Some e /\ except_ok (length b.1) e) excepts bs ->
  exists rs, GetCIDRRangesWithExcept cidr excepts =
      Some (map (fun r => IP_String r.1 +:+ "-" +:+ IP_String r.2) rs) /\
    Forall (wf_range (length b.1)) rs /\
    forall x, in_ranges rs x <-> in_block b x /\ Forall (fun e => ~ in_block e x) bs.
Proof.
  intros Hc Hb Hes. destruct (parse_main cidr b Hc Hb) as (main & Hmain & Hwf & Hin).
  unfold GetCIDRRangesWithExcept, calculatedRanges. rewrite Hmain. simpl.
  assert (Hgen : forall rs0, Forall (wf_range (length b.1)) rs0 ->
    exists rs, foldl (fun acc except => ranges ← acc; e ← parseCIDRRange except;
                        Some (rangesAbstractRange ranges e)) (Some rs0) excepts = Some rs /\
      Forall (wf_range (length b.1)) rs /\
      forall x, in_ranges rs x <-> in_ranges rs0 x /\ Forall (fun e => ~ in_block e x) bs).
  { clear Hmain Hwf Hin Hc Hb. induction Hes as [|c e cs es [Hc Hok] Hes IH]; intros rs0 Hrs0; simpl.
    - exists rs0. split; [done|]. split; [done|]. intros x. rewrite Forall_nil. naive_solver.
    - destruct (parse_except _ c e Hc Hok) as (r & -> & Hr & Hx). simpl.
      destruct (rangesAbstractRange_spec _ rs0 r Hrs0 Hr) as [H1 H2].
      destruct (IH _ H1) as (rs & Hrs & Hwf & Hall). exists rs. split; [done|]. split; [done|].
      intros x. rewrite Hall, H2, Hx, Forall_cons. naive_solver. }
  destruct (Hgen [main]) as (rs & -> & Hrs & Hx); [by apply Forall_singleton|].
  exists rs. split; [done|]. split; [done|]. intros x. rewrite Hx, in_ranges_cons, Hin.
  pose proof (in_ranges_nil x). naive_solver.
Qed.

(** C11. For a main block and excepts of one family (away from the ends of the
    address space), [GetCIDRRangesWithExcept] succeeds, and the ranges it
    prints hold exactly the addresses of the main block that lie in no except
    block, whatever the number, order and overlap of the excepts. *)
Theorem GetCIDRRangesWithExcept_difference cidr excepts b bs :
  cidr_block cidr = Some b -> main_ok b ->
  Forall2 (fun c e => cidr_block c = Some e /\ except_ok (length b.1) e) excepts bs ->
  exists rs, GetCIDRRangesWithExcept cidr excepts =
      Some (map (fun r => IP_String r.1 +:+ "-" +:+ IP_String r.2) rs) /\
    Forall (wf_range (length b.1)) rs /\
    forall x, in_ranges rs x <-> in_block b x /\ Forall (fun e => ~ in_block e x) bs.
Proof. apply cidr_ranges_difference. Qed.
Lemma GetCIDRRangesWithExcept_difference_witness :
  exists rs, GetCIDRRangesWithExcept "10.0.0.0/8" ["10.1.0.0/16"; "10.0.0.0/24"] =
      Some (map (fun r => IP_String r.1 +:+ "-" +:+ IP_String r.2) rs) /\
    Forall (wf_range 4) rs /\
    forall x, in_ranges rs x <-> in_block ([10; 0; 0; 0], 8) x /\
      Forall (fun e => ~ in_block e x) [([10; 1; 0; 0], 16); ([10; 0; 0; 0], 24)].
Proof.
  apply (GetCIDRRangesWithExcept_difference "10.0.0.0/8" ["10.1.0.0/16"; "10.0.0.0/24"]
           ([10; 0; 0; 0], 8)); [reflexivity| |].
  - split; [by left|]. split; [vm_compute; reflexivity|by left].
  - repeat constructor; try reflexivity; try (by left); vm_compute; discriminate.
Defined.
Example ranges_example :
  GetCIDRRangesWithExcept "10.0.0.0/8" ["10.1.0.0/16"; "10.0.0.0/24"] =
  Some ["10.0.1.0-10.0.255.255"; "10.2.0.0-10.255.255.255"].
Proof. vm_compute. reflexivity. Qed.

(** At the end of the address space the successor wraps around: removing a
    block from itself leaves everything. *)
Lemma ranges_wrap_around :
  GetCIDRRangesWithExcept "255.255.255.255/32" ["255.255.255.255/32"] =
  Some ["0.0.0.0-255.255.255.255"].
Proof. vm_compute. reflexivity. Qed.

(** The 16-byte mask of an IPv4-mapped block is read from its front. *)
Lemma mapped_block_collapses :
  GetCIDRRangesWithExcept "::ffff:10.0.0.0/104" [] = Some ["10.0.0.0-10.0.0.0"].
Proof. vm_compute. reflexivity. Qed.

(** Counting bindings by family is additive and counts every binding once;
    a binding is counted as IPv6 exactly when it names an IPv6 address. *)
Lemma CountAddressBindingsByFamily_spec addrs :
  CountAddressBindingsByFamily addrs =
    (Z.of_nat (length (filter (fun a => IsIPv6 a = false) addrs)),
     Z.of_nat (length (filter (fun a => IsIPv6 a = true) addrs))).
Proof.
  unfold CountAddressBindingsByFamily.
  assert (Hgen : forall c, foldl (fun c addr =>
           if bool_decide (addr = "") then (c.1 + 1, c.2)
           else match ParseIP addr with
                | Some ip => if bool_decide (To4 ip = None) then (c.1, c.2 + 1) else (c.1 + 1, c.2)
                | None => (c.1 + 1, c.2)
                end) c addrs =
    (c.1 + Z.of_nat (length (filter (fun a => IsIPv6 a = false) addrs)),
     c.2 + Z.of_nat (length (filter (fun a => IsIPv6 a = true) addrs)))).
  { induction addrs as [|a l IH]; intros [c4 c6]; [simpl; f_equal; lia|].
    cbn [foldl]. rewrite IH, !filter_cons.
    case_bool_decide as Ha; [subst a; simpl; f_equal; lia|].
    destruct (IsIPv6 a) eqn:E; unfold IsIPv6 in E; destruct (ParseIP a) as [ip|]; try done;
      rewrite ?E; simpl; f_equal; lia. }
  apply (Hgen (0, 0)).
Qed.
