(* ===== verification/Names.v ===== *)
(** * pkg/util/utils.go and pkg/nsx/services/common/builder.go

    Names, identifiers and labels of NSX resources: truncation with hash
    suffixes, the length limits they must respect, resource paths, tags. *)
From S2P Require Import Prelude GoStrings GoSha1 Errors NsxUtil.

Definition HashLength : Z := 8.
Definition UUIDHashLength : Z := 5.
Definition MaxTagScopeLength : Z := 128.
Definition MaxTagValueLength : Z := 256.
Definition MaxIdLength : Z := 255.

(** ** Hashes *)
Definition getSha1Bytes (data : string) : list Z := Sha1.sum (bytes_of data).
Definition Sha1 (data : string) : string := hex_bytes (getSha1Bytes data).
Definition truncateLabelHash (data : string) : option string := slice_to (Sha1 data) HashLength.

(** [HashCharset[d]] *)
Definition charset_char (d : Z) : ascii :=
  ascii_of_nat (Z.to_nat (if bool_decide (d < 10) then 48 + d else 87 + d)).
(** The digits of [value] in base 36, most significant first; [fuel] bounds the
    number of digits (31 are enough for 160 bits). *)
Fixpoint base36 (fuel : nat) (value : Z) (acc : string) : string :=
  match fuel with
  | O => acc
  | S fuel' =>
      if bool_decide (0 < value)
      then base36 fuel' (value / 36) (String (charset_char (value mod 36)) acc)
      else acc
  end.
Definition digest_value (l : list Z) : Z := foldl (fun acc b => acc * 256 + b) 0 l.
Definition Sha1WithCustomizedCharset (data : string) : string :=
  base36 32 (digest_value (getSha1Bytes data)) "".
(** [None] is the panic when the hash has fewer than five digits. *)
Definition TruncateUIDHash (uid : string) : option string :=
  slice_to (Sha1WithCustomizedCharset uid) UUIDHashLength.

(** ** Joining and truncating names *)
Definition connectStrings (sep : string) (parts : list string) : string :=
  join sep (filter (fun p => p <> "") parts).

(** The hash function may panic ([None]); so does [name[:nameLength]] with a
    negative length. *)
Definition normalizeNameByLimit (name suffix : string) (limit : Z)
    (hashFn : string -> option string) : option string :=
  let newName := connectStrings "_" [name; suffix] in
  if bool_decide (slen newName <= limit) then Some newName
  else
    let hashedTarget := if bool_decide (0 < slen suffix) then suffix else name in
    hashString ← hashFn hashedTarget;
    let nameLength := limit - slen hashString - 1 in
    let nameLength := if bool_decide (slen name < nameLength) then slen name else nameLength in
    prefix ← slice_to name nameLength;
    Some (join "_" [prefix; hashString]).

Definition NormalizeLabelKey (key : string) (shaFn : string -> option string) : option string :=
  if bool_decide (slen key <= MaxTagScopeLength) then Some key
  else normalizeNameByLimit (default "" (last (split_on "/" key))) "" MaxTagScopeLength shaFn.
Definition NormalizeLabelValue (value : string) (shaFn : string -> option string) : option string :=
  normalizeNameByLimit value "" MaxTagValueLength shaFn.
(** The new map is filled in the order the old one is ranged over. *)
Definition NormalizeLabels (matchLabels : list (string * string)) : option (gmap string string) :=
  foldl (fun acc kv =>
           m ← acc;
           k ← NormalizeLabelKey kv.1 truncateLabelHash;
           v ← NormalizeLabelValue kv.2 truncateLabelHash;
           Some (<[k := v]> m)) (Some ∅) matchLabels.

(** The loop of [NormalizeId] over the end of the name: the largest length not
    above [n] whose last byte is not one of [-._]; [None] is the index panic. *)
Definition is_id_sep (a : ascii) : bool := bool_decide (a = "-"%char \/ a = "."%char \/ a = "_"%char).
Fixpoint trim_id (n : nat) (s : string) : option nat :=
  match n with
  | O => None
  | S n' =>
      match String.get n' s with
      | Some a => if is_id_sep a then trim_id n' s else Some n
      | None => None
      end
  end.
Definition NormalizeId (name : string) : option string :=
  let newName := replace_all ":" "_" name in
  if bool_decide (slen newName <= MaxIdLength) then Some newName
  else
    let hashString := Sha1 name in
    let nameLength := MaxIdLength - HashLength - 1 in
    nameLength ← trim_id (Z.to_nat nameLength) newName;
    newName ← slice_to newName (Z.of_nat nameLength);
    hash ← slice_to hashString HashLength;
    Some (newName +:+ "-" +:+ hash).

(** An object with its name and UID ([metav1.Object]). *)
Record object := mkObject { GetName : string; GetUID : string }.

Definition GenerateIDByObject (obj : object) : option string :=
  let limit := MaxIdLength in
  suffix ← TruncateUIDHash (GetUID obj);
  let desiredName := connectStrings "_" [GetName obj; suffix] in
  if bool_decide (limit < slen desiredName) then
    let valueLen := limit - slen suffix - 1 in
    name ← slice_to (GetName obj) valueLen;
    Some (connectStrings "_" [name; suffix])
  else Some desiredName.

Definition GenerateID (resID prefix suffix index : string) : string :=
  connectStrings "_" [prefix; resID; index; suffix].
Definition generateDisplayName (connector resName prefix suffix project cluster : string) : string :=
  connectStrings connector [prefix; cluster; resName; project; suffix].
Definition GenerateTruncName (limit : Z) (resName prefix suffix project cluster : string)
  : option string :=
  let adjustedLimit := limit - slen prefix - slen suffix in
  let adjustedLimit :=
    foldl (fun l i => if bool_decide (0 < slen i) then l - 1 else l) adjustedLimit [prefix; suffix] in
  let oldName := generateDisplayName "_" resName "" "" project cluster in
  if bool_decide (adjustedLimit < slen oldName) then
    newName ← normalizeNameByLimit oldName "" adjustedLimit TruncateUIDHash;
    Some (generateDisplayName "_" newName prefix suffix "" "")
  else Some (generateDisplayName "_" resName prefix suffix project cluster).

(** ** Identifiers that must be unique *)
Section Unique.
Variable idGeneratorFn : object -> option string.
Variable idExistsFn : string -> bool.
(** The random UUIDs [uuid.NewV4] returns, in order. *)
Variable uuids : nat -> string.

(** The loop of [BuildUniqueIDWithRandomUUID] from the [i]-th UUID on. It has
    no bound in the code; [None] is a panic of the generator or no fuel. *)
Fixpoint unique_loop (fuel : nat) (i : nat) (name : string) (resId : string) : option string :=
  if idExistsFn resId then
    match fuel with
    | O => None
    | S fuel' =>
        resId ← idGeneratorFn (mkObject name (uuids i));
        unique_loop fuel' (S i) name resId
    end
  else Some resId.
Definition BuildUniqueIDWithRandomUUID (fuel : nat) (initialObject : object) : option string :=
  resId ← idGeneratorFn initialObject;
  unique_loop fuel 0 (GetName initialObject) resId.

Definition BuildUniqueIDWithSuffix (fuel : nat) (obj : object) (suffixStr : string)
    (maxLength : Z) : option string :=
  let maxNameLength := maxLength - UUIDHashLength - 1 in
  let prefix := GetName obj in
  let '(maxNameLength, suffix) :=
    if bool_decide (0 < slen suffixStr)
    then (maxNameLength - (slen suffixStr + 1), "-" +:+ suffixStr)
    else (maxNameLength, "") in
  prefix ← if bool_decide (maxNameLength < slen prefix) then slice_to prefix maxNameLength
           else Some prefix;
  BuildUniqueIDWithRandomUUID fuel (mkObject (prefix +:+ suffix) (GetUID obj)).
End Unique.

(** ** Slices of strings *)
(** [mapset]'s order is unspecified; here that of [elements]. *)
Definition RemoveDuplicateStr (strSlice : list string) : list string :=
  elements (list_to_set strSlice : gset string).
Definition IntersectStr (a b : list string) : list string :=
  sets_List ((list_to_set a : gset string) ∩ list_to_set b).
Fixpoint Contains (s : list string) (str : string) : bool :=
  match s with [] => false | v :: s' => if decide (v = str) then true else Contains s' str end.
Definition FilterOut (s : list string) (strToRemove : string) : list string :=
  filter (fun e => e <> strToRemove) s.

(** ** Numbers *)
(** [1 << uint(32-mask)] on a 64-bit [int]. *)
Definition CalculateSubnetSize (mask : Z) : Z :=
  let s := (32 - mask) mod 2 ^ 64 in
  if bool_decide (64 <= s) then 0 else (2 ^ s + 2 ^ 63) mod 2 ^ 64 - 2 ^ 63.
Definition IsPowerOfTwo (n : Z) : bool := bool_decide (0 < n) && bool_decide (Z.land n (n - 1) = 0).
(** [v91]: [NSXCheckVersion(SubnetMinimalSize8)]. *)
Definition ValidateSubnetSize (v91 : bool) (subnetSize : Z) : bool * string :=
  if bool_decide (subnetSize = 0) then (true, "")
  else if negb (IsPowerOfTwo subnetSize) then (false, "Subnet size must be a power of 2")
  else
    let min := if v91 then 8 else 16 in
    if bool_decide (subnetSize < min)
    then (false, "Subnet size must be greater than or equal to " +:+ itoa min)
    else (true, "").
Definition Capitalize (s : string) : string :=
  match s with "" => "" | String a s' => to_upper (String a "") +:+ s' end.

(** ** Namespaces and annotations *)
Definition annotations := gmap string string.
(** [c.Get]: the annotations of the Namespace, not found, or another error. *)
Inductive get_reply := GetFound (annos : gmap string string) | GetNotFound | GetFailed (e : string).

Definition ns_annotations (obj : option (gmap string string)) (get : get_reply)
  : result (option string) (gmap string string) :=
  match obj with
  | Some a => Ok a
  | None => match get with
            | GetFound a => Ok a
            | GetNotFound => Err None
            | GetFailed e => Err (Some e)
            end
  end.
Definition IsT1SystemNamespace (obj : option (gmap string string)) (get : get_reply)
  : bool * option string :=
  match ns_annotations obj get with
  | Err e => (false, e)
  | Ok a => (match a !! "vmware-system-shared-t1" with
             | Some v => bool_decide (to_lower v = "true") | None => false end, None)
  end.
Definition IsVPCSystemNamespace (obj : option (gmap string string)) (get : get_reply)
  : bool * option string :=
  match ns_annotations obj get with
  | Err e => (false, e)
  | Ok a => (bool_decide (a !! "nsx.vmware.com/shared_vpc_namespace" = Some "kube-system"), None)
  end.
Definition IsSystemNamespace (obj : option (gmap string string)) (get : get_reply) (vpcMode : bool)
  : bool * option string :=
  let '(isSysNs, err) := if vpcMode then IsVPCSystemNamespace obj get
                         else IsT1SystemNamespace obj get in
  match err with Some e => (false, Some e) | None => (isSysNs, None) end.

(** Containers with the names of their ports. *)
Definition CheckPodHasNamedPort (containers : list (list string)) : bool :=
  existsb (existsb (fun name => negb (bool_decide (name = "")))) containers.

(** [UpdateK8sResourceAnnotation]: the annotations set on the object and
    whether the object is sent to the API server; [changes] in the order the
    map is ranged over. *)
Definition annotation_step (st : gmap string string * bool) (kv : string * string)
  : gmap string string * bool :=
  let '(newAnno, needUpdate) := st in
  if bool_decide (kv.2 <> "") then (<[kv.1 := kv.2]> newAnno, true)
  else match newAnno !! kv.1 with
       | Some _ => (delete kv.1 newAnno, true)
       | None => (newAnno, false)
       end.
Definition UpdateK8sResourceAnnotation (anno : gmap string string) (changes : list (string * string))
  : gmap string string * bool :=
  foldl annotation_step (anno, false) changes.

(** ** DHCP and static allocation of NSX Subnets *)
Record VpcSubnet := mkVpcSubnet {
  SubnetDhcpConfig_Mode : option string;      (* nil when the config or the mode is *)
  SubnetDhcpv6Config_Mode : option string;
  StaticIpAllocation_Enabled : option bool }.
Definition NSXSubnetDHCPEnabled (s : VpcSubnet) : bool :=
  match SubnetDhcpConfig_Mode s with
  | Some m => negb (bool_decide (m = ParseDHCPMode "DHCPDeactivated")) | None => false end.
Definition NSXSubnetDHCPv6Enabled (s : VpcSubnet) : bool :=
  match SubnetDhcpv6Config_Mode s with
  | Some m => negb (bool_decide (m = ParseDHCPMode "DHCPDeactivated")) | None => false end.
Definition NSXSubnetStaticIPAllocationEnabled (s : VpcSubnet) : bool :=
  match StaticIpAllocation_Enabled s with Some b => b | None => false end.
Definition ComputeDefaultStaticIPAllocationType (s : VpcSubnet) (interfaceIPType : string) : string :=
  if negb (NSXSubnetStaticIPAllocationEnabled s) then "None"
  else
    let d4 := NSXSubnetDHCPEnabled s in
    let d6 := NSXSubnetDHCPv6Enabled s in
    if decide (interfaceIPType = "IPv4") then if negb d4 then "IPv4" else "None"
    else if decide (interfaceIPType = "IPv6") then if negb d6 then "IPv6" else "None"
    else if decide (interfaceIPType = "IPv4IPv6") then
      if negb d4 && negb d6 then "IPv4IPv6"
      else if negb d4 && d6 then "IPv4"
      else if d4 && negb d6 then "IPv6" else "None"
    else "None".
(** The fields of a Subnet or SubnetSet CR that the defaults depend on. *)
Record subnetSpec := mkSubnetSpec { dhcp_mode : string; dhcpv6_mode : string; ipAddressType : string }.
Definition CRSubnetDHCPEnabled (o : subnetSpec) : bool :=
  bool_decide (dhcp_mode o = "DHCPServer") || bool_decide (dhcp_mode o = "DHCPRelay").
Definition CRSubnetDHCPv6Enabled (o : subnetSpec) : bool :=
  bool_decide (dhcpv6_mode o = "DHCPServer") || bool_decide (dhcpv6_mode o = "DHCPRelay") ||
  bool_decide (dhcpv6_mode o = "DHCPServerStateless").
Definition GetDefaultStaticIPAllocation (o : subnetSpec) : bool :=
  if decide (ipAddressType o = "IPv6") then negb (CRSubnetDHCPv6Enabled o)
  else if decide (ipAddressType o = "IPv4IPv6")
  then negb (CRSubnetDHCPEnabled o) && negb (CRSubnetDHCPv6Enabled o)
  else negb (CRSubnetDHCPEnabled o).
Definition GetSubnetSetKind (labels : gmap string string) : string :=
  match labels !! "nsx.vmware.com/default-network" with
  | Some v => v
  | None =>
      match labels !! "nsxoperator.vmware.com/default-subnetset-for" with
      | Some v => if decide (v = "Pod") then "pod"
                  else if decide (v = "VirtualMachine") then "vm" else ""
      | None => ""
      end
  end.

(** ** Tags *)
Definition BuildClusterTags (cluster : string) : list Tag :=
  [newTag "nsx-op/cluster" cluster; newTag "nsx-op/version" (join "." ["1"; "0"; "0"])].
(** The types [BuildBasicTags] switches on; a Pod comes with its controller
    reference (kind, name and UID). *)
Inductive tagged :=
  | TStaticRoute | TSecurityPolicy | TNetworkPolicy | TSubnet | TSubnetSet | TSubnetPort
  | TPod (controller : option (string * string * string))
  | TNetworkInfo | TIPAddressAllocation | TSubnetConnectionBindingMap | TAddressBinding
  | TSubnetIPReservation | TOther.
Definition BuildBasicTags (cluster : string) (kind : tagged) (ns name uid namespaceID : string)
  : list Tag :=
  let tns := newTag "nsx-op/namespace" ns in
  let named t := [tns; newTag ("nsx-op/" +:+ t +:+ "_name") name; newTag ("nsx-op/" +:+ t +:+ "_uid") uid] in
  BuildClusterTags cluster ++
  match kind with
  | TStaticRoute => named "static_route"
  | TSecurityPolicy | TNetworkPolicy | TNetworkInfo => [tns]
  | TSubnet => [newTag "nsx-op/subnet_name" name; newTag "nsx-op/subnet_uid" uid]
  | TSubnetSet => [newTag "nsx-op/subnetset_name" name; newTag "nsx-op/subnetset_uid" uid]
  | TSubnetPort =>
      [tns; newTag "nsx-op/vm_namespace" ns; newTag "nsx-op/vm_namespace_uid" namespaceID;
       newTag "nsx-op/subnetport_name" name; newTag "nsx-op/subnetport_uid" uid]
  | TPod controller =>
      named "pod" ++
      match controller with
      | Some (k, n, u) => if decide (k = "StatefulSet")
                          then [newTag "nsx-op/sts_name" n; newTag "nsx-op/sts_uid" u] else []
      | None => []
      end
  | TIPAddressAllocation => named "ipaddressallocation"
  | TSubnetConnectionBindingMap => named "subnetbinding"
  | TAddressBinding => named "addressbinding"
  | TSubnetIPReservation => named "subnetipreservation"
  | TOther => []
  end ++
  if bool_decide (0 < slen namespaceID) then [newTag "nsx-op/namespace_uid" namespaceID] else [].

(** ** Resource paths *)
Definition QueryTagCondition (resourceType cluster : string) : string :=
  "resource_type:" +:+ resourceType +:+ " AND tags.scope:" +:+
  replace_all "/" "\/" "nsx-op/cluster" +:+ " AND tags.tag:" +:+ replace_all ":" "\:" cluster.

Record VPCResourceInfo := mkVPCInfo {
  OrgID : string; ProjectID : string; VPCID : string; info_ID : string; ParentID : string }.
(** The first place where the layers read orgs/o/projects/p/vpcs/v: the match of
    the regular expression of [ParseVPCResourcePath]. *)
Fixpoint match_vpc (layers : list string) : option (string * string * string) :=
  match layers with
  | [] => None
  | l :: layers' =>
      match layers with
      | l1 :: o :: l2 :: p :: l3 :: v :: _ =>
          if bool_decide (l1 = "orgs") && bool_decide (l2 = "projects") && bool_decide (l3 = "vpcs") &&
             bool_decide (o <> "") && bool_decide (p <> "") && bool_decide (v <> "")
          then Some (o, p, v) else match_vpc layers'
      | _ => None
      end
  end.
Definition ParseVPCResourcePath (path : string) : option VPCResourceInfo :=
  let layers := split_on "/" path in
  '(o, p, v) ← match_vpc (tail layers);
  id ← layers !! (length layers - 1)%nat;
  parent ← layers !! (length layers - 3)%nat;
  Some (mkVPCInfo o p v id parent).
Definition NSXProjectPathToId (path : string) : option (string * string) :=
  let parts := split_on "/" path in
  if bool_decide (length parts < 5)%nat then None
  else o ← parts !! 2%nat; p ← parts !! 4%nat; Some (o, p).
Definition GetVPCFullID (isDefault : result string bool) (projectID vpcID : string)
  : result string string :=
  match isDefault with
  | Err e => Err ("failed to check if project is default: " +:+ e)
  | Ok d => Ok (if d : bool then ":" +:+ vpcID else projectID +:+ ":" +:+ vpcID)
  end.
Definition GetSubnetPathFromAssociatedResource (associatedResource : string) : option string :=
  match split_on ":" associatedResource with
  | [p; v; s] => Some ("/orgs/default/projects/" +:+ p +:+ "/vpcs/" +:+ v +:+ "/subnets/" +:+ s)
  | _ => None
  end.
Definition ExtractSubnetPath (path : string) : option (string * string * string * string) :=
  i ← ParseVPCResourcePath path; Some (OrgID i, ProjectID i, VPCID i, info_ID i).
Definition ConvertSubnetPathToAssociatedResource (path : string) : option string :=
  '(_, p, v, s) ← ExtractSubnetPath path; Some (p +:+ ":" +:+ v +:+ ":" +:+ s).
Definition IsSharedSubnet (annos : gmap string string) : bool :=
  bool_decide (is_Some (annos !! "nsx.vmware.com/associated-resource")).


(** ** Lengths *)
Lemma slen_app s t : slen (s +:+ t) = slen s + slen t.
Proof. unfold slen. rewrite length_app_str. lia. Qed.
Lemma slen_String a s : slen (String a s) = 1 + slen s.
Proof. unfold slen. simpl. lia. Qed.
Lemma slen_nonneg s : 0 <= slen s.
Proof. unfold slen. lia. Qed.
Lemma slen_pos s : 0 < slen s <-> s <> "".
Proof. unfold slen. destruct s; simpl; split; try done; lia. Qed.
Lemma slice_to_ok s n : 0 <= n <= slen s -> exists t, slice_to s n = Some t /\ slen t = n.
Proof.
  intros Hn. unfold slice_to. rewrite bool_decide_eq_true_2 by done. eexists. split; [done|].
  unfold slen in *. rewrite length_take_str. lia.
Qed.
Lemma slen_Sha1 s : slen (Sha1 s) = 40.
Proof. unfold slen, Sha1, getSha1Bytes. by rewrite length_hex_bytes, Sha1.length_sum. Qed.
#[local] Opaque getSha1Bytes.
Lemma truncateLabelHash_ok s : exists h, truncateLabelHash s = Some h /\ slen h = 8.
Proof. apply slice_to_ok. rewrite slen_Sha1. by vm_compute. Qed.

(** [connectStrings "_"] adds one byte between its non-empty parts. *)
Definition parts_len (parts : list string) : Z :=
  foldr (fun p acc => if bool_decide (p <> "") then slen p + 1 + acc else acc) 0 parts.
Lemma slen_connect parts :
  slen (connectStrings "_" parts) = Z.max 0 (parts_len parts - 1).
Proof.
  assert (Hj : forall l, slen (join "_" l) = Z.max 0 (foldr (fun p acc => slen p + 1 + acc) 0 l - 1)).
  { induction l as [|p l IH]; [done|]. destruct l as [|q l].
    - simpl. pose proof (slen_nonneg p). lia.
    - rewrite join_cons, !slen_app, IH by done. change (slen "_") with 1. cbn [foldr].
      assert (0 <= foldr (fun p acc => slen p + 1 + acc) 0 l).
      { clear. induction l as [|x l IH]; simpl; [lia|]. pose proof (slen_nonneg x). lia. }
      pose proof (slen_nonneg p). pose proof (slen_nonneg q). lia. }
  unfold connectStrings. rewrite Hj. f_equal. f_equal.
  induction parts as [|p parts IH]; [done|]. rewrite filter_cons. unfold parts_len in *.
  cbn [foldr]. rewrite <- IH. case_decide; case_bool_decide; done.
Qed.

(** A truncated name respects its limit. *)
Lemma normalizeNameByLimit_bound name suffix limit hashFn r :
  normalizeNameByLimit name suffix limit hashFn = Some r -> slen r <= limit.
Proof.
  unfold normalizeNameByLimit. intros Hr. case_bool_decide; [by simplify_eq|].
  apply bind_Some in Hr as (h & _ & (p & [Hp Hp0]%slice_to_Some & [= <-])%bind_Some).
  cbn [join]. rewrite !slen_app, Hp. rewrite ?slen_String. change (slen "_") with 1.
  case_bool_decide; lia.
Qed.
(** It is defined as soon as the hash fits. *)
Lemma normalizeNameByLimit_total name limit hashFn h :
  hashFn name = Some h -> slen h + 1 <= limit ->
  is_Some (normalizeNameByLimit name "" limit hashFn).
Proof.
  intros Hh Hlim. unfold normalizeNameByLimit. case_bool_decide; [eauto|].
  change (bool_decide (0 < slen "")) with false. cbn [mbind option_bind]. rewrite Hh. simpl.
  pose proof (slen_nonneg name).
  destruct (slice_to_ok name (if bool_decide (slen name < limit - slen h - 1)
    then slen name else limit - slen h - 1)) as (t & -> & _); [case_bool_decide; lia|eauto].
Qed.

Lemma NormalizeLabelKey_ok k :
  exists k', NormalizeLabelKey k truncateLabelHash = Some k' /\ slen k' <= MaxTagScopeLength.
Proof.
  unfold NormalizeLabelKey. case_bool_decide; [eauto|].
  destruct (truncateLabelHash_ok (default "" (last (split_on "/" k)))) as (h & Hh & Hlen).
  destruct (normalizeNameByLimit_total _ MaxTagScopeLength _ h Hh) as [r Hr];
    [rewrite Hlen; by vm_compute|].
  exists r. split; [done|]. by eapply normalizeNameByLimit_bound.
Qed.
Lemma NormalizeLabelValue_ok v :
  exists v', NormalizeLabelValue v truncateLabelHash = Some v' /\ slen v' <= MaxTagValueLength.
Proof.
  destruct (truncateLabelHash_ok v) as (h & Hh & Hlen).
  destruct (normalizeNameByLimit_total v MaxTagValueLength _ h Hh) as [r Hr];
    [rewrite Hlen; by vm_compute|].
  exists r. split; [done|]. by eapply normalizeNameByLimit_bound.
Qed.

Lemma trim_id_spec n s m :
  trim_id n s = Some m ->
  (1 <= m <= n)%nat /\ exists a, String.get (m - 1) s = Some a /\ is_id_sep a = false.
Proof.
  induction n as [|n IH]; simpl; [done|].
  destruct (String.get n s) as [a|] eqn:Ea; [|done].
  destruct (is_id_sep a) eqn:Hs.
  - intros H. destruct (IH H) as [? ?]. split; [lia|done].
  - intros [= <-]. split; [lia|]. exists a. by replace (S n - 1)%nat with n by lia.
Qed.

(** ** Properties *)

(** Normalizing labels never panics and yields keys of at most 128 and
    values of at most 256 bytes; a label within the limits whose key no other
    label is normalized to keeps its key and value. *)
Theorem NormalizeLabels_bounds l :
  exists m, NormalizeLabels l = Some m /\
    map_Forall (fun k v => slen k <= MaxTagScopeLength /\ slen v <= MaxTagValueLength) m /\
    (forall k v, (k, v) ∈ l -> slen k <= MaxTagScopeLength -> slen v <= MaxTagValueLength ->
       (forall k' v', (k', v') ∈ l -> NormalizeLabelKey k' truncateLabelHash = Some k -> k' = k /\ v' = v) ->
       m !! k = Some v).
Proof.
  induction l as [|[k0 v0] l IH] using rev_ind; [exists ∅; split_and!; [done|done|set_solver]|].
  destruct IH as (m & Hm & Hall & Hkeep). unfold NormalizeLabels in *. rewrite foldl_app, Hm. simpl.
  destruct (NormalizeLabelKey_ok k0) as (k1 & Hk & Hk1). rewrite Hk. simpl.
  destruct (NormalizeLabelValue_ok v0) as (v1 & Hv & Hv1). rewrite Hv. simpl.
  exists (<[k1 := v1]> m). split_and!; [done|by apply map_Forall_insert_2|].
  assert (Hkey : forall k, slen k <= MaxTagScopeLength -> NormalizeLabelKey k truncateLabelHash = Some k)
    by (intros k ?; unfold NormalizeLabelKey; by rewrite bool_decide_eq_true_2).
  assert (Hval : forall v, slen v <= MaxTagValueLength -> NormalizeLabelValue v truncateLabelHash = Some v).
  { intros v ?. unfold NormalizeLabelValue, normalizeNameByLimit.
    assert (connectStrings "_" [v; ""] = v) as -> by (unfold connectStrings; by destruct v).
    by rewrite bool_decide_eq_true_2. }
  intros k v Hin Hsk Hsv Huniq. destruct (decide (k = k1)) as [<-|Hne].
  - destruct (Huniq k0 v0) as [-> ->]; [set_solver|done|].
    rewrite (Hval v Hsv) in Hv. simplify_eq. apply lookup_insert_eq.
  - rewrite lookup_insert_ne by done. apply Hkeep; [|done..|intros; apply Huniq; set_solver].
    apply elem_of_app in Hin as [Hin|Hin]; [done|]. apply list_elem_of_singleton in Hin as [= -> ->].
    rewrite (Hkey k0 Hsk) in Hk. congruence.
Qed.

(** A generated name never exceeds its limit, whatever the lengths of its
    parts: a long middle part is cut and hashed, prefix and suffix are kept. *)
Theorem GenerateTruncName_bound limit resName prefix suffix project cluster r :
  slen prefix + slen suffix + 2 <= limit ->
  GenerateTruncName limit resName prefix suffix project cluster = Some r -> slen r <= limit.
Proof.
  intros Hlim. unfold GenerateTruncName, generateDisplayName. cbn [foldl].
  set (adj := if bool_decide (0 < slen suffix) then _ else _).
  assert (Hadj : adj = limit - parts_len [prefix; suffix]).
  { unfold adj. cbn [parts_len foldr]. pose proof (slen_pos prefix). pose proof (slen_pos suffix).
    pose proof (slen_nonneg prefix). pose proof (slen_nonneg suffix).
    repeat case_bool_decide; try lia; naive_solver lia. }
  pose proof (slen_nonneg prefix). pose proof (slen_nonneg suffix).
  case_bool_decide as Hold; intros Hr.
  - apply bind_Some in Hr as (n & Hn%normalizeNameByLimit_bound & [= <-]).
    rewrite slen_connect. cbn [parts_len foldr] in *.
    change (bool_decide ("" <> "")) with false in *. cbn beta iota in *.
    repeat case_bool_decide; lia.
  - simplify_eq. rewrite slen_connect in Hold |- *. cbn [parts_len foldr] in *.
    change (bool_decide ("" <> "")) with false in *. cbn beta iota in *.
    pose proof (slen_nonneg cluster). pose proof (slen_nonneg project). pose proof (slen_nonneg resName).
    repeat case_bool_decide; lia.
Qed.
Lemma GenerateTruncName_bound_witness :
  exists r, GenerateTruncName 20 "web-frontend-service" "sp" "all" "project-quality" "k8scl-one" = Some r /\
  slen r <= 20.
Proof.
  eexists. split; [vm_compute; reflexivity|].
  eapply (GenerateTruncName_bound 20 "web-frontend-service" "sp" "all" "project-quality" "k8scl-one");
    [vm_compute; discriminate|vm_compute; reflexivity].
Defined.

(** A normalized identifier has at most 255 bytes; when the name is longer,
    it is a prefix of the name without colons, not ending in a separator,
    followed by a dash and the first eight digits of the hash of the name. *)
Theorem NormalizeId_bound name id :
  NormalizeId name = Some id ->
  slen id <= MaxIdLength /\
  (MaxIdLength < slen (replace_all ":" "_" name) ->
   exists n h a, id = take_str n (replace_all ":" "_" name) +:+ "-" +:+ h /\
     slice_to (Sha1 name) HashLength = Some h /\ (1 <= n <= 246)%nat /\
     String.get (n - 1) (replace_all ":" "_" name) = Some a /\ is_id_sep a = false).
Proof.
  unfold NormalizeId. case_bool_decide as Hlen; intros Hr; [simplify_eq; split; [done|lia]|].
  apply bind_Some in Hr as (n & (Hn & a & Ha & Hsep)%trim_id_spec &
    (p & Hp & (h & Hh & [= <-])%bind_Some)%bind_Some).
  change (Z.to_nat (MaxIdLength - HashLength - 1)) with 246%nat in *.
  pose proof Hp as [Hp1 _]%slice_to_Some. pose proof Hh as [Hh1 _]%slice_to_Some. split.
  - rewrite slen_app, slen_String, Hp1, Hh1. unfold MaxIdLength, HashLength in *. lia.
  - intros _. exists n, h, a. split_and!; try done; try lia. f_equal.
    unfold slice_to in Hp. case_bool_decide; simplify_eq. by rewrite Nat2Z.id.
Qed.
Lemma NormalizeId_bound_witness :
  let name := join "" (repeat "0123456789" 26) in
  exists id, NormalizeId name = Some id /\ slen id <= MaxIdLength.
Proof.
  eexists. split; [vm_compute; reflexivity|].
  eapply (NormalizeId_bound (join "" (repeat "0123456789" 26))). vm_compute. reflexivity.
Defined.
(** A name made of separators only has no prefix to keep: the loop runs below
    index zero. *)
Lemma NormalizeId_panics : NormalizeId (join "" (repeat ":" 300)) = None.
Proof. vm_compute. reflexivity. Qed.

Lemma TruncateUIDHash_len uid s : TruncateUIDHash uid = Some s -> slen s = UUIDHashLength.
Proof. intros H. by apply slice_to_Some in H as [? _]. Qed.
(** The identifier of an object fits, whatever its name. *)
Lemma GenerateIDByObject_bound obj id :
  GenerateIDByObject obj = Some id -> slen id <= MaxIdLength.
Proof.
  unfold GenerateIDByObject. intros (s & Hs%TruncateUIDHash_len & Hr)%bind_Some.
  revert Hr. case_bool_decide; [|by intros [= <-]; lia]. intros Hr.
  apply bind_Some in Hr as (n & [Hn _]%slice_to_Some & [= <-]).
  rewrite slen_connect. cbn [parts_len foldr].
  repeat case_bool_decide; unfold MaxIdLength, UUIDHashLength in *; lia.
Qed.

Lemma unique_loop_fresh gen ex uuids fuel : forall i name resId id,
  unique_loop gen ex uuids fuel i name resId = Some id -> ex id = false.
Proof.
  induction fuel as [|fuel IH]; intros i name resId id; simpl; destruct (ex resId) eqn:E; try done;
    try (by intros [= <-]).
  intros (r & _ & Hr)%bind_Some. eauto.
Qed.
(** The loop ends at the first random identifier that is not taken. *)
Lemma unique_loop_ends gen ex uuids k : forall i name resId id,
  (forall j, (j < k)%nat -> exists r, gen (mkObject name (uuids (i + j)%nat)) = Some r /\ ex r = true) ->
  gen (mkObject name (uuids (i + k)%nat)) = Some id -> ex id = false -> ex resId = true ->
  unique_loop gen ex uuids (S k) i name resId = Some id.
Proof.
  induction k as [|k IH]; intros i name resId id Hpre Hk Hid Hres; cbn [unique_loop]; rewrite Hres.
  - rewrite Nat.add_0_r in Hk. rewrite Hk. simpl. by rewrite Hid.
  - destruct (Hpre 0%nat ltac:(lia)) as (r & Hr & Hex). rewrite Nat.add_0_r in Hr.
    rewrite Hr. cbn [mbind option_bind]. apply IH; [|by rewrite Nat.add_succ_comm|done|done].
    intros j Hj. destruct (Hpre (S j) ltac:(lia)) as (r' & Hr' & Hex').
    exists r'. by rewrite Nat.add_succ_comm.
Qed.

(** If one of the random UUIDs gives an identifier that is not taken, the
    loop of [BuildUniqueIDWithRandomUUID] ends, and its result is not taken: the
    first such identifier, or the deterministic one when that is free. *)
Theorem BuildUniqueIDWithRandomUUID_spec gen ex uuids obj id0 k id :
  gen obj = Some id0 ->
  (forall j, (j < k)%nat -> exists r, gen (mkObject (GetName obj) (uuids j)) = Some r /\ ex r = true) ->
  gen (mkObject (GetName obj) (uuids k)) = Some id -> ex id = false ->
  BuildUniqueIDWithRandomUUID gen ex uuids (S k) obj = Some (if ex id0 then id else id0) /\
  ex (if ex id0 then id else id0) = false.
Proof.
  intros H0 Hpre Hk Hid. unfold BuildUniqueIDWithRandomUUID. rewrite H0. cbn [mbind option_bind].
  destruct (ex id0) eqn:E0.
  - split; [|done]. by apply unique_loop_ends.
  - split; [|done]. cbn [unique_loop]. by rewrite E0.
Qed.
Lemma BuildUniqueIDWithRandomUUID_spec_witness :
  let gen := fun o => Some (connectStrings "_" [GetName o; GetUID o]) in
  let ex := fun s => bool_decide (s = "pod_a") in
  BuildUniqueIDWithRandomUUID gen ex (fun _ => "u") 1 (mkObject "pod" "a") =
    Some (if ex "pod_a" then "pod_u" else "pod_a") /\
  ex (if ex "pod_a" then "pod_u" else "pod_a") = false.
Proof.
  intros gen ex.
  apply (BuildUniqueIDWithRandomUUID_spec gen ex (fun _ => "u") (mkObject "pod" "a") "pod_a" 0 "pod_u");
    [reflexivity|intros j Hj; exfalso; lia|reflexivity|reflexivity].
Defined.

(** Shared Subnet references survive the trip through the NSX path: for
    non-empty ids without a slash or colon, the path built from
    project:vpc:subnet converts back to the same reference. *)
Theorem associated_resource_roundtrip p v s :
  Forall (fun x => x <> "" /\ contains_byte "/" x = false /\ contains_byte ":" x = false) [p; v; s] ->
  exists path, GetSubnetPathFromAssociatedResource (p +:+ ":" +:+ v +:+ ":" +:+ s) = Some path /\
    ConvertSubnetPathToAssociatedResource path = Some (p +:+ ":" +:+ v +:+ ":" +:+ s).
Proof.
  intros Hall. rewrite !Forall_cons in Hall.
  destruct Hall as ((Hp & Hp1 & Hp2) & (Hv & Hv1 & Hv2) & (Hs & Hs1 & Hs2) & _).
  unfold GetSubnetPathFromAssociatedResource.
  assert (Hc : split_on ":" (p +:+ ":" +:+ v +:+ ":" +:+ s) = [p; v; s]).
  { change (p +:+ ":" +:+ v +:+ ":" +:+ s) with (join ":" [p; v; s]).
    apply (split_join ":"); [done|]. by repeat (apply Forall_cons_2; [done|]). }
  rewrite Hc. eexists. split; [reflexivity|].
  set (path := _ +:+ _).
  assert (Hl : split_on "/" path = [""; "orgs"; "default"; "projects"; p; "vpcs"; v; "subnets"; s]).
  { change path with (join "/" [""; "orgs"; "default"; "projects"; p; "vpcs"; v; "subnets"; s]).
    apply (split_join "/"); [done|]. by repeat (apply Forall_cons_2; [done|]). }
  unfold ConvertSubnetPathToAssociatedResource, ExtractSubnetPath, ParseVPCResourcePath.
  rewrite Hl. simpl. by repeat case_bool_decide.
Qed.
Lemma associated_resource_roundtrip_witness :
  exists path, GetSubnetPathFromAssociatedResource ("proj-1" +:+ ":" +:+ "vpc-1" +:+ ":" +:+ "subnet-1") = Some path /\
    ConvertSubnetPathToAssociatedResource path = Some ("proj-1" +:+ ":" +:+ "vpc-1" +:+ ":" +:+ "subnet-1").
Proof.
  apply (associated_resource_roundtrip "proj-1" "vpc-1" "subnet-1").
  repeat (apply Forall_cons_2; [done|]). apply Forall_nil_2.
Defined.

(** The annotations set do not depend on the order of the changes, but whether
    the object is sent to the API server does: an absent key to remove, ranged
    over last, drops the update of the others. *)
Lemma UpdateK8sResourceAnnotation_lost_update :
  UpdateK8sResourceAnnotation ∅ [("gone", ""); ("key", "v")] = ({["key" := "v"]}, true) /\
  UpdateK8sResourceAnnotation ∅ [("key", "v"); ("gone", "")] = ({["key" := "v"]}, false).
Proof. by split. Qed.

(** The default static allocation type of a SubnetPort names exactly the
    families of its interface that DHCP does not serve, and none when static
    allocation is off. *)
Theorem ComputeDefaultStaticIPAllocationType_spec s t :
  t ∈ ["IPv4"; "IPv6"; "IPv4IPv6"] ->
  let r := ComputeDefaultStaticIPAllocationType s t in
  let static := NSXSubnetStaticIPAllocationEnabled s in
  (r = "IPv4" \/ r = "IPv4IPv6" <->
     static = true /\ (t = "IPv4" \/ t = "IPv4IPv6") /\ NSXSubnetDHCPEnabled s = false) /\
  (r = "IPv6" \/ r = "IPv4IPv6" <->
     static = true /\ (t = "IPv6" \/ t = "IPv4IPv6") /\ NSXSubnetDHCPv6Enabled s = false).
Proof.
  intros Ht. rewrite !elem_of_cons, elem_of_nil in Ht.
  unfold ComputeDefaultStaticIPAllocationType.
  destruct Ht as [-> |[-> |[-> |[]]]];
    destruct (NSXSubnetStaticIPAllocationEnabled s), (NSXSubnetDHCPEnabled s),
      (NSXSubnetDHCPv6Enabled s); simpl; naive_solver.
Qed.
Lemma ComputeDefaultStaticIPAllocationType_spec_witness :
  let s := mkVpcSubnet (Some "DHCP_SERVER") None (Some true) in
  ComputeDefaultStaticIPAllocationType s "IPv4IPv6" = "IPv6" /\
  (let r := ComputeDefaultStaticIPAllocationType s "IPv4IPv6" in
   r = "IPv4" \/ r = "IPv4IPv6" <->
     NSXSubnetStaticIPAllocationEnabled s = true /\
     ("IPv4IPv6" = "IPv4" \/ "IPv4IPv6" = "IPv4IPv6") /\ NSXSubnetDHCPEnabled s = false).
Proof.
  split; [reflexivity|].
  apply (ComputeDefaultStaticIPAllocationType_spec (mkVpcSubnet (Some "DHCP_SERVER") None (Some true)) "IPv4IPv6").
  apply list_elem_of_further, list_elem_of_further, list_elem_of_here.
Defined.
