(* ===== verification/VlanPool.v ===== *)
(** * pkg/nsx/services/vlanpool: VLAN allocation for SubnetConnectionBindingMaps

    VLANs 1..4094 per set of parent Subnets. The used VLANs come from a
    collector (the binding service); the pool only keeps the VLANs reserved by
    reconciles in flight. *)
From S2P Require Import Prelude GoStrings Errors.

(** [VlanCollector], the interface the pool asks for used VLANs: [C] is the
    state of the collector; the arguments are the parent Subnet paths and the
    UID of the CR whose own bindings do not count. *)
Class VlanCollector (C : Type) := {
  CollectUsedVlansOnParentSubnetsFromCache : C -> list string -> string -> result goerr (gset Z);
  CollectUsedVlansOnParentSubnetsFromNSX : C -> list string -> string -> result goerr (gset Z) }.

Definition poolStart : Z := 1.
Definition poolEnd : Z := 4094.

(** [poolStates]: the pending VLANs of each pool key. *)
Abbreviation poolStates := (gmap string (gset Z)).

Definition IsVlanAllocationError (err : option goerr) : bool :=
  match err with
  | Some e => bool_decide (is_Some (errors_As (fun e => match e with EVlanAllocation c => Some c | _ => None end) e))
  | None => false
  end.

Definition nul : string := String "000" "".
Definition poolKey (parentSubnetPaths : list string) : string :=
  join nul (sort_strings parentSubnetPaths).
(** [getPoolState]: a missing entry is created empty. *)
Definition getPoolState (st : poolStates) (parentSubnetPaths : list string) : gset Z :=
  default ∅ (st !! poolKey parentSubnetPaths).

Definition cleanupCommittedPending (used pending : gset Z) : gset Z :=
  filter (fun vlan => vlan ∉ used) pending.
Definition unavailableVlans (used pending : gset Z) : gset Z := used ∪ pending.

(** [for id := poolStart; id <= poolEnd; id++] *)
Fixpoint first_free (fuel : nat) (id : Z) (unavailable : gset Z) : option Z :=
  match fuel with
  | O => None
  | S fuel' => if bool_decide (id ∈ unavailable) then first_free fuel' (id + 1) unavailable
               else Some id
  end.
Definition pool_size : nat := Z.to_nat (poolEnd - poolStart + 1).

Definition poolFull : goerr :=
  EVlanAllocation (EText "no available VLAN in pool [1, 4094] for target Subnet or SubnetSet").
Definition vlanUsed (vlan : Z) : goerr :=
  EVlanAllocation (EText ("vlanTrafficTag " +:+ itoa vlan +:+
                          " is already used on target Subnet or SubnetSet")).

(** The part of [Allocate] under the lock of the pool, on the pending set. *)
Definition allocate_locked (used pending : gset Z) (preferred : Z) : result goerr Z * gset Z :=
  let pending := cleanupCommittedPending used pending in
  let unavailable := unavailableVlans used pending in
  if bool_decide (poolStart <= preferred) && bool_decide (preferred <= poolEnd) &&
     negb (bool_decide (preferred ∈ unavailable))
  then (Ok preferred, pending ∪ {[preferred]})
  else match first_free pool_size poolStart unavailable with
       | Some id => (Ok id, pending ∪ {[id]})
       | None => (Err poolFull, pending)
       end.
Definition validate_locked (used pending : gset Z) (vlan : Z) : option goerr * gset Z :=
  let pending := cleanupCommittedPending used pending in
  if bool_decide (vlan ∈ unavailableVlans used pending) then (Some (vlanUsed vlan), pending)
  else (None, pending ∪ {[vlan]}).

Section Service.
Context {C : Type} `{VlanCollector C}.

Definition collectUsed (c : C) (parents : list string) (excludeCRUID : string) (fromNSX : bool)
  : result goerr (gset Z) :=
  if fromNSX then CollectUsedVlansOnParentSubnetsFromNSX c parents excludeCRUID
  else CollectUsedVlansOnParentSubnetsFromCache c parents excludeCRUID.

Definition Allocate (c : C) (st : poolStates) (parents : list string) (excludeCRUID : string)
    (preferred : Z) (fromNSX : bool) : result goerr Z * poolStates :=
  match collectUsed c parents excludeCRUID fromNSX with
  | Err e => (Err (EVlanAllocation e), st)
  | Ok used =>
      let '(r, pending) := allocate_locked used (getPoolState st parents) preferred in
      (r, <[poolKey parents := pending]> st)
  end.

Definition ValidateManualVlan (c : C) (st : poolStates) (parents : list string) (vlan : Z)
    (excludeCRUID : string) (fromNSX : bool) : option goerr * poolStates :=
  match collectUsed c parents excludeCRUID fromNSX with
  | Err e => (Some (EVlanAllocation e), st)
  | Ok used =>
      let '(r, pending) := validate_locked used (getPoolState st parents) vlan in
      (r, <[poolKey parents := pending]> st)
  end.
End Service.

Definition CommitPending (st : poolStates) (parents : list string) (vlan : Z) : poolStates :=
  if bool_decide (vlan = 0) then st
  else <[poolKey parents := getPoolState st parents ∖ {[vlan]}]> st.
Definition ReleasePending (st : poolStates) (parents : list string) (vlan : Z) : poolStates :=
  CommitPending st parents vlan.

(** ** Facts about one pool *)
Lemma first_free_spec fuel id un :
  match first_free fuel id un with
  | Some v => id <= v < id + Z.of_nat fuel /\ v ∉ un /\ forall w, id <= w < v -> w ∈ un
  | None => forall w, id <= w < id + Z.of_nat fuel -> w ∈ un
  end.
Proof.
  revert id; induction fuel as [|fuel IH]; intros id; cbn [first_free]; [intros; lia|].
  case_bool_decide as Hid; [|split; [lia|split; [done|intros; lia]]].
  specialize (IH (id + 1)). destruct (first_free fuel (id + 1) un) as [v|].
  - destruct IH as (H1 & H2 & H3). split; [lia|]. split; [done|]. intros w Hw.
    destruct (decide (w = id)) as [->|]; [done|]. apply H3. lia.
  - intros w Hw. destruct (decide (w = id)) as [->|]; [done|]. apply IH. lia.
Qed.

Lemma elem_of_cleanup used pending v :
  v ∈ cleanupCommittedPending used pending <-> v ∈ pending /\ v ∉ used.
Proof. unfold cleanupCommittedPending. rewrite elem_of_filter. naive_solver. Qed.
Lemma unavailable_cleanup used pending v :
  v ∈ unavailableVlans used (cleanupCommittedPending used pending) <-> v ∈ used \/ v ∈ pending.
Proof.
  unfold unavailableVlans. rewrite elem_of_union, elem_of_cleanup.
  destruct (decide (v ∈ used)); naive_solver.
Qed.

(** What an allocation under the lock guarantees. *)
Lemma allocate_locked_spec used pending preferred :
  match allocate_locked used pending preferred with
  | (Ok v, pending') =>
      poolStart <= v <= poolEnd /\ v ∉ used /\ v ∉ pending /\
      pending' = cleanupCommittedPending used pending ∪ {[v]} /\
      (v = preferred \/
       (~ (poolStart <= preferred <= poolEnd /\ preferred ∉ used /\ preferred ∉ pending) /\
        forall w, poolStart <= w < v -> w ∈ used \/ w ∈ pending))
  | (Err e, pending') =>
      e = poolFull /\ pending' = cleanupCommittedPending used pending /\
      forall w, poolStart <= w <= poolEnd -> w ∈ used \/ w ∈ pending
  end.
Proof.
  unfold allocate_locked.
  pose proof (unavailable_cleanup used pending) as Hun.
  set (un := unavailableVlans used (cleanupCommittedPending used pending)) in *.
  destruct (bool_decide (poolStart <= preferred) && bool_decide (preferred <= poolEnd) &&
            negb (bool_decide (preferred ∈ un))) eqn:Hp.
  - go_bool. destruct Hp as [[H1 H2] H3]. rewrite bool_decide_eq_true in H1, H2.
    apply bool_decide_eq_false in H3. rewrite Hun in H3.
    split_and!; [done|done|by intros ?; apply H3; left|by intros ?; apply H3; right|done|by left].
  - assert (Hno : ~ (poolStart <= preferred <= poolEnd /\ preferred ∉ used /\ preferred ∉ pending)).
    { intros ([H1 H2] & H3 & H4). assert (preferred ∉ un) by (rewrite Hun; naive_solver).
      rewrite (bool_decide_eq_true_2 _ H1), (bool_decide_eq_true_2 _ H2) in Hp.
      by rewrite bool_decide_eq_false_2 in Hp. }
    pose proof (first_free_spec pool_size poolStart un) as Hf.
    assert (Hsz : Z.of_nat pool_size = poolEnd - poolStart + 1) by (vm_compute; reflexivity).
    destruct (first_free pool_size poolStart un) as [v|].
    + destruct Hf as (H1 & H2 & H3). rewrite Hun in H2. setoid_rewrite Hun in H3.
      split; [lia|]. naive_solver.
    + setoid_rewrite Hun in Hf. split; [done|]. split; [done|]. intros w Hw. apply Hf. lia.
Qed.

(** ** Reconciles that share a pool

    The reconciles of different CRs on one set of parent Subnets, and the
    removals of their bindings, in any order. A reconcile reads the used VLANs
    (outside the lock), then allocates or validates a manual VLAN under the
    lock, or reuses the VLAN of its own bindings without asking the pool; it
    writes its bindings to NSX and the store and commits, or releases its
    reservation when the write fails. The controller runs one reconcile of a
    CR at a time. *)
Inductive rstate :=
  | RSnap (used : gset Z)   (* used VLANs read, lock not yet taken *)
  | RHold (vlan : Z)        (* VLAN chosen, bindings not yet written *)
  | RRealized (vlan : Z).   (* bindings in the store, not yet committed *)
Record pool_sys := mkPoolSys {
  ps_store : gmap string Z;       (* the VLAN of the stored bindings of each CR *)
  ps_pending : gset Z;            (* [poolState.pending] *)
  ps_threads : gmap string rstate; (* the reconciles in flight, by CR *)
  ps_stale : gset Z }.            (* ghost: see [misread] *)

(** What the collector finds for the CR [uid]: the VLANs of the bindings of the
    others. *)
Definition others_used (store : gmap string Z) (uid : string) : gset Z :=
  map_img (delete uid store).
(** The VLANs on which the used VLANs a reconcile has read mislead it when it
    takes the lock: those the read misses although bindings of another CR have
    them by now, and the pending ones it counts as used although no binding of
    another CR has them (removed since, or in NSX and not yet in the store),
    whose reservation it drops. *)
Definition misread (store : gmap string Z) (pending : gset Z) (uid : string) (snap : gset Z) : gset Z :=
  (others_used store uid ∖ snap) ∪ ((snap ∩ pending) ∖ others_used store uid).

Definition commit_locked (pending : gset Z) (vlan : Z) : gset Z :=
  if bool_decide (vlan = 0) then pending else pending ∖ {[vlan]}.

Inductive pool_step : pool_sys -> pool_sys -> Prop :=
  | step_collect_cache store pending ts stale p :
      ts !! p = None ->
      pool_step (mkPoolSys store pending ts stale)
        (mkPoolSys store pending (<[p := RSnap (others_used store p)]> ts) stale)
  | step_collect_nsx store pending ts stale p nsx :   (* NSX also knows other bindings *)
      ts !! p = None ->
      pool_step (mkPoolSys store pending ts stale)
        (mkPoolSys store pending (<[p := RSnap nsx]> ts) stale)
  | step_allocate store pending ts stale p snap preferred v pending' :
      ts !! p = Some (RSnap snap) ->
      allocate_locked snap pending preferred = (Ok v, pending') ->
      pool_step (mkPoolSys store pending ts stale)
        (mkPoolSys store pending' (<[p := RHold v]> ts) (stale ∪ misread store pending p snap))
  | step_full store pending ts stale p snap preferred e pending' :
      ts !! p = Some (RSnap snap) ->
      allocate_locked snap pending preferred = (Err e, pending') ->
      pool_step (mkPoolSys store pending ts stale)
        (mkPoolSys store pending' (delete p ts) (stale ∪ misread store pending p snap))
  | step_validate store pending ts stale p snap v pending' :
      ts !! p = Some (RSnap snap) ->
      validate_locked snap pending v = (None, pending') ->
      pool_step (mkPoolSys store pending ts stale)
        (mkPoolSys store pending' (<[p := RHold v]> ts) (stale ∪ misread store pending p snap))
  | step_refuse store pending ts stale p snap v e pending' :
      ts !! p = Some (RSnap snap) ->
      validate_locked snap pending v = (Some e, pending') ->
      pool_step (mkPoolSys store pending ts stale)
        (mkPoolSys store pending' (delete p ts) (stale ∪ misread store pending p snap))
  | step_reuse store pending ts stale p v :           (* [existingBMs[0].VlanTrafficTag] *)
      ts !! p = None -> store !! p = Some v ->
      pool_step (mkPoolSys store pending ts stale)
        (mkPoolSys store pending (<[p := RHold v]> ts) stale)
  | step_realize store pending ts stale p v :
      ts !! p = Some (RHold v) ->
      pool_step (mkPoolSys store pending ts stale)
        (mkPoolSys (<[p := v]> store) pending (<[p := RRealized v]> ts) stale)
  | step_commit store pending ts stale p v :
      ts !! p = Some (RRealized v) ->
      pool_step (mkPoolSys store pending ts stale)
        (mkPoolSys store (commit_locked pending v) (delete p ts) stale)
  | step_release store pending ts stale p v :
      ts !! p = Some (RHold v) ->
      pool_step (mkPoolSys store pending ts stale)
        (mkPoolSys store (commit_locked pending v) (delete p ts) stale)
  | step_remove store pending ts stale p v :
      (* by the CR's own controller or the garbage collection, or, with a
         deleted SubnetSet, while a reconcile of the CR is running *)
      store !! p = Some v ->
      pool_step (mkPoolSys store pending ts stale)
        (mkPoolSys (delete p store) pending ts
           (if decide (ts !! p = None) then stale else stale ∪ {[v]})).

(** Bindings already there, no reconcile in flight. *)
Definition pool_init (store : gmap string Z) : pool_sys := mkPoolSys store ∅ ∅ ∅.

(** The VLAN [v] belongs to the CR [p]: its bindings have it, or a reconcile
    of it is about to write them. *)
Definition thread_vlan (r : rstate) : option Z :=
  match r with RSnap _ => None | RHold v | RRealized v => Some v end.
Definition has_vlan (s : pool_sys) (p : string) (v : Z) : Prop :=
  ps_store s !! p = Some v \/ ps_threads s !! p ≫= thread_vlan = Some v.

(** The invariant for the VLANs outside [ps_stale]. *)
Record pool_inv (s : pool_sys) : Prop := mk_pool_inv {
  pi_one : forall p q v, v ∉ ps_stale s -> has_vlan s p v -> has_vlan s q v -> p = q;
  pi_pending : forall p v, v ∉ ps_stale s -> ps_threads s !! p = Some (RHold v) ->
    ps_store s !! p = Some v \/ v ∈ ps_pending s;
  pi_realized : forall p v, v ∉ ps_stale s -> ps_threads s !! p = Some (RRealized v) ->
    ps_store s !! p = Some v }.

Lemma elem_of_others store p v :
  v ∈ others_used store p <-> exists q, q <> p /\ store !! q = Some v.
Proof.
  unfold others_used. rewrite elem_of_map_img. split; intros [q Hq]; exists q.
  - by apply lookup_delete_Some in Hq as [Hne Hq].
  - destruct Hq as [Hne Hq]. by rewrite lookup_delete_ne.
Qed.
Lemma not_missed store pending p snap q v :
  v ∉ misread store pending p snap -> v ∉ snap -> store !! q = Some v -> q = p.
Proof.
  intros Hm Hv Hq. destruct (decide (q = p)) as [|Hne]; [done|]. destruct Hm.
  apply elem_of_union_l, elem_of_difference. split; [|done]. apply elem_of_others. eauto.
Qed.
Lemma kept_or_stored store pending p snap v :
  v ∉ misread store pending p snap -> v ∈ pending ->
  v ∈ cleanupCommittedPending snap pending \/ exists q, q <> p /\ store !! q = Some v.
Proof.
  intros Hm Hv. rewrite elem_of_cleanup, <- elem_of_others.
  destruct (decide (v ∈ snap)); [|naive_solver]. right.
  destruct (decide (v ∈ others_used store p)); [done|]. destruct Hm. set_solver.
Qed.
Lemma elem_of_commit pending v w : w <> v -> w ∈ pending -> w ∈ commit_locked pending v.
Proof. unfold commit_locked. case_bool_decide; set_solver. Qed.
Lemma validate_locked_ok used pending v pending' :
  validate_locked used pending v = (None, pending') ->
  v ∉ used /\ v ∉ pending /\ pending' = cleanupCommittedPending used pending ∪ {[v]}.
Proof.
  unfold validate_locked. case_bool_decide as Hv; [done|]. intros [= <-].
  rewrite unavailable_cleanup in Hv. naive_solver.
Qed.
Lemma validate_locked_err used pending v e pending' :
  validate_locked used pending v = (Some e, pending') ->
  pending' = cleanupCommittedPending used pending.
Proof. unfold validate_locked. case_bool_decide; [by intros [= _ <-]|done]. Qed.

(** [CommitPending] and [ReleasePending] on the pool of their parents. *)
Lemma CommitPending_locked st parents v :
  getPoolState (CommitPending st parents v) parents = commit_locked (getPoolState st parents) v.
Proof.
  unfold CommitPending, commit_locked. case_bool_decide; [done|].
  unfold getPoolState. by rewrite lookup_insert_eq.
Qed.

Lemma pool_inv_init store :
  (forall p q v, store !! p = Some v -> store !! q = Some v -> p = q) -> pool_inv (pool_init store).
Proof.
  intros Hd. split; simpl; [|done..].
  intros p q v _ [Hp|[=]] [Hq|[=]]. eauto.
Qed.

Lemma pool_inv_snap store pending ts stale p snap :
  ts !! p = None -> pool_inv (mkPoolSys store pending ts stale) ->
  pool_inv (mkPoolSys store pending (<[p := RSnap snap]> ts) stale).
Proof.
  intros Hp [H1 H2 H3]; cbn in *. split; cbn.
  - intros q r w Hw Hq Hr.
    assert (Hh : forall x, has_vlan (mkPoolSys store pending (<[p := RSnap snap]> ts) stale) x w ->
      has_vlan (mkPoolSys store pending ts stale) x w).
    { intros x [Hx|Hx]; cbn in *; [by left|right; cbn].
      destruct (decide (p = x)) as [<-|]; [by rewrite lookup_insert_eq in Hx|].
      by rewrite lookup_insert_ne in Hx by done. }
    eauto.
  - intros q w Hw [[<- [=]]|[Hne Hq]]%lookup_insert_Some. eauto.
  - intros q w Hw [[<- [=]]|[Hne Hq]]%lookup_insert_Some. eauto.
Qed.
(** Reusing the VLAN of the CR's own bindings. *)
Lemma pool_inv_reuse store pending ts stale p v :
  ts !! p = None -> store !! p = Some v -> pool_inv (mkPoolSys store pending ts stale) ->
  pool_inv (mkPoolSys store pending (<[p := RHold v]> ts) stale).
Proof.
  intros Hp Hst [H1 H2 H3]; cbn in *. split; cbn.
  - intros q r w Hw Hq Hr.
    assert (Hh : forall x, has_vlan (mkPoolSys store pending (<[p := RHold v]> ts) stale) x w ->
      has_vlan (mkPoolSys store pending ts stale) x w).
    { intros x [Hx|Hx]; cbn in *; [by left|].
      destruct (decide (p = x)) as [<-|]; [rewrite lookup_insert_eq in Hx; simplify_eq/=; by left|].
      rewrite lookup_insert_ne in Hx by done. by right. }
    eauto.
  - intros q w Hw [[<- [= <-]]|[Hne Hq]]%lookup_insert_Some; eauto.
  - intros q w Hw [[<- [=]]|[Hne Hq]]%lookup_insert_Some. eauto.
Qed.
(** Writing the bindings. *)
Lemma pool_inv_realize store pending ts stale p v :
  ts !! p = Some (RHold v) -> pool_inv (mkPoolSys store pending ts stale) ->
  pool_inv (mkPoolSys (<[p := v]> store) pending (<[p := RRealized v]> ts) stale).
Proof.
  intros Hp [H1 H2 H3]; cbn in *. split; cbn.
  - intros q r w Hw Hq Hr.
    assert (Hh : forall x, has_vlan (mkPoolSys (<[p := v]> store) pending (<[p := RRealized v]> ts) stale) x w ->
      has_vlan (mkPoolSys store pending ts stale) x w).
    { intros x Hx. unfold has_vlan in *; cbn in *.
      destruct (decide (p = x)) as [<-|]; [|by rewrite !lookup_insert_ne in Hx by done].
      rewrite !lookup_insert_eq, Hp in *. cbn in *. naive_solver. }
    eauto.
  - intros q w Hw [[<- [=]]|[Hne Hq]]%lookup_insert_Some. rewrite lookup_insert_ne by done. eauto.
  - intros q w Hw [[<- [= <-]]|[Hne Hq]]%lookup_insert_Some; [by rewrite lookup_insert_eq|].
    rewrite lookup_insert_ne by done. eauto.
Qed.
(** Removing the bindings of a CR. *)
Lemma pool_inv_remove store pending ts stale p v :
  store !! p = Some v -> pool_inv (mkPoolSys store pending ts stale) ->
  pool_inv (mkPoolSys (delete p store) pending ts
              (if decide (ts !! p = None) then stale else stale ∪ {[v]})).
Proof.
  intros Hst [H1 H2 H3]; cbn in *.
  set (stale' := if decide (ts !! p = None) then stale else stale ∪ {[v]}).
  assert (Hsub : forall w, w ∉ stale' -> w ∉ stale) by (unfold stale'; case_decide; set_solver).
  assert (Hkeep : forall q r w, w ∉ stale' -> ts !! q = Some r -> store !! q = Some w ->
    delete p store !! q = Some w).
  { intros q r w Hw Hq Hs. rewrite lookup_delete_ne; [done|]. intros <-. simplify_eq.
    revert Hw. unfold stale'. rewrite decide_False by congruence. set_solver. }
  split; cbn.
  - intros q r w Hw Hq Hr.
    assert (Hh : forall x, has_vlan (mkPoolSys (delete p store) pending ts stale') x w ->
      has_vlan (mkPoolSys store pending ts stale) x w).
    { intros x [Hx|Hx]; cbn in *; [left; cbn|by right]. by apply lookup_delete_Some in Hx as [_ ?]. }
    eauto.
  - intros q w Hw Hq. destruct (H2 q w (Hsub w Hw) Hq); eauto.
  - intros q w Hw Hq. eauto.
Qed.
(** Taking a free VLAN under the lock, by allocation or validation. *)
Lemma pool_inv_take store pending ts stale p snap v :
  ts !! p = Some (RSnap snap) -> v ∉ snap -> v ∉ pending ->
  pool_inv (mkPoolSys store pending ts stale) ->
  pool_inv (mkPoolSys store (cleanupCommittedPending snap pending ∪ {[v]}) (<[p := RHold v]> ts)
              (stale ∪ misread store pending p snap)).
Proof.
  intros Hp Hsnap Hpend [H1 H2 H3]; cbn in *.
  assert (Hnobody : forall q, v ∉ stale ∪ misread store pending p snap ->
    has_vlan (mkPoolSys store pending ts stale) q v -> q = p).
  { intros q [Hs Hm]%not_elem_of_union [Hq|Hq]; cbn in *; [eauto using not_missed|].
    destruct (ts !! q) as [[?|w|w]|] eqn:Ht; simplify_eq/=.
    - destruct (H2 q v Hs Ht) as [Hst|Hin]; [eauto using not_missed|done].
    - eauto using not_missed. }
  assert (Hhas : forall q w, w ∉ stale ∪ misread store pending p snap ->
    has_vlan (mkPoolSys store (cleanupCommittedPending snap pending ∪ {[v]}) (<[p := RHold v]> ts)
                (stale ∪ misread store pending p snap)) q w ->
    (q = p /\ w = v) \/ has_vlan (mkPoolSys store pending ts stale) q w).
  { intros q w _ [Hq|Hq]; cbn in *; [right; by left|].
    destruct (decide (p = q)) as [<-|Hne]; [rewrite lookup_insert_eq in Hq; simplify_eq/=; by left|].
    rewrite lookup_insert_ne in Hq by done. right; by right. }
  split; cbn.
  - intros q r w Hw Hq Hr. destruct (Hhas q w Hw Hq) as [[-> ->]|Hq'].
    { destruct (Hhas r v Hw Hr) as [[-> _]|Hr']; [done|by rewrite (Hnobody r Hw Hr')]. }
    destruct (Hhas r w Hw Hr) as [[-> ->]|Hr']; [by rewrite (Hnobody q Hw Hq')|].
    apply not_elem_of_union in Hw as [Hw _]. eauto.
  - intros q w Hw [[<- [= <-]]|[Hne Hq]]%lookup_insert_Some; [right; set_solver|].
    apply not_elem_of_union in Hw as [Hw Hm].
    destruct (H2 q w Hw Hq) as [|Hin]; [by left|].
    destruct (kept_or_stored store pending p snap w Hm Hin) as [Hk|(r & Hr & Hst)]; [right; set_solver|].
    left. rewrite <- (H1 r q w Hw); [done|by left|]. right. cbn. by rewrite Hq.
  - intros q w Hw [[<- [=]]|[Hne Hq]]%lookup_insert_Some. apply not_elem_of_union in Hw as [Hw _]. eauto.
Qed.
(** Giving up under the lock. *)
Lemma pool_inv_give_up store pending ts stale p snap :
  ts !! p = Some (RSnap snap) ->
  pool_inv (mkPoolSys store pending ts stale) ->
  pool_inv (mkPoolSys store (cleanupCommittedPending snap pending) (delete p ts)
              (stale ∪ misread store pending p snap)).
Proof.
  intros Hp [H1 H2 H3]; cbn in *. split; cbn.
  - intros q r w [Hw _]%not_elem_of_union Hq Hr.
    assert (Hh : forall x, has_vlan (mkPoolSys store (cleanupCommittedPending snap pending) (delete p ts)
      (stale ∪ misread store pending p snap)) x w -> has_vlan (mkPoolSys store pending ts stale) x w).
    { intros x [Hx|Hx]; cbn in *; [by left|right; cbn].
      destruct (decide (p = x)) as [<-|]; [by rewrite lookup_delete_eq in Hx|].
      by rewrite lookup_delete_ne in Hx by done. }
    eauto.
  - intros q w [Hw Hm]%not_elem_of_union [Hne Hq]%lookup_delete_Some.
    destruct (H2 q w Hw Hq) as [|Hin]; [by left|].
    destruct (kept_or_stored store pending p snap w Hm Hin) as [Hk|(r & Hr & Hst)]; [by right|].
    left. rewrite <- (H1 r q w Hw); [done|by left|]. right. cbn. by rewrite Hq.
  - intros q w [Hw _]%not_elem_of_union [Hne Hq]%lookup_delete_Some. eauto.
Qed.
(** Ending a reconcile that has [v]. *)
Lemma pool_inv_end store pending ts stale p v r :
  ts !! p = Some r -> thread_vlan r = Some v ->
  pool_inv (mkPoolSys store pending ts stale) ->
  pool_inv (mkPoolSys store (commit_locked pending v) (delete p ts) stale).
Proof.
  intros Hp Hv [H1 H2 H3]; cbn in *. split; cbn.
  - intros q q' w Hw Hq Hq'.
    assert (Hh : forall x, has_vlan (mkPoolSys store (commit_locked pending v) (delete p ts) stale) x w ->
      has_vlan (mkPoolSys store pending ts stale) x w).
    { intros x [Hx|Hx]; cbn in *; [by left|right; cbn].
      destruct (decide (p = x)) as [<-|]; [by rewrite lookup_delete_eq in Hx|].
      by rewrite lookup_delete_ne in Hx by done. }
    eauto.
  - intros q w Hw [Hne Hq]%lookup_delete_Some.
    destruct (H2 q w Hw Hq) as [|Hin]; [by left|right]. apply elem_of_commit; [|done].
    intros ->. destruct Hne. apply (H1 p q v Hw); right; cbn; [by rewrite Hp|by rewrite Hq].
  - intros q w Hw [Hne Hq]%lookup_delete_Some. eauto.
Qed.

Lemma pool_inv_step s s' : pool_step s s' -> pool_inv s -> pool_inv s'.
Proof.
  intros Hs Hi. destruct Hs as
    [store pending ts stale p Hp|store pending ts stale p nsx Hp
    |store pending ts stale p snap pref v pending' Hp Ha|store pending ts stale p snap pref e pending' Hp Ha
    |store pending ts stale p snap v pending' Hp Ha|store pending ts stale p snap v e pending' Hp Ha
    |store pending ts stale p v Hp Hst|store pending ts stale p v Hp|store pending ts stale p v Hp
    |store pending ts stale p v Hp|store pending ts stale p v Hst].
  - by apply pool_inv_snap.
  - by apply pool_inv_snap.
  - pose proof (allocate_locked_spec snap pending pref) as Hspec. rewrite Ha in Hspec.
    destruct Hspec as (_ & ? & ? & -> & _). by apply pool_inv_take.
  - pose proof (allocate_locked_spec snap pending pref) as Hspec. rewrite Ha in Hspec.
    destruct Hspec as (_ & -> & _). by apply pool_inv_give_up.
  - apply validate_locked_ok in Ha as (? & ? & ->). by apply pool_inv_take.
  - apply validate_locked_err in Ha as ->. by apply pool_inv_give_up.
  - by apply pool_inv_reuse.
  - by apply pool_inv_realize.
  - by eapply pool_inv_end.
  - by eapply pool_inv_end.
  - by apply pool_inv_remove.
Qed.

(** ** Properties *)

(** An allocation returns a VLAN of [1, 4094] that is neither used nor
    pending: the preferred one whenever it is available, otherwise the smallest
    available one; it becomes pending. It fails exactly when every VLAN of the
    range is used or pending, and then only drops pending VLANs already in use. *)
Theorem Allocate_spec {C} `{VlanCollector C} (c : C) st parents uid preferred fromNSX used r st' :
  collectUsed c parents uid fromNSX = Ok used ->
  Allocate c st parents uid preferred fromNSX = (r, st') ->
  let pending := getPoolState st parents in
  let free w := poolStart <= w <= poolEnd /\ w ∉ used /\ w ∉ pending in
  match r with
  | Ok v => free v /\ (free preferred -> v = preferred) /\
      (~ free preferred -> forall w, free w -> v <= w) /\
      getPoolState st' parents = cleanupCommittedPending used pending ∪ {[v]}
  | Err e => e = poolFull /\ (forall w, ~ free w) /\
      getPoolState st' parents = cleanupCommittedPending used pending
  end /\ forall parents', poolKey parents' <> poolKey parents ->
    getPoolState st' parents' = getPoolState st parents'.
Proof.
  unfold Allocate. intros -> Ha. cbn zeta.
  pose proof (allocate_locked_spec used (getPoolState st parents) preferred) as Hs.
  destruct (allocate_locked used (getPoolState st parents) preferred) as [r' pending'].
  injection Ha as <- <-. split.
  - assert (Hg : getPoolState (<[poolKey parents := pending']> st) parents = pending')
      by (unfold getPoolState; by rewrite lookup_insert_eq).
    rewrite Hg. destruct r' as [v|e].
    + destruct Hs as (H1 & H2 & H3 & -> & H5). split; [done|]. split; [|split; [|done]].
      * intros Hfree. destruct H5 as [->|[H5 _]]; [done|]. by destruct H5.
      * intros Hn w (Hw1 & Hw2 & Hw3). destruct H5 as [->|[_ H6]]; [by destruct Hn|].
        destruct (decide (v <= w)); [done|]. destruct (H6 w); [lia|done|done].
    + destruct Hs as (-> & -> & H3). split; [done|]. split; [|done]. intros w (Hw & ? & ?).
      destruct (H3 w); done.
  - intros parents' Hne. unfold getPoolState. by rewrite lookup_insert_ne.
Qed.

(** C2. Whatever the interleaving of the reconciles that share a pool
    (allocating, validating a manual VLAN, reusing their own, failing) and of
    the removals of bindings, two different CRs come to have the same VLAN, in
    their stored bindings or about to be written, only if that VLAN is one on
    which some reconcile was misled by the used VLANs it had read before it
    took the lock, or whose bindings were removed while their own CR was being
    reconciled. When the reads are right, no VLAN is given twice. The VLANs of
    the CRs are distinct at the start. *)
Theorem pool_no_duplicates store s :
  (forall p q v, store !! p = Some v -> store !! q = Some v -> p = q) ->
  rtc pool_step (pool_init store) s ->
  forall p q v, has_vlan s p v -> has_vlan s q v -> p = q \/ v ∈ ps_stale s.
Proof.
  intros Hd Hrtc p q v Hp Hq.
  assert (Hgen : forall s0, rtc pool_step s0 s -> pool_inv s0 -> pool_inv s).
  { clear. induction 1; eauto using pool_inv_step. }
  destruct (decide (v ∈ ps_stale s)); [by right|left].
  eapply (pi_one s); [|done..]. by eapply Hgen, pool_inv_init.
Qed.
Lemma pool_no_duplicates_witness :
  let s := mkPoolSys {["a" := 1]} {[2; 7]} {["b" := RHold 2; "c" := RHold 7]} ∅ in
  rtc pool_step (pool_init {["a" := 1]}) s /\
  forall p q v, has_vlan s p v -> has_vlan s q v -> p = q \/ v ∈ ps_stale s.
Proof.
  assert (Hr : rtc pool_step (pool_init {["a" := 1]})
    (mkPoolSys {["a" := 1]} {[2; 7]} {["b" := RHold 2; "c" := RHold 7]} ∅)).
  { eapply rtc_l; [apply (step_collect_cache _ _ _ _ "b"); reflexivity|].
    eapply rtc_l; [apply (step_collect_cache _ _ _ _ "c"); reflexivity|].
    eapply rtc_l; [apply (step_allocate _ _ _ _ "b" {[1]} 0 2 {[2]}); vm_compute; reflexivity|].
    eapply rtc_l; [apply (step_validate _ _ _ _ "c" {[1]} 7 {[2; 7]}); vm_compute; reflexivity|].
    vm_compute. apply rtc_refl. }
  split; [exact Hr|]. refine (pool_no_duplicates {["a" := 1]} _ _ Hr).
  intros p q v [<- _]%lookup_singleton_Some [<- _]%lookup_singleton_Some. reflexivity.
Defined.

Lemma Allocate_spec_witness :
  let c : VlanCollector unit := {|
    CollectUsedVlansOnParentSubnetsFromCache := fun _ _ _ => Ok {[1; 2]};
    CollectUsedVlansOnParentSubnetsFromNSX := fun _ _ _ => Err (EText "no client") |} in
  exists r st', Allocate (H := c) tt ∅ ["/subnets/a"] "uid" 2 false = (r, st') /\ r = Ok 3 /\
  forall parents', poolKey parents' <> poolKey ["/subnets/a"] ->
    getPoolState st' parents' = getPoolState ∅ parents'.
Proof.
  intros c. eexists _, _. split; [vm_compute; reflexivity|]. split; [reflexivity|].
  eapply (Allocate_spec (H := c) tt ∅ ["/subnets/a"] "uid" 2 false {[1; 2]});
    [reflexivity|vm_compute; reflexivity].
Defined.

(** Reads do mislead: one reconcile reads the used VLANs, another allocates,
    writes and commits, and the first then allocates from what it read. *)
Lemma pool_duplicate_race :
  exists s, rtc pool_step (pool_init ∅) s /\ has_vlan s "a" 1 /\ has_vlan s "b" 1 /\
    ps_store s !! "b" = Some 1 /\ 1 ∈ ps_stale s.
Proof.
  eexists. split.
  { eapply rtc_l; [apply (step_collect_cache _ _ _ _ "a"); reflexivity|].
    eapply rtc_l; [apply (step_collect_cache _ _ _ _ "b"); reflexivity|].
    eapply rtc_l; [apply (step_allocate _ _ _ _ "b" ∅ 0 1 {[1]}); vm_compute; reflexivity|].
    eapply rtc_l; [apply (step_realize _ _ _ _ "b" 1); reflexivity|].
    eapply rtc_l; [apply (step_commit _ _ _ _ "b" 1); reflexivity|].
    eapply rtc_l; [apply (step_allocate _ _ _ _ "a" ∅ 0 1 {[1]}); vm_compute; reflexivity|].
    apply rtc_refl. }
  split; [by right|]. split; [by left|]. split; [reflexivity|].
  apply elem_of_union_r. vm_compute. reflexivity.
Qed.
(** A reservation can also be dropped: [b] reads the VLAN of [a]'s bindings,
    they are removed, [c] reserves that VLAN; [b] takes it for committed and
    drops the reservation, and [d] gets it as well. *)
Lemma pool_dropped_reservation :
  exists s, rtc pool_step (pool_init {["a" := 1]}) s /\ has_vlan s "c" 1 /\ has_vlan s "d" 1.
Proof.
  eexists. split.
  { eapply rtc_l; [apply (step_collect_cache _ _ _ _ "b"); reflexivity|].
    eapply rtc_l; [apply (step_remove _ _ _ _ "a" 1); reflexivity|].
    eapply rtc_l; [apply (step_collect_cache _ _ _ _ "c"); reflexivity|].
    eapply rtc_l; [apply (step_collect_cache _ _ _ _ "d"); reflexivity|].
    eapply rtc_l; [apply (step_allocate _ _ _ _ "c" ∅ 0 1 {[1]}); vm_compute; reflexivity|].
    eapply rtc_l; [apply (step_allocate _ _ _ _ "b" {[1]} 0 2 {[2]}); vm_compute; reflexivity|].
    eapply rtc_l; [apply (step_allocate _ _ _ _ "d" ∅ 0 1 {[1; 2]}); vm_compute; reflexivity|].
    apply rtc_refl. }
  split; by right.
Qed.

(** The pool of a set of parent Subnets does not depend on the order in
    which they are listed. *)
Lemma poolKey_permutation ps qs : ps ≡ₚ qs -> poolKey ps = poolKey qs.
Proof. intros Hp. unfold poolKey. by rewrite Hp. Qed.

(** Two sets of parents that share a Subnet have separate pools: reconciles in
    flight on both can reserve the same VLAN for it. *)
Lemma pools_overlap :
  let c : VlanCollector unit := {|
    CollectUsedVlansOnParentSubnetsFromCache := fun _ _ _ => Ok ∅;
    CollectUsedVlansOnParentSubnetsFromNSX := fun _ _ _ => Ok ∅ |} in
  let '(r1, st) := Allocate (H := c) tt ∅ ["/subnets/a"; "/subnets/b"] "u1" 0 false in
  let '(r2, _) := Allocate (H := c) tt st ["/subnets/a"] "u2" 0 false in
  r1 = Ok 1 /\ r2 = Ok 1.
Proof. vm_compute. split; reflexivity. Qed.
