(* ===== verification/Interfaces.v ===== *)
(** * Interfaces of the libraries the services are written against

    The operator's stores are client-go indexers and its waits are client-go
    retries. Neither is part of the repository: they are type classes here,
    with their documented behaviour as laws, and concrete instances for use in
    examples. *)
From S2P Require Import Prelude GoStrings Errors.

(** ** [cache.Indexer] over objects [A] with key function [key] *)
Class Indexer (I A : Type) (key : A -> string) := {
  ix_empty : I;
  ix_Add : A -> I -> I;
  ix_Delete : A -> I -> I;
  ix_List : I -> list A;
  ix_GetByKey : string -> I -> option A;
  ix_get_key : forall i k a, ix_GetByKey k i = Some a -> key a = k;
  ix_get_empty : forall k, ix_GetByKey k ix_empty = None;
  ix_get_add : forall a i k,
    ix_GetByKey k (ix_Add a i) = if decide (k = key a) then Some a else ix_GetByKey k i;
  ix_get_delete : forall a i k,
    ix_GetByKey k (ix_Delete a i) = if decide (k = key a) then None else ix_GetByKey k i;
  ix_list_get : forall a i, a ∈ ix_List i <-> ix_GetByKey (key a) i = Some a;
  ix_list_nodup : forall i, NoDup (ix_List i) }.

Section Indexer.
Context {I A : Type} {key : A -> string} `{!Indexer I A key}.

(** [GetByIndex(name, value)] for an index function: the objects it files
    under [value]. *)
Definition ix_GetByIndex (indexFunc : A -> list string) (value : string) (i : I) : list A :=
  filter (fun a => value ∈ indexFunc a) (ix_List i).

Lemma elem_of_GetByIndex f v i a :
  a ∈ ix_GetByIndex f v i <-> v ∈ f a /\ ix_GetByKey (key a) i = Some a.
Proof. unfold ix_GetByIndex. by rewrite list_elem_of_filter, ix_list_get. Qed.
Lemma NoDup_GetByIndex f v i : NoDup (ix_GetByIndex f v i).
Proof. apply NoDup_filter, ix_list_nodup. Qed.
Lemma elem_of_List_add a b i :
  b ∈ ix_List (ix_Add a i) <-> b = a \/ (key b <> key a /\ b ∈ ix_List i).
Proof.
  rewrite !ix_list_get, ix_get_add. case_decide as Hk; [|naive_solver].
  split; [naive_solver|]. intros [->|[? _]]; naive_solver.
Qed.
Lemma elem_of_List_delete a b i :
  b ∈ ix_List (ix_Delete a i) <-> key b <> key a /\ b ∈ ix_List i.
Proof. rewrite !ix_list_get, ix_get_delete. case_decide; naive_solver. Qed.
End Indexer.
#[export] Hint Rewrite @elem_of_GetByIndex @elem_of_List_add @elem_of_List_delete : nsx_rw.

(** The instance that keeps the objects in a map. *)
Definition map_store (A : Type) (key : A -> string) : Type :=
  { m : gmap string A | map_Forall (fun k a => k = key a) m }.
#[global] Program Instance map_indexer {A} (key : A -> string) : Indexer (map_store A key) A key := {
  ix_empty := ∅ ↾ map_Forall_empty _;
  ix_Add a i := <[key a := a]> (`i) ↾ _;
  ix_Delete a i := delete (key a) (`i) ↾ _;
  ix_List i := (map_to_list (`i)).*2;
  ix_GetByKey k i := `i !! k }.
Next Obligation. intros A key a [m Hm]. by apply map_Forall_insert_2. Qed.
Next Obligation. intros A key a [m Hm]. by apply map_Forall_delete. Qed.
Next Obligation. intros A key [m Hm] k a Ha. simpl in Ha. by rewrite (Hm k a Ha). Qed.
Next Obligation. intros A key k. apply lookup_empty. Qed.
Next Obligation.
  intros A key a [m Hm] k. simpl. case_decide as Hk; [subst; apply lookup_insert_eq|].
  by apply lookup_insert_ne.
Qed.
Next Obligation.
  intros A key a [m Hm] k. simpl. case_decide as Hk; [subst; apply lookup_delete_eq|].
  by apply lookup_delete_ne.
Qed.
Next Obligation.
  intros A key a [m Hm]. simpl. rewrite list_elem_of_fmap. split.
  - intros ([k b] & -> & Hin%elem_of_map_to_list). simpl. by rewrite <- (Hm k b Hin).
  - intros Ha. exists (key a, a). split; [done|]. by apply elem_of_map_to_list.
Qed.
Next Obligation.
  intros A key [m Hm]. simpl. apply NoDup_fmap_2_strong; [|apply NoDup_map_to_list].
  intros [k1 a1] [k2 a2] H1%elem_of_map_to_list H2%elem_of_map_to_list. simpl. intros <-.
  by rewrite (Hm k1 a1 H1), (Hm k2 a1 H2).
Qed.

(** ** [retry.OnError] *)

(** At most [n] runs of [fn]: it stops at the first run that succeeds or fails
    with an error that is not retriable, and the error is that of the last run. *)
Fixpoint attempts {S E} (n : nat) (retriable : E -> bool) (fn : S -> option E * S) (s : S)
  : option E * S :=
  match fn s with
  | (None, s') => (None, s')
  | (Some e, s') =>
      match n with
      | O | 1%nat => (Some e, s')
      | Datatypes.S n' => if retriable e then attempts n' retriable fn s' else (Some e, s')
      end
  end.

(** The back-off decides how many runs there are, at least one. *)
Class RetryDriver := {
  OnError : forall {S : Type}, (goerr -> bool) -> (S -> option goerr * S) -> S -> option goerr * S;
  OnError_attempts : forall (S : Type) retriable (fn : S -> option goerr * S) s,
    exists n, OnError retriable fn s = attempts (Datatypes.S n) retriable fn s }.
#[global] Program Instance ten_attempts : RetryDriver | 10 := {
  OnError S retriable fn s := attempts 10 retriable fn s }.
Next Obligation. intros S r fn s. by exists 9%nat. Qed.

(** Rule of invariants for the retried function. *)
Lemma attempts_inv {S E} (P : S -> Prop) n retriable (fn : S -> option E * S) s r s' :
  (forall s r s', P s -> fn s = (r, s') -> P s') ->
  P s -> attempts n retriable fn s = (r, s') -> P s'.
Proof.
  intros Hstep. revert s; induction n as [|n IH]; intros s HP; simpl;
    destruct (fn s) as [[e|] s1] eqn:Ef; intros Hr; simplify_eq; eauto.
  destruct n as [|n]; [simplify_eq; eauto|]. destruct (retriable e); simplify_eq; eauto.
Qed.
(** A success is the success of some run. *)
Lemma attempts_success {S E} n retriable (fn : S -> option E * S) s s' :
  attempts n retriable fn s = (None, s') -> exists s0, fn s0 = (None, s').
Proof.
  revert s; induction n as [|n IH]; intros s; simpl;
    destruct (fn s) as [[e|] s1] eqn:Ef; intros Hr; simplify_eq; eauto.
  destruct n as [|n]; [done|]. destruct (retriable e); simplify_eq; eauto.
Qed.
