(* ===== verification/GoMonad.v ===== *)
(** * Calls that change a state, may fail with an error, and may panic

    The small monad in which the services are written: explicit state, the
    error of Go as a value, and [None] for a panic. *)
From S2P Require Import Prelude GoStrings Errors.

(** A call on a state [St]; [None] is a panic, or a search that is out of fuel. *)
Definition ST (St A : Type) : Type := St -> option (result goerr A * St).
Definition mret {St A} (a : A) : ST St A := fun n => Some (Ok a, n).
Definition mfail {St A} (e : goerr) : ST St A := fun n => Some (Err e, n).
Definition bindM {St A B} (m : ST St A) (k : A -> ST St B) : ST St B :=
  fun n => match m n with Some (Ok a, n') => k a n' | Some (Err e, n') => Some (Err e, n') | None => None end.
(** A call that may only panic, and one that may only fail. *)
Definition mtotal {St A} (o : option A) : ST St A := fun n => match o with Some a => Some (Ok a, n) | None => None end.
Definition mresult {St A} (r : result goerr A) : ST St A := fun n => Some (r, n).
Notation "'let!' x ':=' m 'in' k" := (bindM m (fun x => k))
  (at level 200, x pattern, m at level 100, k at level 200, right associativity) : nsx_scope.
Fixpoint mloop {St A S} (f : S -> A -> ST St S) (s : S) (l : list A) : ST St S :=
  match l with [] => mret s | a :: l' => let! s' := f s a in mloop f s' l' end.
(** The state, and an error that is logged and not returned. *)
Definition mget {St} : ST St St := fun s => Some (Ok s, s).
Definition mput {St} (s : St) : ST St unit := fun _ => Some (Ok tt, s).
Definition mcatch {St A} (m : ST St A) : ST St (result goerr A) := fun s =>
  match m s with Some (r, s') => Some (Ok r, s') | None => None end.

(** ** Facts *)
Lemma bindM_Some {St A B} (m : ST St A) (k : A -> ST St B) s r s2 :
  bindM m k s = Some (r, s2) ->
  (exists a s1, m s = Some (Ok a, s1) /\ k a s1 = Some (r, s2)) \/ (exists e, m s = Some (Err e, s2) /\ r = Err e).
Proof. unfold bindM. destruct (m s) as [[[a|e] s1]|]; [eauto| |done]. intros [= <- <-]. eauto. Qed.
Lemma bindM_Ok {St A B} (m : ST St A) (k : A -> ST St B) s b s2 :
  bindM m k s = Some (Ok b, s2) -> exists a s1, m s = Some (Ok a, s1) /\ k a s1 = Some (Ok b, s2).
Proof. intros [H|(e & _ & H)]%bindM_Some; [done|discriminate]. Qed.
Lemma mcatch_Some {St A} (m : ST St A) s r s1 :
  mcatch m s = Some (r, s1) -> exists r', r = Ok r' /\ m s = Some (r', s1).
Proof. unfold mcatch. destruct (m s) as [[r' s']|]; [|done]. intros [= <- <-]. eauto. Qed.
