(* ===== verification/Compare.v ===== *)
(** * pkg/nsx/services/common/compare.go: which resources changed, which are stale *)
From S2P Require Import Prelude GoStrings.

(** [Comparable]: the key of a resource and its value as the JSON text the
    SDK's encoder gives for it. *)
Class Comparable (A : Type) := { Key : A -> string; Value : A -> string }.

Section Compare.
Context {A : Type} `{Comparable A}.

Definition CompareResource (existing expected : A) : bool :=
  negb (bool_decide (Value existing = Value expected)).

(** The two maps of the code; ranged over in the order of [map_to_list]. *)
Definition by_key (l : list A) : gmap string A := map_of_writes (map (fun a => (Key a, a)) l).

Definition CompareResources (existing expected : list A) : list A * list A :=
  let expectedMap := by_key expected in
  let existingMap := by_key existing in
  let changed := omap (fun kv =>
    match existingMap !! kv.1 with
    | Some existed_item => if CompareResource existed_item kv.2 then Some kv.2 else None
    | None => Some kv.2
    end) (map_to_list expectedMap) in
  let stale := omap (fun kv =>
    match expectedMap !! kv.1 with Some _ => None | None => Some kv.2 end)
    (map_to_list existingMap) in
  (changed, stale).

Lemma elem_of_by_key_range l k a :
  NoDup (map Key l) -> by_key l !! k = Some a <-> a ∈ l /\ Key a = k.
Proof.
  intros Hnd. unfold by_key. split.
  - intros Hk%map_of_writes_elem. apply list_elem_of_fmap in Hk as (b & [= -> ->] & Hb). done.
  - intros [Ha <-]. apply map_of_writes_NoDup.
    + rewrite <- list_fmap_compose. exact Hnd.
    + by apply (list_elem_of_fmap_2 (fun a => (Key a, a))).
Qed.
Lemma by_key_none l k : NoDup (map Key l) -> by_key l !! k = None <-> k ∉ map Key l.
Proof.
  intros Hnd. rewrite eq_None_not_Some. split.
  - intros Hn Hk. apply Hn. apply list_elem_of_fmap in Hk as (a & -> & Ha).
    exists a. by apply elem_of_by_key_range.
  - intros Hn [a Ha]. apply elem_of_by_key_range in Ha as [Ha <-]; [|done].
    apply Hn. by apply (list_elem_of_fmap_2 Key).
Qed.
End Compare.

(** The members of the two lists. *)
Lemma compare_elem {A} `{Comparable A} (existing expected : list A) a :
  NoDup (map Key existing) -> NoDup (map Key expected) ->
  (a ∈ (CompareResources existing expected).1 <->
     a ∈ expected /\ forall b, b ∈ existing -> Key b = Key a -> Value b <> Value a) /\
  (a ∈ (CompareResources existing expected).2 <->
     a ∈ existing /\ Key a ∉ map Key expected).
Proof.
  intros H1 H2. unfold CompareResources, CompareResource. simpl.
  rewrite !list_elem_of_omap. split; split.
  - intros ([k b] & Hk%elem_of_map_to_list & Hb). simpl in Hb.
    apply elem_of_by_key_range in Hk as [Hin <-]; [|done].
    destruct (by_key existing !! Key b) as [c|] eqn:Ec.
    + apply elem_of_by_key_range in Ec as [Hc Hkc]; [|done].
      case_bool_decide as Hv; simpl in Hb; simplify_eq. split; [done|].
      intros d Hd Hkd. assert (d = c) as ->; [|done].
      assert (by_key existing !! Key a = Some d) by (by apply elem_of_by_key_range).
      assert (by_key existing !! Key a = Some c) by (by apply elem_of_by_key_range). congruence.
    + simplify_eq. split; [done|]. intros d Hd Hkd. apply by_key_none in Ec; [|done].
      destruct Ec. rewrite <- Hkd. by apply (list_elem_of_fmap_2 Key).
  - intros [Ha Hno]. exists (Key a, a). split.
    { apply elem_of_map_to_list. by apply elem_of_by_key_range. }
    simpl. destruct (by_key existing !! Key a) as [c|] eqn:Ec; [|done].
    apply elem_of_by_key_range in Ec as [Hc Hkc]; [|done].
    rewrite bool_decide_eq_false_2; [done|]. by apply Hno.
  - intros ([k b] & Hk%elem_of_map_to_list & Hb). simpl in Hb.
    apply elem_of_by_key_range in Hk as [Hin <-]; [|done].
    destruct (by_key expected !! Key b) as [c|] eqn:Ec; simplify_eq.
    split; [done|]. by apply by_key_none in Ec.
  - intros [Ha Hno]. exists (Key a, a). split.
    { apply elem_of_map_to_list. by apply elem_of_by_key_range. }
    simpl. apply by_key_none in Hno; [|done]. by rewrite Hno.
Qed.

(** ** Properties *)

(** For lists with distinct keys, the changed resources are the expected
    ones that no existing resource has the key and value of, and the stale ones
    are the existing resources whose key is not expected. *)
Theorem CompareResources_spec {A} `{Comparable A} (existing expected : list A) a :
  NoDup (map Key existing) -> NoDup (map Key expected) ->
  (a ∈ (CompareResources existing expected).1 <->
     a ∈ expected /\ forall b, b ∈ existing -> Key b = Key a -> Value b <> Value a) /\
  (a ∈ (CompareResources existing expected).2 <->
     a ∈ existing /\ Key a ∉ map Key expected).
Proof. apply compare_elem. Qed.
Lemma CompareResources_spec_witness :
  let c : Comparable (string * string) := {| Key := fst; Value := snd |} in
  let existing := [("a", "1"); ("b", "2"); ("c", "3")] in
  let expected := [("a", "1"); ("b", "5"); ("d", "4")] in
  (("b", "5") ∈ (CompareResources existing expected).1 <->
     ("b", "5") ∈ expected /\
     forall b, b ∈ existing -> Key b = Key ("b", "5") -> Value b <> Value ("b", "5")) /\
  (("b", "5") ∈ (CompareResources existing expected).2 <->
     ("b", "5") ∈ existing /\ Key ("b", "5") ∉ map Key expected).
Proof.
  intros c existing expected. apply CompareResources_spec;
    apply (bool_decide_unpack _); vm_compute; exact I.
Defined.
