(* ===== verification/SubnetBinding.v ===== *)
(** * pkg/nsx/services/subnetbinding: SubnetConnectionBindingMaps

    The binding store, VLAN reconciliation and the creation of the NSX bindings
    of a CR (subnetbinding.go, vlan_allocation.go, store.go, builder.go). *)
From S2P Require Import Prelude GoStrings Errors NsxUtil Names Interfaces Compare VlanPool.

(** ** The NSX resource and the CR *)
Record BindingMap := mkBindingMap {
  bm_Id : string;
  bm_DisplayName : string;
  bm_VlanTrafficTag : option Z;
  bm_SubnetPath : option string;
  bm_ParentPath : option string;
  bm_SubnetAssociation : option string;
  bm_Tags : list Tag;
  bm_MarkedForDelete : bool }.
#[global] Instance BindingMap_eq_dec : EqDecision BindingMap.
Proof. solve_decision. Defined.

Record BindingCR := mkBindingCR {
  cr_Name : string; cr_Namespace : string; cr_UID : string;
  cr_SubnetAssociation : string;
  cr_SpecVlan : option Z;        (* Spec.VLANTrafficTag *)
  cr_StatusVlan : option Z }.    (* Status.VLANTrafficTag *)
Definition IsBranchAssociation (cr : BindingCR) : bool := bool_decide (cr_SubnetAssociation cr = "Branch").
Definition HasVlanTrafficTag (cr : BindingCR) : bool := bool_decide (is_Some (cr_SpecVlan cr)).

(** [Value] of compare.go keeps these fields; [encode] is the JSON encoder. *)
Definition bm_value (bm : BindingMap) :=
  (bm_Id bm, bm_DisplayName bm, bm_Tags bm, bm_SubnetPath bm, bm_SubnetAssociation bm,
   bm_VlanTrafficTag bm).

Definition TagNamespace := "nsx-op/namespace".
Definition TagCRName := "nsx-op/subnetbinding_name".
Definition TagCRUID := "nsx-op/subnetbinding_uid".

(** ** Index functions (store.go) *)
Definition bindingMapCRUID (bm : BindingMap) : string :=
  default "" (head (omap (fun t =>
    if bool_decide (tag_Scope t = Some TagCRUID) then tag_Tag t else None) (bm_Tags bm))).

(** The tags of stored bindings have both fields; a missing one would panic. *)
Definition scope (t : Tag) : string := default "" (tag_Scope t).
Definition tag_value (t : Tag) : string := default "" (tag_Tag t).
Definition bindingMapCRUIDIndexFunc (bm : BindingMap) : list string :=
  match List.find (fun t => bool_decide (scope t = TagCRUID)) (bm_Tags bm) with
  | Some t => [tag_value t]
  | None => []
  end.
(** [for _, tag := range tags { switch .. { case scope: v = *tag.Tag } }] *)
Definition last_tag (sc : string) (tags : list Tag) : string :=
  foldl (fun v t => if bool_decide (scope t = sc) then tag_value t else v) "" tags.
Definition bindingMapCRNameIndexFunc (bm : BindingMap) : list string :=
  let crName := last_tag TagCRName (bm_Tags bm) in
  let crNamespace := last_tag TagNamespace (bm_Tags bm) in
  if bool_decide (crName <> "") && bool_decide (crNamespace <> "")
  then [crNamespace +:+ "/" +:+ crName] else [].
Definition is_branch (bm : BindingMap) : bool := bool_decide (bm_SubnetAssociation bm = Some "BRANCH").
Definition childSubnetIndexFunc (bm : BindingMap) : list string :=
  option_list (if is_branch bm then bm_SubnetPath bm else bm_ParentPath bm).
Definition parentSubnetIndexFunc (bm : BindingMap) : list string :=
  option_list (if is_branch bm then bm_ParentPath bm else bm_SubnetPath bm).

(** [buildSubnetConnectionBindingMapCR]: namespace, name and UID. *)
Definition buildSubnetConnectionBindingMapCR (bm : BindingMap) : option (string * string * string) :=
  let ns := last_tag TagNamespace (bm_Tags bm) in
  let name := last_tag TagCRName (bm_Tags bm) in
  let uid := last_tag TagCRUID (bm_Tags bm) in
  if bool_decide (name = "") || bool_decide (ns = "") || bool_decide (uid = "") then None
  else Some (ns, name, uid).

(** [bindingMapsToMap]: [None] is the panic on a nil binding or Subnet path. *)
Definition bindingMapsToMap (bms : list (option BindingMap)) : option (gmap string BindingMap) :=
  foldl (fun acc bm => m ← acc; b ← bm; p ← bm_SubnetPath b; Some (<[p := b]> m)) (Some ∅) bms.

(** ** NSX as the service sees it *)
Class BindingNSX (N : Type) := {
  (* [BuildOrgRoot] and [OrgRootClient.Patch] of the bindings under the path *)
  nsx_Patch : string -> list BindingMap -> N -> option goerr * N;
  (* the List calls of one walk over the pages of the bindings under a Subnet,
     from a cursor: the bindings of the pages, the last cursor a page gave, and
     the error that ended the walk early *)
  nsx_Walk : string -> option string -> N -> (list BindingMap * option string * option goerr) * N;
  (* the bindings whose parent is the Subnet, by a search query *)
  nsx_Search : string -> N -> result goerr (list BindingMap) }.

Section Service.
Context {I N : Type} `{!Indexer I BindingMap bm_Id} `{!BindingNSX N} `{!RetryDriver}.
Context (cluster : string) (restoreMode : bool).
(** The JSON text of a binding's compared fields. *)
Context `{!Comparable BindingMap}.
(** The random UUIDs for identifiers, and how often they are tried. *)
Context (uuids : nat -> string) (id_fuel : nat).

Record state := mkState { BindingStore : I; VlanPoolService : poolStates; NSX : N }.

(** *** Store *)
Definition store_Apply (bm : BindingMap) (st : I) : I :=
  if bm_MarkedForDelete bm then ix_Delete bm st else ix_Add bm st.
Definition GetBindingsByParentSubnet (st : I) (p : string) := ix_GetByIndex parentSubnetIndexFunc p st.
Definition GetBindingsByChildSubnet (st : I) (p : string) := ix_GetByIndex childSubnetIndexFunc p st.
Definition GetBindingsByBindingMapCRUID (st : I) (uid : string) :=
  ix_GetByIndex bindingMapCRUIDIndexFunc uid st.
Definition getBindingsByBindingMapCRName (st : I) (name ns : string) :=
  ix_GetByIndex bindingMapCRNameIndexFunc (ns +:+ "/" +:+ name) st.
Definition DeleteMultipleObjects (bms : list BindingMap) (st : I) : I :=
  foldl (fun st bm => ix_Delete bm st) st bms.
Definition GetSubnetConnectionBindingMapsBySubnet (st : I) (path : string) : list BindingMap :=
  match GetBindingsByChildSubnet st path with
  | [] => GetBindingsByParentSubnet st path
  | bms => bms
  end.
Definition ListSubnetConnectionBindingMapCRUIDsInStore (st : I) : gset string :=
  list_to_set (omap (fun bm => snd <$> buildSubnetConnectionBindingMapCR bm) (ix_List st)).

(** *** VLAN collection *)
Definition used_vlans (excludeCRUID : string) (bms : list BindingMap) : gset Z :=
  list_to_set (omap (fun bm =>
    if bool_decide (excludeCRUID <> "") && bool_decide (bindingMapCRUID bm = excludeCRUID)
    then None else bm_VlanTrafficTag bm) bms).
Definition CollectFromCache (s : state) (parents : list string) (excludeCRUID : string)
  : result goerr (gset Z) :=
  Ok (foldl (fun used p => used ∪ used_vlans excludeCRUID (GetBindingsByParentSubnet (BindingStore s) p))
        ∅ parents).
Definition CollectFromNSX (s : state) (parents : list string) (excludeCRUID : string)
  : result goerr (gset Z) :=
  range_result (fun used p =>
    match nsx_Search p (NSX s) with
    | Err e => Err e
    | Ok bms => Ok (used ∪ used_vlans excludeCRUID bms)
    end) ∅ parents.
(** The service is the collector of its own pool. *)
#[export] Instance binding_collector : VlanCollector state := {
  CollectUsedVlansOnParentSubnetsFromCache := CollectFromCache;
  CollectUsedVlansOnParentSubnetsFromNSX := CollectFromNSX }.

Definition set_pool (s : state) (p : poolStates) : state := mkState (BindingStore s) p (NSX s).

Definition ReconcileVlanTrafficTag (s : state) (cr : BindingCR) (preferred : Z)
    (parents : list string) (fromNSX : bool) : result goerr Z * state :=
  let manual vlan :=
    let '(e, p) := ValidateManualVlan s (VlanPoolService s) parents vlan (cr_UID cr) fromNSX in
    (match e with Some e => Err e | None => Ok vlan end, set_pool s p) in
  let allocate :=
    let '(r, p) := Allocate s (VlanPoolService s) parents (cr_UID cr) preferred fromNSX in
    (r, set_pool s p) in
  match cr_SpecVlan cr with
  | Some vlan => manual vlan
  | None =>
      match (if restoreMode then cr_StatusVlan cr else None) with
      | Some vlan => manual vlan
      | None =>
          if fromNSX then allocate
          else match head (GetBindingsByBindingMapCRUID (BindingStore s) (cr_UID cr)) with
               | Some bm => match bm_VlanTrafficTag bm with
                            | Some vlan => (Ok vlan, s)
                            | None => allocate
                            end
               | None => allocate
               end
      end
  end.

(** *** Builder *)
Definition buildSubnetBindingID (st : I) (cr : BindingCR) (parent : string) : option string :=
  BuildUniqueIDWithRandomUUID GenerateIDByObject
    (fun id => bool_decide (is_Some (ix_GetByKey id st))) uuids id_fuel
    (mkObject (cr_Name cr) parent).
(** [None] is a panic; a path that does not parse leaves a nil entry. *)
Definition buildSubnetBindings (st : I) (cr : BindingCR) (vlanID : Z) (targets : list string)
  : option (list (option BindingMap)) :=
  let tags := BuildBasicTags cluster TSubnetConnectionBindingMap (cr_Namespace cr) (cr_Name cr) (cr_UID cr) "" in
  let association :=
    if bool_decide (cr_SubnetAssociation cr = "") then None
    else Some (if IsBranchAssociation cr then "BRANCH" else "TRUNK") in
  mapM (fun path =>
    match ParseVPCResourcePath path with
    | None => Some None
    | Some info =>
        id ← buildSubnetBindingID st cr (info_ID info);
        Some (Some (mkBindingMap id (cr_Name cr) (Some vlanID) (Some path) None association tags false))
    end) targets.

(** *** Applying bindings *)

(** One run of the retried function: list, keep in the store the pending
    bindings NSX shows, and fail while some are missing. The variables the
    closure shares between its runs are the service's state, the bindings seen
    so far, the cursor (which is not reset) and the pending bindings. *)
Record list_vars := mkListVars {
  lv_svc : state;
  lv_seen : gmap string BindingMap;
  lv_cursor : option string;
  lv_pending : list BindingMap }.
Definition see (bms : list BindingMap) (seen : gmap string BindingMap) : gmap string BindingMap :=
  foldl (fun m bm => <[bm_Id bm := bm]> m) seen bms.
Definition list_step (subnetPath : string) (x : list_vars) : option goerr * list_vars :=
  let '(bms, last, e, n) := nsx_Walk subnetPath (lv_cursor x) (NSX (lv_svc x)) in
  let seen := see bms (lv_seen x) in
  let cursor := match last with Some c => Some c | None => lv_cursor x end in
  let s := mkState (BindingStore (lv_svc x)) (VlanPoolService (lv_svc x)) n in
  match e with
  | Some e => (TransNSXApiError (Some e), mkListVars s seen cursor (lv_pending x))
  | None =>
      let found := omap (fun bm => seen !! bm_Id bm) (lv_pending x) in
      let missing := filter (fun bm => seen !! bm_Id bm = None) (lv_pending x) in
      let s := mkState (foldl (fun st bm => store_Apply bm st) (BindingStore s) found)
                 (VlanPoolService s) (NSX s) in
      (match missing with
       | [] => None
       | _ => Some (EText "Subnet connection binding maps not found in NSX")
       end, mkListVars s seen cursor missing)
  end.
Definition list_retriable (e : goerr) : bool :=
  match e with ENSXApi _ _ => false | _ => true end.

Definition Apply (s : state) (subnetPath : string) (bms : list BindingMap)
  : option goerr * state :=
  match ParseVPCResourcePath subnetPath with
  | None => (Some (EText ("invalid path '" +:+ subnetPath +:+ "'")), s)
  | Some _ =>
      let '(e, n) := nsx_Patch subnetPath bms (NSX s) in
      let s := mkState (BindingStore s) (VlanPoolService s) n in
      match e with
      | Some e => (TransNSXApiError (Some e), s)
      | None =>
          let st := foldl (fun st bm => if bm_MarkedForDelete bm then store_Apply bm st else st)
                      (BindingStore s) bms in
          let pending := filter (fun bm => bm_MarkedForDelete bm = false) bms in
          let '(e, x) :=
            OnError list_retriable (list_step subnetPath)
              (mkListVars (mkState st (VlanPoolService s) (NSX s)) ∅ None pending) in
          (e, lv_svc x)
      end
  end.

(** The bindings to send: new or changed ones, and the existing ones that are
    not desired any more, marked for deletion. *)
Definition updated_bindings (desired existing : gmap string BindingMap) : list BindingMap :=
  omap (fun kv =>
    match existing !! kv.1 with
    | None => Some kv.2
    | Some ex =>
        let v := mkBindingMap (bm_Id ex) (bm_DisplayName ex) (bm_VlanTrafficTag kv.2)
                   (bm_SubnetPath kv.2) (bm_ParentPath kv.2) (bm_SubnetAssociation kv.2)
                   (bm_Tags kv.2) (bm_MarkedForDelete kv.2) in
        if CompareResource ex v then Some v else None
    end) (map_to_list desired) ++
  omap (fun kv =>
    match desired !! kv.1 with
    | Some _ => None
    | None =>
        let v := kv.2 in
        Some (mkBindingMap (bm_Id v) (bm_DisplayName v) (bm_VlanTrafficTag v) (bm_SubnetPath v)
                (bm_ParentPath v) (bm_SubnetAssociation v) (bm_Tags v) true)
    end) (map_to_list existing).

Definition createOrUpdateBindingMapInternal (s : state) (cr : BindingCR) (vlanID : Z)
    (subnetPath : string) (targets : list string) : option (option goerr * state) :=
  built ← buildSubnetBindings (BindingStore s) cr vlanID targets;
  desired ← bindingMapsToMap built;
  existing ← bindingMapsToMap (Some <$> GetBindingsByBindingMapCRUID (BindingStore s) (cr_UID cr));
  Some (Apply s subnetPath (updated_bindings desired existing)).

Definition reconcileVlanAndBindingMap (s : state) (cr : BindingCR) (preferred : Z)
    (subnetPath : string) (targets parents : list string) (fromNSX : bool)
  : option (result goerr Z * state) :=
  let '(r, s) := ReconcileVlanTrafficTag s cr preferred parents fromNSX in
  match r with
  | Err e => Some (Err e, s)
  | Ok vlanID =>
      '(e, s) ← createOrUpdateBindingMapInternal s cr vlanID subnetPath targets;
      match e with
      | None => Some (Ok vlanID, set_pool s (CommitPending (VlanPoolService s) parents vlanID))
      | Some e => Some (Err e, set_pool s (ReleasePending (VlanPoolService s) parents vlanID))
      end
  end.

Definition CreateOrUpdateSubnetConnectionBindingMap (s : state) (cr : BindingCR) (preferred : Z)
    (subnetPath : string) (targets : list string) : option (result goerr Z * state) :=
  let parents := if IsBranchAssociation cr then [subnetPath] else targets in
  '(r, s) ← reconcileVlanAndBindingMap s cr preferred subnetPath targets parents false;
  match r with
  | Ok vlanID => Some (Ok vlanID, s)
  | Err e =>
      if HasVlanTrafficTag cr then Some (Err e, s)
      else
        overlap ← IsVpcOverlapVlanError (Some e);
        if overlap : bool
        then reconcileVlanAndBindingMap s cr preferred subnetPath targets parents true
        else Some (Err e, s)
  end.

(** ** Facts about the pool through a reconcile *)
Definition pending_of (s : state) (parents : list string) : gset Z :=
  getPoolState (VlanPoolService s) parents.

(** [Apply] does not touch the pool. *)
Lemma Apply_pool s path bms e s' :
  Apply s path bms = (e, s') -> VlanPoolService s' = VlanPoolService s.
Proof.
  unfold Apply. destruct (ParseVPCResourcePath path); [|by intros [= _ <-]].
  destruct (nsx_Patch path bms (NSX s)) as [[e1|] n]; [by intros [= _ <-]|].
  destruct (OnError _ _ _) as [e2 x] eqn:Ho. intros [= _ <-].
  edestruct OnError_attempts as [k Hk]. erewrite Hk in Ho.
  eapply (attempts_inv (fun x => VlanPoolService (lv_svc x) = VlanPoolService s)) in Ho; [done| |done].
  intros y r y' Hy. unfold list_step.
  destruct (nsx_Walk _ _ _) as [[[bms' last] [e3|]] n']; by intros [= _ <-].
Qed.
Lemma internal_pool s cr v path targets e s' :
  createOrUpdateBindingMapInternal s cr v path targets = Some (e, s') ->
  VlanPoolService s' = VlanPoolService s.
Proof.
  unfold createOrUpdateBindingMapInternal.
  intros (built & _ & (d & _ & (ex & _ & [= Ha])%bind_Some)%bind_Some)%bind_Some.
  by apply Apply_pool in Ha.
Qed.

(** How a VLAN reconcile changes the pools: only that of its parents, which
    gains at most the VLAN returned. *)
Definition pool_grows (st st' : poolStates) (parents : list string) (extra : gset Z) : Prop :=
  getPoolState st' parents ⊆ getPoolState st parents ∪ extra /\
  forall ps, poolKey ps <> poolKey parents -> getPoolState st' ps = getPoolState st ps.

Lemma pool_grows_refl st parents extra : pool_grows st st parents extra.
Proof. split; [set_solver|done]. Qed.
Lemma pool_grows_insert st parents extra p :
  p ⊆ getPoolState st parents ∪ extra -> pool_grows st (<[poolKey parents := p]> st) parents extra.
Proof.
  intros Hp. split; unfold getPoolState.
  - by rewrite lookup_insert_eq.
  - intros ps Hne. by rewrite lookup_insert_ne.
Qed.
Lemma cleanup_subset used pending : cleanupCommittedPending used pending ⊆ pending.
Proof. intros v. rewrite elem_of_cleanup. naive_solver. Qed.

Definition manual_ok (cr : BindingCR) : Prop := cr_SpecVlan cr <> Some 0 /\ cr_StatusVlan cr <> Some 0.
Lemma ReconcileVlanTrafficTag_pool s cr pref parents fromNSX r s' :
  manual_ok cr ->
  ReconcileVlanTrafficTag s cr pref parents fromNSX = (r, s') ->
  pool_grows (VlanPoolService s) (VlanPoolService s') parents
    match r with Ok v => {[v]} ∖ {[0]} | Err _ => ∅ end.
Proof.
  intros [Hspec Hstatus].
  assert (Hm : forall vlan r s', vlan <> 0 ->
    (let '(e, p) := ValidateManualVlan s (VlanPoolService s) parents vlan (cr_UID cr) fromNSX in
     (match e with Some e => Err e | None => Ok vlan end, set_pool s p)) = (r, s') ->
    pool_grows (VlanPoolService s) (VlanPoolService s') parents match r with Ok v => {[v]} ∖ {[0]} | Err _ => ∅ end).
  { intros vlan r0 s0 Hne. unfold ValidateManualVlan.
    destruct (collectUsed _ _ _ _) as [used|e]; [|intros [= <- <-]; apply pool_grows_refl].
    unfold validate_locked. pose proof (cleanup_subset used (getPoolState (VlanPoolService s) parents)).
    case_bool_decide; intros [= <- <-]; apply pool_grows_insert; set_solver. }
  assert (Ha : forall r s',
    (let '(r, p) := Allocate s (VlanPoolService s) parents (cr_UID cr) pref fromNSX in
     (r, set_pool s p)) = (r, s') ->
    pool_grows (VlanPoolService s) (VlanPoolService s') parents match r with Ok v => {[v]} ∖ {[0]} | Err _ => ∅ end).
  { intros r0 s0. unfold Allocate.
    destruct (collectUsed _ _ _ _) as [used|e]; [|intros [= <- <-]; apply pool_grows_refl].
    pose proof (allocate_locked_spec used (getPoolState (VlanPoolService s) parents) pref) as Hs.
    destruct (allocate_locked _ _ _) as [r1 p]. intros [= <- <-]. apply pool_grows_insert.
    pose proof (cleanup_subset used (getPoolState (VlanPoolService s) parents)).
    destruct r1 as [v|]; [destruct Hs as (Hv & _ & _ & -> & _)|destruct Hs as (_ & -> & _)];
      [|set_solver]. assert (v <> 0) by (unfold poolStart in Hv; lia). set_solver. }
  unfold ReconcileVlanTrafficTag.
  destruct (cr_SpecVlan cr); [apply Hm; congruence|].
  destruct (if restoreMode then _ else _) eqn:Er; [apply Hm; destruct restoreMode; congruence|]. destruct fromNSX; [apply Ha|].
  destruct (head _) as [bm|]; [|apply Ha].
  destruct (bm_VlanTrafficTag bm); [|apply Ha]. intros [= <- <-]. apply pool_grows_refl.
Qed.

Lemma CommitPending_pool st parents v :
  getPoolState (CommitPending st parents v) parents = getPoolState st parents ∖ ({[v]} ∖ {[0]}) /\
  forall ps, poolKey ps <> poolKey parents -> getPoolState (CommitPending st parents v) ps = getPoolState st ps.
Proof.
  unfold CommitPending. case_bool_decide as Hv; [subst; split; [set_solver|done]|].
  unfold getPoolState at 1 3. split; [rewrite lookup_insert_eq; simpl; set_solver|].
  intros ps Hne. unfold getPoolState. by rewrite lookup_insert_ne.
Qed.

Lemma reconcile_pool s cr pref path targets parents fromNSX r s' :
  manual_ok cr ->
  reconcileVlanAndBindingMap s cr pref path targets parents fromNSX = Some (r, s') ->
  forall ps, getPoolState (VlanPoolService s') ps ⊆ getPoolState (VlanPoolService s) ps.
Proof.
  intros Hok. unfold reconcileVlanAndBindingMap.
  destruct (ReconcileVlanTrafficTag _ _ _ _ _) as [[v|e] s1] eqn:Hr; intros Hres ps;
    apply ReconcileVlanTrafficTag_pool in Hr as [Hin Hout]; try done.
  - apply bind_Some in Hres as ([e s2] & Hi & Hres). apply internal_pool in Hi.
    destruct (CommitPending_pool (VlanPoolService s2) parents v) as [H1 H2].
    rewrite Hi in H1, H2. assert (Hpool : VlanPoolService s' = CommitPending (VlanPoolService s1) parents v).
    { rewrite <- Hi. destruct e; by simplify_eq. }
    rewrite Hpool. destruct (decide (poolKey ps = poolKey parents)) as [Hk|Hk].
    + unfold getPoolState in *. rewrite Hk, H1. set_solver.
    + by rewrite H2, Hout.
  - simplify_eq. destruct (decide (poolKey ps = poolKey parents)) as [Hk|Hk].
    + unfold getPoolState in *. rewrite Hk. set_solver.
    + by rewrite Hout.
Qed.

(** ** Facts about the store through [Apply] *)
Definition stored (st : I) (id : string) : Prop := is_Some (ix_GetByKey (key := bm_Id) id st).
Definition live (bm : BindingMap) : Prop := bm_MarkedForDelete bm = false.

Lemma store_live bms st id :
  Forall live bms ->
  stored (foldl (fun st bm => store_Apply bm st) st bms) id <-> stored st id \/ id ∈ map bm_Id bms.
Proof.
  intros Hl. revert st. induction Hl as [|bm bms Hbm Hl IH]; intros st; simpl.
  { split; [auto|by intros [?|?%elem_of_nil]]. }
  rewrite IH. unfold store_Apply. rewrite Hbm. unfold stored. rewrite ix_get_add, elem_of_cons.
  case_decide; [subst|]; naive_solver eauto.
Qed.

(** NSX only lists bindings that are not marked for deletion. *)
Definition walks_live : Prop :=
  forall path c n bms last e n', nsx_Walk path c n = (bms, last, e, n') -> Forall live bms.

Lemma see_spec bms seen :
  map_Forall (fun id bm => bm_Id bm = id /\ live bm) seen -> Forall live bms ->
  map_Forall (fun id bm => bm_Id bm = id /\ live bm) (see bms seen).
Proof.
  intros Hs Hl. revert seen Hs. induction Hl as [|bm bms Hbm Hl IH]; intros seen Hs; [done|].
  simpl. apply IH. by apply map_Forall_insert_2.
Qed.

Definition list_inv (sent : list BindingMap) (x : list_vars) : Prop :=
  map_Forall (fun id bm => bm_Id bm = id /\ live bm) (lv_seen x) /\
  forall bm, bm ∈ sent -> bm ∈ lv_pending x \/ stored (BindingStore (lv_svc x)) (bm_Id bm).

Lemma list_step_inv sent path x e x' :
  walks_live -> list_inv sent x -> list_step path x = (e, x') -> list_inv sent x'.
Proof.
  intros Hw [Hseen Hp]. unfold list_step.
  destruct (nsx_Walk _ _ _) as [[[bms last] [e1|]] n] eqn:Ewalk; intros [= _ <-]; simpl;
    apply Hw in Ewalk; pose proof (see_spec bms (lv_seen x) Hseen Ewalk) as Hseen';
    [by split|]. split; [done|]. simpl.
  set (seen := see bms (lv_seen x)) in *.
  assert (Hfl : Forall live (omap (fun bm => seen !! bm_Id bm) (lv_pending x))).
  { apply Forall_forall. intros bm (b & _ & Hb)%list_elem_of_omap. by apply Hseen' in Hb as [_ ?]. }
  intros bm Hbm. rewrite (store_live _ _ _ Hfl). destruct (Hp bm Hbm) as [Hpend|Hst]; [|auto].
  destruct (seen !! bm_Id bm) as [b|] eqn:Eb.
  - right. right. pose proof (Hseen' _ _ Eb) as [<- _]. apply (list_elem_of_fmap_2 bm_Id).
    apply list_elem_of_omap. eauto.
  - left. by apply list_elem_of_filter.
Qed.
Lemma list_step_done path x x' : list_step path x = (None, x') -> lv_pending x' = [].
Proof.
  unfold list_step. destruct (nsx_Walk _ _ _) as [[[bms last] [e1|]] n]; simpl.
  - destruct (DumpAPIError e1) as [[?|] [?|]]; by intros [= <-].
  - destruct (filter _ _) eqn:Ef; [intros [= <-]; done|done].
Qed.

(** ** What is sent to NSX *)
Definition keep_id (ex v : BindingMap) : BindingMap :=
  mkBindingMap (bm_Id ex) (bm_DisplayName ex) (bm_VlanTrafficTag v) (bm_SubnetPath v)
    (bm_ParentPath v) (bm_SubnetAssociation v) (bm_Tags v) (bm_MarkedForDelete v).
Definition for_delete (v : BindingMap) : BindingMap :=
  mkBindingMap (bm_Id v) (bm_DisplayName v) (bm_VlanTrafficTag v) (bm_SubnetPath v)
    (bm_ParentPath v) (bm_SubnetAssociation v) (bm_Tags v) true.
End Service.

(** ** Properties *)

(** C1. Creating or updating the bindings of a CR never leaks a VLAN
    reservation: on every outcome, after one or two attempts, no pool has a
    pending VLAN that it did not have before. *)
Theorem CreateOrUpdate_no_leak {I N} `{!Indexer I BindingMap bm_Id} `{!BindingNSX N}
    `{!RetryDriver} `{!Comparable BindingMap} cluster restoreMode uuids fuel
    (s : @state I N) cr preferred path targets r s' :
  manual_ok cr ->
  CreateOrUpdateSubnetConnectionBindingMap cluster restoreMode uuids fuel s cr preferred path targets
    = Some (r, s') ->
  forall ps, getPoolState (VlanPoolService s') ps ⊆ getPoolState (VlanPoolService s) ps.
Proof.
  intros Hok. unfold CreateOrUpdateSubnetConnectionBindingMap. cbn zeta.
  intros ([r1 s1] & H1 & H2)%bind_Some ps.
  pose proof (reconcile_pool _ _ _ _ _ _ _ _ _ _ _ _ _ Hok H1) as Hp1.
  destruct r1 as [v|e]; [simplify_eq; apply Hp1|].
  destruct (HasVlanTrafficTag cr); [simplify_eq; apply Hp1|].
  apply bind_Some in H2 as ([|] & _ & H2); [|simplify_eq; apply Hp1].
  pose proof (reconcile_pool _ _ _ _ _ _ _ _ _ _ _ _ _ Hok H2) as Hp2.
  etransitivity; [apply Hp2|apply Hp1].
Qed.

(** When [Apply] succeeds, every binding sent for creation or update is in
    the store under its identifier, whatever retries the listing took. *)
Theorem Apply_success {I N} `{!Indexer I BindingMap bm_Id} `{!BindingNSX N} `{!RetryDriver}
    (s : @state I N) path bms s' :
  walks_live (N := N) -> Apply s path bms = (None, s') ->
  forall bm, bm ∈ bms -> live bm -> stored (BindingStore s') (bm_Id bm).
Proof.
  intros Hw. unfold Apply. destruct (ParseVPCResourcePath path); [|done].
  destruct (nsx_Patch path bms (NSX s)) as [[e1|] n].
  { simpl. destruct (DumpAPIError e1) as [[?|] [?|]]; done. }
  destruct (OnError _ _ _) as [e x] eqn:Ho. intros [= -> <-] bm Hin Hlive.
  edestruct OnError_attempts as [k Hk]. erewrite Hk in Ho.
  pose proof (attempts_success _ _ _ _ _ Ho) as [x0 Hx0%list_step_done].
  apply (attempts_inv (list_inv (filter (fun bm => bm_MarkedForDelete bm = false) bms))) in Ho.
  - destruct Ho as [_ Hst]. destruct (Hst bm) as [Hp|Hs]; [|rewrite Hx0 in Hp; by apply elem_of_nil in Hp|done].
    by apply list_elem_of_filter.
  - intros y r y'. by apply list_step_inv.
  - split; [apply map_Forall_empty|]. intros b Hb. by left.
Qed.

(** The bindings sent for a CR are, per trunk Subnet: the desired ones
    that do not exist yet, as they are; the desired ones that exist with other
    contents, under their existing identifier and name; and the existing ones
    that are no longer desired, marked for deletion. *)
Theorem updated_bindings_spec `{!Comparable BindingMap} (desired existing : gmap string BindingMap) bm :
  bm ∈ updated_bindings desired existing <->
  (exists p, desired !! p = Some bm /\ existing !! p = None) \/
  (exists p v ex, desired !! p = Some v /\ existing !! p = Some ex /\
     bm = keep_id ex v /\ Value ex <> Value bm) \/
  (exists p ex, existing !! p = Some ex /\ desired !! p = None /\ bm = for_delete ex).
Proof.
  unfold updated_bindings, CompareResource. rewrite elem_of_app, !list_elem_of_omap. split.
  - intros [([p v] & Hv%elem_of_map_to_list & Hb)|([p v] & Hv%elem_of_map_to_list & Hb)]; simpl in Hb.
    + destruct (existing !! p) as [ex|] eqn:Eex; [|simplify_eq; left; eauto].
      case_bool_decide as Heq; simpl in Hb; simplify_eq. right. left. exists p, v, ex. done.
    + destruct (desired !! p) eqn:Ed; [done|]. right. right. exists p, v. by simplify_eq.
  - intros [(p & Hd & He)|[(p & v & ex & Hd & He & -> & Hne)|(p & ex & He & Hd & ->)]].
    + left. exists (p, bm). split; [by apply elem_of_map_to_list|]. simpl. by rewrite He.
    + left. exists (p, v). split; [by apply elem_of_map_to_list|]. simpl. rewrite He.
      by rewrite bool_decide_eq_false_2.
    + right. exists (p, ex). split; [by apply elem_of_map_to_list|]. simpl. by rewrite Hd.
Qed.

(** ** A concrete NSX for examples: it realizes what is patched at once *)
Module Demo.
#[export] Instance demo_nsx : BindingNSX (list BindingMap) := {
  nsx_Patch _ bms n := (None, filter live bms ++ n);
  nsx_Walk _ _ n := ((filter live n, None, None), n);
  nsx_Search p n := Ok (filter (fun bm => p ∈ parentSubnetIndexFunc bm) n) }.
#[export] Instance demo_compare : Comparable BindingMap := {
  Key := bm_Id;
  Value bm := join "," [bm_Id bm; bm_DisplayName bm; itoa (default 0 (bm_VlanTrafficTag bm))] }.
Definition store : Type := map_store BindingMap bm_Id.
Definition s0 : @state store (list BindingMap) := mkState ix_empty ∅ [].
Definition cr : BindingCR := mkBindingCR "binding1" "ns1" "uid-1" "" None None.
Definition trunk (s : string) : string := "/orgs/default/projects/p1/vpcs/v1/subnets/" +:+ s.
Definition run := CreateOrUpdateSubnetConnectionBindingMap "cluster1" false (fun _ => "u") 3
                    s0 cr 0 (trunk "branch") [trunk "t1"; trunk "t2"].
Example run_ok : fst <$> run = Some (Ok 1).
Proof. vm_compute. reflexivity. Qed.
Lemma demo_live : walks_live (N := list BindingMap).
Proof. intros path c n bms last e n' [= <- _ _ _]. apply Forall_forall. intros bm. by intros [? _]%list_elem_of_filter. Qed.
End Demo.
Import Demo.

Lemma CreateOrUpdate_no_leak_witness :
  match Demo.run with
  | Some (r, s') => forall ps, getPoolState (VlanPoolService s') ps ⊆ getPoolState ∅ ps
  | None => False
  end.
Proof.
  destruct Demo.run as [[r s']|] eqn:E.
  - unfold Demo.run in E. refine (CreateOrUpdate_no_leak _ _ _ _ _ _ _ _ _ _ _ _ E). by split.
  - pose proof Demo.run_ok as H. rewrite E in H. discriminate H.
Defined.

Lemma Apply_success_witness :
  let bm := mkBindingMap "binding1_abcde" "binding1" (Some 7) (Some (Demo.trunk "t1")) None None [] false in
  match Apply Demo.s0 (Demo.trunk "branch") [bm] with
  | (None, s') => stored (BindingStore s') "binding1_abcde"
  | (Some _, _) => False
  end.
Proof.
  intros bm. destruct (Apply Demo.s0 (Demo.trunk "branch") [bm]) as [[e|] s'] eqn:E.
  - apply (f_equal fst) in E. vm_compute in E. discriminate E.
  - apply (Apply_success Demo.s0 (Demo.trunk "branch") [bm] s' Demo.demo_live E bm);
      [apply list_elem_of_here|reflexivity].
Defined.

(** A target path that does not parse leaves a nil binding, on which
    [bindingMapsToMap] panics. *)
Lemma unparsable_target_panics :
  CreateOrUpdateSubnetConnectionBindingMap "cluster1" false (fun _ => "u") 3
    Demo.s0 Demo.cr 0 (Demo.trunk "branch") ["not-a-path"] = None.
Proof. vm_compute. reflexivity. Qed.
