(* ===== verification/PortAlloc.v ===== *)
(** * pkg/nsx/services/subnetport: reserving addresses of a Subnet for ports

    [AllocatePortFromSubnet], [ReleasePortInSubnet] and the counters they keep
    per Subnet (subnetport.go, store.go). NSX's pool and DHCP statistics, the
    ports already in the store and the clock are inputs of each call. *)
From S2P Require Import Prelude GoStrings GoNet Errors NsxUtil IPUtil.

(** ** Data *)
Record CountInfo := mkCountInfo {
  dirtyDhcpCount : Z; dirtyStaticCount : Z;
  dirtyDhcpCountIPv6 : Z; dirtyStaticCountIPv6 : Z;
  totalDhcpIP : Z; totalStaticIP : Z;
  totalDhcpIPv6 : option Z;              (* a big integer, nil until known *)
  totalStaticIPv6 : Z;
  exhaustedCheckTime : option Z }.       (* None: the zero time *)
(** [&CountInfo{}] *)
Definition newCountInfo : CountInfo := mkCountInfo 0 0 0 0 0 0 None 0 None.

Record PortBinding := mkPortBinding { pb_IpAddress : option string; pb_MacAddress : option string }.
Record VpcSubnetPort := mkPort {
  AllocateAddresses : option string;     (* nil when the attachment is *)
  AddressBindings : list PortBinding }.
Record Subnet := mkSubnet {
  sn_Path : string;
  sn_DhcpMode : option string; sn_Dhcpv6Mode : option string;
  sn_StaticIpAllocation : option bool;
  sn_Ipv4SubnetSize : option Z; sn_IpAddresses : list string }.

(** The statistics NSX returns: a pool's total and requested addresses; the
    size and allocated number of the first DHCP pool (nil entries are [None]);
    for DHCPv6 as decimal strings, [None] when there are no statistics. *)
Record nsx_stats := mkStats {
  ip_pool : string -> result goerr (option Z * option Z);
  dhcp_stats : result goerr (option Z * option Z * option (option string * option string));
  nsx_ipv6 : bool }.

Definition IPReleaseTime : Z := 120.     (* seconds *)
(** [time.Since(info.exhaustedCheckTime) < IPReleaseTime] *)
Definition exhausted_recently (now : Z) (info : CountInfo) : bool :=
  match exhaustedCheckTime info with
  | Some t => bool_decide (now - t < IPReleaseTime)
  | None => false
  end.

(** ** Counting the addresses of existing ports *)
Definition isPortStaticAllocated (p : VpcSubnetPort) : bool :=
  match AllocateAddresses p with
  | Some a => bool_decide (a = "BOTH") || bool_decide (a = "IP_POOL")
  | None => false
  end.
Definition countNSXAddressBindingsByFamily (bs : list PortBinding) : Z * Z :=
  CountAddressBindingsByFamily (map (fun b => default "" (pb_IpAddress b)) bs).
Definition countExistingIPsForPool (ports : list VpcSubnetPort) (useStaticPool useIPv6 : bool) : Z :=
  foldl (fun count p =>
    if negb (bool_decide (isPortStaticAllocated p = useStaticPool)) then count
    else if bool_decide (AddressBindings p = []) then count + 1
    else let '(v4, v6) := countNSXAddressBindingsByFamily (AddressBindings p) in
         count + (if useIPv6 : bool then v6 else v4)) 0 ports.

Definition mergeSubnetPortAddressBinding (existing desired : list PortBinding) : list PortBinding :=
  match existing, desired with
  | _ :: _, [] => existing
  | _, _ =>
      imap (fun i d =>
        match existing !! i with
        | None => d
        | Some e => mkPortBinding (match pb_IpAddress d with None => pb_IpAddress e | a => a end)
                      (match pb_MacAddress d with None => pb_MacAddress e | a => a end)
        end) desired
  end.

Definition allIPAddressesRealized (ips : list string) (expectedCount : Z) : bool :=
  if bool_decide (Z.of_nat (length ips) < expectedCount) then false
  else forallb (fun ip => negb (bool_decide (ip = ""))) ips.

(** ** Updates of single fields *)
Definition set_totalStaticIP (i : CountInfo) (v : Z) : CountInfo :=
  mkCountInfo (dirtyDhcpCount i) (dirtyStaticCount i) (dirtyDhcpCountIPv6 i) (dirtyStaticCountIPv6 i)
    (totalDhcpIP i) v (totalDhcpIPv6 i) (totalStaticIPv6 i) (exhaustedCheckTime i).
Definition set_totalDhcpIP (i : CountInfo) (v : Z) : CountInfo :=
  mkCountInfo (dirtyDhcpCount i) (dirtyStaticCount i) (dirtyDhcpCountIPv6 i) (dirtyStaticCountIPv6 i)
    v (totalStaticIP i) (totalDhcpIPv6 i) (totalStaticIPv6 i) (exhaustedCheckTime i).
Definition set_totalDhcpIPv6 (i : CountInfo) (v : option Z) : CountInfo :=
  mkCountInfo (dirtyDhcpCount i) (dirtyStaticCount i) (dirtyDhcpCountIPv6 i) (dirtyStaticCountIPv6 i)
    (totalDhcpIP i) (totalStaticIP i) v (totalStaticIPv6 i) (exhaustedCheckTime i).
Definition set_totalStaticIPv6 (i : CountInfo) (v : Z) : CountInfo :=
  mkCountInfo (dirtyDhcpCount i) (dirtyStaticCount i) (dirtyDhcpCountIPv6 i) (dirtyStaticCountIPv6 i)
    (totalDhcpIP i) (totalStaticIP i) (totalDhcpIPv6 i) v (exhaustedCheckTime i).
Definition set_exhausted (i : CountInfo) (t : Z) : CountInfo :=
  mkCountInfo (dirtyDhcpCount i) (dirtyStaticCount i) (dirtyDhcpCountIPv6 i) (dirtyStaticCountIPv6 i)
    (totalDhcpIP i) (totalStaticIP i) (totalDhcpIPv6 i) (totalStaticIPv6 i) (Some t).
(** [info.dirty... += n] for the pool of a family. *)
Definition add_dirty (i : CountInfo) (ipv6 static : bool) (n : Z) : CountInfo :=
  let on (b : bool) := if b then n else 0 in
  mkCountInfo (dirtyDhcpCount i + on (negb ipv6 && negb static))
    (dirtyStaticCount i + on (negb ipv6 && static))
    (dirtyDhcpCountIPv6 i + on (ipv6 && negb static))
    (dirtyStaticCountIPv6 i + on (ipv6 && static))
    (totalDhcpIP i) (totalStaticIP i) (totalDhcpIPv6 i) (totalStaticIPv6 i) (exhaustedCheckTime i).
Definition dirty (i : CountInfo) (ipv6 static : bool) : Z :=
  match ipv6, static with
  | false, false => dirtyDhcpCount i | false, true => dirtyStaticCount i
  | true, false => dirtyDhcpCountIPv6 i | true, true => dirtyStaticCountIPv6 i
  end.

(** [new(big.Int).SetString(s, 10)] *)
Definition big_SetString (s : string) : option Z :=
  let '(neg, body) := match s with
                      | String "-" s' => (true, s') | String "+" s' => (false, s') | _ => (false, s) end in
  match body with
  | "" => None
  | _ => n ← digits_val 0 body; Some (if neg : bool then - n else n)
  end.

Section Capacity.
Variable AddressCount : IPNet -> Z.
Variable stats : nsx_stats.
Variable ports : list VpcSubnetPort.
Variable now : Z.

Definition static_enabled (s : Subnet) : bool := default false (sn_StaticIpAllocation s).
Definition relay_total (s : Subnet) : Z :=
  (match sn_IpAddresses s with
   | [] => default 0 (sn_Ipv4SubnetSize s)
   | ips => (CalculateIPFromCIDRs AddressCount ips).1
   end) - 4.

(** The refresh of the totals in [checkIPv4Capacity]: the new info and the
    number of addresses NSX has allocated (for shared Subnets), or an error. *)
Definition refresh_ipv4 (s : Subnet) (shared : bool) (info : CountInfo) (existedEntry : bool)
    (useStatic : bool) : result goerr (CountInfo * Z) :=
  let dhcpMode := default "DHCP_DEACTIVATED" (sn_DhcpMode s) in
  if useStatic then
    if negb existedEntry || bool_decide (totalStaticIP info = 0) || shared then
      '(total, requested) ← ip_pool stats "static-ipv4-default";
      let info := match total with Some t => set_totalStaticIP info t | None => info end in
      Ok (info, if shared then default 0 requested else 0)
    else Ok (info, 0)
  else if decide (dhcpMode = "DHCP_SERVER") then
    '(size, allocated, _) ← dhcp_stats stats;
    let info := match size with Some t => set_totalDhcpIP info t | None => info end in
    Ok (info, if shared then default 0 allocated else 0)
  else if negb existedEntry && bool_decide (dhcpMode = "DHCP_RELAY") then
    Ok (set_totalDhcpIP info (relay_total s), 0)
  else Ok (info, 0).

(** [checkIPv4Capacity]: whether there is room (or the error) and the info. *)
Definition checkIPv4Capacity (s : Subnet) (shared : bool) (info : CountInfo) (existedEntry : bool)
    (useStatic : bool) (ipCount : Z) : result goerr bool * CountInfo :=
  let dhcpMode := default "DHCP_DEACTIVATED" (sn_DhcpMode s) in
  if bool_decide (dhcpMode = "DHCP_DEACTIVATED") && negb (static_enabled s) then (Ok true, info)
  else match refresh_ipv4 s shared info existedEntry useStatic with
  | Err e => (Err e, info)
  | Ok (info, allocated) =>
      if exhausted_recently now info then (Ok false, info)
      else
        let existing := countExistingIPsForPool ports useStatic false in
        let existing := if shared then Z.max existing allocated else existing in
        (Ok (bool_decide (dirty info false useStatic + existing + ipCount <=
                          if useStatic then totalStaticIP info else totalDhcpIP info)), info)
  end.

Definition checkIPv6Capacity (s : Subnet) (shared : bool) (info : CountInfo) (existedEntry : bool)
    (useStatic : bool) (ipCount : Z) : result goerr bool * CountInfo :=
  let dhcpv6Mode := default "DHCP_DEACTIVATED" (sn_Dhcpv6Mode s) in
  if bool_decide (dhcpv6Mode = "DHCP_DEACTIVATED") && negb (static_enabled s) then (Ok true, info)
  else if negb useStatic then
    if negb (nsx_ipv6 stats) then (Ok true, info)
    else match dhcp_stats stats with
    | Err e => (Err e, info)
    | Ok (_, _, None) => (Ok true, info)
    | Ok (_, _, Some (size, allocated)) =>
        let info := match size ≫= big_SetString with
                    | Some n => set_totalDhcpIPv6 info (Some n) | None => info end in
        let allocated := if shared then default 0 (allocated ≫= big_SetString) else 0 in
        if exhausted_recently now info then (Ok false, info)
        else
          let existing := countExistingIPsForPool ports false true in
          let existing := if shared && bool_decide (existing < allocated) then allocated else existing in
          (Ok (bool_decide (dirty info true false + ipCount + existing <=
                            default 0 (totalDhcpIPv6 info))), info)
    end
  else
    match (if negb existedEntry || bool_decide (totalStaticIPv6 info = 0) || shared then
             '(total, requested) ← ip_pool stats "static-ipv6-default";
             let info := match total with Some t => set_totalStaticIPv6 info t | None => info end in
             Ok (info, if shared then default 0 requested else 0)
           else Ok (info, 0)) with
    | Err e => (Err e, info)
    | Ok (info, allocated) =>
        if exhausted_recently now info then (Ok false, info)
        else
          let existing := countExistingIPsForPool ports true true in
          let existing := if shared then Z.max existing allocated else existing in
          (Ok (bool_decide (dirty info true true + existing + ipCount <= totalStaticIPv6 info)), info)
    end.
End Capacity.

(** ** Allocation and release *)

(** The addresses a port asks for, per family. *)
Definition requested (interfaceIPType : string) (bindings : list string) : Z * Z :=
  let '(v4, v6) := CountAddressBindingsByFamily bindings in
  (if IPAddressTypeIncludesIPv4 interfaceIPType && bool_decide (v4 = 0) then 1 else v4,
   if IPAddressTypeIncludesIPv6 interfaceIPType && bool_decide (v6 = 0) then 1 else v6).

Section Ports.
Variable AddressCount : IPNet -> Z.

(** [AllocatePortFromSubnet] on the counters of its Subnet ([None]: no entry
    yet); the entry is created in every case. *)
Definition allocate_info (stats : nsx_stats) (ports : list VpcSubnetPort) (now : Z)
    (s : Subnet) (shared : bool) (ipType staticType : string) (bindings : list string)
    (entry : option CountInfo) : result goerr bool * CountInfo :=
  let info := default newCountInfo entry in
  let existed := bool_decide (is_Some entry) in
  let '(v4, v6) := requested ipType bindings in
  let static4 := StaticIPAllocationTypeIncludesIPv4 staticType in
  let static6 := StaticIPAllocationTypeIncludesIPv6 staticType in
  let has4 := IPAddressTypeIncludesIPv4 ipType in
  let has6 := IPAddressTypeIncludesIPv6 ipType in
  let '(r4, info) := if has4 then checkIPv4Capacity AddressCount stats ports now s shared info existed static4 v4
                     else (Ok true, info) in
  match r4 with
  | Err e => (Err e, info)
  | Ok false => (Ok false, info)
  | Ok true =>
      let '(r6, info) := if has6 then checkIPv6Capacity stats ports now s shared info existed static6 v6
                         else (Ok true, info) in
      match r6 with
      | Err e => (Err e, info)
      | Ok false => (Ok false, info)
      | Ok true =>
          let info := if has4 then add_dirty info false static4 v4 else info in
          let info := if has6 then add_dirty info true static6 v6 else info in
          (Ok true, info)
      end
  end.
Definition AllocatePortFromSubnet (counts : gmap string CountInfo) (stats : nsx_stats)
    (ports : list VpcSubnetPort) (now : Z) (s : Subnet) (shared : bool) (ipType staticType : string)
    (bindings : list string) : result goerr bool * gmap string CountInfo :=
  let '(r, info) := allocate_info stats ports now s shared ipType staticType bindings
                      (counts !! sn_Path s) in
  (r, <[sn_Path s := info]> counts).
End Ports.

(** One family of [ReleasePortInSubnet]: too small a counter is left alone. *)
Definition release_family (info : CountInfo) (ipv6 static : bool) (n : Z) : CountInfo :=
  if bool_decide (dirty info ipv6 static < n) then info else add_dirty info ipv6 static (- n).
Definition release_info (ipType staticType : string) (bindings : list string) (info : CountInfo)
  : CountInfo :=
  let '(v4, v6) := requested ipType bindings in
  let info := if IPAddressTypeIncludesIPv4 ipType
              then release_family info false (StaticIPAllocationTypeIncludesIPv4 staticType) v4 else info in
  if IPAddressTypeIncludesIPv6 ipType
  then release_family info true (StaticIPAllocationTypeIncludesIPv6 staticType) v6 else info.
Definition ReleasePortInSubnet (counts : gmap string CountInfo) (path ipType staticType : string)
    (bindings : list string) : gmap string CountInfo :=
  match counts !! path with
  | None => counts
  | Some info => <[path := release_info ipType staticType bindings info]> counts
  end.

Definition ResetSubnetTotalIP (counts : gmap string CountInfo) (path : string) : gmap string CountInfo :=
  match counts !! path with
  | None => counts
  | Some i =>
      <[path := mkCountInfo (dirtyDhcpCount i) (dirtyStaticCount i) (dirtyDhcpCountIPv6 i)
                  (dirtyStaticCountIPv6 i) 0 0 None 0 (exhaustedCheckTime i)]> counts
  end.
Definition updateExhaustedSubnet (counts : gmap string CountInfo) (path : string) (now : Z)
  : gmap string CountInfo :=
  match counts !! path with
  | None => counts
  | Some i => <[path := set_exhausted i now]> counts
  end.
Definition IsEmptySubnet (counts : gmap string CountInfo) (ports : list VpcSubnetPort) (path : string)
  : bool :=
  let portCount := Z.of_nat (length ports) in
  let portCount := match counts !! path with
    | Some i => portCount + (dirtyStaticCount i + dirtyDhcpCount i + dirtyStaticCountIPv6 i +
                             dirtyDhcpCountIPv6 i)
    | None => portCount
    end in
  bool_decide (portCount < 1).
Definition DeletePortCount (counts : gmap string CountInfo) (path : string) : gmap string CountInfo :=
  delete path counts.

(** ** Facts about the counters *)
Lemma dirty_add_dirty i a b n c d :
  dirty (add_dirty i a b n) c d = dirty i c d + (if bool_decide (a = c /\ b = d) then n else 0).
Proof. destruct a, b, c, d; simpl; lia. Qed.
Lemma totals_add_dirty i a b n :
  totalDhcpIP (add_dirty i a b n) = totalDhcpIP i /\ totalStaticIP (add_dirty i a b n) = totalStaticIP i /\
  totalDhcpIPv6 (add_dirty i a b n) = totalDhcpIPv6 i /\ totalStaticIPv6 (add_dirty i a b n) = totalStaticIPv6 i.
Proof. done. Qed.

Lemma CountAddressBindingsByFamily_nonneg l :
  0 <= (CountAddressBindingsByFamily l).1 /\ 0 <= (CountAddressBindingsByFamily l).2.
Proof.
  unfold CountAddressBindingsByFamily.
  assert (Hgen : forall c : Z * Z, 0 <= c.1 /\ 0 <= c.2 ->
    let r := foldl (fun c addr =>
           if bool_decide (addr = "") then (c.1 + 1, c.2)
           else match ParseIP addr with
                | Some ip => if bool_decide (To4 ip = None) then (c.1, c.2 + 1) else (c.1 + 1, c.2)
                | None => (c.1 + 1, c.2)
                end) c l in 0 <= r.1 /\ 0 <= r.2).
  { induction l as [|a l IH]; intros c Hc; [done|]. apply IH.
    repeat case_match; simpl; lia. }
  apply (Hgen (0, 0)). done.
Qed.
Lemma requested_nonneg t l : 0 <= (requested t l).1 /\ 0 <= (requested t l).2.
Proof.
  unfold requested. pose proof (CountAddressBindingsByFamily_nonneg l).
  destruct (CountAddressBindingsByFamily l) as [v4 v6]. simpl in *. repeat case_match; simpl; lia.
Qed.

(** Two infos that only differ in their totals. *)
Definition same_dirty (i j : CountInfo) : Prop :=
  (forall a b, dirty i a b = dirty j a b) /\ exhaustedCheckTime i = exhaustedCheckTime j.
Lemma same_dirty_refl i : same_dirty i i.
Proof. done. Qed.
#[export] Hint Resolve same_dirty_refl : nsx.

Ltac by_fields := split; [by intros [] []|done].

Section Checks.
Variable AddressCount : IPNet -> Z.
Variable stats : nsx_stats.
Variable ports : list VpcSubnetPort.
Variable now : Z.

Lemma refresh_ipv4_dirty s shared info existed useStatic info' n :
  refresh_ipv4 AddressCount stats s shared info existed useStatic = Ok (info', n) ->
  same_dirty info' info.
Proof.
  unfold refresh_ipv4. destruct useStatic.
  - destruct (_ || shared); [|by intros [= <- _]].
    destruct (ip_pool stats _) as [[total req]|e]; [|done]. simpl. intros [= <- _].
    destruct total; by_fields.
  - destruct (decide _).
    + destruct (dhcp_stats stats) as [[[size alloc] six]|er]; [|done]. simpl. intros [= <- _].
      destruct size; by_fields.
    + destruct (_ && _); intros [= <- _]; by_fields.
Qed.

(** What a positive answer of the IPv4 check means. *)
Lemma checkIPv4Capacity_spec s shared info existed useStatic n r info' :
  checkIPv4Capacity AddressCount stats ports now s shared info existed useStatic n = (r, info') ->
  same_dirty info' info /\
  (r = Ok true ->
     (default "DHCP_DEACTIVATED" (sn_DhcpMode s) = "DHCP_DEACTIVATED" /\ static_enabled s = false) \/
     dirty info false useStatic + countExistingIPsForPool ports useStatic false + n <=
       if useStatic then totalStaticIP info' else totalDhcpIP info').
Proof.
  unfold checkIPv4Capacity. destruct (bool_decide _ && _) eqn:Hd.
  { intros [= <- <-]. split; [auto with nsx|]. intros _. left. go_bool.
    destruct Hd as [Hd1 Hd2]. by apply bool_decide_eq_true in Hd1. }
  destruct (refresh_ipv4 _ _ _ _ _ _ _) as [[i al]|e] eqn:Er; [|by intros [= <- <-]].
  apply refresh_ipv4_dirty in Er. destruct (exhausted_recently now i); intros [= <- <-]; (split; [done|]);
    [done|]. intros [= Hle]. right. apply bool_decide_eq_true in Hle. destruct Er as [Er _].
  specialize (Er false useStatic). destruct useStatic, shared; simpl in *; lia.
Qed.

Lemma checkIPv6Capacity_spec s shared info existed useStatic n r info' :
  checkIPv6Capacity stats ports now s shared info existed useStatic n = (r, info') ->
  same_dirty info' info /\ totalDhcpIP info' = totalDhcpIP info /\ totalStaticIP info' = totalStaticIP info /\
  (r = Ok true ->
     (default "DHCP_DEACTIVATED" (sn_Dhcpv6Mode s) = "DHCP_DEACTIVATED" /\ static_enabled s = false) \/
     (useStatic = false /\ (nsx_ipv6 stats = false \/ exists x, dhcp_stats stats = Ok (x, None))) \/
     dirty info true useStatic + countExistingIPsForPool ports useStatic true + n <=
       if useStatic then totalStaticIPv6 info' else default 0 (totalDhcpIPv6 info')).
Proof.
  unfold checkIPv6Capacity. destruct (bool_decide _ && _) eqn:Hd.
  { intros [= <- <-]. split_and!; auto with nsx. intros _. left. go_bool.
    destruct Hd as [Hd1 Hd2]. by apply bool_decide_eq_true in Hd1. }
  destruct useStatic; simpl.
  - set (fetch := if negb existed || _ || _ then _ else _).
    destruct fetch as [[i al]|e] eqn:Ef; [|by intros [= <- <-]].
    assert (Hi : same_dirty i info /\ totalDhcpIP i = totalDhcpIP info /\ totalStaticIP i = totalStaticIP info).
    { revert Ef. unfold fetch. case_match; [|by intros [= <- _]].
      destruct (ip_pool stats _) as [[total req]|?]; [|done]. simpl. intros [= <- _].
      destruct total; (split; [by_fields|done]). }
    destruct Hi as (Hsd & Hi1 & Hi2).
    destruct (exhausted_recently now i); intros [= <- <-]; split_and!; try done.
    intros [= Hle]. right. right. apply bool_decide_eq_true in Hle. destruct Hsd as [Hsd _].
    specialize (Hsd true true). destruct shared; simpl in *; lia.
  - destruct (nsx_ipv6 stats) eqn:E6; simpl; [|intros [= <- <-]; split_and!; auto with nsx].
    destruct (dhcp_stats stats) as [[x [[size al]|]]|er] eqn:Es; [| |by intros [= <- <-]]; simpl.
    2: { destruct x. intros [= <- <-]. split_and!; auto with nsx. intros _. right. left. eauto. }
    destruct x as [x1 x2]. set (i := match _ with Some n => _ | None => _ end).
    assert (Hi : same_dirty i info /\ totalDhcpIP i = totalDhcpIP info /\ totalStaticIP i = totalStaticIP info).
    { unfold i. case_match; (split; [by_fields|done]). }
    destruct Hi as (Hsd & Hi1 & Hi2).
    destruct (exhausted_recently now i); intros [= <- <-]; split_and!; try done.
    intros [= Hle]. right. right. apply bool_decide_eq_true in Hle. destruct Hsd as [Hsd _].
    specialize (Hsd true false). destruct shared; simpl in *; [case_bool_decide|]; lia.
Qed.
End Checks.

Lemma release_family_dirty i x st n a b :
  n <= dirty i x st ->
  dirty (release_family i x st n) a b = dirty i a b - (if bool_decide (x = a /\ st = b) then n else 0).
Proof.
  intros Hn. unfold release_family. rewrite bool_decide_eq_false_2 by lia.
  rewrite dirty_add_dirty. case_bool_decide; lia.
Qed.
Lemma dirty_add_same i x st n : dirty (add_dirty i x st n) x st = dirty i x st + n.
Proof. rewrite dirty_add_dirty. by rewrite bool_decide_eq_true_2. Qed.
Lemma dirty_add_other i x y st st' n : x <> y -> dirty (add_dirty i x st n) y st' = dirty i y st'.
Proof. intros Hne. rewrite dirty_add_dirty, bool_decide_eq_false_2 by naive_solver. lia. Qed.

(** An allocation that succeeds adds what it asked for to the counters. *)
Lemma allocate_info_true AddressCount stats ports now s shared ipType staticType bindings entry info' :
  allocate_info AddressCount stats ports now s shared ipType staticType bindings entry = (Ok true, info') ->
  let info := default newCountInfo entry in
  let has4 := IPAddressTypeIncludesIPv4 ipType in
  let has6 := IPAddressTypeIncludesIPv6 ipType in
  let st4 := StaticIPAllocationTypeIncludesIPv4 staticType in
  let st6 := StaticIPAllocationTypeIncludesIPv6 staticType in
  exists i1 i2,
    (if has4 then checkIPv4Capacity AddressCount stats ports now s shared info
                    (bool_decide (is_Some entry)) st4 (requested ipType bindings).1 = (Ok true, i1)
     else i1 = info) /\
    (if has6 then checkIPv6Capacity stats ports now s shared i1
                    (bool_decide (is_Some entry)) st6 (requested ipType bindings).2 = (Ok true, i2)
     else i2 = i1) /\
    info' = (let i := if has4 then add_dirty i2 false st4 (requested ipType bindings).1 else i2 in
             if has6 then add_dirty i true st6 (requested ipType bindings).2 else i).
Proof.
  unfold allocate_info. destruct (requested ipType bindings) as [v4 v6]. simpl.
  intros Ha.
  destruct (IPAddressTypeIncludesIPv4 ipType) eqn:E4;
    [destruct (checkIPv4Capacity _ _ _ _ _ _ _ _ _ _) as [[[]|] i1] eqn:C4; try done|];
    (destruct (IPAddressTypeIncludesIPv6 ipType) eqn:E6;
      [match type of Ha with context [checkIPv6Capacity ?a ?b ?c ?d ?e ?f ?g ?h ?i] =>
         destruct (checkIPv6Capacity a b c d e f g h i) as [[[]|] i2] eqn:C6; try done end|]);
    simplify_eq; eauto 10.
Qed.

Definition unchecked4 (s : Subnet) : Prop :=
  default "DHCP_DEACTIVATED" (sn_DhcpMode s) = "DHCP_DEACTIVATED" /\ static_enabled s = false.
Definition unchecked6 (stats : nsx_stats) (s : Subnet) (static : bool) : Prop :=
  (default "DHCP_DEACTIVATED" (sn_Dhcpv6Mode s) = "DHCP_DEACTIVATED" /\ static_enabled s = false) \/
  (static = false /\ (nsx_ipv6 stats = false \/ exists x, dhcp_stats stats = Ok (x, None))).

(** ** Properties *)

(** C39. A successful reservation never overcommits a pool: for each family of
    the port whose pool is checked at all, the addresses reserved by ports under
    creation, this one included, and those of the ports that exist fit in the
    total of the pool the addresses come from. *)
Theorem AllocatePort_within_capacity AddressCount stats ports now s shared ipType staticType
    bindings entry info' :
  allocate_info AddressCount stats ports now s shared ipType staticType bindings entry = (Ok true, info') ->
  (IPAddressTypeIncludesIPv4 ipType = true ->
     let st := StaticIPAllocationTypeIncludesIPv4 staticType in
     unchecked4 s \/ dirty info' false st + countExistingIPsForPool ports st false <=
       if st then totalStaticIP info' else totalDhcpIP info') /\
  (IPAddressTypeIncludesIPv6 ipType = true ->
     let st := StaticIPAllocationTypeIncludesIPv6 staticType in
     unchecked6 stats s st \/ dirty info' true st + countExistingIPsForPool ports st true <=
       if st then totalStaticIPv6 info' else default 0 (totalDhcpIPv6 info')).
Proof.
  intros (i1 & i2 & H4 & H6 & ->)%allocate_info_true. unfold unchecked4, unchecked6.
  destruct (IPAddressTypeIncludesIPv4 ipType) eqn:E4, (IPAddressTypeIncludesIPv6 ipType) eqn:E6;
    cbn zeta iota; split; try done; intros _;
    try (apply checkIPv4Capacity_spec in H4 as [[D4 _] S4]; specialize (S4 eq_refl));
    try (apply checkIPv6Capacity_spec in H6 as ([D6 _] & T1 & T2 & S6); specialize (S6 eq_refl));
    subst; rewrite !dirty_add_dirty.
  - destruct S4 as [S4|S4]; [by left|right].
    pose proof (D4 false (StaticIPAllocationTypeIncludesIPv4 staticType)).
    pose proof (D6 false (StaticIPAllocationTypeIncludesIPv4 staticType)).
    rewrite (bool_decide_eq_true_2 (false = false /\ _)), (bool_decide_eq_false_2 (true = false /\ _)) by naive_solver.
    destruct (StaticIPAllocationTypeIncludesIPv4 staticType); simpl in *; lia.
  - destruct S6 as [S6|[S6|S6]]; [by left; left|by left; right|right].
    pose proof (D6 true (StaticIPAllocationTypeIncludesIPv6 staticType)).
    rewrite (bool_decide_eq_true_2 (true = true /\ _)), (bool_decide_eq_false_2 (false = true /\ _)) by naive_solver.
    destruct (StaticIPAllocationTypeIncludesIPv6 staticType); simpl in *; lia.
  - destruct S4 as [S4|S4]; [by left|right].
    pose proof (D4 false (StaticIPAllocationTypeIncludesIPv4 staticType)).
    rewrite (bool_decide_eq_true_2 (false = false /\ _)) by naive_solver.
    destruct (StaticIPAllocationTypeIncludesIPv4 staticType); simpl in *; lia.
  - destruct S6 as [S6|[S6|S6]]; [by left; left|by left; right|right].
    pose proof (D6 true (StaticIPAllocationTypeIncludesIPv6 staticType)).
    rewrite (bool_decide_eq_true_2 (true = true /\ _)) by naive_solver.
    destruct (StaticIPAllocationTypeIncludesIPv6 staticType); simpl in *; lia.
Qed.

(** The counters with what a port asks for added. *)
Definition added (ipType staticType : string) (bindings : list string) (i : CountInfo) : CountInfo :=
  let i := if IPAddressTypeIncludesIPv4 ipType then add_dirty i false (StaticIPAllocationTypeIncludesIPv4 staticType) (requested ipType bindings).1 else i in
  if IPAddressTypeIncludesIPv6 ipType then add_dirty i true (StaticIPAllocationTypeIncludesIPv6 staticType) (requested ipType bindings).2 else i.
Lemma allocate_info_added AddressCount stats ports now s shared ipType staticType bindings entry info' :
  allocate_info AddressCount stats ports now s shared ipType staticType bindings entry = (Ok true, info') ->
  exists i, (forall a b, dirty i a b = dirty (default newCountInfo entry) a b) /\ info' = added ipType staticType bindings i.
Proof.
  intros (i1 & i2 & H4 & H6 & ->)%allocate_info_true. exists i2. split; [|done]. intros a b.
  assert (D1 : forall a b, dirty i1 a b = dirty (default newCountInfo entry) a b).
  { destruct (IPAddressTypeIncludesIPv4 ipType); [by apply checkIPv4Capacity_spec in H4 as [[D _] _]|by subst]. }
  rewrite <- D1. destruct (IPAddressTypeIncludesIPv6 ipType); [by apply checkIPv6Capacity_spec in H6 as [[D _] _]|by subst].
Qed.
Lemma release_added ipType staticType bindings i : (forall a b, 0 <= dirty i a b) ->
  forall a b, dirty (release_info ipType staticType bindings (added ipType staticType bindings i)) a b = dirty i a b.
Proof.
  intros Hi a b. pose proof (requested_nonneg ipType bindings) as [R4 R6]. unfold release_info, added.
  destruct (requested ipType bindings) as [v4 v6]. cbn [fst snd] in *.
  set (st4 := StaticIPAllocationTypeIncludesIPv4 staticType).
  set (st6 := StaticIPAllocationTypeIncludesIPv6 staticType).
  pose proof (Hi false st4) as N4. pose proof (Hi true st6) as N6.
  destruct (IPAddressTypeIncludesIPv4 ipType), (IPAddressTypeIncludesIPv6 ipType); cbn zeta iota.
  - rewrite !release_family_dirty, !dirty_add_dirty; [lia| |].
    + rewrite dirty_add_other, dirty_add_same by done. lia.
    + rewrite release_family_dirty, dirty_add_same, dirty_add_other;
        rewrite ?dirty_add_other, ?dirty_add_same by done; try done; [|lia].
      rewrite bool_decide_eq_false_2 by naive_solver. lia.
  - rewrite release_family_dirty, dirty_add_dirty; [lia|]. rewrite dirty_add_same. lia.
  - rewrite release_family_dirty, dirty_add_dirty; [lia|]. rewrite dirty_add_same. lia.
  - done.
Qed.
(** Releasing with the arguments of the allocation undoes it: all four
    counters of the Subnet are back to what they were. *)
Theorem Release_undoes_Allocate AddressCount stats ports now s shared ipType staticType bindings entry info' :
  (forall a b, 0 <= dirty (default newCountInfo entry) a b) ->
  allocate_info AddressCount stats ports now s shared ipType staticType bindings entry = (Ok true, info') ->
  forall a b, dirty (release_info ipType staticType bindings info') a b =
              dirty (default newCountInfo entry) a b.
Proof.
  intros Hnn (i & Hi & ->)%allocate_info_added a b. rewrite release_added; [apply Hi|]. intros. rewrite Hi. apply Hnn.
Qed.

Lemma relay_check AddressCount stats ports now s info n :
  sn_DhcpMode s = Some "DHCP_RELAY" -> totalDhcpIP info = 0 -> 0 <= dirtyDhcpCount info ->
  0 <= countExistingIPsForPool ports false false -> 0 < n ->
  checkIPv4Capacity AddressCount stats ports now s false info true false n = (Ok false, info).
Proof.
  intros Hm H0 Hd He Hn. unfold checkIPv4Capacity, refresh_ipv4. rewrite Hm.
  change (decide (default "DHCP_DEACTIVATED" (Some "DHCP_RELAY") = "DHCP_SERVER")) with
    (decide ("DHCP_RELAY" = "DHCP_SERVER")).
  rewrite decide_False by done. cbn [default negb andb bool_decide from_option].
  rewrite bool_decide_eq_false_2 by done. cbn [andb].
  destruct (exhausted_recently now info); [done|].
  rewrite bool_decide_eq_false_2; [done|]. simpl. lia.
Qed.
(** Once the totals of a DHCP relay Subnet are reset (an IP reservation was
    created or deleted), its IPv4 pool counts as empty for every later port:
    the total is only computed when the entry is new. *)
Lemma relay_reset_starves AddressCount stats ports now s ipType bindings counts info :
  counts !! sn_Path s = Some info ->
  sn_DhcpMode s = Some "DHCP_RELAY" -> IPAddressTypeIncludesIPv4 ipType = true ->
  0 <= dirtyDhcpCount info ->
  0 <= countExistingIPsForPool ports false false ->
  0 < (requested ipType bindings).1 ->
  (AllocatePortFromSubnet AddressCount (ResetSubnetTotalIP counts (sn_Path s)) stats ports now s false
     ipType "None" bindings).1 = Ok false.
Proof.
  intros Hc Hm H4 Hd He Hr. unfold AllocatePortFromSubnet, ResetSubnetTotalIP.
  rewrite Hc, lookup_insert_eq. unfold allocate_info.
  destruct (requested ipType bindings) as [v4 v6]. rewrite H4. cbn [fst] in Hr.
  change (StaticIPAllocationTypeIncludesIPv4 "None") with false. cbn [default from_option].
  rewrite relay_check by done. done.
Qed.

(** A Subnet of 8 static addresses with one port in the store. *)
Definition demo_stats : nsx_stats :=
  mkStats (fun _ => Ok (Some 8, None)) (Ok (None, None, None)) true.
Definition demo_subnet : Subnet := mkSubnet "/subnets/s1" None None (Some true) None [].
Definition demo_ports : list VpcSubnetPort :=
  [mkPort (Some "BOTH") [mkPortBinding (Some "10.0.0.4") None]].
Definition demo_alloc := allocate_info (fun _ => 0) demo_stats demo_ports 0 demo_subnet false
  "IPv4" "IPv4" ["10.0.0.5"; "10.0.0.6"] None.
Example demo_alloc_info : demo_alloc = (Ok true, mkCountInfo 0 2 0 0 0 8 None 0 None).
Proof. vm_compute. reflexivity. Qed.

Lemma AllocatePort_within_capacity_witness :
  unchecked4 demo_subnet \/
  dirty (mkCountInfo 0 2 0 0 0 8 None 0 None) false true + countExistingIPsForPool demo_ports true false <= 8.
Proof.
  exact (proj1 (AllocatePort_within_capacity (fun _ => 0) demo_stats demo_ports 0 demo_subnet false
           "IPv4" "IPv4" ["10.0.0.5"; "10.0.0.6"] None _ demo_alloc_info) eq_refl).
Defined.
Lemma Release_undoes_Allocate_witness :
  dirty (release_info "IPv4" "IPv4" ["10.0.0.5"; "10.0.0.6"] (mkCountInfo 0 2 0 0 0 8 None 0 None)) false true = 0.
Proof.
  refine (Release_undoes_Allocate (fun _ => 0) demo_stats demo_ports 0 demo_subnet false
            "IPv4" "IPv4" ["10.0.0.5"; "10.0.0.6"] None _ _ demo_alloc_info false true).
  intros [] []; simpl; lia.
Defined.
