(* ===== verification/GatewayCache.v ===== *)
(** * pkg/controllers/gateway/gateway_ip_cache.go: the Gateway cache of Route DNS

    A map from Gateways to their addresses and admitted listeners, split over
    16 shards by an FNV-1a hash, with an index from ListenerSets to the Gateway
    they are attached to. *)
From S2P Require Import Prelude GoStrings.

(** [types.NamespacedName] *)
Record NamespacedName := mkNN { nn_Namespace : string; nn_Name : string }.
#[global] Instance NamespacedName_eq_dec : EqDecision NamespacedName.
Proof. solve_decision. Defined.
Definition nn_String (n : NamespacedName) : string := nn_Namespace n +:+ "/" +:+ nn_Name n.

Record AdmissionRow := mkRow {
  FromListenerSet : bool; ListenerSet : NamespacedName; Section_ : string; Filter : string }.
#[global] Instance AdmissionRow_eq_dec : EqDecision AdmissionRow.
Proof. solve_decision. Defined.

Record cacheEntry := mkEntry {
  IPs : list string; AdmissionRows : list AdmissionRow; GatewayResource : NamespacedName }.

(** ** Comparison of entries *)

(** The four fields the comparison function looks at, in order. *)
Definition row_le (a b : AdmissionRow) : Prop :=
  if decide (FromListenerSet a = FromListenerSet b) then
    if decide (nn_String (ListenerSet a) = nn_String (ListenerSet b)) then
      if decide (Section_ a = Section_ b) then str_le (Filter a) (Filter b)
      else str_le (Section_ a) (Section_ b)
    else str_le (nn_String (ListenerSet a)) (nn_String (ListenerSet b))
  else FromListenerSet a = false.
#[global] Instance row_le_dec : RelDecision row_le.
Proof. intros a b. unfold row_le. repeat case_decide; apply _. Defined.

Definition sortAdmissionRowsForCompare (rows : list AdmissionRow) : list AdmissionRow :=
  merge_sort row_le rows.
Definition gatewayDNSCacheEntryEqual (a b : cacheEntry) : bool :=
  if negb (bool_decide (GatewayResource a = GatewayResource b)) then false
  else if negb (bool_decide (sort_strings (IPs a) = sort_strings (IPs b))) then false
  else bool_decide (sortAdmissionRowsForCompare (AdmissionRows a) =
                    sortAdmissionRowsForCompare (AdmissionRows b)).

(** ** ListenerSets of an entry *)

(** The first row of each ListenerSet, before sorting. *)
Definition ls_step (st : gset string * list NamespacedName) (row : AdmissionRow)
  : gset string * list NamespacedName :=
  if FromListenerSet row then
    let k := nn_String (ListenerSet row) in
    if decide (k ∈ st.1) then st else ({[k]} ∪ st.1, st.2 ++ [ListenerSet row])
  else st.
Definition nn_le (a b : NamespacedName) : Prop :=
  if decide (nn_Namespace a = nn_Namespace b) then str_le (nn_Name a) (nn_Name b)
  else str_le (nn_Namespace a) (nn_Namespace b).
#[global] Instance nn_le_dec : RelDecision nn_le.
Proof. intros a b. unfold nn_le. case_decide; apply _. Defined.
Definition listenerSetKeysFromAdmissionRows (rows : list AdmissionRow) : list NamespacedName :=
  merge_sort nn_le (foldl ls_step (∅, []) rows).2.

Definition reconcileListenerSetRootIndexLocked (lsToRoot : gmap string NamespacedName)
    (gwNN : NamespacedName) (prev next : list NamespacedName) (hadPrev : bool)
  : gmap string NamespacedName :=
  let nextKeep : gset string := list_to_set (map nn_String next) in
  let lsToRoot :=
    if hadPrev then
      foldl (fun m ls =>
        if decide (nn_String ls ∈ nextKeep) then m
        else if decide (m !! nn_String ls = Some gwNN) then delete (nn_String ls) m else m)
        lsToRoot prev
    else lsToRoot in
  foldl (fun m ls => <[nn_String ls := gwNN]> m) lsToRoot next.

(** ** Shards *)
Definition gatewayIPCacheShards : Z := 16.
(** FNV-1a, 32 bits. *)
Definition fnv32a (key : string) : Z :=
  foldl (fun h b => (Z.lxor h b * 16777619) mod 2 ^ 32) 2166136261 (bytes_of key).
Definition gatewayIPCacheShardIdx (key : string) : nat := Z.to_nat (fnv32a key mod gatewayIPCacheShards).

Record gatewayIPCache := mkCache {
  shards : list (gmap string cacheEntry);
  lsToRootGw : gmap string NamespacedName }.
Definition NewGatewayIPCache : gatewayIPCache :=
  mkCache (repeat ∅ (Z.to_nat gatewayIPCacheShards)) ∅.
Definition shardForKey (c : gatewayIPCache) (key : string) : gmap string cacheEntry :=
  default ∅ (shards c !! gatewayIPCacheShardIdx key).
Definition set_shard (c : gatewayIPCache) (key : string) (m : gmap string cacheEntry)
  : list (gmap string cacheEntry) := <[gatewayIPCacheShardIdx key := m]> (shards c).

(** [put]: the cache and whether the entry changed. *)
Definition put (c : gatewayIPCache) (nn : NamespacedName) (e : cacheEntry) : gatewayIPCache * bool :=
  let key := nn_String nn in
  let s := shardForKey c key in
  let prev := s !! key in
  let changed := match prev with None => true | Some p => negb (gatewayDNSCacheEntryEqual p e) end in
  let shards' := set_shard c key (<[key := e]> s) in
  if changed then
    let prevKeys := match prev with
                    | Some p => listenerSetKeysFromAdmissionRows (AdmissionRows p) | None => [] end in
    let nextKeys := listenerSetKeysFromAdmissionRows (AdmissionRows e) in
    (mkCache shards' (reconcileListenerSetRootIndexLocked (lsToRootGw c) nn prevKeys nextKeys
                        (bool_decide (is_Some prev))), true)
  else (mkCache shards' (lsToRootGw c), false).
Definition cache_delete (c : gatewayIPCache) (nn : NamespacedName) : gatewayIPCache * bool :=
  let key := nn_String nn in
  let s := shardForKey c key in
  match s !! key with
  | None => (c, false)
  | Some p =>
      (mkCache (set_shard c key (delete key s))
         (reconcileListenerSetRootIndexLocked (lsToRootGw c) nn
            (listenerSetKeysFromAdmissionRows (AdmissionRows p)) [] true), true)
  end.
Definition get (c : gatewayIPCache) (nn : NamespacedName) : option cacheEntry :=
  shardForKey c (nn_String nn) !! nn_String nn.
Definition rootGatewayForCachedListenerSet (c : gatewayIPCache) (ls : NamespacedName)
  : option NamespacedName := lsToRootGw c !! nn_String ls.
Definition listGatewayNamespacedNames (c : gatewayIPCache) : list NamespacedName :=
  mjoin (map (fun m => map (fun kv => GatewayResource kv.2) (map_to_list m)) (shards c)).

(** ** Facts about ListenerSet keys *)
Definition ls_keys (rows : list AdmissionRow) : list string :=
  map nn_String (listenerSetKeysFromAdmissionRows rows).

Lemma ls_step_keys rows st :
  (forall k, k ∈ st.1 <-> k ∈ map nn_String st.2) ->
  forall k, k ∈ map nn_String (foldl ls_step st rows).2 <->
    k ∈ map nn_String st.2 \/ exists r, r ∈ rows /\ FromListenerSet r = true /\ nn_String (ListenerSet r) = k.
Proof.
  revert st; induction rows as [|r rows IH]; intros st Hst k; simpl.
  { split; [auto|]. intros [?|(r & ?%elem_of_nil & _)]; done. }
  rewrite IH.
  - unfold ls_step. destruct (FromListenerSet r) eqn:Er.
    + case_decide as Hk; simpl.
      * setoid_rewrite elem_of_cons. rewrite Hst in Hk. naive_solver.
      * rewrite map_app, elem_of_app. simpl. setoid_rewrite elem_of_cons. rewrite elem_of_nil. naive_solver.
    + setoid_rewrite elem_of_cons. split.
      * intros [?|(r' & ? & ? & ?)]; eauto 10.
      * intros [?|(r' & [->|?] & ? & ?)]; [auto|congruence|eauto 10].
  - intros k'. unfold ls_step. destruct (FromListenerSet r); [|apply Hst].
    case_decide; simpl; [apply Hst|]. rewrite map_app, elem_of_app, <- Hst. set_solver.
Qed.
(** The keys are those of the rows that come from a ListenerSet. *)
Lemma elem_of_ls_keys rows k :
  k ∈ ls_keys rows <-> exists r, r ∈ rows /\ FromListenerSet r = true /\ nn_String (ListenerSet r) = k.
Proof.
  unfold ls_keys, listenerSetKeysFromAdmissionRows.
  rewrite (merge_sort_Permutation nn_le), ls_step_keys; [set_solver|].
  intros k'. simpl. set_solver.
Qed.
(** Entries that compare equal list the same ListenerSets. *)
Lemma equal_entries_keys a b k :
  gatewayDNSCacheEntryEqual a b = true -> k ∈ ls_keys (AdmissionRows a) <-> k ∈ ls_keys (AdmissionRows b).
Proof.
  unfold gatewayDNSCacheEntryEqual. case_match; [done|]. case_match; [done|].
  intros Hr%bool_decide_eq_true. unfold sortAdmissionRowsForCompare in Hr.
  assert (Hp : AdmissionRows a ≡ₚ AdmissionRows b).
  { by rewrite <- (merge_sort_Permutation row_le (AdmissionRows a)), Hr, merge_sort_Permutation. }
  rewrite !elem_of_ls_keys. by setoid_rewrite Hp.
Qed.

(** ** Facts about the index *)
Lemma index_insert gw next m k :
  foldl (fun m ls => <[nn_String ls := gw]> m) m next !! k =
  if decide (k ∈ map nn_String next) then Some gw else (m : gmap string NamespacedName) !! k.
Proof.
  revert m; induction next as [|ls next IH]; intros m; simpl; [done|].
  rewrite IH. destruct (decide (k ∈ map nn_String next)) as [Hk|Hk].
  - by rewrite decide_True by (by right).
  - destruct (decide (k = nn_String ls)) as [->|Hne].
    + by rewrite decide_True, lookup_insert_eq by (by left).
    + rewrite decide_False, lookup_insert_ne; [done|done|set_solver].
Qed.
Lemma index_remove gw (keep : gset string) prev m k g :
  foldl (fun m ls => if decide (nn_String ls ∈ keep) then m
           else if decide (m !! nn_String ls = Some gw) then delete (nn_String ls) m else m) m prev !! k = Some g <->
  (m : gmap string NamespacedName) !! k = Some g /\ (k ∈ map nn_String prev -> k ∉ keep -> g <> gw).
Proof.
  revert m; induction prev as [|ls prev IH]; intros m; simpl; [set_solver|].
  rewrite IH. case_decide as Hkeep; [set_solver|]. case_decide as Hgw.
  - destruct (decide (k = nn_String ls)) as [->|Hne].
    + rewrite lookup_delete_eq, Hgw. set_solver.
    + rewrite lookup_delete_ne by done. set_solver.
  - destruct (decide (k = nn_String ls)) as [->|Hne]; [|set_solver].
    split; [|set_solver]. intros [Hm Hp]. split; [done|]. intros _ _ ->. by apply Hgw.
Qed.
Lemma reconcile_lookup m gw prev next had k g :
  reconcileListenerSetRootIndexLocked m gw prev next had !! k = Some g <->
  (k ∈ map nn_String next /\ g = gw) \/
  (k ∉ map nn_String next /\ m !! k = Some g /\ (had = true -> k ∈ map nn_String prev -> g <> gw)).
Proof.
  unfold reconcileListenerSetRootIndexLocked. rewrite index_insert. case_decide as Hk.
  - naive_solver.
  - destruct had.
    + rewrite index_remove, elem_of_list_to_set. naive_solver.
    + naive_solver.
Qed.

(** ** The shards behave as one map *)
Definition cache_wf (c : gatewayIPCache) : Prop :=
  length (shards c) = 16%nat /\
  forall i s k e, shards c !! i = Some s -> s !! k = Some e -> i = gatewayIPCacheShardIdx k.
(** The entry filed under a key. *)
Definition flat (c : gatewayIPCache) (key : string) : option cacheEntry := shardForKey c key !! key.

Lemma shard_idx_lt key : (gatewayIPCacheShardIdx key < 16)%nat.
Proof.
  unfold gatewayIPCacheShardIdx, gatewayIPCacheShards.
  pose proof (Z.mod_pos_bound (fnv32a key) 16). lia.
Qed.
Lemma shard_set c key m key' :
  length (shards c) = 16%nat ->
  default ∅ (set_shard c key m !! gatewayIPCacheShardIdx key') =
  if decide (gatewayIPCacheShardIdx key' = gatewayIPCacheShardIdx key) then m else shardForKey c key'.
Proof.
  intros Hlen. unfold set_shard. case_decide as Hi.
  - rewrite Hi, list_lookup_insert_eq; [done|]. rewrite Hlen. apply shard_idx_lt.
  - by rewrite list_lookup_insert_ne by done.
Qed.
(** Replacing the entry of one key in its shard changes that key only. *)
Lemma flat_update c key idx (f : gmap string cacheEntry -> gmap string cacheEntry) key' :
  cache_wf c -> (forall m k, k <> key -> f m !! k = m !! k) ->
  flat (mkCache (set_shard c key (f (shardForKey c key))) idx) key' =
  if decide (key' = key) then f (shardForKey c key) !! key else flat c key'.
Proof.
  intros [Hlen _] Hf. unfold flat. unfold shardForKey at 1. simpl.
  rewrite (shard_set c key _ key' Hlen).
  destruct (decide (key' = key)) as [->|Hne]; [by rewrite decide_True|].
  destruct (decide (gatewayIPCacheShardIdx key' = gatewayIPCacheShardIdx key)) as [Hi|Hi]; [|done].
  rewrite Hf by done. unfold shardForKey. by rewrite Hi.
Qed.
Lemma wf_update c key idx (f : gmap string cacheEntry -> gmap string cacheEntry) :
  cache_wf c -> (forall m k e, f m !! k = Some e -> k = key \/ m !! k = Some e) ->
  cache_wf (mkCache (set_shard c key (f (shardForKey c key))) idx).
Proof.
  intros [Hlen Hwf] Hf. split; [simpl; unfold set_shard; by rewrite length_insert|].
  simpl. unfold set_shard. intros i s k e Hi Hk.
  apply list_lookup_insert_Some in Hi as [(<- & <- & _)|[_ Hi]]; [|by eapply Hwf].
  apply Hf in Hk as [->|Hk]; [done|]. unfold shardForKey in Hk.
  destruct (shards c !! gatewayIPCacheShardIdx key) as [s0|] eqn:E0; [|simpl in Hk; by rewrite lookup_empty in Hk].
  by eapply Hwf.
Qed.

Lemma put_shards c nn e : exists idx,
  (put c nn e).1 = mkCache (set_shard c (nn_String nn) (<[nn_String nn := e]> (shardForKey c (nn_String nn)))) idx.
Proof. unfold put. case_match; eauto. Qed.
Lemma put_flat c nn e : cache_wf c ->
  cache_wf (put c nn e).1 /\
  forall k, flat (put c nn e).1 k = if decide (k = nn_String nn) then Some e else flat c k.
Proof.
  intros Hwf. destruct (put_shards c nn e) as [idx ->]. split.
  - apply (wf_update c _ _ (fun m => <[nn_String nn := e]> m)); [done|].
    intros m k e' [[-> _]|[_ ?]]%lookup_insert_Some; auto.
  - intros k. rewrite (flat_update c _ _ (fun m => <[nn_String nn := e]> m)); [|done|].
    + case_decide; [by rewrite lookup_insert_eq|done].
    + intros m k' Hne. by apply lookup_insert_ne.
Qed.
Lemma delete_flat c nn : cache_wf c ->
  cache_wf (cache_delete c nn).1 /\
  forall k, flat (cache_delete c nn).1 k = if decide (k = nn_String nn) then None else flat c k.
Proof.
  intros Hwf. unfold cache_delete. destruct (shardForKey c (nn_String nn) !! nn_String nn) eqn:E; simpl.
  - split.
    + apply (wf_update c _ _ (fun m => delete (nn_String nn) m)); [done|].
      intros m k e' [_ ?]%lookup_delete_Some. auto.
    + intros k. rewrite (flat_update c _ _ (fun m => delete (nn_String nn) m)); [|done|].
      * case_decide; [by rewrite lookup_delete_eq|done].
      * intros m k' Hne. by apply lookup_delete_ne.
  - split; [done|]. intros k. case_decide as Hk; [subst; exact E|done].
Qed.

(** ** The index is sound *)

(** Namespaces have no slash, so that [String] identifies a name. *)
Definition valid (nn : NamespacedName) : Prop := contains_byte "/" (nn_Namespace nn) = false.
Lemma nn_String_inj a b : valid a -> valid b -> nn_String a = nn_String b -> a = b.
Proof.
  unfold valid, nn_String. destruct a as [ns1 n1], b as [ns2 n2]; simpl. intros Ha Hb Heq.
  assert (Hs : split_on "/" (ns1 +:+ String "/" n1) = split_on "/" (ns2 +:+ String "/" n2)) by (by rewrite Heq).
  pose proof (split_on_app_sep "/" ns1 n1 Ha) as H1. pose proof (split_on_app_sep "/" ns2 n2 Hb) as H2.
  rewrite H1, H2 in Hs. injection Hs as -> Hs.
  f_equal. by rewrite <- (join_split "/" n1), Hs, join_split.
Qed.

Definition index_sound (c : gatewayIPCache) : Prop :=
  forall ls gw, lsToRootGw c !! ls = Some gw ->
    valid gw /\ exists e, flat c (nn_String gw) = Some e /\ ls ∈ ls_keys (AdmissionRows e).

(** The operations of the Gateway reconciler, on valid names. *)
Inductive cache_step : gatewayIPCache -> gatewayIPCache -> Prop :=
  | step_put c nn e : valid nn -> cache_step c (put c nn e).1
  | step_delete c nn : valid nn -> cache_step c (cache_delete c nn).1.

Lemma put_sound c nn e : valid nn -> cache_wf c -> index_sound c -> index_sound (put c nn e).1.
Proof.
  intros Hv Hwf Hs ls gw. pose proof (put_flat c nn e Hwf) as [_ Hflat]. unfold put in *. fold (flat c (nn_String nn)) in *.
  destruct (flat c (nn_String nn)) as [p|] eqn:Ep; simpl in *.
  - destruct (gatewayDNSCacheEntryEqual p e) eqn:Eq; simpl in *.
    + intros Hls. destruct (Hs ls gw Hls) as (Hvg & e' & He' & Hk). split; [done|].
      rewrite Hflat. case_decide as Hgw; [|eauto]. rewrite Hgw, Ep in He'. injection He' as <-.
      exists e. split; [done|]. by apply (equal_entries_keys p e).
    + intros [[Hk ->]|(Hk & Hls & Hprev)]%reconcile_lookup.
      * split; [done|]. exists e. by rewrite Hflat, decide_True.
      * destruct (Hs ls gw Hls) as (Hvg & e' & He' & Hk'). split; [done|]. rewrite Hflat.
        case_decide as Hgw; [|eauto]. apply nn_String_inj in Hgw as ->; [|done..].
        rewrite Ep in He'. injection He' as <-. by destruct (Hprev eq_refl Hk').
  - intros [[Hk ->]|(Hk & Hls & _)]%reconcile_lookup.
    + split; [done|]. exists e. by rewrite Hflat, decide_True.
    + destruct (Hs ls gw Hls) as (Hvg & e' & He' & Hk'). split; [done|]. rewrite Hflat.
      case_decide as Hgw; [|eauto]. rewrite Hgw, Ep in He'. done.
Qed.
Lemma delete_sound c nn : valid nn -> cache_wf c -> index_sound c -> index_sound (cache_delete c nn).1.
Proof.
  intros Hv Hwf Hs ls gw. pose proof (delete_flat c nn Hwf) as [_ Hflat]. unfold cache_delete in *.
  fold (flat c (nn_String nn)) in *. destruct (flat c (nn_String nn)) as [p|] eqn:Ep; simpl in *; [|apply Hs].
  intros [[Hk%elem_of_nil _]|(_ & Hls & Hprev)]%reconcile_lookup; [done|].
  destruct (Hs ls gw Hls) as (Hvg & e' & He' & Hk'). split; [done|]. rewrite Hflat.
  case_decide as Hgw; [|eauto]. apply nn_String_inj in Hgw as ->; [|done..].
  rewrite Ep in He'. injection He' as <-. by destruct (Hprev eq_refl Hk').
Qed.

Lemma new_cache_ok : cache_wf NewGatewayIPCache /\ index_sound NewGatewayIPCache.
Proof.
  split; [split; [done|]|intros ls gw; simpl; by rewrite lookup_empty].
  intros i s k e Hi Hk. apply (list_elem_of_lookup_2 (repeat ∅ _)) in Hi.
  apply list_elem_of_In, repeat_spec in Hi as ->. by rewrite lookup_empty in Hk.
Qed.
Lemma cache_reachable_ok c : rtc cache_step NewGatewayIPCache c -> cache_wf c /\ index_sound c.
Proof.
  intros Hr. assert (Hgen : forall c0, rtc cache_step c0 c -> cache_wf c0 /\ index_sound c0 -> cache_wf c /\ index_sound c).
  { clear. induction 1 as [|c0 c1 c2 Hs _ IH]; [done|]. intros [Hwf Hi]. apply IH.
    destruct Hs; [split; [by apply put_flat|by apply put_sound]|split; [by apply delete_flat|by apply delete_sound]]. }
  eapply Hgen; [done|apply new_cache_ok].
Qed.

(** ** Properties *)

(** C40. The sixteen shards behave as one map from Gateways to entries: after
    any sequence of operations, a lookup after [put] or [delete] sees exactly
    that operation's effect, and the listing returns exactly the Gateways of
    the entries. *)
Theorem cache_refines_map c nn e :
  rtc cache_step NewGatewayIPCache c ->
  (forall nn', get (put c nn e).1 nn' = if decide (nn_String nn' = nn_String nn) then Some e else get c nn') /\
  (forall nn', get (cache_delete c nn).1 nn' = if decide (nn_String nn' = nn_String nn) then None else get c nn') /\
  (snd (cache_delete c nn) = true <-> is_Some (get c nn)) /\
  (forall g, g ∈ listGatewayNamespacedNames c <-> exists k e', flat c k = Some e' /\ GatewayResource e' = g).
Proof.
  intros [Hwf _]%cache_reachable_ok. split_and!.
  - intros nn'. apply (put_flat c nn e Hwf).
  - intros nn'. apply (delete_flat c nn Hwf).
  - unfold cache_delete, get. destruct (shardForKey c _ !! _); simpl; split; [eauto|done|done|by intros [? [=]]].
  - intros g. unfold listGatewayNamespacedNames. rewrite list_elem_of_join. split.
    + intros (l & Hg & Hl). apply list_elem_of_fmap in Hl as (s & -> & Hs).
      apply list_elem_of_fmap in Hg as ([k e'] & -> & He'%elem_of_map_to_list).
      apply list_elem_of_lookup in Hs as [i Hi]. exists k, e'. split; [|done].
      unfold flat, shardForKey. destruct Hwf as [_ Hwf]. rewrite <- (Hwf i s k e' Hi He'), Hi. exact He'.
    + intros (k & e' & Hk & <-). unfold flat, shardForKey in Hk.
      destruct (shards c !! gatewayIPCacheShardIdx k) as [s|] eqn:Es; [|simpl in Hk; by rewrite lookup_empty in Hk].
      eexists. split; [|apply (list_elem_of_fmap_2 _ _ s); by eapply list_elem_of_lookup_2].
      apply (list_elem_of_fmap_2 (fun kv => GatewayResource kv.2) _ (k, e')). by apply elem_of_map_to_list.
Qed.

(** After any sequence of operations, the root Gateway the index gives for
    a ListenerSet is cached and lists that ListenerSet: the index never points
    to a deleted Gateway or to one the ListenerSet was detached from. *)
Theorem listener_index_sound c ls gw :
  rtc cache_step NewGatewayIPCache c ->
  rootGatewayForCachedListenerSet c ls = Some gw ->
  exists e, get c gw = Some e /\
    exists r, r ∈ AdmissionRows e /\ FromListenerSet r = true /\ nn_String (ListenerSet r) = nn_String ls.
Proof.
  intros [_ Hs]%cache_reachable_ok Hls. destruct (Hs _ _ Hls) as (_ & e & He & Hk).
  exists e. split; [exact He|]. by apply elem_of_ls_keys.
Qed.

Definition demo_row : AdmissionRow := mkRow true (mkNN "ns1" "ls1") "http" "".
Definition demo_gw : NamespacedName := mkNN "ns1" "gw1".
Definition demo_entry : cacheEntry := mkEntry ["10.0.0.1"] [demo_row] demo_gw.
Definition demo_cache : gatewayIPCache := (put NewGatewayIPCache demo_gw demo_entry).1.

Lemma cache_refines_map_witness :
  get demo_cache (mkNN "ns2" "gw2") = None /\
  forall g, g ∈ listGatewayNamespacedNames demo_cache <->
    exists k e', flat demo_cache k = Some e' /\ GatewayResource e' = g.
Proof.
  split; [vm_compute; reflexivity|].
  apply (cache_refines_map demo_cache demo_gw demo_entry).
  apply rtc_once, step_put. reflexivity.
Defined.
Lemma listener_index_sound_witness :
  exists e, get demo_cache demo_gw = Some e /\
    exists r, r ∈ AdmissionRows e /\ FromListenerSet r = true /\ nn_String (ListenerSet r) = "ns1/ls1".
Proof.
  apply (listener_index_sound demo_cache (mkNN "ns1" "ls1") demo_gw).
  - apply rtc_once, step_put. reflexivity.
  - vm_compute. reflexivity.
Defined.

(** A ListenerSet that two cached Gateways list is lost for both when the last
    one to be cached is deleted. *)
Lemma listener_index_incomplete :
  let gw2 := mkNN "ns1" "gw2" in
  let c := (put demo_cache gw2 (mkEntry ["10.0.0.2"] [demo_row] gw2)).1 in
  let c := (cache_delete c gw2).1 in
  (exists e, get c demo_gw = Some e /\ demo_row ∈ AdmissionRows e) /\
  rootGatewayForCachedListenerSet c (mkNN "ns1" "ls1") = None.
Proof.
  cbn zeta. split; [|vm_compute; reflexivity]. exists demo_entry. split; [vm_compute; reflexivity|].
  apply list_elem_of_here.
Qed.
