(* ===== verification/PolicyTree.v ===== *)
(** * pkg/nsx/services/common/policy_tree.go: hierarchical API requests

    Resources are sent to NSX as one tree that follows their policy paths:
    each path is parsed into a chain of nodes, the chains are merged under a
    root, and the tree is turned into nested data values. Batches of resources
    are sent page by page.

    [data.StructValue] and its converter belong to the NSX SDK: they are a type
    class. A Go map of children is an association list, whose order stands for
    the order of iteration. *)
From S2P Require Import Prelude GoStrings Errors.

(** ** Policy resources *)
Inductive model_kind :=
  | DnsRecord | VpcIpAddressAllocation | VpcSubnet | VpcSubnetPort | SubnetConnectionBindingMap
  | Vpc | StaticRoutes | SecurityPolicy | Group | Rule | Share | LBService | LBVirtualServer
  | LBPool | TlsCertificate | SharedResource | Domain | DynamicIpAddressReservation
  | StaticIpAddressReservation | OtherModel.
#[global] Instance model_kind_eq_dec : EqDecision model_kind.
Proof. solve_decision. Defined.

(** The fields of a model object this file reads. *)
Record resource := mkResource {
  rs_kind : model_kind; rs_Path : option string; rs_Id : option string; rs_DisplayName : option string }.

Definition getNSXResourcePath (v : resource) : option string :=
  match rs_kind v with OtherModel => None | _ => rs_Path v end.
Definition getNSXResourceId (v : resource) : option string :=
  match rs_kind v with OtherModel => None | _ => rs_Id v end.
Definition getNSXResourceName (v : resource) : option string :=
  match rs_kind v with OtherModel => None | _ => rs_DisplayName v end.

(** The SDK's converter ([NewConverter().ConvertToVapi]) on a reference to a
    child and on a model object wrapped as a child, and [%v]. *)
Class Converter (SV : Type) := {
  ConvertReference : string -> string -> list (option SV) -> result goerr SV;
  ConvertLeaf : resource -> result goerr SV;
  fmt_resource : resource -> string }.

Definition leafWrapper {SV} `{!Converter SV} (v : resource) : result goerr SV :=
  match rs_kind v with
  | SharedResource | OtherModel => Err (EText ("unsupported NSX resource type " +:+ fmt_resource v))
  | _ => ConvertLeaf v
  end.
Definition WrapChildResourceReference {SV} `{!Converter SV}
    (targetType id : string) (children : list (option SV)) : result goerr (list (option SV)) :=
  match ConvertReference targetType id children with
  | Err e => Err e
  | Ok v => Ok [Some v]
  end.

Record PolicyResourceType := mkPRT { ModelKey : string; PathKey : string }.
#[global] Instance PolicyResourceType_eq_dec : EqDecision PolicyResourceType.
Proof. solve_decision. Defined.
Definition PolicyResourcePath := list PolicyResourceType.

Definition ResourceTypeInfra := "Infra".
Definition ResourceTypeOrgRoot := "OrgRoot".
Definition PolicyResourceInfra := mkPRT ResourceTypeInfra "infra".
Definition PolicyResourceOrg := mkPRT "Org" "orgs".
Definition PolicyResourceProject := mkPRT "Project" "projects".
Definition PolicyResourceVpc := mkPRT "Vpc" "vpcs".
Definition PolicyResourceStaticRoutes := mkPRT "StaticRoutes" "static-routes".
Definition PolicyResourceVpcSubnet := mkPRT "VpcSubnet" "subnets".
Definition PolicyResourceVpcSubnetPort := mkPRT "VpcSubnetPort" "ports".
Definition PolicyResourceVpcSubnetConnectionBindingMap :=
  mkPRT "SubnetConnectionBindingMap" "subnet-connection-binding-maps".
Definition PolicyResourceVpcLBService := mkPRT "LBService" "vpc-lbs".
Definition PolicyResourceVpcLBPool := mkPRT "LBPool" "vpc-lb-pools".
Definition PolicyResourceVpcLBVirtualServer := mkPRT "LBVirtualServer" "vpc-lb-virtual-servers".
Definition PolicyResourceInfraLBService := mkPRT "LBService" "lb-services".
Definition PolicyResourceInfraLBPool := mkPRT "LBPool" "lb-pools".
Definition PolicyResourceInfraLBVirtualServer := mkPRT "LBVirtualServer" "lb-virtual-servers".
Definition PolicyResourceVpcIPAddressAllocation := mkPRT "VpcIpAddressAllocation" "ip-address-allocations".
Definition PolicyResourceDnsRecord := mkPRT "DnsRecord" "dns-records".
Definition PolicyResourceDomain := mkPRT "Domain" "domains".
Definition PolicyResourceShare := mkPRT "Share" "shares".
Definition PolicyResourceSharedResource := mkPRT "SharedResource" "resources".
Definition PolicyResourceGroup := mkPRT "Group" "groups".
Definition PolicyResourceRule := mkPRT "Rule" "rules".
Definition PolicyResourceSecurityPolicy := mkPRT "SecurityPolicy" "security-policies".
Definition PolicyResourceTlsCertificate := mkPRT "TlsCertificate" "certificates".
Definition PolicyResourceVpcDynamicIPReservation := mkPRT "DynamicIpAddressReservation" "dynamic-ip-reservations".
Definition PolicyResourceVpcStaticIPReservation := mkPRT "StaticIpAddressReservation" "static-ip-reservations".

(** The hierarchies of the operator's resources. *)
Definition org_project := [PolicyResourceOrg; PolicyResourceProject].
Definition org_vpc := org_project ++ [PolicyResourceVpc].
Definition PolicyPathInfraSharedResource : PolicyResourcePath :=
  [PolicyResourceInfra; PolicyResourceShare; PolicyResourceSharedResource].
Definition PolicyPathVpcSubnet : PolicyResourcePath := org_vpc ++ [PolicyResourceVpcSubnet].
Definition PolicyPathProjectGroup : PolicyResourcePath :=
  org_project ++ [PolicyResourceInfra; PolicyResourceDomain; PolicyResourceGroup].
Definition PolicyPaths : list PolicyResourcePath :=
  [ PolicyPathVpcSubnet;
    org_vpc ++ [PolicyResourceVpcSubnet; PolicyResourceVpcSubnetConnectionBindingMap];
    org_vpc ++ [PolicyResourceVpcSubnet; PolicyResourceVpcSubnetPort];
    org_vpc ++ [PolicyResourceVpcLBPool];
    org_vpc ++ [PolicyResourceVpcLBService];
    org_vpc ++ [PolicyResourceVpcLBVirtualServer];
    org_vpc ++ [PolicyResourceVpcIPAddressAllocation];
    org_vpc ++ [PolicyResourceSecurityPolicy];
    org_vpc ++ [PolicyResourceStaticRoutes];
    org_vpc ++ [PolicyResourceSecurityPolicy; PolicyResourceRule];
    org_vpc ++ [PolicyResourceGroup];
    PolicyPathProjectGroup;
    org_project ++ [PolicyResourceInfra; PolicyResourceShare];
    [PolicyResourceInfra; PolicyResourceDomain; PolicyResourceGroup];
    [PolicyResourceInfra; PolicyResourceShare];
    PolicyPathInfraSharedResource;
    [PolicyResourceInfra; PolicyResourceTlsCertificate];
    [PolicyResourceInfra; PolicyResourceInfraLBVirtualServer];
    [PolicyResourceInfra; PolicyResourceInfraLBPool];
    [PolicyResourceInfra; PolicyResourceInfraLBService];
    [PolicyResourceInfra; PolicyResourceDomain];
    org_vpc ++ [PolicyResourceVpcSubnet; PolicyResourceVpcDynamicIPReservation];
    org_vpc ++ [PolicyResourceVpcSubnet; PolicyResourceVpcStaticIPReservation];
    org_project ++ [PolicyResourceDnsRecord] ].

(** The methods of [PolicyResourcePath]; [None] is the panic on an empty path. *)
Definition path_String (p : PolicyResourcePath) : string := join "-" (map ModelKey p).
Definition getChildrenResources (p : PolicyResourcePath) : option PolicyResourcePath :=
  r ← head p; Some (if decide (r = PolicyResourceInfra) then tail p else p).
Definition getKVPathFormat (p : PolicyResourcePath) : option (list string) :=
  map PathKey <$> getChildrenResources p.
Definition getChildrenModelFormat (p : PolicyResourcePath) : option (list string) :=
  map ModelKey <$> getChildrenResources p.
Definition getRootType (p : PolicyResourcePath) : option string :=
  r ← head p; Some (if decide (r = PolicyResourceOrg) then ResourceTypeOrgRoot else ResourceTypeInfra).

(** ** The tree *)
Record hNodeKey := mkKey { resType : string; resID : string }.
#[global] Instance hNodeKey_eq_dec : EqDecision hNodeKey.
Proof. solve_decision. Defined.
#[global] Program Instance hNodeKey_countable : Countable hNodeKey :=
  inj_countable' (fun k => (resType k, resID k)) (fun p => mkKey p.1 p.2) _.
Next Obligation. by intros []. Qed.

Inductive hNode (SV : Type) :=
  mkNode { key : hNodeKey; leafData : option SV; childNodes : list (hNodeKey * hNode SV) }.
Arguments mkNode {SV} _ _ _.
Arguments key {SV} _.
Arguments leafData {SV} _.
Arguments childNodes {SV} _.

Section Tree.
Context {SV : Type}.

(** [n.childNodes[k]] and [n.childNodes[k] = c]. *)
Fixpoint find_child (k : hNodeKey) (l : list (hNodeKey * hNode SV)) : option (hNode SV) :=
  match l with
  | [] => None
  | (k', c) :: l' => if decide (k' = k) then Some c else find_child k l'
  end.
Fixpoint set_child (k : hNodeKey) (c : hNode SV) (l : list (hNodeKey * hNode SV))
  : list (hNodeKey * hNode SV) :=
  match l with
  | [] => [(k, c)]
  | (k', c') :: l' => if decide (k' = k) then (k, c) :: l' else (k', c') :: set_child k c l'
  end.
Definition with_child (n : hNode SV) (k : hNodeKey) (c : hNode SV) : hNode SV :=
  mkNode (key n) (leafData n) (set_child k c (childNodes n)).

(** [n.mergeChildNode(node, leafType)]; the mutated [n] is the result. *)
Fixpoint mergeChildNode (leafType : string) (n node : hNode SV) {struct node} : hNode SV :=
  if decide (resType (key node) = leafType) then with_child n (key node) node
  else match find_child (key node) (childNodes n) with
       | Some cn =>
           with_child n (key node)
             ((fix go (cn : hNode SV) (l : list (hNodeKey * hNode SV)) : hNode SV :=
                 match l with
                 | [] => cn
                 | (_, chN) :: l' => go (mergeChildNode leafType cn chN) l'
                 end) cn (childNodes node))
       | None => with_child n (key node) node
       end.

Context `{!Converter SV}.

(** [n.buildTree(rootType, leafType)] *)
Fixpoint node_buildTree (rootType leafType : string) (n : hNode SV) : result goerr (list (option SV)) :=
  if decide (resType (key n) = leafType) then Ok [leafData n]
  else
    let children :=
      (fix go (l : list (hNodeKey * hNode SV)) : result goerr (list (option SV)) :=
         match l with
         | [] => Ok []
         | (_, cn) :: l' =>
             match node_buildTree rootType leafType cn with
             | Err e => Err e
             | Ok vs => match go l' with Err e => Err e | Ok ws => Ok (vs ++ ws) end
             end
         end) (childNodes n) in
    match children with
    | Err e => Err e
    | Ok children =>
        if decide (resType (key n) = rootType) then Ok children
        else WrapChildResourceReference (resType (key n)) (resID (key n)) children
    end.
End Tree.

(** ** The builder *)
Record PolicyTreeBuilder (T SV : Type) := mkBuilder {
  leafType : string; rootType : string;
  b_leafWrapper : T -> result goerr SV;
  pathGetter : T -> option string;
  idGetter : T -> option string;
  pathFormat : list string; modelFormat : list string; hasInnerInfra : bool }.
Arguments leafType {T SV} _.
Arguments rootType {T SV} _.
Arguments b_leafWrapper {T SV} _ _.
Arguments pathGetter {T SV} _ _.
Arguments idGetter {T SV} _ _.
Arguments pathFormat {T SV} _.
Arguments modelFormat {T SV} _.
Arguments hasInnerInfra {T SV} _.

(** [NewPolicyTreeBuilder]; [None] is the panic on the path [[infra]]. *)
Definition NewPolicyTreeBuilder {SV} `{!Converter SV} (p : PolicyResourcePath)
  : option (result goerr (PolicyTreeBuilder resource SV)) :=
  if bool_decide (p = []) then Some (Err (EText ("invalid PolicyResourcePath: " +:+ path_String p)))
  else
    models ← getChildrenModelFormat p;
    root ← getRootType p;
    paths ← getKVPathFormat p;
    leaf ← last models;
    Some (Ok (mkBuilder _ _ leaf root leafWrapper getNSXResourcePath getNSXResourceId
                paths models (bool_decide (PathKey PolicyResourceInfra ∈ paths)))).

Section Builder.
Context {T SV : Type}.

(** [s[i]]; [None] is the panic. *)
Definition index (s : list string) (i : Z) : option string :=
  if bool_decide (0 <= i) then s !! Z.to_nat i else None.

Definition parsePathSegments (b : PolicyTreeBuilder T SV) (inputPath : string)
  : option (result goerr (list string)) :=
  let pathSegments := split_on "/" (trim_byte "/" inputPath) in
  let pathSegments :=
    if decide (rootType b = ResourceTypeInfra) then tail pathSegments else pathSegments in
  let segmentsCount := Z.of_nat (length pathSegments) in
  leafPathKey ← last (pathFormat b);
  let bad := EText ("invalid input path " +:+ inputPath +:+ " for resource " +:+ leafType b) in
  if bool_decide (segmentsCount < 2) then Some (Err bad)
  else
    k ← index pathSegments (segmentsCount - 2);
    if bool_decide (k <> leafPathKey) then Some (Err bad)
    else
      let segmentsCount := if hasInnerInfra b then segmentsCount + 1 else segmentsCount in
      if bool_decide (segmentsCount <> Z.of_nat (length (pathFormat b)) * 2)
      then Some (Err (EText ("invalid input path: " +:+ inputPath)))
      else Some (Ok pathSegments).

(** The nodes above [child], for the resource types from the innermost one. *)
Fixpoint parent_nodes (types : list string) (pathSegments : list string) (idx : Z) (child : hNode SV)
  : option (hNode SV) :=
  match types with
  | [] => Some child
  | resType :: types' =>
      if decide (resType <> ResourceTypeInfra) then
        resID ← index pathSegments idx;
        parent_nodes types' pathSegments (idx - 2)
          (mkNode (mkKey resType resID) None [(key child, child)])
      else
        parent_nodes types' pathSegments (idx - 1)
          (mkNode (mkKey resType "") None [(key child, child)])
  end.
Definition buildHNodeFromResource (b : PolicyTreeBuilder T SV) (path : string) (res : T)
  : option (result goerr (hNode SV)) :=
  parsed ← parsePathSegments b path;
  match parsed with
  | Err e => Some (Err e)
  | Ok pathSegments =>
      match b_leafWrapper b res with
      | Err e => Some (Err e)
      | Ok dataValue =>
          let idx := Z.of_nat (length pathSegments) - 1 in
          resID ← index pathSegments idx;
          resType ← last (modelFormat b);
          let leaf := mkNode (mkKey resType resID) (Some dataValue) [] in
          n ← parent_nodes (tail (reverse (modelFormat b))) pathSegments (idx - 2) leaf;
          Some (Ok n)
      end
  end.

(** One turn of the loop of [BuildRootNode]; resources that cannot be placed
    are skipped. *)
Definition root_step (b : PolicyTreeBuilder T SV) (parentPath : string) (root : hNode SV) (res : T)
  : option (hNode SV) :=
  leafPathKey ← last (pathFormat b);
  path ← (if bool_decide (parentPath <> "") then
            idValue ← idGetter b res;
            Some (Some (parentPath +:+ "/" +:+ leafPathKey +:+ "/" +:+ idValue))
          else Some (pathGetter b res));
  match path with
  | None => Some root
  | Some path =>
      orgNode ← buildHNodeFromResource b path res;
      match orgNode with
      | Err _ => Some root
      | Ok orgNode => Some (mergeChildNode (leafType b) root orgNode)
      end
  end.
Definition BuildRootNode (b : PolicyTreeBuilder T SV) (resources : list T) (parentPath : string)
  : option (hNode SV) :=
  foldl (fun acc res => root ← acc; root_step b parentPath root res)
    (Some (mkNode (mkKey (rootType b) "") None [])) resources.

Context `{!Converter SV}.

Definition buildTree (b : PolicyTreeBuilder T SV) (resources : list T) (parentPath : string)
  : option (result goerr (list (option SV))) :=
  rootNode ← BuildRootNode b resources parentPath;
  Some (node_buildTree (rootType b) (leafType b) rootNode).

(** [model.OrgRoot] and [model.Infra]: their type and their children. *)
Definition BuildOrgRoot b resources parentPath : option (result goerr (string * list (option SV))) :=
  r ← buildTree b resources parentPath;
  Some (match r with Err e => Err e | Ok children => Ok (ResourceTypeOrgRoot, children) end).
Definition BuildInfra b resources parentPath : option (result goerr (string * list (option SV))) :=
  r ← buildTree b resources parentPath;
  Some (match r with Err e => Err e | Ok children => Ok (ResourceTypeInfra, children) end).

(** *** Sending *)

(** [OrgRootClient.Patch] and [InfraClient.Patch]. *)
Context {N : Type} (Patch : string * list (option SV) -> N -> option goerr * N).

Definition UpdateMultipleResourcesOnNSX (b : PolicyTreeBuilder T SV) (objects : list T) (nsx : N)
  : option (option goerr * N) :=
  match objects with
  | [] => Some (None, nsx)
  | _ =>
      root ← (if decide (rootType b = ResourceTypeOrgRoot) then BuildOrgRoot b objects ""
              else BuildInfra b objects "");
      match root with
      | Err e => Some (Some e, nsx)
      | Ok root =>
          let '(err, nsx) := Patch root nsx in
          Some (TransNSXApiError err, nsx)
      end
  end.
End Builder.

(** ** Pages *)
Section Pages.
Context {T : Type}.

(** [l[start:end]]; [None] is the panic. *)
Definition slice (l : list T) (start stop : Z) : option (list T) :=
  if bool_decide (0 <= start <= stop) && bool_decide (stop <= Z.of_nat (length l))
  then Some (take (Z.to_nat (stop - start)) (drop (Z.to_nat start) l)) else None.
Definition page (resources : list T) (pageSize i : Z) : option (list T) :=
  let totalCount := Z.of_nat (length resources) in
  let start := (i - 1) * pageSize in
  let stop := start + pageSize in
  slice resources start (if bool_decide (totalCount < stop) then totalCount else stop).
Definition PagingNSXResources (resources : list T) (pageSize : Z) : option (list (list T)) :=
  if bool_decide (pageSize = 0) then None
  else
    let pages := Z.quot (Z.of_nat (length resources) + pageSize - 1) pageSize in
    if bool_decide (pages < 0) then None
    else mapM (page resources pageSize) (seqZ 1 pages).

Context {N C : Type} (update : list T -> N -> option (option goerr * N)).
(** Is the context done when a batch starts, and its error. *)
Context (done_at : nat -> bool) (ctx_err : goerr).
(** [updateObjectsFromStoreFn], [None] for nil. *)
Context (updateObjectsFromStoreFn : option (list T -> C -> C)).

Definition TimeoutFailed : goerr := EStatus 5 "failed because of timeout".

Fixpoint run_batches (batchIdx : nat) (pages : list (list T)) (nsxErr : option goerr) (nsx : N) (c : C)
  : option (option goerr * N * C) :=
  match pages with
  | [] => Some (nsxErr, nsx, c)
  | partialObjs :: pages' =>
      if done_at batchIdx then Some (Some (EJoin TimeoutFailed ctx_err), nsx, c)
      else
        r ← update partialObjs nsx;
        match r with
        | (None, nsx) =>
            run_batches (Datatypes.S batchIdx) pages' nsxErr nsx
              (match updateObjectsFromStoreFn with Some f => f partialObjs c | None => c end)
        | (Some e, nsx) => run_batches (Datatypes.S batchIdx) pages' (Some e) nsx c
        end
  end.
Definition PagingUpdateResources (objs : list T) (pageSize : Z) (nsx : N) (c : C)
  : option (option goerr * N * C) :=
  match objs with
  | [] => Some (None, nsx, c)
  | _ => pagedObjs ← PagingNSXResources objs pageSize; run_batches 0 pagedObjs None nsx c
  end.
End Pages.

(** ** Facts on the tree *)
Section Facts.
Context {SV : Type}.
Implicit Types (n c : hNode SV) (l : list (hNodeKey * hNode SV)) (k : hNodeKey).

Lemma find_set_child k k' c l :
  find_child k (set_child k' c l) = if decide (k = k') then Some c else find_child k l.
Proof. induction l as [|[k1 c1] l IH]; simpl; repeat (case_decide; simplify_eq/=; try done). Qed.
Lemma elem_of_set_child k k' c c' l :
  NoDup l.*1 -> (k', c') ∈ set_child k c l -> (k' = k /\ c' = c) \/ (k' <> k /\ (k', c') ∈ l).
Proof.
  induction l as [|[k1 c1] l IH]; simpl; [by intros _ [= -> ->]%list_elem_of_singleton; left|].
  intros [Hk Hnd]%NoDup_cons. case_decide as Hd.
  - subst k1. intros [[= -> ->]|Hin]%elem_of_cons; [by left|]. right. split; [|by right].
    intros ->. apply Hk. by apply (list_elem_of_fmap_2 fst _ (k, c')).
  - intros [[= -> ->]|Hin]%elem_of_cons; [right; split; [done|left]|].
    destruct (IH Hnd Hin) as [?|[? ?]]; [by left|right; split; [done|by right]].
Qed.
Lemma set_child_keys k c l k' : k' ∈ (set_child k c l).*1 <-> k' = k \/ k' ∈ l.*1.
Proof.
  induction l as [|[k1 c1] l IH]; simpl; [rewrite list_elem_of_singleton; set_solver|].
  case_decide; simpl; rewrite ?elem_of_cons, ?IH; naive_solver.
Qed.
Lemma NoDup_set_child k c l : NoDup l.*1 -> NoDup (set_child k c l).*1.
Proof.
  induction l as [|[k1 c1] l IH]; simpl; [intros; apply NoDup_singleton|].
  intros [Hk Hnd]%NoDup_cons. case_decide as Hd; simpl; apply NoDup_cons; [by subst|].
  split; [|auto]. by rewrite set_child_keys; intros [->|?].
Qed.
Lemma elem_of_find_child k c l : NoDup l.*1 -> (k, c) ∈ l <-> find_child k l = Some c.
Proof.
  induction l as [|[k1 c1] l IH]; simpl; [split; [by intros ?%elem_of_nil|done]|].
  intros [Hk Hnd]%NoDup_cons. rewrite elem_of_cons, IH by done. case_decide as Hd.
  - subst k1. split; [|naive_solver]. intros [[= ->]|Hf]; [done|]. destruct Hk.
    apply (list_elem_of_fmap_2 fst _ (k, c)). by apply IH.
  - split; [|auto]. intros [[= -> ->]|?]; done.
Qed.

(** The data at the end of a path of keys. *)
Fixpoint lookup_path n (p : list hNodeKey) : option SV :=
  match p with
  | [] => leafData n
  | k :: p' => match find_child k (childNodes n) with Some c => lookup_path c p' | None => None end
  end.

(** A tree whose levels have the given types, with data at the last level only. *)
Inductive wf_tree : list string -> hNode SV -> Prop :=
  | wf_leaf k v : wf_tree [] (mkNode k (Some v) [])
  | wf_inner t ts k l :
      NoDup l.*1 ->
      (forall k' c, (k', c) ∈ l -> key c = k' /\ resType k' = t /\ wf_tree ts c) ->
      wf_tree (t :: ts) (mkNode k None l).

(** The chain of nodes of one resource. *)
Fixpoint chain_node k (p : list hNodeKey) (v : SV) : hNode SV :=
  match p with
  | [] => mkNode k (Some v) []
  | k' :: p' => mkNode k None [(k', chain_node k' p' v)]
  end.
Lemma key_chain_node k p v : key (chain_node k p v) = k.
Proof. by destruct p. Qed.
Lemma wf_chain_node k p v : wf_tree (map resType p) (chain_node k p v).
Proof.
  revert k; induction p as [|k' p IH]; intros k; simpl; constructor; [apply NoDup_singleton|].
  intros k1 c [= -> ->]%list_elem_of_singleton. by rewrite key_chain_node.
Qed.
Lemma lookup_chain_node k p v q : lookup_path (chain_node k p v) q = if decide (q = p) then Some v else None.
Proof.
  revert k q; induction p as [|k' p IH]; intros k [|k1 q]; simpl; try done.
  case_decide as Hk; [subst; rewrite IH|]; repeat case_decide; naive_solver.
Qed.

Lemma wf_with_child t ts n k c :
  wf_tree (t :: ts) n -> key c = k -> resType k = t -> wf_tree ts c ->
  wf_tree (t :: ts) (with_child n k c).
Proof.
  intros Hwf Hk Ht Hc. inversion Hwf as [|? ? kn l Hnd Hch]; subst. unfold with_child; simpl.
  constructor; [by apply NoDup_set_child|].
  intros k1 c1 [[-> ->]|[? ?]]%elem_of_set_child; auto.
Qed.
Lemma lookup_with_child n k c p v :
  (forall q, lookup_path c q = if decide (q = p) then Some v else lookup_path n (k :: q)) ->
  forall q, lookup_path (with_child n k c) q = if decide (q = k :: p) then Some v else lookup_path n q.
Proof.
  intros Hc [|k1 q]; simpl; [done|]. rewrite find_set_child. case_decide as Hk.
  - subst k1. rewrite Hc. simpl. repeat case_decide; naive_solver.
  - rewrite decide_False; naive_solver.
Qed.

(** Merging the chain of one resource is a write at its path. *)
Lemma merge_chain leafT t ts n k p v :
  NoDup (t :: ts) -> last (t :: ts) = Some leafT -> wf_tree (t :: ts) n ->
  map resType (k :: p) = t :: ts ->
  wf_tree (t :: ts) (mergeChildNode leafT n (chain_node k p v)) /\
  key (mergeChildNode leafT n (chain_node k p v)) = key n /\
  forall q, lookup_path (mergeChildNode leafT n (chain_node k p v)) q =
            if decide (q = k :: p) then Some v else lookup_path n q.
Proof.
  revert t n k p; induction ts as [|t' ts IH]; intros t n k p Hnd Hl Hwf [= Ht Hp];
    destruct p as [|k' p]; try discriminate.
  - injection Hl as <-. simpl. rewrite decide_True by done.
    split_and!; [apply wf_with_child; [done..|constructor]|done|].
    apply lookup_with_child. inversion Hwf as [|? ? kn l Hndl Hch]; subst.
    intros [|k1 q]; simpl; [done|].
    destruct (find_child k l) as [c|] eqn:Ef; [|done].
    apply elem_of_find_child, Hch in Ef as (_ & _ & Hc); [|done]. by inversion Hc.
  - injection Hp as Ht' Hp. apply NoDup_cons in Hnd as [Hni Hnd].
    assert (Hne : resType k <> leafT).
    { intros Heq. apply Hni. rewrite <- Ht, Heq. by apply last_Some_elem_of. }
    simpl. rewrite decide_False by done.
    destruct (find_child k (childNodes n)) as [cn|] eqn:Ef.
    + inversion Hwf as [|? ? kn l Hndl Hch]; subst. simpl in Ef.
      pose proof Ef as (Hk & _ & Hc)%(elem_of_find_child k cn l Hndl)%Hch.
      destruct (IH (resType k') cn k' p) as (Hw & Hkey & Hlook); [done..|].
      split_and!; [apply wf_with_child; [done|by rewrite Hkey|done..]|done|].
      apply lookup_with_child. intros q. simpl. by rewrite Hlook, Ef.
    + split_and!; [|done|].
      * apply wf_with_child; [done..|]. rewrite <- Ht', <- Hp. apply (wf_chain_node k (k' :: p)).
      * apply lookup_with_child. intros q. simpl. rewrite Ef. apply (lookup_chain_node k (k' :: p)).
Qed.
End Facts.

(** ** What NSX receives *)

(** The converter's laws: a reference decodes to what was converted; a model
    object is not a reference. *)
Class ConverterLaws (SV : Type) `{!Converter SV} := {
  reference_of : SV -> option (string * string * list (option SV));
  reference_of_reference : forall t i ch v,
    ConvertReference t i ch = Ok v -> reference_of v = Some (t, i, ch);
  reference_of_leaf : forall r v, ConvertLeaf r = Ok v -> reference_of v = None }.

Section Sent.
Context {SV : Type} `{!Converter SV, !ConverterLaws SV}.
Implicit Types (vs ws : list (option SV)) (n c : hNode SV).

(** [sent vs q v]: the request [vs] holds the object [v] under the references
    [q] (types and identifiers, outermost first). *)
Inductive sent : list (option SV) -> list (string * string) -> SV -> Prop :=
  | sent_here vs v : Some v ∈ vs -> reference_of v = None -> sent vs [] v
  | sent_under vs x t i ch q v :
      Some x ∈ vs -> reference_of x = Some (t, i, ch) -> sent ch q v -> sent vs ((t, i) :: q) v.

Ltac invert_sent :=
  inversion 1; subst; repeat match goal with
  | H : Some _ ∈ _ ++ _ |- _ => apply elem_of_app in H as [?|?]
  | H : Some _ ∈ [] |- _ => by apply elem_of_nil in H
  | H : Some _ ∈ [_] |- _ => apply list_elem_of_singleton in H
  end; simplify_eq.
Lemma sent_app vs ws q v : sent (vs ++ ws) q v <-> sent vs q v \/ sent ws q v.
Proof.
  split; [invert_sent; eauto using sent_here, sent_under|].
  intros [Hs|Hs]; inversion Hs; subst; econstructor; eauto; apply elem_of_app; auto.
Qed.
Lemma sent_nil q v : ~ sent [] q v.
Proof. invert_sent. Qed.
Lemma sent_leaf x q v : reference_of x = None -> sent [Some x] q v <-> q = [] /\ v = x.
Proof.
  intros Hx. split; [invert_sent; done|intros [-> ->]; by constructor; [apply list_elem_of_singleton|]].
Qed.
Lemma sent_reference x t i ch q v :
  reference_of x = Some (t, i, ch) -> sent [Some x] q v <-> exists q', q = (t, i) :: q' /\ sent ch q' v.
Proof.
  intros Hx. split; [invert_sent; eauto|].
  intros (q' & -> & Hs). econstructor; eauto. by apply list_elem_of_singleton.
Qed.

(** The loop of [buildTree] over the children. *)
Fixpoint build_children (f : hNode SV -> result goerr (list (option SV))) (l : list (hNodeKey * hNode SV))
  : result goerr (list (option SV)) :=
  match l with
  | [] => Ok []
  | (_, cn) :: l' =>
      match f cn with
      | Err e => Err e
      | Ok vs => match build_children f l' with Err e => Err e | Ok ws => Ok (vs ++ ws) end
      end
  end.
Lemma node_buildTree_eq rootT leafT k d l :
  node_buildTree rootT leafT (mkNode k d l) =
  if decide (resType k = leafT) then Ok [d]
  else match build_children (node_buildTree rootT leafT) l with
       | Err e => Err e
       | Ok ch => if decide (resType k = rootT) then Ok ch
                  else WrapChildResourceReference (resType k) (resID k) ch
       end.
Proof.
  simpl. destruct (decide _) as [|_]; [done|].
  assert (Hgo : (fix go (l0 : list (hNodeKey * hNode SV)) : result goerr (list (option SV)) :=
       match l0 with
       | [] => Ok []
       | (_, cn) :: l' =>
           match node_buildTree rootT leafT cn with
           | Ok vs => match go l' with Ok ws => Ok (vs ++ ws) | Err e => Err e end
           | Err e => Err e
           end
       end) l = build_children (node_buildTree rootT leafT) l).
  { induction l as [|[k' c] l IH]; [done|]. simpl. by rewrite IH. }
  by rewrite Hgo.
Qed.
Lemma sent_children f l vs (P : hNodeKey -> hNode SV -> list (string * string) -> SV -> Prop) :
  (forall k c ws, (k, c) ∈ l -> f c = Ok ws -> forall q v, sent ws q v <-> P k c q v) ->
  build_children f l = Ok vs ->
  forall q v, sent vs q v <-> exists k c, (k, c) ∈ l /\ P k c q v.
Proof.
  revert vs; induction l as [|[k c] l IH]; intros vs Hf; simpl.
  - intros [= <-] q v. split; [by intros ?%sent_nil|by intros (? & ? & ?%elem_of_nil & _)].
  - destruct (f c) as [ws|] eqn:Efc; [|done]. destruct (build_children f l) as [ws'|] eqn:El; [|done].
    intros [= <-] q v. rewrite sent_app, (Hf k c ws), (IH ws'); [|set_solver|done|set_solver|done].
    split.
    + intros [?|(k' & c' & ? & ?)]; [exists k, c|exists k', c']; split; try done; [left|by right].
    + intros (k' & c' & [[= -> ->]|?]%elem_of_cons & ?); [by left|right; eauto].
Qed.

Definition to_pair (k : hNodeKey) : string * string := (resType k, resID k).
Definition data_ok n : Prop := forall p v, lookup_path n p = Some v -> reference_of v = None.
Lemma data_ok_child k d l k' c :
  NoDup l.*1 -> data_ok (mkNode k d l) -> (k', c) ∈ l -> data_ok c.
Proof.
  intros Hnd Hok Hin p v Hp. apply (Hok (k' :: p)). simpl.
  apply elem_of_find_child in Hin as ->; done.
Qed.

(** The subtree of one child, seen from its parent. *)
Lemma node_buildTree_sent rootT leafT ts c vs :
  wf_tree ts c -> data_ok c -> NoDup (resType (key c) :: ts) ->
  last (resType (key c) :: ts) = Some leafT -> rootT ∉ resType (key c) :: ts ->
  node_buildTree rootT leafT c = Ok vs ->
  forall q v, sent vs q v <->
    exists p, lookup_path c p = Some v /\ q = map to_pair (take (length p) (key c :: p)).
Proof.
  revert c vs; induction ts as [|t ts IH]; intros c vs Hwf Hok Hnd Hl Hroot;
    inversion Hwf as [k x|? ? k l Hndl Hch]; subst; simpl in Hl, Hnd, Hroot.
  - injection Hl as <-. rewrite node_buildTree_eq, decide_True by done. intros [= <-] q v.
    rewrite sent_leaf by (by apply (Hok [])). split.
    + intros [-> ->]. exists []. done.
    + intros (p & Hp & ->). destruct p; simpl in Hp; [by simplify_eq|done].
  - apply not_elem_of_cons in Hroot as [Hr1 Hroot]. apply NoDup_cons in Hnd as [Hni Hnd].
    rewrite node_buildTree_eq, decide_False; [|intros Heq; apply Hni; rewrite Heq; by apply last_Some_elem_of].
    destruct (build_children _ l) as [ch|] eqn:Ech; [|done]. rewrite decide_False by done.
    unfold WrapChildResourceReference. destruct (ConvertReference _ _ _) as [x|] eqn:Ex; [|done].
    intros [= <-] q v. rewrite sent_reference by (by apply reference_of_reference).
    setoid_rewrite (sent_children (node_buildTree rootT leafT) l ch (fun _ c q v =>
      exists p, lookup_path c p = Some v /\ q = map to_pair (take (length p) (key c :: p)))); [|clear q v ch Ech Ex x|done].
    + split.
      * intros (q' & -> & k' & c & Hin & p & Hp & ->). exists (k' :: p). simpl.
        destruct (Hch _ _ Hin) as (Hkey & _ & _).
        apply elem_of_find_child in Hin as ->; [|done]. by rewrite Hp, Hkey.
      * intros (p & Hp & ->). destruct p as [|k' p]; [done|]. simpl in *.
        destruct (find_child k' l) as [c|] eqn:Ef; [|done]. eexists; split; [done|].
        apply elem_of_find_child in Ef; [|done]. destruct (Hch _ _ Ef) as (Hkey & _ & _).
        exists k', c. split; [done|]. exists p. by rewrite Hkey.
    + intros k' c ws Hin Hws. destruct (Hch _ _ Hin) as (Hkey & Ht & Hc).
      apply IH; rewrite ?Hkey, ?Ht; auto. by eapply data_ok_child.
Qed.
(** The whole tree. *)
Lemma root_buildTree_sent rootT leafT ts n vs :
  wf_tree ts n -> data_ok n -> resType (key n) = rootT -> NoDup ts ->
  last ts = Some leafT -> rootT ∉ ts ->
  node_buildTree rootT leafT n = Ok vs ->
  forall q v, sent vs q v <->
    exists p, lookup_path n p = Some v /\ q = map to_pair (removelast p).
Proof.
  intros Hwf Hok Hk Hnd Hl Hroot. destruct ts as [|t ts]; [done|].
  inversion Hwf as [|? ? k l Hndl Hch]; subst. cbn [key] in *.
  rewrite node_buildTree_eq, decide_False; [|intros Heq; apply Hroot; rewrite Heq; by apply last_Some_elem_of].
  destruct (build_children _ l) as [ch|] eqn:Ech; [|done]. rewrite decide_True by done.
  intros [= <-] q v.
  rewrite (sent_children (node_buildTree (resType k) leafT) l ch (fun _ c q v =>
      exists p, lookup_path c p = Some v /\ q = map to_pair (take (length p) (key c :: p)))); [|clear q v ch Ech|done].
  - assert (Hrl : forall (k1 : hNodeKey) p, removelast (k1 :: p) = take (length p) (k1 :: p)).
    { intros k1 p. by rewrite removelast_firstn_len. }
    split.
    + intros (k' & c & Hin & p & Hp & ->). exists (k' :: p). rewrite Hrl.
      destruct (Hch _ _ Hin) as (Hkey & _ & _). simpl. rewrite Hkey in *.
      apply elem_of_find_child in Hin as ->; done.
    + intros (p & Hp & ->). destruct p as [|k' p]; [done|]. simpl in Hp.
      destruct (find_child k' l) as [c|] eqn:Ef; [|done].
      apply elem_of_find_child in Ef; [|done]. destruct (Hch _ _ Ef) as (Hkey & _ & _).
      exists k', c. split; [done|]. exists p. rewrite Hkey. by rewrite Hrl.
  - intros k' c ws Hin Hws. destruct (Hch _ _ Hin) as (Hkey & Ht & Hc).
    apply (node_buildTree_sent (resType k) leafT ts); rewrite ?Hkey, ?Ht; auto. by eapply data_ok_child.
Qed.
End Sent.

(** ** Paths *)
Definition seg_width (t : string) : nat := if decide (t = ResourceTypeInfra) then 1 else 2.
Definition width (fmt : list string) : nat := sum_list_with seg_width fmt.

(** The keys of a path, read from its first segment. *)
Fixpoint path_keys (fmt segs : list string) : list hNodeKey :=
  match fmt with
  | [] => []
  | t :: fmt' =>
      mkKey t (if decide (t = ResourceTypeInfra) then "" else default "" (segs !! 1%nat))
        :: path_keys fmt' (drop (seg_width t) segs)
  end.
Lemma path_keys_app fmt1 fmt2 segs :
  path_keys (fmt1 ++ fmt2) segs = path_keys fmt1 segs ++ path_keys fmt2 (drop (width fmt1) segs).
Proof.
  revert segs; induction fmt1 as [|t fmt1 IH]; intros segs; simpl; [done|].
  by rewrite IH, drop_drop.
Qed.
Lemma path_keys_types fmt segs : map resType (path_keys fmt segs) = fmt.
Proof. revert segs; induction fmt as [|t fmt IH]; intros segs; simpl; [done|]. by rewrite IH. Qed.

Section Paths.
Context {T SV : Type}.
Implicit Types (b : PolicyTreeBuilder T SV).

(** A builder whose formats agree: what [NewPolicyTreeBuilder] gives. *)
Record good_builder b : Prop := {
  good_leaf : exists fmt, modelFormat b = fmt ++ [leafType b];
  good_leaf_id : leafType b <> ResourceTypeInfra;
  good_types : NoDup (modelFormat b);
  good_root : rootType b ∉ modelFormat b;
  good_paths : pathFormat b <> [];
  good_width : (width (modelFormat b) + (if hasInnerInfra b then 1 else 0) = 2 * length (pathFormat b))%nat }.

(** The loop from the leaf to the root reads the same keys. *)
Lemma parent_nodes_keys fmt segs k p (v : SV) :
  (width fmt <= length segs)%nat ->
  exists k0 p0, path_keys fmt segs ++ k :: p = k0 :: p0 /\
    parent_nodes (reverse fmt) segs (Z.of_nat (width fmt) - 1) (chain_node k p v) = Some (chain_node k0 p0 v).
Proof.
  revert k p; induction fmt as [|t fmt IH] using rev_ind; intros k p Hw; [by exists k, p|].
  unfold width in *. rewrite sum_list_with_app in *. simpl in *.
  rewrite reverse_snoc, path_keys_app. simpl. rewrite key_chain_node. fold (width fmt) in *.
  unfold seg_width in *. destruct (decide (t = ResourceTypeInfra)) as [->|Ht].
  - rewrite decide_False by (intros H; by apply H).
    destruct (IH (mkKey ResourceTypeInfra "") (k :: p)) as (k0 & p0 & Hk & Hn); [lia|].
    exists k0, p0. rewrite <- app_assoc. split; [exact Hk|].
    rewrite <- Hn. f_equal. lia.
  - rewrite decide_True by done. unfold index. rewrite bool_decide_eq_true_2 by lia.
    assert (Hs : segs !! Z.to_nat (Z.of_nat (width fmt + (2 + 0)) - 1) = drop (width fmt) segs !! 1%nat).
    { rewrite lookup_drop. f_equal. lia. }
    rewrite Hs. destruct (lookup_lt_is_Some_2 (drop (width fmt) segs) 1) as [x Hx].
    { rewrite length_drop. lia. }
    rewrite Hx. simpl.
    destruct (IH (mkKey t x) (k :: p)) as (k0 & p0 & Hk & Hn); [lia|].
    exists k0, p0. rewrite <- app_assoc. split; [exact Hk|]. rewrite <- Hn. f_equal. lia.
Qed.

(** Where a resource goes: the keys of its path and its data. *)
Definition place b (path : string) (res : T) : option (list hNodeKey * SV) :=
  match parsePathSegments b path, b_leafWrapper b res with
  | Some (Ok segs), Ok v => Some (path_keys (modelFormat b) segs, v)
  | _, _ => None
  end.

Lemma parsePathSegments_total b path :
  good_builder b -> exists r, parsePathSegments b path = Some r /\
    forall segs, r = Ok segs -> length segs = width (modelFormat b).
Proof.
  intros Hb. pose proof (good_paths b Hb). pose proof (good_width b Hb).
  unfold parsePathSegments. set (segs := if decide (rootType b = ResourceTypeInfra) then _ else _).
  destruct (last (pathFormat b)) as [k|] eqn:El; [|by apply last_None in El]. simpl.
  case_bool_decide; [by eexists|]. unfold index at 1.
  rewrite (bool_decide_eq_true_2 (0 <= Z.of_nat (length segs) - 2)) by lia.
  destruct (lookup_lt_is_Some_2 segs (Z.to_nat (Z.of_nat (length segs) - 2))) as [x Hx]; [lia|].
  rewrite Hx. simpl. case_bool_decide; [by eexists|].
  case_bool_decide as Hc; eexists; (split; [done|]); [done|]. intros ? [= <-].
  destruct (hasInnerInfra b); lia.
Qed.

Lemma buildHNode_place b path res :
  good_builder b ->
  match place b path res with
  | None => exists e, buildHNodeFromResource b path res = Some (Err e)
  | Some (ks, v) => exists k p, ks = k :: p /\ map resType ks = modelFormat b /\
                     buildHNodeFromResource b path res = Some (Ok (chain_node k p v))
  end.
Proof.
  intros Hb. unfold place, buildHNodeFromResource.
  destruct (parsePathSegments_total b path Hb) as (r & -> & Hlen). simpl.
  destruct r as [segs|e]; [|by eexists]. destruct (b_leafWrapper b res) as [v|e]; [|by eexists].
  specialize (Hlen segs eq_refl). destruct (good_leaf b Hb) as [fmt Hf].
  rewrite path_keys_types. pose proof (good_leaf_id b Hb) as Hi. rewrite Hf in *.
  unfold width in Hlen. rewrite sum_list_with_app in Hlen. fold (width fmt) in Hlen.
  unfold seg_width in Hlen. simpl in Hlen. rewrite decide_False in Hlen by done.
  rewrite last_snoc, reverse_snoc, path_keys_app. simpl. unfold seg_width. rewrite (decide_False _ _ Hi).
  unfold index. rewrite bool_decide_eq_true_2 by lia.
  assert (Hs : segs !! Z.to_nat (Z.of_nat (length segs) - 1) = drop (width fmt) segs !! 1%nat).
  { rewrite lookup_drop. f_equal. lia. }
  rewrite Hs. destruct (lookup_lt_is_Some_2 (drop (width fmt) segs) 1) as [x Hx].
  { rewrite length_drop. lia. }
  rewrite Hx. simpl.
  destruct (parent_nodes_keys fmt segs (mkKey (leafType b) x) [] v) as (k0 & p0 & Hk & Hn); [lia|].
  exists k0, p0. split; [done|]. split; [done|].
  replace (Z.of_nat (length segs) - 1 - 2) with (Z.of_nat (width fmt) - 1) by lia.
  simpl in Hn. by rewrite Hn.
Qed.

(** The root node holds the last resource of every path. *)
Definition placements b (resources : list T) : list (list hNodeKey * SV) :=
  omap (fun res => path ← pathGetter b res; place b path res) resources.
Lemma BuildRootNode_spec b resources :
  good_builder b ->
  exists root, BuildRootNode b resources "" = Some root /\ wf_tree (modelFormat b) root /\
    key root = mkKey (rootType b) "" /\
    forall q, lookup_path root q = map_of_writes (placements b resources) !! q.
Proof.
  intros Hb. unfold BuildRootNode. destruct (good_leaf b Hb) as [fmt Hf].
  assert (Hne : exists t ts, modelFormat b = t :: ts).
  { rewrite Hf. destruct fmt; eauto. }
  induction resources as [|res resources IH] using rev_ind.
  - eexists. split; [reflexivity|]. destruct Hne as (t & ts & ->). split_and!; [|done|].
    + constructor; [constructor|]. by intros ? ? ?%elem_of_nil.
    + intros [|k q]; done.
  - destruct IH as (root & Hr & Hwf & Hk & Hlook). rewrite foldl_app. simpl. rewrite Hr. simpl.
    unfold placements. rewrite omap_app. simpl. unfold root_step.
    destruct (last (pathFormat b)) as [lk|] eqn:El; [|by apply last_None, (good_paths b Hb) in El].
    simpl. destruct (pathGetter b res) as [path|]; simpl; [|rewrite app_nil_r; by exists root].
    pose proof (buildHNode_place b path res Hb) as Hbuild. destruct (place b path res) as [[ks v]|].
    + destruct Hbuild as (k & p & -> & Htypes & ->). simpl. eexists. split; [reflexivity|].
      destruct Hne as (t & ts & Hts). rewrite Hts in *.
      destruct (merge_chain (leafType b) t ts root k p v) as (Hwf' & Hk' & Hl'); [| | |done|].
      * rewrite <- Hts. apply (good_types b Hb).
      * by rewrite Hf, last_snoc.
      * done.
      * split_and!; [done|by rewrite Hk'|]. intros q. rewrite Hl', map_of_writes_snoc.
        case_decide as Hq; [subst; by rewrite lookup_insert_eq|].
        rewrite lookup_insert_ne by done. apply Hlook.
    + destruct Hbuild as [e ->]. rewrite app_nil_r. by exists root.
Qed.
End Paths.

(** ** The operator's paths *)
Section Policy.
Context {SV : Type} `{!Converter SV}.

Ltac each_path H :=
  repeat first [ apply elem_of_cons in H as [->|H] | by apply elem_of_nil in H ].

Lemma policy_builder_good p (b : PolicyTreeBuilder resource SV) :
  p ∈ PolicyPaths -> NewPolicyTreeBuilder p = Some (Ok b) -> good_builder b.
Proof.
  intros Hp Hb. unfold PolicyPaths in Hp.
  each_path Hp; injection Hb as <-; constructor; simpl;
    first [ by apply last_Some | discriminate | reflexivity
          | by apply (bool_decide_unpack _); vm_compute ].
Qed.

(** The policy path of a resource: the keys of its hierarchy and the
    identifiers of its ancestors and of itself. *)
Fixpoint path_segments (p : PolicyResourcePath) (ids : list string) : list string :=
  match p with
  | [] => []
  | r :: p' =>
      if decide (r = PolicyResourceInfra) then PathKey r :: path_segments p' ids
      else PathKey r :: default "" (head ids) :: path_segments p' (tail ids)
  end.
Definition policy_path (p : PolicyResourcePath) (ids : list string) : string :=
  "/" +:+ join "/" (path_segments p ids).
Fixpoint path_keys_of (p : PolicyResourcePath) (ids : list string) : list hNodeKey :=
  match p with
  | [] => []
  | r :: p' =>
      if decide (r = PolicyResourceInfra) then mkKey (ModelKey r) "" :: path_keys_of p' ids
      else mkKey (ModelKey r) (default "" (head ids)) :: path_keys_of p' (tail ids)
  end.
Definition ids_needed (p : PolicyResourcePath) : nat :=
  length (filter (fun r => r <> PolicyResourceInfra) p).

Definition plain (s : string) : Prop := s <> "" /\ contains_byte "/" s = false.
Lemma trim_right_plain s t :
  s <> "" -> trim_right_by (fun a => bool_decide (a = "/"%char)) s = s ->
  trim_right_by (fun a => bool_decide (a = "/"%char)) (t +:+ s) = t +:+ s.
Proof.
  intros Hne Hs. induction t as [|a t IH]; [done|]. simpl. rewrite IH.
  destruct (t +:+ s) eqn:E; [|done]. destruct t; simpl in E; [subst; done|done].
Qed.
Lemma trim_right_no_slash s : contains_byte "/" s = false ->
  trim_right_by (fun a => bool_decide (a = "/"%char)) s = s.
Proof.
  induction s as [|a s IH]; simpl; [done|]. case_decide as Ha; [done|]. intros Hs.
  rewrite (IH Hs). destruct s; [|done]. by rewrite bool_decide_eq_false_2.
Qed.
Lemma trim_join segs :
  segs <> [] -> Forall plain segs ->
  join "/" segs <> "" /\ trim_right_by (fun a => bool_decide (a = "/"%char)) (join "/" segs) = join "/" segs.
Proof.
  intros Hne Hall. induction Hall as [|s l [Hs Hc] Hall IH]; [done|].
  destruct l as [|s' l]; [split; [done|by apply trim_right_no_slash]|].
  destruct IH as [IH1 IH2]; [done|]. rewrite join_cons by done. split; [by destruct s|].
  apply trim_right_plain; [done|]. by apply (trim_right_plain _ "/").
Qed.
Lemma trim_left_join segs :
  segs <> [] -> Forall plain segs ->
  trim_left_by (fun a => bool_decide (a = "/"%char)) (join "/" segs) = join "/" segs.
Proof.
  intros Hne [|s l [Hs Hc] _]; [done|]. destruct s as [|a s]; [done|].
  simpl in Hc. case_decide as Ha; [done|].
  destruct l; [|rewrite join_cons by done]; simpl; by rewrite bool_decide_eq_false_2.
Qed.
Lemma split_policy_path segs :
  segs <> [] -> Forall plain segs -> split_on "/" (trim_byte "/" ("/" +:+ join "/" segs)) = segs.
Proof.
  intros Hne Hall. destruct (trim_join segs Hne Hall) as [_ Ht].
  assert (Hl : trim_byte "/" ("/" +:+ join "/" segs) = join "/" segs).
  { unfold trim_byte. change ("/" +:+ join "/" segs) with (String "/" (join "/" segs)).
    cbn [trim_left_by]. rewrite bool_decide_eq_true_2 by done. by rewrite trim_left_join. }
  rewrite Hl. apply (split_join "/" segs); [done|].
  eapply Forall_impl; [exact Hall|]. by intros ? [].
Qed.

(** Parsing the policy path of a resource of any of the operator's
    hierarchies, inner [infra] segments included, gives back the identifiers
    the path was made of, one per level and each under its resource type. *)
Theorem policy_path_roundtrip p (b : PolicyTreeBuilder resource SV) ids r v :
  p ∈ PolicyPaths -> NewPolicyTreeBuilder p = Some (Ok b) ->
  length ids = ids_needed p -> Forall plain ids -> leafWrapper r = Ok v ->
  place b (policy_path p ids) r =
  Some (path_keys_of (default [] (getChildrenResources p)) ids, v).
Proof.
  intros Hp Hb Hids Hall Hv.
  assert (Hs : split_on "/" (trim_byte "/" (policy_path p ids)) = path_segments p ids).
  { apply split_policy_path.
    - unfold PolicyPaths in Hp; each_path Hp; discriminate.
    - clear Hb Hv. unfold PolicyPaths in Hp. each_path Hp; unfold ids_needed in Hids; simpl in Hids;
      repeat (destruct ids as [|? ids]; try discriminate Hids); simpl;
      repeat match goal with H : Forall plain (_ :: _) |- _ => apply Forall_cons in H as [? H] end;
      repeat first [ apply Forall_nil; done
                   | apply Forall_cons; split; [first [assumption|split; [discriminate|reflexivity]]|] ]. }
  unfold place, parsePathSegments. rewrite Hs. clear Hs.
  unfold PolicyPaths in Hp; each_path Hp; injection Hb as <-; unfold ids_needed in Hids; simpl in Hids;
    repeat (destruct ids as [|? ids]; try discriminate Hids); simpl; rewrite Hv; reflexivity.
Qed.
End Policy.

(** ** Success of the conversion *)
Section Success.
Context {SV : Type} `{!Converter SV}.
Lemma build_children_ok f (l : list (hNodeKey * hNode SV)) :
  (forall k c, (k, c) ∈ l -> exists vs, f c = Ok vs) -> exists vs, build_children f l = Ok vs.
Proof.
  induction l as [|[k c] l IH]; simpl; intros Hf; [by eexists|].
  destruct (Hf k c) as [vs ->]; [left|]. destruct IH as [ws ->]; [|by eexists].
  intros k' c' Hin. apply (Hf k'). by right.
Qed.
Lemma node_buildTree_ok rootT leafT ts (n : hNode SV) :
  (forall t i ch, is_ok (ConvertReference t i ch) = true) ->
  wf_tree ts n -> exists vs, node_buildTree rootT leafT n = Ok vs.
Proof.
  intros Hc. revert n; induction ts as [|t ts IH]; intros n Hwf; inversion Hwf as [|? ? k l Hnd Hch]; subst;
    rewrite node_buildTree_eq; (case_decide; [by eexists|]).
  - simpl. case_decide; [by eexists|]. unfold WrapChildResourceReference.
    specialize (Hc (resType k) (resID k) []). destruct (ConvertReference _ _ _); [by eexists|done].
  - destruct (build_children_ok (node_buildTree rootT leafT) l) as [ch ->].
    { intros k' c Hin. apply IH. by apply (Hch k'). }
    case_decide; [by eexists|]. unfold WrapChildResourceReference.
    specialize (Hc (resType k) (resID k) ch). destruct (ConvertReference _ _ _); [by eexists|done].
Qed.
End Success.

(** C12. For each of the operator's hierarchies and any resources, building the
    request never panics, succeeds when the conversions do, and the request
    holds exactly the placed resources, each under the references its path
    names; of several resources with one path, the last. *)
Theorem buildTree_sends {SV} `{!Converter SV, !ConverterLaws SV} p
    (b : PolicyTreeBuilder resource SV) (resources : list resource) :
  p ∈ PolicyPaths -> NewPolicyTreeBuilder p = Some (Ok b) ->
  exists r, buildTree b resources "" = Some r /\
    ((forall t i ch, is_ok (ConvertReference (SV := SV) t i ch) = true) -> is_ok r = true) /\
    forall vs, r = Ok vs -> forall q v, sent vs q v <->
      exists ks, map_of_writes (placements b resources) !! ks = Some v /\
                 q = map to_pair (removelast ks).
Proof.
  intros Hp Hb. pose proof (policy_builder_good p b Hp Hb) as Hg.
  destruct (BuildRootNode_spec b resources Hg) as (root & Hr & Hwf & Hk & Hlook).
  unfold buildTree. rewrite Hr. simpl. eexists. split; [reflexivity|]. split.
  { intros Hc. by destruct (node_buildTree_ok (rootType b) (leafType b) _ root Hc Hwf) as [vs ->]. }
  intros vs Hvs q v. destruct (good_leaf b Hg) as [fmt Hf].
  enough (Hs : sent vs q v <-> exists ks, lookup_path root ks = Some v /\ q = map to_pair (removelast ks)).
  { rewrite Hs. by split; intros (ks & Hv & ->); exists ks; rewrite Hlook in *. }
  apply (root_buildTree_sent (rootType b) (leafType b) (modelFormat b)); auto.
  - intros ks x. rewrite Hlook. intros Hin%map_of_writes_elem.
    unfold placements in Hin. apply list_elem_of_omap in Hin as (res & _ & Hpl).
    destruct (pathGetter b res) as [path|]; [|done]. simpl in Hpl. unfold place in Hpl.
    assert (Hlw : b_leafWrapper b = leafWrapper).
    { unfold NewPolicyTreeBuilder in Hb. case_bool_decide; [done|].
      repeat (match type of Hb with (mbind _ ?m = _) => destruct m; simpl in Hb; [|done] end).
      by injection Hb as <-. }
    rewrite Hlw in Hpl. destruct (parsePathSegments b path) as [[segs|]|]; [|done..].
    unfold leafWrapper in Hpl. destruct (rs_kind res); try done;
      (destruct (ConvertLeaf res) as [y|] eqn:Ey; [|done]); injection Hpl as _ <-;
      by apply (reference_of_leaf res).
  - by rewrite Hk.
  - apply (good_types b Hg).
  - by rewrite Hf, last_snoc.
  - apply (good_root b Hg).
Qed.

(** Shared resources have no wrapper: cleaning them up sends nothing. *)
Lemma shared_resources_not_sent {SV} `{!Converter SV} (b : PolicyTreeBuilder resource SV) resources :
  NewPolicyTreeBuilder PolicyPathInfraSharedResource = Some (Ok b) ->
  Forall (fun r => rs_kind r = SharedResource) resources ->
  BuildInfra b resources "" = Some (Ok (ResourceTypeInfra, [])).
Proof.
  intros Hb Hall.
  assert (Hg : good_builder b) by (apply (policy_builder_good PolicyPathInfraSharedResource); [apply (bool_decide_unpack _); by vm_compute|done]).
  assert (Hlw : b_leafWrapper b = leafWrapper) by (by injection Hb as <-).
  assert (Hroot : BuildRootNode b resources "" = Some (mkNode (mkKey (rootType b) "") None [])).
  { unfold BuildRootNode. induction resources as [|r l IH] using rev_ind; [done|].
    apply Forall_app in Hall as [Hl Hr]. rewrite foldl_app, (IH Hl). simpl. unfold root_step.
    apply Forall_inv in Hr. destruct (last (pathFormat b)) as [k|] eqn:El; [|by apply last_None, (good_paths b Hg) in El].
    simpl. destruct (pathGetter b r) as [path|]; [|done]. simpl.
    pose proof (buildHNode_place b path r Hg) as Hbuild. unfold place in Hbuild.
    rewrite Hlw in Hbuild. unfold leafWrapper in Hbuild. rewrite Hr in Hbuild.
    destruct (parsePathSegments _ path) as [[?|?]|]; destruct Hbuild as [e' He]; by rewrite He. }
  unfold BuildInfra, buildTree. rewrite Hroot. injection Hb as <-. reflexivity.
Qed.

(** ** Facts on pages *)
Section PageFacts.
Context {T : Type}.
Implicit Types (l : list T).

Lemma page_ok l (ps i : Z) :
  0 < ps -> 0 <= i -> i * ps < Z.of_nat (length l) ->
  page l ps (i + 1) = Some (take (Z.to_nat ps) (drop (Z.to_nat (i * ps)) l)).
Proof.
  intros Hps Hi Hlt. unfold page, slice. replace (i + 1 - 1) with i by lia.
  rewrite (bool_decide_eq_true_2 (0 <= i * ps <= _)) by (case_bool_decide; lia).
  rewrite bool_decide_eq_true_2 by (case_bool_decide; lia). simpl. f_equal.
  case_bool_decide as Hc; [|f_equal; lia].
  rewrite !take_ge; [done|rewrite length_drop; lia..].
Qed.
Lemma pages_ok l (ps : Z) (k : nat) :
  0 < ps -> (Z.of_nat k - 1) * ps < Z.of_nat (length l) ->
  exists pages, mapM (page l ps) (seqZ 1 (Z.of_nat k)) = Some pages /\
    mjoin pages = take (Z.to_nat (Z.of_nat k * ps)) l /\
    forall i pg, pages !! i = Some pg ->
      pg = take (Z.to_nat ps) (drop (Z.to_nat (Z.of_nat i * ps)) l).
Proof.
  intros Hps. induction k as [|k IH]; intros Hk.
  { exists []. split_and!; [done|by rewrite Z.mul_0_l|]. by intros i pg Hi; rewrite lookup_nil in Hi. }
  destruct IH as (pages & Hm & Hj & Hp); [nia|].
  rewrite seqZ_S. replace (1 + Z.of_nat k) with (Z.of_nat k + 1) by lia.
  exists (pages ++ [take (Z.to_nat ps) (drop (Z.to_nat (Z.of_nat k * ps)) l)]).
  assert (Hlen : length pages = k).
  { apply length_mapM in Hm. rewrite length_seqZ in Hm. lia. }
  split_and!.
  - by rewrite (mapM_snoc_Some _ _ _ pages), page_ok by (done || nia).
  - rewrite concat_snoc, Hj. replace (Z.to_nat (Z.of_nat (Datatypes.S k) * ps))
      with (Z.to_nat (Z.of_nat k * ps) + Z.to_nat ps)%nat by nia.
    by rewrite take_take_drop.
  - intros i pg Hi. apply lookup_snoc_Some in Hi as [[_ Hi]|[-> <-]]; [by apply Hp|].
    by rewrite Hlen.
Qed.

Context {N : Type} (update : list T -> N -> option (option goerr * N)).
Context (done_at : nat -> bool) (ctx_err : goerr).
Definition collect : option (list T -> list T -> list T) := Some (fun objs seen => seen ++ objs).

(** NSX's answers to the pages it was sent, in order and each from the state
    the page before left. *)
Fixpoint answered (pages : list (list T)) (answers : list (option goerr)) (nsx nsx' : N) : Prop :=
  match answers, pages with
  | [], _ => nsx' = nsx
  | a :: answers, pg :: pages => exists nsx1, update pg nsx = Some (a, nsx1) /\ answered pages answers nsx1 nsx'
  | _ :: _, [] => False
  end.
(** The objects of the pages NSX accepted. *)
Definition accepted (pages : list (list T)) (answers : list (option goerr)) : list T :=
  mjoin (zip_with (fun pg (a : option goerr) => match a with None => pg | Some _ => [] end) pages answers).
(** All pages are sent and the last error is the result, or the context is done
    before one of them. *)
Definition batches_end (i sent total : nat) (answers : list (option goerr)) (err0 err : option goerr) : Prop :=
  (forall j, (j < sent)%nat -> done_at (i + j)%nat = false) /\
  ((sent = total /\ err = match last (omap id answers) with Some e => Some e | None => err0 end) \/
   ((sent < total)%nat /\ done_at (i + sent)%nat = true /\ err = Some (EJoin TimeoutFailed ctx_err))).
Lemma run_batches_spec pages i err nsx seen :
  (forall objs n, exists r, update objs n = Some r) ->
  exists e nsx' answers, run_batches update done_at ctx_err collect i pages err nsx seen = Some (e, nsx', seen ++ accepted pages answers) /\
    answered pages answers nsx nsx' /\ batches_end i (length answers) (length pages) answers err e.
Proof.
  intros Htot. revert i err nsx seen; induction pages as [|pg pages IH]; intros i err nsx seen; cbn [run_batches].
  { exists err, nsx, []. split; [by rewrite app_nil_r|]. split; [done|]. split; [cbn; lia|]. by left. }
  destruct (done_at i) eqn:Hd.
  { exists (Some (EJoin TimeoutFailed ctx_err)), nsx, []. split; [by rewrite app_nil_r|]. split; [done|].
    split; [cbn; lia|]. right. rewrite Nat.add_0_r. cbn. split; [lia|done]. }
  destruct (Htot pg nsx) as [[a nsx1] Hu]. rewrite Hu. cbn [mbind option_bind].
  set (seen1 := match a with None => seen ++ pg | Some _ => seen end).
  set (err1 := match a with None => err | Some _ => a end).
  destruct (IH (Datatypes.S i) err1 nsx1 seen1) as (e & nsx' & answers & Hrun & Ha & Hbefore & Hend).
  exists e, nsx', (a :: answers). split; [|split; [by exists nsx1|split]].
  - unfold seen1, err1 in Hrun. unfold accepted in *. cbn [zip_with mjoin list_join]. destruct a; cbn [collect]; rewrite Hrun; [done|].
    rewrite <- (assoc_L (++)). done.
  - intros [|j] Hj; [by rewrite Nat.add_0_r|]. replace (i + Datatypes.S j)%nat with (Datatypes.S i + j)%nat by lia. apply Hbefore. cbn in Hj. lia.
  - replace (i + length (a :: answers))%nat with (Datatypes.S i + length answers)%nat by (cbn; lia).
    destruct Hend as [[Hl He]|(Hl & He & ->)]; [left|right; cbn; split; [lia|done]]. cbn [length]. split; [lia|].
    rewrite He. unfold err1. destruct a as [e0|]; cbn [omap list_omap id]; [|done]. rewrite last_cons. by destruct (last _).
Qed.
(** When there is no error, every page was accepted. *)
Lemma no_error_accepted pages answers i e :
  batches_end i (length answers) (length pages) answers None e -> e = None -> accepted pages answers = mjoin pages /\ Forall (fun a => a = None) answers.
Proof.
  intros [_ [[Hl He]|(_ & _ & ->)]] Hn; [|done]. rewrite Hn in He.
  assert (Hall : Forall (fun a => a = None) answers).
  { destruct (last (omap id answers)) as [x|] eqn:E; [done|]. apply last_None in E. clear -E.
    induction answers as [|[x|] answers IH]; [done|done|]. constructor; [done|by apply IH]. }
  split; [|done]. clear He. unfold accepted. revert pages Hl. induction Hall as [|a answers -> _ IH]; intros [|pg pages]; [done..|].
  cbn [length zip_with mjoin list_join]. intros Hl. f_equal. apply IH. lia.
Qed.
End PageFacts.

Lemma PagingNSXResources_pages {T} (resources : list T) (pageSize : Z) :
  0 < pageSize ->
  exists pages, PagingNSXResources resources pageSize = Some pages /\
    mjoin pages = resources /\
    forall i pg, pages !! i = Some pg ->
      pg = take (Z.to_nat pageSize) (drop (Z.to_nat (Z.of_nat i * pageSize)) resources) /\ pg <> [].
Proof.
  intros Hps. unfold PagingNSXResources. rewrite bool_decide_eq_false_2 by lia.
  set (n := Z.of_nat (length resources)).
  assert (Hq : Z.quot (n + pageSize - 1) pageSize = (n + pageSize - 1) / pageSize) by (apply Z.quot_div_nonneg; lia).
  rewrite Hq. set (q := (n + pageSize - 1) / pageSize).
  assert (Hq0 : 0 <= q) by (apply Z.div_pos; lia).
  assert (Hqm : pageSize * q <= n + pageSize - 1) by (apply Z.mul_div_le; lia).
  assert (HqM : n + pageSize - 1 < pageSize * Z.succ q) by (apply Z.mul_succ_div_gt; lia).
  rewrite bool_decide_eq_false_2 by lia.
  destruct (pages_ok resources pageSize (Z.to_nat q)) as (pages & Hm & Hj & Hp); [done|nia|].
  rewrite Z2Nat.id in * by done. exists pages. split; [exact Hm|]. split.
  { rewrite Hj. apply take_ge. nia. }
  intros i pg Hi. split; [by apply Hp|]. apply lookup_lt_Some in Hi as Hlt. apply Hp in Hi.
  apply length_mapM in Hm. rewrite length_seqZ in Hm. intros Hnil. subst pg.
  apply (f_equal length) in Hnil. rewrite length_take, length_drop in Hnil. simpl in Hnil. nia.
Qed.

(** For a positive page size, [PagingNSXResources] cuts the resources into
    consecutive pages: together they are the resources in order, page [i]
    starts at [i * pageSize], every page is full except maybe the last, and
    none is empty. *)
Theorem PagingNSXResources_spec {T} (resources : list T) (pageSize : Z) :
  0 < pageSize ->
  exists pages, PagingNSXResources resources pageSize = Some pages /\
    mjoin pages = resources /\
    forall i pg, pages !! i = Some pg ->
      pg = take (Z.to_nat pageSize) (drop (Z.to_nat (Z.of_nat i * pageSize)) resources) /\ pg <> [].
Proof. apply PagingNSXResources_pages. Qed.

Lemma Update_total {SV N} `{!Converter SV} (Patch : string * list (option SV) -> N -> option goerr * N)
    (b : PolicyTreeBuilder resource SV) objs nsx :
  good_builder b -> exists r, UpdateMultipleResourcesOnNSX Patch b objs nsx = Some r.
Proof.
  intros Hg. unfold UpdateMultipleResourcesOnNSX, BuildOrgRoot, BuildInfra, buildTree.
  destruct objs as [|o objs]; [by eexists|].
  destruct (BuildRootNode_spec b (o :: objs) Hg) as (root & -> & _). simpl.
  case_decide; simpl; (destruct (node_buildTree _ _ root); [|by eexists]);
    destruct (Patch _ nsx); by eexists.
Qed.

(** C18. Sending resources page by page never panics. The resources are cut
    into pages; the first of them, all unless the context is done before one,
    are sent to NSX in order, each from the state the page before left, whatever
    NSX answered to it. The objects reported to the caller's store are exactly
    those of the pages NSX accepted, in order. The result is the last error NSX
    answered, or that of the context; when it is no error, every page was
    accepted and every object reported. *)
Theorem PagingUpdateResources_spec {SV N} `{!Converter SV}
    (Patch : string * list (option SV) -> N -> option goerr * N) p (b : PolicyTreeBuilder resource SV)
    (done_at : nat -> bool) ctx_err (objs : list resource) (pageSize : Z) (nsx : N) :
  p ∈ PolicyPaths -> NewPolicyTreeBuilder p = Some (Ok b) -> 0 < pageSize ->
  exists pages answers err nsx', PagingNSXResources objs pageSize = Some pages /\ mjoin pages = objs /\
    PagingUpdateResources (UpdateMultipleResourcesOnNSX Patch b) done_at ctx_err collect
      objs pageSize nsx [] = Some (err, nsx', accepted pages answers) /\
    answered (UpdateMultipleResourcesOnNSX Patch b) pages answers nsx nsx' /\
    batches_end done_at ctx_err 0 (length answers) (length pages) answers None err /\
    (err = None -> accepted pages answers = objs /\ Forall (fun a => a = None) answers).
Proof.
  intros Hp Hb Hps. pose proof (policy_builder_good p b Hp Hb) as Hg.
  destruct (PagingNSXResources_pages objs pageSize Hps) as (pages & Hpg & Hj & Hpages).
  destruct (run_batches_spec (UpdateMultipleResourcesOnNSX Patch b) done_at ctx_err pages 0 None nsx [])
    as (e & nsx' & answers & Hrun & Ha & Hend); [intros; by apply Update_total|].
  exists pages, answers, e, nsx'. split; [done|]. split; [done|]. split; [|split; [done|split; [done|]]].
  - unfold PagingUpdateResources. destruct objs as [|o objs]; [|by rewrite Hpg].
    destruct pages as [|pg pages]; [exact Hrun|]. destruct (Hpages 0%nat pg eq_refl) as [_ Hne].
    cbn in Hj. by apply app_nil in Hj as [-> _].
  - intros He. destruct (no_error_accepted _ _ _ _ _ _ Hend He) as [-> Hall]. done.
Qed.

(** ** Examples *)

(** Data values as terms. *)
Inductive demo_value :=
  | DRef (t i : string) (ch : list (option demo_value))
  | DLeaf (r : resource).
#[global] Instance demo_converter : Converter demo_value := {
  ConvertReference t i ch := Ok (DRef t i ch);
  ConvertLeaf r := Ok (DLeaf r);
  fmt_resource _ := "resource" }.
#[global] Program Instance demo_laws : ConverterLaws demo_value := {
  reference_of v := match v with DRef t i ch => Some (t, i, ch) | DLeaf _ => None end }.
Next Obligation. by intros t i ch v [= <-]. Qed.
Next Obligation. by intros r v [= <-]. Qed.

Definition demo_builder : PolicyTreeBuilder resource demo_value :=
  mkBuilder _ _ "VpcSubnet" ResourceTypeOrgRoot leafWrapper getNSXResourcePath getNSXResourceId
    ["orgs"; "projects"; "vpcs"; "subnets"] ["Org"; "Project"; "Vpc"; "VpcSubnet"] false.
Definition demo_subnet (vpc s : string) : resource :=
  mkResource VpcSubnet (Some ("/orgs/default/projects/p1/vpcs/" +:+ vpc +:+ "/subnets/" +:+ s)) (Some s) None.
Lemma demo_path : PolicyPathVpcSubnet ∈ PolicyPaths.
Proof. left. Qed.

Lemma policy_path_roundtrip_witness :
  place demo_builder (policy_path PolicyPathVpcSubnet ["default"; "p1"; "v1"; "s1"]) (demo_subnet "v1" "s1") =
  Some ([mkKey "Org" "default"; mkKey "Project" "p1"; mkKey "Vpc" "v1"; mkKey "VpcSubnet" "s1"],
        DLeaf (demo_subnet "v1" "s1")).
Proof.
  apply (policy_path_roundtrip PolicyPathVpcSubnet demo_builder ["default"; "p1"; "v1"; "s1"]);
    [apply demo_path|reflexivity..|repeat constructor; discriminate|reflexivity].
Defined.
Lemma buildTree_sends_witness :
  exists r, buildTree demo_builder [demo_subnet "v1" "s1"; demo_subnet "v1" "s2"] "" = Some r /\
    is_ok r = true.
Proof.
  destruct (buildTree_sends PolicyPathVpcSubnet demo_builder [demo_subnet "v1" "s1"; demo_subnet "v1" "s2"]
    demo_path eq_refl) as (r & Hr & Hok & _).
  exists r. split; [exact Hr|]. by apply Hok.
Defined.
Lemma PagingNSXResources_spec_witness :
  exists pages, PagingNSXResources [1; 2; 3; 4; 5] 2 = Some pages /\ mjoin pages = [1; 2; 3; 4; 5].
Proof.
  destruct (PagingNSXResources_spec [1; 2; 3; 4; 5] 2 eq_refl) as (pages & H1 & H2 & _).
  by exists pages.
Defined.
(** NSX refuses the first of two pages: the second is sent and reported. *)
Definition refuse_first (root : string * list (option demo_value)) (n : list (string * list (option demo_value))) :
    option goerr * list (string * list (option demo_value)) := (match n with [] => Some (EText "refused") | _ => None end, root :: n).
Lemma PagingUpdateResources_spec_witness :
  exists err nsx',
    PagingUpdateResources (UpdateMultipleResourcesOnNSX refuse_first demo_builder)
      (fun _ => false) (ECtx "canceled") collect
      [demo_subnet "v1" "s1"; demo_subnet "v2" "s2"] 1 [] [] = Some (err, nsx', [demo_subnet "v2" "s2"]) /\ err <> None.
Proof.
  destruct (PagingUpdateResources_spec refuse_first PolicyPathVpcSubnet demo_builder
    (fun _ => false) (ECtx "canceled") [demo_subnet "v1" "s1"; demo_subnet "v2" "s2"] 1 []
    demo_path eq_refl eq_refl) as (pages & answers & err & nsx' & _ & _ & H & _ & _ & Hn).
  exists err, nsx'. assert (E : accepted pages answers = [demo_subnet "v2" "s2"]).
  { apply (f_equal (fun r => match r with Some (_, seen) => seen | None => [] end)) in H. vm_compute in H. vm_compute. by rewrite <- H. }
  rewrite E in H. split; [exact H|]. intros He. apply Hn in He as [He _]. rewrite E in He. discriminate He.
Defined.

Example demo_tree :
  buildTree demo_builder [demo_subnet "v1" "s1"; demo_subnet "v1" "s2"] "" =
  Some (Ok [Some (DRef "Org" "default" [Some (DRef "Project" "p1" [Some (DRef "Vpc" "v1"
    [Some (DLeaf (demo_subnet "v1" "s1")); Some (DLeaf (demo_subnet "v1" "s2"))])])])]).
Proof. vm_compute. reflexivity. Qed.

(** A resource without a path is left out of the request, and still reported
    to the store as updated. *)
Lemma unplaced_resources_reported :
  let r := mkResource VpcSubnet None (Some "s1") None in
  PagingUpdateResources (UpdateMultipleResourcesOnNSX (fun root n => (None, root :: n)) demo_builder)
    (fun _ => false) (ECtx "canceled") collect [r] 500 [] [] =
  Some (None, [(ResourceTypeOrgRoot, [])], [r]).
Proof. vm_compute. reflexivity. Qed.
