(* ===== verification/MixedMode.v ===== *)
(** * pkg/config/mixed_mode.go: which network providers a cluster uses

    A Namespace belongs to the T1 provider or to the VPC provider by its
    annotations; the operator keeps two flags that say which providers exist,
    set at start-up and refreshed from the list of Namespaces. *)
From S2P Require Import Prelude GoStrings Errors.

Definition VPCNetworkConfigAnnotation := "nsx.vmware.com/vpc_network_config".
Definition T1DefaultConfigAnnotation := "nsx.vmware.com/t1_default_config".
Definition T1VmwareSystemSharedAnnotation := "vmware-system-shared-t1".
Definition T1NsxNetworkConfigAnnotation := "ncp/nsx_network_config_crd".

(** ** One Namespace *)
Abbreviation annots := (gmap string string).
Definition annot_true (annotations : annots) (k : string) : bool :=
  match annotations !! k with
  | Some val => bool_decide (to_lower (trim_space val) = "true")
  | None => false
  end.
Definition hasT1ActivationAnnotation (annotations : annots) : bool :=
  if annot_true annotations T1DefaultConfigAnnotation then true
  else if annot_true annotations T1VmwareSystemSharedAnnotation then true
  else match annotations !! T1NsxNetworkConfigAnnotation with
       | Some val => negb (bool_decide (trim_space val = ""))
       | None => false
       end.

(** The Namespaces whose conflict was already logged. *)
Abbreviation conflict_log := (gset string).
(** [resolveNamespaceProvider]: T1, VPC, the log set and whether an error is
    logged. *)
Definition resolveNamespaceProvider (nsName : string) (annotations : annots) (logged : conflict_log)
  : bool * bool * conflict_log * bool :=
  let hasVPC := negb (bool_decide (trim_space (default "" (annotations !! VPCNetworkConfigAnnotation)) = "")) in
  let hasT1 := hasT1ActivationAnnotation annotations in
  if hasVPC && hasT1 then
    if bool_decide (nsName <> "") then
      if decide (nsName ∈ logged) then (false, false, logged, false)
      else (false, false, {[nsName]} ∪ logged, true)
    else (false, false, logged, true)
  else (hasT1, hasVPC, if bool_decide (nsName <> "") then logged ∖ {[nsName]} else logged, false).

Record Namespace := mkNs { ns_Name : string; ns_Annotations : annots }.

(** ** Scanning Namespaces *)

(** The loop over the listed Namespaces, with its [break]. *)
Fixpoint scan_loop (items : list Namespace) (hasT1 hasVPC : bool) (logged : conflict_log)
  : bool * bool * conflict_log :=
  match items with
  | [] => (hasT1, hasVPC, logged)
  | item :: items' =>
      let '(isT1, isVPC, logged, _) := resolveNamespaceProvider (ns_Name item) (ns_Annotations item) logged in
      let hasT1 := if isT1 then true else hasT1 in
      let hasVPC := if isVPC then true else hasVPC in
      if hasT1 && hasVPC then (hasT1, hasVPC, logged) else scan_loop items' hasT1 hasVPC logged
  end.
Definition scan_default (storedEnableVPCNetwork hasT1 hasVPC : bool) : bool * bool :=
  if negb hasT1 && negb hasVPC then
    if storedEnableVPCNetwork then (hasT1, true) else (true, hasVPC)
  else (hasT1, hasVPC).
(** [scanNamespaceProvidersFromAPI]; the clientset is [None] for nil, and
    otherwise what its List call returns. *)
Definition scanNamespaceProvidersFromAPI (storedEnable : bool)
    (clientset : option (result goerr (list Namespace))) (logged : conflict_log)
  : result goerr (bool * bool) * conflict_log :=
  match clientset with
  | None => (Ok (scan_default storedEnable false false), logged)
  | Some (Err e) => (Err e, logged)
  | Some (Ok items) =>
      let '(hasT1, hasVPC, logged) := scan_loop items false false logged in
      (Ok (scan_default storedEnable hasT1 hasVPC), logged)
  end.
Definition scanNamespaceProvidersFromCache (storedEnable : bool)
    (reader : result goerr (list Namespace)) (logged : conflict_log)
  : result goerr (bool * bool) * conflict_log :=
  match reader with
  | Err e => (Err e, logged)
  | Ok items =>
      let '(hasT1, hasVPC, logged) := scan_loop items false false logged in
      (Ok (scan_default storedEnable hasT1 hasVPC), logged)
  end.

(** ** The capability *)

(** [unstructured] content: JSON values, as far as they are looked at. *)
Inductive json :=
  | JBool (b : bool)
  | JMap (m : list (string * json))
  | JOther.
Fixpoint jlookup (k : string) (m : list (string * json)) : option json :=
  match m with [] => None | (k', v) :: m' => if decide (k' = k) then Some v else jlookup k m' end.

Section Capability.
(** [unstructured.NestedMap(obj, field)], [None] when it is not found or not a map. *)
Context (NestedMap : list (string * json) -> string -> option (list (string * json))).
Definition extractCapability (obj : list (string * json)) : bool :=
  match NestedMap obj "status" with
  | None => false
  | Some status =>
      match NestedMap status "supervisor" with
      | None => false
      | Some supervisor =>
          match jlookup "supports_per_namespace_network_provider" supervisor with
          | Some (JMap capMap) =>
              match jlookup "activated" capMap with
              | Some (JBool b) => b
              | _ => false
              end
          | _ => false
          end
      end
  end.
End Capability.

(** ** Retries at start-up *)

(** One turn of a retry loop: what the call returned, and whether the context
    was done before the wait was over. *)
Record attempt (A : Type) := mkAttempt { answer : result goerr A; cancelled : bool }.
Arguments mkAttempt {A} _ _.
Arguments answer {A} _.
Arguments cancelled {A} _.
Definition retryInitialInterval : Z := 2.
Definition retryMaxInterval : Z := 30.

(** The loop over the attempts to come: how it ended ([None]: the attempts ran
    out and it is still waiting) and the waits it asked for, in seconds. *)
Fixpoint retry_loop {A} (interval : Z) (attempts : list (attempt A)) : option (option A) * list Z :=
  match attempts with
  | [] => (None, [])
  | a :: attempts' =>
      match answer a with
      | Ok x => (Some (Some x), [])
      | Err _ =>
          if cancelled a then (Some None, [interval])
          else let '(r, waits) := retry_loop (Z.min (interval * 2) retryMaxInterval) attempts' in
               (r, interval :: waits)
      end
  end.
(** [checkPerNamespaceProvidersSupported]: false when the context is done. *)
Definition checkPerNamespaceProvidersSupported NestedMap (attempts : list (attempt (list (string * json)))) : option bool :=
  match (retry_loop retryInitialInterval attempts).1 with
  | None => None
  | Some None => Some false
  | Some (Some obj) => Some (extractCapability NestedMap obj)
  end.
(** [waitForNamespaceProviders]; each attempt holds the List call's answer. *)
Fixpoint scan_attempts (storedEnable : bool) (attempts : list (attempt (list Namespace))) (logged : conflict_log)
  : list (attempt (bool * bool)) * conflict_log :=
  match attempts with
  | [] => ([], logged)
  | a :: attempts' =>
      let '(r, logged) := scanNamespaceProvidersFromAPI storedEnable (Some (answer a)) logged in
      let '(l, logged) := match r with Ok _ => ([], logged) | Err _ => scan_attempts storedEnable attempts' logged end in
      (mkAttempt r (cancelled a) :: l, logged)
  end.
Definition waitForNamespaceProviders (storedEnable : bool) (attempts : list (attempt (list Namespace)))
    (logged : conflict_log) : option (bool * bool) * conflict_log :=
  let '(l, logged) := scan_attempts storedEnable attempts logged in
  (match (retry_loop retryInitialInterval l).1 with
   | None => None
   | Some None => Some (false, false)
   | Some (Some r) => Some r
   end, logged).

(** ** The global state *)
Record mm_state := mkMM {
  hasT1Namespaces : bool; hasVPCNamespaces : bool;
  perNamespaceProvidersSupported : option bool;
  stateInitialized : bool;
  storedClientset : bool; (* not nil *)
  storedEnableVPCNetwork : bool;
  conflicts : conflict_log }.
Definition mm0 : mm_state := mkMM false false None false false false ∅.

(** [initMixedModeWithClients]; [None] while it is still retrying. *)
Definition initMixedModeWithClients NestedMap (s : mm_state) (caps : list (attempt (list (string * json))))
    (lists : list (attempt (list Namespace))) (enableVPCNetwork : bool) : option mm_state :=
  supported ← checkPerNamespaceProvidersSupported NestedMap caps;
  if (supported : bool) then
    let '(r, logged) := waitForNamespaceProviders enableVPCNetwork lists (conflicts s) in
    tv ← r;
    let '(t1, vpc) := tv : bool * bool in
    let vpc := if enableVPCNetwork then true else vpc in
    Some (mkMM t1 vpc (Some true) true true enableVPCNetwork logged)
  else
    Some (mkMM (negb enableVPCNetwork) enableVPCNetwork (Some false) true true enableVPCNetwork (conflicts s)).

(** [RefreshMixedModeState], with the cached reader ([None] when not set) and
    the API as its sources of Namespaces; whether the state changed. *)
Definition RefreshMixedModeState (s : mm_state) (reader : option (result goerr (list Namespace)))
    (api : result goerr (list Namespace)) : mm_state * bool :=
  if negb (storedClientset s) then (s, false)
  else if bool_decide (perNamespaceProvidersSupported s = Some false) then (s, false)
  else
    let '(r, logged) :=
      match reader with
      | Some rd => scanNamespaceProvidersFromCache (storedEnableVPCNetwork s) rd (conflicts s)
      | None => scanNamespaceProvidersFromAPI (storedEnableVPCNetwork s) (Some api) (conflicts s)
      end in
    let with_log t v := mkMM t v (perNamespaceProvidersSupported s) (stateInitialized s)
                          (storedClientset s) (storedEnableVPCNetwork s) logged in
    match r with
    | Err _ => (with_log (hasT1Namespaces s) (hasVPCNamespaces s), false)
    | Ok (newT1, newVPC) =>
        let newVPC := if storedEnableVPCNetwork s then true else newVPC in
        (with_log newT1 newVPC,
         negb (bool_decide (hasT1Namespaces s = newT1)) || negb (bool_decide (hasVPCNamespaces s = newVPC)))
    end.

Definition IsPerNamespaceProvidersSupported (s : mm_state) : bool :=
  default false (perNamespaceProvidersSupported s).
Definition with_conflicts (s : mm_state) (l : conflict_log) : mm_state :=
  mkMM (hasT1Namespaces s) (hasVPCNamespaces s) (perNamespaceProvidersSupported s) (stateInitialized s)
    (storedClientset s) (storedEnableVPCNetwork s) l.
(** [ns] is [None] for nil. *)
Definition IsVPCNamespace (s : mm_state) (ns : option Namespace) : bool * mm_state :=
  match ns with
  | None => (false, s)
  | Some ns =>
      if IsPerNamespaceProvidersSupported s then
        let '(_, isVPC, logged, _) := resolveNamespaceProvider (ns_Name ns) (ns_Annotations ns) (conflicts s) in
        (isVPC, with_conflicts s logged)
      else (hasVPCNamespaces s, s)
  end.
Definition IsT1Namespace (s : mm_state) (ns : option Namespace) : bool * mm_state :=
  match ns with
  | None => (false, s)
  | Some ns =>
      if IsPerNamespaceProvidersSupported s then
        let '(isT1, _, logged, _) := resolveNamespaceProvider (ns_Name ns) (ns_Annotations ns) (conflicts s) in
        (isT1, with_conflicts s logged)
      else (hasT1Namespaces s, s)
  end.

(** The life of the operator's process. *)
Inductive mm_step NestedMap : mm_state -> mm_state -> Prop :=
  | step_init s s' caps lists enable :
      initMixedModeWithClients NestedMap s caps lists enable = Some s' -> mm_step NestedMap s s'
  | step_refresh s reader api :
      mm_step NestedMap s (RefreshMixedModeState s reader api).1
  | step_vpc s ns : mm_step NestedMap s (IsVPCNamespace s ns).2
  | step_t1 s ns : mm_step NestedMap s (IsT1Namespace s ns).2.

(** ** Facts *)

(** The annotations alone decide the provider. *)
Definition is_T1 (ns : Namespace) : bool :=
  hasT1ActivationAnnotation (ns_Annotations ns) &&
  bool_decide (trim_space (default "" (ns_Annotations ns !! VPCNetworkConfigAnnotation)) = "").
Definition is_VPC (ns : Namespace) : bool :=
  negb (hasT1ActivationAnnotation (ns_Annotations ns)) &&
  negb (bool_decide (trim_space (default "" (ns_Annotations ns !! VPCNetworkConfigAnnotation)) = "")).

Lemma resolve_providers ns logged :
  exists logged' err, resolveNamespaceProvider (ns_Name ns) (ns_Annotations ns) logged =
                      (is_T1 ns, is_VPC ns, logged', err).
Proof.
  unfold resolveNamespaceProvider, is_T1, is_VPC.
  destruct (hasT1ActivationAnnotation _), (bool_decide (trim_space _ = "")); simpl; try by do 2 eexists.
  case_bool_decide; [|by do 2 eexists]. case_decide; by do 2 eexists.
Qed.
Lemma providers_exclusive ns : is_T1 ns && is_VPC ns = false.
Proof. unfold is_T1, is_VPC. by destruct (hasT1ActivationAnnotation _), (bool_decide _). Qed.

Lemma existsb_false {A} (f : A -> bool) l : (forall x, x ∈ l -> f x = false) -> existsb f l = false.
Proof.
  induction l as [|x l IH]; simpl; [done|]. intros Hf. rewrite (Hf x) by left.
  apply IH. intros y Hy. apply Hf. by right.
Qed.

(** The [break] does not change the answer. *)
Lemma scan_loop_spec items t v logged :
  exists logged', scan_loop items t v logged = (t || existsb is_T1 items, v || existsb is_VPC items, logged').
Proof.
  revert t v logged; induction items as [|ns items IH]; intros t v logged; simpl.
  { exists logged. by rewrite !orb_false_r. }
  destruct (resolve_providers ns logged) as (l' & err & ->).
  assert (Ht : (if is_T1 ns then true else t) = t || is_T1 ns) by (by destruct (is_T1 ns), t).
  assert (Hv : (if is_VPC ns then true else v) = v || is_VPC ns) by (by destruct (is_VPC ns), v).
  rewrite Ht, Hv, !orb_assoc. destruct (t || is_T1 ns) eqn:E1, (v || is_VPC ns) eqn:E2; simpl;
    [by eexists|destruct (IH true false l') as [? ->]|destruct (IH false true l') as [? ->]
    |destruct (IH false false l') as [? ->]]; by eexists.
Qed.

(** What a scan of Namespaces answers. *)
Definition providers (storedEnable : bool) (items : list Namespace) : bool * bool :=
  let t1 := existsb is_T1 items in
  let vpc := existsb is_VPC items in
  (t1 || (negb vpc && negb storedEnable), vpc || (negb t1 && storedEnable)).
Lemma scan_api storedEnable items logged :
  (scanNamespaceProvidersFromAPI storedEnable (Some (Ok items)) logged).1 = Ok (providers storedEnable items).
Proof.
  unfold scanNamespaceProvidersFromAPI, providers, scan_default.
  destruct (scan_loop_spec items false false logged) as [l' ->]. simpl.
  by destruct (existsb is_T1 items), (existsb is_VPC items), storedEnable.
Qed.
Lemma scan_same storedEnable r logged :
  scanNamespaceProvidersFromCache storedEnable r logged =
  scanNamespaceProvidersFromAPI storedEnable (Some r) logged.
Proof. by destruct r. Qed.
Lemma existsb_perm {A} (f : A -> bool) l1 l2 : l1 ≡ₚ l2 -> existsb f l1 = existsb f l2.
Proof. induction 1; simpl; [done|by f_equal|by rewrite !orb_assoc, (orb_comm (f x))|congruence]. Qed.

(** ** Properties *)

(** A scan of the Namespaces answers by their annotations alone: a provider
    exists when some Namespace has it, and when none has either the
    configuration's default is the only one. The order of the list, the early
    exit, and whether the cache or the API is read make no difference, and the
    answer is never that there is no provider. *)
Theorem scan_spec storedEnable items items' logged logged' :
  items ≡ₚ items' ->
  exists t1 vpc,
    (scanNamespaceProvidersFromAPI storedEnable (Some (Ok items)) logged).1 = Ok (t1, vpc) /\
    (scanNamespaceProvidersFromCache storedEnable (Ok items') logged').1 = Ok (t1, vpc) /\
    t1 || vpc = true /\
    (t1 = true <-> (exists ns, ns ∈ items /\ is_T1 ns = true) \/
       (storedEnable = false /\ forall ns, ns ∈ items -> is_T1 ns = false /\ is_VPC ns = false)) /\
    (vpc = true <-> (exists ns, ns ∈ items /\ is_VPC ns = true) \/
       (storedEnable = true /\ forall ns, ns ∈ items -> is_T1 ns = false /\ is_VPC ns = false)).
Proof.
  intros Hp. exists (providers storedEnable items).1, (providers storedEnable items).2.
  rewrite scan_same, !scan_api. unfold providers. rewrite <- !(existsb_perm _ _ _ Hp). simpl.
  assert (Hex : forall f : Namespace -> bool, existsb f items = true <-> exists ns, ns ∈ items /\ f ns = true).
  { intros f. rewrite existsb_exists. by setoid_rewrite list_elem_of_In. }
  assert (Hnone : existsb is_T1 items = false /\ existsb is_VPC items = false <->
                  forall ns, ns ∈ items -> is_T1 ns = false /\ is_VPC ns = false).
  { split; [|intros Hf; split; apply existsb_false; naive_solver].
    intros [H1 H2] ns Hin. split; apply not_true_iff_false; intros Ht;
      [rewrite <- not_true_iff_false in H1; apply H1|rewrite <- not_true_iff_false in H2; apply H2];
      apply Hex; eauto. }
  rewrite <- Hnone, <- !Hex.
  destruct (existsb is_T1 items), (existsb is_VPC items), storedEnable; simpl; naive_solver.
Qed.

(** The retry loop ends at the first answer, after waits of 2, 4, 8, 16 and
    then 30 seconds, one per failure; without an answer it ends only when the
    context is done. *)
Theorem retry_loop_spec {A} (failed : list (attempt A)) (rest : list (attempt A)) a :
  Forall (fun f => is_ok (answer f) = false /\ cancelled f = false) failed ->
  is_ok (answer a) = true \/ cancelled a = true ->
  let '(r, waits) := retry_loop retryInitialInterval (failed ++ a :: rest) in
  r = Some (match answer a with Ok x => Some x | Err _ => None end) /\
  waits = map (fun i => Z.min (2 ^ (Z.of_nat i + 1)) retryMaxInterval)
            (seq 0 (length failed + if is_ok (answer a) then 0 else 1)).
Proof.
  intros Hall Ha. assert (Hgen : forall k, retry_loop (Z.min (2 ^ (Z.of_nat k + 1)) retryMaxInterval) (failed ++ a :: rest) =
    (Some (match answer a with Ok x => Some x | Err _ => None end),
     map (fun i => Z.min (2 ^ (Z.of_nat i + 1)) retryMaxInterval)
       (seq k (length failed + if is_ok (answer a) then 0 else 1)))).
  { induction Hall as [|f failed [Hf Hc] Hall IH]; intros k.
    - simpl. destruct (answer a) as [x|e]; [done|]. destruct Ha as [Ha|Ha]; [done|]. by rewrite Ha.
    - simpl. destruct (answer f) as [x|e]; [done|]. rewrite Hc.
      replace (Z.min (Z.min (2 ^ (Z.of_nat k + 1)) retryMaxInterval * 2) retryMaxInterval)
        with (Z.min (2 ^ (Z.of_nat (Datatypes.S k) + 1)) retryMaxInterval).
      + by rewrite (IH (Datatypes.S k)).
      + unfold retryMaxInterval. replace (Z.of_nat (Datatypes.S k) + 1) with (Z.succ (Z.of_nat k + 1)) by lia.
        rewrite Z.pow_succ_r by lia. lia. }
  change retryInitialInterval with (Z.min (2 ^ (Z.of_nat 0 + 1)) retryMaxInterval). by rewrite Hgen.
Qed.

(** The modes a process can be in: not initialised; one provider for the whole
    cluster, by configuration; or providers per Namespace. *)
Definition mm_inv (s : mm_state) : Prop :=
  match perNamespaceProvidersSupported s with
  | None => storedClientset s = false /\ hasT1Namespaces s = false /\ hasVPCNamespaces s = false
  | Some false => hasVPCNamespaces s = storedEnableVPCNetwork s /\
                  hasT1Namespaces s = negb (storedEnableVPCNetwork s)
  | Some true => storedEnableVPCNetwork s = true -> hasVPCNamespaces s = true
  end.
Lemma with_conflicts_inv s l : mm_inv s -> mm_inv (with_conflicts s l).
Proof. done. Qed.
Lemma IsVPC_inv s ns : mm_inv s -> mm_inv (IsVPCNamespace s ns).2.
Proof.
  intros Hs. unfold IsVPCNamespace. destruct ns as [ns|]; [|done].
  destruct (IsPerNamespaceProvidersSupported s); [|done].
  by destruct (resolve_providers ns (conflicts s)) as (? & ? & ->).
Qed.
Lemma IsT1_inv s ns : mm_inv s -> mm_inv (IsT1Namespace s ns).2.
Proof.
  intros Hs. unfold IsT1Namespace. destruct ns as [ns|]; [|done].
  destruct (IsPerNamespaceProvidersSupported s); [|done].
  by destruct (resolve_providers ns (conflicts s)) as (? & ? & ->).
Qed.
Lemma init_inv NestedMap s caps lists enable s' :
  initMixedModeWithClients NestedMap s caps lists enable = Some s' -> mm_inv s'.
Proof.
  unfold initMixedModeWithClients. destruct (checkPerNamespaceProvidersSupported _ _) as [[]|]; simpl; [|by intros [= <-]|done].
  destruct (waitForNamespaceProviders _ _ _) as [[[t1 vpc]|] l]; simpl; [|done].
  intros [= <-]. unfold mm_inv; simpl. by intros ->.
Qed.
Lemma refresh_inv s reader api : mm_inv s -> mm_inv (RefreshMixedModeState s reader api).1.
Proof.
  intros Hs. unfold RefreshMixedModeState. destruct (storedClientset s) eqn:Ec; [|done]. simpl.
  case_bool_decide as Hf; [done|].
  destruct (match reader with Some rd => _ | None => _ end) as [[[t v]|e] l]; simpl.
  - unfold mm_inv in *; simpl. destruct (perNamespaceProvidersSupported s) as [[]|]; [by intros ->|done|].
    destruct Hs as (Hs & _). by rewrite Hs in Ec.
  - unfold mm_inv in *; simpl. destruct (perNamespaceProvidersSupported s) as [[]|]; [done|done|].
    destruct Hs as (Hs & _). by rewrite Hs in Ec.
Qed.
Lemma mm_reachable_inv NestedMap s : rtc (mm_step NestedMap) mm0 s -> mm_inv s.
Proof.
  assert (Hgen : forall s0 s, rtc (mm_step NestedMap) s0 s -> mm_inv s0 -> mm_inv s).
  { induction 1 as [|s0 s1 s2 Hs _ IH]; [done|]. intros H0. apply IH.
    destruct Hs; eauto using init_inv, refresh_inv, IsVPC_inv, IsT1_inv. }
  intros Hr. by apply (Hgen mm0).
Qed.

(** In every state the process reaches, no Namespace belongs to both
    providers; where providers are per Namespace a conflicting Namespace
    belongs to none, and where they are not the configuration alone decides,
    whatever the annotations and however often the state is refreshed. *)
Theorem namespace_provider_exclusive NestedMap s ns :
  rtc (mm_step NestedMap) mm0 s ->
  (IsT1Namespace s (Some ns)).1 && (IsVPCNamespace s (Some ns)).1 = false /\
  (perNamespaceProvidersSupported s = Some true ->
     (IsT1Namespace s (Some ns)).1 = is_T1 ns /\ (IsVPCNamespace s (Some ns)).1 = is_VPC ns) /\
  (perNamespaceProvidersSupported s = Some false ->
     (IsVPCNamespace s (Some ns)).1 = storedEnableVPCNetwork s /\
     (IsT1Namespace s (Some ns)).1 = negb (storedEnableVPCNetwork s)).
Proof.
  intros Hinv%mm_reachable_inv. unfold IsT1Namespace, IsVPCNamespace, IsPerNamespaceProvidersSupported, mm_inv in *.
  destruct (resolve_providers ns (conflicts s)) as (l & err & ->).
  destruct (perNamespaceProvidersSupported s) as [[]|]; simpl.
  - split_and!; [apply providers_exclusive|done|done].
  - destruct Hinv as [-> ->]. split_and!; [by destruct (storedEnableVPCNetwork s)|done|done].
  - destruct Hinv as (_ & -> & ->). done.
Qed.

(** A refresh reports a change exactly when it changed a provider flag. It
    changes them only when providers are per Namespace and the scan succeeded,
    to the providers found, with the VPC provider kept when it is configured. *)
Theorem Refresh_spec s reader api :
  let '(s', changed) := RefreshMixedModeState s reader api in
  (changed = true <-> hasT1Namespaces s' <> hasT1Namespaces s \/ hasVPCNamespaces s' <> hasVPCNamespaces s) /\
  perNamespaceProvidersSupported s' = perNamespaceProvidersSupported s /\
  (storedClientset s = true -> perNamespaceProvidersSupported s = Some true ->
   match default api reader with
   | Err _ => hasT1Namespaces s' = hasT1Namespaces s /\ hasVPCNamespaces s' = hasVPCNamespaces s
   | Ok items => hasT1Namespaces s' = (providers (storedEnableVPCNetwork s) items).1 /\
                 hasVPCNamespaces s' = storedEnableVPCNetwork s || (providers (storedEnableVPCNetwork s) items).2
   end).
Proof.
  assert (Hsrc : RefreshMixedModeState s reader api = RefreshMixedModeState s None (default api reader)).
  { unfold RefreshMixedModeState. destruct reader as [rd|]; [|done]. simpl default. by rewrite scan_same. }
  rewrite Hsrc. set (src := default api reader). clearbody src. clear Hsrc reader api.
  unfold RefreshMixedModeState. destruct (storedClientset s) eqn:Ec; [|simpl; naive_solver].
  cbn [negb]. case_bool_decide as Hf; [naive_solver|].
  destruct src as [items|e]; [|simpl; naive_solver].
  pose proof (scan_api (storedEnableVPCNetwork s) items (conflicts s)) as Hapi.
  destruct (scanNamespaceProvidersFromAPI _ _ _) as [r l]. simpl in Hapi. subst r.
  destruct (providers (storedEnableVPCNetwork s) items) as [t v]. simpl. split_and!; [|done|].
  - rewrite orb_true_iff, !negb_true_iff, !bool_decide_eq_false. naive_solver.
  - intros _ _. split; [done|]. by destruct (storedEnableVPCNetwork s).
Qed.

(** ** Examples *)
Definition t1_ns : Namespace := mkNs "ns1" {[ T1DefaultConfigAnnotation := " True " ]}.
Definition vpc_ns : Namespace := mkNs "ns2" {[ VPCNetworkConfigAnnotation := "default" ]}.
Definition both_ns : Namespace := mkNs "ns3"
  (<[ T1NsxNetworkConfigAnnotation := "cfg" ]> {[ VPCNetworkConfigAnnotation := "default" ]}).
Definition demo_NestedMap (m : list (string * json)) (k : string) : option (list (string * json)) :=
  match jlookup k m with Some (JMap m') => Some m' | _ => None end.
Definition capable : list (string * json) :=
  [("status", JMap [("supervisor", JMap [("supports_per_namespace_network_provider",
     JMap [("activated", JBool true)])])])].
Definition demo_mixed : mm_state :=
  default mm0 (initMixedModeWithClients demo_NestedMap mm0 [mkAttempt (Err (EText "not ready")) false; mkAttempt (Ok capable) false]
    [mkAttempt (Ok [t1_ns; both_ns; vpc_ns]) false] false).
Example demo_mixed_flags : hasT1Namespaces demo_mixed = true /\ hasVPCNamespaces demo_mixed = true.
Proof. vm_compute. done. Qed.

Lemma scan_spec_witness :
  exists t1 vpc,
    (scanNamespaceProvidersFromAPI false (Some (Ok [t1_ns; both_ns])) ∅).1 = Ok (t1, vpc) /\ t1 || vpc = true.
Proof.
  destruct (scan_spec false [t1_ns; both_ns] [both_ns; t1_ns] ∅ ∅) as (t1 & vpc & H1 & _ & H2 & _).
  { apply Permutation_swap. }
  by exists t1, vpc.
Defined.
Lemma retry_loop_spec_witness :
  retry_loop (A := bool) retryInitialInterval
    ([mkAttempt (Err (EText "e")) false; mkAttempt (Err (EText "e")) false] ++ mkAttempt (Ok true) false :: []) =
  (Some (Some true), [2; 4]).
Proof.
  pose proof (retry_loop_spec [mkAttempt (Err (EText "e")) false; mkAttempt (Err (EText "e")) false] []
    (mkAttempt (Ok true) false) ltac:(repeat constructor) ltac:(left; reflexivity)) as H.
  destruct (retry_loop _ _) as [r w]. destruct H as [-> ->]. reflexivity.
Defined.
Lemma namespace_provider_exclusive_witness :
  (IsT1Namespace demo_mixed (Some both_ns)).1 && (IsVPCNamespace demo_mixed (Some both_ns)).1 = false.
Proof.
  refine (proj1 (namespace_provider_exclusive demo_NestedMap demo_mixed both_ns _)).
  apply rtc_once, (step_init demo_NestedMap mm0 demo_mixed [mkAttempt (Err (EText "not ready")) false; mkAttempt (Ok capable) false]
    [mkAttempt (Ok [t1_ns; both_ns; vpc_ns]) false] false). vm_compute. reflexivity.
Defined.
