(* ===== verification/RealizeState.v ===== *)
(** * pkg/nsx/services/realizestate/realize_state.go: waiting for realization

    After an intent is written the service polls its realized entities until
    all are realized, and turns the alarms of an entity in error into an error
    value that carries all their codes. *)
From S2P Require Import Prelude GoStrings Errors Interfaces.

(** [PolicyAlarmResource]; [ErrorDetails] is an API error with its related ones. *)
Record Alarm := mkAlarm { alarm_Message : option string; alarm_ErrorDetails : option ApiError }.
(** [GenericPolicyRealizedResource] *)
Record Entity := mkEntity { ent_State : option string; ent_Id : option string; ent_Alarms : list Alarm }.

Definition STATE_REALIZED := "REALIZED".
Definition STATE_ERROR := "ERROR".

Definition IsRetryRealizeError (alarm : Alarm) : bool :=
  match alarm_ErrorDetails alarm with
  | Some d => bool_decide (api_ErrorCode d = Some ProviderNotReadyErrorCode)
  | None => false
  end.

(** The variables of the loop over alarms. *)
Record alarm_vars := mkAlarmVars { errMsg : list string; errorCode : Z; relatedCodes : list Z }.
Definition related_step (v : alarm_vars) (relatedErr : RelatedApiError) : alarm_vars :=
  let msgs :=
    match rel_ErrorMessage relatedErr, rel_ErrorCode relatedErr with
    | Some m, Some c => errMsg v ++ ["[error code: " +:+ itoa c +:+ ", message: " +:+ m +:+ "]"]
    | Some m, None => errMsg v ++ [m]
    | None, _ => errMsg v
    end in
  mkAlarmVars msgs (errorCode v)
    (match rel_ErrorCode relatedErr with Some c => relatedCodes v ++ [c] | None => relatedCodes v end).
Definition alarm_step (v : alarm_vars) (alarm : Alarm) : alarm_vars :=
  let v := mkAlarmVars (errMsg v ++ option_list (alarm_Message alarm)) (errorCode v) (relatedCodes v) in
  match alarm_ErrorDetails alarm with
  | None => v
  | Some d =>
      let v := match api_ErrorCode d with
               | None => v
               | Some code =>
                   if bool_decide (errorCode v = 0) then mkAlarmVars (errMsg v) code (relatedCodes v)
                   else mkAlarmVars (errMsg v) (errorCode v) (relatedCodes v ++ [code])
               end in
      foldl related_step v (api_RelatedErrors d)
  end.
(** The error of an entity in error. *)
Fixpoint alarms_error (intentPath : string) (v : alarm_vars) (alarms : list Alarm) : goerr :=
  match alarms with
  | [] => ERealizeState (intentPath +:+ " realized with errors: " +:+ fmt_strs (errMsg v))
            (errorCode v) (relatedCodes v)
  | alarm :: alarms' =>
      let v := alarm_step v alarm in
      if IsRetryRealizeError alarm
      then ERetryRealize (intentPath +:+ " not realized with errors: " +:+ fmt_strs (errMsg v))
      else alarms_error intentPath v alarms'
  end.

(** How many of [extraIds] an entity's identifier matches; [None] is the panic
    on a nil identifier. *)
Definition count_extra (extraIds : list string) (id : option string) : option nat :=
  match extraIds with
  | [] => Some 0%nat
  | _ => i ← id; Some (length (filter (fun x => i = x) extraIds))
  end.
(** The loop over the entities: an error that ends it, or the two counters. *)
Fixpoint entities_loop (intentPath : string) (extraIds : list string) (results : list Entity)
    (entitiesRealized extraIdsRealized : nat) : option (result goerr (nat * nat)) :=
  match results with
  | [] => Some (Ok (entitiesRealized, extraIdsRealized))
  | result :: results' =>
      state ← ent_State result;
      if bool_decide (state = STATE_REALIZED) then
        n ← count_extra extraIds (ent_Id result);
        entities_loop intentPath extraIds results' (Datatypes.S entitiesRealized) (extraIdsRealized + n)
      else if bool_decide (state = STATE_ERROR) then
        Some (Err (alarms_error intentPath (mkAlarmVars [] 0 []) (ent_Alarms result)))
      else entities_loop intentPath extraIds results' entitiesRealized extraIdsRealized
  end.
(** One attempt, on what NSX lists; [None] is a panic. *)
Definition check_once (intentPath : string) (extraIds : list string)
    (listed : result goerr (list Entity)) : option (option goerr) :=
  match listed with
  | Err e => Some (TransNSXApiError (Some e))
  | Ok results =>
      r ← entities_loop intentPath extraIds results 0 0;
      match r with
      | Err e => Some (Some e)
      | Ok (entitiesRealized, extraIdsRealized) =>
          if bool_decide (results <> []) && bool_decide (entitiesRealized = length results) &&
             bool_decide (length extraIds <= extraIdsRealized)%nat
          then Some None
          else Some (Some (EText (intentPath +:+ " not realized")))
      end
  end.

Section Service.
Context {N : Type} `{!RetryDriver}.
(** [RealizedEntitiesClient.List] and [RealizedEntityClient.Get] (the values of
    the extended attributes, by key). *)
Context (List_ : string -> N -> result goerr (list Entity) * N).
Context (Get : string -> result goerr (list (option string * list string))).

(** [CheckRealizeState]; [None] is a panic in an attempt. *)
Definition realize_fn (intentPath : string) (extraIds : list string) (s : N * bool)
  : option goerr * (N * bool) :=
  let '(listed, nsx) := List_ intentPath s.1 in
  match check_once intentPath extraIds listed with
  | None => (None, (nsx, true))
  | Some e => (e, (nsx, false))
  end.
Definition CheckRealizeState (intentPath : string) (extraIds : list string) (nsx : N)
  : option (option goerr * N) :=
  let '(e, (nsx, panicked)) :=
    OnError (fun err => negb (IsRealizeStateError (Some err))) (realize_fn intentPath extraIds) (nsx, false) in
  if panicked : bool then None else Some (e, nsx).

Definition interface_ip (ip : string) : option string :=
  match split_on "/" ip with [addr; _] => Some addr | _ => None end.
Definition GetPolicyInterfaceIPs (realizedPath : string) : result goerr (list string) :=
  match Get realizedPath with
  | Err e => match TransNSXApiError (Some e) with Some e => Err e | None => Err e end
  | Ok attributes =>
      let ips := mjoin (map (fun a => if bool_decide (a.1 = Some "IpAddresses")
                                      then omap interface_ip a.2 else []) attributes) in
      match ips with
      | [] => Err (EText (realizedPath +:+ " LB SNAT IP not found"))
      | _ => Ok ips
      end
  end.
End Service.

(** ** Facts *)

(** The codes of an alarm: its own and those of its related errors. *)
Definition alarm_codes (a : Alarm) : list Z := api_codes (alarm_ErrorDetails a).

Definition vars_codes (v : alarm_vars) : list Z := errorCode v :: relatedCodes v.

Lemma related_codes v l :
  errorCode (foldl related_step v l) = errorCode v /\
  relatedCodes (foldl related_step v l) = relatedCodes v ++ omap id (map rel_ErrorCode l).
Proof.
  revert v; induction l as [|r l IH]; intros v; simpl; [by rewrite app_nil_r|].
  destruct (IH (related_step v r)) as [-> ->]. simpl. split; [done|].
  destruct (rel_ErrorCode r); simpl; [by rewrite <- app_assoc|done].
Qed.
Lemma alarm_step_codes v a c :
  0 < c -> c ∈ vars_codes (alarm_step v a) <-> c ∈ vars_codes v \/ c ∈ alarm_codes a.
Proof.
  intros Hc. unfold alarm_step, alarm_codes, vars_codes, api_codes.
  destruct (alarm_ErrorDetails a) as [d|]; [|simpl; set_solver].
  destruct (related_codes (match api_ErrorCode d with
    | None => mkAlarmVars (errMsg v ++ option_list (alarm_Message a)) (errorCode v) (relatedCodes v)
    | Some code => if bool_decide (errorCode v = 0)
        then mkAlarmVars (errMsg v ++ option_list (alarm_Message a)) code (relatedCodes v)
        else mkAlarmVars (errMsg v ++ option_list (alarm_Message a)) (errorCode v) (relatedCodes v ++ [code])
    end) (api_RelatedErrors d)) as [He Hr].
  simpl in *. rewrite He, Hr. clear He Hr.
  destruct (api_ErrorCode d) as [code|]; simpl; [|set_solver].
  case_bool_decide as H0; simpl; [|set_solver]. rewrite H0. set_solver by lia.
Qed.
(** The error of an entity: a retry when an alarm says so, and otherwise the
    codes of all alarms. *)
Lemma alarms_error_spec path v alarms :
  (exists m, alarms_error path v alarms = ERetryRealize m /\ existsb IsRetryRealizeError alarms = true) \/
  (exists m c r, alarms_error path v alarms = ERealizeState m c r /\ existsb IsRetryRealizeError alarms = false /\
     forall x, 0 < x -> x ∈ c :: r <-> x ∈ vars_codes v \/ exists a, a ∈ alarms /\ x ∈ alarm_codes a).
Proof.
  revert v; induction alarms as [|a alarms IH]; intros v; simpl.
  - right. do 3 eexists. split; [done|]. split; [done|]. intros x Hx. set_solver.
  - destruct (IsRetryRealizeError a); [left; by eexists|]. simpl.
    destruct (IH (alarm_step v a)) as [(m & -> & Hm)|(m & c & r & -> & Hm & Hc)]; [left; by exists m|].
    right. exists m, c, r. split; [done|]. split; [done|]. intros x Hx.
    rewrite (Hc x Hx), alarm_step_codes by done. set_solver.
Qed.

Definition realized (e : Entity) : Prop := ent_State e = Some STATE_REALIZED.
(** How often an entity carries one of the identifiers. *)
Definition extra_matches (extraIds : list string) (results : list Entity) : nat :=
  sum_list_with (fun e => default 0%nat (count_extra extraIds (ent_Id e))) results.

#[local] Arguments extra_matches : simpl never.
#[local] Arguments ExtractAllErrorCodes : simpl never.
Lemma extra_matches_cons extraIds e results :
  extra_matches extraIds (e :: results) =
  (default 0%nat (count_extra extraIds (ent_Id e)) + extra_matches extraIds results)%nat.
Proof. done. Qed.
Lemma entities_loop_Ok path extraIds results n m n' m' :
  entities_loop path extraIds results n m = Some (Ok (n', m')) ->
  (n <= n' <= n + length results)%nat /\
  (n' = n + length results <-> Forall realized results)%nat /\
  (Forall realized results -> m' = (m + extra_matches extraIds results)%nat).
Proof.
  revert n m; induction results as [|e results IH]; intros n m; simpl.
  - intros [= <- <-]. split; [lia|]. split; [split; [constructor|lia]|]. unfold extra_matches; simpl; lia.
  - rewrite !Forall_cons. assert (Hre : realized e <-> ent_State e = Some STATE_REALIZED) by done.
    rewrite Hre. destruct (ent_State e) as [s|] eqn:Es; simpl; [|done].
    case_bool_decide as Hs.
    + destruct (count_extra extraIds (ent_Id e)) as [k|] eqn:Ek; simpl; [|done].
      intros (H1 & H2 & H3)%IH. split; [lia|]. split.
      * rewrite Hs. split; [intros; split; [done|apply H2; lia]|intros [_ ?%H2]; lia].
      * intros [_ Hm%H3]. rewrite Hm, extra_matches_cons, Ek. simpl. lia.
    + case_bool_decide as He; [done|]. intros (H1 & H2 & H3)%IH. split; [lia|].
      split; [split; [lia|by intros [[= ?] _]]|by intros [[= ?] _]].
Qed.
Lemma entities_loop_Err path extraIds results n m e :
  entities_loop path extraIds results n m = Some (Err e) ->
  exists ent, ent ∈ results /\ ent_State ent = Some STATE_ERROR /\
    e = alarms_error path (mkAlarmVars [] 0 []) (ent_Alarms ent).
Proof.
  revert n m; induction results as [|r results IH]; intros n m; simpl; [done|].
  destruct (ent_State r) as [s|] eqn:Es; simpl; [|done].
  case_bool_decide as Hs.
  - destruct (count_extra extraIds (ent_Id r)); simpl; [|done]. intros (ent & ? & ?)%IH. exists ent. split; [by right|done].
  - case_bool_decide as He; [intros [= <-]|]; [exists r; split; [left|by subst s]|].
    intros (ent & ? & ?)%IH. exists ent. split; [by right|done].
Qed.

Lemma check_once_success_aux path extraIds listed :
  check_once path extraIds listed = Some None ->
  exists results, listed = Ok results /\ results <> [] /\
    (forall e, e ∈ results -> ent_State e = Some STATE_REALIZED) /\
    (length extraIds <= extra_matches extraIds results)%nat.
Proof.
  unfold check_once. destruct listed as [results|e].
  2:{ unfold TransNSXApiError. destruct (DumpAPIError e) as [[?|] [?|]]; done. }
  destruct (entities_loop _ _ _ _ _) as [[[n m]|e]|] eqn:El; simpl; try done.
  destruct (bool_decide _ && _ && _) eqn:Eb; [|done]. intros _. go_bool. destruct Eb as [[H1 H2] H3]. go_bool.
  apply entities_loop_Ok in El as (_ & Hall & Hm). exists results.
  assert (Hr : Forall realized results) by (apply Hall; lia).
  split_and!; [done|done| |].
  - intros e He. by apply (proj1 (Forall_forall _ _) Hr).
  - rewrite (Hm Hr) in H3. lia.
Qed.

(** C30. No error code of an entity in error is lost: the error that is not
    retried carries, by [ExtractAllErrorCodes], exactly the positive codes of
    all the entity's alarms and their related errors; and an alarm that says
    the provider is not ready is always retried. *)
Theorem realize_error_codes path extraIds results m c r :
  check_once path extraIds (Ok results) = Some (Some (ERealizeState m c r)) ->
  exists ent, ent ∈ results /\ ent_State ent = Some STATE_ERROR /\
    (forall a, a ∈ ent_Alarms ent -> IsRetryRealizeError a = false) /\
    forall x, x ∈ ExtractAllErrorCodes (Some (ERealizeState m c r)) <->
      0 < x /\ exists a, a ∈ ent_Alarms ent /\ x ∈ alarm_codes a.
Proof.
  unfold check_once. destruct (entities_loop _ _ _ _ _) as [[[n k]|e]|] eqn:El; simpl; [|intros [= ->]|done].
  { destruct (_ && _); discriminate. }
  destruct (entities_loop_Err _ _ _ _ _ _ El) as (ent & Hin & Hst & He). exists ent. split; [done|]. split; [done|].
  destruct (alarms_error_spec path (mkAlarmVars [] 0 []) (ent_Alarms ent)) as [(m' & Heq & _)|(m' & c' & r' & Heq & Hno & Hc)].
  { by rewrite Heq in He. }
  rewrite Heq in He. injection He as -> -> ->. split.
  - intros a Ha. apply not_true_iff_false. intros Ht. rewrite <- not_true_iff_false in Hno. apply Hno.
    apply existsb_exists. exists a. split; [by apply list_elem_of_In|done].
  - intros x. rewrite ExtractAllErrorCodes_offered, elem_of_foldl_addCode.
    change (offered_codes (ERealizeState m' c' r')) with ((c' :: r') ++ []). rewrite app_nil_r.
    split; [intros [?%elem_of_nil|[Hx Hp]]; [done|]|intros [Hp Ha]; right; split; [|done]].
    + split; [done|]. apply Hc in Hx as [Hx|Hx]; [|done|done]. unfold vars_codes in Hx. set_solver by lia.
    + apply Hc; [done|]. by right.
Qed.

(** When [CheckRealizeState] succeeds, however often it retried, the last
    listing it read showed at least one entity, only realized ones, and at
    least as many matches of the extra identifiers as there are. *)
Theorem CheckRealizeState_success {N} `{!RetryDriver} (List_ : string -> N -> result goerr (list Entity) * N)
    path extraIds nsx nsx' :
  CheckRealizeState List_ path extraIds nsx = Some (None, nsx') ->
  exists n results, List_ path n = (Ok results, nsx') /\ results <> [] /\
    (forall e, e ∈ results -> ent_State e = Some STATE_REALIZED) /\
    (length extraIds <= extra_matches extraIds results)%nat.
Proof.
  unfold CheckRealizeState. destruct (OnError _ _ _) as [e [n' panicked]] eqn:Eo.
  destruct panicked; [done|]. intros [= -> <-].
  destruct (OnError_attempts _ (fun err => negb (IsRealizeStateError (Some err)))
    (realize_fn List_ path extraIds) (nsx, false)) as [k Hk]. rewrite Hk in Eo.
  apply attempts_success in Eo as [[n0 p0] Hfn]. unfold realize_fn in Hfn. simpl in Hfn.
  destruct (List_ path n0) as [listed n1] eqn:El.
  destruct (check_once path extraIds listed) as [e|] eqn:Ec; [|done].
  injection Hfn as -> ->. destruct (check_once_success_aux path extraIds listed Ec) as (results & -> & Hne & Hall & Hx).
  by exists n0, results.
Qed.

(** ** Examples *)
Definition ok_entity : Entity := mkEntity (Some STATE_REALIZED) (Some "a") [].
Definition bad_entity : Entity := mkEntity (Some STATE_ERROR) (Some "b")
  [mkAlarm (Some "m1") (Some (mkApiError (Some 100) None None [mkRelated (Some 200) (Some "r") None None]));
   mkAlarm None (Some (mkApiError (Some 300) None None []))].
(** NSX realizes the intent at the third poll. *)
Definition demo_List (path : string) (n : nat) : result goerr (list Entity) * nat :=
  (match n with
   | O => Err (EText "unreachable")
   | 1%nat => Ok [mkEntity (Some "UNREALIZED") None []]
   | _ => Ok [ok_entity]
   end, Datatypes.S n).

Lemma realize_error_codes_witness :
  exists ent, ent ∈ [ok_entity; bad_entity] /\ ent_State ent = Some STATE_ERROR /\
    (forall a, a ∈ ent_Alarms ent -> IsRetryRealizeError a = false) /\
    forall x, x ∈ ExtractAllErrorCodes (Some (ERealizeState
        "/p realized with errors: [m1 [error code: 200, message: r]]" 100 [200; 300])) <->
      0 < x /\ exists a, a ∈ ent_Alarms ent /\ x ∈ alarm_codes a.
Proof.
  apply (realize_error_codes "/p" [] [ok_entity; bad_entity]). vm_compute. reflexivity.
Defined.
Lemma CheckRealizeState_success_witness :
  exists n results, demo_List "/p" n = (Ok results, 3%nat) /\ results <> [] /\
    (forall e, e ∈ results -> ent_State e = Some STATE_REALIZED) /\
    (length ["a"] <= extra_matches ["a"] results)%nat.
Proof.
  apply (CheckRealizeState_success demo_List "/p" ["a"] 0%nat 3%nat). vm_compute. reflexivity.
Defined.

(** The matches are counted over all identifiers together: one identifier
    listed twice stands in for another that is not listed at all. *)
Lemma extra_id_missed :
  check_once "/p" ["a"; "b"] (Ok [ok_entity; ok_entity]) = Some None.
Proof. reflexivity. Qed.
