(* ===== verification/Service.v ===== *)
(** * Services: a store and the world outside

    What the services under pkg/nsx/services share: the state made of local
    stores and the world of NSX and Kubernetes, calls of NSX with translated
    errors, the check of a realization, and the facts on calls that leave the
    stores as they are. *)
From S2P Require Import Prelude GoStrings Errors NsxUtil Names Interfaces GoMonad RealizeState.

Record service_state (I W : Type) := mkService { svc_store : I; svc_world : W }.
Arguments mkService {I W} _ _.
Arguments svc_store {I W} _.
Arguments svc_world {I W} _.
(** What a path that cannot be parsed gives. *)
Definition no_info : VPCResourceInfo := mkVPCInfo "" "" "" "" "".
(** [TransNSXApiError] is applied to the error of a call of NSX. *)
Definition translated {A} (r : result goerr A) : result goerr A :=
  match r with Ok a => Ok a | Err e => Err (default e (TransNSXApiError (Some e))) end.
Definition error_result (e : option goerr) : result goerr unit := match e with Some e => Err e | None => Ok tt end.

Section Calls.
Context {I W : Type}.
Definition Svc : Type -> Type := ST (service_state I W).
Definition on_world {A} (f : W -> A * W) : Svc A := fun s =>
  let '(a, w) := f (svc_world s) in Some (Ok a, mkService (svc_store s) w).
Definition world_result {A} (f : W -> result goerr A * W) : Svc A := fun s =>
  let '(r, w) := f (svc_world s) in Some (r, mkService (svc_store s) w).
Definition nsx_call (f : W -> option goerr * W) : Svc unit :=
  world_result (fun w => let '(e, w') := f w in (translated (error_result e), w')).
Definition nsx_result {A} (f : W -> result goerr A * W) : Svc A :=
  world_result (fun w => let '(r, w') := f w in (translated r, w')).
Definition on_store (f : I -> I) : Svc unit := fun s => Some (Ok tt, mkService (f (svc_store s)) (svc_world s)).
(** A failure of the check is returned as a value. *)
Definition check_realized `{!RetryDriver} (lst : string -> W -> result goerr (list Entity) * W) (path : string) (extraIds : list string)
  : Svc (option goerr) := fun s =>
  match CheckRealizeState lst path extraIds (svc_world s) with
  | None => None
  | Some (e, w) => Some (Ok e, mkService (svc_store s) w)
  end.

(** ** Calls that leave the stores as they are *)
Definition stable {A} (m : Svc A) : Prop := forall s r s', m s = Some (r, s') -> svc_store s' = svc_store s.
Lemma stable_bind {A B} (m : Svc A) (k : A -> Svc B) : stable m -> (forall a, stable (k a)) -> stable (bindM m k).
Proof.
  intros Hm Hk s r s2 [(a & s1 & H1 & H2)|(e & H1 & _)]%bindM_Some; [|by apply Hm in H1].
  by rewrite (Hk a _ _ _ H2), (Hm _ _ _ H1).
Qed.
Lemma stable_ret {A} (a : A) : stable (mret a).
Proof. by intros s r s' [= <- <-]. Qed.
Lemma stable_fail {A} e : stable (A := A) (mfail e).
Proof. by intros s r s' [= <- <-]. Qed.
Lemma stable_total {A} (o : option A) : stable (mtotal o).
Proof. intros s r s'. unfold mtotal. destruct o; [|done]. by intros [= <- <-]. Qed.
Lemma stable_result {A} (r : result goerr A) : stable (mresult r).
Proof. by intros s r' s' [= <- <-]. Qed.
Lemma stable_get : stable mget.
Proof. by intros s r s' [= <- <-]. Qed.
Lemma stable_catch {A} (m : Svc A) : stable m -> stable (mcatch m).
Proof. intros Hm s r s' (r' & -> & Hc)%mcatch_Some. by apply Hm in Hc. Qed.
Lemma stable_on_world {A} (f : W -> A * W) : stable (on_world f).
Proof. intros s r s'. unfold on_world. destruct (f _) as [a w]. by intros [= <- <-]. Qed.
Lemma stable_world_result {A} (f : W -> result goerr A * W) : stable (world_result f).
Proof. intros s r s'. unfold world_result. destruct (f _) as [a w]. by intros [= <- <-]. Qed.
Lemma stable_nsx_call f : stable (nsx_call f).
Proof. apply stable_world_result. Qed.
Lemma stable_nsx_result {A} (f : W -> result goerr A * W) : stable (nsx_result f).
Proof. apply stable_world_result. Qed.
Lemma stable_loop {A S} (f : S -> A -> Svc S) l : (forall x a, stable (f x a)) -> forall x, stable (mloop f x l).
Proof. intros Hf. induction l as [|a l IH]; intros x; [apply stable_ret|]. apply stable_bind; [apply Hf|intros; apply IH]. Qed.
Lemma stable_check `{!RetryDriver} lst path ids : stable (check_realized lst path ids).
Proof. intros s r s'. unfold check_realized. destruct (CheckRealizeState _ _ _ _) as [[e w]|]; [|done]. by intros [= <- <-]. Qed.
End Calls.
Create HintDb stable.
#[export] Hint Resolve stable_bind stable_ret stable_fail stable_total stable_result stable_get stable_catch stable_on_world
  stable_world_result stable_nsx_call stable_nsx_result stable_loop stable_check : stable.

(** Tags as texts, for the concrete encoders of the witnesses. *)
#[global] Instance Tag_countable : Countable Tag :=
  inj_countable' (fun t => (tag_Scope t, tag_Tag t)) (fun p => mkTag p.1 p.2) ltac:(by intros []).
Fixpoint bits (p : positive) : string := match p with xH => "" | xO p => String "0" (bits p) | xI p => String "1" (bits p) end.
#[global] Instance bits_inj : Inj (=) (=) bits.
Proof. intros p. induction p as [p IH|p IH|]; intros [q|q|]; cbn; try done; intros [= Hq]; by rewrite (IH q Hq). Qed.
(** The fields of an object as a text. *)
Definition field_text (fields : list positive) : string := bits (encode fields).
#[global] Instance field_text_inj : Inj (=) (=) field_text.
Proof. intros l l' Hl. unfold field_text in Hl. by apply (inj bits), (inj encode) in Hl. Qed.

(** ** Objects of a store found by the UID of their owner *)
Section Owners.
Context {I A : Type} {key : A -> string} `{!Indexer I A key} (owners : A -> list string).
(** An owner has at most one object in the store. *)
Definition owned_once (st : I) : Prop := forall a b uid,
  a ∈ ix_List st -> b ∈ ix_List st -> uid ∈ owners a -> uid ∈ owners b -> key a = key b.
(** A look-up that finds an object of the owner when there is one. *)
Definition finder (find : string -> I -> option A) : Prop := forall uid st,
  match find uid st with
  | Some a => a ∈ ix_List st /\ uid ∈ owners a
  | None => forall a, a ∈ ix_List st -> uid ∉ owners a
  end.
Lemma finder_unique find uid st a : finder find -> owned_once st -> a ∈ ix_List st -> uid ∈ owners a -> find uid st = Some a.
Proof.
  intros Hf Hone Ha Hu. specialize (Hf uid st). destruct (find uid st) as [x|]; [|by apply Hf in Ha].
  destruct Hf as [Hx Hux]. pose proof (Hone _ _ _ Hx Ha Hux Hu) as Hk. rewrite ix_list_get in Hx, Ha. rewrite Hk, Ha in Hx. by injection Hx.
Qed.
(** The first object an index files under the UID. *)
Lemma head_finder : finder (fun uid st => head (ix_GetByIndex owners uid st)).
Proof.
  intros uid st. assert (Hin : forall a, a ∈ ix_GetByIndex owners uid st <-> a ∈ ix_List st /\ uid ∈ owners a)
    by (intros a; rewrite elem_of_GetByIndex, ix_list_get; tauto).
  destruct (ix_GetByIndex _ _ _) as [|x l]; [|apply Hin, list_elem_of_here].
  intros a Ha Hu. by apply (not_elem_of_nil a), Hin.
Qed.
Lemma owned_once_add st a uid : owned_once st -> owners a = [uid] ->
  (forall b, b ∈ ix_List st -> uid ∈ owners b -> key b = key a) -> owned_once (ix_Add a st).
Proof.
  intros Hone Hi Hb x y u [->|[_ Hx]]%elem_of_List_add [->|[_ Hy]]%elem_of_List_add Hux Huy.
  - done.
  - rewrite Hi, list_elem_of_singleton in Hux. subst u. symmetry. by apply Hb.
  - rewrite Hi, list_elem_of_singleton in Huy. subst u. by apply Hb.
  - by eapply Hone.
Qed.
(** Adding the object a look-up returned before, or the first one of the owner. *)
Lemma owned_once_replace find st a uid : finder find -> owned_once st -> owners a = [uid] ->
  from_option (fun b => key a = key b) True (find uid st) -> owned_once (ix_Add a st) /\ find uid (ix_Add a st) = Some a.
Proof.
  intros Hf Hone Hi Hk. assert (Hone' : owned_once (ix_Add a st)).
  { apply (owned_once_add _ _ _ Hone Hi). intros b Hb Hu. by rewrite (finder_unique _ _ _ _ Hf Hone Hb Hu) in Hk. }
  split; [exact Hone'|]. apply finder_unique; try done; [apply elem_of_List_add; by left|rewrite Hi; by left].
Qed.
End Owners.
