(* ===== verification/DnsOwners.v ===== *)
(** * pkg/nsx/services/dns: owners of a DNS record (contributing.go, store.go, builder.go)

    A DNS record has one primary owner and any number of contributing owners,
    all kept in its tags: the primary owner in three tags, the contributors as
    comma-separated keys packed into two tags of at most 255 bytes each. *)
From S2P Require Import Prelude GoStrings Errors NsxUtil Names.

(** [model.DnsRecord] *)
Record DnsRecord := mkDns {
  rec_Id : option string; rec_Path : option string; rec_RecordName : option string;
  rec_DisplayName : option string; rec_Tags : list Tag; rec_RecordType : option string;
  rec_RecordValues : list string; rec_ZonePath : option string; rec_Ttl : option Z;
  rec_Fqdn : option string; rec_MarkedForDelete : option bool }.
#[global] Instance DnsRecord_eq_dec : EqDecision DnsRecord.
Proof. solve_decision. Defined.
(** [out := *rec] with new tags. *)
Definition with_tags (rec : DnsRecord) (tags : list Tag) (marked : option bool) : DnsRecord :=
  mkDns (rec_Id rec) (rec_Path rec) (rec_RecordName rec) (rec_DisplayName rec) tags (rec_RecordType rec)
    (rec_RecordValues rec) (rec_ZonePath rec) (rec_Ttl rec) (rec_Fqdn rec) marked.

(** [ResourceRef]: the kind, namespace and name of an owner. *)
Record ResourceRef := mkRef { ref_Kind : string; ref_Namespace : string; ref_Name : string }.
#[global] Instance ResourceRef_eq_dec : EqDecision ResourceRef.
Proof. solve_decision. Defined.

Definition TagScopeDNSRecordFor := "nsx-op/dns_for".
Definition TagScopeDNSRecordGatewayIndexList := "nsx-op/dns_gateway_index_list".
Definition TagScopeDNSRecordOwnerNamespace := "nsx-op/dns_owner_namespace".
Definition TagScopeDNSRecordOwnerName := "nsx-op/dns_owner_name".
Definition TagScopeDNSRecordContributingOwners := "nsx-op/dns_contributing_owners".
Definition TagScopeDNSRecordAdditionalContributingOwners := "nsx-op/dns_contributing_owners_ext".
Definition TagScopeNamespaceUID := "nsx-op/namespace_uid".

(** ** Kinds *)
Definition ResourceKindGateway := "Gateway".
Definition ResourceKindHTTPRoute := "HTTPRoute".
Definition ResourceKindGRPCRoute := "GRPCRoute".
Definition ResourceKindTLSRoute := "TLSRoute".
Definition ResourceKindService := "Service".
Definition resourceKindFromCreatedForTag (createdFor : string) : string :=
  if decide (createdFor = "httproute") then ResourceKindHTTPRoute
  else if decide (createdFor = "grpcroute") then ResourceKindGRPCRoute
  else if decide (createdFor = "tlsroute") then ResourceKindTLSRoute
  else if decide (createdFor = "gateway") then ResourceKindGateway
  else if decide (createdFor = "service") then ResourceKindService
  else "".
Definition resourceKindToCreatedFor (kind : string) : string :=
  if decide (kind = ResourceKindGateway) then "gateway"
  else if decide (kind = ResourceKindHTTPRoute) then "httproute"
  else if decide (kind = ResourceKindGRPCRoute) then "grpcroute"
  else if decide (kind = ResourceKindTLSRoute) then "tlsroute"
  else if decide (kind = ResourceKindService) then "service"
  else "".

(** ** Tags of a record *)
Definition filterTagBy (tags : list Tag) (tagScope : string) : list string :=
  omap (fun tag => if bool_decide (tag_Scope tag = Some tagScope) then tag_Tag tag else None) tags.
Definition firstTagValue (tags : list Tag) (scope : string) : string :=
  default "" (head (filterTagBy tags scope)).
Definition dnsRecordCreatedForValue (rec : DnsRecord) : string :=
  firstTagValue (rec_Tags rec) TagScopeDNSRecordFor.
Definition gatewayIndexTagFromRecord (rec : DnsRecord) : string :=
  firstTagValue (rec_Tags rec) TagScopeDNSRecordGatewayIndexList.
Definition dnsRecordOwnerKey (createdFor id : string) : string := createdFor +:+ "/" +:+ id.
Definition dnsRecordOwnerNamespacedNameKey (namespace name : string) : string := namespace +:+ "/" +:+ name.
Definition ownerCreatedForAndNNFromDNSRecord (record : DnsRecord) : option (string * string * string) :=
  let createdFor := dnsRecordCreatedForValue record in
  if bool_decide (createdFor = "") then None
  else
    let ns := firstTagValue (rec_Tags record) TagScopeDNSRecordOwnerNamespace in
    let name := firstTagValue (rec_Tags record) TagScopeDNSRecordOwnerName in
    if bool_decide (ns = "") || bool_decide (name = "") then None else Some (createdFor, ns, name).
Definition getDNSRecordOwnerNamespacedName (record : DnsRecord) : string :=
  match ownerCreatedForAndNNFromDNSRecord record with
  | None => ""
  | Some (createdFor, ns, name) => dnsRecordOwnerKey createdFor (dnsRecordOwnerNamespacedNameKey ns name)
  end.
Definition resourceRefFromDNSRecord (rec : DnsRecord) : option ResourceRef :=
  match ownerCreatedForAndNNFromDNSRecord rec with
  | None => None
  | Some (createdFor, ns, name) =>
      let kind := resourceKindFromCreatedForTag createdFor in
      if bool_decide (kind = "") then None else Some (mkRef kind ns name)
  end.
Definition parseOwnerNNIndexKey (key : string) : option (string * string * string) :=
  let key := trim_space key in
  if bool_decide (key = "") then None
  else match split_n 3 "/" key with
       | [a; b; c] => Some (a, b, c)
       | _ => None
       end.
Definition ownerNNIndexKeyForResourceRef (owner : ResourceRef) : string :=
  let createdFor := resourceKindToCreatedFor (ref_Kind owner) in
  if bool_decide (createdFor = "") then ""
  else dnsRecordOwnerKey createdFor (dnsRecordOwnerNamespacedNameKey (ref_Namespace owner) (ref_Name owner)).

(** ** Contributing owners *)
Definition parseContributingOwnersTag (raw : string) : list string :=
  let raw := trim_space raw in
  if bool_decide (raw = "") then []
  else sets_List (list_to_set (filter (fun k => k <> "") (map trim_space (split_on "," raw)))).
Definition decompressContributingTags (rec : DnsRecord) : string :=
  firstTagValue (rec_Tags rec) TagScopeDNSRecordContributingOwners.
Definition parseContributingOwnersFromRecord (rec : DnsRecord) : list string :=
  let tagKeys := parseContributingOwnersTag (decompressContributingTags rec) in
  let additionalTag := firstTagValue (rec_Tags rec) TagScopeDNSRecordAdditionalContributingOwners in
  sort_strings (tagKeys ++
    if bool_decide (additionalTag <> "") then parseContributingOwnersTag additionalTag else []).
Definition mergeContributingOwnerKeys (existing : list string) (add primaryNNKey : string) : list string :=
  let seen : gset string := list_to_set
    (filter (fun k => k <> "" /\ k <> primaryNNKey) (map trim_space existing)) in
  let k := trim_space add in
  let seen := if bool_decide (k <> "") && bool_decide (k <> primaryNNKey) then {[k]} ∪ seen else seen in
  sort_strings (elements seen).

(** [joinAndPackStrings]: the two chunks and whether something was left out. *)
Definition push (b item : string) : option string :=
  if bool_decide (255 < slen item) then None
  else
    let needComma := bool_decide (0 < slen b) in
    let addedLen := if needComma then slen item + 1 else slen item in
    if bool_decide (255 < slen b + addedLen) then None
    else Some (b +:+ (if needComma then "," else "") +:+ item).
Definition pack_step (st : string * string * bool) (item : string) : string * string * bool :=
  let '(sb, overflowSB, truncated) := st in
  match push sb item with
  | Some sb => (sb, overflowSB, truncated)
  | None =>
      match push overflowSB item with
      | Some o => (sb, o, truncated)
      | None => (sb, overflowSB, true)
      end
  end.
Definition joinAndPackStrings (src : list string) : string * string * bool :=
  match src with
  | [] => ("", "", false)
  | _ => foldl pack_step ("", "", false) (sort_strings src)
  end.
Definition formatContributingOwnersTag (keys : list string) : result goerr (string * string) :=
  match keys with
  | [] => Ok ("", "")
  | _ =>
      let '(contributionTag, extraTag, truncated) := joinAndPackStrings keys in
      if truncated : bool then Err (EText "contributing owners count exceeds maximum tag capacity")
      else Ok (contributionTag, extraTag)
  end.

(** The tags for contributors appended to [tags]. *)
Definition append_contribution_tags (tags : list Tag) (contribKeys : list string) : result goerr (list Tag) :=
  match contribKeys with
  | [] => Ok tags
  | _ =>
      match formatContributingOwnersTag contribKeys with
      | Err e => Err e
      | Ok (plain, overflow) =>
          Ok (tags ++
              (if bool_decide (plain <> "") then [newTag TagScopeDNSRecordContributingOwners plain] else []) ++
              (if bool_decide (overflow <> "")
               then [newTag TagScopeDNSRecordAdditionalContributingOwners overflow] else []))
      end
  end.
Definition appendGatewayAndContributionTags (tags : list Tag) (gwKey : string) (contribKeys : list string)
  : result goerr (list Tag) :=
  let gwKey := trim_space gwKey in
  append_contribution_tags
    (if bool_decide (gwKey <> "") then tags ++ [newTag TagScopeDNSRecordGatewayIndexList gwKey] else tags)
    contribKeys.
Definition kept_tag (t : Tag) : bool :=
  match tag_Scope t with
  | None => false
  | Some sc => negb (bool_decide (sc = TagScopeDNSRecordContributingOwners) ||
                     bool_decide (sc = TagScopeDNSRecordAdditionalContributingOwners))
  end.
Definition replaceContributingOwnersInTags (tags : list Tag) (newContribKeys : list string)
  : result goerr (list Tag) :=
  append_contribution_tags (filter (fun t => kept_tag t = true) tags) newContribKeys.

(** ** Removal of an owner *)
Section Removal.
(** The cluster's name, and the UID of a Namespace. *)
Context (cluster : string) (GetNamespaceUID : string -> string).

Definition tagsForOwner (owner : ResourceRef) : list Tag :=
  BuildClusterTags cluster ++
  [ newTag TagScopeNamespaceUID (GetNamespaceUID (ref_Namespace owner));
    newTag TagScopeDNSRecordFor (resourceKindToCreatedFor (ref_Kind owner));
    newTag TagScopeDNSRecordOwnerNamespace (ref_Namespace owner);
    newTag TagScopeDNSRecordOwnerName (ref_Name owner) ].

(** [recordAfterPrimaryDeletePromotion], for a non-empty list of keys. *)
Definition recordAfterPrimaryDeletePromotion (rec : DnsRecord) (promotedNN : string) (remaining : list string)
  : result goerr DnsRecord :=
  match parseOwnerNNIndexKey promotedNN with
  | None => Err (EText ("invalid contributing owner key " +:+ quoted promotedNN))
  | Some (createdFor, ns, name) =>
      let kind := resourceKindFromCreatedForTag createdFor in
      if bool_decide (kind = "")
      then Err (EText ("unknown created-for tag in contributing owner key " +:+ quoted promotedNN))
      else
        match appendGatewayAndContributionTags (tagsForOwner (mkRef kind ns name))
                (gatewayIndexTagFromRecord rec) remaining with
        | Err e => Err e
        | Ok tags => Ok (with_tags rec tags None)
        end
  end.
(** [recordAfterContributingRemoval]: [None] when the key is not there. *)
Definition recordAfterContributingRemoval (rec : DnsRecord) (deletedNNKey : string)
  : result goerr (option DnsRecord) :=
  let keys := parseContributingOwnersFromRecord rec in
  if decide (deletedNNKey ∈ keys) then
    match replaceContributingOwnersInTags (rec_Tags rec) (filter (fun k => k <> deletedNNKey) keys) with
    | Err e => Err e
    | Ok tags => Ok (Some (with_tags rec tags None))
    end
  else Ok None.
(** [classifyOwnerRemoval]: the records appended to [toDelete] and [toUpdate]. *)
Definition classifyOwnerRemoval (rec : DnsRecord) (deletedOwnerKey : string)
  : result goerr (list DnsRecord * list DnsRecord) :=
  let contribs := parseContributingOwnersFromRecord rec in
  if decide (getDNSRecordOwnerNamespacedName rec = deletedOwnerKey) then
    match contribs with
    | [] => Ok ([with_tags rec (rec_Tags rec) (Some true)], [])
    | promotedNN :: remaining =>
        match recordAfterPrimaryDeletePromotion rec promotedNN remaining with
        | Err e => Err e
        | Ok upd => Ok ([], [upd])
        end
    end
  else
    match recordAfterContributingRemoval rec deletedOwnerKey with
    | Err e => Err e
    | Ok (Some upd) => Ok ([], [upd])
    | Ok None => Ok ([], [])
    end.
End Removal.

(** ** Packing *)

(** A chunk as the list of its items: an item takes its length and one byte
    for a comma, and 256 bytes are available. *)
Definition weight (item : string) : Z := slen item + 1.
Definition size (l : list string) : Z := foldr (fun i n => weight i + n) 0 l.
Lemma size_app l1 l2 : size (l1 ++ l2) = size l1 + size l2.
Proof. induction l1 as [|i l1 IH]; simpl; [done|]. rewrite IH. lia. Qed.
Lemma weight_pos i : 0 < weight i.
Proof. unfold weight, slen. lia. Qed.
Lemma size_nonneg l : 0 <= size l.
Proof. induction l as [|i l IH]; simpl; [lia|]. pose proof (weight_pos i). lia. Qed.

Lemma slen_join l : Forall (fun i => i <> "") l -> l <> [] -> slen (join "," l) + 1 = size l.
Proof.
  intros Hall Hne. induction Hall as [|i l Hi Hall IH]; [done|].
  destruct l as [|j l]; [unfold size, weight; simpl; lia|].
  rewrite join_cons by done. rewrite !slen_app. specialize (IH ltac:(done)).
  change (size (i :: j :: l)) with (weight i + size (j :: l)).
  unfold weight. change (slen ",") with 1. lia.
Qed.
Lemma join_snoc sep l i : l <> [] -> join sep (l ++ [i]) = join sep l +:+ sep +:+ i.
Proof.
  induction l as [|j l IH]; [done|]. intros _. destruct l as [|j' l]; [done|].
  change ((j :: j' :: l) ++ [i]) with (j :: ((j' :: l) ++ [i])). rewrite join_cons by done.
  rewrite IH, (join_cons sep j (j' :: l)) by done. by rewrite !app_str_assoc.
Qed.
Lemma push_spec l item :
  Forall (fun i => i <> "") l -> item <> "" ->
  push (join "," l) item = if decide (size l + weight item <= 256) then Some (join "," (l ++ [item])) else None.
Proof.
  intros Hl Hi. unfold push. pose proof (proj2 (slen_pos item) Hi) as Hp. destruct (decide (l = [])) as [->|Hne].
  - change (slen (join "," [])) with 0. change (size []) with 0. unfold weight.
    rewrite (bool_decide_eq_false_2 (0 < 0)) by lia. simpl.
    destruct (decide (slen item <= 255)).
    + rewrite bool_decide_eq_false_2, bool_decide_eq_false_2, decide_True by lia. done.
    + rewrite bool_decide_eq_true_2, decide_False by lia. done.
  - pose proof (slen_join l Hl Hne) as Hs. pose proof (size_nonneg l).
    assert (Hlen : 0 < slen (join "," l)).
    { destruct l as [|i l]; [done|]. apply Forall_cons in Hl as [Hi1 _]. pose proof (proj2 (slen_pos i) Hi1).
      change (size (i :: l)) with (weight i + size l) in Hs. unfold weight in Hs. pose proof (size_nonneg l). lia. }
    rewrite (bool_decide_eq_true_2 (0 < slen (join "," l))) by done.
    rewrite join_snoc by done. unfold weight.
    destruct (decide (size l + (slen item + 1) <= 256)).
    + rewrite bool_decide_eq_false_2, bool_decide_eq_false_2 by lia. done.
    + case_bool_decide; [done|]. rewrite bool_decide_eq_true_2 by lia. done.
Qed.

(** The packing on lists of items. *)
Definition bin_step (st : list string * list string * bool) (item : string) : list string * list string * bool :=
  let '(l1, l2, t) := st in
  if decide (size l1 + weight item <= 256) then (l1 ++ [item], l2, t)
  else if decide (size l2 + weight item <= 256) then (l1, l2 ++ [item], t)
  else (l1, l2, true).
Lemma pack_step_spec l1 l2 t i :
  Forall (fun i => i <> "") l1 -> Forall (fun i => i <> "") l2 -> i <> "" ->
  pack_step (join "," l1, join "," l2, t) i =
  (join "," (bin_step (l1, l2, t) i).1.1, join "," (bin_step (l1, l2, t) i).1.2, (bin_step (l1, l2, t) i).2).
Proof.
  intros H1 H2 Hi. unfold pack_step, bin_step. rewrite !push_spec by done. by repeat case_decide.
Qed.
Lemma bins_inv items l1 l2 t :
  Forall (fun i => i <> "") items -> Forall (fun i => i <> "") l1 -> Forall (fun i => i <> "") l2 ->
  exists m1 m2 t', foldl bin_step (l1, l2, t) items = (m1, m2, t') /\
  foldl pack_step (join "," l1, join "," l2, t) items = (join "," m1, join "," m2, t') /\
  Forall (fun i => i <> "") m1 /\ Forall (fun i => i <> "") m2 /\
  (size l1 <= 256 -> size l2 <= 256 -> size m1 <= 256 /\ size m2 <= 256) /\
  (t' = false -> t = false /\ m1 ++ m2 ≡ₚ l1 ++ l2 ++ items).
Proof.
  intros Hi. revert l1 l2 t; induction Hi as [|i items Hi Hitems IH]; intros l1 l2 t H1 H2.
  { exists l1, l2, t. simpl. split_and!; [done..|]. by rewrite app_nil_r. }
  cbn [foldl]. rewrite pack_step_spec by done. unfold bin_step at 2 3 4 5.
  destruct (decide (size l1 + weight i <= 256)); [|destruct (decide (size l2 + weight i <= 256))]; cbn [fst snd].
  - destruct (IH (l1 ++ [i]) l2 t) as (m1 & m2 & t' & Hb & Hf & ? & ? & Hs & Hp);
      [by apply Forall_app; split; [|apply Forall_singleton]|done|].
    exists m1, m2, t'. split_and!; [done..| |].
    + rewrite size_app in Hs. simpl in Hs. intros. apply Hs; lia.
    + intros Ht. destruct (Hp Ht) as [? Hperm]. split; [done|]. rewrite Hperm. solve_Permutation.
  - destruct (IH l1 (l2 ++ [i]) t) as (m1 & m2 & t' & Hb & Hf & ? & ? & Hs & Hp);
      [done|by apply Forall_app; split; [|apply Forall_singleton]|].
    exists m1, m2, t'. split_and!; [done..| |].
    + rewrite size_app in Hs. simpl in Hs. intros. apply Hs; lia.
    + intros Ht. destruct (Hp Ht) as [? Hperm]. split; [done|]. rewrite Hperm. solve_Permutation.
  - destruct (IH l1 l2 true) as (m1 & m2 & t' & Hb & Hf & ? & ? & Hs & Hp); [done..|].
    exists m1, m2, t'. split_and!; [done..|]. intros Ht. by destruct (Hp Ht).
Qed.

(** *** Removing an owner never needs more room *)
Lemma bins_truncated items st : st.2 = true -> (foldl bin_step st items).2 = true.
Proof.
  revert st; induction items as [|i items IH]; intros [[l1 l2] t] Ht; simpl in *; [done|]. subst t.
  apply IH. by repeat case_decide.
Qed.
(** Two runs that differ by one removed item of weight [x]: either the chunks
    are the same but for the item, or the first chunk of the smaller run is too
    full to have taken the item, and then its second chunk has room for all
    the rest. *)
Lemma bins_mono x items l1 l2 k1 k2 :
  0 < x -> size l1 <= 256 -> size l2 <= 256 -> size k1 <= 256 -> size k2 <= 256 ->
  size k1 + size k2 + x = size l1 + size l2 ->
  (size k1 = size l1 - x /\ size k2 = size l2) \/ (size k1 = size l1 /\ size k2 = size l2 - x) \/ 256 < size k1 + x ->
  (foldl bin_step (l1, l2, false) items).2 = false -> (foldl bin_step (k1, k2, false) items).2 = false.
Proof.
  intros Hx. revert l1 l2 k1 k2; induction items as [|i items IH]; intros l1 l2 k1 k2 H1 H2 H3 H4 Hsum Hrel; [done|].
  cbn [foldl]. unfold bin_step at 2 4. pose proof (weight_pos i).
  assert (Hs : forall l, size (l ++ [i]) = size l + weight i) by (intros l; rewrite size_app; simpl; lia).
  destruct (decide (size l1 + weight i <= 256)); [|destruct (decide (size l2 + weight i <= 256))].
  - destruct (decide (size k1 + weight i <= 256)); [|destruct (decide (size k2 + weight i <= 256)); [|lia]];
      apply IH; rewrite ?Hs; lia.
  - destruct (decide (size k1 + weight i <= 256)); [|destruct (decide (size k2 + weight i <= 256)); [|lia]];
      apply IH; rewrite ?Hs; lia.
  - intros Ht. by rewrite bins_truncated in Ht.
Qed.
Lemma bins_sublist pre l l' :
  l' `sublist_of` l ->
  Forall (fun i => i <> "") (pre ++ l) ->
  (foldl bin_step ([], [], false) (pre ++ l)).2 = false ->
  (foldl bin_step ([], [], false) (pre ++ l')).2 = false.
Proof.
  intros Hsub. revert pre; induction Hsub as [|i l' l Hsub IH|i l' l Hsub IH]; intros pre; [done|..].
  - rewrite !(cons_middle i pre), !(assoc_L (++)). apply IH.
  - intros Hall Ht. apply IH.
    { rewrite Forall_app, Forall_cons in Hall. rewrite Forall_app. naive_solver. }
    rewrite foldl_app in Ht |- *. cbn [foldl] in Ht.
    apply Forall_app in Hall as [Hpre Hil]. apply Forall_cons in Hil as [Hi Hall].
    destruct (bins_inv pre [] [] false) as (m1 & m2 & t & Hb & _ & ? & ? & Hs & _); [done|constructor..|].
    rewrite Hb in Ht |- *. destruct Hs as [Hs1 Hs2]; [simpl; lia..|].
    destruct t; [rewrite bins_truncated in Ht; [done|]; unfold bin_step; by repeat case_decide|].
    pose proof (weight_pos i).
    assert (Hsz : forall l, size (l ++ [i]) = size l + weight i) by (intros k; rewrite size_app; simpl; lia).
    revert Ht. unfold bin_step at 2. repeat case_decide.
    + apply (bins_mono (weight i)); rewrite ?Hsz; lia.
    + apply (bins_mono (weight i)); rewrite ?Hsz; lia.
    + intros Ht. by rewrite bins_truncated in Ht.
Qed.

(** The keys fit the two tags. *)
Definition fits (keys : list string) : Prop := (joinAndPackStrings keys).2 = false.
Lemma joinAndPack_bins keys :
  Forall (fun i => i <> "") keys ->
  exists m1 m2, joinAndPackStrings keys = (join "," m1, join "," m2, (foldl bin_step ([], [], false) (sort_strings keys)).2) /\
    size m1 <= 256 /\ size m2 <= 256 /\ Forall (fun i => i <> "") m1 /\ Forall (fun i => i <> "") m2 /\
    (fits keys -> m1 ++ m2 ≡ₚ keys).
Proof.
  intros Hall. destruct keys as [|k keys]; [by exists [], []|]. set (ks := k :: keys) in *.
  destruct (bins_inv (sort_strings ks) [] [] false) as (m1 & m2 & t & Hb & Hp & ? & ? & Hs & Hperm);
    [by rewrite sort_strings_perm|constructor..|].
  destruct Hs as [Hs1 Hs2]; [simpl; lia..|]. rewrite Hb. simpl.
  assert (Hj : joinAndPackStrings ks = (join "," m1, join "," m2, t)) by exact Hp.
  exists m1, m2. split_and!; [exact Hj|done..|].
  unfold fits. rewrite Hj. intros Ht. destruct (Hperm Ht) as [_ Hpm].
  rewrite Hpm. simpl. apply sort_strings_perm.
Qed.
Lemma fits_bins keys :
  Forall (fun i => i <> "") keys -> fits keys <-> (foldl bin_step ([], [], false) (sort_strings keys)).2 = false.
Proof. intros Hall. unfold fits. by destruct (joinAndPack_bins keys Hall) as (m1 & m2 & -> & _). Qed.

Lemma StronglySorted_sublist {A} (R : relation A) l l' :
  l' `sublist_of` l -> StronglySorted R l -> StronglySorted R l'.
Proof.
  induction 1 as [|x l' l Hsub IH|x l' l Hsub IH]; intros Hs; inversion Hs as [|? ? Hs' Hall]; subst; auto.
  constructor; [auto|]. apply Forall_forall. intros y Hy.
  eapply Forall_forall; [exact Hall|]. by eapply elem_of_sublist.
Qed.
Lemma sort_strings_id l : Sorted str_le l -> sort_strings l = l.
Proof. intros Hs. apply (Sorted_unique str_le); [apply sort_strings_sorted|done|apply sort_strings_perm]. Qed.

Lemma fits_submseteq keys keys' :
  keys' ⊆+ keys -> Forall (fun i => i <> "") keys -> fits keys -> fits keys'.
Proof.
  intros Hsub Hall. assert (Hall' : Forall (fun i => i <> "") keys').
  { apply Forall_forall. intros i Hi. apply (proj1 (Forall_forall _ _) Hall). by eapply elem_of_submseteq. }
  rewrite !fits_bins by done.
  assert (Hs : keys' ⊆+ sort_strings keys) by (by rewrite sort_strings_perm).
  apply submseteq_sublist_r in Hs as (l & Hl & Hsl). rewrite Hl, (sort_strings_id l).
  - intros Hf. apply (bins_sublist [] (sort_strings keys) l Hsl); [|exact Hf]. simpl. by rewrite sort_strings_perm.
  - apply StronglySorted_Sorted. eapply StronglySorted_sublist; [exact Hsl|].
    apply (StronglySorted_merge_sort _).
Qed.

(** ** Parsing what was packed *)

(** Text that is kept as it is in a tag: no spaces and no commas. *)
Definition tag_byte (a : ascii) : bool := negb (is_space a) && negb (bool_decide (a = ","%char)).
Definition key_ok (k : string) : Prop := k <> "" /\ all_bytes tag_byte k = true.
Lemma key_ok_trim k : key_ok k -> trim_space k = k.
Proof.
  intros [_ Hk]. apply trim_space_id. eapply all_bytes_impl; [|exact Hk].
  intros a. unfold tag_byte. by rewrite andb_true_iff; intros [? _].
Qed.
Lemma key_ok_comma k : key_ok k -> contains_byte "," k = false.
Proof.
  intros [_ Hk]. apply all_bytes_no_sep. eapply all_bytes_impl; [|exact Hk].
  intros a. unfold tag_byte. by rewrite andb_true_iff; intros [_ ?].
Qed.
Lemma keys_ok_nonempty l : Forall key_ok l -> Forall (fun i => i <> "") l.
Proof. intros H. eapply Forall_impl; [exact H|]. by intros ? []. Qed.

Lemma key_ok_no_space k : key_ok k -> all_bytes (fun a => negb (is_space a)) k = true.
Proof.
  intros [_ Hk]. eapply all_bytes_impl; [|exact Hk].
  intros a. unfold tag_byte. by rewrite andb_true_iff; intros [? _].
Qed.
Lemma trim_join_keys l : Forall key_ok l -> trim_space (join "," l) = join "," l.
Proof.
  intros Hall. apply trim_space_id. induction Hall as [|k l Hk Hall IH]; [done|].
  destruct l as [|k' l]; [by apply key_ok_no_space|].
  rewrite join_cons by done. rewrite !all_bytes_app, IH, key_ok_no_space by done. done.
Qed.
Lemma join_nonempty l : Forall key_ok l -> l <> [] -> join "," l <> "".
Proof.
  intros [|k l' [Hk _] _] Hne; [done|]. destruct l' as [|k' l']; [done|].
  rewrite join_cons by done. by destruct k.
Qed.
Lemma parse_join l : Forall key_ok l -> parseContributingOwnersTag (join "," l) = sets_List (list_to_set l).
Proof.
  intros Hall. unfold parseContributingOwnersTag. rewrite trim_join_keys by done.
  destruct (decide (l = [])) as [->|Hne]; [done|].
  rewrite bool_decide_eq_false_2 by (by apply join_nonempty).
  rewrite (split_join "," l); [|done|by eapply Forall_impl; [exact Hall|apply key_ok_comma]].
  assert (Hm : map trim_space l = l).
  { clear Hne. induction Hall as [|k l Hk Hall IH]; [done|]. simpl. by rewrite IH, key_ok_trim. }
  rewrite Hm, filter_all by (by apply keys_ok_nonempty). done.
Qed.
Lemma sets_List_perm l : NoDup l -> sets_List (list_to_set l) ≡ₚ l.
Proof. intros Hnd. unfold sets_List. by rewrite sort_strings_perm, elements_list_to_set. Qed.

(** *** Tags *)
Lemma filterTagBy_app t1 t2 sc : filterTagBy (t1 ++ t2) sc = filterTagBy t1 sc ++ filterTagBy t2 sc.
Proof. apply omap_app. Qed.
Lemma firstTagValue_app t1 t2 sc : filterTagBy t1 sc = [] -> firstTagValue (t1 ++ t2) sc = firstTagValue t2 sc.
Proof. intros H1. unfold firstTagValue. by rewrite filterTagBy_app, H1. Qed.
Definition contributor_scope (sc : string) : Prop :=
  sc = TagScopeDNSRecordContributingOwners \/ sc = TagScopeDNSRecordAdditionalContributingOwners.
Definition no_contributors (tags : list Tag) : Prop := forall sc, contributor_scope sc -> filterTagBy tags sc = [].

(** The tags written for a list of contributors read back as that list, and
    the other tags are left alone. *)
Lemma append_contribution_tags_spec tags keys rec marked :
  no_contributors tags -> Forall key_ok keys -> NoDup keys -> fits keys ->
  exists tags', append_contribution_tags tags keys = Ok tags' /\
    parseContributingOwnersFromRecord (with_tags rec tags' marked) = sort_strings keys /\
    forall sc, ~ contributor_scope sc -> filterTagBy tags' sc = filterTagBy tags sc.
Proof.
  intros Hno Hok Hnd Hfit. unfold append_contribution_tags, parseContributingOwnersFromRecord, decompressContributingTags.
  destruct keys as [|k keys'].
  { eexists. split; [done|]. cbn [with_tags rec_Tags]. unfold firstTagValue.
    rewrite !Hno by (first [by left|by right]). done. }
  set (keys := k :: keys') in *.
  destruct (joinAndPack_bins keys (keys_ok_nonempty _ Hok)) as (m1 & m2 & Hj & _ & _ & _ & _ & Hp).
  specialize (Hp Hfit). assert (Hj2 : joinAndPackStrings keys = (join "," m1, join "," m2, false)).
  { unfold fits in Hfit. rewrite Hj in Hfit. simpl in Hfit. by rewrite Hj, Hfit. }
  unfold formatContributingOwnersTag. subst keys. rewrite Hj2. eexists. split; [reflexivity|].
  cbn [with_tags rec_Tags].
  assert (Hok' : Forall key_ok (m1 ++ m2)) by (by rewrite Hp). apply Forall_app in Hok' as [Hok1 Hok2].
  assert (Hnd' : NoDup (m1 ++ m2)) by (by rewrite Hp). apply NoDup_app in Hnd' as (Hnd1 & _ & Hnd2).
  assert (Hv1 : firstTagValue (tags ++
     (if bool_decide (join "," m1 <> "") then [newTag TagScopeDNSRecordContributingOwners (join "," m1)] else []) ++
     (if bool_decide (join "," m2 <> "") then [newTag TagScopeDNSRecordAdditionalContributingOwners (join "," m2)] else []))
     TagScopeDNSRecordContributingOwners = join "," m1).
  { rewrite firstTagValue_app by (apply Hno; by left). case_bool_decide; [done|].
    match goal with H : _ = "" |- _ => rewrite H end. case_bool_decide; done. }
  assert (Hv2 : firstTagValue (tags ++
     (if bool_decide (join "," m1 <> "") then [newTag TagScopeDNSRecordContributingOwners (join "," m1)] else []) ++
     (if bool_decide (join "," m2 <> "") then [newTag TagScopeDNSRecordAdditionalContributingOwners (join "," m2)] else []))
     TagScopeDNSRecordAdditionalContributingOwners = join "," m2).
  { rewrite firstTagValue_app by (apply Hno; by right).
    rewrite firstTagValue_app by (case_bool_decide; done). clear Hv1. case_bool_decide; [done|].
    match goal with H : _ = "" |- _ => by rewrite H end. }
  rewrite Hv1, Hv2, parse_join by done. split.
  - apply sort_strings_proper. rewrite <- Hp. clear Hv1 Hv2. apply Permutation_app; [by apply sets_List_perm|].
    case_bool_decide; [rewrite parse_join by done; by apply sets_List_perm|].
    destruct (decide (m2 = [])) as [->|Hne]; [done|]. by destruct (join_nonempty m2 Hok2 Hne).
  - intros sc Hsc. rewrite !filterTagBy_app.
    assert (Ht : forall sc' v, contributor_scope sc' -> filterTagBy [newTag sc' v] sc = []).
    { intros sc' v Hsc'. unfold filterTagBy. simpl. rewrite bool_decide_eq_false_2; [done|]. intros [= ->]. done. }
    repeat case_bool_decide; rewrite ?Ht by (first [by left|by right]); by rewrite ?app_nil_r.
Qed.

(** ** Owners of a record *)
Definition key_part (p : string) : Prop :=
  p <> "" /\ all_bytes (fun a => tag_byte a && negb (bool_decide (a = "/"%char))) p = true.
Definition wf_ref (r : ResourceRef) : Prop :=
  resourceKindToCreatedFor (ref_Kind r) <> "" /\ key_part (ref_Namespace r) /\ key_part (ref_Name r).
(** Keys of owners that exist: "createdFor/namespace/name". *)
Definition owner_key (k : string) : Prop := exists r, wf_ref r /\ k = ownerNNIndexKeyForResourceRef r.
Lemma key_part_tag p : key_part p -> all_bytes tag_byte p = true /\ contains_byte "/" p = false.
Proof.
  intros [_ Hp]. split; [|apply all_bytes_no_sep]; (eapply all_bytes_impl; [|exact Hp]);
    intros a; rewrite andb_true_iff; by intros [? ?].
Qed.
Lemma created_for_cases kind :
  resourceKindToCreatedFor kind <> "" ->
  resourceKindFromCreatedForTag (resourceKindToCreatedFor kind) = kind /\ kind <> "" /\
  all_bytes tag_byte (resourceKindToCreatedFor kind) = true /\
  contains_byte "/" (resourceKindToCreatedFor kind) = false.
Proof. unfold resourceKindToCreatedFor. repeat case_decide; subst; try done; intros _; by vm_compute. Qed.
Lemma ownerNN_eq r : wf_ref r ->
  ownerNNIndexKeyForResourceRef r =
  resourceKindToCreatedFor (ref_Kind r) +:+ "/" +:+ (ref_Namespace r +:+ "/" +:+ ref_Name r).
Proof. intros [Hk _]. unfold ownerNNIndexKeyForResourceRef. by rewrite bool_decide_eq_false_2. Qed.
Lemma owner_key_ok k : owner_key k -> key_ok k.
Proof.
  intros (r & Hr & ->). rewrite ownerNN_eq by done. destruct Hr as (Hk & Hns%key_part_tag & Hn%key_part_tag).
  apply created_for_cases in Hk as Hk'. split.
  - by destruct (resourceKindToCreatedFor (ref_Kind r)).
  - rewrite !all_bytes_app. destruct Hk' as (_ & _ & -> & _), Hns as [-> _], Hn as [-> _]. done.
Qed.
Lemma split_n_app_sep n c s t :
  contains_byte c s = false -> split_n (S (S n)) c (s +:+ String c t) = s :: split_n (S n) c t.
Proof.
  induction s as [|a s IH]; intros Hs; [simpl; by rewrite decide_True|].
  cbn [contains_byte] in Hs. case_decide as Hd; [done|]. specialize (IH Hs).
  change (String a s +:+ String c t) with (String a (s +:+ String c t)).
  change (split_n (S (S n)) c (String a (s +:+ String c t))) with
    (if decide (a = c) then "" :: split_n (S n) c (s +:+ String c t)
     else match split_n (S (S n)) c (s +:+ String c t) with w :: ws => String a w :: ws | [] => [String a ""] end).
  by rewrite decide_False, IH.
Qed.
(** The keys of owners read back. *)
Lemma parse_owner_key r : wf_ref r ->
  parseOwnerNNIndexKey (ownerNNIndexKeyForResourceRef r) =
  Some (resourceKindToCreatedFor (ref_Kind r), ref_Namespace r, ref_Name r).
Proof.
  intros Hr. assert (Hok : key_ok (ownerNNIndexKeyForResourceRef r)) by (apply owner_key_ok; by exists r).
  unfold parseOwnerNNIndexKey. rewrite key_ok_trim by done. destruct Hok as [Hne _].
  rewrite bool_decide_eq_false_2 by done. rewrite ownerNN_eq by done.
  destruct Hr as (Hk%created_for_cases & Hns%key_part_tag & _).
  change ("/" +:+ (ref_Namespace r +:+ "/" +:+ ref_Name r))
    with (String "/" (ref_Namespace r +:+ String "/" (ref_Name r))).
  rewrite split_n_app_sep by apply Hk. rewrite split_n_app_sep by apply Hns. done.
Qed.

Definition contributors := parseContributingOwnersFromRecord.
Definition owners (rec : DnsRecord) : gset string :=
  {[getDNSRecordOwnerNamespacedName rec]} ∪ list_to_set (contributors rec).
(** A record as the service writes it. *)
Record wf_record (rec : DnsRecord) : Prop := {
  wf_primary : owner_key (getDNSRecordOwnerNamespacedName rec);
  wf_contributors : Forall owner_key (contributors rec);
  wf_distinct : NoDup (contributors rec);
  wf_not_primary : getDNSRecordOwnerNamespacedName rec ∉ contributors rec;
  wf_fits : fits (contributors rec) }.
Lemma owner_keys_ok l : Forall owner_key l -> Forall key_ok l.
Proof. intros Hl. eapply Forall_impl; [exact Hl|apply owner_key_ok]. Qed.
(** What stays when the owners of a record change. *)
Definition same_content (r1 r2 : DnsRecord) : Prop :=
  rec_Id r1 = rec_Id r2 /\ rec_Path r1 = rec_Path r2 /\ rec_RecordName r1 = rec_RecordName r2 /\
  rec_RecordType r1 = rec_RecordType r2 /\ rec_RecordValues r1 = rec_RecordValues r2 /\
  rec_ZonePath r1 = rec_ZonePath r2 /\ rec_Fqdn r1 = rec_Fqdn r2 /\ rec_Ttl r1 = rec_Ttl r2.
Lemma with_tags_same rec tags m : same_content (with_tags rec tags m) rec.
Proof. by repeat split. Qed.

Lemma filterTagBy_cons t l sc :
  filterTagBy (t :: l) sc =
  (if bool_decide (tag_Scope t = Some sc) then match tag_Tag t with Some v => [v] | None => [] end else []) ++ filterTagBy l sc.
Proof. unfold filterTagBy. simpl. case_bool_decide; [|done]. by destruct (tag_Tag t). Qed.
Lemma kept_tag_spec t sc :
  tag_Scope t = Some sc -> kept_tag t = true <-> ~ contributor_scope sc.
Proof.
  intros Hs. unfold kept_tag, contributor_scope. rewrite Hs, negb_true_iff, orb_false_iff, !bool_decide_eq_false. tauto.
Qed.
Lemma filter_kept_no_contributors tags : no_contributors (filter (fun t => kept_tag t = true) tags).
Proof.
  intros sc Hsc. induction tags as [|t tags IH]; [done|]. rewrite filter_cons. case_decide as Hk; [|done].
  rewrite filterTagBy_cons, IH, app_nil_r. case_bool_decide as Hs; [|done].
  by apply (kept_tag_spec _ _ Hs) in Hk.
Qed.
Lemma filter_kept_other tags sc :
  ~ contributor_scope sc -> filterTagBy (filter (fun t => kept_tag t = true) tags) sc = filterTagBy tags sc.
Proof.
  intros Hsc. induction tags as [|t tags IH]; [done|].
  rewrite filter_cons. case_decide as Hk; rewrite !filterTagBy_cons, IH; [done|].
  case_bool_decide as Hs; [|done]. destruct Hk. by apply (kept_tag_spec _ _ Hs).
Qed.
Lemma getDNSRecordOwner_tags rec tags m :
  (forall sc, ~ contributor_scope sc -> filterTagBy tags sc = filterTagBy (rec_Tags rec) sc) ->
  getDNSRecordOwnerNamespacedName (with_tags rec tags m) = getDNSRecordOwnerNamespacedName rec.
Proof.
  intros Hsc. unfold getDNSRecordOwnerNamespacedName, ownerCreatedForAndNNFromDNSRecord, dnsRecordCreatedForValue, firstTagValue.
  cbn [rec_Tags with_tags]. by rewrite !Hsc by (intros [|]; done).
Qed.

Section RemovalFacts.
Context (cluster : string) (GetNamespaceUID : string -> string).
Lemma contributing_removal_spec rec k :
  wf_record rec -> k ∈ contributors rec ->
  exists upd, recordAfterContributingRemoval rec k = Ok (Some upd) /\
    getDNSRecordOwnerNamespacedName upd = getDNSRecordOwnerNamespacedName rec /\
    contributors upd ≡ₚ filter (fun k' => k' <> k) (contributors rec) /\ same_content upd rec.
Proof.
  intros [_ Hcs Hnd _ Hfit] Hk. unfold recordAfterContributingRemoval. rewrite decide_True by done.
  fold contributors. unfold replaceContributingOwnersInTags.
  assert (Hsub : filter (fun k' => k' <> k) (contributors rec) ⊆+ contributors rec).
  { apply sublist_submseteq, sublist_filter. }
  destruct (append_contribution_tags_spec (filter (fun t => kept_tag t = true) (rec_Tags rec))
              (filter (fun k' => k' <> k) (contributors rec)) rec None) as (tags & -> & Hp & Ho).
  - apply filter_kept_no_contributors.
  - apply owner_keys_ok. apply Forall_forall. intros x [_ Hx]%list_elem_of_filter. by apply (proj1 (Forall_forall _ _) Hcs).
  - by apply NoDup_filter.
  - eapply fits_submseteq; [exact Hsub| |exact Hfit]. apply keys_ok_nonempty. by apply owner_keys_ok.
  - eexists. split; [done|]. split_and!.
    + apply getDNSRecordOwner_tags. intros sc Hsc. rewrite Ho by done. by apply filter_kept_other.
    + unfold contributors at 1. rewrite Hp. apply sort_strings_perm.
    + apply with_tags_same.
Qed.
Lemma gateway_tag_other base gw sc :
  sc <> TagScopeDNSRecordGatewayIndexList ->
  filterTagBy (if bool_decide (gw <> "") then base ++ [newTag TagScopeDNSRecordGatewayIndexList gw] else base) sc =
  filterTagBy base sc.
Proof.
  intros Hsc. case_bool_decide; [|done]. rewrite filterTagBy_app, (filterTagBy_cons (newTag _ gw)).
  rewrite bool_decide_eq_false_2 by (by intros [= ?]). by rewrite app_nil_r.
Qed.
Lemma owner_tags_values r :
  no_contributors (tagsForOwner cluster GetNamespaceUID r) /\
  filterTagBy (tagsForOwner cluster GetNamespaceUID r) TagScopeDNSRecordFor = [resourceKindToCreatedFor (ref_Kind r)] /\
  filterTagBy (tagsForOwner cluster GetNamespaceUID r) TagScopeDNSRecordOwnerNamespace = [ref_Namespace r] /\
  filterTagBy (tagsForOwner cluster GetNamespaceUID r) TagScopeDNSRecordOwnerName = [ref_Name r].
Proof. split_and!; try done. by intros sc [-> | ->]. Qed.
Lemma append_ok_fits tags keys tags' : append_contribution_tags tags keys = Ok tags' -> fits keys.
Proof.
  unfold append_contribution_tags, formatContributingOwnersTag, fits. destruct keys as [|k keys]; [done|].
  by destruct (joinAndPackStrings (k :: keys)) as [[? ?] []].
Qed.
(** The tags of an owner with a gateway and contributors. *)
Lemma owner_tags_spec r gw keys :
  wf_ref r -> Forall key_ok keys -> NoDup keys -> fits keys ->
  exists tags, appendGatewayAndContributionTags (tagsForOwner cluster GetNamespaceUID r) gw keys = Ok tags /\
    forall rec m, getDNSRecordOwnerNamespacedName (with_tags rec tags m) = ownerNNIndexKeyForResourceRef r /\
      contributors (with_tags rec tags m) ≡ₚ keys.
Proof.
  intros Hr Hok Hnd Hfit. pose proof Hr as (Hk & [Hns _] & [Hn _]).
  unfold appendGatewayAndContributionTags. set (gw' := trim_space gw).
  set (tags0 := if bool_decide (gw' <> "") then _ else _).
  assert (Hno : no_contributors tags0).
  { intros sc Hsc. unfold tags0. rewrite gateway_tag_other by (by destruct Hsc; subst sc). by apply owner_tags_values. }
  destruct (append_contribution_tags_spec tags0 keys (mkDns None None None None [] None [] None None None None) None)
    as (tags & Ht & _ & Ho); [done..|].
  exists tags. split; [done|]. intros rec m.
  destruct (append_contribution_tags_spec tags0 keys rec m) as (tags' & Ht' & Hp & _); [done..|].
  rewrite Ht in Ht'. simplify_eq. split; [|unfold contributors; rewrite Hp; apply sort_strings_perm].
  destruct (owner_tags_values r) as (_ & Hv1 & Hv2 & Hv3).
  unfold getDNSRecordOwnerNamespacedName, ownerCreatedForAndNNFromDNSRecord, dnsRecordCreatedForValue, firstTagValue.
  cbn [rec_Tags with_tags]. rewrite !Ho by (by intros [|]). unfold tags0. rewrite !gateway_tag_other by done.
  rewrite Hv1, Hv2, Hv3. cbn [head default]. rewrite !bool_decide_eq_false_2 by done. cbn [orb]. by rewrite ownerNN_eq.
Qed.
Lemma promotion_spec rec r rest :
  wf_ref r -> Forall key_ok rest -> NoDup rest -> fits rest ->
  exists upd, recordAfterPrimaryDeletePromotion cluster GetNamespaceUID rec (ownerNNIndexKeyForResourceRef r) rest = Ok upd /\
    getDNSRecordOwnerNamespacedName upd = ownerNNIndexKeyForResourceRef r /\
    contributors upd ≡ₚ rest /\ same_content upd rec.
Proof.
  intros Hr Hok Hnd Hfit. unfold recordAfterPrimaryDeletePromotion. rewrite parse_owner_key by done.
  pose proof Hr as (Hk & _). destruct (created_for_cases _ Hk) as (-> & Hne & _).
  rewrite bool_decide_eq_false_2 by done. destruct r as [kind ns name].
  destruct (owner_tags_spec (mkRef kind ns name) (gatewayIndexTagFromRecord rec) rest) as (tags & Ht & Hs); [done..|].
  cbn [ref_Kind ref_Namespace ref_Name] in *. rewrite Ht. eexists. split; [done|].
  destruct (Hs rec None) as [H1 H2]. split_and!; [done..|]. apply with_tags_same.
Qed.
End RemovalFacts.

Lemma other_owner (o : gset string) k x : x ∈ o -> x <> k -> o <> {[k]}.
Proof. intros Hx Hne ->. by apply elem_of_singleton in Hx. Qed.
Lemma slen_join_bound m : Forall (fun i => i <> "") m -> size m <= 256 -> slen (join "," m) <= 255.
Proof.
  intros Hm Hs. destruct (decide (m = [])) as [->|Hne]; [done|]. pose proof (slen_join m Hm Hne). lia.
Qed.
Lemma wf_record_intro rec l :
  contributors rec ≡ₚ l -> owner_key (getDNSRecordOwnerNamespacedName rec) -> Forall owner_key l -> NoDup l ->
  getDNSRecordOwnerNamespacedName rec ∉ l -> fits l -> wf_record rec.
Proof.
  intros Hc Hp Hl Hnd Hnp Hfit. split; [done|by rewrite Hc..|].
  eapply fits_submseteq; [by rewrite Hc|by apply keys_ok_nonempty, owner_keys_ok|done].
Qed.
Lemma list_to_set_filter (P : string -> Prop) `{!forall x, Decision (P x)} (l : list string) :
  (list_to_set (filter P l) : gset string) = filter P (list_to_set l).
Proof. apply set_eq. intros x. rewrite elem_of_list_to_set, list_elem_of_filter, elem_of_filter, elem_of_list_to_set. done. Qed.

(** The three cases of a removal. *)
Lemma classify_owner_removal cluster GetNamespaceUID rec k :
  wf_record rec ->
  (k ∉ owners rec /\ classifyOwnerRemoval cluster GetNamespaceUID rec k = Ok ([], [])) \/
  (owners rec = {[k]} /\
   classifyOwnerRemoval cluster GetNamespaceUID rec k = Ok ([with_tags rec (rec_Tags rec) (Some true)], [])) \/
  (k ∈ owners rec /\ owners rec <> {[k]} /\
   exists upd, classifyOwnerRemoval cluster GetNamespaceUID rec k = Ok ([], [upd]) /\
     wf_record upd /\ owners upd = owners rec ∖ {[k]} /\ same_content upd rec).
Proof.
  intros Hwf. pose proof Hwf as [Hp Hcs Hnd Hnp Hfit]. unfold classifyOwnerRemoval. fold contributors.
  destruct (decide (getDNSRecordOwnerNamespacedName rec = k)) as [<-|Hk].
  - destruct (contributors rec) as [|k' rest] eqn:Hc.
    { right; left. split; [unfold owners; rewrite Hc; set_solver|done]. }
    right; right. apply Forall_cons in Hcs as [(r & Hr & ->) Hrest]. apply NoDup_cons in Hnd as [Hnin Hnd].
    apply not_elem_of_cons in Hnp as [Hne Hnp].
    assert (Hfr : fits rest).
    { eapply fits_submseteq; [by apply submseteq_cons| |exact Hfit].
      constructor; [|by apply keys_ok_nonempty, owner_keys_ok].
      assert (Hok : key_ok (ownerNNIndexKeyForResourceRef r)) by (apply owner_key_ok; by exists r). by destruct Hok. }
    destruct (promotion_spec cluster GetNamespaceUID rec r rest) as (upd & -> & Hpr & Hcu & Hsame);
      [done|by apply owner_keys_ok|done..|].
    split; [unfold owners; set_solver|]. split; [apply (other_owner _ _ (ownerNNIndexKeyForResourceRef r)); [unfold owners; rewrite Hc; set_solver|done]|].
    exists upd. split; [done|]. split; [|split; [|done]].
    + apply (wf_record_intro _ rest); rewrite ?Hpr; try done. by exists r.
    + unfold owners. rewrite Hpr, Hc. rewrite (list_to_set_perm_L _ _ Hcu), list_to_set_cons. clear -Hne Hnp. set_solver.
  - destruct (decide (k ∈ contributors rec)) as [Hin|Hin].
    + right; right. destruct (contributing_removal_spec rec k Hwf Hin) as (upd & -> & Hpr & Hcu & Hsame).
      split; [unfold owners; set_solver|].
      split; [apply (other_owner _ _ (getDNSRecordOwnerNamespacedName rec)); [unfold owners; set_solver|done]|].
      exists upd. split; [done|]. split; [|split; [|done]].
      * apply (wf_record_intro _ (filter (fun k' => k' <> k) (contributors rec))); rewrite ?Hpr; try done.
        -- apply Forall_forall. intros x [_ Hx]%list_elem_of_filter. by apply (proj1 (Forall_forall _ _) Hcs).
        -- by apply NoDup_filter.
        -- by intros [_ ?]%list_elem_of_filter.
        -- eapply fits_submseteq; [apply sublist_submseteq, sublist_filter| |exact Hfit].
           by apply keys_ok_nonempty, owner_keys_ok.
      * unfold owners. rewrite Hpr, (list_to_set_perm_L _ _ Hcu), list_to_set_filter. clear -Hk. set_solver.
    + left. split; [unfold owners; set_solver|]. unfold recordAfterContributingRemoval. fold contributors.
      by rewrite decide_False.
Qed.

(** ** Claims *)

(** Contributing owners written into the tags of a record read back as
    the same keys in sorted order, whatever the two tags' split of them; both
    tags hold at most 255 bytes; and the record's other tags are unchanged. *)
Theorem contributors_roundtrip rec keys :
  Forall owner_key keys -> NoDup keys -> fits keys ->
  exists tags', replaceContributingOwnersInTags (rec_Tags rec) keys = Ok tags' /\
    parseContributingOwnersFromRecord (with_tags rec tags' None) = sort_strings keys /\
    (forall sc, ~ contributor_scope sc -> filterTagBy tags' sc = filterTagBy (rec_Tags rec) sc) /\
    slen (joinAndPackStrings keys).1.1 <= 255 /\ slen (joinAndPackStrings keys).1.2 <= 255.
Proof.
  intros Hk%owner_keys_ok Hnd Hfit. unfold replaceContributingOwnersInTags.
  destruct (append_contribution_tags_spec (filter (fun t => kept_tag t = true) (rec_Tags rec)) keys rec None)
    as (tags & -> & Hp & Ho); [apply filter_kept_no_contributors|done..|].
  exists tags. split; [done|]. split; [done|]. split.
  { intros sc Hsc. rewrite Ho by done. by apply filter_kept_other. }
  destruct (joinAndPack_bins keys (keys_ok_nonempty _ Hk)) as (m1 & m2 & -> & Hs1 & Hs2 & H1 & H2 & _).
  cbn [fst snd]. split; by apply slen_join_bound.
Qed.
Definition sample_rec : DnsRecord :=
  mkDns (Some "r1") (Some "/r1") (Some "web") None
    [newTag TagScopeDNSRecordFor "gateway"; newTag TagScopeDNSRecordOwnerNamespace "ns";
     newTag TagScopeDNSRecordOwnerName "gw"; newTag TagScopeDNSRecordContributingOwners "httproute/ns/r,service/ns/web"]
    (Some "A") ["10.0.0.1"] (Some "/z1") None None None.
Lemma contributors_roundtrip_witness :
  exists tags', replaceContributingOwnersInTags (rec_Tags sample_rec) ["service/ns/web"; "httproute/ns/r"] = Ok tags' /\
    parseContributingOwnersFromRecord (with_tags sample_rec tags' None) = ["httproute/ns/r"; "service/ns/web"].
Proof.
  destruct (contributors_roundtrip sample_rec ["service/ns/web"; "httproute/ns/r"]) as (tags & Ht & Hp & _).
  - repeat constructor; [exists (mkRef "Service" "ns" "web")|exists (mkRef "HTTPRoute" "ns" "r")]; by vm_compute.
  - apply (bool_decide_unpack _). by vm_compute.
  - by vm_compute.
  - exists tags. split; [exact Ht|]. rewrite Hp. by vm_compute.
Defined.

(** Dropping contributing owners never runs out of tag space: the packing
    is first-fit in sorted order, yet a record whose contributors fit the two
    tags still fits after any of them are removed, so removing an owner of a
    written record cannot fail with a capacity error. *)
Theorem contributors_removal_fits keys keys' :
  Forall owner_key keys -> keys' ⊆+ keys ->
  (exists p, formatContributingOwnersTag keys = Ok p) -> exists p', formatContributingOwnersTag keys' = Ok p'.
Proof.
  intros Hk%owner_keys_ok Hsub [p Hp]. assert (Hfit : fits keys).
  { unfold fits. destruct keys as [|k keys]; [done|]. unfold formatContributingOwnersTag in Hp.
    by destruct (joinAndPackStrings (k :: keys)) as [[? ?] []]. }
  pose proof (fits_submseteq _ _ Hsub (keys_ok_nonempty _ Hk) Hfit) as Hf'. unfold fits in Hf'.
  destruct keys' as [|k' keys']; [by eexists|]. unfold formatContributingOwnersTag.
  destruct (joinAndPackStrings (k' :: keys')) as [[? ?] b]. simpl in Hf'. subst b. by eexists.
Qed.
Lemma contributors_removal_fits_witness :
  exists p', formatContributingOwnersTag ["service/ns/web"] = Ok p'.
Proof.
  apply (contributors_removal_fits ["httproute/ns/r"; "service/ns/web"]).
  - repeat constructor; [exists (mkRef "HTTPRoute" "ns" "r")|exists (mkRef "Service" "ns" "web")]; by vm_compute.
  - apply submseteq_cons. done.
  - eexists. by vm_compute.
Defined.

(** Removing an owner from a record: a key that owns nothing changes
    nothing; the record is deleted exactly when the removed owner was its only
    one; otherwise it is updated, the removed owner (promoting a contributor
    when it was the primary one) is the only one missing, the record stays
    well-formed and its path, values and zone are unchanged. No case fails. *)
Theorem classifyOwnerRemoval_spec cluster GetNamespaceUID rec k :
  wf_record rec ->
  (k ∉ owners rec /\ classifyOwnerRemoval cluster GetNamespaceUID rec k = Ok ([], [])) \/
  (owners rec = {[k]} /\
   classifyOwnerRemoval cluster GetNamespaceUID rec k = Ok ([with_tags rec (rec_Tags rec) (Some true)], [])) \/
  (k ∈ owners rec /\ owners rec <> {[k]} /\
   exists upd, classifyOwnerRemoval cluster GetNamespaceUID rec k = Ok ([], [upd]) /\
     wf_record upd /\ owners upd = owners rec ∖ {[k]} /\ same_content upd rec).
Proof. apply classify_owner_removal. Qed.
Lemma sample_contributors : contributors sample_rec = ["httproute/ns/r"; "service/ns/web"].
Proof. by vm_compute. Qed.
Lemma sample_wf : wf_record sample_rec.
Proof.
  apply (wf_record_intro _ ["httproute/ns/r"; "service/ns/web"]).
  - by rewrite sample_contributors.
  - exists (mkRef "Gateway" "ns" "gw"). by vm_compute.
  - repeat constructor; [exists (mkRef "HTTPRoute" "ns" "r")|exists (mkRef "Service" "ns" "web")]; by vm_compute.
  - apply (bool_decide_unpack _). by vm_compute.
  - apply (bool_decide_unpack _). by vm_compute.
  - by vm_compute.
Qed.
Lemma classifyOwnerRemoval_spec_witness :
  exists upd, classifyOwnerRemoval "c" (fun _ => "uid") sample_rec "gateway/ns/gw" = Ok ([], [upd]) /\
    wf_record upd /\ owners upd = owners sample_rec ∖ {["gateway/ns/gw"]}.
Proof.
  destruct (classifyOwnerRemoval_spec "c" (fun _ => "uid") sample_rec "gateway/ns/gw" sample_wf)
    as [[Hn _]|[[Hn _]|(_ & _ & upd & Hc & Hw & Ho & _)]].
  - exfalso. apply Hn. apply (bool_decide_unpack _). by vm_compute.
  - exfalso. revert Hn. apply (other_owner _ _ "service/ns/web"); [|done]. apply (bool_decide_unpack _). by vm_compute.
  - exists upd. split; [exact Hc|]. split; [exact Hw|exact Ho].
Defined.
