(* ===== verification/DnsZones.v ===== *)
(** * DNS endpoints and zones (dns/zones.go, dns/types.go, third_party/externaldns endpoint.go and zonefinder.go)

    Which zone of a Namespace a hostname belongs to, and the identifiers of the
    record that is written for it. [idna.Profile.ToUnicode] is a parameter. *)
From S2P Require Import Prelude GoStrings Errors NsxUtil Names DnsOwners.

Definition trim_suffix (suf s : string) : string :=
  if has_suffix suf s then take_str (String.length s - String.length suf) s else s.

(** ** Endpoints *)
Definition RecordTypeA := "A".
Definition RecordTypeAAAA := "AAAA".
Definition RecordTypeCNAME := "CNAME".
Definition RecordTypeTXT := "TXT".
Definition RecordTypeSRV := "SRV".
Definition RecordTypeNS := "NS".
Definition RecordTypePTR := "PTR".
Definition RecordTypeNAPTR := "NAPTR".
Record Endpoint := mkEndpoint {
  DNSName : string; Targets : list string; RecordType : string; SetIdentifier : string;
  RecordTTL : Z; Labels : gmap string string; ProviderSpecific : list (string * string) }.
Definition IsConfigured (ttl : Z) : bool := bool_decide (0 < ttl).

Fixpoint new_targets (seen : gset string) (target : list string) : list string :=
  match target with
  | [] => []
  | t :: target' =>
      let t := trim_space t in
      if bool_decide (t = "") then new_targets seen target'
      else if decide (t ∈ seen) then new_targets seen target'
      else t :: new_targets ({[t]} ∪ seen) target'
  end.
Definition NewTargets (target : list string) : list string := sort_strings (new_targets ∅ target).

Definition clean_target (recordType target : string) : string :=
  if bool_decide (recordType = RecordTypeTXT) || bool_decide (recordType = RecordTypeNAPTR) ||
     bool_decide (recordType = RecordTypeSRV)
  then target else trim_suffix "." target.
Definition NewEndpointWithTTL (dnsName recordType : string) (ttl : Z) (targets : list string) : option Endpoint :=
  let cleanTargets := map (clean_target recordType) targets in
  if existsb (fun label => bool_decide (63 < slen label)) (split_on "." dnsName) then None
  else Some (mkEndpoint (trim_suffix "." dnsName) cleanTargets recordType "" ttl ∅ []).
Definition NewEndpoint (dnsName recordType : string) (targets : list string) : option Endpoint :=
  NewEndpointWithTTL dnsName recordType 0 targets.
Definition EndpointKey_String (ep : Endpoint) : string :=
  DNSName ep +:+ "/" +:+ RecordType ep +:+ "/" +:+ SetIdentifier ep.
Fixpoint GetProviderSpecificProperty (l : list (string * string)) (key : string) : option string :=
  match l with
  | [] => None
  | (n, v) :: l' => if bool_decide (n = key) then Some v else GetProviderSpecificProperty l' key
  end.
Fixpoint SetProviderSpecificProperty (l : list (string * string)) (key value : string) : list (string * string) :=
  match l with
  | [] => [(key, value)]
  | (n, v) :: l' =>
      if bool_decide (n = key) then (n, value) :: l' else (n, v) :: SetProviderSpecificProperty l' key value
  end.
Definition GetBoolProviderSpecificProperty (l : list (string * string)) (key : string) : bool * bool :=
  match GetProviderSpecificProperty l key with
  | None => (false, false)
  | Some prop => if bool_decide (prop = "true") then (true, true) else (false, true)
  end.
Definition supportsAlias (e : Endpoint) : bool :=
  bool_decide (RecordType e ∈ [RecordTypeA; RecordTypeAAAA; RecordTypeCNAME]).
Definition isAlias (e : Endpoint) : bool :=
  let '(val, ok) := GetBoolProviderSpecificProperty (ProviderSpecific e) "alias" in ok && val.
Definition WithLabel (e : Endpoint) (key value : string) : Endpoint :=
  mkEndpoint (DNSName e) (Targets e) (RecordType e) (SetIdentifier e) (RecordTTL e)
    (<[key := value]> (Labels e)) (ProviderSpecific e).
(** [ep.Labels[key]]. *)
Definition label_of (e : Endpoint) (key : string) : string := default "" (Labels e !! key).

(** ** Paths of zones and records *)

(** [FindStringSubmatch] of the two patterns: [([^/]+)] between fixed segments. *)
Definition parseDnsZonePath (zonePath : string) : result goerr (string * string * string * string) :=
  let p := trim_space zonePath in
  if bool_decide (p = "") then Err (EText "empty DNS zone path")
  else
    let bad := EText ("invalid DNS zone path " +:+ quoted zonePath +:+
      ": expected /orgs/{org}/projects/{project}/dns-services/{dns-service}/zones/{zone}") in
    match split_on "/" p with
    | [e; k1; o; k2; pr; k3; d; k4; z] =>
        if bool_decide (e = "") && bool_decide (k1 = "orgs") && bool_decide (k2 = "projects") &&
           bool_decide (k3 = "dns-services") && bool_decide (k4 = "zones") &&
           bool_decide (o <> "") && bool_decide (pr <> "") && bool_decide (d <> "") && bool_decide (z <> "")
        then Ok (o, pr, d, z) else Err bad
    | _ => Err bad
    end.
Definition parseDnsRecordPolicyPath (path : string) : result goerr (string * string * string) :=
  let p := trim_space path in
  if bool_decide (p = "") then Err (EText "empty DnsRecord path")
  else
    let bad := EText ("invalid DnsRecord path " +:+ quoted path +:+
      ": expected /orgs/{org}/projects/{project}/dns-records/{record-id}") in
    match split_on "/" p with
    | [e; k1; o; k2; pr; k3; recordID] =>
        if bool_decide (e = "") && bool_decide (k1 = "orgs") && bool_decide (k2 = "projects") &&
           bool_decide (k3 = "dns-records") && bool_decide (o <> "") && bool_decide (pr <> "") &&
           bool_decide (recordID <> "")
        then
          if bool_decide (trim_space recordID = "")
          then Err (EText ("empty record id in DnsRecord path " +:+ quoted path))
          else Ok (o, pr, recordID)
        else Err bad
    | _ => Err bad
    end.

Definition getNSXDnsRecordType (recType : string) : string :=
  if bool_decide (recType = RecordTypeAAAA) then "AAAA"
  else if bool_decide (recType = RecordTypeCNAME) then "CNAME"
  else if bool_decide (recType = RecordTypeNS) then "NS"
  else if bool_decide (recType = RecordTypePTR) then "PTR"
  else "A".
Definition DNSRecordPathSegment := "dns-records".
Definition getRecordIDAndPathAndType (recordName endpointRecordType zonePath : string) : string * string * string :=
  let nsxRecordType := getNSXDnsRecordType endpointRecordType in
  let recID := replace_all "." "_" recordName in
  let '(orgID, projectID, zoneID) :=
    match parseDnsZonePath zonePath with
    | Ok (orgID, projectID, _, zoneID) => (orgID, projectID, zoneID)
    | Err _ => ("", "", "")
    end in
  let recID := recID +:+ "_" +:+ zoneID in
  let recID := if bool_decide (trim_space nsxRecordType <> "")
               then recID +:+ "_" +:+ to_lower (trim_space nsxRecordType) else recID in
  (recID, "/orgs/" +:+ orgID +:+ "/projects/" +:+ projectID +:+ "/" +:+ DNSRecordPathSegment +:+ "/" +:+ recID,
   nsxRecordType).

(** ** Zones of a hostname *)
Definition endpointDNSNameIsWildcard (dnsName : string) : bool :=
  has_prefix "*." (to_lower (trim_space dnsName)).
Definition dnsNameForZoneMatch (hostname : string) : string :=
  let h := trim_suffix "." (trim_space hostname) in
  if bool_decide (h = "") then ""
  else if has_prefix "*." (to_lower h) && bool_decide (2 <= slen h) then drop_str 2 h
  else h.

Section Zones.
(** [idnaLookup.ToUnicode]: [None] for an error. *)
Context (ToUnicode : string -> option string).

(** [ZoneIDName]: zone identifiers to zone names. *)
Definition ZoneIDName := gmap string string.
Definition zone_Add (z : ZoneIDName) (zoneID zoneName : string) : ZoneIDName :=
  <[zoneID := default zoneName (ToUnicode zoneName)]> z.
Definition convert_label (label : string) : string :=
  if contains_byte "_" label then label else default label (ToUnicode label).
Definition zone_matches (normalizedName zname : string) : bool :=
  bool_decide (normalizedName = zname) || has_suffix ("." +:+ zname) normalizedName.
Definition zone_step (normalizedName : string) (best : string * string) (kv : string * string) : string * string :=
  if zone_matches normalizedName kv.2 then
    if bool_decide (best.2 = "") || bool_decide (slen best.2 < slen kv.2) then kv else best
  else best.
Definition FindZone (z : ZoneIDName) (hostname : string) : string * string * string :=
  let normalizedName := join "." (map convert_label (split_on "." hostname)) in
  let '(zoneID, zoneName) := foldl (zone_step normalizedName) ("", "") (map_to_list z) in
  (zoneID, zoneName, normalizedName).

(** The record name relative to the zone, and the zone's path. *)
Definition getZonePathForHostname (z : ZoneIDName) (hostname : string) : result goerr (string * string) :=
  let name := dnsNameForZoneMatch hostname in
  if bool_decide (name = "") then Err (EText "empty hostname")
  else
    let '(zonePath, matchedDomain, normalizedFQDN) := FindZone z name in
    if bool_decide (matchedDomain = "") then
      Err (EText ("hostname " +:+ quoted hostname +:+ " does not match any allowed DNS domain in the namespace"))
    else if bool_decide (normalizedFQDN = matchedDomain) then
      Err (EText ("hostname " +:+ quoted hostname +:+ " must not equal to the allowed DNS domain " +:+ quoted matchedDomain))
    else
      let suffix := "." +:+ matchedDomain in
      if negb (has_suffix suffix normalizedFQDN) || bool_decide (normalizedFQDN = suffix) then
        Err (EText ("hostname " +:+ quoted hostname +:+ " does not lie under matched zone " +:+ quoted matchedDomain))
      else Ok (trim_suffix suffix normalizedFQDN, zonePath).

Definition generateZoneIdFromMap (allowedZones : gmap string string) : ZoneIDName :=
  foldl (fun z kv => zone_Add z kv.1 kv.2) ∅ (map_to_list allowedZones).

(** *** Zones known to the service *)

(** [VPCService.GetVPCNetworkConfigByNamespace], as its [Spec.DNSZones], and
    [DnsZoneClient.Get], as the zone's [DnsDomainName]. *)
Context (GetVPCNetworkConfigByNamespace : string -> result goerr (list string)).
Context (DnsZone_Get : string -> string -> string -> string -> result goerr (option string)).

Definition getDNSZoneFromNSX (zonePath : string) : result goerr (option string) :=
  match parseDnsZonePath zonePath with
  | Err e => Err e
  | Ok (orgID, projectID, dnsServiceID, zoneID) =>
      match DnsZone_Get orgID projectID dnsServiceID zoneID with
      | Err e => match TransNSXApiError (Some e) with Some e => Err e | None => Err e end
      | Ok z => Ok z
      end
  end.
(** One zone path: the cache [DNSZoneMap] is asked first and filled. *)
Fixpoint sync_zones (paths : list string) (cache mapping : gmap string string)
  : result goerr (gmap string string) * gmap string string :=
  match paths with
  | [] => (Ok mapping, cache)
  | p :: paths' =>
      match cache !! p with
      | Some domain => sync_zones paths' cache (<[p := domain]> mapping)
      | None =>
          match getDNSZoneFromNSX p with
          | Err e => (Err e, cache)
          | Ok None => (Err (EText ("DNS zone " +:+ p +:+ " returned from NSX with no domain name")), cache)
          | Ok (Some name) =>
              let domain := trim_space name in
              sync_zones paths' (<[p := domain]> cache) (<[p := domain]> mapping)
          end
      end
  end.
Definition SyncDNSZonesByVpcNetworkConfig (dnsZonePaths : list string) (cache : gmap string string)
  : result goerr (gmap string string) * gmap string string := sync_zones dnsZonePaths cache ∅.

(** [EndpointRow]. *)
Record EndpointRow := mkRow {
  row_Endpoint : Endpoint; row_zonePath : string; nsxRecordName : string;
  effectiveOwner : option ResourceRef; contributingOwnerKeys : list string }.
Definition NewEndpointRow (ep : Endpoint) (zonePath recordName : string) : EndpointRow :=
  mkRow ep zonePath recordName None [].

(** [*DNSZoneValidationError] and the other errors. *)
Inductive dns_error :=
  | DNSZoneValidationError (Msg : string) (Cause : option goerr)
  | OtherError (e : goerr).
Definition DNSZoneValidationError_Error (error_text : goerr -> string) (Msg : string) (Cause : option goerr) : string :=
  match Cause with Some c => Msg +:+ ": " +:+ error_text c | None => Msg end.
Definition Unwrap (e : dns_error) : option goerr :=
  match e with DNSZoneValidationError _ c => c | OtherError e => None end.

Fixpoint validate_loop (z : ZoneIDName) (eps : list Endpoint) (validRows : list EndpointRow)
    (validationErr : option goerr) : list EndpointRow * option goerr :=
  match eps with
  | [] => (validRows, validationErr)
  | ep :: eps' =>
      if endpointDNSNameIsWildcard (DNSName ep) then validate_loop z eps' validRows validationErr
      else
        match getZonePathForHostname z (DNSName ep) with
        | Err parseErr =>
            validate_loop z eps' validRows
              (match validationErr with None => Some parseErr | Some _ => validationErr end)
        | Ok (recName, zonePath) =>
            validate_loop z eps' (validRows ++ [NewEndpointRow ep zonePath recName]) validationErr
        end
  end.
(** The rows, the allowed zones and the error, which may come with rows; and
    the cache. *)
Definition ValidateEndpointsByZone (error_text : goerr -> string) (namespace : string) (eps : list Endpoint)
    (cache : gmap string string)
  : (list EndpointRow * gmap string string * option dns_error) * gmap string string :=
  match GetVPCNetworkConfigByNamespace namespace with
  | Err _ =>
      ([], ∅, Some (OtherError (EText ("failed to find VPCNetworkConfiguration for the Namespace " +:+ namespace))), cache)
  | Ok zones =>
      match SyncDNSZonesByVpcNetworkConfig zones cache with
      | (Err e, cache) => ([], ∅, Some (OtherError e), cache)
      | (Ok allowedZones, cache) =>
          if bool_decide (allowedZones = ∅) then
            ([], ∅, Some (DNSZoneValidationError ("no DNS zones are permitted for the namespace " +:+ namespace) None), cache)
          else
            let z := generateZoneIdFromMap allowedZones in
            let '(validRows, validationErr) := validate_loop z eps [] None in
            (validRows, allowedZones,
             (fun e => DNSZoneValidationError (error_text e) None) <$> validationErr, cache)
      end
  end.
End Zones.

(** ** Facts *)
Lemma take_drop_str n s : take_str n s +:+ drop_str n s = s.
Proof. revert n; induction s as [|a s IH]; intros [|n]; simpl; try done. by rewrite IH. Qed.
Lemma has_suffix_spec suf s : has_suffix suf s = true <-> exists p, s = p +:+ suf.
Proof.
  unfold has_suffix. rewrite andb_true_iff, !bool_decide_eq_true. split.
  - intros [Hl <-]. exists (take_str (String.length s - String.length suf) s). by rewrite take_drop_str.
  - intros [p ->]. rewrite length_app_str. split; [lia|].
    replace (String.length p + String.length suf - String.length suf)%nat with (String.length p) by lia.
    induction p as [|a p IH]; [by destruct suf|done].
Qed.
Lemma trim_suffix_app p suf : trim_suffix suf (p +:+ suf) = p.
Proof.
  unfold trim_suffix. rewrite (proj2 (has_suffix_spec suf (p +:+ suf))) by eauto. rewrite length_app_str.
  replace (String.length p + String.length suf - String.length suf)%nat with (String.length p) by lia.
  induction p as [|a p IH]; simpl; [by destruct suf|by rewrite IH].
Qed.
Lemma app_str_cancel_r p q s : p +:+ s = q +:+ s -> p = q.
Proof. intros H. by rewrite <- (trim_suffix_app p s), H, trim_suffix_app. Qed.

(** The search for the longest matching zone. *)
Lemma zone_fold_spec N l best :
  (forall kv, kv ∈ l -> zone_matches N kv.2 = true -> slen kv.2 <= slen (foldl (zone_step N) best l).2) /\
  slen best.2 <= slen (foldl (zone_step N) best l).2 /\
  ((foldl (zone_step N) best l).2 <> "" ->
   foldl (zone_step N) best l = best \/
   (foldl (zone_step N) best l ∈ l /\ zone_matches N (foldl (zone_step N) best l).2 = true)).
Proof.
  revert best; induction l as [|kv l IH]; intros best; cbn [foldl].
  { split_and!; [by intros ? ?%elem_of_nil|lia|by left]. }
  destruct (IH (zone_step N best kv)) as (H1 & H2 & H3).
  assert (Hstep : slen best.2 <= slen (zone_step N best kv).2 /\
    (zone_matches N kv.2 = true -> slen kv.2 <= slen (zone_step N best kv).2)).
  { unfold zone_step. destruct (zone_matches N kv.2); [|split; [lia|done]].
    case_bool_decide as Hb; simpl; [rewrite Hb; split; [unfold slen; simpl; lia|lia]|].
    case_bool_decide; split; lia. }
  destruct Hstep as [Hs1 Hs2]. split_and!.
  - intros kv' [->|Hin]%elem_of_cons Hm; [specialize (Hs2 Hm); lia|by apply H1].
  - lia.
  - intros Hne. destruct (H3 Hne) as [Heq|[Hin Hm]]; [|right; split; [by right|done]].
    rewrite Heq in *. unfold zone_step in *. destruct (zone_matches N kv.2) eqn:Hm; [|by left].
    destruct (bool_decide _ || bool_decide _); [right; split; [left|done]|by left].
Qed.

Section ZoneFacts.
Context (ToUnicode : string -> option string).
Definition normalized (name : string) : string := join "." (map (convert_label ToUnicode) (split_on "." name)).
Lemma FindZone_spec z name zp dom N :
  FindZone ToUnicode z name = (zp, dom, N) ->
  N = normalized name /\
  (forall zp' dom', z !! zp' = Some dom' -> zone_matches N dom' = true -> slen dom' <= slen dom) /\
  (dom <> "" -> z !! zp = Some dom /\ zone_matches N dom = true).
Proof.
  unfold FindZone. fold (normalized name).
  destruct (zone_fold_spec (normalized name) (map_to_list z) ("", "")) as (H1 & _ & H3).
  destruct (foldl _ _ _) as [zp0 dom0] eqn:E. intros [= <- <- <-]. split_and!; [done|..].
  - intros zp' dom' Hz. apply (H1 (zp', dom')). by apply elem_of_map_to_list.
  - intros Hne. destruct (H3 Hne) as [[= -> ->]|[Hin Hm]]; [done|]. by apply elem_of_map_to_list in Hin.
Qed.
End ZoneFacts.

(** The zone chosen for a hostname is one whose domain is a proper suffix
    of the normalized name at a label boundary, no matching zone has a longer
    domain, and the record name is what is left of the domain, so name and
    domain give the hostname back. When it fails on a non-empty name, either no
    allowed zone with a name matches, or the name is the longest matching
    domain itself, with or without a leading dot. *)
Theorem getZonePathForHostname_spec ToUnicode z hostname :
  let N := normalized ToUnicode (dnsNameForZoneMatch hostname) in
  match getZonePathForHostname ToUnicode z hostname with
  | Ok (recordName, zonePath) =>
      exists domain, z !! zonePath = Some domain /\ domain <> "" /\ recordName <> "" /\
        N = recordName +:+ "." +:+ domain /\
        forall zp' dom', z !! zp' = Some dom' -> zone_matches N dom' = true -> slen dom' <= slen domain
  | Err _ =>
      dnsNameForZoneMatch hostname = "" \/
      (forall zp' dom', z !! zp' = Some dom' -> dom' <> "" -> zone_matches N dom' = false) \/
      (exists zp' dom', z !! zp' = Some dom' /\ (N = dom' \/ N = "." +:+ dom'))
  end.
Proof.
  unfold getZonePathForHostname. case_bool_decide as Hname; [by left|].
  destruct (FindZone ToUnicode z (dnsNameForZoneMatch hostname)) as [[zp dom] N'] eqn:Hf.
  apply FindZone_spec in Hf as (-> & Hmax & Hdom). set (N := normalized _ _) in *.
  case_bool_decide as Hd.
  { right; left. subst dom. intros zp' dom' Hz Hne. destruct (zone_matches N dom') eqn:Hm; [|done].
    specialize (Hmax _ _ Hz Hm). pose proof (proj2 (slen_pos dom') Hne). change (slen "") with 0 in Hmax. lia. }
  destruct (Hdom Hd) as [Hz Hm]. case_bool_decide as He.
  { right; right. exists zp, dom. auto. }
  unfold zone_matches in Hm. rewrite bool_decide_eq_false_2 in Hm by done. simpl in Hm.
  pose proof Hm as (p & Hp)%has_suffix_spec.
  change (String "." dom) with ("." +:+ dom) in *. rewrite Hm. cbn [negb orb]. case_bool_decide as Hs.
  { right; right. exists zp, dom. auto. }
  rewrite Hp, trim_suffix_app. exists dom. split_and!; [done..| |done|].
  - intros ->. by apply Hs.
  - rewrite <- Hp. exact Hmax.
Qed.

(** ** Paths of records *)
Lemma trim_space_ends a s t :
  is_space a = false -> t <> "" -> trim_right_by is_space t = t ->
  trim_space (String a (s +:+ t)) = String a (s +:+ t).
Proof.
  intros Ha Hne Ht. unfold trim_space. simpl. rewrite Ha.
  change (String a (s +:+ t)) with (String a s +:+ t). by apply trim_right_app.
Qed.
Lemma trim_space_nonempty w k :
  k <> "" -> trim_left_by is_space k = k -> trim_right_by is_space k = k -> trim_space (w +:+ k) <> "".
Proof.
  intros Hne Hl Hr. unfold trim_space. induction w as [|a w IH]; simpl; [by rewrite Hl, Hr|].
  destruct (is_space a); [done|]. change (String a (w +:+ k)) with (String a w +:+ k). by rewrite trim_right_app.
Qed.
Lemma replace_all_no_byte c d (rep : string) s :
  contains_byte d rep = false -> contains_byte d s = false -> contains_byte d (replace_all c rep s) = false.
Proof.
  intros Hr. induction s as [|a s IH]; simpl; [done|]. case_decide as Hd; [done|]. intros Hs. specialize (IH Hs).
  case_decide; [by rewrite contains_byte_app, Hr|]. simpl. by rewrite decide_False.
Qed.
Lemma parseDnsZonePath_Ok zonePath o pr d z :
  parseDnsZonePath zonePath = Ok (o, pr, d, z) ->
  o <> "" /\ pr <> "" /\ z <> "" /\ contains_byte "/" o = false /\ contains_byte "/" pr = false /\ contains_byte "/" z = false.
Proof.
  unfold parseDnsZonePath. case_bool_decide; [done|].
  destruct (split_on "/" (trim_space zonePath)) as [|e [|k1 [|o' [|k2 [|pr' [|k3 [|d' [|k4 [|z' [|? ?]]]]]]]]]] eqn:Hs; try done.
  repeat (case_bool_decide; simpl; [|done]). intros [= -> -> -> ->].
  split_and!; try done; apply (split_on_no_sep_elem "/" (trim_space zonePath)); rewrite Hs;
    rewrite !elem_of_cons; naive_solver.
Qed.
Lemma nsx_record_type_cases t :
  let k := to_lower (trim_space (getNSXDnsRecordType t)) in
  bool_decide (trim_space (getNSXDnsRecordType t) <> "") = true /\ k <> "" /\ trim_left_by is_space k = k /\
  trim_right_by is_space k = k /\ contains_byte "/" k = false.
Proof. unfold getNSXDnsRecordType. repeat case_bool_decide; by vm_compute. Qed.

(** The path computed for a record of a valid zone is a record path: it
    parses to the organisation and project of the zone and to the record's
    identifier. *)
Theorem record_path_roundtrip recordName recType zonePath o pr d z :
  parseDnsZonePath zonePath = Ok (o, pr, d, z) -> contains_byte "/" recordName = false ->
  parseDnsRecordPolicyPath (getRecordIDAndPathAndType recordName recType zonePath).1.2 =
  Ok (o, pr, (getRecordIDAndPathAndType recordName recType zonePath).1.1).
Proof.
  intros Hz Hn. unfold getRecordIDAndPathAndType. rewrite Hz.
  apply parseDnsZonePath_Ok in Hz as (Ho & Hp & Hzn & Hos & Hps & Hzs).
  destruct (nsx_record_type_cases recType) as (-> & Hk1 & Hk0 & Hk2 & Hk3).
  set (k := to_lower _) in *. cbn [fst snd].
  set (recID := (replace_all "." "_" recordName +:+ "_" +:+ z) +:+ "_" +:+ k).
  assert (Hid : contains_byte "/" recID = false).
  { unfold recID. rewrite !contains_byte_app, Hzs, Hk3, replace_all_no_byte by done. done. }
  assert (Hend : exists w, recID = w +:+ k).
  { exists ((replace_all "." "_" recordName +:+ "_" +:+ z) +:+ "_"). unfold recID. by rewrite !app_str_assoc. }
  unfold parseDnsRecordPolicyPath. set (path := "/orgs/" +:+ _).
  assert (Htrim : trim_space path = path).
  { destruct Hend as [w Hw]. unfold path. rewrite Hw.
    replace ("/orgs/" +:+ o +:+ "/projects/" +:+ pr +:+ "/" +:+ DNSRecordPathSegment +:+ "/" +:+ w +:+ k)
      with (String "/" (("orgs/" +:+ o +:+ "/projects/" +:+ pr +:+ "/" +:+ DNSRecordPathSegment +:+ "/" +:+ w) +:+ k))
      by (by rewrite !app_str_assoc).
    by apply trim_space_ends. }
  assert (Hsplit : split_on "/" path = [""; "orgs"; o; "projects"; pr; "dns-records"; recID]).
  { replace path with (join "/" [""; "orgs"; o; "projects"; pr; "dns-records"; recID]) by reflexivity.
    apply split_join; [done|]. by repeat constructor. }
  rewrite Htrim, Hsplit. rewrite (bool_decide_eq_false_2 (path = "")) by done.
  assert (Hne : recID <> "") by (intros He; destruct Hend as [w Hw]; rewrite Hw in He; destruct w, k; done).
  rewrite (bool_decide_eq_true_2 (o <> "")), (bool_decide_eq_true_2 (pr <> "")), (bool_decide_eq_true_2 (recID <> "")) by done.
  cbn [bool_decide decide andb]. rewrite !bool_decide_eq_true_2 by done. cbn [andb].
  rewrite bool_decide_eq_false_2; [done|]. destruct Hend as [w ->]. by apply trim_space_nonempty.
Qed.
Lemma record_path_roundtrip_witness :
  parseDnsRecordPolicyPath (getRecordIDAndPathAndType "www.shop" "A" "/orgs/o/projects/p/dns-services/d/zones/z").1.2 =
  Ok ("o", "p", "www_shop_z_a").
Proof. exact (record_path_roundtrip "www.shop" "A" "/orgs/o/projects/p/dns-services/d/zones/z" "o" "p" "d" "z" eq_refl eq_refl). Defined.

(** Different names can share a path: a dot and an underscore give the same
    identifier, and so do zones of two DNS services. *)
Lemma record_path_collision :
  getRecordIDAndPathAndType "a.b" "A" "/orgs/o/projects/p/dns-services/d/zones/z" =
  getRecordIDAndPathAndType "a_b" "A" "/orgs/o/projects/p/dns-services/d/zones/z" /\
  getRecordIDAndPathAndType "a" "A" "/orgs/o/projects/p/dns-services/d1/zones/z" =
  getRecordIDAndPathAndType "a" "A" "/orgs/o/projects/p/dns-services/d2/zones/z".
Proof. by vm_compute. Qed.
