(* ===== verification/DnsService.v ===== *)
(** * pkg/nsx/services/dns: the record service (recordservice.go, builder.go, store.go, compare.go)

    What is written to NSX and to the store when the endpoints of an owner are
    reconciled, and when an owner goes away. *)
From S2P Require Import Prelude GoStrings Errors NsxUtil Names Interfaces Compare PolicyTree DnsOwners DnsZones.

(** ** The store (store.go) *)

(** The key of a record with a path; [dnsRecordKeyFunc] fails without one. *)
Definition dns_key (rec : DnsRecord) : string := default "" (rec_Path rec).
Definition dnsRecordKeyFunc (rec : DnsRecord) : result goerr string :=
  match rec_Path rec with
  | Some p => Ok p
  | None => Err (EText "DNS record has nil path")
  end.

Definition indexDNSRecordByOwnerTypeNN (v : DnsRecord) : list string :=
  let ownerKey := getDNSRecordOwnerNamespacedName v in
  if bool_decide (ownerKey = "") then [] else [ownerKey].
Definition parseGateways (raw : string) : list string :=
  sets_List (list_to_set (filter (fun k => k <> "") (map trim_space (split_on "," raw)))).
Definition gatewayIndexKeysFromDNSRecord (v : DnsRecord) : list string :=
  let raw := gatewayIndexTagFromRecord v in
  if bool_decide (raw = "") then [] else parseGateways raw.
Definition dnsRecordZonePathRecordNameIndexKey (zonePath recordNameLower recordType : string) : string :=
  trim_space zonePath +:+ "|" +:+ trim_space (to_lower recordNameLower) +:+ "|" +:+ to_lower (trim_space recordType).
Definition dnsRecordRecordNameLower (rec : DnsRecord) : string :=
  match rec_RecordName rec with Some n => trim_space (to_lower n) | None => "" end.
Definition indexDNSRecordByZonePathRecordName (v : DnsRecord) : list string :=
  match rec_ZonePath v, rec_RecordType v with
  | Some zp, Some rt =>
      if bool_decide (zp = "") then []
      else
        let rn := dnsRecordRecordNameLower v in
        let rt := trim_space rt in
        if bool_decide (rn = "") || bool_decide (rt = "") then []
        else [dnsRecordZonePathRecordNameIndexKey zp rn rt]
  | _, _ => []
  end.
Definition indexDNSRecordByGatewayNamespacedName (v : DnsRecord) : list string :=
  let createdFor := dnsRecordCreatedForValue v in
  if bool_decide (createdFor ∈ ["httproute"; "grpcroute"; "tlsroute"]) then gatewayIndexKeysFromDNSRecord v else [].
Definition indexDNSRecordByZonePath (v : DnsRecord) : list string :=
  match rec_ZonePath v with
  | Some zp => if bool_decide (zp = "") then [] else [zp]
  | None => []
  end.
Definition indexDNSRecordByContributingOwner (v : DnsRecord) : list string := parseContributingOwnersFromRecord v.

Definition marked (rec : DnsRecord) : bool := bool_decide (rec_MarkedForDelete rec = Some true).

Section Store.
Context {I : Type} `{!Indexer I DnsRecord dns_key}.

(** [s.Add] and [s.Delete] compute the key first. *)
Definition store_Add (rec : DnsRecord) (s : I) : result goerr I :=
  match dnsRecordKeyFunc rec with Ok _ => Ok (ix_Add rec s) | Err e => Err e end.
Definition store_Delete (rec : DnsRecord) (s : I) : result goerr I :=
  match dnsRecordKeyFunc rec with Ok _ => Ok (ix_Delete rec s) | Err e => Err e end.
(** [RecordStore.Apply]: the error that stopped it, and the store. *)
Fixpoint Apply (records : list DnsRecord) (s : I) : option goerr * I :=
  match records with
  | [] => (None, s)
  | rec :: records' =>
      match (if marked rec then store_Delete rec s else store_Add rec s) with
      | Err e => (Some e, s)
      | Ok s' => Apply records' s'
      end
  end.
(** Errors are logged. *)
Definition DeleteMultipleObjects (records : list DnsRecord) (s : I) : I :=
  foldl (fun s rec => match store_Delete rec s with Ok s' => s' | Err _ => s end) s records.
Definition GetByOwnerResourceNamespacedName (kind namespace name : string) (s : I) : list DnsRecord :=
  let createdFor := resourceKindToCreatedFor kind in
  if bool_decide (createdFor = "") then []
  else ix_GetByIndex indexDNSRecordByOwnerTypeNN
         (dnsRecordOwnerKey createdFor (dnsRecordOwnerNamespacedNameKey namespace name)) s.
Definition ListRecordsReferencingContributingOwner (contribNNKey : string) (s : I) : list DnsRecord :=
  ix_GetByIndex indexDNSRecordByContributingOwner contribNNKey s.
(** [ListIndexFuncValues]: the values some record is filed under. *)
Definition ListIndexFuncValues (indexFunc : DnsRecord -> list string) (s : I) : gset string :=
  list_to_set (mjoin (map indexFunc (ix_List s))).
Definition ListZonePaths (s : I) : gset string :=
  filter (fun k => k <> "") (ListIndexFuncValues indexDNSRecordByZonePath s).
Definition group_step (m : gmap string (gset (string * string))) (key : string) : gmap string (gset (string * string)) :=
  match split_on "/" key with
  | createdForTag :: ns :: name :: _ =>
      let resourceKind := resourceKindFromCreatedForTag createdForTag in
      if bool_decide (resourceKind = "") then m
      else <[resourceKind := {[(ns, name)]} ∪ default ∅ (m !! resourceKind)]> m
  | _ => m
  end.
Definition GroupRecordsByResourceKind (s : I) : gmap string (gset (string * string)) :=
  foldl group_step ∅ (elements (ListIndexFuncValues indexDNSRecordByOwnerTypeNN s)).
Definition ListReferredGatewayNN (s : I) : gset (string * string) :=
  list_to_set (omap (fun elem =>
    match split_on "/" elem with gwNamespace :: gwName :: _ => Some (gwNamespace, gwName) | _ => None end)
    (elements (ListIndexFuncValues indexDNSRecordByGatewayNamespacedName s))).
End Store.

(** ** Comparison (compare.go) *)
Definition tag_order (t : Tag) : string * string := (default "" (tag_Scope t), default "" (tag_Tag t)).
Definition tag_le (a b : Tag) : Prop :=
  if decide ((tag_order a).1 = (tag_order b).1) then str_le (tag_order a).2 (tag_order b).2
  else str_le (tag_order a).1 (tag_order b).1.
#[global] Instance tag_le_dec : RelDecision tag_le.
Proof. intros a b. unfold tag_le. destruct (decide _); apply _. Defined.
Definition sortedNormalizedTagsForCompare (tags : list Tag) : list Tag := merge_sort tag_le tags.
(** The fields that [Value] keeps. *)
Definition dns_value (rec : DnsRecord) :=
  (rec_RecordName rec, rec_RecordType rec, rec_ZonePath rec, rec_Ttl rec,
   sort_strings (rec_RecordValues rec), sortedNormalizedTagsForCompare (rec_Tags rec)).
Definition dns_value_type : Type :=
  option string * option string * option string * option Z * list string * list Tag.

Definition mergeDNSRecordForUpdate (desired existing : DnsRecord) : DnsRecord :=
  mkDns (rec_Id existing) (rec_Path existing) (rec_RecordName desired) (rec_DisplayName existing)
    (rec_Tags desired) (rec_RecordType desired) (rec_RecordValues desired) (rec_ZonePath desired)
    (rec_Ttl desired) (rec_Fqdn desired) (rec_MarkedForDelete desired).
Definition has_path (rec : DnsRecord) : Prop := rec_Path rec <> None.
#[global] Instance has_path_dec rec : Decision (has_path rec).
Proof. unfold has_path. apply _. Defined.

Section CompareRecords.
(** The SDK's JSON encoder of a record's value. *)
Context (encode : dns_value_type -> string).
Definition dns_comparable : Comparable DnsRecord := {|
  Key := fun d => default "" (rec_Path d);
  Value := fun d => encode (dns_value d) |}.
Definition compareRecords (desired existing : list DnsRecord) : list DnsRecord * list DnsRecord :=
  let existing := filter has_path existing in
  let desired := filter has_path desired in
  let existingByPath := map_of_writes (map (fun e => (dns_key e, e)) existing) in
  let '(changed, stale) := @CompareResources DnsRecord dns_comparable existing desired in
  (map (fun d => match existingByPath !! dns_key d with
                 | Some ex => mergeDNSRecordForUpdate d ex
                 | None => d
                 end) changed, stale).
End CompareRecords.

(** ** Building records (builder.go) *)
Definition EndpointLabelParentGateway := "nsx.vmware.com/parent-gateway".
Definition DefaultRecordTtL : Z := 300.

Section Builder.
Context (cluster : string) (GetNamespaceUID : string -> string).

Definition appendRowOwnershipTags (r : EndpointRow) (ownerTags : list Tag) : result goerr (list Tag) :=
  let gwKeys := trim_space (label_of (row_Endpoint r) EndpointLabelParentGateway) in
  if bool_decide (0 < slen gwKeys) then
    let '(gwKey, overflow, truncated) := joinAndPackStrings (split_on "," gwKeys) in
    if (truncated : bool) || bool_decide (overflow <> "")
    then Err (EText "gateway index list exceeds maximum tag capacity")
    else appendGatewayAndContributionTags ownerTags gwKey (contributingOwnerKeys r)
  else appendGatewayAndContributionTags ownerTags "" (contributingOwnerKeys r).
Definition buildDNSRecord (r : EndpointRow) (basicTags : list Tag) : result goerr DnsRecord :=
  match appendRowOwnershipTags r basicTags with
  | Err e => Err e
  | Ok tags =>
      let '(recID, path, rt) := getRecordIDAndPathAndType (nsxRecordName r) (RecordType (row_Endpoint r)) (row_zonePath r) in
      let ttl := if IsConfigured (RecordTTL (row_Endpoint r)) then RecordTTL (row_Endpoint r) else DefaultRecordTtL in
      Ok (mkDns (Some recID) (Some path) (Some (nsxRecordName r)) (Some (nsxRecordName r)) tags (Some rt)
            (Targets (row_Endpoint r)) (Some (row_zonePath r)) (Some ttl)
            (Some (to_lower (DNSName (row_Endpoint r)))) None)
  end.
Definition BuildDnsRecord (batchOwner : ResourceRef) (row : EndpointRow) : result goerr DnsRecord :=
  let owner := default batchOwner (effectiveOwner row) in
  buildDNSRecord row (tagsForOwner cluster GetNamespaceUID owner).
End Builder.

(** ** Conflicts (recordservice.go) *)
Definition isRouteKind (kind : string) : bool :=
  bool_decide (kind ∈ [ResourceKindHTTPRoute; ResourceKindGRPCRoute; ResourceKindTLSRoute]).
Definition isRouteKindCompatible (kind1 kind2 : string) : bool :=
  bool_decide (kind1 = kind2) || (isRouteKind kind1 && isRouteKind kind2).
Definition isRecordSharableWithContributors (rec : DnsRecord) : bool :=
  match resourceRefFromDNSRecord rec with
  | Some owner => isRouteKind (ref_Kind owner)
  | None => false
  end.
Definition isRouteTargetConsistent (rec : DnsRecord) (ep : Endpoint) (zonePath : string) : option goerr :=
  let recGw := gatewayIndexTagFromRecord rec in
  let epGw := trim_space (label_of ep EndpointLabelParentGateway) in
  if bool_decide (recGw <> epGw) then
    Some (EText ("FQDN " +:+ to_lower (DNSName ep) +:+ " parent gateway " +:+ epGw +:+
      " conflicts with existing record parent gateway " +:+ recGw +:+ " in DNS zone " +:+ zonePath))
  else None.
(** The record the index gives: the first that is not marked, else the first. *)
Definition pick_record (recs : list DnsRecord) : option DnsRecord :=
  match head (filter (fun r => marked r = false) recs) with
  | Some r => Some r
  | None => head recs
  end.
(** The checks of the two cases against the record found. *)
Definition check_existing (zonePath : string) (ep : Endpoint) (recordName : string) (owner : ResourceRef)
    (rec : DnsRecord) : result goerr EndpointRow :=
  let fqdn := to_lower (DNSName ep) in
  let currentNNKey := ownerNNIndexKeyForResourceRef owner in
  let row := NewEndpointRow ep zonePath recordName in
  if bool_decide (getDNSRecordOwnerNamespacedName rec = currentNNKey) then
    if isRecordSharableWithContributors rec then
      match parseContributingOwnersFromRecord rec with
      | [] => Ok row
      | existingContribs =>
          let recGw := gatewayIndexTagFromRecord rec in
          let epGw := trim_space (label_of ep EndpointLabelParentGateway) in
          if bool_decide (recGw <> epGw) then
            Err (EText ("FQDN " +:+ fqdn +:+ " in DNS zone " +:+ zonePath +:+
              " is taken by other resources: parent gateway changed from " +:+ recGw +:+ " to " +:+ epGw))
          else Ok (mkRow ep zonePath recordName None existingContribs)
      end
    else Ok row
  else
    match resourceRefFromDNSRecord rec with
    | None => Err (EText ("FQDN " +:+ fqdn +:+ " has an existing DNS record with incomplete owner metadata in DNS zone " +:+ zonePath))
    | Some effectiveOwner =>
        let primaryNN := getDNSRecordOwnerNamespacedName rec in
        if negb (isRecordSharableWithContributors rec) then
          Err (EText ("contributor mechanism is only supported for route resources; FQDN " +:+ fqdn +:+
            " is already owned by " +:+ ref_Kind effectiveOwner +:+ " (" +:+ primaryNN +:+ ") in DNS zone " +:+ zonePath))
        else if negb (isRouteKindCompatible (ref_Kind owner) (ref_Kind effectiveOwner)) then
          Err (EText ("FQDN " +:+ fqdn +:+ " is not sharable between resources " +:+ ref_Kind effectiveOwner +:+
            " and " +:+ ref_Kind owner +:+ " in DNS zone " +:+ zonePath))
        else
          match isRouteTargetConsistent rec ep zonePath with
          | Some err => Err err
          | None =>
              Ok (mkRow ep zonePath recordName (Some effectiveOwner)
                    (mergeContributingOwnerKeys (parseContributingOwnersFromRecord rec) currentNNKey primaryNN))
          end
    end.

Definition dedupeRecordsByPath (recs : list DnsRecord) : list DnsRecord :=
  (map_to_list (map_of_writes (omap (fun r =>
     match rec_Path r with
     | None => None
     | Some p => let p := trim_space p in if bool_decide (p = "") then None else Some (p, r)
     end) recs))).*2.

(** ** The service (recordservice.go) *)
Definition DefaultHAPIChildrenCount : Z := 500.
Record AggregatedDNSEndpoints := mkBatch { batch_Rows : list EndpointRow; batch_Owner : option ResourceRef }.
Definition errors_Join (l : list goerr) : option goerr :=
  match l with
  | [] => None
  | e :: l' => Some (foldl EJoin e l')
  end.

Section Service.
Context {I N SV : Type} `{!Indexer I DnsRecord dns_key} `{!RetryDriver} `{!Converter SV}.
Context (encode : dns_value_type -> string) (cluster : string) (GetNamespaceUID : string -> string).
(** [DnsRecordBuilder], [OrgRootClient.Patch], the context of the call and
    [DnsRecordsClient.Get]. *)
Context (DnsRecordBuilder : PolicyTreeBuilder DnsRecord SV).
Context (Patch : string * list (option SV) -> N -> option goerr * N).
Context (done_at : nat -> bool) (ctx_err : goerr).
Context (DnsRecords_Get : string -> string -> string -> N -> result goerr DnsRecord * N).

Definition validateEndpointRowConflict (s : I) (zonePath : string) (ep : Endpoint) (recordName : string)
    (owner : ResourceRef) : result goerr EndpointRow :=
  if bool_decide (resourceKindToCreatedFor (ref_Kind owner) = "") then
    Err (EText ("unsupported resource kind " +:+ quoted (ref_Kind owner) +:+ " for DNS record"))
  else
    let idxKey := dnsRecordZonePathRecordNameIndexKey zonePath recordName (to_lower (trim_space (RecordType ep))) in
    match pick_record (ix_GetByIndex indexDNSRecordByZonePathRecordName idxKey s) with
    | None => Ok (NewEndpointRow ep zonePath recordName)
    | Some rec => check_existing zonePath ep recordName owner rec
    end.
Definition collectRecordsByOwner (s : I) (ownerKind ownerNamespace ownerName : string) : string * list DnsRecord :=
  let createdFor := resourceKindToCreatedFor ownerKind in
  if bool_decide (createdFor = "") then ("", [])
  else
    let ownerNNKey := dnsRecordOwnerKey createdFor (dnsRecordOwnerNamespacedNameKey ownerNamespace ownerName) in
    (ownerNNKey, dedupeRecordsByPath
       (GetByOwnerResourceNamespacedName ownerKind ownerNamespace ownerName s ++
        ListRecordsReferencingContributingOwner ownerNNKey s)).

(** The record of one row, checked against the store again. *)
Definition desired_record (s : I) (owner : ResourceRef) (row : EndpointRow) : dns_error + DnsRecord :=
  match validateEndpointRowConflict s (row_zonePath row) (row_Endpoint row) (nsxRecordName row) owner with
  | Err err => inl (DNSZoneValidationError "DNS endpoint validation failed for FQDN is taken by other resource" (Some err))
  | Ok freshRow =>
      match BuildDnsRecord cluster GetNamespaceUID owner freshRow with
      | Err err => inl (DNSZoneValidationError "DNS endpoint validation failed during record build" (Some err))
      | Ok rec => inr rec
      end
  end.
Fixpoint desired_records (s : I) (owner : ResourceRef) (rows : list EndpointRow) : dns_error + list DnsRecord :=
  match rows with
  | [] => inr []
  | row :: rows' =>
      match desired_record s owner row with
      | inl e => inl e
      | inr rec =>
          match desired_records s owner rows' with
          | inl e => inl e
          | inr recs => inr (rec :: recs)
          end
      end
  end.
(** The loop that calls [classifyOwnerRemoval]: [toRemove] and [toUpsert]. *)
Definition classify_all (ownerNNKey : string) (recs : list DnsRecord) (toRemove toUpsert : list DnsRecord)
  : result goerr (list DnsRecord * list DnsRecord) :=
  range_result (fun st rec =>
    match classifyOwnerRemoval cluster GetNamespaceUID rec ownerNNKey with
    | Err e => Err e
    | Ok (del, upd) => Ok (st.1 ++ del, st.2 ++ upd)
    end) (toRemove, toUpsert) recs.
(** The records to upsert and to remove. *)
Definition applyDNSUpsertRows (s : I) (batch : AggregatedDNSEndpoints)
  : dns_error + list DnsRecord * list DnsRecord :=
  match batch_Owner batch with
  | None =>
      match batch_Rows batch with
      | [] => inr ([], [])
      | _ => inl (OtherError (EText "aggregated DNS batch has rows but Owner is nil"))
      end
  | Some owner =>
      match desired_records s owner (batch_Rows batch) with
      | inl e => inl e
      | inr desiredRecs =>
          let '(ownerNNKey, ownedRecs) := collectRecordsByOwner s (ref_Kind owner) (ref_Namespace owner) (ref_Name owner) in
          let '(toUpsert, staleRecs) := compareRecords encode desiredRecs ownedRecs in
          match classify_all ownerNNKey staleRecs [] toUpsert with
          | Err e => inl (OtherError e)
          | Ok (toRemove, toUpsert) => inr (toUpsert, toRemove)
          end
      end
  end.
(** [toUpdate] and [toDelete]. *)
Definition calculateRecordsForDeletion (s : I) (kind namespace name : string)
  : result goerr (list DnsRecord * list DnsRecord) :=
  let '(deletedNNKey, all) := collectRecordsByOwner s kind namespace name in
  if bool_decide (deletedNNKey = "") || bool_decide (all = []) then Ok ([], [])
  else
    match classify_all deletedNNKey all [] [] with
    | Err e => Err e
    | Ok (toDelete, toUpdate) => Ok (toUpdate, toDelete)
    end.

(** *** NSX *)
Definition retry_get (err : goerr) : bool :=
  match err with
  | ENSXApi (Some api) _ => bool_decide (api_ErrorCode api = Some 500090)
  | _ => false
  end.
Definition get_record (orgID projectID recordID : string) (nsx : N) : result goerr DnsRecord * N :=
  let fn (st : N * option DnsRecord) : option goerr * (N * option DnsRecord) :=
    match DnsRecords_Get orgID projectID recordID st.1 with
    | (Ok live, nsx) => (None, (nsx, Some live))
    | (Err e, nsx) => (TransNSXApiError (Some e), (nsx, st.2))
    end in
  let '(err, (nsx, live)) := OnError retry_get fn (nsx, None) in
  match err, live with
  | Some e, _ => (Err e, nsx)
  | None, Some live => (Ok live, nsx)
  | None, None => (Err (EText ""), nsx)
  end.
(** The records read back, and the errors; [None] is the panic on a record
    without a path. *)
Fixpoint refresh (toUpsert : list DnsRecord) (nsx : N) : option (list DnsRecord * list goerr * N) :=
  match toUpsert with
  | [] => Some ([], [], nsx)
  | rec :: toUpsert' =>
      path ← rec_Path rec;
      match parseDnsRecordPolicyPath path with
      | Err perr => '(recs, errs, nsx) ← refresh toUpsert' nsx; Some (recs, perr :: errs, nsx)
      | Ok (orgID, projectID, recordID) =>
          let '(r, nsx) := get_record orgID projectID recordID nsx in
          '(recs, errs, nsx) ← refresh toUpsert' nsx;
          match r with
          | Ok live => Some (live :: recs, errs, nsx)
          | Err e => Some (recs, EWrap ("failed to get record " +:+ recordID +:+ " from NSX after realization") e :: errs, nsx)
          end
      end
  end.
Definition mark (rec : DnsRecord) : DnsRecord := with_tags rec (rec_Tags rec) (Some true).
(** [syncDnsRecordsInNSX]: the records to apply to the store, and the error. *)
Definition syncDnsRecordsInNSX (toUpsert toRemove : list DnsRecord) (nsx : N)
  : option (list DnsRecord * option goerr * N) :=
  let removeOps := map mark toRemove in
  let batch := dedupeRecordsByPath (toUpsert ++ removeOps) in
  match batch with
  | [] => Some ([], None, nsx)
  | _ =>
      '(err, nsx, _) ← PagingUpdateResources (UpdateMultipleResourcesOnNSX Patch DnsRecordBuilder) done_at ctx_err
        None batch DefaultHAPIChildrenCount nsx tt;
      match err with
      | Some e => Some ([], Some e, nsx)
      | None =>
          match toUpsert with
          | [] => Some (removeOps, None, nsx)
          | _ =>
              '(refreshed, realizeErrs, nsx) ← refresh toUpsert nsx;
              Some (refreshed ++ removeOps, errors_Join realizeErrs, nsx)
          end
      end
  end.
(** The store after [toApply], [storeMutated] and the error. *)
Definition apply_synced (r : list DnsRecord * option goerr * N) (s : I) : bool * option dns_error * N * I :=
  let '(toApply, syncErr, nsx) := r in
  match toApply with
  | [] => (false, OtherError <$> syncErr, nsx, s)
  | _ =>
      match Apply toApply s with
      | (Some applyErr, s) => (false, Some (OtherError applyErr), nsx, s)
      | (None, s) => (true, OtherError <$> syncErr, nsx, s)
      end
  end.
Definition CreateOrUpdateRecords (batch : AggregatedDNSEndpoints) (nsx : N) (s : I)
  : option (bool * option dns_error * N * I) :=
  match applyDNSUpsertRows s batch with
  | inl err => Some (false, Some err, nsx, s)
  | inr ([], []) => Some (false, None, nsx, s)
  | inr (toUpsert, toRemove) =>
      r ← syncDnsRecordsInNSX toUpsert toRemove nsx; Some (apply_synced r s)
  end.
Definition DeleteRecordByOwnerNN (kind namespace name : string) (nsx : N) (s : I)
  : option (bool * option dns_error * N * I) :=
  match calculateRecordsForDeletion s kind namespace name with
  | Err err => Some (false, Some (OtherError err), nsx, s)
  | Ok ([], []) => Some (false, None, nsx, s)
  | Ok (toUpdate, toDelete) =>
      r ← syncDnsRecordsInNSX toUpdate toDelete nsx; Some (apply_synced r s)
  end.
(** [CleanupInfraResources]: records leave the store batch by batch. *)
Definition CleanupInfraResources (nsx : N) (s : I) : option (option goerr * N * I) :=
  match ix_List s with
  | [] => Some (None, nsx, s)
  | objs =>
      PagingUpdateResources (UpdateMultipleResourcesOnNSX Patch DnsRecordBuilder) done_at ctx_err
        (Some DeleteMultipleObjects) (map mark objs) DefaultHAPIChildrenCount nsx s
  end.

(** *** Lock keys *)
Definition getLockKey (zonePath recordID recType : string) : string :=
  zonePath +:+ "/" +:+ recordID +:+ "/" +:+ recType.
Definition record_lock_key (rec : DnsRecord) : option string :=
  match rec_Id rec, rec_ZonePath rec, rec_RecordType rec with
  | Some i, Some z, Some t => Some (getLockKey z i t)
  | _, _, _ => None
  end.
Definition getInvolvedRecordLockKeys (s : I) (batch : AggregatedDNSEndpoints) : list string :=
  match batch_Owner batch with
  | None => []
  | Some owner =>
      sets_List (list_to_set
        (map (fun row =>
           let '(recID, _, recType) := getRecordIDAndPathAndType (nsxRecordName row) (RecordType (row_Endpoint row)) (row_zonePath row) in
           getLockKey (row_zonePath row) recID recType) (batch_Rows batch) ++
         omap record_lock_key (collectRecordsByOwner s (ref_Kind owner) (ref_Namespace owner) (ref_Name owner)).2))
  end.
Definition getInvolvedRecordLockKeysForOwner (s : I) (kind namespace name : string) : list string :=
  sets_List (list_to_set (omap record_lock_key (collectRecordsByOwner s kind namespace name).2)).
Definition owner_lock_key (owner : ResourceRef) : string :=
  "owner/" +:+ ref_Kind owner +:+ "/" +:+ ref_Namespace owner +:+ "/" +:+ ref_Name owner.
End Service.

(** ** Facts *)
Lemma split_on_single c s w : split_on c s = [w] -> s = w.
Proof. intros H. by rewrite <- (join_split c s), H. Qed.
Lemma split3 c x y z l :
  split_on c x ++ split_on c y ++ split_on c z = l -> length l = 3%nat -> l = [x; y; z].
Proof.
  pose proof (split_on_not_nil c x); pose proof (split_on_not_nil c y); pose proof (split_on_not_nil c z).
  destruct (split_on c x) as [|x1 [|? ?]] eqn:Ex; [done| |];
  destruct (split_on c y) as [|y1 [|? ?]] eqn:Ey; try done;
  destruct (split_on c z) as [|z1 [|? ?]] eqn:Ez; try done; intros <-; simpl; rewrite ?length_app; simpl;
    try (rewrite ?length_app; simpl; lia).
  by rewrite (split_on_single _ _ _ Ex), (split_on_single _ _ _ Ey), (split_on_single _ _ _ Ez).
Qed.
(** The primary owner of a well-formed record can be read back. *)
Lemma resourceRef_of_owner_key rec :
  owner_key (getDNSRecordOwnerNamespacedName rec) ->
  exists r, wf_ref r /\ resourceRefFromDNSRecord rec = Some r /\
    ownerNNIndexKeyForResourceRef r = getDNSRecordOwnerNamespacedName rec.
Proof.
  intros (r & Hr & Heq). exists r. split; [done|]. split; [|done].
  unfold getDNSRecordOwnerNamespacedName in Heq. unfold resourceRefFromDNSRecord.
  destruct (ownerCreatedForAndNNFromDNSRecord rec) as [[[cf ns] name]|].
  - rewrite ownerNN_eq in Heq by done. destruct r as [kind ns' name'].
    pose proof Hr as (Hk%created_for_cases & Hns%key_part_tag & Hn%key_part_tag). cbn [ref_Kind ref_Namespace ref_Name] in *.
    destruct Hk as (Hk1 & Hk2 & _ & Hk4).
    unfold dnsRecordOwnerKey, dnsRecordOwnerNamespacedNameKey in Heq.
    apply (f_equal (split_on "/")) in Heq.
    change ("/" +:+ (ns +:+ "/" +:+ name)) with (String "/" (ns +:+ String "/" name)) in Heq.
    change ("/" +:+ (ns' +:+ "/" +:+ name')) with (String "/" (ns' +:+ String "/" name')) in Heq.
    rewrite !split_on_app in Heq. rewrite (split_on_no_sep _ _ Hk4), (split_on_no_sep _ ns'), (split_on_no_sep _ name') in Heq
      by (apply Hns || apply Hn).
    apply split3 in Heq; [|done]. cbn [app] in Heq. injection Heq as <- <- <-. rewrite Hk1. by rewrite bool_decide_eq_false_2.
  - rewrite ownerNN_eq in Heq by done. destruct Hr as (Hk & _). by destruct (resourceKindToCreatedFor (ref_Kind r)).
Qed.

(** *** Adoption *)
Definition route_key (k : string) : Prop :=
  exists r, wf_ref r /\ isRouteKind (ref_Kind r) = true /\ k = ownerNNIndexKeyForResourceRef r.
(** A record as the service writes it, shared by routes only. *)
Definition wf_shared (rec : DnsRecord) : Prop :=
  wf_record rec /\ (contributors rec = [] \/ forall k, k ∈ owners rec -> route_key k).

Section Adoption.
Context (cluster : string) (GetNamespaceUID : string -> string).
Lemma BuildDnsRecord_owners owner row rec :
  wf_ref (default owner (effectiveOwner row)) ->
  Forall owner_key (contributingOwnerKeys row) -> NoDup (contributingOwnerKeys row) ->
  ownerNNIndexKeyForResourceRef (default owner (effectiveOwner row)) ∉ contributingOwnerKeys row ->
  BuildDnsRecord cluster GetNamespaceUID owner row = Ok rec ->
  wf_record rec /\ contributors rec ≡ₚ contributingOwnerKeys row /\
  getDNSRecordOwnerNamespacedName rec = ownerNNIndexKeyForResourceRef (default owner (effectiveOwner row)).
Proof.
  intros Hr Hk Hnd Hnin. unfold BuildDnsRecord, buildDNSRecord. set (o := default owner (effectiveOwner row)) in *.
  destruct (appendRowOwnershipTags row (tagsForOwner cluster GetNamespaceUID o)) as [tags|] eqn:Ht; [|done].
  assert (exists gw, appendGatewayAndContributionTags (tagsForOwner cluster GetNamespaceUID o) gw (contributingOwnerKeys row) = Ok tags)
    as (gw & Hgw).
  { unfold appendRowOwnershipTags in Ht. case_bool_decide; [|by eexists].
    destruct (joinAndPackStrings _) as [[gw ov] tr]. destruct (_ || _); [done|by eexists]. }
  destruct (getRecordIDAndPathAndType _ _ _) as [[recID path] rt]. set (rec0 := mkDns _ _ _ _ _ _ _ _ _ _ _). intros [= <-].
  assert (Hfit : fits (contributingOwnerKeys row)) by (unfold appendGatewayAndContributionTags in Hgw; by eapply append_ok_fits).
  destruct (owner_tags_spec cluster GetNamespaceUID o gw (contributingOwnerKeys row)) as (tags' & Ht' & Hs);
    [done|by apply owner_keys_ok|done..|].
  rewrite Ht' in Hgw. simplify_eq. destruct (Hs rec0 None) as [H1 H2]. change (with_tags rec0 tags None) with rec0 in *.
  split; [|done]. apply (wf_record_intro _ (contributingOwnerKeys row)); rewrite ?H1; try done. by exists o.
Qed.
Lemma owner_key_route k : route_key k -> owner_key k.
Proof. intros (r & ? & _ & ->). by exists r. Qed.
Lemma mergeContributingOwnerKeys_spec keys k primary :
  Forall owner_key keys -> NoDup keys -> owner_key k -> primary ∉ keys -> k <> primary ->
  mergeContributingOwnerKeys keys k primary ≡ₚ elements ({[k]} ∪ list_to_set keys : gset string).
Proof.
  intros Hkeys Hnd Hk Hp Hne. unfold mergeContributingOwnerKeys.
  apply owner_key_ok in Hk as Hk'. rewrite key_ok_trim by done.
  rewrite !bool_decide_eq_true_2 by (done || by destruct Hk'). cbn [andb]. rewrite sort_strings_perm.
  f_equiv. apply leibniz_equiv_iff. f_equal. f_equal.
  assert (Hm : map trim_space keys = keys).
  { clear Hnd Hp. induction Hkeys as [|k' l Hk1 Hl IH]; [done|]. simpl. rewrite IH, key_ok_trim; [done|by apply owner_key_ok]. }
  rewrite Hm. apply filter_all. apply Forall_forall. intros x Hx. split; [|by intros ->].
  apply (proj1 (Forall_forall _ _) Hkeys) in Hx. by destruct (owner_key_ok _ Hx).
Qed.

Lemma owners_eq rec keys primary :
  contributors rec ≡ₚ keys -> getDNSRecordOwnerNamespacedName rec = primary -> owners rec = {[primary]} ∪ list_to_set keys.
Proof. intros Hc <-. unfold owners. by rewrite (list_to_set_perm_L _ _ Hc). Qed.
Lemma sharable_route_key rec :
  wf_record rec -> isRecordSharableWithContributors rec = true -> route_key (getDNSRecordOwnerNamespacedName rec).
Proof.
  intros Hwf. destruct (resourceRef_of_owner_key rec (wf_primary _ Hwf)) as (r & Hr & Href & <-).
  unfold isRecordSharableWithContributors. rewrite Href. intros Hk. by exists r.
Qed.
Lemma route_key_sharable rec :
  wf_record rec -> route_key (getDNSRecordOwnerNamespacedName rec) -> isRecordSharableWithContributors rec = true.
Proof.
  intros Hwf (r & Hr & Hk & Heq). destruct (resourceRef_of_owner_key rec (wf_primary _ Hwf)) as (r' & Hr' & Href & Heq').
  unfold isRecordSharableWithContributors. rewrite Href. rewrite Heq in Heq'.
  pose proof (parse_owner_key _ Hr) as Hp. rewrite <- Heq', (parse_owner_key _ Hr') in Hp. injection Hp as Hkk _ _.
  destruct Hr as [Hk1%created_for_cases _], Hr' as [Hk2%created_for_cases _].
  destruct Hk1 as [Hk1 _], Hk2 as [Hk2 _]. by rewrite <- Hk2, Hkk, Hk1.
Qed.
(** An accepted row, against the record that was found. *)
Lemma check_existing_spec zonePath ep recordName owner e row :
  wf_ref owner -> wf_shared e -> check_existing zonePath ep recordName owner e = Ok row ->
  let k := ownerNNIndexKeyForResourceRef owner in
  let o := default owner (effectiveOwner row) in
  wf_ref o /\ ownerNNIndexKeyForResourceRef o = getDNSRecordOwnerNamespacedName e /\
  Forall owner_key (contributingOwnerKeys row) /\ NoDup (contributingOwnerKeys row) /\
  ownerNNIndexKeyForResourceRef o ∉ contributingOwnerKeys row /\
  {[ownerNNIndexKeyForResourceRef o]} ∪ list_to_set (contributingOwnerKeys row) = owners e ∪ {[k]} /\
  (k = getDNSRecordOwnerNamespacedName e \/
   (isRouteKind (ref_Kind owner) = true /\ isRecordSharableWithContributors e = true /\
    trim_space (label_of ep EndpointLabelParentGateway) = gatewayIndexTagFromRecord e)).
Proof.
  intros Hr [Hwf Hsh]. unfold check_existing. fold contributors. case_bool_decide as Hk.
  - assert (Hrow : forall keys, keys = contributors e -> row = mkRow ep zonePath recordName None keys ->
      let o := default owner (effectiveOwner row) in
      wf_ref o /\ ownerNNIndexKeyForResourceRef o = getDNSRecordOwnerNamespacedName e /\
      Forall owner_key (contributingOwnerKeys row) /\ NoDup (contributingOwnerKeys row) /\
      ownerNNIndexKeyForResourceRef o ∉ contributingOwnerKeys row /\
      {[ownerNNIndexKeyForResourceRef o]} ∪ list_to_set (contributingOwnerKeys row) =
        owners e ∪ {[ownerNNIndexKeyForResourceRef owner]}).
    { intros keys -> ->. cbn [from_option id effectiveOwner contributingOwnerKeys NewEndpointRow]. rewrite <- Hk.
      destruct Hwf. unfold owners. split_and!; try done. set_solver. }
    destruct (isRecordSharableWithContributors e) eqn:Hs.
    + destruct (contributors e) as [|k' ks] eqn:Hc.
      * intros [= <-]. destruct (Hrow [] eq_refl eq_refl) as (? & ? & ? & ? & ? & ?). split_and!; try done. by left.
      * case_bool_decide; [done|]. intros [= <-].
        destruct (Hrow (k' :: ks) eq_refl eq_refl) as (? & ? & ? & ? & ? & ?). split_and!; try done. by left.
    + intros [= <-]. assert (Hc : contributors e = []).
      { destruct Hsh as [Hc|Hsh]; [done|]. rewrite (route_key_sharable e Hwf) in Hs; [done|].
        apply Hsh. unfold owners. set_solver. }
      destruct (Hrow [] (eq_sym Hc) eq_refl) as (? & ? & ? & ? & ? & ?). split_and!; try done. by left.
  - destruct (resourceRef_of_owner_key e (wf_primary _ Hwf)) as (r & Hrr & Href & Heq). rewrite Href.
    destruct (isRecordSharableWithContributors e) eqn:Hs; [|done].
    destruct (isRouteKindCompatible _ _) eqn:Hcomp; [|done]. simpl.
    unfold isRouteTargetConsistent. case_bool_decide as Hgw; [done|].
    intros [= <-]. cbn [from_option id effectiveOwner contributingOwnerKeys NewEndpointRow].
    assert (Hok : owner_key (ownerNNIndexKeyForResourceRef owner)) by (by exists owner).
    destruct Hwf as [Hp Hcs Hnd Hnp Hfit].
    pose proof (mergeContributingOwnerKeys_spec (contributors e) (ownerNNIndexKeyForResourceRef owner)
      (getDNSRecordOwnerNamespacedName e) Hcs Hnd Hok Hnp ltac:(done)) as Hm.
    set (keys := mergeContributingOwnerKeys _ _ _) in *.
    assert (Hel : forall x, x ∈ keys <-> x = ownerNNIndexKeyForResourceRef owner \/ x ∈ contributors e).
    { intros x. rewrite Hm, elem_of_elements. set_solver. }
    split_and!; try done.
    + apply Forall_forall. intros x [->|Hx]%Hel; [done|]. by apply (proj1 (Forall_forall _ _) Hcs).
    + rewrite Hm. apply NoDup_elements.
    + rewrite Heq. rewrite Hel. intros [?|?]; [by apply Hk|done].
    + rewrite Heq. unfold owners. apply set_eq. intros x.
      rewrite !elem_of_union, !elem_of_list_to_set, Hel, !elem_of_singleton. tauto.
    + right. split_and!; [|done|done]. unfold isRecordSharableWithContributors in Hs. rewrite Href in Hs.
      unfold isRouteKindCompatible in Hcomp. apply orb_true_iff in Hcomp as [Hc%bool_decide_eq_true|Hc%andb_true_iff];
        [by rewrite Hc|by destruct Hc].
Qed.
End Adoption.

Section DesiredRecords.
Context {I : Type} `{!Indexer I DnsRecord dns_key}.
Context (cluster : string) (GetNamespaceUID : string -> string).
Lemma pick_record_elem recs e : pick_record recs = Some e -> e ∈ recs.
Proof.
  unfold pick_record. destruct (filter _ recs) as [|r l] eqn:Hf; simpl.
  - destruct recs; [done|]. intros [= ->]. left.
  - intros [= ->]. assert (e ∈ filter (fun r => marked r = false) recs) as [_ ?]%list_elem_of_filter by (rewrite Hf; left). done.
Qed.

(** C15. A row that is accepted never takes a record away from its owners. When
    no record is filed under its zone, name and type, the record that is built
    has the batch's owner only; otherwise its owners are those of the existing
    record and the batch's owner, who either is the primary owner already or is
    a route, joining a record of routes under the same parent Gateway. The
    record that is built is well-formed, so the invariant of the store is kept. *)
Theorem desired_record_owners (s : I) owner row rec :
  wf_ref owner -> (forall e, e ∈ ix_List s -> wf_shared e) ->
  desired_record cluster GetNamespaceUID s owner row = inr rec ->
  let k := ownerNNIndexKeyForResourceRef owner in
  let idxKey := dnsRecordZonePathRecordNameIndexKey (row_zonePath row) (nsxRecordName row)
                  (to_lower (trim_space (RecordType (row_Endpoint row)))) in
  wf_shared rec /\
  match pick_record (ix_GetByIndex indexDNSRecordByZonePathRecordName idxKey s) with
  | None => owners rec = {[k]}
  | Some e =>
      owners rec = owners e ∪ {[k]} /\
      getDNSRecordOwnerNamespacedName rec = getDNSRecordOwnerNamespacedName e /\
      (k = getDNSRecordOwnerNamespacedName e \/
       (isRouteKind (ref_Kind owner) = true /\ isRecordSharableWithContributors e = true /\
        trim_space (label_of (row_Endpoint row) EndpointLabelParentGateway) = gatewayIndexTagFromRecord e))
  end.
Proof.
  intros Hr Hst. unfold desired_record, validateEndpointRowConflict.
  rewrite bool_decide_eq_false_2 by apply Hr.
  destruct (pick_record _) as [e|] eqn:Hpick.
  - apply pick_record_elem, elem_of_GetByIndex in Hpick as [_ He%ix_list_get].
    specialize (Hst _ He). destruct (check_existing _ _ _ _ e) as [row'|] eqn:Hc; [|done].
    destruct (BuildDnsRecord _ _ owner row') as [rec'|] eqn:Hb; [|done]. intros [= <-].
    apply check_existing_spec in Hc as (Ho & Hkeq & Hks & Hnd & Hnin & Hown & Hwhy); [|done..].
    apply BuildDnsRecord_owners in Hb as (Hwf & Hcr & Hpr); [|done..].
    assert (Hrec : owners rec' = owners e ∪ {[ownerNNIndexKeyForResourceRef owner]}).
    { by rewrite (owners_eq _ _ _ Hcr Hpr). }
    split; [|rewrite Hpr; auto]. split; [done|]. destruct Hst as [Hwe Hsh].
    destruct Hwhy as [Hk|(Hroute & Hs & _)].
    + destruct Hsh as [Hce|Hsh].
      * left. apply Permutation_nil_r. rewrite Hcr. apply Permutation_nil_r.
        destruct (contributingOwnerKeys row') as [|x l] eqn:Hrow; [done|].
        exfalso. assert (Hx : x ∈ owners e ∪ {[ownerNNIndexKeyForResourceRef owner]}) by (rewrite <- Hown; set_solver).
        apply not_elem_of_cons in Hnin as [Hne _]. unfold owners in Hx. rewrite Hce in Hx. rewrite Hk in Hx.
        rewrite Hkeq in Hne. set_solver.
      * right. intros x. rewrite Hrec. intros [Hx|Hx]%elem_of_union; [by apply Hsh|].
        apply elem_of_singleton in Hx as ->. apply Hsh. unfold owners. rewrite Hk. set_solver.
    + right. intros x. rewrite Hrec. intros [Hx|Hx]%elem_of_union.
      * destruct Hsh as [Hce|Hsh]; [|by apply Hsh]. unfold owners in Hx. rewrite Hce in Hx.
        assert (x = getDNSRecordOwnerNamespacedName e) as -> by set_solver. by apply sharable_route_key.
      * apply elem_of_singleton in Hx as ->. by exists owner.
  - destruct (BuildDnsRecord _ _ owner _) as [rec'|] eqn:Hb; [|done]. intros [= <-].
    apply BuildDnsRecord_owners in Hb as (Hwf & Hcr & Hpr); cbn; [|done|constructor|constructor|apply not_elem_of_nil].
    cbn in Hcr, Hpr. split; [split; [done|left; by apply Permutation_nil_r]|].
    rewrite (owners_eq _ _ _ Hcr Hpr). set_solver.
Qed.
End DesiredRecords.

(** *** Removal of an owner from the whole store *)
Section Deletion.
Context {I : Type} `{!Indexer I DnsRecord dns_key}.
Context (cluster : string) (GetNamespaceUID : string -> string).
Definition path_ok (rec : DnsRecord) : Prop :=
  exists p, rec_Path rec = Some p /\ p <> "" /\ trim_space p = p.
(** The records of the store are well-formed and have proper paths. *)
Definition wf_store (s : I) : Prop := forall e, e ∈ ix_List s -> wf_record e /\ path_ok e.

Lemma elem_of_dedupe recs r :
  (forall e, e ∈ recs -> path_ok e) ->
  (forall e e', e ∈ recs -> e' ∈ recs -> dns_key e = dns_key e' -> e = e') ->
  r ∈ dedupeRecordsByPath recs <-> r ∈ recs.
Proof.
  intros Hok Hinj. unfold dedupeRecordsByPath. set (f := fun r : DnsRecord => _).
  assert (Hf : forall e, e ∈ recs -> f e = Some (dns_key e, e)).
  { intros e He. destruct (Hok e He) as (p & Hp & Hne & Ht). unfold f, dns_key. rewrite Hp, Ht.
    by rewrite bool_decide_eq_false_2. }
  assert (Hel : forall k e, (k, e) ∈ omap f recs <-> e ∈ recs /\ k = dns_key e).
  { intros k e. rewrite list_elem_of_omap. split.
    - intros (e' & He' & Hfe). rewrite Hf in Hfe by done. by simplify_eq.
    - intros [He ->]. exists e. by rewrite Hf. }
  rewrite list_elem_of_fmap. split.
  - intros ([k e] & -> & Hke%elem_of_map_to_list%map_of_writes_elem). by apply Hel in Hke as [? _].
  - intros Hr. assert (is_Some (map_of_writes (omap f recs) !! dns_key r)) as [e He].
    { apply map_of_writes_is_Some. apply list_elem_of_fmap. exists (dns_key r, r). split; [done|]. by apply Hel. }
    assert (e = r) as ->.
    { apply map_of_writes_elem, Hel in He as [? ?]. by apply Hinj. }
    exists (dns_key r, r). split; [done|]. by apply elem_of_map_to_list.
Qed.
Lemma ownerNN_not_empty r : wf_ref r -> ownerNNIndexKeyForResourceRef r <> "".
Proof. intros Hr. destruct (owner_key_ok (ownerNNIndexKeyForResourceRef r)); [by exists r|done]. Qed.
(** The records collected for an owner are those it owns. *)
Lemma collectRecordsByOwner_spec (s : I) owner :
  wf_ref owner -> wf_store s ->
  (collectRecordsByOwner s (ref_Kind owner) (ref_Namespace owner) (ref_Name owner)).1 = ownerNNIndexKeyForResourceRef owner /\
  forall e, e ∈ (collectRecordsByOwner s (ref_Kind owner) (ref_Namespace owner) (ref_Name owner)).2 <->
    e ∈ ix_List s /\ ownerNNIndexKeyForResourceRef owner ∈ owners e.
Proof.
  intros Hr Hst. unfold collectRecordsByOwner, GetByOwnerResourceNamespacedName, ListRecordsReferencingContributingOwner.
  pose proof (ownerNN_not_empty _ Hr) as Hne. unfold ownerNNIndexKeyForResourceRef in *.
  rewrite !bool_decide_eq_false_2 in * by apply Hr. set (k := dnsRecordOwnerKey _ _) in *. split; [done|].
  set (recs := ix_GetByIndex _ k s ++ _).
  assert (Hrecs : forall e, e ∈ recs <-> e ∈ ix_List s /\ k ∈ owners e).
  { intros e. unfold recs. rewrite elem_of_app, !elem_of_GetByIndex, <- !ix_list_get. unfold owners, indexDNSRecordByOwnerTypeNN.
    rewrite elem_of_union, elem_of_singleton, elem_of_list_to_set. case_bool_decide as Hb.
    - rewrite elem_of_nil. assert (k <> getDNSRecordOwnerNamespacedName e) by congruence. unfold contributors, indexDNSRecordByContributingOwner. tauto.
    - rewrite list_elem_of_singleton. unfold contributors, indexDNSRecordByContributingOwner. tauto. }
  intros e. cbn [snd]. rewrite elem_of_dedupe; [apply Hrecs| |].
  - intros e' [He' _]%Hrecs. by apply Hst.
  - intros e1 e2 [H1%ix_list_get _]%Hrecs [H2%ix_list_get _]%Hrecs Heq. rewrite Heq in H1. congruence.
Qed.

(** What the records appended for one removed record are. *)
Definition removal_of (k : string) (e : DnsRecord) (del upd : list DnsRecord) : Prop :=
  (k ∉ owners e /\ del = [] /\ upd = []) \/
  (owners e = {[k]} /\ del = [mark e] /\ upd = []) \/
  (k ∈ owners e /\ owners e <> {[k]} /\ del = [] /\
   exists u, upd = [u] /\ wf_record u /\ owners u = owners e ∖ {[k]} /\ same_content u e).
Lemma classify_removal_of e k :
  wf_record e -> exists del upd, classifyOwnerRemoval cluster GetNamespaceUID e k = Ok (del, upd) /\ removal_of k e del upd.
Proof.
  intros Hwf. destruct (classify_owner_removal cluster GetNamespaceUID e k Hwf) as [[? Hc]|[[? Hc]|(? & ? & u & Hc & ? & ? & ?)]];
    rewrite Hc; do 2 eexists; (split; [done|]); unfold removal_of, mark; naive_solver.
Qed.
Lemma classify_all_spec k recs del0 upd0 :
  Forall wf_record recs ->
  exists del upd, classify_all cluster GetNamespaceUID k recs del0 upd0 = Ok (del0 ++ del, upd0 ++ upd) /\
    (forall e, e ∈ recs -> exists d u, removal_of k e d u /\ d ⊆ del /\ u ⊆ upd) /\
    (forall r, r ∈ del -> exists e, e ∈ recs /\ owners e = {[k]} /\ r = mark e) /\
    (forall r, r ∈ upd -> exists e, e ∈ recs /\ wf_record r /\ k ∈ owners e /\ owners r = owners e ∖ {[k]} /\ same_content r e).
Proof.
  intros Hall. revert del0 upd0; induction Hall as [|e recs He Hall IH]; intros del0 upd0.
  { exists [], []. rewrite !app_nil_r. split_and!; [done|by intros ? ?%elem_of_nil..]. }
  unfold classify_all. simpl. destruct (classify_removal_of e k He) as (d & u & -> & Hrem).
  destruct (IH (del0 ++ d) (upd0 ++ u)) as (del & upd & Hc & H1 & H2 & H3).
  exists (d ++ del), (u ++ upd). rewrite !(assoc_L (++)). split; [exact Hc|]. split_and!.
  - intros e' [->|He']%elem_of_cons.
    + exists d, u. split; [done|]. split; intros x Hx; apply elem_of_app; by left.
    + destruct (H1 e' He') as (d' & u' & ? & ? & ?). exists d', u'. split; [done|].
      split; intros x Hx; apply elem_of_app; right; auto.
  - intros r [Hr|Hr]%elem_of_app; [|destruct (H2 r Hr) as (e' & ? & ?); exists e'; split; [by right|done]].
    exists e. split; [left|]. destruct Hrem as [(_ & -> & _)|[(? & -> & _)|(_ & _ & -> & _)]];
      [by apply elem_of_nil in Hr| |by apply elem_of_nil in Hr]. by apply list_elem_of_singleton in Hr.
  - intros r [Hr|Hr]%elem_of_app; [|destruct (H3 r Hr) as (e' & ? & ?); exists e'; split; [by right|done]].
    exists e. split; [left|]. destruct Hrem as [(_ & _ & ->)|[(_ & _ & ->)|(? & _ & _ & u' & -> & ? & ? & ?)]];
      [by apply elem_of_nil in Hr..|]. apply list_elem_of_singleton in Hr as ->. done.
Qed.

(** Deleting an owner from a store of well-formed records never fails, and
    covers the store: of the records it owns, those it owns alone are deleted
    and the others are updated to the remaining owners, with their path, zone
    and values unchanged; no record it does not own is touched. *)
Theorem calculateRecordsForDeletion_spec (s : I) owner :
  wf_ref owner -> wf_store s ->
  let k := ownerNNIndexKeyForResourceRef owner in
  exists toUpdate toDelete,
    calculateRecordsForDeletion cluster GetNamespaceUID s (ref_Kind owner) (ref_Namespace owner) (ref_Name owner)
      = Ok (toUpdate, toDelete) /\
    (forall e, e ∈ ix_List s -> owners e = {[k]} -> mark e ∈ toDelete) /\
    (forall e, e ∈ ix_List s -> k ∈ owners e -> owners e <> {[k]} ->
       exists u, u ∈ toUpdate /\ dns_key u = dns_key e /\ owners u = owners e ∖ {[k]}) /\
    (forall r, r ∈ toDelete -> exists e, e ∈ ix_List s /\ owners e = {[k]} /\ r = mark e) /\
    (forall u, u ∈ toUpdate -> wf_record u /\
       exists e, e ∈ ix_List s /\ k ∈ owners e /\ owners u = owners e ∖ {[k]} /\ same_content u e).
Proof.
  intros Hr Hst k. destruct (collectRecordsByOwner_spec s owner Hr Hst) as [Hk Hall].
  unfold calculateRecordsForDeletion. destruct (collectRecordsByOwner _ _ _ _) as [k' all]. cbn [fst snd] in *. subst k'. fold k in Hall |- *.
  assert (Hwf : Forall wf_record all).
  { apply Forall_forall. intros e [He _]%Hall. by apply Hst. }
  rewrite (bool_decide_eq_false_2 (k = "")) by (by apply ownerNN_not_empty). cbn [orb].
  destruct (classify_all_spec k all [] [] Hwf) as (del & upd & Hc & H1 & H2 & H3). rewrite Hc. cbn [app].
  assert (Hres : (if bool_decide (all = []) then Ok ([], []) else Ok (upd, del)) = (Ok (upd, del) : result goerr _)).
  { case_bool_decide as Ha; [|done]. subst all. assert (del = []) as ->.
    { destruct del as [|r del]; [done|]. destruct (H2 r) as (e & He & _); [left|by apply elem_of_nil in He]. }
    destruct upd as [|r upd]; [done|]. destruct (H3 r) as (e & He & _); [left|by apply elem_of_nil in He]. }
  rewrite Hres. exists upd, del. split; [done|]. split_and!.
  - intros e He Ho. destruct (H1 e) as (d & u & Hrem & Hd & _); [apply Hall; split; [done|rewrite Ho; set_solver]|].
    apply Hd. destruct Hrem as [(Hn & _)|[(_ & -> & _)|(_ & ? & _)]]; [rewrite Ho in Hn; set_solver|left|done].
  - intros e He Hin Hne. destruct (H1 e) as (d & u & Hrem & _ & Hu); [by apply Hall|].
    destruct Hrem as [(? & _)|[(? & _)|(_ & _ & _ & u' & -> & _ & Ho & Hs)]]; [done..|].
    exists u'. split; [apply Hu; left|]. split; [|done]. unfold dns_key. destruct Hs as (_ & -> & _). done.
  - intros r Hr'. destruct (H2 r Hr') as (e & [? _]%Hall & ? & ?). by exists e.
  - intros u Hu. destruct (H3 u Hu) as (e & [? _]%Hall & ? & ? & ? & ?). split; [done|]. by exists e.
Qed.
End Deletion.

(** ** Examples *)
Definition sample_route : DnsRecord :=
  mkDns (Some "www_z_a") (Some "/orgs/o/projects/p/dns-records/www_z_a") (Some "www") (Some "www")
    [newTag TagScopeDNSRecordFor "httproute"; newTag TagScopeDNSRecordOwnerNamespace "ns";
     newTag TagScopeDNSRecordOwnerName "r1"; newTag TagScopeDNSRecordGatewayIndexList "ns/gw"]
    (Some "A") ["10.0.0.1"] (Some "/orgs/o/projects/p/dns-services/d/zones/z") (Some 300) (Some "www.example.com") None.
Definition sample_store : map_store DnsRecord dns_key := ix_Add sample_route ix_empty.
Definition sample_row : EndpointRow :=
  NewEndpointRow (mkEndpoint "www.example.com" ["10.0.0.1"] "A" "" 0 {[EndpointLabelParentGateway := "ns/gw"]} [])
    "/orgs/o/projects/p/dns-services/d/zones/z" "www".
Lemma sample_route_wf : wf_record sample_route.
Proof.
  apply (wf_record_intro _ []); [by vm_compute| |constructor|constructor|apply not_elem_of_nil|by vm_compute].
  exists (mkRef "HTTPRoute" "ns" "r1"). by vm_compute.
Qed.
Lemma elem_of_sample_store e : e ∈ ix_List sample_store -> e = sample_route.
Proof.
  unfold sample_store. rewrite elem_of_List_add. intros [|[_ He]]; [done|].
  apply ix_list_get in He. by rewrite ix_get_empty in He.
Qed.
Lemma sample_route_shared : wf_shared sample_route.
Proof. split; [apply sample_route_wf|left; by vm_compute]. Qed.
Lemma desired_record_owners_witness :
  exists rec, desired_record "c" (fun _ => "uid") sample_store (mkRef "GRPCRoute" "ns" "r2") sample_row = inr rec /\
    wf_shared rec.
Proof.
  destruct (desired_record "c" (fun _ => "uid") sample_store (mkRef "GRPCRoute" "ns" "r2") sample_row) as [e|rec] eqn:E;
    [exfalso; revert E; vm_compute; discriminate|].
  exists rec. split; [reflexivity|].
  refine (proj1 (desired_record_owners "c" (fun _ => "uid") sample_store (mkRef "GRPCRoute" "ns" "r2") sample_row rec _ _ E)).
  - clear E. by vm_compute.
  - clear E. intros e ->%elem_of_sample_store. apply sample_route_shared.
Defined.
Lemma calculateRecordsForDeletion_spec_witness :
  exists toUpdate toDelete,
    calculateRecordsForDeletion "c" (fun _ => "uid") sample_store "HTTPRoute" "ns" "r1" = Ok (toUpdate, toDelete) /\
    (forall e, e ∈ ix_List sample_store -> owners e = {["httproute/ns/r1"]} -> mark e ∈ toDelete).
Proof.
  destruct (calculateRecordsForDeletion_spec "c" (fun _ => "uid") sample_store (mkRef "HTTPRoute" "ns" "r1"))
    as (u & d & H1 & H2 & _).
  - by vm_compute.
  - intros e ->%elem_of_sample_store. split; [apply sample_route_wf|].
    exists "/orgs/o/projects/p/dns-records/www_z_a". split_and!; [reflexivity|discriminate|reflexivity].
  - exists u, d. split; [exact H1|exact H2].
Defined.
(** Zones with one identifier in two DNS services of a project: the records of
    one name have one path and two lock keys. *)
Lemma zones_share_record_path :
  let z1 := "/orgs/o/projects/p/dns-services/d1/zones/z" in let z2 := "/orgs/o/projects/p/dns-services/d2/zones/z" in
  let id1 := getRecordIDAndPathAndType "www" "A" z1 in let id2 := getRecordIDAndPathAndType "www" "A" z2 in
  id1 = id2 /\ getLockKey z1 id1.1.1 id1.2 <> getLockKey z2 id2.1.1 id2.2.
Proof. split; [by vm_compute|]. vm_compute. discriminate. Qed.
