(* ===== verification/DnsLocks.v ===== *)
(** * pkg/nsx/services/dns/recordservice.go: the locks of concurrent reconciles

    Every call of [CreateOrUpdateRecords] and [DeleteRecordByOwnerNN] takes the
    lock of its owner, computes the lock keys of the records involved, takes
    them in sorted order, runs, and gives them back in reverse order. Here the
    calls are threads that interleave, and the records are reduced to what the
    locks are about: the primary and the contributing owners of the record of
    each lock key. The keys of the records of an owner come from two reads of
    the store, of the records it is primary of and of those it contributes to;
    other calls may run in between. Records are named by their lock keys: it is
    assumed that different lock keys belong to different records, which fails
    for zones of one project with the same identifier in different DNS services
    ([zones_share_record_path] in DnsService). *)
From S2P Require Import Prelude GoStrings.

(** A call: the lock key of its owner, its owner's index key, and the lock
    keys of the rows of its batch (none for a deletion). *)
Record call := mkCall { c_owner_lock : string; c_owner : string; c_wanted : gset string }.
(** The owners of a record, and the records by lock key. *)
Record owners := mkOwners { r_primary : string; r_contributing : gset string }.
Notation world := (gmap string owners) (only parsing).
Definition primary_of (w : world) (key : string) : option string := r_primary <$> w !! key.
Definition owners_of (w : world) (key : string) : gset string :=
  match w !! key with Some r => {[r_primary r]} ∪ r_contributing r | None => ∅ end.

(** [collectRecordsByOwner]: first the records the owner is primary of, then
    those it contributes to. *)
Definition primary_keys (o : string) (w : world) : gset string := dom (filter (fun kv => r_primary kv.2 = o) w).
Definition contributing_keys (o : string) (w : world) : gset string := dom (filter (fun kv => o ∈ r_contributing kv.2) w).
(** [getInvolvedRecordLockKeys]: the wanted keys and those of the records the
    owner owns, sorted. *)
Definition involved (c : call) (primaries : gset string) (w : world) : list string :=
  sets_List (c_wanted c ∪ primaries ∪ contributing_keys (c_owner c) w).

Inductive phase :=
  | WaitOwner                                   (* recordArbitrator.lock(ownerKey) *)
  | Compute                                     (* getInvolvedRecordLockKeys *)
  | ReadPrimary (primaries : gset string)       (* GetByOwnerResourceNamespacedName has returned *)
  | Locking (held todo : list string)           (* the loop of lock(id) *)
  | Unlocking (held : list string)              (* the deferred loop of unlock *)
  | Done.
#[global] Instance phase_eq_dec : EqDecision phase.
Proof. solve_decision. Defined.
(** [promoted]: ghost; the records on which an owner became primary while a
    call of that owner was between its two reads. *)
Record state := mkState {
  busyRecords : gset string; threads : gmap nat phase; records : world; promoted : gset string }.

Section Locks.
Context (calls : gmap nat call).

(** What a call may do to the records once it runs: it writes only records it
    has locked, changes only its own ownership of them, and a record gets
    another primary owner only when it was the primary one. Of a record in
    [promoted], which it may write without its lock, nothing is said. *)
Definition effect (c : call) (locked : list string) (pr : gset string) (w w' : world) : Prop :=
  forall key, key ∉ pr ->
    (key ∉ locked -> w' !! key = w !! key) /\
    (forall o, o <> c_owner c -> o ∈ owners_of w' key <-> o ∈ owners_of w key) /\
    (forall o, primary_of w key = Some o -> o <> c_owner c -> primary_of w' key = Some o).
Definition newly_promoted (ts : gmap nat phase) (w w' : world) (key : string) : Prop :=
  exists t c primaries, calls !! t = Some c /\ ts !! t = Some (ReadPrimary primaries) /\
    primary_of w' key = Some (c_owner c) /\ primary_of w key <> Some (c_owner c).

Inductive step : state -> state -> Prop :=
  | step_lock_owner t c b ts w pr :
      calls !! t = Some c -> ts !! t = Some WaitOwner -> c_owner_lock c ∉ b ->
      step (mkState b ts w pr) (mkState ({[c_owner_lock c]} ∪ b) (<[t := Compute]> ts) w pr)
  | step_read_primary t c b ts w pr :
      calls !! t = Some c -> ts !! t = Some Compute ->
      step (mkState b ts w pr) (mkState b (<[t := ReadPrimary (primary_keys (c_owner c) w)]> ts) w pr)
  | step_read_contributing t c primaries b ts w pr :
      calls !! t = Some c -> ts !! t = Some (ReadPrimary primaries) ->
      step (mkState b ts w pr) (mkState b (<[t := Locking [] (involved c primaries w)]> ts) w pr)
  | step_lock t held k todo b ts w pr :
      ts !! t = Some (Locking held (k :: todo)) -> k ∉ b ->
      step (mkState b ts w pr) (mkState ({[k]} ∪ b) (<[t := Locking (held ++ [k]) todo]> ts) w pr)
  | step_run t c held b ts w w' pr pr' :
      calls !! t = Some c -> ts !! t = Some (Locking held []) -> effect c held pr w w' ->
      (forall k, k ∈ pr' <-> k ∈ pr \/ newly_promoted ts w w' k) ->
      step (mkState b ts w pr) (mkState b (<[t := Unlocking held]> ts) w' pr')
  | step_unlock t held k b ts w pr :
      ts !! t = Some (Unlocking (held ++ [k])) ->
      step (mkState b ts w pr) (mkState (b ∖ {[k]}) (<[t := Unlocking held]> ts) w pr)
  | step_unlock_owner t c b ts w pr :
      calls !! t = Some c -> ts !! t = Some (Unlocking []) ->
      step (mkState b ts w pr) (mkState (b ∖ {[c_owner_lock c]}) (<[t := Done]> ts) w pr).

Definition initial (w : world) : state := mkState ∅ (const WaitOwner <$> calls) w ∅.
Definition reachable (w : world) (st : state) : Prop := rtc step (initial w) st.
Definition all_done (st : state) : Prop := forall t p, threads st !! t = Some p -> p = Done.

(** ** The invariant *)

(** The keys a call holds in a phase. *)
Definition held_keys (c : call) (p : phase) : gset string :=
  match p with
  | WaitOwner | Done => ∅
  | Compute | ReadPrimary _ => {[c_owner_lock c]}
  | Locking held _ | Unlocking held => {[c_owner_lock c]} ∪ list_to_set held
  end.
(** Owner locks are not lock keys of records: the former begin with "owner/",
    the latter with the path of a zone. *)
Context (owner_locks : gset string).
Context (Howner : forall t c, calls !! t = Some c -> c_owner_lock c ∈ owner_locks).
Context (Hwanted : forall t c k, calls !! t = Some c -> k ∈ c_wanted c -> k ∉ owner_locks).
(** Different owners have different locks and different index keys. *)
Context (Hinj : forall t1 t2 c1 c2, calls !! t1 = Some c1 -> calls !! t2 = Some c2 ->
  c_owner c1 = c_owner c2 -> c_owner_lock c1 = c_owner_lock c2).

Definition phase_ok (c : call) (w : world) (pr : gset string) (p : phase) : Prop :=
  match p with
  | ReadPrimary primaries =>
      (forall k, k ∈ primaries -> k ∉ owner_locks) /\
      (forall k, k ∉ pr -> primary_of w k = Some (c_owner c) -> k ∈ primaries)
  | Locking held todo =>
      Sorted str_le (held ++ todo) /\ NoDup (held ++ todo) /\
      (forall k, k ∈ held ++ todo -> k ∉ owner_locks) /\
      (forall k, k ∈ c_wanted c \/ (k ∉ pr /\ c_owner c ∈ owners_of w k) -> k ∈ held ++ todo)
  | Unlocking held => NoDup held /\ (forall k, k ∈ held -> k ∉ owner_locks)
  | _ => True
  end.
Record inv (st : state) : Prop := {
  inv_threads : forall t, is_Some (threads st !! t) <-> is_Some (calls !! t);
  inv_phase : forall t c p, calls !! t = Some c -> threads st !! t = Some p -> phase_ok c (records st) (promoted st) p;
  inv_world : forall k o, o ∈ owners_of (records st) k -> k ∉ owner_locks;
  inv_promoted : forall k, k ∈ promoted st -> k ∉ owner_locks;
  inv_busy : forall k, k ∈ busyRecords st <->
    exists t c p, calls !! t = Some c /\ threads st !! t = Some p /\ k ∈ held_keys c p;
  inv_disjoint : forall t1 t2 c1 c2 p1 p2, t1 <> t2 ->
    calls !! t1 = Some c1 -> calls !! t2 = Some c2 ->
    threads st !! t1 = Some p1 -> threads st !! t2 = Some p2 -> held_keys c1 p1 ## held_keys c2 p2 }.

Lemma elem_of_primary_keys o w k : k ∈ primary_keys o w <-> primary_of w k = Some o.
Proof.
  unfold primary_keys, primary_of. rewrite elem_of_dom. split.
  - intros [r Hr]. apply map_lookup_filter_Some in Hr as [-> E]. cbn in *. by rewrite E.
  - destruct (w !! k) as [r|] eqn:E; [|done]. intros [= Ho]. exists r. by apply map_lookup_filter_Some.
Qed.
Lemma elem_of_contributing_keys o w k :
  k ∈ contributing_keys o w <-> exists r, w !! k = Some r /\ o ∈ r_contributing r.
Proof.
  unfold contributing_keys. rewrite elem_of_dom. split.
  - intros [r Hr]. apply map_lookup_filter_Some in Hr as [Hk Ho]. eauto.
  - intros (r & Hk & Ho). exists r. by apply map_lookup_filter_Some.
Qed.
Lemma primary_owns w k o : primary_of w k = Some o -> o ∈ owners_of w k.
Proof. unfold primary_of, owners_of. destruct (w !! k); [|done]. intros [= <-]. set_solver. Qed.
Lemma elem_of_owners w k o :
  o ∈ owners_of w k <-> primary_of w k = Some o \/ k ∈ contributing_keys o w.
Proof.
  rewrite elem_of_contributing_keys. unfold primary_of, owners_of. destruct (w !! k) as [r|]; simpl; [|set_solver].
  rewrite elem_of_union, elem_of_singleton. naive_solver.
Qed.
Lemma elem_of_involved c ks w k :
  k ∈ involved c ks w <-> k ∈ c_wanted c \/ k ∈ ks \/ k ∈ contributing_keys (c_owner c) w.
Proof. unfold involved. rewrite elem_of_sets_List. set_solver. Qed.
Lemma initial_inv w : (forall k o, o ∈ owners_of w k -> k ∉ owner_locks) -> inv (initial w).
Proof.
  intros Hw. assert (Hph : forall t p, (const WaitOwner <$> calls) !! t = Some p -> p = WaitOwner).
  { intros t p. rewrite lookup_fmap. destruct (calls !! t); simpl; congruence. }
  split; simpl.
  - intros t. by rewrite lookup_fmap, fmap_is_Some.
  - intros t c p _ ->%Hph. done.
  - done.
  - set_solver.
  - intros k. split; [set_solver|]. intros (t & c & p & _ & ->%Hph & Hk). simpl in Hk. set_solver.
  - intros t1 t2 c1 c2 p1 p2 _ _ _ ->%Hph ->%Hph. simpl. set_solver.
Qed.
(** One thread moves. *)
Lemma inv_update b ts w pr b' w' pr' t c p p' :
  inv (mkState b ts w pr) -> calls !! t = Some c -> ts !! t = Some p ->
  phase_ok c w' pr' p' ->
  (forall t' c' q, t' <> t -> calls !! t' = Some c' -> ts !! t' = Some q -> phase_ok c' w pr q -> phase_ok c' w' pr' q) ->
  (forall k o, o ∈ owners_of w' k -> k ∉ owner_locks) -> (forall k, k ∈ pr' -> k ∉ owner_locks) ->
  (forall k, k ∈ b' <-> k ∈ held_keys c p' \/ (k ∈ b /\ k ∉ held_keys c p)) ->
  (forall k, k ∈ held_keys c p' -> k ∈ held_keys c p \/ k ∉ b) ->
  inv (mkState b' (<[t := p']> ts) w' pr').
Proof.
  intros [Ht Hph Hw Hpr Hb Hd] Hc Hp Hok Hothers Hw' Hpr' Hb' Hnew. simpl in *.
  assert (Hsplit : forall t' q, <[t := p']> ts !! t' = Some q -> (t' = t /\ q = p') \/ (t' <> t /\ ts !! t' = Some q)).
  { intros t' q. destruct (decide (t' = t)) as [->|]; [rewrite lookup_insert_eq|rewrite lookup_insert_ne by done]; naive_solver. }
  assert (Hfresh : forall t' c' q, t' <> t -> calls !! t' = Some c' -> ts !! t' = Some q ->
    held_keys c p' ## held_keys c' q).
  { intros t' c' q Hne Hc' Hq k Hk Hk'. destruct (Hnew k Hk) as [Hk1|Hk1].
    - by apply (Hd t t' c c' p q ltac:(done) Hc Hc' Hp Hq k).
    - apply Hk1, Hb. by exists t', c', q. }
  split; simpl.
  - intros t'. destruct (decide (t' = t)) as [->|]; [rewrite lookup_insert_eq|by rewrite lookup_insert_ne].
    split; [by eexists|by intros _; eexists].
  - intros t' c' q Hc' [[-> ->]|[Hne Hq]]%Hsplit; [by simplify_eq|]. apply (Hothers t'); auto. by apply (Hph t').
  - done.
  - done.
  - intros k. rewrite Hb'. split.
    + intros [Hk|[Hk Hn]]; [exists t, c, p'; by rewrite lookup_insert_eq|].
      apply Hb in Hk as (t' & c' & q & Hc' & Hq & Hk). exists t', c', q.
      rewrite lookup_insert_ne; [done|]. intros ->. simplify_eq. done.
    + intros (t' & c' & q & Hc' & [[-> ->]|[Hne Hq]]%Hsplit & Hk); [simplify_eq; by left|]. right. split.
      * apply Hb. by exists t', c', q.
      * intros Hk'. by apply (Hd t t' c c' p q ltac:(done) Hc Hc' Hp Hq k).
  - intros t1 t2 c1 c2 p1 p2 Hne Hc1 Hc2 [[-> ->]|[Hn1 Hq1]]%Hsplit [[-> ->]|[Hn2 Hq2]]%Hsplit.
    + done.
    + simplify_eq. by apply (Hfresh t2).
    + simplify_eq. symmetry. by apply (Hfresh t1).
    + by apply (Hd t1 t2).
Qed.

Lemma list_to_set_snoc (l : list string) (k : string) : (list_to_set (l ++ [k]) : gset string) = list_to_set l ∪ {[k]}.
Proof. rewrite list_to_set_app_L. simpl. set_solver. Qed.
Lemma owner_lock_busy_phase st t c p : inv st -> calls !! t = Some c -> threads st !! t = Some p ->
  held_keys c p ⊆ busyRecords st.
Proof. intros Hi Hc Hp k Hk. apply (inv_busy _ Hi). by exists t, c, p. Qed.

Ltac busy_cases c := let k := fresh in intros k; destruct (decide (k = c_owner_lock c)); set_solver.
(** What a run leaves to the other calls. *)
Lemma run_others b ts w w' pr pr' t c held :
  inv (mkState b ts w pr) -> calls !! t = Some c -> ts !! t = Some (Locking held []) -> effect c held pr w w' ->
  (forall k, k ∈ pr' <-> k ∈ pr \/ newly_promoted ts w w' k) ->
  forall t' c' q, t' <> t -> calls !! t' = Some c' -> ts !! t' = Some q -> phase_ok c' w pr q -> phase_ok c' w' pr' q.
Proof.
  intros Hi Hc Ht Heff Hpr t' c' q Hne Hc' Hq Hok. destruct q as [| |primaries|held' todo|held'|]; simpl in *; try done.
  - destruct Hok as [Hno Hcov]. split; [done|]. intros k Hk Hp. apply Hcov; [intros Hk'; by apply Hk, Hpr; left|].
    destruct (decide (primary_of w k = Some (c_owner c'))) as [|Hn]; [done|]. destruct Hk. apply Hpr. right. by exists t', c', primaries.
  - destruct Hok as (? & ? & ? & Hcov). split_and!; try done. intros k [?|[Hk Ho]]; [auto|].
    assert (Hk' : k ∉ pr) by (intros Hk'; by apply Hk, Hpr; left).
    apply Hcov. right. split; [done|]. apply (Heff k Hk'); [|done]. intros Heq.
    pose proof (Hinj _ _ _ _ Hc' Hc Heq) as Hl.
    apply (inv_disjoint _ Hi t' t c' c _ _ Hne Hc' Hc Hq Ht (c_owner_lock c)); simpl; set_solver.
Qed.
Lemma step_inv st st' : inv st -> step st st' -> inv st'.
Proof.
  intros Hi Hst. destruct Hst as [t c b ts w pr Hc Ht Hk|t c b ts w pr Hc Ht|t c primaries b ts w pr Hc Ht|t held k todo b ts w pr Ht Hk
    |t c held b ts w w' pr pr' Hc Ht Heff Hpr'|t held k b ts w pr Ht|t c b ts w pr Hc Ht].
  - eapply inv_update; [exact Hi|exact Hc|exact Ht|done|done|exact (inv_world _ Hi)|exact (inv_promoted _ Hi)|..]; simpl; set_solver.
  - eapply inv_update; [exact Hi|exact Hc|exact Ht| |done|exact (inv_world _ Hi)|exact (inv_promoted _ Hi)|..]; simpl.
    + split; [|by intros k _ Hk; apply elem_of_primary_keys].
      intros k Hk%elem_of_primary_keys%primary_owns. by apply (inv_world _ Hi) in Hk.
    + pose proof (owner_lock_busy_phase _ _ _ _ Hi Hc Ht) as Hb. simpl in Hb. busy_cases c.
    + set_solver.
  - pose proof (inv_phase _ Hi t c _ Hc Ht) as [Hno Hcov].
    eapply inv_update; [exact Hi|exact Hc|exact Ht| |done|exact (inv_world _ Hi)|exact (inv_promoted _ Hi)|..]; simpl.
    + split_and!.
      * apply sort_strings_sorted.
      * apply NoDup_sets_List.
      * intros k [Hk|[Hk|Hk]]%elem_of_involved; [by eapply Hwanted|by apply Hno|].
        apply (inv_world _ Hi k (c_owner c)). apply elem_of_owners. by right.
      * intros k [Hk|[Hk Ho]]; apply elem_of_involved; [by left|right]. apply elem_of_owners in Ho as [Ho|Ho]; [left; by apply Hcov|by right].
    + pose proof (owner_lock_busy_phase _ _ _ _ Hi Hc Ht) as Hb. simpl in Hb. busy_cases c.
    + set_solver.
  - destruct (proj1 (inv_threads _ Hi t) (ex_intro _ _ Ht)) as [c Hc]. simpl in *.
    pose proof (inv_phase _ Hi t c _ Hc Ht) as Hok. simpl in Hok.
    pose proof (owner_lock_busy_phase _ _ _ _ Hi Hc Ht) as Hb. simpl in Hb.
    eapply inv_update; [exact Hi|exact Hc|exact Ht| |done|exact (inv_world _ Hi)|exact (inv_promoted _ Hi)|..]; simpl.
    + by rewrite <- (assoc_L (++)).
    + intros k'. rewrite list_to_set_snoc. destruct (decide (k' = k)) as [->|]; [set_solver|].
      destruct (decide (k' ∈ ({[c_owner_lock c]} ∪ list_to_set held : gset string))); set_solver.
    + rewrite list_to_set_snoc. set_solver.
  - pose proof (inv_phase _ Hi t c _ Hc Ht) as Hok. simpl in Hok. rewrite app_nil_r in Hok.
    destruct Hok as (_ & Hnd & Hno & _).
    pose proof (owner_lock_busy_phase _ _ _ _ Hi Hc Ht) as Hb. simpl in Hb.
    assert (Hw' : forall k o, o ∈ owners_of w' k -> k ∉ owner_locks).
    { intros k o Ho. destruct (decide (k ∈ pr)) as [Hk|Hk]; [by apply (inv_promoted _ Hi)|].
      destruct (decide (k ∈ held)) as [Hh|Hh]; [by apply Hno|].
      unfold owners_of in Ho. rewrite (proj1 (Heff k Hk) Hh) in Ho. exact (inv_world _ Hi k o Ho). }
    eapply inv_update; [exact Hi|exact Hc|exact Ht|done|by eapply run_others|done| |..]; simpl.
    + intros k [Hk|(t' & c' & ks & _ & _ & Hp & _)]%Hpr'; [by apply (inv_promoted _ Hi)|]. by eapply Hw', primary_owns.
    + intros k. destruct (decide (k ∈ ({[c_owner_lock c]} ∪ list_to_set held : gset string))); set_solver.
    + set_solver.
  - destruct (proj1 (inv_threads _ Hi t) (ex_intro _ _ Ht)) as [c Hc]. simpl in *.
    pose proof (inv_phase _ Hi t c _ Hc Ht) as [Hnd Hno].
    pose proof (owner_lock_busy_phase _ _ _ _ Hi Hc Ht) as Hb. simpl in Hb. rewrite list_to_set_snoc in Hb.
    apply NoDup_app in Hnd as (Hnd & Hk & _).
    assert (Hkh : k ∉ (list_to_set held : gset string)).
    { rewrite elem_of_list_to_set. intros Hin. apply (Hk k Hin). left. }
    assert (Hko : k <> c_owner_lock c).
    { intros ->. apply (Hno (c_owner_lock c)); [apply elem_of_app; right; left|]. by eapply Howner. }
    eapply inv_update; [exact Hi|exact Hc|exact Ht| |done|exact (inv_world _ Hi)|exact (inv_promoted _ Hi)|..]; simpl.
    + split; [done|]. intros k' Hk'. apply Hno. apply elem_of_app. by left.
    + intros k'. rewrite list_to_set_snoc. destruct (decide (k' = k)) as [->|]; [set_solver|].
      destruct (decide (k' ∈ ({[c_owner_lock c]} ∪ list_to_set held : gset string))); set_solver.
    + intros k'. rewrite list_to_set_snoc. set_solver.
  - eapply inv_update; [exact Hi|exact Hc|exact Ht|done|done|exact (inv_world _ Hi)|exact (inv_promoted _ Hi)|..]; simpl; set_solver.
Qed.
Lemma reachable_inv w st :
  (forall k o, o ∈ owners_of w k -> k ∉ owner_locks) -> reachable w st -> inv st.
Proof.
  intros Hw Hr. assert (Hi : inv (initial w)) by (by apply initial_inv).
  unfold reachable in Hr. clear Hw. induction Hr as [|? ? ? Hs Hr IH]; [done|]. apply IH. by eapply step_inv.
Qed.

(** ** Progress *)
Lemma max_string (l : list string) : l <> [] -> exists m, m ∈ l /\ forall x, x ∈ l -> str_le x m.
Proof.
  induction l as [|a l IH]; [done|]. intros _. destruct (decide (l = [])) as [->|Hne].
  { exists a. split; [left|]. intros x ->%list_elem_of_singleton. by destruct (total str_le a a). }
  destruct (IH Hne) as (m & Hm & Hmax). destruct (total str_le a m) as [Ham|Hma].
  - exists m. split; [by right|]. intros x [->|Hx]%elem_of_cons; auto.
  - exists a. split; [left|]. intros x [->|Hx]%elem_of_cons; [by destruct (total str_le a a)|].
    etrans; [by apply Hmax|done].
Qed.
Lemma Sorted_app_le (l1 l2 : list string) x y : Sorted str_le (l1 ++ l2) -> x ∈ l1 -> y ∈ l2 -> str_le x y.
Proof.
  intros Hs%Sorted_StronglySorted; [|apply _]. induction l1 as [|a l1 IH]; simpl in *; [by intros ?%elem_of_nil|].
  inversion Hs as [|? ? Hs' Hall]; subst. intros [->|Hx]%elem_of_cons Hy; [|by apply IH].
  apply (proj1 (Forall_forall _ _) Hall). apply elem_of_app. by right.
Qed.
(** The lock key of a record a thread waits for. *)
Definition waits_for (p : phase) : option string :=
  match p with Locking _ (k :: _) => Some k | _ => None end.
(** A thread that holds locks and does not wait for a record can move. *)
Lemma thread_progress st t c p :
  calls !! t = Some c -> threads st !! t = Some p -> waits_for p = None -> p <> WaitOwner -> p <> Done ->
  exists st', step st st'.
Proof.
  intros Hc Hp Hw Hn1 Hn2. destruct st as [b ts w pr]; simpl in *. destruct p as [| |ks|held [|k todo]|held|]; try done.
  - eexists. by eapply step_read_primary.
  - eexists. by eapply step_read_contributing.
  - eexists. eapply (step_run t c held b ts w w pr pr); [done..|]. intros k. split; [by left|].
    intros [|(t' & c' & ks & _ & _ & H1 & H2)]; done.
  - induction held as [|k held _] using rev_ind; eexists; [by eapply step_unlock_owner|by eapply step_unlock].
Qed.
Lemma record_holder_progress st t c p k :
  inv st -> calls !! t = Some c -> threads st !! t = Some p ->
  k ∈ held_keys c p -> k ∉ owner_locks ->
  (forall t' p' k', threads st !! t' = Some p' -> waits_for p' = Some k' -> str_le k' k) ->
  exists st', step st st'.
Proof.
  intros Hi Hc Hp Hk Hno Hmax. assert (Hol : k <> c_owner_lock c) by (intros ->; by eapply Hno, Howner).
  destruct (waits_for p) as [k'|] eqn:Hw.
  - exfalso. specialize (Hmax t p k' Hp Hw). destruct p as [| |ks|held [|k1 todo]|held|]; simplify_eq/=.
    pose proof (inv_phase _ Hi t c _ Hc Hp) as (Hs & Hnd & _).
    assert (Hkh : k ∈ held) by set_solver.
    assert (str_le k k') by (eapply Sorted_app_le; [exact Hs|done|left]).
    assert (k' = k) as -> by (by apply (anti_symm str_le)).
    apply NoDup_app in Hnd as (_ & Hd & _). apply (Hd k Hkh). left.
  - apply (thread_progress st t c p); try done; intros ->; set_solver.
Qed.
Lemma inv_progress st : inv st -> all_done st \/ exists st', step st st'.
Proof.
  intros Hi. set (waited := omap (fun tp => waits_for tp.2) (map_to_list (threads st))).
  assert (Hwaited : forall k, k ∈ waited <-> exists t p, threads st !! t = Some p /\ waits_for p = Some k).
  { intros k. unfold waited. rewrite list_elem_of_omap. split.
    - intros ([t p] & Htp%elem_of_map_to_list & Hk). by exists t, p.
    - intros (t & p & Htp & Hk). exists (t, p). split; [by apply elem_of_map_to_list|done]. }
  destruct (decide (waited = [])) as [Hnil|Hne].
  - destruct (decide (Exists (fun tp => tp.2 <> Done) (map_to_list (threads st)))) as [Hex|Hno].
    + right. apply Exists_exists in Hex as ([t p] & Htp%elem_of_map_to_list & Hnd). simpl in Hnd.
      destruct (proj1 (inv_threads _ Hi t) (ex_intro _ _ Htp)) as [c Hc].
      assert (Hnw : forall t p, threads st !! t = Some p -> waits_for p = None).
      { intros t' p' Ht'. destruct (waits_for p') as [k|] eqn:Hk; [|done].
        assert (k ∈ waited) as Hin by (apply Hwaited; by exists t', p'). rewrite Hnil in Hin. by apply elem_of_nil in Hin. }
      destruct (decide (p = WaitOwner)) as [->|Hnw']; [|apply (thread_progress st t c p); eauto].
      destruct (decide (c_owner_lock c ∈ busyRecords st)) as [Hb|Hb].
      * apply (inv_busy _ Hi) in Hb as (t' & c' & p' & Hc' & Hp' & Hk').
        apply (thread_progress st t' c' p'); eauto; intros ->; set_solver.
      * destruct st as [b ts w pr]. eexists. by eapply step_lock_owner.
    + left. intros t p Htp. destruct (decide (p = Done)) as [|Hp]; [done|]. exfalso. apply Hno.
      apply Exists_exists. exists (t, p). split; [by apply elem_of_map_to_list|done].
  - right. destruct (max_string _ Hne) as (k & (t & p & Htp & Hk)%Hwaited & Hmax).
    destruct (proj1 (inv_threads _ Hi t) (ex_intro _ _ Htp)) as [c Hc].
    destruct p as [| |ks|held [|k1 todo]|held|]; simplify_eq/=.
    destruct (decide (k ∈ busyRecords st)) as [Hb|Hb].
    + apply (inv_busy _ Hi) in Hb as (t' & c' & p' & Hc' & Hp' & Hk').
      apply (record_holder_progress st t' c' p' k); try done.
      * pose proof (inv_phase _ Hi t c _ Hc Htp) as (_ & _ & Hno & _). apply Hno. apply elem_of_app; right; left.
      * intros t1 p1 k1 Ht1 Hw1. apply Hmax, Hwaited. by exists t1, p1.
    + destruct st as [b ts w pr]. eexists. by eapply step_lock.
Qed.

(** ** Termination *)
Definition total_of (f : phase -> nat) (ts : gmap nat phase) : nat := sum_list_with (fun tp => f tp.2) (map_to_list ts).
Lemma total_of_insert f ts t p p' : ts !! t = Some p -> (total_of f (<[t := p']> ts) + f p = total_of f ts + f p')%nat.
Proof.
  intros Ht. unfold total_of. rewrite <- (insert_delete_id ts t p Ht) at 2. rewrite <- insert_delete_eq.
  rewrite !map_to_list_insert by apply lookup_delete_eq. simpl. lia.
Qed.
(** Before its keys are known a thread counts once in the first measure;
    afterwards the second one counts its steps. *)
Definition early (p : phase) : nat := match p with WaitOwner => 3 | Compute => 2 | ReadPrimary _ => 1 | _ => 0 end.
Definition steps_left (p : phase) : nat :=
  match p with
  | Locking held todo => 2 * length todo + length held + 2
  | Unlocking held => length held + 1
  | _ => 0
  end.
Lemma step_decreases st st' : step st st' ->
  (total_of early (threads st') < total_of early (threads st))%nat \/
  (total_of early (threads st') = total_of early (threads st) /\ total_of steps_left (threads st') < total_of steps_left (threads st))%nat.
Proof.
  intros []; cbn [threads];
    match goal with H : ?ts !! ?t = Some ?p |- context [<[?t := ?p']> ?ts] =>
      pose proof (total_of_insert early ts t p p' H) as Ha; pose proof (total_of_insert steps_left ts t p p' H) as Hb end;
    cbn [early steps_left length] in Ha, Hb; rewrite ?length_app in Hb; cbn [length] in Hb; lia.
Qed.
Lemma step_terminates st : Acc (fun y x => step x y) st.
Proof.
  remember (total_of early (threads st)) as n eqn:Hn. revert st Hn.
  induction n as [n IHn] using lt_wf_ind. intros st Hn.
  remember (total_of steps_left (threads st)) as m eqn:Hm. revert st Hn Hm.
  induction m as [m IHm] using lt_wf_ind. intros st -> ->. constructor. intros st' Hs.
  destruct (step_decreases _ _ Hs) as [Hlt|[Heq Hlt]]; [by eapply IHn|by eapply IHm].
Qed.
End Locks.

(** ** Claims *)
Section Claims.
Context (calls : gmap nat call) (owner_locks : gset string) (w : world).
(** The locks of the calls and the records they start from. *)
Record good_calls : Prop := {
  gc_owner : forall t c, calls !! t = Some c -> c_owner_lock c ∈ owner_locks;
  gc_wanted : forall t c k, calls !! t = Some c -> k ∈ c_wanted c -> k ∉ owner_locks;
  gc_inj : forall t1 t2 c1 c2, calls !! t1 = Some c1 -> calls !! t2 = Some c2 ->
    c_owner c1 = c_owner c2 -> c_owner_lock c1 = c_owner_lock c2;
  gc_world : forall k o, o ∈ owners_of w k -> k ∉ owner_locks }.

(** C13. Mutual exclusion and coverage: in every reachable state of any number
    of concurrent calls, no lock is held by two of them; and a call that is
    about to run holds the lock of every record in its batch and of every
    record its owner owns at that moment, although it computed the keys
    earlier, from two reads of the store with other calls running in between.
    The exception are records on which an owner was promoted from contributor
    to primary just between the two reads of one of its calls, which that call
    misses ([promotion_race]). Records are named by their lock keys: different
    keys are assumed to belong to different records. *)
Theorem dns_locks_exclusive st :
  good_calls -> reachable calls w st ->
  (forall t1 t2 c1 c2 p1 p2, t1 <> t2 -> calls !! t1 = Some c1 -> calls !! t2 = Some c2 ->
     threads st !! t1 = Some p1 -> threads st !! t2 = Some p2 -> held_keys c1 p1 ## held_keys c2 p2) /\
  (forall t c held k, calls !! t = Some c -> threads st !! t = Some (Locking held []) ->
     k ∈ c_wanted c \/ (k ∉ promoted st /\ c_owner c ∈ owners_of (records st) k) -> k ∈ held).
Proof.
  intros [H1 H2 H3 H4] Hr. assert (Hi : inv calls owner_locks st) by (by eapply reachable_inv). split.
  - apply (inv_disjoint _ _ _ Hi).
  - intros t c held k Hc Ht Hk. pose proof (inv_phase _ _ _ Hi t c _ Hc Ht) as (_ & _ & _ & Hcov).
    rewrite app_nil_r in Hcov. by apply Hcov.
Qed.

(** C14. No deadlock and no livelock: from every reachable state some call can
    move unless all of them are done, no run of the calls is infinite, and when
    all are done every lock is free. *)
Theorem dns_locks_live st :
  good_calls -> reachable calls w st ->
  (all_done st \/ exists st', step calls st st') /\
  Acc (fun y x => step calls x y) st /\
  (all_done st -> busyRecords st = ∅).
Proof.
  intros [H1 H2 H3 H4] Hr. assert (Hi : inv calls owner_locks st) by (by eapply reachable_inv). split_and!.
  - by eapply inv_progress.
  - apply step_terminates.
  - intros Hd. apply set_eq. intros k. split; [|set_solver].
    intros (t & c & p & _ & Ht & Hk)%(inv_busy _ _ _ Hi). rewrite (Hd t p Ht) in Hk. done.
Qed.
End Claims.

(** ** Examples *)
Definition demo_calls : gmap nat call :=
  {[ 0%nat := mkCall "owner/HTTPRoute/ns/a" "httproute/ns/a" {["/z/www/A"]};
     1%nat := mkCall "owner/HTTPRoute/ns/b" "httproute/ns/b" ∅ ]}.
Definition demo_owner_locks : gset string := {["owner/HTTPRoute/ns/a"; "owner/HTTPRoute/ns/b"]}.
Definition demo_world : world := {[ "/z/www/A" := mkOwners "httproute/ns/a" {["httproute/ns/b"]} ]}.
Lemma demo_calls_lookup t c : demo_calls !! t = Some c ->
  (t = 0%nat /\ c = mkCall "owner/HTTPRoute/ns/a" "httproute/ns/a" {["/z/www/A"]}) \/
  (t = 1%nat /\ c = mkCall "owner/HTTPRoute/ns/b" "httproute/ns/b" ∅).
Proof.
  unfold demo_calls. intros [[<- <-]|[? H]]%lookup_insert_Some; [by left|right].
  by apply lookup_singleton_Some in H as [<- <-].
Qed.
Lemma demo_good : good_calls demo_calls demo_owner_locks demo_world.
Proof.
  split.
  - intros t c [[_ ->]|[_ ->]]%demo_calls_lookup; by vm_compute.
  - intros t c k [[_ ->]|[_ ->]]%demo_calls_lookup; simpl; [|set_solver].
    intros ->%elem_of_singleton. by vm_compute.
  - intros t1 t2 c1 c2 [[_ ->]|[_ ->]]%demo_calls_lookup [[_ ->]|[_ ->]]%demo_calls_lookup; simpl; try done.
  - intros k o. unfold owners_of, demo_world. destruct (decide (k = "/z/www/A")) as [->|Hk].
    + intros _. by vm_compute.
    + rewrite lookup_singleton_ne by done. simpl. set_solver.
Qed.
(** The first call takes its locks. *)
Definition demo_call : call := mkCall "owner/HTTPRoute/ns/a" "httproute/ns/a" {["/z/www/A"]}.
Lemma demo_involved : involved demo_call (primary_keys (c_owner demo_call) demo_world) demo_world = ["/z/www/A"].
Proof. by vm_compute. Qed.
Lemma demo_run : exists st held,
  reachable demo_calls demo_world st /\ threads st !! 0%nat = Some (Locking held []).
Proof.
  eexists _, (["/z/www/A"]). split.
  - eapply rtc_l; [apply (step_lock_owner demo_calls 0 demo_call); [done|done|set_solver]|].
    eapply rtc_l; [apply (step_read_primary demo_calls 0 demo_call); [done|apply lookup_insert_eq]|].
    eapply rtc_l; [eapply (step_read_contributing demo_calls 0 demo_call); [done|apply lookup_insert_eq]|].
    rewrite demo_involved. eapply rtc_l; [apply step_lock; [apply lookup_insert_eq|]|apply rtc_refl].
    rewrite elem_of_union, elem_of_singleton. intros [H|H]; [discriminate|]. by apply elem_of_empty in H.
  - apply lookup_insert_eq.
Qed.
Lemma dns_locks_exclusive_witness :
  exists st held, reachable demo_calls demo_world st /\ threads st !! 0%nat = Some (Locking held []) /\ "/z/www/A" ∈ held.
Proof.
  destruct demo_run as (st & held & Hr & Ht). exists st, held. split; [exact Hr|]. split; [exact Ht|].
  apply (proj2 (dns_locks_exclusive demo_calls demo_owner_locks demo_world st demo_good Hr) 0%nat
    demo_call held "/z/www/A" eq_refl Ht).
  left. cbn [c_wanted demo_call]. rewrite elem_of_singleton. reflexivity.
Defined.
Lemma dns_locks_live_witness :
  all_done (initial demo_calls demo_world) \/ exists st', step demo_calls (initial demo_calls demo_world) st'.
Proof.
  exact (proj1 (dns_locks_live demo_calls demo_owner_locks demo_world (initial demo_calls demo_world)
    demo_good (rtc_refl _ _))).
Defined.
(** The race between the two reads. The record belongs to [a], and [b]
    contributes. A call that deletes [b] reads the records it is primary of,
    none; a call that deletes [a] runs and promotes [b]; the first call then
    reads the records [b] contributes to, none any more. It is about to run
    without the lock of the record, and its owner owns it. *)
Definition race_calls : gmap nat call :=
  {[ 0%nat := mkCall "owner/HTTPRoute/ns/a" "httproute/ns/a" ∅; 1%nat := mkCall "owner/HTTPRoute/ns/b" "httproute/ns/b" ∅ ]}.
Definition promoted_world : world := {[ "/z/www/A" := mkOwners "httproute/ns/b" ∅ ]}.
Lemma race_effect : effect (mkCall "owner/HTTPRoute/ns/a" "httproute/ns/a" ∅) ["/z/www/A"] ∅ demo_world promoted_world.
Proof.
  unfold effect, owners_of, primary_of, demo_world, promoted_world. intros key _.
  destruct (decide (key = "/z/www/A")) as [->|Hne]; [|by rewrite !lookup_singleton_ne].
  rewrite !lookup_singleton_eq. cbn. split; [set_solver|]. split; [set_solver|]. by intros o [= <-].
Qed.
Lemma promotion_race : exists st,
  reachable race_calls demo_world st /\ threads st !! 1%nat = Some (Locking [] []) /\
  "httproute/ns/b" ∈ owners_of (records st) "/z/www/A" /\ "/z/www/A" ∈ promoted st.
Proof.
  set (a := mkCall "owner/HTTPRoute/ns/a" "httproute/ns/a" ∅). set (b := mkCall "owner/HTTPRoute/ns/b" "httproute/ns/b" ∅).
  eexists. split.
  - eapply rtc_l; [apply (step_lock_owner race_calls 1 b); [done|done|set_solver]|].
    eapply rtc_l; [apply (step_read_primary race_calls 1 b); [done|by vm_compute]|].
    eapply rtc_l; [apply (step_lock_owner race_calls 0 a); [done|by vm_compute|apply (bool_decide_unpack _); by vm_compute]|].
    eapply rtc_l; [apply (step_read_primary race_calls 0 a); [done|by vm_compute]|].
    eapply rtc_l; [apply (step_read_contributing race_calls 0 a (primary_keys (c_owner a) demo_world)); [done|by vm_compute]|].
    replace (involved a (primary_keys (c_owner a) demo_world) demo_world) with ["/z/www/A"] by (by vm_compute).
    eapply rtc_l; [apply (step_lock race_calls 0 [] "/z/www/A" []); [by vm_compute|apply (bool_decide_unpack _); by vm_compute]|].
    eapply rtc_l; [eapply (step_run race_calls 0 a ["/z/www/A"] _ _ _ promoted_world _ {["/z/www/A"]});
      [done|by vm_compute|exact race_effect|]|].
    { intros k. split.
      - intros ->%elem_of_singleton. right. exists 1%nat, b, (primary_keys (c_owner b) demo_world).
        split; [done|]. split; [by vm_compute|]. by vm_compute.
      - intros [?%elem_of_empty|(t & c & ks & _ & _ & Hp & _)]; [done|]. unfold primary_of, promoted_world in Hp.
        destruct (decide (k = "/z/www/A")) as [->|Hk]; [set_solver|]. by rewrite lookup_singleton_ne in Hp. }
    eapply rtc_l; [apply (step_read_contributing race_calls 1 b (primary_keys (c_owner b) demo_world)); [done|by vm_compute]|].
    apply rtc_refl.
  - split; [by vm_compute|]. split; [|cbn [promoted]; set_solver]. cbn [records]. unfold owners_of, promoted_world. set_solver.
Qed.
