(* ===== verification/GroupExpr.v ===== *)
(** * pkg/nsx/services/securitypolicy/builder.go: selectors as NSX group expressions

    The label selectors of SecurityPolicy targets and peers become the
    membership criteria of NSX groups. NSX has no 'In' operator, so a
    requirement with several values multiplies the criteria.

    A group's expression is a list of frames joined by OR; a frame is a list of
    conditions joined by AND. The code fills the frame it created last, through
    a pointer: here that is always the last frame of the list. *)
From S2P Require Import Prelude GoStrings Errors NsxUtil Names.

(** ** Selectors *)
Record Requirement := mkReq { req_Key : string; req_Operator : string; req_Values : list string }.
#[global] Instance Requirement_eq_dec : EqDecision Requirement.
Proof. solve_decision. Defined.
Record LabelSelector := mkSelector { MatchLabels : gmap string string; MatchExpressions : list Requirement }.
Definition OpIn := "In".
Definition OpNotIn := "NotIn".
Definition OpExists := "Exists".
Definition OpDoesNotExist := "DoesNotExist".
(** [Size() == 0]: the encoding of a selector without labels and requirements
    is empty. *)
Definition selector_empty (s : LabelSelector) : bool :=
  bool_decide (MatchLabels s = ∅) && bool_decide (MatchExpressions s = []).

Record SecurityPolicyTarget := mkTarget { t_VMSelector : option LabelSelector; t_PodSelector : option LabelSelector }.
Record SecurityPolicyPeer := mkPeer {
  p_VMSelector : option LabelSelector; p_PodSelector : option LabelSelector;
  p_NamespaceSelector : option LabelSelector; p_IPBlocks : list string }.

(** ** Expressions *)
Record condition := mkCond {
  resource_type : string; member_type : string; c_value : string; c_key : string;
  operator : option string; scope_operator : string }.
#[global] Instance condition_eq_dec : EqDecision condition.
Proof. solve_decision. Defined.
Inductive item := ICond (c : condition) | IConj (op : string).
(** A criterion is a list of conditions, or a condition on its own. *)
Inductive gexpr := Nested (l : list item) | GCond (c : condition) | GConj (op : string) | IPAddressExpression (addrs : list string).

Definition buildExpression (resource_type member_type value key operator scope_op : string) : condition :=
  mkCond resource_type member_type value key
    (if bool_decide (scope_op = "NOTEQUALS") then None else Some operator) scope_op.
Definition buildConjOperator (op : string) : string := op.
Definition buildGroupExpression (g : list gexpr) : list gexpr := g ++ [Nested []].
(** [expressions.Add] on the frame created last, and its items. *)
Fixpoint add_item (i : item) (g : list gexpr) : list gexpr :=
  match g with
  | [] => []
  | e :: g' =>
      match g', e with
      | [], Nested l => [Nested (l ++ [i])]
      | _, _ => e :: add_item i g'
      end
  end.
Definition last_items (g : list gexpr) : list item :=
  match last g with Some (Nested l) => l | _ => [] end.
Definition appendOperatorIfNeeded (op : string) (g : list gexpr) : list gexpr :=
  match g with [] => g | _ => g ++ [GConj (buildConjOperator op)] end.
Definition addOperatorIfNeeded (op : string) (g : list gexpr) : list gexpr :=
  match last_items g with [] => g | _ => add_item (IConj (buildConjOperator op)) g end.
Definition add_cond (c : condition) (g : list gexpr) : list gexpr := add_item (ICond c) g.

Definition MaxCriteriaExpressions : Z := 5.
Definition MaxMixedCriteriaExpressions : Z := 15.
Definition MaxCriteria : Z := 5.
Definition MaxTotalCriteriaExpressions : Z := 35.
Definition MaxMatchExpressionInOp : Z := 1.
Definition MaxMatchExpressionIn : Z := 1.
Definition MaxMatchExpressionInValues : Z := 5.
Definition ClusterTagCount : Z := 1.
Definition NameSpaceTagCount : Z := 1.

Definition tag_cond (memberType scope tag : string) : condition :=
  buildExpression "Condition" memberType (scope +:+ "|" +:+ tag) "Tag" "EQUALS" "EQUALS".

(** [util.NormalizeLabels] never panics. *)
Definition normalized_labels (matchLabels : gmap string string) : gmap string string :=
  default ∅ (NormalizeLabels (map_to_list matchLabels)).
Definition updateExpressionsMatchLabels (matchLabels : gmap string string) (memberType : string) (g : list gexpr)
  : list gexpr :=
  let normalizedLabels := normalized_labels matchLabels in
  foldl (fun g k => add_cond (tag_cond memberType k (default "" (normalizedLabels !! k))) (addOperatorIfNeeded "AND" g))
    g (sets_List (dom normalizedLabels)).

(** One requirement other than 'In'; [None] for an operator that is invalid. *)
Definition requirement_cond (memberType : string) (expr : Requirement) : option condition :=
  if bool_decide (req_Operator expr = OpNotIn) then
    Some (buildExpression "Condition" memberType (req_Key expr +:+ "|" +:+ join "," (req_Values expr)) "Tag" "NOTIN" "EQUALS")
  else if bool_decide (req_Operator expr = OpExists) then
    Some (buildExpression "Condition" memberType (req_Key expr +:+ "|") "Tag" "EQUALS" "EQUALS")
  else if bool_decide (req_Operator expr = OpDoesNotExist) then
    Some (buildExpression "Condition" memberType (req_Key expr +:+ "|") "Tag" "" "NOTEQUALS")
  else None.
Definition expr_step (memberType : string) (st : list gexpr * string) (expr : Requirement) : list gexpr * string :=
  let '(g, errorMsg) := st in
  if bool_decide (req_Operator expr = OpIn) then (g, errorMsg)
  else
    match requirement_cond memberType expr with
    | Some c => (add_cond c (addOperatorIfNeeded "AND" g), errorMsg)
    | None => (g, "invalid operator " +:+ req_Operator expr +:+ " in matchExpressions")
    end.
Definition buildExpressionsMatchExpression (matchExpressions : list Requirement) (memberType : string) (g : list gexpr)
  : result goerr (list gexpr) :=
  let '(g, errorMsg) := foldl (expr_step memberType) (g, "") matchExpressions in
  if bool_decide (errorMsg <> "") then Err (EValidation errorMsg) else Ok g.

(** ** Merging requirements *)
Definition merge_step (m : gmap string (gmap string (list string))) (d : Requirement)
  : gmap string (gmap string (list string)) :=
  let sub := default ∅ (m !! req_Operator d) in
  let vs :=
    match sub !! req_Key d with
    | None => req_Values d
    | Some old =>
        if bool_decide (req_Operator d = OpIn) then IntersectStr old (req_Values d)
        else RemoveDuplicateStr (old ++ req_Values d)
    end in
  <[req_Operator d := <[req_Key d := vs]> sub]> m.
Definition merged_of (m : gmap string (gmap string (list string))) : list Requirement :=
  mjoin (map (fun op =>
    let subMap := default ∅ (m !! op) in
    map (fun subKey =>
      let subValue := default [] (subMap !! subKey) in
      mkReq subKey op (if bool_decide (op = OpNotIn) then sort_strings subValue else subValue))
      (sets_List (dom subMap)))
    (sets_List (dom m))).
Definition mergeSelectorMatchExpression (matchExpressions : list Requirement) : list Requirement :=
  merged_of (foldl merge_step ∅ matchExpressions).

(** ** Limits *)
Definition in_requirements (l : list Requirement) : list Requirement := filter (fun r => req_Operator r = OpIn) l.
Definition in_value_count (l : list Requirement) : Z :=
  foldr (fun r n => Z.of_nat (length (req_Values r)) + n) 0 (in_requirements l).
(** The message of the last requirement that repeats a label. *)
Definition duplicate_step (matchLabels : gmap string string) (errorMsg : string) (expr : Requirement) : string :=
  match matchLabels !! req_Key expr with
  | Some v =>
      if decide (v ∈ req_Values expr)
      then "duplicate expression - " +:+ req_Key expr +:+ ":" +:+ v +:+
           " specified in both matchLabels and matchExpressions operator 'In'"
      else errorMsg
  | None => errorMsg
  end.
Definition validateSelectorOpIn (matchExpressions : list Requirement) (matchLabels : gmap string string) : result goerr Z :=
  let mexprInOpCount := Z.of_nat (length (in_requirements matchExpressions)) in
  let mexprInValueCount := in_value_count matchExpressions in
  let errorMsg := foldl (duplicate_step matchLabels) "" (in_requirements matchExpressions) in
  let errorMsg :=
    if bool_decide (MaxMatchExpressionInOp < mexprInOpCount) then
      "count of operator 'In' expressions " +:+ itoa mexprInOpCount +:+
      " with the same key exceed maximum limit of " +:+ itoa MaxMatchExpressionIn
    else if bool_decide (MaxMatchExpressionInValues < mexprInValueCount) then
      "count of values list for operator 'In' expressions " +:+ itoa mexprInValueCount +:+
      "  with the same key exceed maximum limit of " +:+ itoa MaxMatchExpressionInValues
    else errorMsg in
  if bool_decide (errorMsg <> "") then Err (EValidation errorMsg) else Ok mexprInValueCount.
Definition validateNsSelectorOpNotIn (nsMatchExpressions : list Requirement) : option goerr :=
  if existsb (fun expr => bool_decide (req_Operator expr = OpNotIn)) nsMatchExpressions
  then Some (EValidation "operator 'NotIn' for NamespaceSelector is not supported in NSX-T since its member type is Segment")
  else None.
(** The number of criteria and of expressions in them. *)
Definition validateSelectorExpressions (matchLabelsCount matchExpressionsCount opInValueCount : Z) (mixedCriteria : bool)
  : result goerr (Z * Z) :=
  let totalExprCount := if bool_decide (matchExpressionsCount <> 0) then matchLabelsCount + matchExpressionsCount
                        else matchLabelsCount in
  if negb mixedCriteria && bool_decide (MaxCriteriaExpressions < totalExprCount) then
    Err (EValidation ("total count of labelSelectors expressions " +:+ itoa totalExprCount +:+
      " exceed NSX limit of " +:+ itoa MaxCriteriaExpressions +:+ " in one criteria based on the same member type"))
  else if mixedCriteria && bool_decide (MaxMixedCriteriaExpressions < totalExprCount) then
    Err (EValidation ("total count of labelSelectors expressions " +:+ itoa totalExprCount +:+
      " exceed NSX limit of " +:+ itoa MaxMixedCriteriaExpressions +:+ " in one criteria inside a mixed member type"))
  else if bool_decide (matchLabelsCount <> 0) || bool_decide (matchExpressionsCount <> 0) then
    if bool_decide (opInValueCount <> 0) then Ok (opInValueCount, totalExprCount * opInValueCount)
    else Ok (1, totalExprCount)
  else Ok (0, totalExprCount).

(** ** Requirements of operator 'In' *)
Definition matchExpressionOpInExist (matchExpressions : list Requirement) : option Requirement :=
  head (in_requirements matchExpressions).
(** A new frame that starts like the first one. *)
Definition next_frame (clusterExpression tagValueExpression : option condition) (g : list gexpr) : list gexpr :=
  let g := buildGroupExpression (appendOperatorIfNeeded "OR" g) in
  let g := match clusterExpression with Some c => add_cond c g | None => g end in
  match tagValueExpression with
  | Some t => add_cond t (match clusterExpression with Some _ => addOperatorIfNeeded "AND" g | None => g end)
  | None => g
  end.
(** The loop over the values; [first] for [i == 0]. *)
Fixpoint in_values_loop (matchExpressions : list Requirement) (matchLabels : gmap string string)
    (clusterExpression tagValueExpression : option condition) (memberType key : string)
    (first : bool) (values : list string) (g : list gexpr) : result goerr (list gexpr) :=
  match values with
  | [] => Ok g
  | v :: values' =>
      let g := if first then g
               else updateExpressionsMatchLabels matchLabels memberType (next_frame clusterExpression tagValueExpression g) in
      let g := add_cond (tag_cond memberType key v) (addOperatorIfNeeded "AND" g) in
      match buildExpressionsMatchExpression matchExpressions memberType g with
      | Err e => Err e
      | Ok g => in_values_loop matchExpressions matchLabels clusterExpression tagValueExpression memberType key false values' g
      end
  end.
Definition updateExpressionsMatchExpression (matchExpressions : list Requirement) (matchLabels : gmap string string)
    (g : list gexpr) (clusterExpression tagValueExpression : option condition) (memberType : string)
  : result goerr (list gexpr) :=
  match matchExpressionOpInExist matchExpressions with
  | None => buildExpressionsMatchExpression matchExpressions memberType g
  | Some expr =>
      in_values_loop matchExpressions matchLabels clusterExpression tagValueExpression memberType
        (req_Key expr) true (req_Values expr) g
  end.

(** The mixed case: a Pod or VM selector and a Namespace selector. *)
Definition build_exprs_result (l : list Requirement) (mt : string) (r : result goerr (list gexpr)) : result goerr (list gexpr) :=
  match r with Ok g => buildExpressionsMatchExpression l mt g | Err e => Err e end.
Fixpoint mixed_values_loop (nsMatchExpressions : list Requirement) (nsMatchLabels : gmap string string)
    (matchExpressions : list Requirement) (matchLabels : gmap string string)
    (clusterExpression tagValueExpression : option condition)
    (nsFound : bool) (key : string) (first : bool) (values : list string) (g : list gexpr) : result goerr (list gexpr) :=
  match values with
  | [] => Ok g
  | v :: values' =>
      let g := if first then g
               else updateExpressionsMatchLabels nsMatchLabels "Segment"
                      (updateExpressionsMatchLabels matchLabels "SegmentPort"
                         (next_frame clusterExpression tagValueExpression g)) in
      match (if nsFound then buildExpressionsMatchExpression matchExpressions "SegmentPort" g
             else buildExpressionsMatchExpression nsMatchExpressions "Segment" g) with
      | Err e => Err e
      | Ok g =>
          let memberType := if nsFound then "Segment" else "SegmentPort" in
          let g := add_cond (tag_cond memberType key v) (addOperatorIfNeeded "AND" g) in
          match buildExpressionsMatchExpression (if nsFound then nsMatchExpressions else matchExpressions) memberType g with
          | Err e => Err e
          | Ok g =>
              mixed_values_loop nsMatchExpressions nsMatchLabels matchExpressions matchLabels
                clusterExpression tagValueExpression nsFound key false values' g
          end
      end
  end.
Definition updateMixedExpressionsMatchExpression (nsMatchExpressions : list Requirement) (nsMatchLabels : gmap string string)
    (matchExpressions : list Requirement) (matchLabels : gmap string string) (g : list gexpr)
    (clusterExpression tagValueExpression : option condition) : result goerr (list gexpr) :=
  match matchExpressionOpInExist nsMatchExpressions, matchExpressionOpInExist matchExpressions with
  | Some _, Some _ => Err (EValidation "operator 'In' is set in both Pod/VM selector and NamespaceSelector")
  | Some expr, None =>
      mixed_values_loop nsMatchExpressions nsMatchLabels matchExpressions matchLabels
        clusterExpression tagValueExpression true (req_Key expr) true (req_Values expr) g
  | None, Some expr =>
      mixed_values_loop nsMatchExpressions nsMatchLabels matchExpressions matchLabels
        clusterExpression tagValueExpression false (req_Key expr) true (req_Values expr) g
  | None, None =>
      build_exprs_result nsMatchExpressions "Segment" (buildExpressionsMatchExpression matchExpressions "SegmentPort" g)
  end.

(** ** Targets and peers *)
Section Groups.
(** [VPCMode], the cluster, and the UID of the object's Namespace. *)
Context (VPCMode : bool) (Cluster nsUID : string).

Definition getScopeCluserTag : string := if VPCMode then "nsx-op/cluster" else "ncp/cluster".
Definition getScopePodTag : string := if VPCMode then "nsx-op/pod_uid" else "ncp/pod".
Definition getScopeVMInterfaceTag : string := if VPCMode then "nsx-op/subnetport_uid" else "ncp/vnet_interface".
Definition getScopeNamespaceUIDTag (isVMNameSpace : bool) : string :=
  if VPCMode then (if isVMNameSpace then "nsx-op/vm_namespace_uid" else "nsx-op/namespace_uid")
  else (if isVMNameSpace then "ncp/vif_project_uid" else "ncp/project_uid").

(** [updateTargetExpressions]: the number of criteria, of expressions, and the
    expression of the group. *)
Definition updateTargetExpressions (target : SecurityPolicyTarget) (g : list gexpr) : result goerr (Z * Z * list gexpr) :=
  let memberType := if VPCMode then "VpcSubnetPort" else "SegmentPort" in
  let clusterMemberType := if VPCMode then "VpcSubnetPort" else "Segment" in
  match t_PodSelector target, t_VMSelector target with
  | Some _, Some _ => Err (EValidation "PodSelector and VMSelector are not allowed to set in one group")
  | pod, vm =>
      let g := buildGroupExpression (appendOperatorIfNeeded "OR" g) in
      let clusterExpression := tag_cond clusterMemberType getScopeCluserTag Cluster in
      let g := add_cond clusterExpression g in
      match (match pod with Some s => Some (s, false) | None => (fun s => (s, true)) <$> vm end) with
      | None => Ok (0, 0, g)
      | Some (sel, isVM) =>
          let nsExpression := tag_cond memberType (getScopeNamespaceUIDTag isVM) nsUID in
          let g := add_cond nsExpression (addOperatorIfNeeded "AND" g) in
          let g := updateExpressionsMatchLabels (MatchLabels sel) memberType g in
          let matchLabelsCount := Z.of_nat (size (MatchLabels sel)) + (ClusterTagCount + NameSpaceTagCount) in
          let merged := mergeSelectorMatchExpression (MatchExpressions sel) in
          match validateSelectorOpIn merged (MatchLabels sel) with
          | Err e => Err e
          | Ok opInValueCount =>
              match updateExpressionsMatchExpression merged (MatchLabels sel) g (Some clusterExpression)
                      (Some nsExpression) memberType with
              | Err e => Err e
              | Ok g =>
                  match validateSelectorExpressions matchLabelsCount (Z.of_nat (length merged)) opInValueCount (negb VPCMode) with
                  | Err e => Err e
                  | Ok (totalCriteriaCount, totalExprCount) => Ok (totalCriteriaCount, totalExprCount, g)
                  end
              end
          end
      end
  end.

(** The end of [updatePeerExpressions]: the limits of the group. *)
Definition peer_limits (groupShared : bool) (matchLabelsCount matchExpressionsCount opInValueCount : Z) (g : list gexpr)
  : result goerr (Z * Z * list gexpr) :=
  match validateSelectorExpressions matchLabelsCount matchExpressionsCount opInValueCount (negb (VPCMode && negb groupShared)) with
  | Err e => Err e
  | Ok (totalCriteriaCount, totalExprCount) => Ok (totalCriteriaCount, totalExprCount, g)
  end.
(** A peer whose conditions are all on one member type. *)
Definition peer_plain (groupShared hasNs : bool) (matchLabelsCount : Z) (sel : option LabelSelector)
    (clusterExpression tagValueExpression : option condition) (memberType : string) (g : list gexpr)
  : result goerr (Z * Z * list gexpr) :=
  let matchLabels := match sel with Some s => MatchLabels s | None => ∅ end in
  let g := updateExpressionsMatchLabels matchLabels memberType g in
  match sel with
  | None => peer_limits groupShared matchLabelsCount 0 0 g
  | Some s =>
      match (if hasNs : bool then validateNsSelectorOpNotIn (MatchExpressions s) else None) with
      | Some e => Err e
      | None =>
          let merged := mergeSelectorMatchExpression (MatchExpressions s) in
          match validateSelectorOpIn merged matchLabels with
          | Err e => Err e
          | Ok opInValueCount =>
              match updateExpressionsMatchExpression merged matchLabels g clusterExpression tagValueExpression memberType with
              | Err e => Err e
              | Ok g => peer_limits groupShared matchLabelsCount (Z.of_nat (length merged)) opInValueCount g
              end
          end
      end
  end.
(** A peer with a Pod or VM selector [sel] and a Namespace selector [nsSel]. *)
Definition peer_mixed (groupShared : bool) (sel nsSel : LabelSelector)
    (clusterExpression tagValueExpression : option condition) (g : list gexpr) : result goerr (Z * Z * list gexpr) :=
  match validateNsSelectorOpNotIn (MatchExpressions nsSel) with
  | Some e => Err e
  | None =>
      let merged := mergeSelectorMatchExpression (MatchExpressions sel) in
      match validateSelectorOpIn merged (MatchLabels sel) with
      | Err e => Err e
      | Ok opInValueCount =>
          let nsMerged := mergeSelectorMatchExpression (MatchExpressions nsSel) in
          match validateSelectorOpIn nsMerged (MatchLabels nsSel) with
          | Err e => Err e
          | Ok nsOpInValCount =>
              if bool_decide (0 < opInValueCount) && bool_decide (0 < nsOpInValCount) then
                Err (EValidation "operator 'In' is set in both Pod/VM selector and NamespaceSelector")
              else
                let matchLabelsCount := Z.of_nat (size (MatchLabels sel)) + (ClusterTagCount + NameSpaceTagCount) +
                                        Z.of_nat (size (MatchLabels nsSel)) in
                let g := updateExpressionsMatchLabels (MatchLabels sel) "SegmentPort" g in
                let g := updateExpressionsMatchLabels (MatchLabels nsSel) "Segment" g in
                match updateMixedExpressionsMatchExpression nsMerged (MatchLabels nsSel) merged (MatchLabels sel) g
                        clusterExpression tagValueExpression with
                | Err e => Err e
                | Ok g =>
                    peer_limits groupShared matchLabelsCount (Z.of_nat (length merged) + Z.of_nat (length nsMerged))
                      (opInValueCount + nsOpInValCount) g
                end
          end
      end
  end.
Definition updatePeerExpressions (peer : SecurityPolicyPeer) (g : list gexpr) (groupShared : bool)
  : result goerr (Z * Z * list gexpr) :=
  let g := if bool_decide (p_IPBlocks peer = []) then g
           else appendOperatorIfNeeded "OR" g ++ [IPAddressExpression (p_IPBlocks peer)] in
  match p_PodSelector peer, p_VMSelector peer, p_NamespaceSelector peer with
  | None, None, None => Ok (0, 0, g)
  | Some _, Some _, None => Err (EValidation "PodSelector and VMSelector are not allowed to set in one group")
  | Some _, Some _, Some _ =>
      Err (EValidation "PodSelector, VMSelector and NamespaceSelector are not allowed to set in one group")
  | pod, vm, ns =>
      let g := buildGroupExpression (appendOperatorIfNeeded "OR" g) in
      let onlyNs := match pod, vm, ns with None, None, Some n => negb (selector_empty n) | _, _, _ => false end in
      let vpcLevel := VPCMode && negb groupShared in
      let clusterMemberType := if vpcLevel then "VpcSubnetPort" else if onlyNs then "SegmentPort" else "Segment" in
      let memberType := if vpcLevel then "VpcSubnetPort" else "SegmentPort" in
      let clusterExpression := tag_cond clusterMemberType getScopeCluserTag Cluster in
      let g := add_cond clusterExpression g in
      match (match pod with Some s => Some (s, false) | None => (fun s => (s, true)) <$> vm end), ns with
      | Some (sel, isVM), None =>
          let t := tag_cond memberType (getScopeNamespaceUIDTag isVM) nsUID in
          let g := add_cond t (addOperatorIfNeeded "AND" g) in
          peer_plain groupShared false (Z.of_nat (size (MatchLabels sel)) + (ClusterTagCount + NameSpaceTagCount))
            (Some sel) (Some clusterExpression) (Some t) memberType g
      | Some (sel, isVM), Some nsSel =>
          let t := tag_cond memberType (if isVM : bool then getScopeVMInterfaceTag else getScopePodTag) "" in
          let g := add_cond t (addOperatorIfNeeded "AND" g) in
          peer_mixed groupShared sel nsSel (Some clusterExpression) (Some t) g
      | None, Some nsSel =>
          if selector_empty nsSel then
            let g := add_cond (tag_cond "SegmentPort" getScopeCluserTag Cluster) (addOperatorIfNeeded "AND" g) in
            peer_plain groupShared true (ClusterTagCount + 1) None (Some clusterExpression) None memberType g
          else
            peer_plain groupShared true (Z.of_nat (size (MatchLabels nsSel)) + ClusterTagCount)
              (Some nsSel) (Some clusterExpression) None "Segment" g
      | None, None => Ok (0, 0, g)
      end
  end.

(** The loop over the targets of [buildPolicyGroup] and
    [buildRuleAppliedGroupByRule], with the limits of the whole group. *)
Definition targets_loop (targets : list SecurityPolicyTarget) : result goerr (Z * Z * list gexpr) :=
  range_result (fun st target =>
    match updateTargetExpressions target st.2 with
    | Err e => Err e
    | Ok (criteriaCount, totalExprCount, g) => Ok (st.1.1 + criteriaCount, st.1.2 + totalExprCount, g)
    end) (0, 0, []) targets.
Definition peers_loop (peers : list SecurityPolicyPeer) (groupShared : bool) : result goerr (Z * Z * list gexpr) :=
  range_result (fun st peer =>
    match updatePeerExpressions peer st.2 groupShared with
    | Err e => Err e
    | Ok (criteriaCount, totalExprCount, g) => Ok (st.1.1 + criteriaCount, st.1.2 + totalExprCount, g)
    end) (0, 0, []) peers.
(** The check of the totals; [criteriaMsg] and [exprMsg] begin the messages. *)
Definition check_totals (criteriaMsg exprMsg : string) (criteriaCount totalExprCount : Z) : option goerr :=
  if bool_decide (MaxCriteria < criteriaCount) then
    Some (EValidation (criteriaMsg +:+ itoa criteriaCount +:+ " exceed NSX limit of " +:+ itoa MaxCriteria))
  else if bool_decide (MaxTotalCriteriaExpressions < totalExprCount) then
    Some (EValidation (exprMsg +:+ itoa totalExprCount +:+ " exceed NSX limit of " +:+ itoa MaxTotalCriteriaExpressions))
  else None.
Definition targets_expression (criteriaMsg exprMsg : string) (targets : list SecurityPolicyTarget) : result goerr (list gexpr) :=
  match targets_loop targets with
  | Err e => Err e
  | Ok (criteriaCount, totalExprCount, g) =>
      match check_totals criteriaMsg exprMsg criteriaCount totalExprCount with Some e => Err e | None => Ok g end
  end.
Definition peers_expression (criteriaMsg exprMsg : string) (peers : list SecurityPolicyPeer) (groupShared : bool)
  : result goerr (list gexpr) :=
  match peers_loop peers groupShared with
  | Err e => Err e
  | Ok (criteriaCount, totalExprCount, g) =>
      match check_totals criteriaMsg exprMsg criteriaCount totalExprCount with Some e => Err e | None => Ok g end
  end.
End Groups.

(** ** Normal form of the expressions *)

(** A frame: a conjunction of conditions, or a set of addresses. *)
Inductive frame := FConds (l : list condition) | FIP (addrs : list string).
Definition items_of (l : list condition) : list item :=
  match l with
  | [] => []
  | c :: l' => ICond c :: mjoin (map (fun c => [IConj "AND"; ICond c]) l')
  end.
Definition frame_expr (f : frame) : gexpr :=
  match f with FConds l => Nested (items_of l) | FIP a => IPAddressExpression a end.
Definition render (fs : list frame) : list gexpr :=
  match fs with
  | [] => []
  | f :: fs' => frame_expr f :: mjoin (map (fun f => [GConj "OR"; frame_expr f]) fs')
  end.
Lemma items_of_snoc l c : l <> [] -> items_of (l ++ [c]) = items_of l ++ [IConj "AND"; ICond c].
Proof. destruct l as [|c0 l]; [done|]. intros _. simpl. by rewrite map_app, join_app. Qed.
Lemma render_snoc fs f : fs <> [] -> render (fs ++ [f]) = render fs ++ [GConj "OR"; frame_expr f].
Proof. destruct fs as [|f0 fs]; [done|]. intros _. simpl. by rewrite map_app, join_app. Qed.
Lemma render_nil fs : render fs = [] <-> fs = [].
Proof. by destruct fs. Qed.
Lemma add_item_last i g l : add_item i (g ++ [Nested l]) = g ++ [Nested (l ++ [i])].
Proof.
  induction g as [|e g IH]; [done|]. simpl. rewrite IH. by destruct g.
Qed.
(** The rendering of the frames before the last one, with the operator. *)
Definition prefix_of (fs : list frame) : list gexpr := match fs with [] => [] | _ => render fs ++ [GConj "OR"] end.
Lemma render_last fs l : render (fs ++ [FConds l]) = prefix_of fs ++ [Nested (items_of l)].
Proof. destruct fs as [|f fs]; [done|]. rewrite render_snoc by done. unfold prefix_of. by rewrite <- (assoc_L (++)). Qed.
Lemma new_frame_render fs : buildGroupExpression (appendOperatorIfNeeded "OR" (render fs)) = prefix_of fs ++ [Nested []].
Proof. unfold buildGroupExpression, appendOperatorIfNeeded, prefix_of. by destruct fs. Qed.
Lemma add_first_cond fs c : add_cond c (prefix_of fs ++ [Nested []]) = render (fs ++ [FConds [c]]).
Proof. unfold add_cond. by rewrite add_item_last, render_last. Qed.
Lemma last_items_render fs l : last_items (render (fs ++ [FConds l])) = items_of l.
Proof. unfold last_items. by rewrite render_last, last_snoc. Qed.
Lemma add_and_cond fs l c :
  l <> [] -> add_cond c (addOperatorIfNeeded "AND" (render (fs ++ [FConds l]))) = render (fs ++ [FConds (l ++ [c])]).
Proof.
  intros Hl. unfold addOperatorIfNeeded. rewrite last_items_render. destruct l as [|c0 l]; [done|].
  cbn [items_of]. unfold add_cond. rewrite !render_last, !add_item_last. rewrite (items_of_snoc (c0 :: l)) by done.
  cbn [items_of]. by rewrite <- (assoc_L (++)).
Qed.

Definition label_conds (mt : string) (ml : gmap string string) : list condition :=
  map (fun k => tag_cond mt k (default "" (normalized_labels ml !! k))) (sets_List (dom (normalized_labels ml))).
Lemma update_labels_render ml mt fs l :
  l <> [] -> updateExpressionsMatchLabels ml mt (render (fs ++ [FConds l])) = render (fs ++ [FConds (l ++ label_conds mt ml)]).
Proof.
  unfold updateExpressionsMatchLabels, label_conds. generalize (sets_List (dom (normalized_labels ml))) as ks.
  induction ks as [|k ks IH] in l |- *; intros Hl; simpl; [by rewrite app_nil_r|].
  rewrite add_and_cond by done. rewrite IH by (by destruct l). by rewrite <- (assoc_L (++)).
Qed.
Definition valid_req (r : Requirement) : Prop :=
  req_Operator r = OpIn \/ req_Operator r = OpNotIn \/ req_Operator r = OpExists \/ req_Operator r = OpDoesNotExist.
Definition other_conds (mt : string) (reqs : list Requirement) : list condition := omap (requirement_cond mt) reqs.
Lemma requirement_cond_In mt r : req_Operator r = OpIn -> requirement_cond mt r = None.
Proof. intros H. unfold requirement_cond. rewrite H. done. Qed.
Lemma expr_step_msg mt reqs g msg : msg <> "" -> (foldl (expr_step mt) (g, msg) reqs).2 <> "".
Proof.
  revert g msg; induction reqs as [|r reqs IH]; intros g msg Hm; [done|]. simpl.
  case_bool_decide; [by apply IH|]. destruct (requirement_cond mt r); by apply IH.
Qed.
Lemma expr_steps_render mt reqs fs l :
  l <> [] -> (foldl (expr_step mt) (render (fs ++ [FConds l]), "") reqs).2 = "" ->
  Forall valid_req reqs /\
  (foldl (expr_step mt) (render (fs ++ [FConds l]), "") reqs).1 = render (fs ++ [FConds (l ++ other_conds mt reqs)]).
Proof.
  revert l; induction reqs as [|r reqs IH]; intros l Hl Hmsg; simpl in *; [by rewrite app_nil_r|].
  case_bool_decide as Hin.
  - destruct (IH l Hl Hmsg) as [H1 H2]. split; [constructor; [by left|done]|].
    unfold other_conds. simpl. rewrite requirement_cond_In by done. exact H2.
  - unfold other_conds. simpl. destruct (requirement_cond mt r) as [c|] eqn:Hc; [|by apply expr_step_msg in Hmsg].
    rewrite add_and_cond in * by done. destruct (IH (l ++ [c])) as [H1 H2]; [by destruct l|done|].
    split; [|rewrite H2; by rewrite <- (assoc_L (++))]. constructor; [|done].
    unfold requirement_cond in Hc. unfold valid_req. repeat case_bool_decide; try done; auto.
Qed.
Lemma build_exprs_render reqs mt fs l g :
  l <> [] -> buildExpressionsMatchExpression reqs mt (render (fs ++ [FConds l])) = Ok g ->
  Forall valid_req reqs /\ g = render (fs ++ [FConds (l ++ other_conds mt reqs)]).
Proof.
  intros Hl. unfold buildExpressionsMatchExpression. pose proof (expr_steps_render mt reqs fs l Hl) as H.
  destruct (foldl _ _ reqs) as [g' msg]. case_bool_decide; [done|]. intros [= <-]. by apply H.
Qed.

(** The frames one selector adds for the values of its 'In' requirement. *)
Lemma next_frame_render c t fs :
  fs <> [] -> next_frame (Some c) t (render fs) = render (fs ++ [FConds (c :: from_option (fun t => [t]) [] t)]).
Proof.
  intros Hfs. unfold next_frame. rewrite new_frame_render, add_first_cond. destruct t as [t|]; [|done].
  by rewrite add_and_cond.
Qed.
Lemma in_values_render reqs ml c t mt key first vs fs l g :
  l <> [] -> l = (c :: from_option (fun t => [t]) [] t) ++ label_conds mt ml ->
  in_values_loop reqs ml (Some c) t mt key first vs (render (if first then fs ++ [FConds l] else fs)) = Ok g ->
  (first = false -> fs <> []) ->
  (vs <> [] -> Forall valid_req reqs) /\
  g = render (match vs with [] => if first then fs ++ [FConds l] else fs
              | _ => fs ++ map (fun v => FConds (l ++ [tag_cond mt key v] ++ other_conds mt reqs)) vs end).
Proof.
  intros Hl Heq. revert first fs; induction vs as [|v vs IH]; intros first fs Hloop Hne; [by simplify_eq/=|].
  cbn [in_values_loop] in Hloop.
  assert (Hg : (if first then render (if first then fs ++ [FConds l] else fs)
    else updateExpressionsMatchLabels ml mt (next_frame (Some c) t (render (if first then fs ++ [FConds l] else fs))))
    = render (fs ++ [FConds l])).
  { destruct first; [done|]. rewrite next_frame_render by auto. rewrite update_labels_render by done. by rewrite Heq. }
  rewrite Hg, add_and_cond in Hloop by done.
  destruct (buildExpressionsMatchExpression _ _ _) as [g1|] eqn:Hb; [|done].
  apply build_exprs_render in Hb as [Hv ->]; [|by destruct l].
  apply (IH false) in Hloop as [_ ->]; [|by destruct fs]. split; [done|].
  f_equal. destruct vs; simpl; by rewrite <- ?(assoc_L (++)).
Qed.
(** The alternatives of a list of requirements: one list of conditions for
    each value of the first 'In' requirement, or a single one. *)
Definition alternatives (mt : string) (reqs : list Requirement) : list (list condition) :=
  match matchExpressionOpInExist reqs with
  | None => [other_conds mt reqs]
  | Some expr => map (fun v => tag_cond mt (req_Key expr) v :: other_conds mt reqs) (req_Values expr)
  end.
Lemma update_exprs_render reqs ml c t mt fs g :
  let l := (c :: from_option (fun t => [t]) [] t) ++ label_conds mt ml in
  updateExpressionsMatchExpression reqs ml (render (fs ++ [FConds l])) (Some c) t mt = Ok g ->
  alternatives mt reqs <> [] ->
  Forall valid_req reqs /\ g = render (fs ++ map (fun a => FConds (l ++ a)) (alternatives mt reqs)).
Proof.
  intros l. unfold updateExpressionsMatchExpression, alternatives.
  destruct (matchExpressionOpInExist reqs) as [expr|].
  - intros Hloop Hne. apply (in_values_render _ _ _ _ _ _ true _ fs l) in Hloop as [Hv ->]; [|done..].
    destruct (req_Values expr) as [|v vs]; [done|]. split; [by apply Hv|]. by rewrite map_map.
  - intros Hb _. by apply build_exprs_render in Hb as [? ->].
Qed.

(** ** What expressions and selectors mean *)

(** NSX's reading of a criteria list: conditions joined by AND, frames joined
    by OR; [None] when the list does not alternate. *)
Fixpoint eval_items (eval : condition -> bool) (l : list item) : option bool :=
  match l with
  | [ICond c] => Some (eval c)
  | ICond c :: IConj op :: l' =>
      if decide (op = "AND") then b ← eval_items eval l'; Some (eval c && b) else None
  | _ => None
  end.
Definition eval_expr (eval : condition -> bool) (eval_ip : list string -> bool) (e : gexpr) : option bool :=
  match e with
  | Nested l => eval_items eval l
  | GCond c => Some (eval c)
  | IPAddressExpression a => Some (eval_ip a)
  | GConj _ => None
  end.
Fixpoint eval_group (eval : condition -> bool) (eval_ip : list string -> bool) (g : list gexpr) : option bool :=
  match g with
  | [e] => eval_expr eval eval_ip e
  | e :: GConj op :: g' =>
      if decide (op = "OR") then a ← eval_expr eval eval_ip e; b ← eval_group eval eval_ip g'; Some (a || b) else None
  | _ => None
  end.
Definition eval_frame (eval : condition -> bool) (eval_ip : list string -> bool) (f : frame) : bool :=
  match f with FConds l => forallb eval l | FIP a => eval_ip a end.
Definition frame_ok (f : frame) : Prop := match f with FConds l => l <> [] | FIP _ => True end.
Lemma eval_items_of eval l : l <> [] -> eval_items eval (items_of l) = Some (forallb eval l).
Proof.
  destruct l as [|c l]; [done|]. intros _. revert c; induction l as [|c' l IH]; intros c; [simpl; by rewrite andb_true_r|].
  change (items_of (c :: c' :: l)) with (ICond c :: IConj "AND" :: items_of (c' :: l)).
  cbn [eval_items]. rewrite decide_True by done. rewrite IH. done.
Qed.
Lemma eval_frame_expr eval eval_ip f : frame_ok f -> eval_expr eval eval_ip (frame_expr f) = Some (eval_frame eval eval_ip f).
Proof. destruct f; [apply eval_items_of|done]. Qed.
Lemma eval_group_render eval eval_ip fs :
  fs <> [] -> Forall frame_ok fs -> eval_group eval eval_ip (render fs) = Some (existsb (eval_frame eval eval_ip) fs).
Proof.
  destruct fs as [|f fs]; [done|]. intros _. revert f; induction fs as [|f' fs IH]; intros f Hok;
    apply Forall_cons in Hok as [Hf Hok].
  - simpl. rewrite orb_false_r. by apply eval_frame_expr.
  - change (render (f :: f' :: fs)) with (frame_expr f :: GConj "OR" :: render (f' :: fs)).
    cbn [eval_group]. rewrite decide_True by done. rewrite eval_frame_expr by done. rewrite IH by done. done.
Qed.

(** The Kubernetes meaning of a selector, on the labels [T] of an object. *)
Definition req_matches (T : string -> string -> Prop) (r : Requirement) : Prop :=
  if decide (req_Operator r = OpIn) then exists v, v ∈ req_Values r /\ T (req_Key r) v
  else if decide (req_Operator r = OpNotIn) then forall v, v ∈ req_Values r -> ~ T (req_Key r) v
  else if decide (req_Operator r = OpExists) then exists v, T (req_Key r) v
  else if decide (req_Operator r = OpDoesNotExist) then ~ exists v, T (req_Key r) v
  else False.
Definition selector_matches (T : string -> string -> Prop) (s : LabelSelector) : Prop :=
  (forall k v, MatchLabels s !! k = Some v -> T k v) /\ forall r, r ∈ MatchExpressions s -> req_matches T r.
(** A label has one value. *)
Definition functional_labels (T : string -> string -> Prop) : Prop := forall k v v', T k v -> T k v' -> v = v'.

(** *** Merging *)
Definition merged_values (m : gmap string (gmap string (list string))) (op k : string) : option (list string) :=
  sub ← m !! op; sub !! k.
Definition same_place (op k : string) (r : Requirement) : Prop := req_Operator r = op /\ req_Key r = k.
#[global] Instance same_place_dec op k r : Decision (same_place op k r).
Proof. unfold same_place. apply _. Defined.
Lemma merged_values_step m d op k :
  merged_values (merge_step m d) op k =
  if decide (same_place op k d) then
    Some (match merged_values m op k with
          | None => req_Values d
          | Some old => if bool_decide (op = OpIn) then IntersectStr old (req_Values d)
                        else RemoveDuplicateStr (old ++ req_Values d)
          end)
  else merged_values m op k.
Proof.
  unfold merged_values, merge_step. case_decide as Hd.
  - destruct Hd as [<- <-]. rewrite lookup_insert_eq. simpl. rewrite lookup_insert_eq. by destruct (m !! req_Operator d).
  - destruct (decide (req_Operator d = op)) as [<-|Ho]; [|by rewrite lookup_insert_ne].
    rewrite lookup_insert_eq. simpl. rewrite lookup_insert_ne by (intros Hk; by apply Hd).
    by destruct (m !! req_Operator d).
Qed.
Lemma merged_values_spec reqs op k :
  match merged_values (foldl merge_step ∅ reqs) op k with
  | None => forall r, r ∈ reqs -> ~ same_place op k r
  | Some vs =>
      (exists r, r ∈ reqs /\ same_place op k r) /\
      forall v, v ∈ vs <->
        if decide (op = OpIn) then forall r, r ∈ reqs -> same_place op k r -> v ∈ req_Values r
        else exists r, r ∈ reqs /\ same_place op k r /\ v ∈ req_Values r
  end.
Proof.
  induction reqs as [|d reqs IH] using rev_ind;
    [unfold merged_values; cbn [foldl]; rewrite lookup_empty; by intros r ?%elem_of_nil|].
  rewrite foldl_snoc, merged_values_step. destruct (decide (same_place op k d)) as [Hd|Hd].
  - cbv iota. split; [exists d; split; [set_solver|done]|]. intros v.
    destruct (merged_values _ op k) as [old|].
    + destruct IH as [_ IH]. destruct (decide (op = OpIn)) as [Hin|Hin].
      * rewrite bool_decide_true by done. unfold IntersectStr. rewrite elem_of_sets_List, elem_of_intersection, !elem_of_list_to_set, IH.
        split; [|set_solver]. intros [H1 H2] r [Hr| ->%list_elem_of_singleton]%elem_of_app; auto.
      * rewrite bool_decide_false by done. unfold RemoveDuplicateStr.
        rewrite elem_of_elements, elem_of_list_to_set, elem_of_app, IH. split.
        -- intros [(r & ? & ? & ?)|?]; [exists r|exists d]; set_solver.
        -- intros (r & [Hr| ->%list_elem_of_singleton]%elem_of_app & Hp & Hv); [left; eauto|by right].
    + case_decide.
      * split; [|set_solver]. intros Hv r [Hr| ->%list_elem_of_singleton]%elem_of_app Hp; [by destruct (IH r)|done].
      * split; [intros Hv; exists d; set_solver|]. intros (r & [Hr| ->%list_elem_of_singleton]%elem_of_app & Hp & Hv); [by destruct (IH r)|done].
  - destruct (merged_values _ op k) as [vs|].
    + destruct IH as [(r0 & Hr0 & Hp0) IH]. split; [exists r0; set_solver|]. intros v. rewrite IH. case_decide.
      * split; [intros H1 r [Hr| ->%list_elem_of_singleton]%elem_of_app; auto; done|set_solver].
      * split; [intros (r & ? & ?); exists r; set_solver|].
        intros (r & [Hr| ->%list_elem_of_singleton]%elem_of_app & Hp & Hv); [eauto|done].
    + intros r [Hr| ->%list_elem_of_singleton]%elem_of_app; auto.
Qed.
Lemma elem_of_merged reqs r :
  r ∈ mergeSelectorMatchExpression reqs <->
  exists vs, merged_values (foldl merge_step ∅ reqs) (req_Operator r) (req_Key r) = Some vs /\
    req_Values r = if bool_decide (req_Operator r = OpNotIn) then sort_strings vs else vs.
Proof.
  unfold mergeSelectorMatchExpression, merged_of, merged_values. set (m := foldl merge_step ∅ reqs).
  rewrite list_elem_of_join. split.
  - intros (l & Hr & Hl). apply list_elem_of_fmap in Hl as (op & -> & Hop%elem_of_sets_List%elem_of_dom).
    apply list_elem_of_fmap in Hr as (k & -> & Hk). cbn [req_Operator req_Key req_Values].
    destruct Hop as [sub Hsub]. rewrite Hsub in Hk |- *. cbn [default] in Hk.
    apply elem_of_sets_List, elem_of_dom in Hk as [vs Hvs]. exists vs. split; [done|]. unfold default, id in *; simpl. by rewrite Hvs.
  - destruct r as [k op vals]. cbn [req_Operator req_Key req_Values]. destruct (m !! op) as [sub|] eqn:Hsub; [|by intros (? & ? & _)].
    intros (vs & Hvs & ->). simpl in Hvs.
    exists (map (fun subKey => mkReq subKey op (if bool_decide (op = OpNotIn)
              then sort_strings (default [] (default ∅ (m !! op) !! subKey)) else default [] (default ∅ (m !! op) !! subKey)))
            (sets_List (dom (default ∅ (m !! op))))). split.
    + apply list_elem_of_fmap. exists k. rewrite Hsub. simpl. rewrite Hvs. split; [done|]. apply elem_of_sets_List, elem_of_dom. by exists vs.
    + apply list_elem_of_fmap. exists op. split; [done|]. apply elem_of_sets_List, elem_of_dom. by exists sub.
Qed.

(** The alternatives of a Pod or VM selector and a Namespace selector. *)
Definition mixed_alternatives (reqs nsReqs : list Requirement) : list (list condition) :=
  match matchExpressionOpInExist nsReqs, matchExpressionOpInExist reqs with
  | Some expr, _ =>
      map (fun v => other_conds "SegmentPort" reqs ++ tag_cond "Segment" (req_Key expr) v :: other_conds "Segment" nsReqs)
        (req_Values expr)
  | None, Some expr =>
      map (fun v => other_conds "Segment" nsReqs ++ tag_cond "SegmentPort" (req_Key expr) v :: other_conds "SegmentPort" reqs)
        (req_Values expr)
  | None, None => [other_conds "SegmentPort" reqs ++ other_conds "Segment" nsReqs]
  end.
(** The frames of one selector; when there is no alternative the first frame
    stays without its requirements. *)
Definition selector_frames (base : list condition) (alts : list (list condition)) : list frame :=
  match alts with [] => [FConds base] | _ => map (fun a => FConds (base ++ a)) alts end.

Lemma update_exprs_frames reqs ml c t mt fs g :
  let l := (c :: from_option (fun t => [t]) [] t) ++ label_conds mt ml in
  updateExpressionsMatchExpression reqs ml (render (fs ++ [FConds l])) (Some c) t mt = Ok g ->
  (alternatives mt reqs <> [] -> Forall valid_req reqs) /\ g = render (fs ++ selector_frames l (alternatives mt reqs)).
Proof.
  intros l Hu. destruct (decide (alternatives mt reqs = [])) as [Ha|Ha].
  - rewrite Ha. split; [done|]. revert Hu Ha. unfold updateExpressionsMatchExpression, alternatives.
    destruct (matchExpressionOpInExist reqs) as [expr|]; [|done]. destruct (req_Values expr); [|done].
    intros H _. by simplify_eq/=.
  - apply update_exprs_render in Hu as [? ->]; [|done]. split; [done|]. unfold selector_frames.
    by destruct (alternatives mt reqs).
Qed.
Lemma mixed_values_render nsReqs nsMl reqs ml c t nsFound key first vs fs l g :
  l = (c :: from_option (fun t => [t]) [] t) ++ label_conds "SegmentPort" ml ++ label_conds "Segment" nsMl ->
  mixed_values_loop nsReqs nsMl reqs ml (Some c) t nsFound key first vs
    (render (if first then fs ++ [FConds l] else fs)) = Ok g ->
  (first = false -> fs <> []) ->
  (vs <> [] -> Forall valid_req reqs /\ Forall valid_req nsReqs) /\
  g = render (match vs with [] => if first then fs ++ [FConds l] else fs
              | _ => fs ++ map (fun v => FConds (l ++
                  if nsFound then other_conds "SegmentPort" reqs ++ tag_cond "Segment" key v :: other_conds "Segment" nsReqs
                  else other_conds "Segment" nsReqs ++ tag_cond "SegmentPort" key v :: other_conds "SegmentPort" reqs)) vs end).
Proof.
  intros Heq. assert (Hl : l <> []) by (by subst l). revert first fs; induction vs as [|v vs IH]; intros first fs Hloop Hne; [by simplify_eq/=|].
  cbn [mixed_values_loop] in Hloop.
  assert (Hg : (if first then render (if first then fs ++ [FConds l] else fs)
    else updateExpressionsMatchLabels nsMl "Segment" (updateExpressionsMatchLabels ml "SegmentPort"
           (next_frame (Some c) t (render (if first then fs ++ [FConds l] else fs)))))
    = render (fs ++ [FConds l])).
  { destruct first; [done|]. rewrite next_frame_render by auto. rewrite !update_labels_render by done. subst l.
    by rewrite <- (assoc_L (++)). }
  rewrite Hg in Hloop. clear Hg.
  destruct nsFound.
  - destruct (buildExpressionsMatchExpression reqs _ _) as [g1|] eqn:Hb; [|done].
    apply build_exprs_render in Hb as [Hv ->]; [|done]. rewrite add_and_cond in Hloop by (by destruct l).
    destruct (buildExpressionsMatchExpression nsReqs _ _) as [g1|] eqn:Hb; [|done].
    apply build_exprs_render in Hb as [Hv' ->]; [|by destruct l].
    apply (IH false) in Hloop as [_ ->]; [|by destruct fs]. split; [done|].
    rewrite <- !(assoc_L (++)). f_equal. destruct vs; simpl; by rewrite <- ?(assoc_L (++)).
  - destruct (buildExpressionsMatchExpression nsReqs _ _) as [g1|] eqn:Hb; [|done].
    apply build_exprs_render in Hb as [Hv ->]; [|done]. rewrite add_and_cond in Hloop by (by destruct l).
    destruct (buildExpressionsMatchExpression reqs _ _) as [g1|] eqn:Hb; [|done].
    apply build_exprs_render in Hb as [Hv' ->]; [|by destruct l].
    apply (IH false) in Hloop as [_ ->]; [|by destruct fs]. split; [done|].
    rewrite <- !(assoc_L (++)). f_equal. destruct vs; simpl; by rewrite <- ?(assoc_L (++)).
Qed.
Lemma update_mixed_frames nsReqs nsMl reqs ml c t fs g :
  let l := (c :: from_option (fun t => [t]) [] t) ++ label_conds "SegmentPort" ml ++ label_conds "Segment" nsMl in
  updateMixedExpressionsMatchExpression nsReqs nsMl reqs ml (render (fs ++ [FConds l])) (Some c) t = Ok g ->
  (mixed_alternatives reqs nsReqs <> [] -> Forall valid_req reqs /\ Forall valid_req nsReqs) /\
  (matchExpressionOpInExist reqs = None \/ matchExpressionOpInExist nsReqs = None) /\
  g = render (fs ++ selector_frames l (mixed_alternatives reqs nsReqs)).
Proof.
  intros l. unfold updateMixedExpressionsMatchExpression, mixed_alternatives.
  destruct (matchExpressionOpInExist nsReqs) as [e1|], (matchExpressionOpInExist reqs) as [e2|]; [done|intros Hu..].
  - apply (mixed_values_render _ _ _ _ _ _ _ _ true _ fs l) in Hu as [Hv ->]; [|done..].
    split; [intros H; apply Hv; by destruct (req_Values e1)|]. split; [auto|]. unfold selector_frames.
    destruct (req_Values e1); [done|]. simpl. by rewrite map_map.
  - apply (mixed_values_render _ _ _ _ _ _ _ _ true _ fs l) in Hu as [Hv ->]; [|done..].
    split; [intros H; apply Hv; by destruct (req_Values e2)|]. split; [auto|]. unfold selector_frames.
    destruct (req_Values e2); [done|]. simpl. by rewrite map_map.
  - destruct (buildExpressionsMatchExpression reqs _ _) as [g1|] eqn:Hb; [|done].
    apply build_exprs_render in Hb as [Hv ->]; [|done]. simpl in Hu. apply build_exprs_render in Hu as [Hv' ->]; [|done].
    split; [done|]. split; [auto|]. simpl. by rewrite <- !(assoc_L (++)).
Qed.

(** *** Labels within the limits of NSX keep their keys and values *)
Definition normalize_entry (acc : option (gmap string string)) (kv : string * string) : option (gmap string string) :=
  m ← acc; k ← NormalizeLabelKey kv.1 truncateLabelHash; v ← NormalizeLabelValue kv.2 truncateLabelHash; Some (<[k := v]> m).
Lemma normalize_entries l m :
  exists m', foldl normalize_entry (Some m) l = Some m' /\ (size m' <= size m + length l)%nat.
Proof.
  revert m; induction l as [|kv l IH]; intros m; [exists m; split; [done|lia]|].
  destruct (NormalizeLabelKey_ok kv.1) as (k & Hk & _). destruct (NormalizeLabelValue_ok kv.2) as (v & Hv & _).
  cbn [foldl]. assert (He : normalize_entry (Some m) kv = Some (<[k := v]> m)) by (unfold normalize_entry; simpl; rewrite Hk; simpl; by rewrite Hv).
  rewrite He. destruct (IH (<[k:=v]> m)) as (m' & -> & Hs).
  exists m'. split; [done|]. rewrite map_size_insert in Hs. destruct (m !! k); unfold id in *; simpl; lia.
Qed.
Lemma size_normalized ml : (size (normalized_labels ml) <= size ml)%nat.
Proof.
  unfold normalized_labels, NormalizeLabels. destruct (normalize_entries (map_to_list ml) ∅) as (m' & Hm & Hs).
  unfold normalize_entry in Hm. rewrite Hm. simpl. rewrite map_size_empty, length_map_to_list in Hs. lia.
Qed.
Definition short_labels (ml : gmap string string) : Prop :=
  map_Forall (fun k v => slen k <= MaxTagScopeLength /\ slen v <= MaxTagValueLength) ml.
Lemma normalize_entries_id l m :
  Forall (fun kv => slen kv.1 <= MaxTagScopeLength /\ slen kv.2 <= MaxTagValueLength) l ->
  foldl normalize_entry (Some m) l = Some (foldl (fun m kv => <[kv.1 := kv.2]> m) m l).
Proof.
  revert m; induction l as [|[k v] l IH]; intros m Hl; [done|]. apply Forall_cons in Hl as [[Hk Hv] Hl].
  cbn [fst snd] in Hk, Hv. cbn [foldl]. rewrite <- IH by done. f_equal.
  unfold normalize_entry, NormalizeLabelKey, NormalizeLabelValue, normalizeNameByLimit. cbn [mbind option_bind fst snd].
  rewrite (bool_decide_true _ Hk). cbn [mbind option_bind].
  assert (Hc : connectStrings "_" [v; ""] = v).
  { unfold connectStrings. rewrite !filter_cons. destruct (decide (v <> "")) as [|Hv0]; [by rewrite decide_False by auto|].
    rewrite decide_False by auto. destruct (decide (v = "")) as [->|]; [done|by destruct Hv0]. }
  by rewrite Hc, (bool_decide_true _ Hv).
Qed.
Lemma foldl_insert_list (l : list (string * string)) (m : gmap string string) :
  NoDup l.*1 -> (forall k v, (k, v) ∈ l -> m !! k = None) -> foldl (fun m kv => <[kv.1 := kv.2]> m) m l = list_to_map l ∪ m.
Proof.
  revert m; induction l as [|[k v] l IH]; intros m Hnd Hm; [cbn; by rewrite (left_id_L ∅ (∪))|].
  apply NoDup_cons in Hnd as [Hk Hnd]. cbn [foldl fst snd]. rewrite IH; [|done|].
  - cbn [list_to_map foldr fst snd]. rewrite <- insert_union_r by (by apply not_elem_of_list_to_map_1).
    by rewrite insert_union_l.
  - intros k' v' Hin. rewrite lookup_insert_ne; [by eapply Hm; right|]. intros ->. apply Hk.
    apply list_elem_of_fmap. by exists (k', v').
Qed.
Lemma normalized_short ml : short_labels ml -> normalized_labels ml = ml.
Proof.
  intros Hs. unfold normalized_labels, NormalizeLabels. pose proof (normalize_entries_id (map_to_list ml) ∅) as H.
  unfold normalize_entry in H. rewrite H.
  - simpl. rewrite foldl_insert_list; [|apply NoDup_fst_map_to_list|intros; by rewrite lookup_empty].
    by rewrite list_to_map_to_list, (right_id_L ∅ (∪)).
  - apply Forall_forall. intros [k v] Hkv%elem_of_map_to_list. exact (Hs k v Hkv).
Qed.

(** ** The meaning of conditions

    [T mt scope tag]: the object's member of type [mt] carries the tag. NSX
    evaluates a condition on the string "scope|tag"; an empty tag matches any
    value of the scope. *)
Definition good_key (k : string) : Prop := k <> "" /\ contains_byte "|" k = false.
Definition good_value (v : string) : Prop := v <> "" /\ contains_byte "," v = false.
Record nsx_semantics (T : string -> string -> string -> Prop) (eval : condition -> bool) : Prop := {
  sem_tag : forall mt k v, good_key k -> v <> "" -> eval (tag_cond mt k v) = true <-> T mt k v;
  sem_exists : forall mt k, good_key k -> eval (tag_cond mt k "") = true <-> exists v, T mt k v;
  sem_not_exists : forall mt k, good_key k ->
    eval (buildExpression "Condition" mt (k +:+ "|") "Tag" "" "NOTEQUALS") = true <-> ~ exists v, T mt k v;
  sem_not_in : forall mt k vs, good_key k -> vs <> [] -> Forall good_value vs ->
    eval (buildExpression "Condition" mt (k +:+ "|" +:+ join "," vs) "Tag" "NOTIN" "EQUALS") = true <->
    forall v, v ∈ vs -> ~ T mt k v }.

Definition good_req (r : Requirement) : Prop :=
  good_key (req_Key r) /\
  (req_Operator r = OpIn \/ req_Operator r = OpNotIn -> req_Values r <> [] /\ Forall good_value (req_Values r)).
Definition good_labels (ml : gmap string string) : Prop :=
  short_labels ml /\ map_Forall (fun k v => good_key k /\ v <> "") ml.

Section Meaning.
Context (T : string -> string -> string -> Prop) (eval : condition -> bool) (Hsem : nsx_semantics T eval).

Lemma label_conds_meaning mt ml :
  good_labels ml -> forallb eval (label_conds mt ml) = true <-> forall k v, ml !! k = Some v -> T mt k v.
Proof.
  intros [Hs Hg]. unfold label_conds. rewrite normalized_short by done. rewrite forallb_forall. split.
  - intros H k v Hkv. destruct (Hg k v Hkv). apply (sem_tag _ _ Hsem); [done..|]. apply H.
    apply list_elem_of_In, list_elem_of_fmap. exists k. rewrite Hkv. split; [done|].
    apply elem_of_sets_List, elem_of_dom. by exists v.
  - intros H c Hc. apply list_elem_of_In, list_elem_of_fmap in Hc as (k & -> & [v Hv]%elem_of_sets_List%elem_of_dom).
    rewrite Hv. destruct (Hg k v Hv). apply (sem_tag _ _ Hsem); auto.
Qed.
Lemma other_cond_meaning mt r c :
  good_req r -> requirement_cond mt r = Some c -> eval c = true <-> req_matches (T mt) r.
Proof.
  intros [Hk Hv]. unfold requirement_cond, req_matches. case_bool_decide as H1.
  { intros [= <-]. rewrite decide_False by (by rewrite H1). rewrite decide_True by done.
    destruct (Hv (or_intror H1)). by apply (sem_not_in _ _ Hsem). }
  case_bool_decide as H2.
  { intros [= <-]. rewrite H2. cbn. by apply (sem_exists _ _ Hsem). }
  case_bool_decide as H3; [|done]. intros [= <-]. rewrite H3. cbn. by apply (sem_not_exists _ _ Hsem).
Qed.
Lemma requirement_cond_valid mt r : valid_req r -> req_Operator r <> OpIn -> is_Some (requirement_cond mt r).
Proof.
  intros Hv Hin. unfold requirement_cond. destruct Hv as [H|[H|[H|H]]]; [done|rewrite H; eauto..].
Qed.
Lemma other_conds_meaning mt reqs :
  Forall good_req reqs -> Forall valid_req reqs ->
  forallb eval (other_conds mt reqs) = true <->
  forall r, r ∈ reqs -> req_Operator r <> OpIn -> req_matches (T mt) r.
Proof.
  intros Hg Hv. rewrite forallb_forall. unfold other_conds. split.
  - intros H r Hr Hin. destruct (requirement_cond_valid mt r) as [c Hc]; [by eapply Forall_forall|done|].
    apply (other_cond_meaning mt r c); [by eapply (Forall_forall _ reqs)|done|]. apply H.
    apply list_elem_of_In, list_elem_of_omap. eauto.
  - intros H c Hc. apply list_elem_of_In, list_elem_of_omap in Hc as (r & Hr & Hc).
    apply (other_cond_meaning mt r c); [by eapply (Forall_forall _ reqs)|done|]. apply H; [done|].
    intros Hin. by rewrite requirement_cond_In in Hc.
Qed.
Lemma in_requirements_None reqs : matchExpressionOpInExist reqs = None -> forall r, r ∈ reqs -> req_Operator r <> OpIn.
Proof.
  unfold matchExpressionOpInExist, in_requirements. intros H r Hr Hin.
  assert (Hf : r ∈ filter (fun r => req_Operator r = OpIn) reqs) by by apply list_elem_of_filter.
  destruct (filter _ reqs); [by apply elem_of_nil in Hf|done].
Qed.
Lemma in_requirements_one reqs expr :
  matchExpressionOpInExist reqs = Some expr -> (length (in_requirements reqs) <= 1)%nat ->
  (expr ∈ reqs /\ req_Operator expr = OpIn) /\ forall r, r ∈ reqs -> req_Operator r = OpIn -> r = expr.
Proof.
  unfold matchExpressionOpInExist. intros H Hlen.
  assert (Hall : forall r, r ∈ in_requirements reqs <-> r ∈ reqs /\ req_Operator r = OpIn).
  { intros r. unfold in_requirements. rewrite list_elem_of_filter. naive_solver. }
  destruct (in_requirements reqs) as [|r0 [|]]; [done| |simpl in Hlen; lia]. injection H as ->.
  split; [by apply Hall, list_elem_of_singleton|]. intros r Hr Hin. apply list_elem_of_singleton, Hall. done.
Qed.
(** The values of the only 'In' requirement, with the other requirements. *)
Lemma in_alternatives mt reqs expr :
  Forall good_req reqs -> matchExpressionOpInExist reqs = Some expr -> (length (in_requirements reqs) <= 1)%nat ->
  (exists v, v ∈ req_Values expr /\ eval (tag_cond mt (req_Key expr) v) = true) <->
  forall r, r ∈ reqs -> req_Operator r = OpIn -> req_matches (T mt) r.
Proof.
  intros Hg Hex Hlen. destruct (in_requirements_one _ _ Hex Hlen) as [[Hin Hop] Huniq].
  pose proof (proj1 (Forall_forall _ _) Hg _ Hin) as [Hk Hv]. destruct (Hv (or_introl Hop)) as [_ Hvs].
  assert (Hmt : req_matches (T mt) expr <-> exists v, v ∈ req_Values expr /\ T mt (req_Key expr) v)
    by (unfold req_matches; by rewrite decide_True).
  assert (Hc : forall v, v ∈ req_Values expr -> eval (tag_cond mt (req_Key expr) v) = true <-> T mt (req_Key expr) v).
  { intros v Hin'. apply (sem_tag _ _ Hsem); [done|]. by apply (proj1 (Forall_forall _ _) Hvs _ Hin'). }
  split.
  - intros (v & Hv' & He) r Hr Hro. rewrite (Huniq r Hr Hro). apply Hmt. exists v. split; [done|]. by apply Hc.
  - intros H. apply (H expr) in Hop; [|done]. apply Hmt in Hop as (v & Hv' & HT). exists v. split; [done|]. by apply Hc.
Qed.
End Meaning.

(** *** Merging keeps the meaning *)
Lemma OpIn_NotIn : OpIn <> OpNotIn.
Proof. done. Qed.
Lemma merged_matches T reqs :
  functional_labels T ->
  (forall r, r ∈ mergeSelectorMatchExpression reqs -> req_matches T r) <-> (forall r, r ∈ reqs -> req_matches T r).
Proof.
  intros Hfun. pose proof OpIn_NotIn as Hne. split; intros H r Hr.
  - pose proof (merged_values_spec reqs (req_Operator r) (req_Key r)) as Hm.
    destruct (merged_values _ _ _) as [vs|] eqn:Hvs; [|by destruct (Hm r Hr)]. destruct Hm as [_ Hm].
    specialize (H (mkReq (req_Key r) (req_Operator r) (if bool_decide (req_Operator r = OpNotIn) then sort_strings vs else vs))).
    assert (Hin : mkReq (req_Key r) (req_Operator r) (if bool_decide (req_Operator r = OpNotIn) then sort_strings vs else vs)
                  ∈ mergeSelectorMatchExpression reqs) by (apply elem_of_merged; eauto).
    specialize (H Hin). unfold req_matches in *. cbn [req_Operator req_Key req_Values] in *.
    destruct (decide (req_Operator r = OpIn)) as [Hi|Hi]; [|destruct (decide (req_Operator r = OpNotIn)) as [Hn|Hn]; [|done]].
    + rewrite bool_decide_false in H by congruence. destruct H as (v & Hv & HT). exists v. split; [|done]. by apply (Hm v).
    + rewrite bool_decide_true in H by done. intros v Hv. apply H. rewrite sort_strings_perm. apply Hm. exists r. done.
  - apply elem_of_merged in Hr as (vs & Hvs & Hval). pose proof (merged_values_spec reqs (req_Operator r) (req_Key r)) as Hm.
    rewrite Hvs in Hm. destruct Hm as [(r0 & Hr0 & Hp0) Hm]. pose proof (H r0 Hr0) as H0.
    destruct Hp0 as [Hop Hk]. unfold req_matches in H0 |- *. rewrite Hop, Hk in H0.
    destruct (decide (req_Operator r = OpIn)) as [Hi|Hi]; [|destruct (decide (req_Operator r = OpNotIn)) as [Hn|Hn]; [|done]].
    + destruct H0 as (v & Hv & HT). exists v. split; [|done].
      rewrite Hval, bool_decide_false by congruence. apply Hm. intros r1 Hr1 [Hop1 Hk1]. pose proof (H r1 Hr1) as H1.
      unfold req_matches in H1. rewrite Hop1, Hk1, decide_True in H1 by done. destruct H1 as (v1 & Hv1 & HT1).
      by rewrite (Hfun _ _ _ HT HT1).
    + rewrite Hval, bool_decide_true by done. intros v Hv. rewrite sort_strings_perm in Hv.
      apply Hm in Hv as (r1 & Hr1 & [Hop1 Hk1] & Hv1). pose proof (H r1 Hr1) as H2. unfold req_matches in H2.
      rewrite Hop1, Hk1, decide_False, decide_True in H2 by done. by apply H2.
Qed.
Definition same_slot (r r' : Requirement) : Prop := req_Operator r = req_Operator r' /\ req_Key r = req_Key r'.
Lemma merged_slots reqs : NoDup (map (fun r => (req_Operator r, req_Key r)) (mergeSelectorMatchExpression reqs)).
Proof.
  unfold mergeSelectorMatchExpression, merged_of. set (m := foldl merge_step ∅ reqs).
  pose proof (NoDup_sets_List (dom m)) as Hnd. induction (sets_List (dom m)) as [|op ops IH]; [constructor|].
  apply NoDup_cons in Hnd as [Hop Hnd]. simpl. rewrite map_app. apply NoDup_app. split; [|split; [|by apply IH]].
  - rewrite map_map. cbn [req_Operator req_Key]. apply (NoDup_fmap_2 (pair op)). apply NoDup_sets_List.
  - intros [op' k'] Hin Hin'. rewrite map_map in Hin. apply list_elem_of_fmap in Hin as (k & Heq & _). cbn [req_Operator req_Key] in Heq.
    simplify_eq. apply list_elem_of_fmap in Hin' as (r & Hr & Hr').
    apply list_elem_of_join in Hr' as (l & Hrl & Hl). apply list_elem_of_fmap in Hl as (op2 & -> & Hop2).
    apply list_elem_of_fmap in Hrl as (k2 & -> & _). cbn [req_Operator req_Key] in Hr. by simplify_eq.
Qed.
Definition good_selector (s : LabelSelector) : Prop :=
  good_labels (MatchLabels s) /\ Forall good_req (MatchExpressions s) /\
  Forall (fun r => req_Operator r = OpIn -> req_Values r <> []) (mergeSelectorMatchExpression (MatchExpressions s)).
#[global] Instance good_selector_dec s : Decision (good_selector s).
Proof. unfold good_selector, good_labels, short_labels, good_req, good_key, good_value. apply _. Defined.
Lemma merged_good s : good_selector s -> Forall good_req (mergeSelectorMatchExpression (MatchExpressions s)).
Proof.
  intros (_ & Hg & Hne). apply Forall_forall. intros r Hr. pose proof (proj1 (Forall_forall _ _) Hne r Hr) as Hin. cbv beta in Hin.
  apply elem_of_merged in Hr as (vs & Hvs & Hval). pose proof (merged_values_spec (MatchExpressions s) (req_Operator r) (req_Key r)) as Hm.
  rewrite Hvs in Hm. destruct Hm as [(r0 & Hr0 & [Hop Hk]) Hm].
  pose proof (proj1 (Forall_forall _ _) Hg) as Hall. split; [rewrite <- Hk; by apply Hall|]. intros Hor.
  destruct (Hall r0 Hr0) as [_ Hg0]. rewrite Hop in Hg0. destruct (Hg0 Hor) as [Hne0 Hv0].
  assert (Hsub : forall v, v ∈ vs -> good_value v).
  { intros v Hv. apply Hm in Hv. case_decide as Hi.
    - apply (proj1 (Forall_forall _ _) Hv0). by apply Hv.
    - destruct Hv as (r1 & Hr1 & [Hop1 Hk1] & Hv1). destruct (Hall r1 Hr1) as [_ Hg1]. rewrite Hop1 in Hg1.
      apply (proj1 (Forall_forall _ _) (proj2 (Hg1 Hor)) _ Hv1). }
  destruct Hor as [Hi|Hn].
  - split; [by apply Hin|]. rewrite Hval, bool_decide_false by (by rewrite Hi). by apply Forall_forall.
  - rewrite Hval, bool_decide_true by done. split.
    + intros Hnil. assert (Hp : vs = []) by (apply Permutation_nil; rewrite <- (sort_strings_perm vs); by rewrite Hnil).
      destruct (req_Values r0) as [|v0 l0] eqn:Hr0v; [done|]. assert (Hv00 : v0 ∈ vs).
      { apply Hm. rewrite decide_False by (by rewrite Hn). exists r0. split; [done|]. split; [done|]. rewrite Hr0v. set_solver. }
      subst vs. by apply elem_of_nil in Hv00.
    + apply Forall_forall. intros v Hv. rewrite sort_strings_perm in Hv. by apply Hsub.
Qed.

(** ** What the frames of a selector mean, and how many there are *)
Section Frames.
Context (T : string -> string -> string -> Prop) (eval : condition -> bool) (Hsem : nsx_semantics T eval)
  (eval_ip : list string -> bool).

Definition alts_hold (alts : list (list condition)) : Prop := exists a, a ∈ alts /\ forallb eval a = true.
Lemma alternatives_meaning mt reqs :
  Forall good_req reqs -> Forall valid_req reqs -> (length (in_requirements reqs) <= 1)%nat ->
  alts_hold (alternatives mt reqs) <-> forall r, r ∈ reqs -> req_matches (T mt) r.
Proof.
  intros Hg Hv Hlen. unfold alternatives, alts_hold. pose proof (other_conds_meaning T eval Hsem mt reqs Hg Hv) as Ho.
  destruct (matchExpressionOpInExist reqs) as [expr|] eqn:Hex.
  - pose proof (in_alternatives T eval Hsem mt reqs expr Hg Hex Hlen) as Hin. split.
    + intros (a & (v & -> & Hv0)%list_elem_of_fmap & Ha). cbn [forallb] in Ha. apply andb_true_iff in Ha as [Ha1 Ha2].
      intros r Hr. destruct (decide (req_Operator r = OpIn)) as [Hi|Hi]; [|by apply Ho]. apply (proj1 Hin); eauto.
    + intros H. destruct (proj2 Hin) as (v & Hv0 & He); [auto|].
      exists (tag_cond mt (req_Key expr) v :: other_conds mt reqs). split; [apply list_elem_of_fmap; eauto|].
      cbn [forallb]. rewrite He. apply Ho. auto.
  - pose proof (in_requirements_None _ Hex) as Hno. split.
    + intros (a & ->%list_elem_of_singleton & Ha) r Hr. apply Ho; auto.
    + intros H. exists (other_conds mt reqs). split; [by apply list_elem_of_singleton|]. apply Ho. auto.
Qed.
Lemma mixed_meaning reqs nsReqs :
  Forall good_req reqs -> Forall valid_req reqs -> (length (in_requirements reqs) <= 1)%nat ->
  Forall good_req nsReqs -> Forall valid_req nsReqs -> (length (in_requirements nsReqs) <= 1)%nat ->
  matchExpressionOpInExist reqs = None \/ matchExpressionOpInExist nsReqs = None ->
  alts_hold (mixed_alternatives reqs nsReqs) <->
  (forall r, r ∈ reqs -> req_matches (T "SegmentPort") r) /\ (forall r, r ∈ nsReqs -> req_matches (T "Segment") r).
Proof.
  intros Hg Hv Hlen Hg' Hv' Hlen' Hone.
  rewrite <- (alternatives_meaning "SegmentPort" reqs), <- (alternatives_meaning "Segment" nsReqs) by done.
  unfold alts_hold, mixed_alternatives, alternatives.
  destruct (matchExpressionOpInExist reqs) as [e|], (matchExpressionOpInExist nsReqs) as [e'|];
    [by destruct Hone| | |]; split.
  - intros (a & (v & -> & Hv0)%list_elem_of_fmap & Ha). rewrite forallb_app in Ha. cbn [forallb] in Ha.
    apply andb_true_iff in Ha as [H1 H2]. split; [eexists; split; [apply list_elem_of_fmap; exists v; done|done]|].
    eexists. split; [by apply list_elem_of_singleton|done].
  - intros [(a & (v & -> & Hv0)%list_elem_of_fmap & Ha) (b & ->%list_elem_of_singleton & Hb)].
    eexists. split; [apply list_elem_of_fmap; exists v; done|]. rewrite forallb_app, Hb. exact Ha.
  - intros (a & (v & -> & Hv0)%list_elem_of_fmap & Ha). rewrite forallb_app in Ha. cbn [forallb] in Ha.
    apply andb_true_iff in Ha as [H1 H2]. split; [eexists; split; [by apply list_elem_of_singleton|done]|].
    eexists; split; [apply list_elem_of_fmap; exists v; done|done].
  - intros [(b & ->%list_elem_of_singleton & Hb) (a & (v & -> & Hv0)%list_elem_of_fmap & Ha)].
    eexists. split; [apply list_elem_of_fmap; exists v; done|]. rewrite forallb_app, Hb. exact Ha.
  - intros (a & ->%list_elem_of_singleton & Ha). rewrite forallb_app in Ha. apply andb_true_iff in Ha as [H1 H2].
    split; (eexists; split; [by apply list_elem_of_singleton|done]).
  - intros [(a & ->%list_elem_of_singleton & Ha) (b & ->%list_elem_of_singleton & Hb)].
    eexists; split; [by apply list_elem_of_singleton|]. by rewrite forallb_app, Ha, Hb.
Qed.
Lemma selector_frames_meaning base alts :
  alts <> [] -> existsb (eval_frame eval eval_ip) (selector_frames base alts) = true <->
  forallb eval base = true /\ alts_hold alts.
Proof.
  intros Hne. rewrite existsb_exists. unfold selector_frames, alts_hold. destruct alts as [|a0 alts]; [done|]. split.
  - intros (f & Hf & He). apply list_elem_of_In, list_elem_of_fmap in Hf as (a & -> & Ha). cbn [eval_frame] in He.
    rewrite forallb_app in He. apply andb_true_iff in He as [H1 H2]. eauto.
  - intros (Hb & a & Ha & He). exists (FConds (base ++ a)). split; [apply list_elem_of_In, list_elem_of_fmap; eauto|].
    cbn [eval_frame]. by rewrite forallb_app, Hb.
Qed.
End Frames.

Definition frame_size (f : frame) : nat := match f with FConds l => length l | FIP _ => 0 end.
Lemma other_conds_length mt reqs : (length (other_conds mt reqs) + length (in_requirements reqs) <= length reqs)%nat.
Proof.
  unfold other_conds, in_requirements. induction reqs as [|r reqs IH]; [done|]. rewrite filter_cons. cbn [omap list_omap length].
  case_decide as H; [rewrite requirement_cond_In by done; simpl; lia|]. destruct (requirement_cond mt r); simpl; lia.
Qed.
Lemma in_value_count_one reqs expr :
  matchExpressionOpInExist reqs = Some expr -> (length (in_requirements reqs) <= 1)%nat ->
  in_value_count reqs = Z.of_nat (length (req_Values expr)) /\ length (in_requirements reqs) = 1%nat.
Proof.
  unfold matchExpressionOpInExist, in_value_count. destruct (in_requirements reqs) as [|r [|]]; [done| |simpl; lia].
  intros [= ->] _. simpl. split; [lia|done].
Qed.
Lemma in_value_count_None reqs : matchExpressionOpInExist reqs = None -> in_value_count reqs = 0.
Proof. unfold matchExpressionOpInExist, in_value_count. by destruct (in_requirements reqs). Qed.
Lemma app_str_nonempty s t : s <> "" -> s +:+ t <> "".
Proof. by destruct s. Qed.
Lemma validate_In reqs ml n :
  validateSelectorOpIn reqs ml = Ok n -> (length (in_requirements reqs) <= 1)%nat /\ n = in_value_count reqs /\ n <= 5.
Proof.
  unfold validateSelectorOpIn. case_bool_decide as Hm; [done|]. intros [= <-]. revert Hm.
  unfold MaxMatchExpressionInOp, MaxMatchExpressionInValues. case_bool_decide; [intros Hm; exfalso; revert Hm; by apply app_str_nonempty|].
  case_bool_decide; [intros Hm; exfalso; revert Hm; by apply app_str_nonempty|]. lia.
Qed.
(** The criteria and expressions the limits were checked on. *)
Lemma validate_counts mlc mec n mixed cc te :
  1 <= mlc -> 0 <= mec -> validateSelectorExpressions mlc mec n mixed = Ok (cc, te) ->
  mlc + mec <= (if mixed then MaxMixedCriteriaExpressions else MaxCriteriaExpressions) /\
  cc = (if bool_decide (n <> 0) then n else 1) /\ te = (mlc + mec) * cc.
Proof.
  intros H1 H0. unfold validateSelectorExpressions.
  assert (Ht : (if bool_decide (mec <> 0) then mlc + mec else mlc) = mlc + mec) by (case_bool_decide; lia). rewrite Ht. clear Ht.
  rewrite (bool_decide_true (mlc <> 0)) by lia. cbn [orb].
  destruct mixed; cbn [negb andb]; generalize (bool_decide (n <> 0)) as b; intros b; (case_bool_decide; [done|]);
    destruct b; intros [= <- <-]; (split; [lia|]); split; lia.
Qed.
Lemma sum_list_cons n l : sum_list (n :: l) = (n + sum_list l)%nat.
Proof. done. Qed.
(** Frames of one selector, counted as the limits count them. *)
Definition counted (limit cc te : Z) (fs : list frame) : Prop :=
  Z.of_nat (length fs) = cc /\ Z.of_nat (sum_list (map frame_size fs)) <= te /\
  Forall (fun f => Z.of_nat (frame_size f) <= limit) fs.
Lemma selector_frames_counted base alts (m n : nat) limit cc :
  (length base <= m)%nat -> Forall (fun a => (length a <= n)%nat) alts -> Z.of_nat m + Z.of_nat n <= limit ->
  cc = Z.of_nat (length alts `max` 1) ->
  counted limit cc ((Z.of_nat m + Z.of_nat n) * cc) (selector_frames base alts).
Proof.
  intros Hb Ha Hl ->. unfold counted, selector_frames. destruct alts as [|a0 alts].
  { cbn [length map sum_list sum_list_with foldr frame_size]. split; [done|]. split; [|constructor; [simpl; lia|done]]. simpl. lia. }
  assert (Hlen : (1 <= length (a0 :: alts))%nat) by (simpl; lia). revert Hlen Ha. generalize (a0 :: alts) as as'. clear a0 alts.
  intros as' Hlen Ha. rewrite length_map. split; [lia|].
  replace (Z.of_nat (length as' `max` 1)) with (Z.of_nat (length as')) by lia. clear Hlen. split.
  - induction Ha as [|a as' Ha _ IH]; [simpl; lia|]. cbn [map length]. rewrite sum_list_cons. cbn [frame_size].
    rewrite length_app, Nat2Z.inj_succ, Z.mul_succ_r, !Nat2Z.inj_add. lia.
  - apply Forall_fmap, (Forall_impl _ _ _ Ha). intros a Hla. cbn [frame_size compose]. rewrite length_app. lia.
Qed.
Lemma alternatives_lengths mt reqs :
  (length (in_requirements reqs) <= 1)%nat -> Forall (fun a => (length a <= length reqs)%nat) (alternatives mt reqs).
Proof.
  intros Hlen. pose proof (other_conds_length mt reqs) as Ho. unfold alternatives.
  destruct (matchExpressionOpInExist reqs) as [expr|] eqn:Hex; [|by repeat constructor; lia].
  destruct (in_value_count_one _ _ Hex Hlen) as [_ H1]. apply Forall_fmap, Forall_forall. intros v _. simpl. lia.
Qed.
Lemma alternatives_count mt reqs :
  (length (in_requirements reqs) <= 1)%nat ->
  (if bool_decide (in_value_count reqs <> 0) then in_value_count reqs else 1) = Z.of_nat (length (alternatives mt reqs) `max` 1).
Proof.
  intros Hlen. unfold alternatives. destruct (matchExpressionOpInExist reqs) as [expr|] eqn:Hex.
  - destruct (in_value_count_one _ _ Hex Hlen) as [-> _]. rewrite length_map. case_bool_decide; lia.
  - by rewrite in_value_count_None.
Qed.
Lemma mixed_alternatives_lengths reqs nsReqs :
  (length (in_requirements reqs) <= 1)%nat -> (length (in_requirements nsReqs) <= 1)%nat ->
  Forall (fun a => (length a <= length reqs + length nsReqs)%nat) (mixed_alternatives reqs nsReqs).
Proof.
  intros Hlen Hlen'. pose proof (other_conds_length "SegmentPort" reqs) as Ho. pose proof (other_conds_length "Segment" nsReqs) as Ho'.
  unfold mixed_alternatives. destruct (matchExpressionOpInExist nsReqs) as [expr|] eqn:Hex;
    [|destruct (matchExpressionOpInExist reqs) as [expr|] eqn:Hex2].
  - destruct (in_value_count_one _ _ Hex Hlen') as [_ H1]. apply Forall_fmap, Forall_forall. intros v _. simpl. rewrite length_app. simpl. lia.
  - destruct (in_value_count_one _ _ Hex2 Hlen) as [_ H1]. apply Forall_fmap, Forall_forall. intros v _. simpl. rewrite length_app. simpl. lia.
  - repeat constructor. rewrite length_app. lia.
Qed.
Lemma mixed_alternatives_count reqs nsReqs :
  (length (in_requirements reqs) <= 1)%nat -> (length (in_requirements nsReqs) <= 1)%nat ->
  matchExpressionOpInExist reqs = None \/ matchExpressionOpInExist nsReqs = None ->
  (if bool_decide (in_value_count reqs + in_value_count nsReqs <> 0) then in_value_count reqs + in_value_count nsReqs else 1) =
  Z.of_nat (length (mixed_alternatives reqs nsReqs) `max` 1).
Proof.
  intros Hlen Hlen' Hone. unfold mixed_alternatives.
  destruct (matchExpressionOpInExist nsReqs) as [expr|] eqn:Hex; [|destruct (matchExpressionOpInExist reqs) as [expr|] eqn:Hex2].
  - destruct Hone as [H|]; [|done]. rewrite (in_value_count_None reqs) by done.
    destruct (in_value_count_one _ _ Hex Hlen') as [-> _]. rewrite length_map. case_bool_decide; lia.
  - rewrite (in_value_count_None nsReqs) by done.
    destruct (in_value_count_one _ _ Hex2 Hlen) as [-> _]. rewrite length_map. case_bool_decide; lia.
  - by rewrite !in_value_count_None.
Qed.

(** ** The frames of targets and peers *)
Definition sel_of (pod vm : option LabelSelector) : option (LabelSelector * bool) :=
  match pod with Some s => Some (s, false) | None => (fun s => (s, true)) <$> vm end.
(** What a requirement list was checked for when its frames were made. *)
Definition checked (mt : string) (reqs : list Requirement) : Prop :=
  (alternatives mt reqs <> [] -> Forall valid_req reqs) /\ (length (in_requirements reqs) <= 1)%nat.

Section GroupFacts.
Context (VPCMode : bool) (Cluster nsUID : string).
#[local] Abbreviation updateTarget := (updateTargetExpressions VPCMode Cluster nsUID).
#[local] Abbreviation updatePeer := (updatePeerExpressions VPCMode Cluster nsUID).

Definition target_mt : string := if VPCMode then "VpcSubnetPort" else "SegmentPort".
Definition target_cluster_mt : string := if VPCMode then "VpcSubnetPort" else "Segment".
Definition cluster_cond (mt : string) : condition := tag_cond mt (getScopeCluserTag VPCMode) Cluster.
Definition ns_cond (mt : string) (isVM : bool) : condition := tag_cond mt (getScopeNamespaceUIDTag VPCMode isVM) nsUID.
Definition target_frames (t : SecurityPolicyTarget) : list frame :=
  match sel_of (t_PodSelector t) (t_VMSelector t) with
  | None => [FConds [cluster_cond target_cluster_mt]]
  | Some (sel, isVM) =>
      selector_frames ([cluster_cond target_cluster_mt; ns_cond target_mt isVM] ++ label_conds target_mt (MatchLabels sel))
        (alternatives target_mt (mergeSelectorMatchExpression (MatchExpressions sel)))
  end.
Definition target_limit : Z := if VPCMode then MaxCriteriaExpressions else MaxMixedCriteriaExpressions.

Lemma label_conds_length mt ml : (length (label_conds mt ml) <= size ml)%nat.
Proof.
  unfold label_conds. rewrite length_map. unfold sets_List. rewrite sort_strings_perm.
  pose proof (size_normalized ml) as Hs. rewrite <- size_dom in Hs. exact Hs.
Qed.
(** A plain selector: labels, then the requirements, then the limits. *)
Lemma plain_counted mt base ml reqs n mixed cc te k :
  length base = k -> validateSelectorOpIn reqs ml = Ok n ->
  validateSelectorExpressions (Z.of_nat (size ml) + Z.of_nat k) (Z.of_nat (length reqs)) n mixed = Ok (cc, te) -> (1 <= k)%nat ->
  counted (if mixed then MaxMixedCriteriaExpressions else MaxCriteriaExpressions) cc te
    (selector_frames (base ++ label_conds mt ml) (alternatives mt reqs)).
Proof.
  intros Hb (Hlen & -> & _)%validate_In Hv Hk. apply validate_counts in Hv as (Hle & -> & ->); [|lia..].
  rewrite (alternatives_count mt) by done. rewrite <- Nat2Z.inj_add in Hle |- *.
  apply selector_frames_counted; [|by apply alternatives_lengths|done|done].
  rewrite length_app, Hb. pose proof (label_conds_length mt ml). lia.
Qed.
Lemma plain_step mt c t ml reqs n mixed fs g cc te k :
  let base := c :: from_option (fun t => [t]) [] t in
  validateSelectorOpIn reqs ml = Ok n ->
  updateExpressionsMatchExpression reqs ml (updateExpressionsMatchLabels ml mt (render (fs ++ [FConds base]))) (Some c) t mt
    = Ok g ->
  validateSelectorExpressions (Z.of_nat (size ml) + Z.of_nat k) (Z.of_nat (length reqs)) n mixed = Ok (cc, te) ->
  length base = k ->
  g = render (fs ++ selector_frames (base ++ label_conds mt ml) (alternatives mt reqs)) /\
  counted (if mixed then MaxMixedCriteriaExpressions else MaxCriteriaExpressions) cc te
    (selector_frames (base ++ label_conds mt ml) (alternatives mt reqs)) /\ checked mt reqs.
Proof.
  intros base Hval Hup Hlim Hk. rewrite update_labels_render in Hup by done.
  apply update_exprs_frames in Hup as [Hvalid ->]. split; [done|].
  split; [apply (plain_counted _ _ _ _ n _ _ _ k Hk Hval Hlim); subst base; simpl in Hk; lia|].
  split; [done|by destruct (validate_In _ _ _ Hval)].
Qed.
Lemma target_step t fs cc te g :
  updateTarget t (render fs) = Ok (cc, te, g) ->
  g = render (fs ++ target_frames t) /\
  forall sel isVM, sel_of (t_PodSelector t) (t_VMSelector t) = Some (sel, isVM) ->
    counted target_limit cc te (target_frames t) /\
    checked target_mt (mergeSelectorMatchExpression (MatchExpressions sel)).
Proof.
  unfold updateTargetExpressions, target_frames. destruct t as [vm pod]. cbn [t_PodSelector t_VMSelector].
  rewrite new_frame_render, add_first_cond. destruct pod as [s|], vm as [v|]; [done|intros Hu..];
    [..|injection Hu as <- <- <-; by split].
  all: cbn [fmap option_fmap option_map sel_of] in Hu |- *; rewrite add_and_cond in Hu by done; cbn [app] in Hu;
    destruct (validateSelectorOpIn _ _) as [n|] eqn:Hval; [|done];
    destruct (updateExpressionsMatchExpression _ _ _ _ _ _) as [g1|] eqn:Hup; [|done];
    destruct (validateSelectorExpressions _ _ _ _) as [[cc' te']|] eqn:Hlim; [|done]; injection Hu as <- <- <-;
    destruct (plain_step _ _ (Some _) _ _ _ _ _ _ _ _ 2 Hval Hup Hlim eq_refl) as (-> & Hc & Hch);
    (split; [done|]); intros ? ? [= <- <-]; (split; [|done]);
    replace target_limit with (if negb VPCMode then MaxMixedCriteriaExpressions else MaxCriteriaExpressions)
      by (unfold target_limit; by destruct VPCMode); exact Hc.
Qed.

Definition peer_vpc (groupShared : bool) : bool := VPCMode && negb groupShared.
Definition peer_mt (groupShared : bool) : string := if peer_vpc groupShared then "VpcSubnetPort" else "SegmentPort".
Definition peer_cluster_mt (groupShared onlyNs : bool) : string :=
  if peer_vpc groupShared then "VpcSubnetPort" else if onlyNs then "SegmentPort" else "Segment".
Definition peer_limit (groupShared : bool) : Z :=
  if peer_vpc groupShared then MaxCriteriaExpressions else MaxMixedCriteriaExpressions.
Definition port_cond (mt : string) (isVM : bool) : condition :=
  tag_cond mt (if isVM then getScopeVMInterfaceTag VPCMode else getScopePodTag VPCMode) "".
Definition ip_frames (p : SecurityPolicyPeer) : list frame :=
  match p_IPBlocks p with [] => [] | b => [FIP b] end.
Definition body_frames (groupShared : bool) (p : SecurityPolicyPeer) : list frame :=
  let mt := peer_mt groupShared in
  match sel_of (p_PodSelector p) (p_VMSelector p), p_NamespaceSelector p with
  | None, None => []
  | Some (sel, isVM), None =>
      selector_frames ([cluster_cond (peer_cluster_mt groupShared false); ns_cond mt isVM] ++ label_conds mt (MatchLabels sel))
        (alternatives mt (mergeSelectorMatchExpression (MatchExpressions sel)))
  | Some (sel, isVM), Some nsSel =>
      selector_frames ([cluster_cond (peer_cluster_mt groupShared false); port_cond mt isVM] ++
          label_conds "SegmentPort" (MatchLabels sel) ++ label_conds "Segment" (MatchLabels nsSel))
        (mixed_alternatives (mergeSelectorMatchExpression (MatchExpressions sel))
          (mergeSelectorMatchExpression (MatchExpressions nsSel)))
  | None, Some nsSel =>
      if selector_empty nsSel then [FConds [cluster_cond (peer_cluster_mt groupShared false); cluster_cond "SegmentPort"]]
      else
        selector_frames ([cluster_cond (peer_cluster_mt groupShared true)] ++ label_conds "Segment" (MatchLabels nsSel))
          (alternatives "Segment" (mergeSelectorMatchExpression (MatchExpressions nsSel)))
  end.
Definition peer_frames (groupShared : bool) (p : SecurityPolicyPeer) : list frame := ip_frames p ++ body_frames groupShared p.
(** What the selectors of a peer were checked for. *)
Definition peer_checked (groupShared : bool) (p : SecurityPolicyPeer) : Prop :=
  match sel_of (p_PodSelector p) (p_VMSelector p), p_NamespaceSelector p with
  | None, None => True
  | Some (sel, _), None => checked (peer_mt groupShared) (mergeSelectorMatchExpression (MatchExpressions sel))
  | Some (sel, _), Some nsSel =>
      let reqs := mergeSelectorMatchExpression (MatchExpressions sel) in
      let nsReqs := mergeSelectorMatchExpression (MatchExpressions nsSel) in
      (mixed_alternatives reqs nsReqs <> [] -> Forall valid_req reqs /\ Forall valid_req nsReqs) /\
      (length (in_requirements reqs) <= 1)%nat /\ (length (in_requirements nsReqs) <= 1)%nat /\
      (matchExpressionOpInExist reqs = None \/ matchExpressionOpInExist nsReqs = None)
  | None, Some nsSel =>
      selector_empty nsSel = true \/ checked "Segment" (mergeSelectorMatchExpression (MatchExpressions nsSel))
  end.
Lemma label_conds_empty mt : label_conds mt ∅ = [].
Proof. by vm_compute. Qed.
Lemma ip_step p fs :
  (if bool_decide (p_IPBlocks p = []) then render fs
   else appendOperatorIfNeeded "OR" (render fs) ++ [IPAddressExpression (p_IPBlocks p)]) = render (fs ++ ip_frames p).
Proof.
  unfold ip_frames. destruct (p_IPBlocks p) as [|b bs]; [by rewrite app_nil_r|]. cbn [bool_decide decide_rel].
  rewrite bool_decide_false by done. destruct fs as [|f fs]; [done|]. rewrite render_snoc by done.
  unfold appendOperatorIfNeeded. destruct (render (f :: fs)) eqn:Hr; [by apply render_nil in Hr|].
  by rewrite <- (assoc_L (++)).
Qed.
Lemma mixed_counted base ml nsMl reqs nsReqs n nsN mixed cc te :
  length base = 2%nat -> validateSelectorOpIn reqs ml = Ok n -> validateSelectorOpIn nsReqs nsMl = Ok nsN ->
  matchExpressionOpInExist reqs = None \/ matchExpressionOpInExist nsReqs = None ->
  validateSelectorExpressions (Z.of_nat (size ml) + 2 + Z.of_nat (size nsMl))
    (Z.of_nat (length reqs) + Z.of_nat (length nsReqs)) (n + nsN) mixed = Ok (cc, te) ->
  counted (if mixed then MaxMixedCriteriaExpressions else MaxCriteriaExpressions) cc te
    (selector_frames (base ++ label_conds "SegmentPort" ml ++ label_conds "Segment" nsMl) (mixed_alternatives reqs nsReqs)).
Proof.
  intros Hb (Hlen & -> & _)%validate_In (Hlen' & -> & _)%validate_In Hone Hv.
  apply validate_counts in Hv as (Hle & -> & ->); [|lia..].
  rewrite mixed_alternatives_count by done. change 2 with (Z.of_nat 2) in *. rewrite <- !Nat2Z.inj_add in Hle |- *.
  rewrite Nat2Z.inj_add in Hle |- *.
  apply selector_frames_counted; [|by apply mixed_alternatives_lengths|done|done].
  rewrite !length_app, Hb. pose proof (label_conds_length "SegmentPort" ml). pose proof (label_conds_length "Segment" nsMl). lia.
Qed.
Lemma counted_none limit cc te : 0 = cc -> 0 <= te -> counted limit cc te [].
Proof. intros <- ?. split; [done|]. split; [done|constructor]. Qed.
Lemma mixed_step sel nsSel groupShared c t fs g cc te :
  peer_mixed VPCMode groupShared sel nsSel (Some c) (Some t) (render (fs ++ [FConds [c; t]])) = Ok (cc, te, g) ->
  let reqs := mergeSelectorMatchExpression (MatchExpressions sel) in
  let nsReqs := mergeSelectorMatchExpression (MatchExpressions nsSel) in
  let fs' := selector_frames ([c; t] ++ label_conds "SegmentPort" (MatchLabels sel) ++ label_conds "Segment" (MatchLabels nsSel))
    (mixed_alternatives reqs nsReqs) in
  g = render (fs ++ fs') /\
  counted (if negb (VPCMode && negb groupShared) then MaxMixedCriteriaExpressions else MaxCriteriaExpressions) cc te fs' /\
  (mixed_alternatives reqs nsReqs <> [] -> Forall valid_req reqs /\ Forall valid_req nsReqs) /\
  (length (in_requirements reqs) <= 1)%nat /\ (length (in_requirements nsReqs) <= 1)%nat /\
  (matchExpressionOpInExist reqs = None \/ matchExpressionOpInExist nsReqs = None).
Proof.
  intros Hu reqs nsReqs fs'. unfold peer_mixed, peer_limits in Hu. fold reqs nsReqs in Hu.
  destruct (validateNsSelectorOpNotIn _); [done|].
  destruct (validateSelectorOpIn reqs _) as [n|] eqn:Hval; [|done].
  destruct (validateSelectorOpIn nsReqs _) as [n'|] eqn:Hval'; [|done].
  destruct (bool_decide (0 < n) && bool_decide (0 < n')); [done|]. rewrite !update_labels_render in Hu by done.
  destruct (updateMixedExpressionsMatchExpression _ _ _ _ _ _ _) as [g1|] eqn:Hup; [|done].
  rewrite <- (assoc_L (++)) in Hup. apply (update_mixed_frames _ _ _ _ _ (Some t)) in Hup as (Hv & Hone & ->).
  destruct (validateSelectorExpressions _ _ _ _) as [[cc' te']|] eqn:Hlim; [|done]. injection Hu as <- <- <-.
  split; [done|]. split; [by apply (mixed_counted _ _ _ _ _ n n')|].
  destruct (validate_In _ _ _ Hval) as [? _]. destruct (validate_In _ _ _ Hval') as [? _]. done.
Qed.
Lemma ns_empty_step groupShared c c' mt fs g cc te :
  peer_plain VPCMode groupShared true (ClusterTagCount + 1) None (Some c) None mt (render (fs ++ [FConds [c; c']])) = Ok (cc, te, g) ->
  g = render (fs ++ [FConds [c; c']]) /\
  counted (if negb (VPCMode && negb groupShared) then MaxMixedCriteriaExpressions else MaxCriteriaExpressions) cc te [FConds [c; c']].
Proof.
  unfold peer_plain, peer_limits. rewrite update_labels_render by done. rewrite label_conds_empty, app_nil_r.
  destruct (validateSelectorExpressions _ _ _ _) as [[cc' te']|] eqn:Hlim; [|done]. intros [= <- <- <-]. split; [done|].
  apply validate_counts in Hlim as (Hle & -> & ->); [|by vm_compute..]. split; [done|]. split; [done|].
  constructor; [exact Hle|constructor].
Qed.
Lemma plain_peer_step groupShared hasNs k s c t mt fs g cc te :
  let base := c :: from_option (fun t => [t]) [] t in
  peer_plain VPCMode groupShared hasNs (Z.of_nat (size (MatchLabels s)) + Z.of_nat k) (Some s) (Some c) t mt
    (render (fs ++ [FConds base])) = Ok (cc, te, g) -> length base = k ->
  let reqs := mergeSelectorMatchExpression (MatchExpressions s) in
  let fs' := selector_frames (base ++ label_conds mt (MatchLabels s)) (alternatives mt reqs) in
  g = render (fs ++ fs') /\
  counted (if negb (VPCMode && negb groupShared) then MaxMixedCriteriaExpressions else MaxCriteriaExpressions) cc te fs' /\
  checked mt reqs.
Proof.
  intros base Hu Hk reqs fs'. unfold peer_plain, peer_limits in Hu. fold reqs in Hu.
  destruct (if hasNs then _ else None); [done|].
  destruct (validateSelectorOpIn reqs _) as [n|] eqn:Hval; [|done].
  destruct (updateExpressionsMatchExpression _ _ _ _ _ _) as [g1|] eqn:Hup; [|done].
  destruct (validateSelectorExpressions _ _ _ _) as [[cc' te']|] eqn:Hlim; [|done]. injection Hu as <- <- <-.
  by apply (plain_step _ _ _ _ _ n _ _ _ _ _ k).
Qed.
Lemma peer_step groupShared p fs cc te g :
  updatePeer p (render fs) groupShared = Ok (cc, te, g) ->
  g = render (fs ++ peer_frames groupShared p) /\
  counted (peer_limit groupShared) cc te (body_frames groupShared p) /\ peer_checked groupShared p.
Proof.
  unfold updatePeerExpressions. rewrite ip_step. unfold peer_frames, body_frames, peer_checked. rewrite (assoc_L (++)).
  generalize (fs ++ ip_frames p) as fs'. intros fs'. destruct p as [vm pod ns blocks].
  cbn [p_PodSelector p_VMSelector p_NamespaceSelector]. rewrite new_frame_render, add_first_cond.
  replace (peer_limit groupShared) with (if negb (VPCMode && negb groupShared) then MaxMixedCriteriaExpressions else MaxCriteriaExpressions)
    by (unfold peer_limit, peer_vpc; by destruct (VPCMode && negb groupShared)).
  destruct pod as [s|], vm as [v|], ns as [n|]; [done|done|intros Hu..]; cbn [fmap option_fmap option_map sel_of] in Hu |- *;
    rewrite ?add_and_cond in Hu by done.
  - by apply mixed_step in Hu.
  - by apply (plain_peer_step _ _ 2 _ _ (Some _)) in Hu.
  - by apply mixed_step in Hu.
  - by apply (plain_peer_step _ _ 2 _ _ (Some _)) in Hu.
  - destruct (selector_empty n) eqn:He; cbn [negb] in Hu.
    + rewrite add_first_cond, add_and_cond in Hu by done. apply ns_empty_step in Hu as [-> Hc]. split; [done|]. split; [done|by left].
    + rewrite add_first_cond in Hu. apply (plain_peer_step _ _ 1 _ _ None) in Hu as (-> & Hc & Hch); [|done]. split; [done|]. split; [done|by right].
  - injection Hu as <- <- <-. split; [by rewrite app_nil_r|]. split; [by apply counted_none|done].
Qed.
End GroupFacts.

(** ** Whole groups *)
Definition is_conds (f : frame) : bool := match f with FConds _ => true | FIP _ => false end.
Definition cond_frames (fs : list frame) : list frame := filter (fun f => is_conds f = true) fs.
Lemma counted_app limit c1 t1 c2 t2 f1 f2 :
  counted limit c1 t1 f1 -> counted limit c2 t2 f2 -> counted limit (c1 + c2) (t1 + t2) (f1 ++ f2).
Proof.
  intros (H1 & H2 & H3) (H4 & H5 & H6). split; [rewrite length_app; lia|]. split; [|by apply Forall_app].
  rewrite map_app. assert (Hs : forall a b, sum_list (a ++ b) = (sum_list a + sum_list b)%nat).
  { intros a b. induction a as [|x a IH]; [done|]. cbn [app]. rewrite !sum_list_cons. lia. }
  rewrite Hs. lia.
Qed.
Lemma cond_frames_selector base alts : cond_frames (selector_frames base alts) = selector_frames base alts.
Proof.
  unfold cond_frames. apply filter_all. unfold selector_frames. destruct alts as [|a alts]; [by repeat constructor|].
  by apply Forall_fmap, Forall_forall.
Qed.
(** A loop over elements that add frames: the frames of each, and the sums. *)
Lemma group_loop {A} (step : A -> list gexpr -> result goerr (Z * Z * list gexpr)) (frames cnt : A -> list frame)
    (limit : Z) (Q : A -> Prop) :
  (forall a fs cc te g, step a (render fs) = Ok (cc, te, g) ->
     g = render (fs ++ frames a) /\ counted limit cc te (cnt a) /\ Q a) ->
  forall l cc0 te0 fs cc te g,
  range_result (fun st a => match step a st.2 with
    | Err e => Err e
    | Ok (c, t, g) => Ok (st.1.1 + c, st.1.2 + t, g)
    end) (cc0, te0, render fs) l = Ok (cc, te, g) ->
  g = render (fs ++ mjoin (map frames l)) /\
  counted limit (cc - cc0) (te - te0) (mjoin (map cnt l)) /\ Forall Q l.
Proof.
  intros Hstep l. induction l as [|a l IH]; intros cc0 te0 fs cc te g H.
  - injection H as <- <- <-. split; [by rewrite app_nil_r|]. rewrite !Z.sub_diag. split; [by apply counted_none|done].
  - cbn [range_result] in H. destruct (step a (render fs)) as [[[c t] g1]|] eqn:Hs; [|simpl in H; by rewrite Hs in H].
    simpl in H. rewrite Hs in H. apply Hstep in Hs as (-> & Hc & Hq). apply IH in H as (-> & Hc' & Hq').
    split; [by rewrite <- (assoc_L (++))|]. split; [|by constructor].
    replace (cc - cc0) with (c + (cc - (cc0 + c))) by lia. replace (te - te0) with (t + (te - (te0 + t))) by lia.
    by apply counted_app.
Qed.
Lemma cond_frames_join {A} (frames : A -> list frame) l :
  cond_frames (mjoin (map frames l)) = mjoin (map (fun a => cond_frames (frames a)) l).
Proof. induction l as [|a l IH]; [done|]. unfold cond_frames in *. cbn [map mjoin list_join]. rewrite filter_app. f_equal. exact IH. Qed.
Lemma check_totals_None m1 m2 cc te : check_totals m1 m2 cc te = None -> cc <= MaxCriteria /\ te <= MaxTotalCriteriaExpressions.
Proof. unfold check_totals. case_bool_decide; [done|]. case_bool_decide; [done|]. lia. Qed.

Section GroupTheorems.
Context (VPCMode : bool) (Cluster nsUID : string).

Definition has_selector (t : SecurityPolicyTarget) : Prop := is_Some (sel_of (t_PodSelector t) (t_VMSelector t)).
Definition target_checked (t : SecurityPolicyTarget) : Prop :=
  forall sel isVM, sel_of (t_PodSelector t) (t_VMSelector t) = Some (sel, isVM) ->
    checked (target_mt VPCMode) (mergeSelectorMatchExpression (MatchExpressions sel)).
(** What the limits of NSX mean for the frames of a group. *)
Definition within_limits (limit : Z) (fs : list frame) : Prop :=
  exists cc te, cc <= MaxCriteria /\ te <= MaxTotalCriteriaExpressions /\ counted limit cc te (cond_frames fs).
Lemma target_frames_conds t : cond_frames (target_frames VPCMode Cluster nsUID t) = target_frames VPCMode Cluster nsUID t.
Proof. unfold target_frames. destruct (sel_of _ _) as [[sel isVM]|]; [apply cond_frames_selector|done]. Qed.
#[global] Instance has_selector_dec t : Decision (has_selector t).
Proof. unfold has_selector. apply _. Defined.
(** The frames of a target that are counted: those of its selector. *)
Definition counted_frames (t : SecurityPolicyTarget) : list frame :=
  if decide (has_selector t) then target_frames VPCMode Cluster nsUID t else [].
Lemma counted_frames_join targets :
  mjoin (map counted_frames targets) = mjoin (map (target_frames VPCMode Cluster nsUID) (filter has_selector targets)).
Proof.
  induction targets as [|t ts IH]; [done|]. cbn [map mjoin list_join]. rewrite filter_cons. unfold counted_frames at 1.
  case_decide; cbn [map mjoin list_join app]; [f_equal|]; exact IH.
Qed.
Lemma targets_steps t fs cc te g :
  updateTargetExpressions VPCMode Cluster nsUID t (render fs) = Ok (cc, te, g) ->
  g = render (fs ++ target_frames VPCMode Cluster nsUID t) /\
  counted (target_limit VPCMode) cc te (counted_frames t) /\ target_checked t.
Proof.
  intros Hu. assert (Hbare : ~ has_selector t -> cc = 0 /\ te = 0).
  { unfold has_selector. revert Hu. unfold updateTargetExpressions. destruct t as [vm pod]. cbn [t_PodSelector t_VMSelector].
    destruct pod, vm; cbn [sel_of]; [done|intros _ []; eauto..|by intros [= <- <- _] _]. }
  apply target_step in Hu as [-> H']. split; [done|]. unfold counted_frames. case_decide as Hs.
  - destruct Hs as [[sel isVM] Hsel]. destruct (H' sel isVM Hsel) as [Hcount Hch]. split; [done|].
    intros sel' isVM' Hsel'. rewrite Hsel in Hsel'. by injection Hsel' as <- <-.
  - destruct (Hbare Hs) as [-> ->]. split; [by apply counted_none|]. intros sel isVM Hsel. destruct Hs. by exists (sel, isVM).
Qed.
Lemma targets_render m1 m2 targets g :
  targets_expression VPCMode Cluster nsUID m1 m2 targets = Ok g ->
  g = render (mjoin (map (target_frames VPCMode Cluster nsUID) targets)) /\
  within_limits (target_limit VPCMode) (mjoin (map (target_frames VPCMode Cluster nsUID) (filter has_selector targets))) /\
  Forall target_checked targets.
Proof.
  unfold targets_expression, targets_loop. destruct (range_result _ _ _) as [[[cc te] g']|] eqn:Hl; [|done].
  destruct (check_totals m1 m2 cc te) eqn:Ht; [done|]. intros [= <-]. apply check_totals_None in Ht as [Hc Ht].
  apply (group_loop (updateTargetExpressions VPCMode Cluster nsUID) _ _ _ _ targets_steps targets 0 0 []) in Hl as (-> & Hcount & Hq).
  split; [done|]. rewrite !Z.sub_0_r, counted_frames_join in Hcount. split; [|done]. exists cc, te. split; [done|]. split; [done|].
  rewrite cond_frames_join. by setoid_rewrite target_frames_conds.
Qed.
Lemma body_frames_conds groupShared p :
  cond_frames (peer_frames VPCMode Cluster nsUID groupShared p) = body_frames VPCMode Cluster nsUID groupShared p.
Proof.
  unfold peer_frames, cond_frames. rewrite filter_app.
  assert (Hip : filter (fun f => is_conds f = true) (ip_frames p) = []) by (unfold ip_frames; by destruct (p_IPBlocks p)).
  rewrite Hip. cbn [app]. unfold body_frames.
  destruct (sel_of _ _) as [[sel isVM]|], (p_NamespaceSelector p) as [n|]; [apply cond_frames_selector..| |done].
  destruct (selector_empty n); [done|apply cond_frames_selector].
Qed.
Lemma peers_steps groupShared p fs cc te g :
  updatePeerExpressions VPCMode Cluster nsUID p (render fs) groupShared = Ok (cc, te, g) ->
  g = render (fs ++ peer_frames VPCMode Cluster nsUID groupShared p) /\
  counted (peer_limit VPCMode groupShared) cc te (cond_frames (peer_frames VPCMode Cluster nsUID groupShared p)) /\
  peer_checked VPCMode groupShared p.
Proof. intros Hu. apply peer_step in Hu as (-> & Hcount & Hch). split; [done|]. by rewrite body_frames_conds. Qed.
Lemma peers_render m1 m2 peers groupShared g :
  peers_expression VPCMode Cluster nsUID m1 m2 peers groupShared = Ok g ->
  let fs := mjoin (map (peer_frames VPCMode Cluster nsUID groupShared) peers) in
  g = render fs /\ within_limits (peer_limit VPCMode groupShared) fs /\ Forall (peer_checked VPCMode groupShared) peers.
Proof.
  unfold peers_expression, peers_loop. destruct (range_result _ _ _) as [[[cc te] g']|] eqn:Hl; [|done].
  destruct (check_totals m1 m2 cc te) eqn:Ht; [done|]. intros [= <-]. apply check_totals_None in Ht as [Hc Ht].
  apply (group_loop (fun p g => updatePeerExpressions VPCMode Cluster nsUID p g groupShared) _ _ _ _
    (peers_steps groupShared) peers 0 0 []) in Hl as (-> & Hcount & Hq).
  split; [done|]. rewrite !Z.sub_0_r in Hcount. split; [|done]. exists cc, te. by rewrite cond_frames_join.
Qed.

(** *** Meaning *)
Context (T : string -> string -> string -> Prop) (eval : condition -> bool) (Hsem : nsx_semantics T eval)
  (Hfun : forall mt, functional_labels (T mt)) (eval_ip : list string -> bool)
  (HCluster : Cluster <> "") (HnsUID : nsUID <> "").

Lemma scope_good_cluster : good_key (getScopeCluserTag VPCMode).
Proof. by destruct VPCMode. Qed.
Lemma scope_good_ns isVM : good_key (getScopeNamespaceUIDTag VPCMode isVM).
Proof. by destruct VPCMode, isVM. Qed.
Lemma cluster_cond_meaning mt : eval (cluster_cond VPCMode Cluster mt) = true <-> T mt (getScopeCluserTag VPCMode) Cluster.
Proof. apply (sem_tag _ _ Hsem); [apply scope_good_cluster|done]. Qed.
Lemma ns_cond_meaning mt isVM :
  eval (ns_cond VPCMode nsUID mt isVM) = true <-> T mt (getScopeNamespaceUIDTag VPCMode isVM) nsUID.
Proof. apply (sem_tag _ _ Hsem); [apply scope_good_ns|done]. Qed.
Lemma port_cond_meaning mt isVM :
  eval (port_cond VPCMode mt isVM) = true <->
  exists v, T mt (if isVM then getScopeVMInterfaceTag VPCMode else getScopePodTag VPCMode) v.
Proof. apply (sem_exists _ _ Hsem). by destruct VPCMode, isVM. Qed.
Lemma alternatives_nonempty s mt :
  good_selector s -> alternatives mt (mergeSelectorMatchExpression (MatchExpressions s)) <> [].
Proof.
  intros (_ & _ & Hne). unfold alternatives. destruct (matchExpressionOpInExist _) as [expr|] eqn:Hex; [|done].
  assert (Hin : expr ∈ in_requirements (mergeSelectorMatchExpression (MatchExpressions s))).
  { unfold matchExpressionOpInExist in Hex. destruct (in_requirements _); [done|]. injection Hex as ->. apply list_elem_of_here. }
  unfold in_requirements in Hin. apply list_elem_of_filter in Hin as [Hop Hin]. pose proof (proj1 (Forall_forall _ _) Hne expr Hin Hop) as Hv.
  by destruct (req_Values expr).
Qed.
(** A selector whose labels and merged requirements hold. *)
Lemma selector_meaning mt s :
  good_selector s -> checked mt (mergeSelectorMatchExpression (MatchExpressions s)) ->
  forallb eval (label_conds mt (MatchLabels s)) = true /\
  alts_hold eval (alternatives mt (mergeSelectorMatchExpression (MatchExpressions s))) <->
  selector_matches (T mt) s.
Proof.
  intros Hg [Hv Hlen]. unfold selector_matches. rewrite <- (merged_matches (T mt) (MatchExpressions s)) by apply Hfun.
  rewrite (label_conds_meaning T eval Hsem) by apply Hg.
  rewrite (alternatives_meaning T eval Hsem); [done|by apply merged_good|by apply Hv, alternatives_nonempty|done].
Qed.

(** The members a target selects, on the tags of the ports and segments. *)
Definition target_matches (t : SecurityPolicyTarget) : Prop :=
  match sel_of (t_PodSelector t) (t_VMSelector t) with
  | None => False
  | Some (sel, isVM) =>
      T (target_cluster_mt VPCMode) (getScopeCluserTag VPCMode) Cluster /\
      T (target_mt VPCMode) (getScopeNamespaceUIDTag VPCMode isVM) nsUID /\
      selector_matches (T (target_mt VPCMode)) sel
  end.
Definition good_target (t : SecurityPolicyTarget) : Prop :=
  match sel_of (t_PodSelector t) (t_VMSelector t) with None => False | Some (sel, _) => good_selector sel end.
Definition peer_matches (groupShared : bool) (p : SecurityPolicyPeer) : Prop :=
  (p_IPBlocks p <> [] /\ eval_ip (p_IPBlocks p) = true) \/
  match sel_of (p_PodSelector p) (p_VMSelector p), p_NamespaceSelector p with
  | None, None => False
  | Some (sel, isVM), None =>
      T (peer_cluster_mt VPCMode groupShared false) (getScopeCluserTag VPCMode) Cluster /\
      T (peer_mt VPCMode groupShared) (getScopeNamespaceUIDTag VPCMode isVM) nsUID /\
      selector_matches (T (peer_mt VPCMode groupShared)) sel
  | Some (sel, isVM), Some nsSel =>
      T (peer_cluster_mt VPCMode groupShared false) (getScopeCluserTag VPCMode) Cluster /\
      (exists v, T (peer_mt VPCMode groupShared) (if isVM then getScopeVMInterfaceTag VPCMode else getScopePodTag VPCMode) v) /\
      selector_matches (T "SegmentPort") sel /\ selector_matches (T "Segment") nsSel
  | None, Some nsSel =>
      if selector_empty nsSel then
        T (peer_cluster_mt VPCMode groupShared false) (getScopeCluserTag VPCMode) Cluster /\
        T "SegmentPort" (getScopeCluserTag VPCMode) Cluster
      else T (peer_cluster_mt VPCMode groupShared true) (getScopeCluserTag VPCMode) Cluster /\ selector_matches (T "Segment") nsSel
  end.
Definition good_peer (p : SecurityPolicyPeer) : Prop :=
  (forall sel isVM, sel_of (p_PodSelector p) (p_VMSelector p) = Some (sel, isVM) -> good_selector sel) /\
  (forall nsSel, p_NamespaceSelector p = Some nsSel -> good_selector nsSel).

Lemma selector_frames_ok base alts : base <> [] -> Forall frame_ok (selector_frames base alts).
Proof.
  intros Hb. unfold selector_frames. destruct alts as [|a alts]; [by repeat constructor|].
  apply Forall_fmap, Forall_forall. intros l _. simpl. by destruct base.
Qed.
Lemma target_frames_ok t : Forall frame_ok (target_frames VPCMode Cluster nsUID t).
Proof. unfold target_frames. destruct (sel_of _ _) as [[sel isVM]|]; [by apply selector_frames_ok|by repeat constructor]. Qed.
Lemma peer_frames_ok groupShared p : Forall frame_ok (peer_frames VPCMode Cluster nsUID groupShared p).
Proof.
  unfold peer_frames. apply Forall_app. split; [unfold ip_frames; destruct (p_IPBlocks p); by repeat constructor|].
  unfold body_frames. destruct (sel_of _ _) as [[sel isVM]|], (p_NamespaceSelector p) as [n|]; [by apply selector_frames_ok..| |done].
  destruct (selector_empty n); [by repeat constructor|by apply selector_frames_ok].
Qed.
#[local] Abbreviation frames_hold := (existsb (eval_frame eval eval_ip)).
(** The frames of a selector after the conditions [base]. *)
Lemma plain_frames_meaning mt base s :
  good_selector s -> checked mt (mergeSelectorMatchExpression (MatchExpressions s)) ->
  frames_hold (selector_frames (base ++ label_conds mt (MatchLabels s))
    (alternatives mt (mergeSelectorMatchExpression (MatchExpressions s)))) = true <->
  forallb eval base = true /\ selector_matches (T mt) s.
Proof.
  intros Hg Hc. rewrite selector_frames_meaning by by apply alternatives_nonempty.
  rewrite forallb_app, andb_true_iff, <- (selector_meaning mt s) by done. tauto.
Qed.
Lemma target_frames_meaning t :
  good_target t -> target_checked t -> frames_hold (target_frames VPCMode Cluster nsUID t) = true <-> target_matches t.
Proof.
  unfold good_target, target_checked, target_frames, target_matches. destruct (sel_of _ _) as [[sel isVM]|]; [|done].
  intros Hg Hc. rewrite plain_frames_meaning by eauto. cbn [forallb]. rewrite !andb_true_iff, cluster_cond_meaning, ns_cond_meaning by done.
  tauto.
Qed.
Lemma selector_labels_meaning mt s :
  good_selector s -> forallb eval (label_conds mt (MatchLabels s)) = true /\
  (forall r, r ∈ mergeSelectorMatchExpression (MatchExpressions s) -> req_matches (T mt) r) <-> selector_matches (T mt) s.
Proof.
  intros Hg. unfold selector_matches. rewrite (merged_matches (T mt) (MatchExpressions s)) by apply Hfun.
  by rewrite (label_conds_meaning T eval Hsem) by apply Hg.
Qed.
Lemma mixed_nonempty s n :
  good_selector s -> good_selector n ->
  mixed_alternatives (mergeSelectorMatchExpression (MatchExpressions s)) (mergeSelectorMatchExpression (MatchExpressions n)) <> [].
Proof.
  intros Hs Hn. pose proof (alternatives_nonempty s "SegmentPort" Hs) as H1. pose proof (alternatives_nonempty n "Segment" Hn) as H2.
  unfold alternatives in *. unfold mixed_alternatives. destruct (matchExpressionOpInExist (mergeSelectorMatchExpression (MatchExpressions n))) as [e|].
  - by destruct (req_Values e).
  - destruct (matchExpressionOpInExist _) as [e|]; [|done]. by destruct (req_Values e).
Qed.
Lemma body_frames_meaning groupShared p :
  good_peer p -> peer_checked VPCMode groupShared p ->
  frames_hold (body_frames VPCMode Cluster nsUID groupShared p) = true <->
  match sel_of (p_PodSelector p) (p_VMSelector p), p_NamespaceSelector p with
  | None, None => False
  | _, _ => peer_matches groupShared (mkPeer (p_VMSelector p) (p_PodSelector p) (p_NamespaceSelector p) [])
  end.
Proof.
  unfold good_peer, peer_checked, body_frames, peer_matches. cbn [p_IPBlocks p_PodSelector p_VMSelector p_NamespaceSelector].
  destruct (sel_of _ _) as [[sel isVM]|], (p_NamespaceSelector p) as [n|]; intros [Hg Hgn] Hc; [| | |done].
  - specialize (Hg _ _ eq_refl). specialize (Hgn _ eq_refl). destruct Hc as (Hv & Hl & Hl' & Hone).
    pose proof (mixed_nonempty sel n Hg Hgn) as Hne. destruct (Hv Hne) as [Hv1 Hv2].
    rewrite selector_frames_meaning by done. rewrite (mixed_meaning T eval Hsem) by (try apply merged_good; done).
    rewrite <- (selector_labels_meaning "SegmentPort" sel), <- (selector_labels_meaning "Segment" n) by done.
    rewrite !forallb_app, !andb_true_iff. cbn [forallb]. rewrite !andb_true_iff, cluster_cond_meaning, port_cond_meaning by done.
    clear. naive_solver.
  - specialize (Hg _ _ eq_refl). rewrite plain_frames_meaning by done. cbn [forallb].
    rewrite !andb_true_iff, cluster_cond_meaning, ns_cond_meaning by done. clear. naive_solver.
  - specialize (Hgn _ eq_refl). destruct (selector_empty n); [|destruct Hc as [|Hc]; [done|]].
    + cbn [existsb eval_frame forallb]. rewrite orb_false_r, !andb_true_iff, !cluster_cond_meaning by done. clear. naive_solver.
    + rewrite plain_frames_meaning by done. cbn [forallb]. rewrite !andb_true_iff, cluster_cond_meaning by done. clear. naive_solver.
Qed.
Lemma frames_hold_join {A} (frames : A -> list frame) l :
  frames_hold (mjoin (map frames l)) = true <-> exists a, a ∈ l /\ frames_hold (frames a) = true.
Proof.
  induction l as [|a l IH]; simpl; [split; [done|by intros (? & ?%elem_of_nil & _)]|].
  rewrite existsb_app, orb_true_iff, IH. set_solver.
Qed.
Lemma join_frames_ok {A} (frames : A -> list frame) l :
  (forall a, Forall frame_ok (frames a)) -> Forall frame_ok (mjoin (map frames l)).
Proof. intros H. induction l; simpl; [done|]. by apply Forall_app. Qed.
Lemma body_iff groupShared p :
  peer_matches groupShared p <->
  (p_IPBlocks p <> [] /\ eval_ip (p_IPBlocks p) = true) \/
  match sel_of (p_PodSelector p) (p_VMSelector p), p_NamespaceSelector p with
  | None, None => False
  | _, _ => peer_matches groupShared (mkPeer (p_VMSelector p) (p_PodSelector p) (p_NamespaceSelector p) [])
  end.
Proof.
  unfold peer_matches. cbn [p_IPBlocks p_PodSelector p_VMSelector p_NamespaceSelector].
  destruct (sel_of _ _) as [[sel isVM]|], (p_NamespaceSelector p) as [n|]; naive_solver.
Qed.
Lemma peer_frames_meaning groupShared p :
  good_peer p -> peer_checked VPCMode groupShared p ->
  frames_hold (peer_frames VPCMode Cluster nsUID groupShared p) = true <-> peer_matches groupShared p.
Proof.
  intros Hg Hc. rewrite body_iff, <- body_frames_meaning by done. unfold peer_frames.
  rewrite existsb_app, orb_true_iff. f_equiv. unfold ip_frames. destruct (p_IPBlocks p); simpl; [naive_solver|].
  rewrite orb_false_r. naive_solver.
Qed.

(** C3. The group built for the targets of a policy contains exactly the ports
    the targets select: when every target has one selector within the limits
    of NSX tags, whose merged 'In' requirements keep a value, and the code
    accepts the targets, then the expression is well formed and holds of an
    object exactly when some target selects it, i.e. the object carries the
    cluster's tag, the tag of the policy's Namespace and labels that satisfy
    the selector with the Kubernetes meaning of its requirements. *)
Theorem targets_expression_meaning m1 m2 targets g :
  targets <> [] -> Forall good_target targets ->
  targets_expression VPCMode Cluster nsUID m1 m2 targets = Ok g ->
  exists b, eval_group eval eval_ip g = Some b /\ (b = true <-> exists t, t ∈ targets /\ target_matches t).
Proof.
  intros Hne Hgood Hok. apply targets_render in Hok as [-> H].
  destruct H as [_ Hch].
  rewrite eval_group_render; [|destruct targets as [|t targets]; [done|]|by apply join_frames_ok, target_frames_ok].
  - eexists. split; [done|]. rewrite frames_hold_join.
    split; intros (t & Ht & Hm); exists t; (split; [done|]); apply target_frames_meaning; try done;
      by apply (Forall_forall _ targets).
  - simpl. unfold target_frames, selector_frames. destruct (sel_of _ _) as [[sel isVM]|]; [|done].
    by destruct (alternatives _ _).
Qed.
(** C4. The group built for the peers of a rule contains exactly what the
    peers select: the addresses of their IP blocks, and the objects whose
    cluster, Namespace and labels a Pod, VM or Namespace selector, alone or
    combined, matches, on the member types of VPC and shared groups. It is
    stated for expressions that are not empty and for peers whose selectors
    are as Kubernetes admits them (keys without '|', values without commas),
    within the limits of NSX tags, without empty label values, and such that
    the merged 'In' requirements keep a value: of labels with empty values and
    of requirements without a common value the code matches more
    ([empty_value_is_exists], [empty_intersection_selects_all]). *)
Theorem peers_expression_meaning m1 m2 peers groupShared g :
  Forall good_peer peers -> g <> [] ->
  peers_expression VPCMode Cluster nsUID m1 m2 peers groupShared = Ok g ->
  exists b, eval_group eval eval_ip g = Some b /\ (b = true <-> exists p, p ∈ peers /\ peer_matches groupShared p).
Proof.
  intros Hgood Hne Hok. apply peers_render in Hok as (-> & _ & Hch). rewrite render_nil in Hne.
  rewrite eval_group_render; [|done|by apply join_frames_ok, peer_frames_ok]. eexists. split; [done|].
  rewrite frames_hold_join.
  split; intros (p & Hp & Hm); exists p; (split; [done|]); apply peer_frames_meaning; try done; by apply (Forall_forall _ peers).
Qed.
End GroupTheorems.

(** C17. The limits of NSX hold for every group expression the code accepts: it
    is a list of frames joined by OR, each a list of conditions joined by AND
    or a set of addresses; the selectors give at most 5 criteria (frames of
    conditions) and 35 conditions in all, each criterion at most 5 conditions,
    or 15 where criteria may mix member types. A target without a selector
    adds a criterion of one condition that the code does not count: with n
    such targets the group has n criteria more. Peers are all counted. *)
Theorem group_expression_limits VPCMode Cluster nsUID m1 m2 g :
  let bounded limit fs := (length (cond_frames fs) <= 5)%nat /\
    (sum_list (map frame_size (cond_frames fs)) <= 35)%nat /\ Forall (fun f => Z.of_nat (frame_size f) <= limit) (cond_frames fs) in
  (forall targets, targets_expression VPCMode Cluster nsUID m1 m2 targets = Ok g ->
     let frames := target_frames VPCMode Cluster nsUID in
     g = render (mjoin (map frames targets)) /\
     bounded (if VPCMode then 5 else 15) (mjoin (map frames (filter has_selector targets))) /\
     forall t, t ∈ targets -> ~ has_selector t -> exists c, frames t = [FConds [c]]) /\
  (forall peers groupShared, peers_expression VPCMode Cluster nsUID m1 m2 peers groupShared = Ok g ->
     exists fs, g = render fs /\ bounded (if VPCMode && negb groupShared then 5 else 15) fs).
Proof.
  intros bounded. assert (Hw : forall limit fs, within_limits limit fs -> bounded limit fs).
  { intros limit fs (cc & te & H1 & H2 & H3 & H4 & H5). unfold MaxCriteria, MaxTotalCriteriaExpressions in *.
    split; [lia|]. split; [lia|done]. }
  split.
  - intros targets Hok. apply targets_render in Hok as (Hg & H & _). split; [done|]. split; [by apply Hw|].
    intros t _ Hs. unfold target_frames, has_selector in *. destruct (sel_of _ _); [by destruct Hs|]. eauto.
  - intros peers groupShared Hok. apply peers_render in Hok as (Hg & H & _). eexists. split; [exact Hg|]. by apply Hw.
Qed.
(** Merging requirements changes nothing for objects that have one value
    per label: the merged requirements hold exactly when the given ones do;
    there is one merged requirement for each operator and key, and the values
    of 'NotIn' are in order. *)
Theorem mergeSelectorMatchExpression_equiv T reqs :
  functional_labels T ->
  (forall ml, selector_matches T (mkSelector ml (mergeSelectorMatchExpression reqs)) <-> selector_matches T (mkSelector ml reqs)) /\
  NoDup (map (fun r => (req_Operator r, req_Key r)) (mergeSelectorMatchExpression reqs)) /\
  (forall r, r ∈ mergeSelectorMatchExpression reqs -> req_Operator r = OpNotIn -> Sorted str_le (req_Values r)).
Proof.
  intros Hfun. split; [|split; [apply merged_slots|]].
  - intros ml. unfold selector_matches. cbn [MatchLabels MatchExpressions]. by rewrite merged_matches.
  - intros r (vs & _ & ->)%elem_of_merged Hop. rewrite bool_decide_true by done. apply sort_strings_sorted.
Qed.

(** ** A concrete evaluator of conditions *)
Fixpoint strip_prefix (p s : string) : option string :=
  match p, s with
  | EmptyString, _ => Some s
  | String a p', String b s' => if decide (a = b) then strip_prefix p' s' else None
  | String _ _, EmptyString => None
  end.
Lemma strip_prefix_app p s : strip_prefix p (p +:+ s) = Some s.
Proof. induction p as [|a p IH]; [done|]. change ((String a p) +:+ s) with (String a (p +:+ s)). simpl. by rewrite decide_True. Qed.
Lemma strip_prefix_Some p s r : strip_prefix p s = Some r -> s = p +:+ r.
Proof.
  revert s; induction p as [|a p IH]; intros s; simpl; [by intros [= ->]|]. destruct s as [|b s]; [done|].
  case_decide as E; [|done]. subst b. intros ->%IH. done.
Qed.
(** The tags of the members, as (member type, scope, tag). *)
Definition has_tag (tags : list (string * string * string)) (mt k v : string) : Prop := (mt, k, v) ∈ tags.
Definition some_tag (tags : list (string * string * string)) (mt : string) (p : string -> string -> bool) : bool :=
  existsb (fun t => bool_decide (t.1.1 = mt) && p t.1.2 t.2) tags.
Definition nsx_eval (tags : list (string * string * string)) (c : condition) : bool :=
  let some := some_tag tags (member_type c) in
  if bool_decide (scope_operator c = "NOTEQUALS") then negb (some (fun k _ => bool_decide (c_value c = k +:+ "|")))
  else if bool_decide (operator c = Some "NOTIN") then
    negb (some (fun k v => match strip_prefix (k +:+ "|") (c_value c) with
                           | Some rest => bool_decide (v ∈ split_on "," rest) | None => false end))
  else some (fun k v => bool_decide (c_value c = k +:+ "|" +:+ v) || bool_decide (c_value c = k +:+ "|")).
Definition tags_ok (tags : list (string * string * string)) : Prop := Forall (fun t => contains_byte "|" t.1.2 = false) tags.
Lemma key_inj k k' s s' :
  contains_byte "|" k = false -> contains_byte "|" k' = false -> k +:+ "|" +:+ s = k' +:+ "|" +:+ s' -> k = k' /\ s = s'.
Proof.
  intros H H' E. pose proof (f_equal (split_on "|") E) as Es. change ("|" +:+ s) with (String "|" s) in Es.
  change ("|" +:+ s') with (String "|" s') in Es. rewrite !split_on_app_sep in Es by done. injection Es as -> _. split; [done|].
  revert E. clear. induction k' as [|a k IH]; [by intros [= ->]|]. intros [= E]. by apply IH.
Qed.
Lemma some_tags (tags : list (string * string * string)) mt (p : string -> string -> bool) :
  some_tag tags mt p = true <-> exists k v, (mt, k, v) ∈ tags /\ p k v = true.
Proof.
  unfold some_tag. rewrite existsb_exists. split.
  - intros ([[m k] v] & Hin & Hp). apply list_elem_of_In in Hin. apply andb_true_iff in Hp as [Hm Hp].
    apply bool_decide_eq_true_1 in Hm. cbn in Hm, Hp. subst. eauto.
  - intros (k & v & Hin & Hp). exists (mt, k, v). split; [by apply list_elem_of_In|]. cbn [fst snd]. by rewrite bool_decide_true.
Qed.
Lemma negb_true_iff_not b : negb b = true <-> ~ b = true.
Proof. destruct b; split; done. Qed.
Lemma nsx_eval_semantics tags : tags_ok tags -> nsx_semantics (has_tag tags) (nsx_eval tags).
Proof.
  intros Hok. assert (Hk' : forall mt k v, (mt, k, v) ∈ tags -> contains_byte "|" k = false)
    by (intros mt k v Hin; exact (proj1 (Forall_forall _ _) Hok _ Hin)).
  unfold has_tag. split.
  - intros mt k v [_ Hk] Hv. unfold nsx_eval, tag_cond, buildExpression. cbn [scope_operator operator c_value member_type].
    rewrite !bool_decide_false by done. rewrite some_tags. split.
    + intros (k' & v' & Hin & Hp). apply orb_true_iff in Hp as [E|E]; apply bool_decide_eq_true_1 in E.
      * destruct (key_inj _ _ _ _ Hk (Hk' _ _ _ Hin) E) as [-> ->]. done.
      * destruct (key_inj _ _ v "" Hk (Hk' _ _ _ Hin) E) as [_ ?]. done.
    + intros Hin. exists k, v. split; [done|]. by rewrite bool_decide_true.
  - intros mt k [_ Hk]. unfold nsx_eval, tag_cond, buildExpression. cbn [scope_operator operator c_value member_type].
    rewrite !bool_decide_false by done. rewrite some_tags. split.
    + intros (k' & v' & Hin & Hp). exists v'. apply orb_true_iff in Hp as [E|E]; apply bool_decide_eq_true_1 in E.
      * destruct (key_inj _ _ "" v' Hk (Hk' _ _ _ Hin) E) as [-> <-]. done.
      * destruct (key_inj _ _ "" "" Hk (Hk' _ _ _ Hin) E) as [-> _]. done.
    + intros [v Hin]. exists k, v. split; [done|]. rewrite (bool_decide_true (k +:+ "|" +:+ "" = k +:+ "|")) by done.
      apply orb_true_r.
  - intros mt k [_ Hk]. unfold nsx_eval, buildExpression. cbn [scope_operator operator c_value member_type].
    rewrite bool_decide_true by done. rewrite negb_true_iff_not, some_tags. apply not_iff_compat. split.
    + intros (k' & v' & Hin & E). apply bool_decide_eq_true_1 in E. exists v'.
      destruct (key_inj _ _ "" "" Hk (Hk' _ _ _ Hin) E) as [-> _]. done.
    + intros [v Hin]. exists k, v. split; [done|]. by rewrite bool_decide_true.
  - intros mt k vs [_ Hk] Hne Hvs. unfold nsx_eval, buildExpression. cbn [scope_operator operator c_value member_type].
    rewrite bool_decide_false by done. rewrite bool_decide_true by done. rewrite negb_true_iff_not, some_tags.
    assert (Hsplit : split_on "," (join "," vs) = vs).
    { apply split_join; [done|]. apply (Forall_impl _ _ _ Hvs). by intros v []. }
    split.
    + intros H v Hv Hin. apply H. exists k, v. split; [done|]. rewrite <- app_str_assoc, strip_prefix_app, Hsplit. by apply bool_decide_eq_true_2.
    + intros H (k' & v & Hin & Hp). destruct (strip_prefix _ _) as [rest|] eqn:Hs; [|done]. apply strip_prefix_Some in Hs.
      rewrite app_str_assoc in Hs. destruct (key_inj _ _ _ _ Hk (Hk' _ _ _ Hin) Hs) as [-> <-].
      apply bool_decide_eq_true_1 in Hp. rewrite Hsplit in Hp. by eapply H.
Qed.
Lemma functional_tags tags mt : NoDup tags.*1 -> functional_labels (has_tag tags mt).
Proof.
  intros Hnd k v v' H1 H2. unfold has_tag in *. revert Hnd H1 H2. induction tags as [|[mk w] tags IH]; [by intros _ ?%elem_of_nil|].
  intros [Hn Hnd]%NoDup_cons. rewrite !elem_of_cons. intros [E1|H1] [E2|H2].
  - congruence.
  - simplify_eq. exfalso. apply Hn. apply list_elem_of_fmap. by exists (mt, k, v').
  - simplify_eq. exfalso. apply Hn. apply list_elem_of_fmap. by exists (mt, k, v).
  - by apply IH.
Qed.

(** ** Instances, and where the expression says something else *)
Definition ex_selector : LabelSelector :=
  mkSelector {["app" := "web"]} [mkReq "tier" OpIn ["front"; "back"]; mkReq "env" OpNotIn ["prod"]].
Definition ex_target : SecurityPolicyTarget := mkTarget None (Some ex_selector).
Definition ex_tags : list (string * string * string) :=
  [("VpcSubnetPort", "nsx-op/cluster", "c1"); ("VpcSubnetPort", "nsx-op/namespace_uid", "u1");
   ("VpcSubnetPort", "app", "web"); ("VpcSubnetPort", "tier", "back"); ("VpcSubnetPort", "env", "dev");
   ("SegmentPort", "nsx-op/cluster", "c1"); ("SegmentPort", "nsx-op/pod_uid", "p1"); ("SegmentPort", "app", "web");
   ("SegmentPort", "tier", "front"); ("Segment", "nsx-op/cluster", "c1"); ("Segment", "team", "a")].
Lemma ex_tags_ok : tags_ok ex_tags.
Proof. by repeat constructor. Qed.
Lemma ex_tags_functional mt : functional_labels (has_tag ex_tags mt).
Proof. apply functional_tags. apply (bool_decide_eq_true_1 _). by vm_compute. Qed.
Definition expression_of (r : result goerr (list gexpr)) : list gexpr := match r with Ok g => g | Err _ => [] end.
Definition ex_group : list gexpr := expression_of (targets_expression true "c1" "u1" "criteria" "expressions" [ex_target]).
Example ex_group_value : eval_group (nsx_eval ex_tags) (fun _ => false) ex_group = Some true.
Proof. by vm_compute. Qed.

Lemma targets_expression_meaning_witness :
  exists b, eval_group (nsx_eval ex_tags) (fun _ => false) ex_group = Some b /\
    (b = true <-> exists t, t ∈ [ex_target] /\ target_matches true "c1" "u1" (has_tag ex_tags) t).
Proof.
  apply (targets_expression_meaning true "c1" "u1" (has_tag ex_tags) (nsx_eval ex_tags) (nsx_eval_semantics _ ex_tags_ok)
    ex_tags_functional (fun _ => false) ltac:(done) ltac:(done) "criteria" "expressions"); [done| |by vm_compute].
  constructor; [|done]. unfold good_target. cbn. apply (bool_decide_eq_true_1 _). by vm_compute.
Defined.
(** A Pod selector in the Namespaces another selector matches, and addresses. *)
Definition ex_peers : list SecurityPolicyPeer :=
  [mkPeer None (Some ex_selector) (Some (mkSelector {["team" := "a"]} [])) []; mkPeer None None None ["10.0.0.0/8"]].
Definition ex_peer_group : list gexpr := expression_of (peers_expression true "c1" "u1" "criteria" "expressions" ex_peers true).
Lemma peers_expression_meaning_witness :
  exists b, eval_group (nsx_eval ex_tags) (fun _ => false) ex_peer_group = Some b /\
    (b = true <-> exists p, p ∈ ex_peers /\ peer_matches true "c1" "u1" (has_tag ex_tags) (fun _ => false) true p).
Proof.
  apply (peers_expression_meaning true "c1" "u1" (has_tag ex_tags) (nsx_eval ex_tags) (nsx_eval_semantics _ ex_tags_ok)
    ex_tags_functional (fun _ => false) ltac:(done) ltac:(done) "criteria" "expressions"); [|by vm_compute..].
  constructor; [split|constructor; [split; by intros|done]].
  - intros sel isVM [= <- <-]. apply (bool_decide_eq_true_1 _). by vm_compute.
  - intros n [= <-]. apply (bool_decide_eq_true_1 _). by vm_compute.
Defined.
Lemma mergeSelectorMatchExpression_equiv_witness :
  (forall ml, selector_matches (has_tag ex_tags "SegmentPort") (mkSelector ml (mergeSelectorMatchExpression
      [mkReq "tier" OpIn ["front"; "back"]; mkReq "tier" OpIn ["front"]])) <->
    selector_matches (has_tag ex_tags "SegmentPort") (mkSelector ml
      [mkReq "tier" OpIn ["front"; "back"]; mkReq "tier" OpIn ["front"]])) /\
  mergeSelectorMatchExpression [mkReq "tier" OpIn ["front"; "back"]; mkReq "tier" OpIn ["front"]] = [mkReq "tier" OpIn ["front"]].
Proof.
  split; [|by vm_compute]. apply (mergeSelectorMatchExpression_equiv (has_tag ex_tags "SegmentPort")). apply ex_tags_functional.
Defined.

(** Two 'In' requirements without a common value select nothing, but the group
    built for them, and for any other requirement next to them, is every Pod
    of the Namespace. *)
Lemma empty_intersection_selects_all :
  let reqs := [mkReq "tier" OpIn ["front"]; mkReq "tier" OpIn ["back"]; mkReq "env" OpNotIn ["prod"]] in
  targets_expression true "c1" "u1" "" "" [mkTarget None (Some (mkSelector ∅ reqs))] =
    targets_expression true "c1" "u1" "" "" [mkTarget None (Some (mkSelector ∅ []))] /\
  forall mt, functional_labels (has_tag ex_tags mt) -> ~ selector_matches (has_tag ex_tags mt) (mkSelector ∅ reqs).
Proof.
  intros reqs. split; [by vm_compute|]. intros mt Hfun [_ H].
  assert (H1 : req_matches (has_tag ex_tags mt) (mkReq "tier" OpIn ["front"])) by (apply H; set_solver).
  assert (H2 : req_matches (has_tag ex_tags mt) (mkReq "tier" OpIn ["back"])) by (apply H; set_solver).
  destruct H1 as (v1 & ->%list_elem_of_singleton & HT1). destruct H2 as (v2 & ->%list_elem_of_singleton & HT2).
  by pose proof (Hfun _ _ _ HT1 HT2).
Qed.
(** A label with an empty value is asked for as if any value were good. *)
Lemma empty_value_is_exists mt k : Some (tag_cond mt k "") = requirement_cond mt (mkReq k OpExists []).
Proof. done. Qed.
(** A target without selectors adds a criterion that is not counted. *)
Lemma bare_target_not_counted VPCMode Cluster nsUID g :
  exists g', updateTargetExpressions VPCMode Cluster nsUID (mkTarget None None) g = Ok (0, 0, g').
Proof. eexists. done. Qed.
