(* ===== verification/NativeGroup.v ===== *)
(** * pkg/nsx/services/securitypolicy/builder_namespace.go: inventory-based groups

    Where NSX has Namespaces and virtual machines in its inventory, selectors
    become conditions on their tags and on the type of the machine; a Pod is a
    machine of type POD. A requirement 'In' gives a criterion per value. *)
From S2P Require Import Prelude GoStrings Errors NsxUtil Names GroupExpr.

(** ** Conditions *)
Definition MemberTypeNamespace := "Namespace".
Definition MemberTypeVirtualMachine := "VirtualMachine".
Definition VMTypePod := "POD".
Definition VMTypeRegular := "REGULAR".

(** The operator is written even when the scope operator negates. *)
Definition buildNativeCondition (memberType value operator scopeOp : string) : condition :=
  let c := buildExpression "Condition" memberType value "Tag" operator scopeOp in
  mkCond (resource_type c) (member_type c) (c_value c) (c_key c) (Some operator) (scope_operator c).
Definition buildNativeNamespaceCondition (tagScope tagValue operator : string) : condition :=
  buildNativeCondition MemberTypeNamespace (tagScope +:+ "|" +:+ tagValue) operator "EQUALS".
Definition buildNativeVMTypeCondition (vmType : string) : condition :=
  buildExpression "Condition" MemberTypeVirtualMachine vmType "NodeType" "EQUALS" "EQUALS".
Definition nested_items (conditions : list condition) : list item :=
  foldl (fun (l : list item) cond => match l with [] => [ICond cond] | _ => l ++ [IConj (buildConjOperator "AND"); ICond cond] end)
    [] conditions.
Definition buildNativeNestedExpression (conditions : list condition) : result goerr (option gexpr) :=
  match conditions with
  | [] => Ok None
  | cond :: conditions' =>
      let memberTypes : gset string := list_to_set (map member_type conditions) in
      match validateSelectorExpressions (Z.of_nat (length conditions)) 0 0 (bool_decide (1 < size memberTypes)%nat) with
      | Err e => Err e
      | Ok _ => Ok (Some (match conditions' with [] => GCond cond | _ => Nested (nested_items conditions) end))
      end
  end.
(** [NormalizeLabelKey] never panics. *)
Definition formatNativeTagScope (labelKey memberType : string) : result goerr string :=
  let key := default "" (NormalizeLabelKey labelKey truncateLabelHash) in
  let key := if bool_decide (memberType = MemberTypeVirtualMachine) && negb (has_prefix "K8sTag/" key)
             then "K8sTag/" +:+ key else key in
  if bool_decide (MaxTagScopeLength < slen key) then
    Err (EValidation ("label key " +:+ quoted labelKey +:+ " produces a " +:+ memberType +:+ " tag scope of length " +:+
      itoa (slen key) +:+ ", exceeding NSX limit of " +:+ itoa MaxTagScopeLength))
  else Ok key.

(** ** Selectors *)
Definition buildNativeMatchLabelsConditions (matchLabels : gmap string string) (memberType : string)
  : result goerr (list condition) :=
  let normalizedLabels := normalized_labels matchLabels in
  range_result (fun conditions k =>
    let v := default "" (normalizedLabels !! k) in
    match formatNativeTagScope k memberType with
    | Err e => Err e
    | Ok tagScope => Ok (conditions ++ [buildNativeCondition memberType (tagScope +:+ "|" +:+ v) "EQUALS" "EQUALS"])
    end) [] (sets_List (dom normalizedLabels)).
(** One requirement: the conditions so far, and the requirement 'In' if any. *)
Definition native_requirement (memberType : string) (st : list condition * option Requirement) (expr : Requirement)
  : result goerr (list condition * option Requirement) :=
  let '(baseConditions, inExpr) := st in
  match formatNativeTagScope (req_Key expr) memberType with
  | Err e => Err e
  | Ok tagScope =>
      if bool_decide (req_Operator expr = OpIn) then
        match req_Values expr with
        | [] => Err (EValidation ("operator 'In' for key " +:+ req_Key expr +:+ " has no matching values"))
        | _ => Ok (baseConditions, Some (mkReq tagScope (req_Operator expr) (req_Values expr)))
        end
      else if bool_decide (req_Operator expr = OpNotIn) then
        Ok (baseConditions ++ [buildNativeCondition memberType (tagScope +:+ "|" +:+ join "," (req_Values expr)) "NOTIN" "EQUALS"], inExpr)
      else if bool_decide (req_Operator expr = OpExists) then
        Ok (baseConditions ++ [buildNativeCondition memberType (tagScope +:+ "|") "EQUALS" "EQUALS"], inExpr)
      else if bool_decide (req_Operator expr = OpDoesNotExist) then
        Ok (baseConditions ++ [buildNativeCondition memberType (tagScope +:+ "|") "EQUALS" "NOTEQUALS"], inExpr)
      else Err (EValidation ("unsupported matchExpressions operator: " +:+ req_Operator expr))
  end.
Definition buildNativeSelectorConditions (selector : option LabelSelector) (memberType : string)
  : result goerr (list condition * option Requirement) :=
  match selector with
  | None => Ok ([], None)
  | Some selector =>
      let matchExpressions := mergeSelectorMatchExpression (MatchExpressions selector) in
      match (match matchExpressions with [] => Ok 0 | _ => validateSelectorOpIn matchExpressions (MatchLabels selector) end) with
      | Err e => Err e
      | Ok _ =>
          match buildNativeMatchLabelsConditions (MatchLabels selector) memberType with
          | Err e => Err e
          | Ok baseConditions => range_result (native_requirement memberType) (baseConditions, None) matchExpressions
          end
      end
  end.

(** A criterion more: the numbers of criteria and of conditions, and the group. *)
Definition native_criterion (st : Z * Z * list gexpr) (branchConds : list condition) : result goerr (Z * Z * list gexpr) :=
  match buildNativeNestedExpression branchConds with
  | Err e => Err e
  | Ok None => Ok st
  | Ok (Some nested) =>
      Ok (st.1.1 + 1, st.1.2 + Z.of_nat (length branchConds), appendOperatorIfNeeded "OR" st.2 ++ [nested])
  end.
(** The values a requirement 'In' branches over: one placeholder without it. *)
Definition in_branches (inExpr : option Requirement) (memberType : string) : list (list condition) :=
  match inExpr with
  | Some e =>
      match req_Values e with
      | [] => [[]]
      | values => map (fun v => [buildNativeCondition memberType (req_Key e +:+ "|" +:+ v) "EQUALS" "EQUALS"]) values
      end
  | None => [[]]
  end.
Definition has_values (inExpr : option Requirement) : bool :=
  match inExpr with Some e => negb (bool_decide (req_Values e = [])) | None => false end.

(** The selector of a machine, and the type of machine it selects. *)
Definition native_sel (pod vm : option LabelSelector) : option (LabelSelector * string) :=
  match pod, vm with
  | Some s, _ => Some (s, VMTypePod)
  | None, Some s => Some (s, VMTypeRegular)
  | None, None => None
  end.

Section Native.
Context (VPCMode : bool) (Cluster nsUID : string).

Definition updateNativeTargetExpressions (target : SecurityPolicyTarget) (g : list gexpr) : result goerr (Z * Z * list gexpr) :=
  match t_PodSelector target, t_VMSelector target with
  | Some _, Some _ => Err (EValidation "PodSelector and VMSelector are not allowed to set in one group")
  | pod, vm =>
      let '(selector, vmType) := match native_sel pod vm with Some (s, ty) => (Some s, ty) | None => (None, VMTypePod) end in
      let isVM := match vm with Some _ => true | None => false end in
      let nsCondition := buildNativeNamespaceCondition (getScopeNamespaceUIDTag VPCMode isVM) nsUID "EQUALS" in
      match buildNativeSelectorConditions selector MemberTypeVirtualMachine with
      | Err e => Err e
      | Ok (selectorConds, inExpr) =>
          let baseConditions := [nsCondition] ++ selectorConds ++ [buildNativeVMTypeCondition vmType] in
          range_result native_criterion (0, 0, g)
            (map (fun b => baseConditions ++ b) (in_branches inExpr MemberTypeVirtualMachine))
      end
  end.
(** The parts of a peer: the conditions on the Namespace, and on the machine. *)
Definition native_ns_conditions (peer : SecurityPolicyPeer) : result goerr (list condition * option Requirement) :=
  match p_NamespaceSelector peer with
  | Some s =>
      match buildNativeSelectorConditions (Some s) MemberTypeNamespace with
      | Err e => Err e
      | Ok (nsConds, nsIn) => Ok ([buildNativeNamespaceCondition (getScopeCluserTag VPCMode) Cluster "EQUALS"] ++ nsConds, nsIn)
      end
  | None =>
      let isVM := match p_VMSelector peer with Some _ => true | None => false end in
      Ok ([buildNativeNamespaceCondition (getScopeNamespaceUIDTag VPCMode isVM) nsUID "EQUALS"], None)
  end.
Definition native_vm_conditions (peer : SecurityPolicyPeer) : result goerr (list condition * option Requirement) :=
  match native_sel (p_PodSelector peer) (p_VMSelector peer) with
  | Some (s, vmType) =>
      match buildNativeSelectorConditions (Some s) MemberTypeVirtualMachine with
      | Err e => Err e
      | Ok (vmConds, vmIn) => Ok (vmConds ++ [buildNativeVMTypeCondition vmType], vmIn)
      end
  | None => Ok ([], None)
  end.
Definition native_branches (nsInExpr vmInExpr : option Requirement) (allBaseConditions : list condition) : list (list condition) :=
  mjoin (map (fun nsCond => map (fun vmCond => allBaseConditions ++ nsCond ++ vmCond)
    (in_branches vmInExpr MemberTypeVirtualMachine)) (in_branches nsInExpr MemberTypeNamespace)).
Definition updateNativePeerExpressions (peer : SecurityPolicyPeer) (g : list gexpr) : result goerr (Z * Z * list gexpr) :=
  match p_PodSelector peer, p_VMSelector peer with
  | Some _, Some _ => Err (EValidation "PodSelector and VMSelector are not allowed to set in one group")
  | pod, vm =>
      let g := if bool_decide (p_IPBlocks peer = []) then g
               else appendOperatorIfNeeded "OR" g ++ [IPAddressExpression (p_IPBlocks peer)] in
      match native_sel pod vm, p_NamespaceSelector peer with
      | None, None => Ok (0, 0, g)
      | _, _ =>
          match native_ns_conditions peer with
          | Err e => Err e
          | Ok (nsConditions, nsInExpr) =>
              match native_vm_conditions peer with
              | Err e => Err e
              | Ok (vmConditions, vmInExpr) =>
                  if has_values nsInExpr && has_values vmInExpr then
                    Err (EValidation "operator 'In' is set in both Pod/VM selector and NamespaceSelector")
                  else range_result native_criterion (0, 0, g) (native_branches nsInExpr vmInExpr (nsConditions ++ vmConditions))
              end
          end
      end
  end.

(** The loops of [buildNativePolicyGroup], [buildNativeRuleAppliedGroupByRule]
    and [buildNativeRulePeerGroup], with the limits of the whole group. *)
Definition native_targets_expression (criteriaMsg exprMsg : string) (targets : list SecurityPolicyTarget) : result goerr (list gexpr) :=
  match range_result (fun st target =>
    match updateNativeTargetExpressions target st.2 with
    | Err e => Err e
    | Ok (criteriaCount, totalExprCount, g) => Ok (st.1.1 + criteriaCount, st.1.2 + totalExprCount, g)
    end) (0, 0, []) targets with
  | Err e => Err e
  | Ok (criteriaCount, totalExprCount, g) =>
      match check_totals criteriaMsg exprMsg criteriaCount totalExprCount with Some e => Err e | None => Ok g end
  end.
Definition native_peers_expression (criteriaMsg exprMsg : string) (peers : list SecurityPolicyPeer) : result goerr (list gexpr) :=
  match range_result (fun st peer =>
    match updateNativePeerExpressions peer st.2 with
    | Err e => Err e
    | Ok (criteriaCount, totalExprCount, g) => Ok (st.1.1 + criteriaCount, st.1.2 + totalExprCount, g)
    end) (0, 0, []) peers with
  | Err e => Err e
  | Ok (criteriaCount, totalExprCount, g) =>
      match check_totals criteriaMsg exprMsg criteriaCount totalExprCount with Some e => Err e | None => Ok g end
  end.
End Native.

(** ** What the conditions mean *)

(** The tag scope of a label that is short enough. *)
Definition native_scope (mt k : string) : string :=
  if bool_decide (mt = MemberTypeVirtualMachine) && negb (has_prefix "K8sTag/" k) then "K8sTag/" +:+ k else k.
Lemma format_short k mt s : slen k <= MaxTagScopeLength -> formatNativeTagScope k mt = Ok s -> s = native_scope mt k.
Proof.
  intros Hk. unfold formatNativeTagScope, NormalizeLabelKey. rewrite (bool_decide_true _ Hk). cbn [default from_option id].
  fold (native_scope mt k). case_bool_decide; [done|]. by intros [= <-].
Qed.
Lemma good_native_scope mt k : good_key k -> good_key (native_scope mt k).
Proof.
  intros [H1 H2]. unfold native_scope. destruct (_ && _); [|done]. split; [done|]. rewrite contains_byte_app, H2. done.
Qed.
Lemma nested_items_of l : nested_items l = items_of l.
Proof.
  unfold nested_items. destruct l as [|c l]; [done|]. cbn [foldl].
  assert (H : forall acc, acc <> [] -> foldl (fun (l : list item) cond => match l with [] => [ICond cond] | _ => l ++ [IConj (buildConjOperator "AND"); ICond cond] end) acc l =
    acc ++ mjoin (map (fun c => [IConj "AND"; ICond c]) l)).
  { clear. induction l as [|c' l IH]; intros acc Ha; cbn [foldl map mjoin list_join]; [by rewrite app_nil_r|].
    destruct acc as [|a acc]; [done|]. rewrite IH by done. by rewrite <- (assoc_L (++)). }
  by rewrite H.
Qed.

(** The conditions of NSX on the tags of a machine and of its Namespace, and on
    the type of the machine. *)
Record native_semantics (T : string -> string -> string -> Prop) (vmType : string) (eval : condition -> bool) : Prop := {
  ns_tags : nsx_semantics T eval;
  ns_not_exists : forall mt k, good_key k ->
    eval (buildNativeCondition mt (k +:+ "|") "EQUALS" "NOTEQUALS") = true <-> ~ exists v, T mt k v;
  ns_node : forall ty, eval (buildNativeVMTypeCondition ty) = true <-> vmType = ty }.

Section Conditions.
Context (T : string -> string -> string -> Prop) (vmType : string) (eval : condition -> bool)
  (Hsem : native_semantics T vmType eval).
(** The labels of the member of type [mt]. *)
Definition native_labels (mt k v : string) : Prop := T mt (native_scope mt k) v.

Lemma native_tag mt k v :
  buildNativeCondition mt (k +:+ "|" +:+ v) "EQUALS" "EQUALS" = tag_cond mt k v.
Proof. done. Qed.
Lemma native_labels_loop mt (m : gmap string string) ks acc conds :
  Forall (fun k => slen k <= MaxTagScopeLength) ks ->
  range_result (fun conditions k =>
    let v := default "" (m !! k) in
    match formatNativeTagScope k mt with
    | Err e => Err e
    | Ok tagScope => Ok (conditions ++ [buildNativeCondition mt (tagScope +:+ "|" +:+ v) "EQUALS" "EQUALS"])
    end) acc ks = Ok conds ->
  conds = acc ++ map (fun k => tag_cond mt (native_scope mt k) (default "" (m !! k))) ks.
Proof.
  revert acc; induction ks as [|k ks IH]; intros acc Hks; cbn [range_result map]; [intros [= <-]; by rewrite app_nil_r|].
  apply Forall_cons in Hks as [Hk Hks]. destruct (formatNativeTagScope k mt) as [s|] eqn:Hs; [|done].
  apply format_short in Hs as ->; [|done]. cbv zeta. intros ->%IH; [|done]. by rewrite <- (assoc_L (++)).
Qed.
Lemma native_label_conds ml mt conds :
  good_labels ml -> buildNativeMatchLabelsConditions ml mt = Ok conds ->
  forallb eval conds = true <-> forall k v, ml !! k = Some v -> native_labels mt k v.
Proof.
  intros [Hs Hg] H. unfold buildNativeMatchLabelsConditions in H. rewrite (normalized_short ml Hs) in H.
  apply native_labels_loop in H.
  2:{ apply Forall_forall. intros k [v Hv]%elem_of_sets_List%elem_of_dom. by destruct (Hs k v Hv). }
  subst conds. cbn [app]. rewrite forallb_forall. unfold native_labels. split.
  - intros H k v Hkv. destruct (Hg k v Hkv). apply (sem_tag _ _ (ns_tags _ _ _ Hsem)); [by apply good_native_scope|done|].
    apply H, list_elem_of_In, list_elem_of_fmap. exists k. rewrite Hkv. split; [done|]. apply elem_of_sets_List, elem_of_dom. by exists v.
  - intros H c Hc. apply list_elem_of_In, list_elem_of_fmap in Hc as (k & -> & [v Hv]%elem_of_sets_List%elem_of_dom).
    rewrite Hv. destruct (Hg k v Hv). apply (sem_tag _ _ (ns_tags _ _ _ Hsem)); [by apply good_native_scope|done|]. by apply H.
Qed.

(** *** Requirements *)
Definition short_req (r : Requirement) : Prop := slen (req_Key r) <= MaxTagScopeLength.
Lemma native_other mt r c st st' :
  good_req r -> short_req r -> req_Operator r <> OpIn -> native_requirement mt (st, c) r = Ok st' ->
  exists cond, st' = (st ++ [cond], c) /\ valid_req r /\ (eval cond = true <-> req_matches (native_labels mt) r).
Proof.
  intros [Hk Hv] Hs Hin. unfold native_requirement, req_matches, native_labels, valid_req.
  destruct (formatNativeTagScope _ mt) as [s|] eqn:Hf; [|done]. apply format_short in Hf as ->; [|done].
  pose proof (good_native_scope mt _ Hk) as Hk'. pose proof (ns_tags _ _ _ Hsem) as Ht.
  rewrite bool_decide_false, decide_False by done. case_bool_decide as H1.
  { intros [= <-]. eexists. split; [done|]. split; [auto|]. rewrite decide_True by done.
    destruct (Hv (or_intror H1)). by apply (sem_not_in _ _ Ht). }
  rewrite (decide_False (P := req_Operator r = OpNotIn)) by done. case_bool_decide as H2.
  { intros [= <-]. eexists. split; [done|]. split; [auto|]. rewrite decide_True by done. by apply (sem_exists _ _ Ht). }
  rewrite (decide_False (P := req_Operator r = OpExists)) by done. case_bool_decide as H3; [|done].
  intros [= <-]. eexists. split; [done|]. split; [auto|]. rewrite decide_True by done. by apply (ns_not_exists _ _ _ Hsem).
Qed.
(** The requirement 'In' that is found, with its tag scope. *)
Definition retag (mt : string) (r : Requirement) : Requirement := mkReq (native_scope mt (req_Key r)) (req_Operator r) (req_Values r).
Lemma native_in mt r c st st' :
  short_req r -> req_Operator r = OpIn -> native_requirement mt (st, c) r = Ok st' -> st' = (st, Some (retag mt r)) /\ req_Values r <> [].
Proof.
  intros Hs Hin. unfold native_requirement. destruct (formatNativeTagScope _ mt) as [s|] eqn:Hf; [|done].
  apply format_short in Hf as ->; [|done]. rewrite bool_decide_true by done. destruct (req_Values r) eqn:Hv; [done|].
  intros [= <-]. unfold retag. by rewrite Hv.
Qed.
Lemma native_reqs mt reqs base c conds inE :
  Forall good_req reqs -> Forall short_req reqs ->
  range_result (native_requirement mt) (base, c) reqs = Ok (conds, inE) ->
  exists extra, conds = base ++ extra /\
    (forallb eval extra = true <-> forall r, r ∈ reqs -> req_Operator r <> OpIn -> req_matches (native_labels mt) r) /\
    (inE = c /\ (forall r, r ∈ reqs -> req_Operator r <> OpIn) \/
     exists r, r ∈ reqs /\ req_Operator r = OpIn /\ inE = Some (retag mt r) /\ req_Values r <> []).
Proof.
  revert base c; induction reqs as [|r reqs IH]; intros base c Hg Hs; cbn [range_result].
  { intros [= <- <-]. exists []. rewrite app_nil_r. split; [done|]. split; [|left; split; [done|]]; [split; [|done]|]; intros; set_solver. }
  apply Forall_cons in Hg as [Hr Hg]. apply Forall_cons in Hs as [Hsr Hs].
  destruct (native_requirement mt (base, c) r) as [[b1 c1]|] eqn:Hstep; [|done]. intros Hloop.
  destruct (IH b1 c1 Hg Hs Hloop) as (extra & -> & Hex & Hin).
  destruct (decide (req_Operator r = OpIn)) as [Ho|Ho].
  - apply native_in in Hstep as [[= -> ->] Hv]; [|done..]. exists extra. split; [done|]. split; [rewrite Hex; set_solver|]. right.
    destruct Hin as [[-> _]|(r' & Hr' & ?)]; [exists r; split; [by left|done]|exists r'; split; [by right|done]].
  - apply native_other in Hstep as (cond & [= -> ->] & _ & Hc); [|done..]. exists (cond :: extra). split; [by rewrite <- (assoc_L (++))|].
    split; [|destruct Hin as [[-> Hno]|(r' & Hr' & ?)]; [left; split; [done|set_solver]|right; exists r'; split; [by right|done]]].
    cbn [forallb]. rewrite andb_true_iff, Hex, Hc. set_solver.
Qed.

(** *** Selectors *)
Definition native_good_selector (s : LabelSelector) : Prop :=
  good_labels (MatchLabels s) /\ Forall good_req (MatchExpressions s) /\ Forall short_req (MatchExpressions s).
#[global] Instance native_good_selector_dec s : Decision (native_good_selector s).
Proof. unfold native_good_selector, good_labels, short_labels, good_req, good_key, good_value, short_req. apply _. Defined.
Definition branches_hold (bs : list (list condition)) : Prop := exists b, b ∈ bs /\ forallb eval b = true.
Lemma native_in_nonempty mt reqs st st' :
  range_result (native_requirement mt) st reqs = Ok st' -> Forall (fun r => req_Operator r = OpIn -> req_Values r <> []) reqs.
Proof.
  revert st; induction reqs as [|r reqs IH]; intros st; cbn [range_result]; [by constructor|].
  destruct (native_requirement mt st r) as [st1|] eqn:Hstep; [|done]. intros H. constructor; [|by eapply IH].
  intros Hin. unfold native_requirement in Hstep. destruct st as [b c]. destruct (formatNativeTagScope _ mt); [|done].
  rewrite bool_decide_true in Hstep by done. by destruct (req_Values r).
Qed.
Lemma merged_short s : native_good_selector s -> Forall short_req (mergeSelectorMatchExpression (MatchExpressions s)).
Proof.
  intros (_ & _ & Hs). apply Forall_forall. intros r (vs & Hvs & _)%elem_of_merged.
  pose proof (merged_values_spec (MatchExpressions s) (req_Operator r) (req_Key r)) as Hm. rewrite Hvs in Hm.
  destruct Hm as [(r0 & Hr0 & [_ Hk]) _]. unfold short_req. rewrite <- Hk. exact (proj1 (Forall_forall _ _) Hs r0 Hr0).
Qed.
Lemma in_branches_some mt r :
  req_Values r <> [] -> in_branches (Some (retag mt r)) mt =
    map (fun v => [buildNativeCondition mt (native_scope mt (req_Key r) +:+ "|" +:+ v) "EQUALS" "EQUALS"]) (req_Values r).
Proof. unfold in_branches, retag. cbn [req_Values req_Key]. by destruct (req_Values r). Qed.
(** The criteria of a selector hold when it matches the labels of the member. *)
Lemma native_selector_meaning mt s conds inE :
  native_good_selector s -> functional_labels (native_labels mt) ->
  buildNativeSelectorConditions (Some s) mt = Ok (conds, inE) ->
  forallb eval conds = true /\ branches_hold (in_branches inE mt) <-> selector_matches (native_labels mt) s.
Proof.
  intros Hgood Hfun. unfold buildNativeSelectorConditions. set (reqs := mergeSelectorMatchExpression (MatchExpressions s)).
  destruct (match reqs with [] => _ | _ => _ end) as [n|] eqn:Hval; [|done].
  destruct (buildNativeMatchLabelsConditions _ mt) as [base|] eqn:Hbase; [|done]. intros Hloop.
  assert (Hone : (length (in_requirements reqs) <= 1)%nat).
  { destruct reqs as [|r0 rs]; [simpl; lia|]. by apply validate_In in Hval as [? _]. }
  pose proof (merged_good s) as Hmg. destruct Hgood as (Hl & Hg & Hs). pose proof (merged_short s (conj Hl (conj Hg Hs))) as Hms.
  pose proof (Hmg (conj Hl (conj Hg (native_in_nonempty _ _ _ _ Hloop)))) as Hmg'. clear Hmg.
  destruct (native_reqs _ _ _ _ _ _ Hmg' Hms Hloop) as (extra & -> & Hex & Hin).
  unfold selector_matches. rewrite <- (merged_matches _ (MatchExpressions s)) by done. fold reqs.
  rewrite forallb_app, andb_true_iff, (native_label_conds _ _ _ Hl Hbase), Hex.
  assert (Hbr : branches_hold (in_branches inE mt) <-> forall r, r ∈ reqs -> req_Operator r = OpIn -> req_matches (native_labels mt) r).
  { destruct Hin as [[-> Hno]|(r & Hr & Ho & -> & Hv)].
    - split; [naive_solver|]. intros _. exists []. split; [by apply list_elem_of_singleton|done].
    - destruct (matchExpressionOpInExist reqs) as [e|] eqn:He; [|by destruct (in_requirements_None _ He r Hr)].
      destruct (in_requirements_one _ _ He Hone) as [_ Hu]. pose proof (proj1 (Forall_forall _ _) Hmg' r Hr) as [Hk Hgv].
      destruct (Hgv (or_introl Ho)) as [_ Hvs]. unfold branches_hold. rewrite in_branches_some by done.
      assert (Hm : req_matches (native_labels mt) r <-> exists v, v ∈ req_Values r /\ native_labels mt (req_Key r) v)
        by (unfold req_matches; by rewrite decide_True).
      assert (Hiff : (exists b, b ∈ map (fun v => [buildNativeCondition mt (native_scope mt (req_Key r) +:+ "|" +:+ v) "EQUALS" "EQUALS"]) (req_Values r) /\ forallb eval b = true) <->
        req_matches (native_labels mt) r).
      { rewrite Hm. split.
        - intros (b & (v & -> & Hv0)%list_elem_of_fmap & Hb). exists v. split; [done|]. cbn [forallb] in Hb. apply andb_true_iff in Hb as [Hb _].
          apply (sem_tag _ _ (ns_tags _ _ _ Hsem)) in Hb; [done|by apply good_native_scope|]. by destruct (proj1 (Forall_forall _ _) Hvs v Hv0).
        - intros (v & Hv0 & HT). eexists. split; [apply list_elem_of_fmap; exists v; done|]. cbn [forallb]. rewrite andb_true_r.
          apply (sem_tag _ _ (ns_tags _ _ _ Hsem)); [by apply good_native_scope| |done]. by destruct (proj1 (Forall_forall _ _) Hvs v Hv0). }
      rewrite Hiff. split; [|by auto]. intros H r' Hr' Ho'. by rewrite (Hu r' Hr' Ho'), <- (Hu r Hr Ho). }
  rewrite Hbr. split; [|naive_solver]. intros [[H1 H2] H3]. split; [done|]. intros r Hr. destruct (decide (req_Operator r = OpIn)); auto.
Qed.
End Conditions.

(** ** Groups *)
Definition nframe_expr (f : frame) : gexpr := match f with FConds [c] => GCond c | f => frame_expr f end.
Definition nrender (fs : list frame) : list gexpr :=
  match fs with [] => [] | f :: fs' => nframe_expr f :: mjoin (map (fun f => [GConj "OR"; nframe_expr f]) fs') end.
Lemma nrender_snoc fs f : appendOperatorIfNeeded "OR" (nrender fs) ++ [nframe_expr f] = nrender (fs ++ [f]).
Proof. destruct fs as [|f0 fs]; [done|]. simpl. rewrite map_app, join_app. by rewrite <- (assoc_L (++)). Qed.
Lemma eval_group_nrender eval eval_ip fs :
  fs <> [] -> Forall frame_ok fs -> eval_group eval eval_ip (nrender fs) = Some (existsb (eval_frame eval eval_ip) fs).
Proof.
  assert (Hf : forall f, frame_ok f -> eval_expr eval eval_ip (nframe_expr f) = Some (eval_frame eval eval_ip f)).
  { intros f Hf. destruct f as [[|c [|c' l]]|]; [done|simpl; by rewrite andb_true_r|by apply eval_frame_expr|done]. }
  destruct fs as [|f fs]; [done|]. intros _. revert f; induction fs as [|f' fs IH]; intros f Hok;
    apply Forall_cons in Hok as [H1 Hok].
  - simpl. rewrite orb_false_r. by apply Hf.
  - change (nrender (f :: f' :: fs)) with (nframe_expr f :: GConj "OR" :: nrender (f' :: fs)).
    cbn [eval_group]. rewrite decide_True by done. rewrite Hf by done. rewrite IH by done. done.
Qed.
(** The frames of an element within the limits, and what they stand for. *)
Definition native_frames (eval : condition -> bool) (eval_ip : list string -> bool) (limit cc te : Z) (P : Prop) (fs : list frame) : Prop :=
  Forall frame_ok fs /\ (existsb (eval_frame eval eval_ip) fs = true <-> P) /\ counted limit cc te (cond_frames fs).
Lemma native_criteria (bs : list (list condition)) cc te fs cc' te' g :
  Forall (fun b => b <> []) bs -> range_result native_criterion (cc, te, nrender fs) bs = Ok (cc', te', g) ->
  g = nrender (fs ++ map FConds bs) /\ counted MaxMixedCriteriaExpressions (cc' - cc) (te' - te) (map FConds bs).
Proof.
  revert cc te fs; induction bs as [|b bs IH]; intros cc te fs Hb; cbn [range_result map].
  { intros [= <- <- <-]. rewrite app_nil_r, !Z.sub_diag. split; [done|]. split; [done|]. by split. }
  apply Forall_cons in Hb as [Hb0 Hb]. destruct (native_criterion _ b) as [[[c1 t1] g1]|] eqn:Hstep; [|done].
  assert (Hs : c1 = cc + 1 /\ t1 = te + Z.of_nat (length b) /\ g1 = nrender (fs ++ [FConds b]) /\ Z.of_nat (length b) <= MaxMixedCriteriaExpressions).
  { unfold native_criterion, buildNativeNestedExpression in Hstep. destruct b as [|c b]; [done|].
    destruct (validateSelectorExpressions _ _ _ _) as [[c0 t0]|] eqn:Hv; [|done]. injection Hstep as <- <- <-.
    apply validate_counts in Hv as (Hle & _ & _); [|simpl; lia|lia]. split; [done|]. split; [done|]. split.
    - rewrite <- nrender_snoc. f_equal. f_equal. destruct b; [done|]. cbn [nframe_expr frame_expr]. by rewrite nested_items_of.
    - revert Hle. destruct (bool_decide _); unfold MaxMixedCriteriaExpressions, MaxCriteriaExpressions; lia. }
  destruct Hs as (-> & -> & -> & Hlen). intros H. apply IH in H as [-> Hc]; [|done]. split; [by rewrite <- (assoc_L (++))|].
  replace (cc' - cc) with (1 + (cc' - (cc + 1))) by lia.
  replace (te' - te) with (Z.of_nat (length b) + (te' - (te + Z.of_nat (length b)))) by lia.
  apply (counted_app _ _ _ _ _ [FConds b] (map FConds bs)); [|done].
  split; [done|]. split; [unfold sum_list; simpl; lia|]. by constructor.
Qed.
(** A loop over elements that add frames. *)
Lemma native_loop {A} (step : A -> list gexpr -> result goerr (Z * Z * list gexpr)) eval eval_ip limit (P : A -> Prop) l :
  (forall a fs cc te g, a ∈ l -> step a (nrender fs) = Ok (cc, te, g) ->
     exists fs', g = nrender (fs ++ fs') /\ native_frames eval eval_ip limit cc te (P a) fs') ->
  forall cc0 te0 fs cc te g,
  range_result (fun st a => match step a st.2 with
    | Err e => Err e
    | Ok (c, t, g) => Ok (st.1.1 + c, st.1.2 + t, g)
    end) (cc0, te0, nrender fs) l = Ok (cc, te, g) ->
  exists fs', g = nrender (fs ++ fs') /\ native_frames eval eval_ip limit (cc - cc0) (te - te0) (exists a, a ∈ l /\ P a) fs'.
Proof.
  induction l as [|a l IH]; intros Hstep cc0 te0 fs cc te g H.
  - injection H as <- <- <-. exists []. rewrite app_nil_r, !Z.sub_diag. split; [done|]. split; [done|].
    split; [split; [done|intros (? & ?%elem_of_nil & _); done]|by split].
  - cbn [range_result] in H. destruct (step a (nrender fs)) as [[[c t] g1]|] eqn:Hs; [|simpl in H; by rewrite Hs in H].
    simpl in H. rewrite Hs in H. apply Hstep in Hs as (f1 & -> & Hok1 & HP1 & Hc1); [|by left].
    apply IH in H as (f2 & -> & Hok2 & HP2 & Hc2); [|intros; apply Hstep; [by right|done]].
    exists (f1 ++ f2). split; [by rewrite <- (assoc_L (++))|]. split; [by apply Forall_app|]. split.
    + rewrite existsb_app, orb_true_iff, HP1, HP2. set_solver.
    + replace (cc - cc0) with (c + (cc - (cc0 + c))) by lia. replace (te - te0) with (t + (te - (te0 + t))) by lia.
      unfold cond_frames in *. rewrite filter_app. by apply counted_app.
Qed.

Section NativeGroups.
Context (VPCMode : bool) (Cluster nsUID : string).
Context (T : string -> string -> string -> Prop) (vmType : string) (eval : condition -> bool)
  (Hsem : native_semantics T vmType eval) (Hfun : forall mt, functional_labels (native_labels T mt))
  (eval_ip : list string -> bool) (HCluster : Cluster <> "") (HnsUID : nsUID <> "").

(** The members targets and peers select: by the tags of their Namespace, the
    type of the machine, and the tags of the machine. *)
Definition in_namespace (isVM : bool) : Prop := T MemberTypeNamespace (getScopeNamespaceUIDTag VPCMode isVM) nsUID.
Definition native_target_matches (t : SecurityPolicyTarget) : Prop :=
  in_namespace (match t_VMSelector t with Some _ => true | None => false end) /\
  match native_sel (t_PodSelector t) (t_VMSelector t) with
  | Some (s, ty) => selector_matches (native_labels T MemberTypeVirtualMachine) s /\ vmType = ty
  | None => vmType = VMTypePod
  end.
Definition native_good_target (t : SecurityPolicyTarget) : Prop :=
  forall s ty, native_sel (t_PodSelector t) (t_VMSelector t) = Some (s, ty) -> native_good_selector s.
Definition native_peer_matches (p : SecurityPolicyPeer) : Prop :=
  (p_IPBlocks p <> [] /\ eval_ip (p_IPBlocks p) = true) \/
  (native_sel (p_PodSelector p) (p_VMSelector p) <> None \/ p_NamespaceSelector p <> None) /\
  match p_NamespaceSelector p with
  | Some s => T MemberTypeNamespace (getScopeCluserTag VPCMode) Cluster /\ selector_matches (native_labels T MemberTypeNamespace) s
  | None => in_namespace (match p_VMSelector p with Some _ => true | None => false end)
  end /\
  match native_sel (p_PodSelector p) (p_VMSelector p) with
  | Some (s, ty) => selector_matches (native_labels T MemberTypeVirtualMachine) s /\ vmType = ty
  | None => True
  end.
Definition native_good_peer (p : SecurityPolicyPeer) : Prop :=
  (forall s ty, native_sel (p_PodSelector p) (p_VMSelector p) = Some (s, ty) -> native_good_selector s) /\
  (forall s, p_NamespaceSelector p = Some s -> native_good_selector s).

Lemma ns_cond_holds isVM :
  eval (buildNativeNamespaceCondition (getScopeNamespaceUIDTag VPCMode isVM) nsUID "EQUALS") = true <-> in_namespace isVM.
Proof. apply (sem_tag _ _ (ns_tags _ _ _ Hsem)); [|done]. by destruct VPCMode, isVM. Qed.
Lemma cluster_cond_holds :
  eval (buildNativeNamespaceCondition (getScopeCluserTag VPCMode) Cluster "EQUALS") = true <->
  T MemberTypeNamespace (getScopeCluserTag VPCMode) Cluster.
Proof. apply (sem_tag _ _ (ns_tags _ _ _ Hsem)); [|done]. by destruct VPCMode. Qed.
Lemma branch_frames bs : existsb (eval_frame eval eval_ip) (map FConds bs) = true <-> branches_hold eval bs.
Proof.
  rewrite existsb_exists. unfold branches_hold. split.
  - intros (f & Hf & He). apply list_elem_of_In, list_elem_of_fmap in Hf as (b & -> & Hb). eauto.
  - intros (b & Hb & He). exists (FConds b). split; [apply list_elem_of_In, list_elem_of_fmap; eauto|done].
Qed.
Lemma conds_frames (bs : list (list condition)) : cond_frames (map FConds bs) = map FConds bs.
Proof. unfold cond_frames. apply filter_all. by apply Forall_fmap, Forall_forall. Qed.
Lemma branches_base base bs :
  branches_hold eval (map (fun b => base ++ b) bs) <-> forallb eval base = true /\ branches_hold eval bs.
Proof.
  unfold branches_hold. split.
  - intros (b & (b' & -> & Hb)%list_elem_of_fmap & He). rewrite forallb_app in He. apply andb_true_iff in He as [? ?]. eauto.
  - intros (Hb & b & Hin & He). exists (base ++ b). split; [apply list_elem_of_fmap; eauto|]. by rewrite forallb_app, Hb.
Qed.
Lemma branches_two base bs bs' :
  branches_hold eval (mjoin (map (fun b => map (fun b' => base ++ b ++ b') bs') bs)) <->
  forallb eval base = true /\ branches_hold eval bs /\ branches_hold eval bs'.
Proof.
  unfold branches_hold. split.
  - intros (b & (l & Hb & (b1 & -> & H1)%list_elem_of_fmap)%list_elem_of_join & He).
    apply list_elem_of_fmap in Hb as (b2 & -> & H2). rewrite !forallb_app in He. apply andb_true_iff in He as [? [? ?]%andb_true_iff]. eauto 10.
  - intros (Hb & (b1 & H1 & E1) & b2 & H2 & E2). exists (base ++ b1 ++ b2). split; [|by rewrite !forallb_app, Hb, E1].
    apply list_elem_of_join. exists (map (fun b' => base ++ b1 ++ b') bs'). split; apply list_elem_of_fmap; eauto.
Qed.
(** A machine selector: its conditions with that on the type. *)
Lemma machine_meaning s ty conds inE :
  native_good_selector s -> buildNativeSelectorConditions (Some s) MemberTypeVirtualMachine = Ok (conds, inE) ->
  forallb eval (conds ++ [buildNativeVMTypeCondition ty]) = true /\ branches_hold eval (in_branches inE MemberTypeVirtualMachine) <->
  selector_matches (native_labels T MemberTypeVirtualMachine) s /\ vmType = ty.
Proof.
  intros Hg Hc. rewrite <- (native_selector_meaning T vmType eval Hsem _ _ _ _ Hg (Hfun _) Hc), <- (ns_node _ _ _ Hsem ty).
  rewrite forallb_app. cbn [forallb]. rewrite andb_true_r, andb_true_iff. naive_solver.
Qed.
Lemma native_target_frames t fs cc te g :
  native_good_target t -> updateNativeTargetExpressions VPCMode nsUID t (nrender fs) = Ok (cc, te, g) ->
  exists fs', g = nrender (fs ++ fs') /\
    native_frames eval eval_ip MaxMixedCriteriaExpressions cc te (native_target_matches t) fs'.
Proof.
  unfold native_good_target, updateNativeTargetExpressions, native_target_matches.
  set (go := fun isVM selector vmType => match buildNativeSelectorConditions selector MemberTypeVirtualMachine with
      | Err e => Err e
      | Ok (selectorConds, inExpr) =>
          range_result native_criterion (0, 0, nrender fs)
            (map (fun b => ([buildNativeNamespaceCondition (getScopeNamespaceUIDTag VPCMode isVM) nsUID "EQUALS"] ++ selectorConds ++ [buildNativeVMTypeCondition vmType]) ++ b) (in_branches inExpr MemberTypeVirtualMachine))
      end).
  intros Hgood H.
  assert (Hgo : forall isVM sel ty, go isVM sel ty = Ok (cc, te, g) -> (forall s, sel = Some s -> native_good_selector s) ->
    exists fs', g = nrender (fs ++ fs') /\ native_frames eval eval_ip MaxMixedCriteriaExpressions cc te
      (in_namespace isVM /\ match sel with Some s => selector_matches (native_labels T MemberTypeVirtualMachine) s /\ vmType = ty | None => vmType = ty end) fs').
  { intros isVM sel ty Hg Hs. unfold go in Hg. destruct (buildNativeSelectorConditions sel _) as [[conds inE]|] eqn:Hc; [|done].
    apply native_criteria in Hg as [-> Hcnt]; [|by apply Forall_fmap, Forall_forall]. rewrite !Z.sub_0_r in Hcnt.
    eexists. split; [done|]. split; [by apply Forall_fmap, Forall_fmap, Forall_forall|]. split; [|by rewrite conds_frames].
    rewrite branch_frames, branches_base. cbn [app forallb]. rewrite andb_true_iff, ns_cond_holds.
    destruct sel as [s|]; [rewrite <- (machine_meaning s ty conds inE (Hs s eq_refl) Hc); tauto|].
    injection Hc as <- <-. cbn [app forallb]. rewrite andb_true_r, (ns_node _ _ _ Hsem).
    split; [tauto|]. intros [? ?]. split; [done|]. exists []. split; [by apply list_elem_of_singleton|done]. }
  destruct (t_PodSelector t) as [ps|], (t_VMSelector t) as [vs|]; [done|..].
  - apply (Hgo false (Some ps) VMTypePod H). intros s [= <-]. by eapply Hgood.
  - apply (Hgo true (Some vs) VMTypeRegular H). intros s [= <-]. by eapply Hgood.
  - apply (Hgo false None VMTypePod H). done.
Qed.
Lemma ip_step_native p fs :
  (if bool_decide (p_IPBlocks p = []) then nrender fs
   else appendOperatorIfNeeded "OR" (nrender fs) ++ [IPAddressExpression (p_IPBlocks p)]) = nrender (fs ++ ip_frames p).
Proof.
  unfold ip_frames. destruct (p_IPBlocks p) as [|b bs]; [by rewrite app_nil_r|]. rewrite bool_decide_false by done.
  by rewrite <- nrender_snoc.
Qed.
Lemma ip_frames_hold p : existsb (eval_frame eval eval_ip) (ip_frames p) = true <-> p_IPBlocks p <> [] /\ eval_ip (p_IPBlocks p) = true.
Proof. unfold ip_frames. destruct (p_IPBlocks p); simpl; [naive_solver|]. rewrite orb_false_r. naive_solver. Qed.
(** The conditions on the Namespace, and those on the machine. *)
Lemma peer_parts p nsConds nsIn vmConds vmIn :
  native_good_peer p -> native_ns_conditions VPCMode Cluster nsUID p = Ok (nsConds, nsIn) -> native_vm_conditions p = Ok (vmConds, vmIn) ->
  nsConds <> [] /\
  (forallb eval (nsConds ++ vmConds) = true /\ branches_hold eval (in_branches nsIn MemberTypeNamespace) /\
   branches_hold eval (in_branches vmIn MemberTypeVirtualMachine) <->
   match p_NamespaceSelector p with
   | Some s => T MemberTypeNamespace (getScopeCluserTag VPCMode) Cluster /\ selector_matches (native_labels T MemberTypeNamespace) s
   | None => in_namespace (match p_VMSelector p with Some _ => true | None => false end)
   end /\
   match native_sel (p_PodSelector p) (p_VMSelector p) with
   | Some (s, ty) => selector_matches (native_labels T MemberTypeVirtualMachine) s /\ vmType = ty
   | None => True
   end).
Proof.
  intros [Hg1 Hg2] Hns Hvm. unfold native_ns_conditions in Hns. unfold native_vm_conditions in Hvm. rewrite forallb_app, andb_true_iff.
  assert (Hone : branches_hold eval [[]]) by (exists []; split; [by apply list_elem_of_singleton|done]).
  assert (H2 : forallb eval vmConds = true /\ branches_hold eval (in_branches vmIn MemberTypeVirtualMachine) <->
    match native_sel (p_PodSelector p) (p_VMSelector p) with
    | Some (s, ty) => selector_matches (native_labels T MemberTypeVirtualMachine) s /\ vmType = ty
    | None => True
    end).
  { destruct (native_sel _ _) as [[s ty]|]; [|by injection Hvm as <- <-].
    destruct (buildNativeSelectorConditions _ _) as [[c i]|] eqn:Hc; [|done]. injection Hvm as <- <-.
    apply machine_meaning; [by eapply Hg1|done]. }
  rewrite <- H2. clear H2 Hvm. destruct (p_NamespaceSelector p) as [s|].
  - destruct (buildNativeSelectorConditions _ _) as [[c i]|] eqn:Hc; [|done]. injection Hns as <- <-. split; [done|].
    rewrite <- (native_selector_meaning T vmType eval Hsem _ _ _ _ (Hg2 s eq_refl) (Hfun _) Hc).
    cbn [app forallb]. rewrite andb_true_iff, cluster_cond_holds. tauto.
  - injection Hns as <- <-. split; [done|]. cbn [forallb]. rewrite andb_true_r, ns_cond_holds. cbn [in_branches]. tauto.
Qed.
Lemma native_branches_nonempty nsIn vmIn base : base <> [] -> Forall (fun b => b <> []) (native_branches nsIn vmIn base).
Proof.
  intros Hb. apply Forall_forall. intros b (l & Hin & Hl)%list_elem_of_join. apply list_elem_of_fmap in Hl as (b2 & -> & _).
  apply list_elem_of_fmap in Hin as (b1 & -> & _). by destruct base.
Qed.
Lemma native_peer_frames p fs cc te g :
  native_good_peer p -> updateNativePeerExpressions VPCMode Cluster nsUID p (nrender fs) = Ok (cc, te, g) ->
  exists fs', g = nrender (fs ++ fs') /\
    native_frames eval eval_ip MaxMixedCriteriaExpressions cc te (native_peer_matches p) fs'.
Proof.
  intros Hgood. unfold updateNativePeerExpressions, native_peer_matches. rewrite ip_step_native. cbv zeta.
  assert (Hipok : Forall frame_ok (ip_frames p)) by (unfold ip_frames; destruct (p_IPBlocks p); by repeat constructor).
  assert (Hipc : cond_frames (ip_frames p) = []) by (unfold ip_frames; by destruct (p_IPBlocks p)).
  set (sel := native_sel (p_PodSelector p) (p_VMSelector p)). set (body := match native_ns_conditions _ _ _ p with Ok _ => _ | Err e => Err e end).
  intros H. assert (H' : (match sel, p_NamespaceSelector p with None, None => Ok (0, 0, nrender (fs ++ ip_frames p)) | _, _ => body end) = Ok (cc, te, g)).
  { destruct (p_PodSelector p), (p_VMSelector p); [done|exact H..]. }
  clear H. assert (Hcase : (sel = None /\ p_NamespaceSelector p = None) \/ (sel <> None \/ p_NamespaceSelector p <> None)).
  { destruct sel, (p_NamespaceSelector p); auto. }
  destruct Hcase as [[Hs Hn]|Hsome].
  { rewrite Hs, Hn in H' |- *. injection H' as <- <- <-. exists (ip_frames p). split; [done|]. split; [done|].
    rewrite ip_frames_hold, Hipc. split; [naive_solver|]. by split. }
  assert (Hb : body = Ok (cc, te, g)) by (destruct sel, (p_NamespaceSelector p); naive_solver). clear H'. subst body.
  destruct (native_ns_conditions _ _ _ p) as [[nsConds nsIn]|] eqn:Hns; [|done].
  destruct (native_vm_conditions p) as [[vmConds vmIn]|] eqn:Hvm; [|done]. destruct (_ && _); [done|].
  destruct (peer_parts p _ _ _ _ Hgood Hns Hvm) as [Hne Hparts]. fold sel in Hparts.
  assert (Hne' : nsConds ++ vmConds <> []) by by destruct nsConds. pose proof (native_branches_nonempty nsIn vmIn _ Hne') as Hbr.
  apply native_criteria in Hb as [-> Hcnt]; [|done]. rewrite !Z.sub_0_r in Hcnt.
  exists (ip_frames p ++ map FConds (native_branches nsIn vmIn (nsConds ++ vmConds))). split; [by rewrite <- (assoc_L (++))|]. split.
  - apply Forall_app. split; [done|]. by apply Forall_fmap.
  - split; [|unfold cond_frames; rewrite filter_app; fold (cond_frames (ip_frames p)); rewrite Hipc; by setoid_rewrite conds_frames].
    rewrite existsb_app, orb_true_iff, ip_frames_hold, branch_frames. unfold native_branches.
    rewrite branches_two. rewrite Hparts. naive_solver.
Qed.

(** C10. The inventory-based groups mean what the selectors mean: when the code
    accepts the targets of a policy, the criteria of their group hold, under
    NSX's reading of conditions, for exactly the machines some target selects
    (by the Namespace, the type of machine and the labels), and likewise for
    the peers of a rule and their addresses; and the groups respect the limits
    of 5 criteria, 15 conditions in each and 35 in all. It is stated for
    expressions that are not empty and for selectors as Kubernetes admits them
    (keys without '|', values without commas), within the limits of NSX tags
    (keys of at most 128 bytes) and without empty label values: of a label
    with an empty value the code makes a condition that any value meets
    ([empty_value_is_exists]). An 'In' that has lost all its values is refused
    here, not left out. *)
Theorem native_expression_meaning m1 m2 g :
  let meaning (P : Prop) :=
    (exists b, eval_group eval eval_ip g = Some b /\ (b = true <-> P)) /\
    exists fs, g = nrender fs /\ (length (cond_frames fs) <= 5)%nat /\
      (sum_list (map frame_size (cond_frames fs)) <= 35)%nat /\ Forall (fun f => (frame_size f <= 15)%nat) (cond_frames fs) in
  (forall targets, g <> [] -> Forall native_good_target targets ->
     native_targets_expression VPCMode nsUID m1 m2 targets = Ok g -> meaning (exists t, t ∈ targets /\ native_target_matches t)) /\
  (forall peers, g <> [] -> Forall native_good_peer peers ->
     native_peers_expression VPCMode Cluster nsUID m1 m2 peers = Ok g -> meaning (exists p, p ∈ peers /\ native_peer_matches p)).
Proof.
  intros meaning.
  assert (Hfin : forall cc te P fs, g <> [] -> cc <= MaxCriteria -> te <= MaxTotalCriteriaExpressions -> g = nrender fs ->
    native_frames eval eval_ip MaxMixedCriteriaExpressions cc te P fs -> meaning P).
  { intros cc te P fs Hne Hcc Hte Hg (Hok & HP & Hn & Hs & Hf). unfold MaxCriteria, MaxTotalCriteriaExpressions, MaxMixedCriteriaExpressions in *. split.
    - exists (existsb (eval_frame eval eval_ip) fs). split; [|done]. subst g. apply eval_group_nrender; [|done]. by intros ->.
    - exists fs. split; [done|]. split; [lia|]. split; [lia|]. apply (Forall_impl _ _ _ Hf). intros f. lia. }
  split; intros l Hne Hgood H.
  - unfold native_targets_expression in H. destruct (range_result _ _ _) as [[[cc te] g']|] eqn:Hl; [|done].
    destruct (check_totals m1 m2 cc te) eqn:Ht; [done|]. injection H as <-. apply check_totals_None in Ht as [Hc Ht].
    apply (native_loop (updateNativeTargetExpressions VPCMode nsUID) eval eval_ip MaxMixedCriteriaExpressions native_target_matches l) with (fs := []) in Hl
      as (fs' & Hg & Hfr); [rewrite !Z.sub_0_r in Hfr; by eapply Hfin|].
    intros t fs cc' te' g'' Hin Hs. apply (native_target_frames t fs _ _ _ (proj1 (Forall_forall _ _) Hgood t Hin) Hs).
  - unfold native_peers_expression in H. destruct (range_result _ _ _) as [[[cc te] g']|] eqn:Hl; [|done].
    destruct (check_totals m1 m2 cc te) eqn:Ht; [done|]. injection H as <-. apply check_totals_None in Ht as [Hc Ht].
    apply (native_loop (updateNativePeerExpressions VPCMode Cluster nsUID) eval eval_ip MaxMixedCriteriaExpressions native_peer_matches l) with (fs := []) in Hl
      as (fs' & Hg & Hfr); [rewrite !Z.sub_0_r in Hfr; by eapply Hfin|].
    intros p fs cc' te' g'' Hin Hs. apply (native_peer_frames p fs _ _ _ (proj1 (Forall_forall _ _) Hgood p Hin) Hs).
Qed.
End NativeGroups.

(** ** A concrete evaluator *)
Definition native_eval (tags : list (string * string * string)) (vmType : string) (c : condition) : bool :=
  if bool_decide (c_key c = "NodeType") then bool_decide (vmType = c_value c) else nsx_eval tags c.
Lemma native_eval_semantics tags vmType : tags_ok tags -> native_semantics (has_tag tags) vmType (native_eval tags vmType).
Proof.
  intros Hok. pose proof (nsx_eval_semantics tags Hok) as [H1 H2 H3 H4].
  assert (Hk : forall c, c_key c = "Tag" -> native_eval tags vmType c = nsx_eval tags c).
  { intros c Hc. unfold native_eval. by rewrite Hc. }
  split; [split; intros; rewrite Hk by done; eauto| |].
  - intros mt k Hg. rewrite Hk by done. exact (H3 mt k Hg).
  - intros ty. apply bool_decide_eq_true.
Qed.
Definition ex_native_tags : list (string * string * string) :=
  [("Namespace", "nsx-op/cluster", "c1"); ("Namespace", "nsx-op/namespace_uid", "u1"); ("Namespace", "team", "a");
   ("VirtualMachine", "K8sTag/app", "web"); ("VirtualMachine", "K8sTag/tier", "back")].
Definition ex_native_targets : list SecurityPolicyTarget := [ex_target; mkTarget None None].
Definition ex_native_group : list gexpr := expression_of (native_targets_expression true "u1" "criteria" "expressions" ex_native_targets).
Definition ex_native_peer_group : list gexpr := expression_of (native_peers_expression true "c1" "u1" "criteria" "expressions" ex_peers).
Example ex_native_values :
  eval_group (native_eval ex_native_tags "POD") (fun _ => false) ex_native_group = Some true /\
  eval_group (native_eval ex_native_tags "REGULAR") (fun _ => false) ex_native_group = Some false /\
  eval_group (native_eval ex_native_tags "POD") (fun _ => false) ex_native_peer_group = Some true.
Proof. by vm_compute. Qed.
Lemma native_expression_meaning_witness :
  (exists b, eval_group (native_eval ex_native_tags "POD") (fun _ => false) ex_native_group = Some b /\
     (b = true <-> exists t, t ∈ ex_native_targets /\ native_target_matches true "u1" (has_tag ex_native_tags) "POD" t)) /\
  (exists b, eval_group (native_eval ex_native_tags "POD") (fun _ => false) ex_native_peer_group = Some b /\
     (b = true <-> exists p, p ∈ ex_peers /\ native_peer_matches true "c1" "u1" (has_tag ex_native_tags) "POD" (fun _ => false) p)).
Proof.
  assert (Hok : tags_ok ex_native_tags) by by repeat constructor.
  assert (Hfun : forall mt, functional_labels (native_labels (has_tag ex_native_tags) mt)).
  { intros mt k v v'. unfold native_labels. apply functional_tags. apply (bool_decide_eq_true_1 _). by vm_compute. }
  pose proof (native_expression_meaning true "c1" "u1" (has_tag ex_native_tags) "POD" (native_eval ex_native_tags "POD")
    (native_eval_semantics _ _ Hok) Hfun (fun _ => false) ltac:(done) ltac:(done) "criteria" "expressions") as H.
  split.
  - apply (proj1 (H ex_native_group) ex_native_targets); [by vm_compute| |by vm_compute].
    constructor; [|constructor; [by intros|done]]. intros s ty [= <- <-]. apply (bool_decide_eq_true_1 _). by vm_compute.
  - apply (proj2 (H ex_native_peer_group) ex_peers); [by vm_compute| |by vm_compute].
    constructor; [split|constructor; [split; by intros|done]].
    + intros s ty [= <- <-]. apply (bool_decide_eq_true_1 _). by vm_compute.
    + intros s [= <-]. apply (bool_decide_eq_true_1 _). by vm_compute.
Defined.
