(* ===== verification/NetPolicy.v ===== *)
(** * pkg/nsx/services/securitypolicy: policies and their conversion

    The SecurityPolicy resource with its rules, the parsing of rules (parse.go),
    the text of ports and service entries (builder.go), and the translation of
    a Kubernetes NetworkPolicy into two SecurityPolicies, one that allows and
    one that isolates (firewall.go). *)
From S2P Require Import Prelude GoStrings GoNet Errors NsxUtil IPUtil Names GroupExpr.

(** ** SecurityPolicy *)

(** [intstr.IntOrString]. *)
Inductive IntOrString := IInt (n : Z) | IStr (s : string).
#[global] Instance IntOrString_eq_dec : EqDecision IntOrString.
Proof. solve_decision. Defined.
Definition IntOrString_String (p : IntOrString) : string := match p with IInt n => itoa n | IStr s => s end.
Definition IntValue (p : IntOrString) : Z := match p with IInt n => n | IStr s => default 0 (atoi s) end.

Record SecurityPolicyPort := mkPort { port_Protocol : string; port_Port : IntOrString; port_EndPort : Z }.
#[global] Instance SecurityPolicyPort_eq_dec : EqDecision SecurityPolicyPort.
Proof. solve_decision. Defined.
(** Action and direction are required by the API: the pointers are not nil. *)
Record SecurityPolicyRule := mkRule {
  r_Action : string; r_AppliedTo : list SecurityPolicyTarget; r_Direction : string;
  r_Sources : list SecurityPolicyPeer; r_Destinations : list SecurityPolicyPeer;
  r_From : list SecurityPolicyPeer; r_To : list SecurityPolicyPeer;
  r_Ports : list SecurityPolicyPort; r_Name : string }.
Record SecurityPolicy := mkSecurityPolicy {
  sp_Namespace : string; sp_Name : string; sp_UID : string;
  sp_Priority : Z; sp_AppliedTo : list SecurityPolicyTarget; sp_Rules : list SecurityPolicyRule }.

Definition CRRuleActionAllow := "Allow".
Definition CRRuleActionDrop := "Drop".
Definition CRRuleActionReject := "Reject".
Definition RuleDirectionIn := "In".
Definition RuleDirectionIngress := "Ingress".
Definition RuleDirectionOut := "Out".
Definition RuleDirectionEgress := "Egress".
Definition RuleIngress := "ingress".
Definition RuleEgress := "egress".
Definition RuleActionAllow := "allow".
Definition RuleActionDrop := "isolation".
Definition RuleActionReject := "reject".
Definition RuleAnyPorts := "all".
Definition PriorityNetworkPolicyAllowRule : Z := 2010.
Definition PriorityNetworkPolicyIsolationRule : Z := 2090.

(** ** parse.go *)
Definition validRuleActions : list string :=
  [to_upper CRRuleActionAllow; to_upper CRRuleActionDrop; to_upper CRRuleActionReject].
Definition getRuleAction (rule : SecurityPolicyRule) : result goerr string :=
  let ruleAction := to_upper (r_Action rule) in
  if decide (ruleAction ∈ validRuleActions) then Ok ruleAction else Err (EText "invalid rule action").
Definition getRuleDirection (rule : SecurityPolicyRule) : result goerr string :=
  let ruleDirection := to_upper (r_Direction rule) in
  if bool_decide (ruleDirection = to_upper RuleDirectionIngress) || bool_decide (ruleDirection = to_upper RuleDirectionIn)
  then Ok "IN"
  else if bool_decide (ruleDirection = to_upper RuleDirectionEgress) || bool_decide (ruleDirection = to_upper RuleDirectionOut)
  then Ok "OUT"
  else Err (EText "invalid rule direction").

(** ** Peers of a rule *)
Definition normalizeRulePeers (rule : SecurityPolicyRule) : SecurityPolicyRule :=
  let from := if bool_decide (length (r_From rule) = 0%nat) && bool_decide (length (r_Sources rule) <> 0%nat)
              then r_Sources rule else r_From rule in
  let to := if bool_decide (length (r_To rule) = 0%nat) && bool_decide (length (r_Destinations rule) <> 0%nat)
            then r_Destinations rule else r_To rule in
  mkRule (r_Action rule) (r_AppliedTo rule) (r_Direction rule) [] [] from to (r_Ports rule) (r_Name rule).
Definition normalizeSecurityPolicyRules (obj : SecurityPolicy) : SecurityPolicy :=
  mkSecurityPolicy (sp_Namespace obj) (sp_Name obj) (sp_UID obj) (sp_Priority obj) (sp_AppliedTo obj)
    (map normalizeRulePeers (sp_Rules obj)).
Definition getRuleSourcePeers (rule : SecurityPolicyRule) : list SecurityPolicyPeer :=
  match r_From rule with [] => r_Sources rule | l => l end.
Definition getRuleDestinationPeers (rule : SecurityPolicyRule) : list SecurityPolicyPeer :=
  match r_To rule with [] => r_Destinations rule | l => l end.
(** The blocks of one peer that no earlier block of the rule repeats. *)
Fixpoint dedup_cidrs (cached : gset string) (blocks : list string) : gset string * list string :=
  match blocks with
  | [] => (cached, [])
  | b :: blocks' =>
      if bool_decide (b = "") || bool_decide (b ∈ cached) then dedup_cidrs cached blocks'
      else let '(c, l) := dedup_cidrs ({[b]} ∪ cached) blocks' in (c, b :: l)
  end.
Fixpoint dedup_peers (cached : gset string) (rulePeers : list SecurityPolicyPeer) : list SecurityPolicyPeer :=
  match rulePeers with
  | [] => []
  | p :: rulePeers' =>
      match p_IPBlocks p with
      | [] => p :: dedup_peers cached rulePeers'
      | blocks =>
          let '(c, l) := dedup_cidrs cached blocks in
          mkPeer (p_VMSelector p) (p_PodSelector p) (p_NamespaceSelector p) l :: dedup_peers c rulePeers'
      end
  end.
Definition dedupBlocks (rulePeers : list SecurityPolicyPeer) : list SecurityPolicyPeer := dedup_peers ∅ rulePeers.

(** ** Ports *)
Definition zeroPort : IntOrString := IInt 0.
Record service_entry := mkServiceEntry { source_ports : list string; destination_ports : list string; l4_protocol : string }.
#[global] Instance service_entry_eq_dec : EqDecision service_entry.
Proof. solve_decision. Defined.
Definition buildRuleServiceEntries (port : SecurityPolicyPort) : service_entry :=
  let destinationPorts :=
    if negb (bool_decide (port_Port port = zeroPort)) || negb (bool_decide (port_EndPort port = 0)) then
      [if bool_decide (port_EndPort port = 0) || bool_decide (port_EndPort port = IntValue (port_Port port))
       then IntOrString_String (port_Port port)
       else IntOrString_String (port_Port port) +:+ "-" +:+ itoa (port_EndPort port)]
    else [] in
  mkServiceEntry [] destinationPorts (port_Protocol port).
Definition buildRulePortNumberString (port : SecurityPolicyPort) : string :=
  if negb (bool_decide (port_EndPort port = 0))
  then IntOrString_String (port_Port port) +:+ "." +:+ itoa (port_EndPort port)
  else IntOrString_String (port_Port port).
Definition buildRulePortString (port : SecurityPolicyPort) : string :=
  port_Protocol port +:+ "." +:+ buildRulePortNumberString port.
Definition buildRulePortsString (ports : list SecurityPolicyPort) : string :=
  match ports with [] => RuleAnyPorts | _ => join "_" (map buildRulePortString ports) end.
Definition buildRulePortsNumberString (ports : list SecurityPolicyPort) : string :=
  match ports with [] => RuleAnyPorts | _ => join "_" (map buildRulePortNumberString ports) end.
Definition hasNamedPort (rule : SecurityPolicyRule) : bool :=
  existsb (fun port => match port_Port port with IStr _ => true | IInt _ => false end) (r_Ports rule).

(** ** NetworkPolicy *)
Record IPBlock := mkIPBlock { CIDR : string; Except : option (list string) }.
Record NetworkPolicyPeer := mkNpPeer {
  np_PodSelector : option LabelSelector; np_NamespaceSelector : option LabelSelector; np_IPBlock : option IPBlock }.
Record NetworkPolicyPort := mkNpPort {
  np_Protocol : option string; np_Port : option IntOrString; np_EndPort : option Z }.
(** An ingress rule ([From]) or an egress rule ([To]). *)
Record NetworkPolicyRule := mkNpRule { np_Ports : list NetworkPolicyPort; np_Peers : list NetworkPolicyPeer }.
Record NetworkPolicy := mkNetworkPolicy {
  np_Namespace : string; np_Name : string; np_UID : string;
  np_Selector : LabelSelector; np_Ingress : list NetworkPolicyRule; np_Egress : list NetworkPolicyRule;
  np_PolicyTypes : list string }.
Definition PolicyTypeIngress := "Ingress".
Definition PolicyTypeEgress := "Egress".

Section Conversion.
(** How [%s] prints a peer in the error message. *)
Context (format_peer : NetworkPolicyPeer -> string).

(** [GetCIDRRangesWithExcept] fails with an error of the standard library. *)
Definition convertNetworkPolicyPeerToSecurityPolicyPeer (npPeer : NetworkPolicyPeer) : result goerr SecurityPolicyPeer :=
  match np_PodSelector npPeer, np_NamespaceSelector npPeer, np_IPBlock npPeer with
  | Some s, None, None => Ok (mkPeer None (Some s) None [])
  | None, Some n, None => Ok (mkPeer None (Some (mkSelector ∅ [])) (Some n) [])
  | Some s, Some n, None => Ok (mkPeer None (Some s) (Some n) [])
  | None, None, Some b =>
      match Except b with
      | None => Ok (mkPeer None None None [CIDR b])
      | Some except =>
          match GetCIDRRangesWithExcept (CIDR b) except with
          | None => Err (EText "invalid CIDR address")
          | Some ranges => Ok (mkPeer None None None ranges)
          end
      end
  | _, _, _ => Err (EValidation ("unsupported NetworkPolicyPeer: " +:+ format_peer npPeer))
  end.
Definition convertNetworkPolicyPortToSecurityPolicyPort (npPort : NetworkPolicyPort) : SecurityPolicyPort :=
  mkPort (default "" (np_Protocol npPort)) (default zeroPort (np_Port npPort)) (default 0 (np_EndPort npPort)).
Definition convert_peers (l : list NetworkPolicyPeer) : result goerr (list SecurityPolicyPeer) :=
  range_result (fun acc p =>
    match convertNetworkPolicyPeerToSecurityPolicyPeer p with Ok q => Ok (acc ++ [q]) | Err e => Err e end) [] l.

(** One rule of the allow section; [ingress] says which one. *)
Definition convert_rule (ingress : bool) (r : NetworkPolicyRule) : result goerr SecurityPolicyRule :=
  match convert_peers (np_Peers r) with
  | Err e => Err e
  | Ok peers =>
      let ports := map convertNetworkPolicyPortToSecurityPolicyPort (np_Ports r) in
      Ok (if ingress then mkRule CRRuleActionAllow [] RuleDirectionIn [] [] peers [] ports ""
          else mkRule CRRuleActionAllow [] RuleDirectionOut [] [] [] peers ports "")
  end.
Definition add_rules (sp : SecurityPolicy) (rules : list SecurityPolicyRule) : SecurityPolicy :=
  mkSecurityPolicy (sp_Namespace sp) (sp_Name sp) (sp_UID sp) (sp_Priority sp) (sp_AppliedTo sp) (sp_Rules sp ++ rules).
Definition allow_step (ingress : bool) (sp : SecurityPolicy) (r : NetworkPolicyRule) : result goerr SecurityPolicy :=
  match convert_rule ingress r with Ok rule => Ok (add_rules sp [rule]) | Err e => Err e end.
Definition populateRulesForAllowSection (spAllow : SecurityPolicy) (np : NetworkPolicy) : result goerr SecurityPolicy :=
  match range_result (allow_step true) spAllow (np_Ingress np) with
  | Err e => Err e
  | Ok sp => range_result (allow_step false) sp (np_Egress np)
  end.
Definition isolation_step (sp : SecurityPolicy) (policyType : string) : result goerr SecurityPolicy :=
  if bool_decide (policyType = PolicyTypeIngress) then
    Ok (add_rules sp [mkRule CRRuleActionDrop [] RuleDirectionIn [] [] [] [] [] (join "_" [RuleIngress; RuleActionDrop])])
  else if bool_decide (policyType = PolicyTypeEgress) then
    Ok (add_rules sp [mkRule CRRuleActionDrop [] RuleDirectionOut [] [] [] [] [] (join "_" [RuleEgress; RuleActionDrop])])
  else Err (EValidation ("invalid network policy type " +:+ policyType)).
Definition populateRulesForIsolationSection (spIsolation : SecurityPolicy) (np : NetworkPolicy) : result goerr SecurityPolicy :=
  range_result isolation_step spIsolation (np_PolicyTypes np).
Definition BuildNetworkPolicyAllowPolicyID (uid : string) : string := join "_" [uid; RuleActionAllow].
Definition BuildNetworkPolicyIsolationPolicyID (uid : string) : string := join "_" [uid; RuleActionDrop].
Definition generateSectionForNetworkPolicy (np : NetworkPolicy) (sectionType : string) : SecurityPolicy :=
  let target := [mkTarget None (Some (np_Selector np))] in
  if bool_decide (sectionType = RuleActionDrop)
  then mkSecurityPolicy (np_Namespace np) (np_Name np) (BuildNetworkPolicyIsolationPolicyID (np_UID np))
         PriorityNetworkPolicyIsolationRule target []
  else mkSecurityPolicy (np_Namespace np) (np_Name np) (BuildNetworkPolicyAllowPolicyID (np_UID np))
         PriorityNetworkPolicyAllowRule target [].
Definition convertNetworkPolicyToInternalSecurityPolicies (np : NetworkPolicy) : result goerr (list SecurityPolicy) :=
  match populateRulesForAllowSection (generateSectionForNetworkPolicy np RuleActionAllow) np with
  | Err e => Err e
  | Ok spAllow =>
      match populateRulesForIsolationSection (generateSectionForNetworkPolicy np RuleActionDrop) np with
      | Err e => Err e
      | Ok spIsolation => Ok [spAllow; spIsolation]
      end
  end.
End Conversion.
(** [parseSuffixInUid]: the UID of the resource and the section. *)
Definition parseSuffixInUid (uid : string) : string * string :=
  let parts := split_on "_" uid in (default "" (parts !! 0%nat), default "" (parts !! 1%nat)).

(** ** What policies mean *)

(** A Pod with its labels and those of its Namespace, and an endpoint of the
    traffic: a Pod or not, with an address. *)
Record pod := mkPod { pod_ns : string; pod_ns_labels : gmap string string; pod_labels : gmap string string }.
Record endpoint := mkEndpoint { ep_pod : option pod; ep_ip : IP }.
Definition labels_of (m : gmap string string) (k v : string) : Prop := m !! k = Some v.
Definition selects (s : LabelSelector) (m : gmap string string) : Prop := selector_matches (labels_of m) s.

(** An entry of [ip_addresses]: a block, or a range from an address to one. *)
Definition entry_holds (s : string) (a : IP) : Prop :=
  match cidr_block s with
  | Some b => length a = length b.1 /\ in_block b (be_val a)
  | None =>
      match split_on "-" s with
      | [lo; hi] =>
          match parse_addr lo, parse_addr hi with
          | Some l, Some h => length a = length l /\ length a = length h /\ be_val l <= be_val a <= be_val h
          | _, _ => False
          end
      | _ => False
      end
  end.

Section Meaning.
(** The numbers a port name stands for on the destination, by protocol. *)
Context (named : string -> string -> Z -> Prop).

(** *** NetworkPolicy, as Kubernetes documents it *)
Definition block_contains (b : IPBlock) (a : IP) : Prop :=
  exists c, cidr_block (CIDR b) = Some c /\ length a = length c.1 /\ in_block c (be_val a) /\
  forall e, e ∈ default [] (Except b) -> forall d, cidr_block e = Some d -> ~ (length a = length d.1 /\ in_block d (be_val a)).
Definition np_peer_matches (ns : string) (p : NetworkPolicyPeer) (e : endpoint) : Prop :=
  match np_PodSelector p, np_NamespaceSelector p, np_IPBlock p with
  | Some s, None, None => exists q, ep_pod e = Some q /\ pod_ns q = ns /\ selects s (pod_labels q)
  | None, Some n, None => exists q, ep_pod e = Some q /\ selects n (pod_ns_labels q)
  | Some s, Some n, None => exists q, ep_pod e = Some q /\ selects n (pod_ns_labels q) /\ selects s (pod_labels q)
  | None, None, Some b => block_contains b (ep_ip e)
  | _, _, _ => False
  end.
Definition np_port_matches (p : NetworkPolicyPort) (proto : string) (dport : Z) : Prop :=
  proto = default "TCP" (np_Protocol p) /\
  match np_Port p with
  | None => True
  | Some (IInt n) => match np_EndPort p with None => dport = n | Some m => n <= dport <= m end
  | Some (IStr s) => named s proto dport
  end.
Definition np_rule_matches (ns : string) (r : NetworkPolicyRule) (e : endpoint) (proto : string) (dport : Z) : Prop :=
  (np_Peers r = [] \/ exists p, p ∈ np_Peers r /\ np_peer_matches ns p e) /\
  (np_Ports r = [] \/ exists p, p ∈ np_Ports r /\ np_port_matches p proto dport).
Definition np_selects (np : NetworkPolicy) (q : pod) : Prop := pod_ns q = np_Namespace np /\ selects (np_Selector np) (pod_labels q).
Definition np_rules (np : NetworkPolicy) (ingress : bool) : list NetworkPolicyRule := if ingress then np_Ingress np else np_Egress np.
Definition policy_type (ingress : bool) : string := if ingress then PolicyTypeIngress else PolicyTypeEgress.
Definition np_allows (np : NetworkPolicy) (ingress : bool) (e : endpoint) (proto : string) (dport : Z) : Prop :=
  exists r, r ∈ np_rules np ingress /\ np_rule_matches (np_Namespace np) r e proto dport.

(** *** SecurityPolicy *)
Definition sp_peer_matches (ns : string) (p : SecurityPolicyPeer) (e : endpoint) : Prop :=
  (exists s, s ∈ p_IPBlocks p /\ entry_holds s (ep_ip e)) \/
  match p_PodSelector p, p_NamespaceSelector p with
  | Some s, None => exists q, ep_pod e = Some q /\ pod_ns q = ns /\ selects s (pod_labels q)
  | Some s, Some n => exists q, ep_pod e = Some q /\ selects n (pod_ns_labels q) /\ selects s (pod_labels q)
  | None, Some n => exists q, ep_pod e = Some q /\ selects n (pod_ns_labels q)
  | None, None => False
  end.
Definition sp_port_matches (p : SecurityPolicyPort) (proto : string) (dport : Z) : Prop :=
  proto = port_Protocol p /\
  match port_Port p with
  | IInt n => if bool_decide (port_EndPort p = 0) then n = 0 \/ dport = n else n <= dport <= port_EndPort p
  | IStr s => named s proto dport
  end.
Definition direction_of (ingress : bool) : string := if ingress then "IN" else "OUT".
Definition sp_rule_matches (ns : string) (r : SecurityPolicyRule) (ingress : bool) (e : endpoint) (proto : string) (dport : Z) : Prop :=
  getRuleDirection r = Ok (direction_of ingress) /\
  (let peers := if ingress then getRuleSourcePeers r else getRuleDestinationPeers r in
   peers = [] \/ exists p, p ∈ peers /\ sp_peer_matches ns p e) /\
  (r_Ports r = [] \/ exists p, p ∈ r_Ports r /\ sp_port_matches p proto dport).
Definition sp_applies (sp : SecurityPolicy) (q : pod) : Prop :=
  exists t s, t ∈ sp_AppliedTo sp /\ t_PodSelector t = Some s /\ pod_ns q = sp_Namespace sp /\ selects s (pod_labels q).
(** The rules of policies in the order NSX tries them: a rule that matches
    decides, unless an earlier one that matches says otherwise. *)
Definition rules_of (sps : list SecurityPolicy) : list (SecurityPolicy * SecurityPolicyRule) :=
  mjoin (map (fun sp => map (pair sp) (sp_Rules sp)) sps).
Definition hits (q : pod) (ingress : bool) (e : endpoint) (proto : string) (dport : Z) (x : SecurityPolicy * SecurityPolicyRule) : Prop :=
  sp_applies x.1 q /\ sp_rule_matches (sp_Namespace x.1) x.2 ingress e proto dport.
Definition decides (sps : list SecurityPolicy) (q : pod) (ingress : bool) (e : endpoint) (proto : string) (dport : Z) (action : string) : Prop :=
  exists l1 x l2, rules_of sps = l1 ++ x :: l2 /\ hits q ingress e proto dport x /\
    (forall y, y ∈ l1 -> hits q ingress e proto dport y -> getRuleAction y.2 = Ok action) /\ getRuleAction x.2 = Ok action.
End Meaning.

(** *** Policies the API server admits *)
Definition np_port_ok (p : NetworkPolicyPort) : Prop :=
  is_Some (np_Protocol p) /\
  match np_Port p with
  | None => np_EndPort p = None
  | Some (IInt n) => 1 <= n /\ match np_EndPort p with None => True | Some m => n <= m end
  | Some (IStr s) => np_EndPort p = None
  end.
(** IPv4 excepts inside the address space, or none at all. *)
Definition np_block_ok (b : IPBlock) : Prop :=
  exists c, cidr_block (CIDR b) = Some c /\
  match Except b with
  | None => True
  | Some es => length c.1 = 4%nat /\ main_ok c /\ exists ds, Forall2 (fun e d => cidr_block e = Some d /\ except_ok 4 d) es ds
  end.
Definition np_peer_ok (p : NetworkPolicyPeer) : Prop :=
  match np_PodSelector p, np_NamespaceSelector p, np_IPBlock p with
  | Some _, _, None | None, Some _, None => True
  | None, None, Some b => np_block_ok b
  | _, _, _ => False
  end.
Definition np_rule_ok (r : NetworkPolicyRule) : Prop := Forall np_peer_ok (np_Peers r) /\ Forall np_port_ok (np_Ports r).
Definition np_ok (np : NetworkPolicy) : Prop :=
  Forall np_rule_ok (np_Ingress np) /\ Forall np_rule_ok (np_Egress np) /\
  Forall (fun t => t = PolicyTypeIngress \/ t = PolicyTypeEgress) (np_PolicyTypes np).

(** *** Entries *)
Lemma index_byte_None c s : contains_byte c s = false -> index_byte c s = None.
Proof. induction s as [|b s IH]; simpl; [done|]. case_decide; [done|]. intros Hb. by rewrite IH. Qed.
Lemma entry_range r a :
  wf_range 4 r -> entry_holds (IP_String r.1 +:+ "-" +:+ IP_String r.2) a <-> length a = 4%nat /\ in_range r (be_val a).
Proof.
  intros [[Hw1 Hl1 _ _] [Hw2 Hl2 _ _] _ _ _]. rewrite !IP_String_v4 by done. unfold entry_holds.
  assert (Hno : cidr_block (dotted r.1 +:+ "-" +:+ dotted r.2) = None).
  { unfold cidr_block, cut_slash. rewrite index_byte_None; [done|].
    rewrite !contains_byte_app, !dotted_no_byte by done. done. }
  rewrite Hno. change ("-" +:+ dotted r.2) with (String "-" (dotted r.2)).
  rewrite split_on_app_sep by by apply dotted_no_byte. rewrite split_on_no_sep by by apply dotted_no_byte.
  rewrite !parse_dotted by done. unfold in_range. rewrite Hl1, Hl2. tauto.
Qed.
Lemma selects_all m : selects (mkSelector ∅ []) m.
Proof. split; [intros k v; cbn [MatchLabels]; by rewrite lookup_empty|]. intros r Hr. by apply elem_of_nil in Hr. Qed.

(** *** Parts of a rule *)
Lemma block_ranges b rs c es ds a :
  cidr_block (CIDR b) = Some c -> Except b = Some es -> length c.1 = 4%nat ->
  Forall2 (fun e d => cidr_block e = Some d /\ except_ok 4 d) es ds -> Forall (wf_range 4) rs ->
  (forall x, in_ranges rs x <-> in_block c x /\ Forall (fun e => ~ in_block e x) ds) ->
  (exists s, s ∈ map (fun r => IP_String r.1 +:+ "-" +:+ IP_String r.2) rs /\ entry_holds s a) <-> block_contains b a.
Proof.
  intros Hc He Hl Hes Hwf Hin. rewrite Forall_forall in Hwf.
  assert (Hr : (exists s, s ∈ map (fun r => IP_String r.1 +:+ "-" +:+ IP_String r.2) rs /\ entry_holds s a) <->
    length a = 4%nat /\ in_ranges rs (be_val a)).
  { split.
    - intros (s & (r & -> & Hr)%list_elem_of_fmap & Hs). apply entry_range in Hs as [? ?]; [|auto]. split; [done|]. by exists r.
    - intros [Ha (r & Hr & Hx)]. eexists. split; [apply list_elem_of_fmap; exists r; done|]. apply entry_range; auto. }
  rewrite Hr, Hin. unfold block_contains. rewrite He. cbn [default from_option id].
  assert (Hds : Forall (fun e => ~ in_block e (be_val a)) ds <->
    forall e, e ∈ es -> forall d, cidr_block e = Some d -> ~ (4%nat = length d.1 /\ in_block d (be_val a))).
  { clear Hr Hin He. induction Hes as [|e d es ds [Hed [Hd _]] _ IH]; [split; [intros _ e He'; by apply elem_of_nil in He'|by intros; constructor]|].
    rewrite Forall_cons, IH. split.
    - intros [H1 H2] e' [->|He']%elem_of_cons d' Hd'; [|by eapply H2]. simplify_eq. naive_solver.
    - intros H. split; [|intros e' He'; apply H; by right]. intros Hx. eapply H; [by left|exact Hed|done]. }
  split.
  - intros (Ha & Hx & Hn). exists c. rewrite Ha, Hl. split; [done|]. split; [done|]. split; [done|]. by apply Hds.
  - intros (c' & Hc' & Ha & Hx & Hn). simplify_eq. rewrite Hl in Ha. rewrite Ha in Hn |- *. split; [done|]. split; [done|]. by apply Hds.
Qed.
Section Parts.
Context (format_peer : NetworkPolicyPeer -> string).
Lemma convert_peer_meaning p :
  np_peer_ok p -> exists q, convertNetworkPolicyPeerToSecurityPolicyPeer format_peer p = Ok q /\
    forall ns e, sp_peer_matches ns q e <-> np_peer_matches ns p e.
Proof.
  unfold np_peer_ok, convertNetworkPolicyPeerToSecurityPolicyPeer, np_peer_matches, sp_peer_matches.
  destruct p as [[s|] [n|] [b|]]; cbn [np_PodSelector np_NamespaceSelector np_IPBlock]; try done; intros Hok.
  - eexists. split; [done|]. intros ns e. cbn. set_solver.
  - eexists. split; [done|]. intros ns e. cbn. set_solver.
  - eexists. split; [done|]. intros ns e. cbn. pose proof selects_all. set_solver.
  - destruct Hok as (c & Hc & Hex). destruct (Except b) as [es|] eqn:He.
    + destruct Hex as (Hl & Hmain & ds & Hes). rewrite <- Hl in Hes.
      destruct (cidr_ranges_difference _ _ _ _ Hc Hmain Hes) as (rs & Hrs & Hwf & Hin). rewrite Hrs. eexists. split; [done|].
      rewrite Hl in *. intros ns e. cbn [p_IPBlocks p_PodSelector p_NamespaceSelector].
      rewrite (block_ranges b rs c es ds (ep_ip e)) by done. naive_solver.
    + eexists. split; [done|]. intros ns e. cbn [p_IPBlocks p_PodSelector p_NamespaceSelector]. unfold block_contains. rewrite He. cbn [default from_option id].
      split.
      * intros [(s & ->%list_elem_of_singleton & Hs)|[]]. unfold entry_holds in Hs. rewrite Hc in Hs. exists c.
        destruct Hs. split; [done|]. split; [done|]. split; [done|]. intros e' He'. by apply elem_of_nil in He'.
      * intros (c' & Hc' & Hl & Hx & _). left. exists (CIDR b). split; [by apply list_elem_of_singleton|].
        unfold entry_holds. rewrite Hc'. done.
Qed.
Lemma convert_peers_meaning l :
  Forall np_peer_ok l -> exists l', convert_peers format_peer l = Ok l' /\
    forall ns e, (l' = [] \/ exists q, q ∈ l' /\ sp_peer_matches ns q e) <-> (l = [] \/ exists p, p ∈ l /\ np_peer_matches ns p e).
Proof.
  intros Hok.
  assert (H : forall acc, exists l', range_result (fun acc p =>
      match convertNetworkPolicyPeerToSecurityPolicyPeer format_peer p with Ok q => Ok (acc ++ [q]) | Err e => Err e end) acc l = Ok (acc ++ l') /\
    Forall2 (fun p q => forall ns e, sp_peer_matches ns q e <-> np_peer_matches ns p e) l l').
  { induction Hok as [|p l Hp _ IH]; intros acc; [exists []; split; [by rewrite app_nil_r|constructor]|].
    destruct (convert_peer_meaning p Hp) as (q & Hq & Hm). cbn [range_result]. rewrite Hq.
    destruct (IH (acc ++ [q])) as (l' & -> & Hl'). exists (q :: l'). split; [by rewrite <- (assoc_L (++))|by constructor]. }
  destruct (H []) as (l' & Hl' & Hm). exists l'. split; [exact Hl'|]. clear Hl' H. intros ns e. split.
  - intros [->|(q & Hq & Hs)]; [inversion Hm; by left|right].
    apply list_elem_of_lookup in Hq as [i Hi]. destruct (Forall2_lookup_r _ _ _ _ _ Hm Hi) as (p & Hp & Hpq).
    exists p. split; [by eapply list_elem_of_lookup_2|by apply Hpq].
  - intros [->|(p & Hp & Hs)]; [inversion Hm; by left|right].
    apply list_elem_of_lookup in Hp as [i Hi]. destruct (Forall2_lookup_l _ _ _ _ _ Hm Hi) as (q & Hq & Hpq).
    exists q. split; [by eapply list_elem_of_lookup_2|by apply Hpq].
Qed.
Context (named : string -> string -> Z -> Prop).
Lemma convert_port_meaning p proto dport :
  np_port_ok p -> sp_port_matches named (convertNetworkPolicyPortToSecurityPolicyPort p) proto dport <-> np_port_matches named p proto dport.
Proof.
  intros [[pr Hpr] Hok]. unfold sp_port_matches, np_port_matches, convertNetworkPolicyPortToSecurityPolicyPort.
  cbn [port_Protocol port_Port port_EndPort]. rewrite Hpr. cbn [default from_option id].
  destruct (np_Port p) as [[n|s]|]; cbn [default from_option id].
  - destruct Hok as [Hn Hm]. destruct (np_EndPort p) as [m|]; cbn [default from_option id].
    + rewrite bool_decide_false by lia. done.
    + rewrite bool_decide_true by done. f_equiv. split; [intros [?|?]; [lia|done]|auto].
  - done.
  - rewrite Hok. cbn [default from_option id]. rewrite bool_decide_true by done. split; intros [? _]; (split; [done|]); [done|by left].
Qed.
Lemma convert_ports_meaning l proto dport :
  Forall np_port_ok l ->
  (map convertNetworkPolicyPortToSecurityPolicyPort l = [] \/
   exists q, q ∈ map convertNetworkPolicyPortToSecurityPolicyPort l /\ sp_port_matches named q proto dport) <->
  (l = [] \/ exists p, p ∈ l /\ np_port_matches named p proto dport).
Proof.
  intros Hok. rewrite Forall_forall in Hok. split.
  - intros [H|(q & (p & -> & Hp)%list_elem_of_fmap & Hs)]; [left; by destruct l|right]. exists p. split; [done|].
    apply convert_port_meaning; auto.
  - intros [->|(p & Hp & Hs)]; [by left|right]. eexists. split; [apply list_elem_of_fmap; exists p; done|]. apply convert_port_meaning; auto.
Qed.
End Parts.

(** *** The two sections *)
Section Sections.
Context (format_peer : NetworkPolicyPeer -> string) (named : string -> string -> Z -> Prop).
Lemma convert_rule_meaning ingress r :
  np_rule_ok r -> exists rule, convert_rule format_peer ingress r = Ok rule /\ getRuleAction rule = Ok "ALLOW" /\
    forall ns dir e proto dport, sp_rule_matches named ns rule dir e proto dport <->
      dir = ingress /\ np_rule_matches named ns r e proto dport.
Proof.
  intros [Hp Hq]. destruct (convert_peers_meaning format_peer _ Hp) as (l' & Hl' & Hm). unfold convert_rule. rewrite Hl'.
  exists (if ingress then mkRule CRRuleActionAllow [] RuleDirectionIn [] [] l' [] (map convertNetworkPolicyPortToSecurityPolicyPort (np_Ports r)) ""
          else mkRule CRRuleActionAllow [] RuleDirectionOut [] [] [] l' (map convertNetworkPolicyPortToSecurityPolicyPort (np_Ports r)) "").
  split; [by destruct ingress|]. split; [by destruct ingress|]. intros ns dir e proto dport. unfold sp_rule_matches, np_rule_matches.
  rewrite <- (convert_ports_meaning named _ proto dport Hq), <- Hm.
  assert (Hpeers : forall rule, (rule = mkRule CRRuleActionAllow [] RuleDirectionIn [] [] l' [] (r_Ports rule) "" -> getRuleSourcePeers rule = l') /\
    (rule = mkRule CRRuleActionAllow [] RuleDirectionOut [] [] [] l' (r_Ports rule) "" -> getRuleDestinationPeers rule = l')).
  { intros rule. unfold getRuleSourcePeers, getRuleDestinationPeers. split; intros ->; cbn; by destruct l'. }
  destruct ingress, dir; cbn [r_Ports]; rewrite ?(proj1 (Hpeers _) eq_refl), ?(proj2 (Hpeers _) eq_refl).
  - split; [intros (_ & H1 & H2)|intros (_ & H1 & H2)]; done.
  - split; [intros (H1 & _)|intros (H1 & _)]; done.
  - split; [intros (H1 & _)|intros (H1 & _)]; done.
  - split; [intros (_ & H1 & H2)|intros (_ & H1 & H2)]; done.
Qed.
Lemma allow_steps ingress rs sp :
  Forall np_rule_ok rs -> exists rules, range_result (allow_step format_peer ingress) sp rs = Ok (add_rules sp rules) /\
    Forall (fun rule => getRuleAction rule = Ok "ALLOW") rules /\
    forall ns dir e proto dport, (exists rule, rule ∈ rules /\ sp_rule_matches named ns rule dir e proto dport) <->
      dir = ingress /\ exists r, r ∈ rs /\ np_rule_matches named ns r e proto dport.
Proof.
  intros Hok. revert sp. induction Hok as [|r rs Hr _ IH]; intros sp.
  - exists []. split; [unfold add_rules; rewrite app_nil_r; by destruct sp|]. split; [constructor|]. intros. set_solver.
  - destruct (convert_rule_meaning ingress r Hr) as (rule & Hrule & Hact & Hm). cbn [range_result]. unfold allow_step at 1. rewrite Hrule.
    destruct (IH (add_rules sp [rule])) as (rules & -> & Hacts & Hms). exists (rule :: rules).
    split; [unfold add_rules; cbn; by rewrite <- (assoc_L (++))|]. split; [by constructor|]. intros ns dir e proto dport. split.
    + intros (x & [->|Hx]%elem_of_cons & Hxm); [apply Hm in Hxm as [-> ?]; set_solver|].
      destruct (proj1 (Hms ns dir e proto dport)) as [-> (y & Hy & Hym)]; [eauto|]. split; [done|]. exists y. set_solver.
    + intros [-> (y & [->|Hy]%elem_of_cons & Hym)]; [exists rule; split; [set_solver|by apply Hm]|].
      destruct (proj2 (Hms ns ingress e proto dport)) as (x & Hx & Hxm); [eauto|]. exists x. set_solver.
Qed.
Lemma allow_section np :
  Forall np_rule_ok (np_Ingress np) -> Forall np_rule_ok (np_Egress np) ->
  exists rules, populateRulesForAllowSection format_peer (generateSectionForNetworkPolicy np RuleActionAllow) np =
      Ok (add_rules (generateSectionForNetworkPolicy np RuleActionAllow) rules) /\
    Forall (fun rule => getRuleAction rule = Ok "ALLOW") rules /\
    forall dir e proto dport, (exists rule, rule ∈ rules /\ sp_rule_matches named (np_Namespace np) rule dir e proto dport) <->
      np_allows named np dir e proto dport.
Proof.
  intros Hi He. unfold populateRulesForAllowSection. set (sp := generateSectionForNetworkPolicy _ _).
  destruct (allow_steps true _ sp Hi) as (r1 & -> & Ha1 & Hm1).
  destruct (allow_steps false _ (add_rules sp r1) He) as (r2 & -> & Ha2 & Hm2). exists (r1 ++ r2).
  split; [unfold add_rules; cbn; by rewrite <- (assoc_L (++))|]. split; [by apply Forall_app|]. intros dir e proto dport. unfold np_allows, np_rules.
  specialize (Hm1 (np_Namespace np) dir e proto dport). specialize (Hm2 (np_Namespace np) dir e proto dport). split.
  - intros (x & [Hx|Hx]%elem_of_app & Hxm); [destruct (proj1 Hm1) as [-> ?]|destruct (proj1 Hm2) as [-> ?]]; eauto.
  - intros H. destruct dir; [destruct (proj2 Hm1) as (x & Hx & ?)|destruct (proj2 Hm2) as (x & Hx & ?)]; try done; exists x; set_solver.
Qed.
Lemma isolation_section np :
  Forall (fun t => t = PolicyTypeIngress \/ t = PolicyTypeEgress) (np_PolicyTypes np) ->
  exists rules, populateRulesForIsolationSection (generateSectionForNetworkPolicy np RuleActionDrop) np =
      Ok (add_rules (generateSectionForNetworkPolicy np RuleActionDrop) rules) /\
    Forall (fun rule => getRuleAction rule = Ok "DROP") rules /\
    forall ns dir e proto dport, (exists rule, rule ∈ rules /\ sp_rule_matches named ns rule dir e proto dport) <->
      policy_type dir ∈ np_PolicyTypes np.
Proof.
  unfold populateRulesForIsolationSection. generalize (generateSectionForNetworkPolicy np RuleActionDrop) as sp. intros sp Hok.
  revert sp. induction Hok as [|t ts Ht _ IH]; intros sp.
  - exists []. split; [unfold add_rules; rewrite app_nil_r; by destruct sp|]. split; [constructor|]. intros. set_solver.
  - assert (Hstep : exists rule d, isolation_step sp t = Ok (add_rules sp [rule]) /\ getRuleAction rule = Ok "DROP" /\ t = policy_type d /\
        forall ns dir e proto dport, sp_rule_matches named ns rule dir e proto dport <-> dir = d).
    { destruct Ht as [->| ->]; [eexists _, true|eexists _, false]; (split; [done|]); (split; [done|]); (split; [done|]);
        intros ns dir e proto dport; unfold sp_rule_matches; destruct dir; cbn; (split; [intros (H & _)|intros H]); try done;
        (split; [done|]); split; by left. }
    destruct Hstep as (rule & d & Hs & Hact & -> & Hm). cbn [range_result]. rewrite Hs.
    destruct (IH (add_rules sp [rule])) as (rules & -> & Hacts & Hms). exists (rule :: rules).
    split; [unfold add_rules; cbn; by rewrite <- (assoc_L (++))|]. split; [by constructor|]. intros ns dir e proto dport.
    rewrite elem_of_cons, <- (Hms ns dir e proto dport). split.
    + intros (x & [->|Hx]%elem_of_cons & Hxm); [apply Hm in Hxm as ->; by left|right; eauto].
    + intros [Hd|(x & Hx & Hxm)]; [|exists x; set_solver]. exists rule. split; [set_solver|]. apply Hm. by destruct dir, d.
Qed.
End Sections.

Lemma add_rules_meaning named sp rules q ingress e proto dport rule :
  hits named q ingress e proto dport (add_rules sp rules, rule) <->
  sp_applies sp q /\ sp_rule_matches named (sp_Namespace sp) rule ingress e proto dport.
Proof. done. Qed.
Lemma section_applies np t q : sp_applies (generateSectionForNetworkPolicy np t) q <-> np_selects np q.
Proof.
  unfold sp_applies, generateSectionForNetworkPolicy, np_selects. case_bool_decide; cbn;
    (split; [intros (x & s & ->%list_elem_of_singleton & [= <-] & ? & ?); done|
             intros [? ?]; exists (mkTarget None (Some (np_Selector np))), (np_Selector np); set_solver]).
Qed.
Lemma section_namespace np t : sp_Namespace (generateSectionForNetworkPolicy np t) = np_Namespace np.
Proof. unfold generateSectionForNetworkPolicy. by case_bool_decide. Qed.
(** Two sections, each with rules of one action. *)
Lemma two_sections (H : SecurityPolicy * SecurityPolicyRule -> Prop) sp1 sp2 r1 r2 a1 a2 :
  a1 <> a2 ->
  Forall (fun rule => getRuleAction rule = Ok a1) r1 -> Forall (fun rule => getRuleAction rule = Ok a2) r2 ->
  let dec a := exists l1 x l2, rules_of [add_rules sp1 r1; add_rules sp2 r2] = l1 ++ x :: l2 /\ H x /\
    (forall y, y ∈ l1 -> H y -> getRuleAction y.2 = Ok a) /\ getRuleAction x.2 = Ok a in
  sp_Rules sp1 = [] -> sp_Rules sp2 = [] ->
  let hit1 := exists rule, rule ∈ r1 /\ H (add_rules sp1 r1, rule) in
  let hit2 := exists rule, rule ∈ r2 /\ H (add_rules sp2 r2, rule) in
  forall a, dec a <-> (a = a1 /\ hit1) \/ (a = a2 /\ ~ hit1 /\ hit2).
Proof.
  intros Hne H1 H2 dec E1 E2 hit1 hit2 a. rewrite Forall_forall in H1. rewrite Forall_forall in H2. unfold dec.
  assert (Hr : rules_of [add_rules sp1 r1; add_rules sp2 r2] = map (pair (add_rules sp1 r1)) r1 ++ map (pair (add_rules sp2 r2)) r2).
  { unfold rules_of. cbn [map mjoin list_join]. rewrite app_nil_r. unfold add_rules. cbn [sp_Rules]. by rewrite E1, E2. }
  rewrite Hr. clear Hr. split.
  - intros (l1 & x & l2 & Heq & Hx & Hl & Hact).
    assert (Hcase : (exists rule, rule ∈ r1 /\ x = (add_rules sp1 r1, rule)) \/
      ((exists rule, rule ∈ r2 /\ x = (add_rules sp2 r2, rule)) /\ forall rule, rule ∈ r1 -> (add_rules sp1 r1, rule) ∈ l1)).
    { apply app_eq_app in Heq as (l & [[Hl1 Hl2]|[Hl1 Hl2]]).
      - destruct l as [|y l]; [right|left].
        + simpl in Hl2. split; [|intros rule Hin; rewrite app_nil_r in Hl1; rewrite <- Hl1; apply list_elem_of_fmap; eauto].
          assert (Hin : x ∈ map (pair (add_rules sp2 r2)) r2) by (rewrite <- Hl2; set_solver).
          apply list_elem_of_fmap in Hin as (rule & -> & ?). eauto.
        + simpl in Hl2. injection Hl2 as -> _. assert (Hin : y ∈ map (pair (add_rules sp1 r1)) r1) by (rewrite Hl1; set_solver).
          apply list_elem_of_fmap in Hin as (rule & -> & ?). eauto.
      - right. split.
        + assert (Hin : x ∈ map (pair (add_rules sp2 r2)) r2) by (rewrite Hl2; set_solver).
          apply list_elem_of_fmap in Hin as (rule & -> & ?). eauto.
        + intros rule Hin. rewrite Hl1. apply elem_of_app. left. apply list_elem_of_fmap. eauto. }
    destruct Hcase as [(rule & Hin & ->)|[(rule & Hin & ->) Hall]]; cbn [snd] in Hact.
    + left. rewrite (H1 _ Hin) in Hact. split; [congruence|]. by exists rule.
    + right. rewrite (H2 _ Hin) in Hact. split; [congruence|]. split; [|by exists rule].
      intros (rule1 & Hin1 & Hh1). pose proof (Hl _ (Hall _ Hin1) Hh1) as Hc. cbn [snd] in Hc. rewrite (H1 _ Hin1) in Hc. congruence.
  - intros [[-> (rule & Hin & Hh)]|(-> & Hno & rule & Hin & Hh)].
    + apply list_elem_of_split in Hin as (k1 & k2 & Hr1). exists (map (pair (add_rules sp1 r1)) k1), (add_rules sp1 r1, rule),
        (map (pair (add_rules sp1 r1)) k2 ++ map (pair (add_rules sp2 r2)) r2). split.
      { rewrite Hr1 at 2. rewrite map_app. cbn [map]. by rewrite <- (assoc_L (++)). }
      split; [done|]. split; [|cbn [snd]; apply H1; rewrite Hr1; set_solver].
      intros y (rule' & -> & Hin)%list_elem_of_fmap _. cbn [snd]. apply H1. rewrite Hr1. set_solver.
    + apply list_elem_of_split in Hin as (k1 & k2 & Hr2). exists (map (pair (add_rules sp1 r1)) r1 ++ map (pair (add_rules sp2 r2)) k1),
        (add_rules sp2 r2, rule), (map (pair (add_rules sp2 r2)) k2). split.
      { rewrite Hr2 at 2. rewrite map_app. cbn [map]. by rewrite <- (assoc_L (++)). }
      split; [done|]. split; [|cbn [snd]; apply H2; rewrite Hr2; set_solver].
      intros y [(rule' & -> & Hin)%list_elem_of_fmap|(rule' & -> & Hin)%list_elem_of_fmap]%elem_of_app Hy; cbn [snd].
      * destruct Hno. by exists rule'.
      * apply H2. rewrite Hr2. set_solver.
Qed.

(** *** Properties *)

(** C5. Translating a NetworkPolicy keeps its meaning: for every policy the API
    server admits (with IPv4 excepts), the conversion succeeds and gives the
    allow section before the isolation section; for a Pod the policy selects
    and a direction it lists, the sections allow the traffic exactly when some
    rule of the NetworkPolicy does and drop it exactly when none does; they
    decide nothing for other Pods; and in a direction the policy does not list
    they can only allow. *)
Theorem networkpolicy_conversion format_peer named np :
  np_ok np ->
  exists sps, convertNetworkPolicyToInternalSecurityPolicies format_peer np = Ok sps /\
    map sp_Priority sps = [PriorityNetworkPolicyAllowRule; PriorityNetworkPolicyIsolationRule] /\
    forall q ingress e proto dport,
    let dec := decides named sps q ingress e proto dport in
    (np_selects np q -> policy_type ingress ∈ np_PolicyTypes np ->
       (dec "ALLOW" <-> np_allows named np ingress e proto dport) /\ (dec "DROP" <-> ~ np_allows named np ingress e proto dport)) /\
    (~ np_selects np q -> forall a, ~ dec a) /\
    (policy_type ingress ∉ np_PolicyTypes np -> forall a, dec a -> a = "ALLOW" /\ np_allows named np ingress e proto dport).
Proof.
  intros (Hi & He & Ht). destruct (allow_section format_peer named np Hi He) as (r1 & Hr1 & Ha1 & Hm1).
  destruct (isolation_section named np Ht) as (r2 & Hr2 & Ha2 & Hm2).
  set (sp1 := generateSectionForNetworkPolicy np RuleActionAllow) in *. set (sp2 := generateSectionForNetworkPolicy np RuleActionDrop) in *.
  exists [add_rules sp1 r1; add_rules sp2 r2].
  split; [unfold convertNetworkPolicyToInternalSecurityPolicies; fold sp1 sp2; by rewrite Hr1, Hr2|]. split; [done|].
  intros q ingress e proto dport dec.
  assert (Hdec : forall a, dec a <-> (a = "ALLOW" /\ np_selects np q /\ np_allows named np ingress e proto dport) \/
    (a = "DROP" /\ ~ (np_selects np q /\ np_allows named np ingress e proto dport) /\ np_selects np q /\ policy_type ingress ∈ np_PolicyTypes np)).
  { intros a. unfold dec, decides. rewrite (two_sections (hits named q ingress e proto dport) sp1 sp2 r1 r2 "ALLOW" "DROP"); [|done..].
    assert (E1 : (exists rule, rule ∈ r1 /\ hits named q ingress e proto dport (add_rules sp1 r1, rule)) <->
      np_selects np q /\ np_allows named np ingress e proto dport).
    { rewrite <- Hm1, <- (section_applies np RuleActionAllow q). setoid_rewrite add_rules_meaning. unfold sp1. rewrite section_namespace. naive_solver. }
    assert (E2 : (exists rule, rule ∈ r2 /\ hits named q ingress e proto dport (add_rules sp2 r2, rule)) <->
      np_selects np q /\ policy_type ingress ∈ np_PolicyTypes np).
    { rewrite <- (Hm2 (np_Namespace np) ingress e proto dport), <- (section_applies np RuleActionDrop q). setoid_rewrite add_rules_meaning.
      unfold sp2. rewrite section_namespace. naive_solver. }
    by rewrite E1, E2. }
  split; [|split].
  - intros Hs Hpt. rewrite !Hdec. split; (split; [intros [(? & ? & ?)|(? & ? & ?)]|intros ?]); try done; naive_solver.
  - intros Hs a Ha. apply Hdec in Ha. naive_solver.
  - intros Hpt a Ha. apply Hdec in Ha. naive_solver.
Qed.

(** An entry of [destination_ports]: a port or a range of ports. *)
Definition dport_holds (s : string) (d : Z) : Prop :=
  match split_on "-" s with
  | [a] => atoi a = Some d
  | [a; b] => exists n m, atoi a = Some n /\ atoi b = Some m /\ n <= d <= m
  | _ => False
  end.
Lemma dport_single n d : 0 <= n <= 65535 -> dport_holds (itoa n) d <-> d = n.
Proof.
  intros Hn. unfold dport_holds. rewrite split_on_no_sep by (apply digits_no_byte; [done|]; apply itoa_digits; lia).
  rewrite atoi_itoa by (unfold max_int64; lia). split; [by intros [= ->]|by intros ->].
Qed.
Lemma dport_range n m d :
  0 <= n <= 65535 -> 0 <= m <= 65535 -> dport_holds (itoa n +:+ "-" +:+ itoa m) d <-> n <= d <= m.
Proof.
  intros Hn Hm. unfold dport_holds. change ("-" +:+ itoa m) with (String "-" (itoa m)).
  rewrite split_on_app_sep by (apply digits_no_byte; [done|]; apply itoa_digits; lia).
  rewrite split_on_no_sep by (apply digits_no_byte; [done|]; apply itoa_digits; lia).
  rewrite !atoi_itoa by (unfold max_int64; lia). split; [by intros (? & ? & [= <-] & [= <-] & ?)|]. intros ?. by exists n, m.
Qed.
(** The service entry NSX gets for a numeric port means what the port of
    the rule means: its protocol, and, read back from the text of its
    destination ports, every port when none is given, one port, or the range
    up to the end port. *)
Theorem buildRuleServiceEntries_meaning named port n proto d :
  port_Port port = IInt n -> 0 <= n <= 65535 -> 0 <= port_EndPort port <= 65535 ->
  let entry := buildRuleServiceEntries port in
  (proto = l4_protocol entry /\ (destination_ports entry = [] \/ exists s, s ∈ destination_ports entry /\ dport_holds s d)) <->
  sp_port_matches named port proto d.
Proof.
  intros Hp Hn He entry. unfold sp_port_matches. rewrite Hp. unfold entry, buildRuleServiceEntries. rewrite Hp. cbn [l4_protocol destination_ports IntValue IntOrString_String].
  f_equiv. unfold zeroPort. destruct (decide (port_EndPort port = 0)) as [E0|E0].
  - rewrite (bool_decide_true (port_EndPort port = 0)) by done. cbn [negb orb]. rewrite orb_false_r.
    destruct (decide (n = 0)) as [->|Hn0].
    + rewrite bool_decide_true by done. cbn [negb]. naive_solver.
    + rewrite bool_decide_false by congruence. cbn [negb]. split.
      * intros [?|(s & ->%list_elem_of_singleton & Hs)]; [done|]. right. by apply dport_single.
      * intros [?|Hd]; [done|]. right. eexists. split; [by apply list_elem_of_singleton|]. by apply dport_single.
  - rewrite (bool_decide_false (port_EndPort port = 0)) by done. cbn [negb orb]. rewrite orb_true_r.
    assert (Hs : forall s, (s ∈ [if bool_decide (port_EndPort port = n) then itoa n else itoa n +:+ "-" +:+ itoa (port_EndPort port)] /\ dport_holds s d)
      <-> s = (if bool_decide (port_EndPort port = n) then itoa n else itoa n +:+ "-" +:+ itoa (port_EndPort port)) /\ n <= d <= port_EndPort port).
    { intros s. rewrite list_elem_of_singleton. case_bool_decide as Hen; split; intros [-> Hd]; (split; [done|]).
      - apply dport_single in Hd; lia.
      - apply dport_single; lia.
      - by apply dport_range in Hd.
      - by apply dport_range. }
    split.
    + intros [?|(s & H)]; [done|]. apply Hs in H as [_ ?]. done.
    + intros Hd. right. eexists. apply Hs. done.
Qed.
Lemma buildRuleServiceEntries_meaning_witness :
  let port := mkPort "TCP" (IInt 8000) 8080 in
  (("TCP" = l4_protocol (buildRuleServiceEntries port) /\ (destination_ports (buildRuleServiceEntries port) = [] \/
     exists s, s ∈ destination_ports (buildRuleServiceEntries port) /\ dport_holds s 8042)) <->
   sp_port_matches (fun _ _ _ => False) port "TCP" 8042) /\
  destination_ports (buildRuleServiceEntries port) = ["8000-8080"].
Proof. split; [apply (buildRuleServiceEntries_meaning _ _ 8000); [done|lia|simpl; lia]|by vm_compute]. Defined.

(** Dropping repeated blocks keeps what the peers match. *)
Lemma entry_empty a : ~ entry_holds "" a.
Proof. intros H. exact H. Qed.
Lemma dedup_cidrs_spec blocks cached :
  let '(c, l) := dedup_cidrs cached blocks in
  (forall b, b ∈ c <-> b ∈ cached \/ (b ∈ blocks /\ b <> "")) /\ (forall b, b ∈ l <-> b ∈ blocks /\ b <> "" /\ b ∉ cached) /\ NoDup l.
Proof.
  revert cached; induction blocks as [|b blocks IH]; intros cached; simpl; [split; [set_solver|split; [set_solver|constructor]]|].
  destruct (bool_decide (b = "") || bool_decide (b ∈ cached)) eqn:Hb.
  - specialize (IH cached). destruct (dedup_cidrs cached blocks) as [c l]. destruct IH as (H1 & H2 & H3).
    apply orb_true_iff in Hb as [Hb|Hb]; apply bool_decide_eq_true_1 in Hb; (split; [set_solver|split; [set_solver|done]]).
  - apply orb_false_iff in Hb as [Hb1 Hb2]. apply bool_decide_eq_false_1 in Hb1, Hb2.
    specialize (IH ({[b]} ∪ cached)). destruct (dedup_cidrs ({[b]} ∪ cached) blocks) as [c l]. destruct IH as (H1 & H2 & H3).
    split; [set_solver|]. split.
    + intros x. rewrite elem_of_cons, H2. destruct (decide (x = b)) as [->|]; set_solver.
    + constructor; [|done]. rewrite H2. set_solver.
Qed.
Lemma exists_cons {A} (Q : A -> Prop) a l : (exists x, x ∈ a :: l /\ Q x) <-> Q a \/ exists x, x ∈ l /\ Q x.
Proof. setoid_rewrite elem_of_cons. naive_solver. Qed.
Lemma sp_peer_split ns p e :
  sp_peer_matches ns p e <-> (exists s, s ∈ p_IPBlocks p /\ entry_holds s (ep_ip e)) \/
    sp_peer_matches ns (mkPeer (p_VMSelector p) (p_PodSelector p) (p_NamespaceSelector p) []) e.
Proof. unfold sp_peer_matches. cbn [p_IPBlocks p_PodSelector p_NamespaceSelector]. set_solver. Qed.
Lemma dedup_peers_meaning ns e peers cached :
  (exists b, b ∈ cached /\ entry_holds b (ep_ip e)) \/ (exists p, p ∈ dedup_peers cached peers /\ sp_peer_matches ns p e) <->
  (exists b, b ∈ cached /\ entry_holds b (ep_ip e)) \/ (exists p, p ∈ peers /\ sp_peer_matches ns p e).
Proof.
  revert cached; induction peers as [|p peers IH]; intros cached; [done|]. cbn [dedup_peers].
  destruct (p_IPBlocks p) as [|b0 bs] eqn:Hb; [rewrite !exists_cons; specialize (IH cached); tauto|].
  pose proof (dedup_cidrs_spec (b0 :: bs) cached) as Hd. destruct (dedup_cidrs cached (b0 :: bs)) as [c l].
  destruct Hd as (H1 & H2 & _). specialize (IH c). rewrite <- Hb in H1, H2.
  pose proof (entry_empty (ep_ip e)) as He.
  assert (Hc : (exists b, b ∈ c /\ entry_holds b (ep_ip e)) <->
    (exists b, b ∈ cached /\ entry_holds b (ep_ip e)) \/ (exists b, b ∈ p_IPBlocks p /\ entry_holds b (ep_ip e))).
  { split; [intros (b & Hin & Hh); apply H1 in Hin; naive_solver|].
    intros [(b & Hin & Hh)|(b & Hin & Hh)]; exists b; (split; [|done]); apply H1; [by left|right]. split; [done|]. by intros ->. }
  assert (Hl : (exists b, b ∈ l /\ entry_holds b (ep_ip e)) \/ (exists b, b ∈ cached /\ entry_holds b (ep_ip e)) <->
    (exists b, b ∈ c /\ entry_holds b (ep_ip e))).
  { rewrite Hc. split; [intros [(b & Hin & Hh)|?]; [apply H2 in Hin; naive_solver|naive_solver]|].
    intros [?|(b & Hin & Hh)]; [naive_solver|]. destruct (decide (b ∈ cached)); [naive_solver|]. left. exists b. split; [|done].
    apply H2. split; [done|]. split; [by intros ->|done]. }
  rewrite !exists_cons, (sp_peer_split ns p e), (sp_peer_split ns (mkPeer _ _ _ l) e). cbn [p_IPBlocks p_VMSelector p_PodSelector p_NamespaceSelector].
  clear H1 H2 Hb. tauto.
Qed.
(** [dedupBlocks] changes nothing for the peers as a whole. *)
Lemma dedupBlocks_meaning ns e peers :
  (exists p, p ∈ dedupBlocks peers /\ sp_peer_matches ns p e) <-> (exists p, p ∈ peers /\ sp_peer_matches ns p e).
Proof.
  pose proof (dedup_peers_meaning ns e peers ∅) as H. unfold dedupBlocks.
  assert (Hn : ~ exists b, b ∈ (∅ : gset string) /\ entry_holds b (ep_ip e)) by set_solver. tauto.
Qed.
(** Normalizing the deprecated fields keeps the peers a rule is built from. *)
Lemma normalizeRulePeers_peers rule :
  getRuleSourcePeers (normalizeRulePeers rule) = getRuleSourcePeers rule /\
  getRuleDestinationPeers (normalizeRulePeers rule) = getRuleDestinationPeers rule /\
  normalizeRulePeers (normalizeRulePeers rule) = normalizeRulePeers rule.
Proof.
  destruct rule as [? ? ? [|s ss] [|d ds] [|f fs] [|t ts] ? ?]; done.
Qed.
(** The section of an internal policy is read back from its UID. *)
Lemma parseSuffixInUid_roundtrip uid :
  contains_byte "_" uid = false ->
  parseSuffixInUid uid = (uid, "") /\
  parseSuffixInUid (BuildNetworkPolicyAllowPolicyID uid) = (uid, RuleActionAllow) /\
  parseSuffixInUid (BuildNetworkPolicyIsolationPolicyID uid) = (uid, RuleActionDrop).
Proof.
  intros Hu. unfold parseSuffixInUid, BuildNetworkPolicyAllowPolicyID, BuildNetworkPolicyIsolationPolicyID.
  rewrite split_on_no_sep by done. rewrite !split_join by (done || by repeat constructor). done.
Qed.

(** ** Instances, and where the translation says more *)
Definition ex_np : NetworkPolicy :=
  mkNetworkPolicy "ns" "web" "u1" (mkSelector {["app" := "web"]} [])
    [mkNpRule [mkNpPort (Some "TCP") (Some (IInt 80)) None]
       [mkNpPeer None (Some (mkSelector {["team" := "a"]} [])) None;
        mkNpPeer None None (Some (mkIPBlock "10.0.0.0/8" (Some ["10.1.0.0/16"])))]]
    [] [PolicyTypeIngress].
Lemma ex_np_ok : np_ok ex_np.
Proof.
  split; [|split; [constructor|by repeat constructor; left]]. constructor; [|constructor]. split.
  - constructor; [done|]. constructor; [|done]. exists ([10; 0; 0; 0], 8). split; [by vm_compute|]. cbn [Except]. split; [done|]. split.
    + split; [by left|]. split; [by vm_compute|by left].
    + exists [([10; 1; 0; 0], 16)]. constructor; [|constructor]. split; [by vm_compute|].
      repeat split; try (by left); by vm_compute.
  - constructor; [|constructor]. split; [by eexists|]. cbn. done.
Qed.
Lemma networkpolicy_conversion_witness :
  exists sps, convertNetworkPolicyToInternalSecurityPolicies (fun _ => "") ex_np = Ok sps /\
    map sp_Priority sps = [PriorityNetworkPolicyAllowRule; PriorityNetworkPolicyIsolationRule] /\
    forall q ingress e proto dport,
    let dec := decides (fun _ _ _ => False) sps q ingress e proto dport in
    (np_selects ex_np q -> policy_type ingress ∈ np_PolicyTypes ex_np ->
       (dec "ALLOW" <-> np_allows (fun _ _ _ => False) ex_np ingress e proto dport) /\
       (dec "DROP" <-> ~ np_allows (fun _ _ _ => False) ex_np ingress e proto dport)) /\
    (~ np_selects ex_np q -> forall a, ~ dec a) /\
    (policy_type ingress ∉ np_PolicyTypes ex_np -> forall a, dec a -> a = "ALLOW" /\ np_allows (fun _ _ _ => False) ex_np ingress e proto dport).
Proof. apply (networkpolicy_conversion (fun _ => "") (fun _ _ _ => False) ex_np). apply ex_np_ok. Defined.
(** Kubernetes ignores the ingress rules of a policy that does not list
    Ingress; here they still allow traffic, ahead of the isolation of another
    policy. *)
Definition ex_np_unlisted : NetworkPolicy :=
  mkNetworkPolicy "ns" "web" "u1" (mkSelector ∅ []) [mkNpRule [] []] [] [PolicyTypeEgress].
Lemma unlisted_direction_allows e :
  exists sps, convertNetworkPolicyToInternalSecurityPolicies (fun _ => "") ex_np_unlisted = Ok sps /\
    decides (fun _ _ _ => False) sps (mkPod "ns" ∅ ∅) true e "TCP" 80 "ALLOW".
Proof.
  eexists. split; [by vm_compute|]. eexists [], _, _. split; [by vm_compute|]. split; [|split; [intros y Hy; by apply elem_of_nil in Hy|by vm_compute]].
  split.
  - exists (mkTarget None (Some (mkSelector ∅ []))), (mkSelector ∅ []). split; [by apply list_elem_of_singleton|]. split; [done|].
    split; [done|]. apply selects_all.
  - split; [by vm_compute|]. split; by left.
Qed.
