(* ===== verification/SpStore.v ===== *)
(** * pkg/nsx/services/securitypolicy: NSX resources and their stores

    store.go and compare.go: the NSX policies, rules, groups and shares, the
    tags they are indexed by, the stores that hold what NSX is believed to
    have, and the difference between what it has and what it should have
    (firewall.go). *)
From S2P Require Import Prelude GoStrings Errors NsxUtil Names Interfaces Compare GroupExpr NetPolicy.

(** ** NSX resources *)
Record Group := mkGroup {
  g_Id : string; g_DisplayName : string; g_Tags : list Tag; g_Expression : list gexpr; g_Path : option string;
  g_MarkedForDelete : option bool }.
Record Rule := mkNsxRule {
  ru_Id : string; ru_DisplayName : string; ru_Direction : string; ru_SequenceNumber : Z; ru_Action : string;
  ru_Services : list string; ru_Tags : list Tag; ru_ServiceEntries : list service_entry;
  ru_SourceGroups : list string; ru_DestinationGroups : list string; ru_Scope : list string;
  ru_MarkedForDelete : option bool }.
(** A child of a share: the paths it shares, without their children. *)
Record SharedResource := mkSharedResource { sr_Id : string; sr_ResourcePaths : list string }.
Record Share := mkShare {
  sh_Id : string; sh_DisplayName : string; sh_Tags : list Tag; sh_SharedWith : list string;
  sh_Children : list SharedResource; sh_SharingStrategy : option string; sh_MarkedForDelete : option bool }.
Record NsxPolicy := mkNsxPolicy {
  po_Id : string; po_DisplayName : string; po_SequenceNumber : Z; po_Scope : list string; po_Tags : list Tag;
  po_Rules : list Rule; po_Path : option string; po_MarkedForDelete : option bool }.
Record GroupShare := mkGroupShare { gs_shareGroup : Group; gs_share : Share }.

(** What the four resources have in common. *)
Class NsxObject (A : Type) := {
  o_Id : A -> string;
  o_Tags : A -> list Tag;
  o_MarkedForDelete : A -> option bool;
  o_mark : A -> A;
  o_Id_mark : forall a, o_Id (o_mark a) = o_Id a;
  o_Tags_mark : forall a, o_Tags (o_mark a) = o_Tags a;
  o_marked : forall a, o_MarkedForDelete (o_mark a) = Some true }.
Definition mark_group (g : Group) : Group :=
  mkGroup (g_Id g) (g_DisplayName g) (g_Tags g) (g_Expression g) (g_Path g) (Some true).
Definition mark_rule (r : Rule) : Rule :=
  mkNsxRule (ru_Id r) (ru_DisplayName r) (ru_Direction r) (ru_SequenceNumber r) (ru_Action r) (ru_Services r) (ru_Tags r)
    (ru_ServiceEntries r) (ru_SourceGroups r) (ru_DestinationGroups r) (ru_Scope r) (Some true).
Definition mark_share (s : Share) : Share :=
  mkShare (sh_Id s) (sh_DisplayName s) (sh_Tags s) (sh_SharedWith s) (sh_Children s) (sh_SharingStrategy s) (Some true).
Definition with_rules (p : NsxPolicy) (rules : list Rule) : NsxPolicy :=
  mkNsxPolicy (po_Id p) (po_DisplayName p) (po_SequenceNumber p) (po_Scope p) (po_Tags p) rules (po_Path p) (po_MarkedForDelete p).
Definition mark_policy (p : NsxPolicy) : NsxPolicy :=
  mkNsxPolicy (po_Id p) (po_DisplayName p) (po_SequenceNumber p) (po_Scope p) (po_Tags p) (po_Rules p) (po_Path p) (Some true).
#[global, refine] Instance group_object : NsxObject Group :=
  {| o_Id := g_Id; o_Tags := g_Tags; o_MarkedForDelete := g_MarkedForDelete; o_mark := mark_group |}.
Proof. all: done. Defined.
#[global, refine] Instance rule_object : NsxObject Rule :=
  {| o_Id := ru_Id; o_Tags := ru_Tags; o_MarkedForDelete := ru_MarkedForDelete; o_mark := mark_rule |}.
Proof. all: done. Defined.
#[global, refine] Instance share_object : NsxObject Share :=
  {| o_Id := sh_Id; o_Tags := sh_Tags; o_MarkedForDelete := sh_MarkedForDelete; o_mark := mark_share |}.
Proof. all: done. Defined.
#[global, refine] Instance policy_object : NsxObject NsxPolicy :=
  {| o_Id := po_Id; o_Tags := po_Tags; o_MarkedForDelete := po_MarkedForDelete; o_mark := mark_policy |}.
Proof. all: done. Defined.

(** ** Tags *)
Definition TagScopeSecurityPolicyCRName := "nsx-op/security_policy_cr_name".
Definition TagScopeSecurityPolicyCRUID := "nsx-op/security_policy_cr_uid".
Definition TagScopeSecurityPolicyName := "nsx-op/security_policy_name".
Definition TagScopeSecurityPolicyUID := "nsx-op/security_policy_uid".
Definition TagScopeNetworkPolicyName := "nsx-op/network_policy_name".
Definition TagScopeNetworkPolicyUID := "nsx-op/network_policy_uid".
Definition TagScopeNamespace := "nsx-op/namespace".
Definition TagScopeRuleID := "nsx-op/rule_id".
Definition TagScopeRuleHash := "nsx-op/rule_hash".

(** Tags read from NSX or built here have both fields: the dereferences of the
    code do not panic. *)
Definition filterTag (tags : list Tag) (tagScope : string) : list string :=
  omap (fun tag => if bool_decide (tag_Scope tag = Some tagScope) then Some (default "" (tag_Tag tag)) else None) tags.
Definition filterRuleTag (tags : list Tag) : list string := filterTag tags TagScopeRuleID.
(** The user and the hash found so far, and the key once both are there. *)
Fixpoint rule_hash_loop (indexScope uid hash : string) (tags : list Tag) : list string :=
  match tags with
  | [] => []
  | t :: tags' =>
      match tag_Scope t, tag_Tag t with
      | Some s, Some v =>
          let '(uid, hash) := if bool_decide (s = indexScope) then (v, hash)
                              else if bool_decide (s = TagScopeRuleHash) then (uid, v) else (uid, hash) in
          if negb (bool_decide (uid = "")) && negb (bool_decide (hash = "")) then [uid +:+ ":" +:+ hash]
          else rule_hash_loop indexScope uid hash tags'
      | _, _ => rule_hash_loop indexScope uid hash tags'
      end
  end.
Definition filterRuleHash (tags : list Tag) (indexScope : string) : list string := rule_hash_loop indexScope "" "" tags.

(** The index functions of store.go; the type of the object picks the branch. *)
Definition indexBySecurityPolicyUIDForScope {A} `{NsxObject A} (indexScope : string) (obj : A) : list string :=
  filterTag (o_Tags obj) indexScope.
Definition indexByNetworkPolicyUID {A} `{NsxObject A} (obj : A) : list string := filterTag (o_Tags obj) TagScopeNetworkPolicyUID.
Definition indexGroupFunc (obj : Group) : list string := filterRuleTag (g_Tags obj).
Definition indexRuleFunc (obj : Rule) : list string := filterRuleTag (ru_Tags obj).
Definition indexBySecurityPolicyNamespace (obj : NsxPolicy) : list string := filterTag (po_Tags obj) TagScopeNamespace.
Definition indexSPByUUIDAndRuleHashForScope (indexScope : string) (obj : Rule) : list string := filterRuleHash (ru_Tags obj) indexScope.
Definition indexNPByUUIDAndRuleHash (obj : Rule) : list string := filterRuleHash (ru_Tags obj) TagScopeNetworkPolicyUID.

(** ** Comparison (compare.go): the fields that are compared; [encode] is the
    JSON encoder of the SDK *)
Class SdkEncoder := {
  encode_policy : NsxPolicy -> string; encode_rule : Rule -> string;
  encode_group : Group -> string; encode_share : Share -> string }.
Section Comparable.
Context `{!SdkEncoder}.
Definition policy_Value (sp : NsxPolicy) : string :=
  encode_policy (mkNsxPolicy (po_Id sp) (po_DisplayName sp) (po_SequenceNumber sp) (po_Scope sp) (po_Tags sp) [] None None).
Definition rule_Value (rule : Rule) : string :=
  encode_rule (mkNsxRule (ru_Id rule) (ru_DisplayName rule) (ru_Direction rule) (ru_SequenceNumber rule) (ru_Action rule)
    (ru_Services rule) (ru_Tags rule) (ru_ServiceEntries rule) (ru_SourceGroups rule) (ru_DestinationGroups rule) (ru_Scope rule) None).
(** The display name is not compared: the identifier takes its place. *)
Definition group_Value (group : Group) : string :=
  encode_group (mkGroup (g_Id group) (g_Id group) (g_Tags group) (g_Expression group) None None).
Definition share_Value (share : Share) : string :=
  encode_share (mkShare (sh_Id share) (sh_DisplayName share) (sh_Tags share) (sh_SharedWith share) (sh_Children share) None None).
#[export] Instance policy_comparable : Comparable NsxPolicy := { Key := po_Id; Value := policy_Value }.
#[export] Instance rule_comparable : Comparable Rule := { Key := ru_Id; Value := rule_Value }.
#[export] Instance group_comparable : Comparable Group := { Key := g_Id; Value := group_Value }.
#[export] Instance share_comparable : Comparable Share := { Key := sh_Id; Value := share_Value }.
End Comparable.
#[global] Existing Instances policy_comparable rule_comparable group_comparable share_comparable.

(** ** Operations common to the stores *)
Section Store.
Context {A I : Type} `{!NsxObject A} `{!Indexer I A o_Id}.

(** [Apply]: the resources marked for deletion leave the store. *)
Definition apply1 (i : I) (a : A) : I := if bool_decide (o_MarkedForDelete a = Some true) then ix_Delete a i else ix_Add a i.
Definition Apply (i : I) (l : list A) : I := foldl apply1 i l.
(** [getMarkDelete]: copies of the resources, marked. *)
Definition getMarkDelete (existing : list A) : list A := map o_mark existing.
(** [getStaleUpdate]: the marked and the other resources, last ones first. *)
Definition getStaleUpdate (l : list A) : list A * list A :=
  (filter (fun a => o_MarkedForDelete a = Some true) (reverse l), filter (fun a => o_MarkedForDelete a <> Some true) (reverse l)).
(** [getUpdate]: the stale resources marked, then the new and changed ones. *)
Definition getUpdate `{!Comparable A} (existing expected : list A) : list A :=
  let '(changed, stale) := CompareResources existing expected in
  map o_mark stale ++ changed.
End Store.
Definition getUpdateRules `{!SdkEncoder} : list Rule -> list Rule -> list Rule := getUpdate.
Definition getUpdateGroups `{!SdkEncoder} : list Group -> list Group -> list Group := getUpdate.
Definition getUpdateShares `{!SdkEncoder} : list Share -> list Share -> list Share := getUpdate.
Definition getMarkDeleteGroups : list Group -> list Group := getMarkDelete.
Definition getMarkDeleteRules : list Rule -> list Rule := getMarkDelete.
Definition getMarkDeleteShares : list Share -> list Share := getMarkDelete.
Definition getStaleUpdateShares : list Share -> list Share * list Share := getStaleUpdate.
Definition getStaleUpdateGroups : list Group -> list Group * list Group := getStaleUpdate.

(** The stores of the service. *)
Record stores (IP IR IG IS : Type) := mkStores {
  securityPolicyStore : IP; ruleStore : IR; groupStore : IG; infraGroupStore : IG; infraShareStore : IS;
  projectGroupStore : IG; projectShareStore : IS }.
Arguments mkStores {IP IR IG IS} _ _ _ _ _ _ _.
Arguments securityPolicyStore {IP IR IG IS} _.
Arguments ruleStore {IP IR IG IS} _.
Arguments groupStore {IP IR IG IS} _.
Arguments infraGroupStore {IP IR IG IS} _.
Arguments infraShareStore {IP IR IG IS} _.
Arguments projectGroupStore {IP IR IG IS} _.
Arguments projectShareStore {IP IR IG IS} _.

(** ** What reconciling a store does *)
Section Reconcile.
Context {A I : Type} `{!NsxObject A} `{!Indexer I A o_Id} `{!Comparable A}.
Context (HKey : forall a : A, Key a = o_Id a).

Lemma apply1_lookup i a k :
  ix_GetByKey k (apply1 i a) =
    if decide (k = o_Id a) then (if bool_decide (o_MarkedForDelete a = Some true) then None else Some a) else ix_GetByKey k i.
Proof. unfold apply1. case_bool_decide; [by rewrite ix_get_delete|by rewrite ix_get_add]. Qed.
Lemma Apply_notin i l k : k ∉ map o_Id l -> ix_GetByKey k (Apply i l) = ix_GetByKey k i.
Proof.
  revert i; induction l as [|a l IH]; intros i Hk; [done|]. cbn [map] in Hk. apply not_elem_of_cons in Hk as [Hk Hl].
  cbn. unfold Apply in IH. rewrite IH by done. by rewrite apply1_lookup, decide_False.
Qed.
Lemma Apply_in i l a :
  (forall b, b ∈ l -> o_Id b = o_Id a -> b = a) -> a ∈ l ->
  ix_GetByKey (o_Id a) (Apply i l) = if bool_decide (o_MarkedForDelete a = Some true) then None else Some a.
Proof.
  revert i; induction l as [|b l IH]; intros i Hu Ha; [by apply elem_of_nil in Ha|]. cbn. fold (Apply (apply1 i b) l).
  destruct (decide (o_Id a ∈ map o_Id l)) as [Hin|Hin].
  - apply list_elem_of_fmap in Hin as (c & Hc & Hcl). assert (c = a) as -> by (apply Hu; [by right|done]).
    apply IH; [|done]. intros d Hd. apply Hu. by right.
  - rewrite Apply_notin by done. apply elem_of_cons in Ha as [->|Ha]; [by rewrite apply1_lookup, decide_True|].
    destruct Hin. by apply (list_elem_of_fmap_2 o_Id).
Qed.

Lemma inj_on_NoDup {B C} (f : B -> C) (l : list B) a b : NoDup (map f l) -> a ∈ l -> b ∈ l -> f a = f b -> a = b.
Proof.
  intros Hnd Ha Hb E. apply list_elem_of_lookup in Ha as [n Hn], Hb as [m Hm].
  assert (n = m) as ->; [|congruence]. eapply (NoDup_lookup _ n m (f a) Hnd).
  - by rewrite list_lookup_fmap, Hn.
  - by rewrite list_lookup_fmap, Hm, E.
Qed.

Context (index : A -> list string) (owner : string) (i : I) (expected : list A).
Let existing : list A := ix_GetByIndex index owner i.
(** The expected resources: distinct, filed under their owner, not marked, and
    not in the place of a resource of another owner. *)
Record expected_ok : Prop := {
  exp_nodup : NoDup (map o_Id expected);
  exp_owned : forall a, a ∈ expected -> owner ∈ index a;
  exp_unmarked : forall a, a ∈ expected -> o_MarkedForDelete a <> Some true;
  exp_free : forall a b, a ∈ expected -> ix_GetByKey (o_Id a) i = Some b -> owner ∈ index b }.
Context (Hok : expected_ok).

Lemma existing_elem a : a ∈ existing <-> owner ∈ index a /\ ix_GetByKey (o_Id a) i = Some a.
Proof. apply elem_of_GetByIndex. Qed.
Lemma map_Key (l : list A) : map Key l = map o_Id l.
Proof. apply map_ext, HKey. Qed.
Lemma NoDup_existing : NoDup (map o_Id existing).
Proof.
  apply NoDup_fmap_2_strong; [|apply NoDup_GetByIndex]. intros a b Ha Hb E.
  apply existing_elem in Ha as [_ Ha], Hb as [_ Hb]. rewrite E in Ha. congruence.
Qed.
Lemma update_elem a :
  a ∈ getUpdate existing expected <->
    (exists b, a = o_mark b /\ b ∈ existing /\ o_Id b ∉ map o_Id expected) \/
    (a ∈ expected /\ forall b, b ∈ existing -> o_Id b = o_Id a -> Value b <> Value a).
Proof.
  assert (Hk1 : NoDup (map Key existing)) by (rewrite map_Key; apply NoDup_existing).
  assert (Hk2 : NoDup (map Key expected)) by (rewrite map_Key; apply (exp_nodup Hok)).
  assert (H := fun a => compare_elem existing expected a Hk1 Hk2).
  unfold getUpdate. destruct (CompareResources existing expected) as [changed stale]. cbn [fst snd] in H.
  rewrite elem_of_app, list_elem_of_fmap. rewrite (proj1 (H a)). setoid_rewrite HKey. apply or_iff_compat_r.
  split; intros (b & -> & Hb); exists b; (split; [done|]).
  - apply H in Hb. by rewrite HKey, map_Key in Hb.
  - apply H. by rewrite HKey, map_Key.
Qed.
Lemma update_unique a b : a ∈ getUpdate existing expected -> b ∈ getUpdate existing expected -> o_Id a = o_Id b -> a = b.
Proof.
  rewrite !update_elem. intros [(a' & -> & Ha & Ha')|[Ha Ha']] [(b' & -> & Hb & Hb')|[Hb Hb']]; rewrite ?o_Id_mark; intros E.
  - f_equal. apply existing_elem in Ha as [_ Ha], Hb as [_ Hb]. rewrite E in Ha. congruence.
  - destruct Ha'. rewrite E. by apply (list_elem_of_fmap_2 o_Id).
  - destruct Hb'. rewrite <- E. by apply (list_elem_of_fmap_2 o_Id).
  - by apply (inj_on_NoDup o_Id expected); [apply (exp_nodup Hok)|..].
Qed.

(** After the store has taken the update in, it has, for the owner, the
    expected resources and no other, and what it has elsewhere is unchanged. *)
Definition reconciled (i' : I) : Prop :=
  (forall a, a ∈ expected -> exists b, ix_GetByKey (o_Id a) i' = Some b /\ o_Id b = o_Id a /\ owner ∈ index b /\ Value b = Value a) /\
  (forall b, b ∈ ix_GetByIndex index owner i' -> o_Id b ∈ map o_Id expected) /\
  (forall k, (forall b, ix_GetByKey k i = Some b -> owner ∉ index b) -> k ∉ map o_Id expected -> ix_GetByKey k i' = ix_GetByKey k i).
Lemma reconcile_store : reconciled (Apply i (getUpdate existing expected)).
Proof.
  set (final := getUpdate existing expected). assert (Hin := Apply_in i final). assert (Hnin := Apply_notin i final).
  assert (Hids : forall k, k ∈ map o_Id final -> k ∉ map o_Id expected -> exists b, ix_GetByKey k i = Some b /\ owner ∈ index b).
  { intros k (a & -> & Ha)%list_elem_of_fmap Hno. apply update_elem in Ha as [(b & -> & [Ho Hb]%existing_elem & _)|[Ha _]].
    - rewrite o_Id_mark. eauto.
    - destruct Hno. by apply (list_elem_of_fmap_2 o_Id). }
  split; [|split].
  - intros a Ha. destruct (decide (o_Id a ∈ map o_Id final)) as [(c & Hc & Hcf)%list_elem_of_fmap|Hno].
    + pose proof Hcf as Hcf'. apply update_elem in Hcf as [(b & -> & _ & Hb)|[Hce _]].
      { destruct Hb. rewrite o_Id_mark in Hc. rewrite <- Hc. by apply (list_elem_of_fmap_2 o_Id). }
      assert (c = a) as ->.
      { apply (inj_on_NoDup o_Id expected); [apply (exp_nodup Hok)|done..]. }
      rewrite Hin; [|intros b Hb E; by apply update_unique|done].
      rewrite bool_decide_false by (by apply (exp_unmarked Hok)). exists a. split; [done|]. split; [done|]. split; [by apply (exp_owned Hok)|done].
    + rewrite Hnin by done.
      assert (Hnew : (forall b, b ∈ existing -> o_Id b = o_Id a -> Value b <> Value a) -> o_Id a ∈ map o_Id final).
      { intros H. apply (list_elem_of_fmap_2 o_Id), update_elem. by right. }
      destruct (ix_GetByKey (o_Id a) i) as [b|] eqn:Hb.
      * pose proof (ix_get_key _ _ _ Hb) as Hid. destruct (decide (Value b = Value a)) as [Hv|Hv].
        { exists b. split; [done|]. split; [done|]. split; [by eapply (exp_free Hok)|done]. }
        destruct Hno. apply Hnew. intros b' [_ Hb']%existing_elem Hid'. rewrite Hid', Hb in Hb'. by simplify_eq.
      * destruct Hno. apply Hnew. intros b' [_ Hb']%existing_elem Hid'. rewrite Hid' in Hb'. congruence.
  - intros b (Ho & Hb)%elem_of_GetByIndex. destruct (decide (o_Id b ∈ map o_Id expected)) as [|Hno]; [done|].
    destruct (decide (o_Id b ∈ map o_Id final)) as [Hf|Hf].
    + apply list_elem_of_fmap in Hf as (c & Hc & Hcf). rewrite Hc in Hb, Hno. pose proof Hcf as Hcf'.
      apply update_elem in Hcf as [(d & -> & _ & _)|[Hce _]]; [|destruct Hno; by apply (list_elem_of_fmap_2 o_Id)].
      rewrite Hin in Hb; [|intros d' Hd' E; by apply update_unique|done]. rewrite o_marked, bool_decide_true in Hb by done. done.
    + rewrite Hnin in Hb by done. destruct Hf. assert (Hbe : b ∈ existing) by by apply existing_elem.
      apply list_elem_of_fmap. exists (o_mark b). split; [by rewrite o_Id_mark|]. apply update_elem. left. eauto.
  - intros k Hfree Hno. apply Hnin. intros Hf. destruct (Hids k Hf Hno) as (b & Hb & Ho). by eapply Hfree.
Qed.
End Reconcile.
(** A store that has what is expected needs no update. *)
Lemma reconciled_idle {A I} `{!NsxObject A} `{!Indexer I A o_Id} `{!Comparable A} (HKey : forall a : A, Key a = o_Id a)
    index owner (i i' : I) expected :
  expected_ok index owner i expected -> reconciled index owner i expected i' ->
  getUpdate (ix_GetByIndex index owner i') expected = [].
Proof.
  intros Hok (H1 & H2 & _).
  assert (Hok' : expected_ok index owner i' expected).
  { destruct Hok as [Hn Ho Hu Hf]. split; [done..|]. intros a b Ha Hb. destruct (H1 a Ha) as (c & Hc & _ & Hoc & _). congruence. }
  destruct (getUpdate _ expected) as [|a l] eqn:Hl; [done|].
  assert (Ha : a ∈ getUpdate (ix_GetByIndex index owner i') expected) by (rewrite Hl; by left).
  apply (update_elem HKey index owner i' expected Hok') in Ha as [(b & _ & Hb & Hno)|[Ha Hno]].
  - destruct Hno. by apply H2.
  - destruct (H1 a Ha) as (b & Hb & Hid & Ho & Hv). exfalso. eapply (Hno b); [|done..].
    apply elem_of_GetByIndex. rewrite Hid. done.
Qed.
(** Removing everything of an owner. *)
Lemma delete_store {A I} `{!NsxObject A} `{!Indexer I A o_Id} (index : A -> list string) owner (i : I) :
  ix_GetByIndex index owner (Apply i (getMarkDelete (ix_GetByIndex index owner i))) = [] /\
  forall k, (forall b, ix_GetByKey k i = Some b -> owner ∉ index b) ->
    ix_GetByKey k (Apply i (getMarkDelete (ix_GetByIndex index owner i))) = ix_GetByKey k i.
Proof.
  unfold getMarkDelete. set (ex := ix_GetByIndex index owner i).
  assert (Hids : map o_Id (map o_mark ex) = map o_Id ex).
  { rewrite map_map. apply map_ext, o_Id_mark. }
  split.
  - apply elem_of_nil_inv. intros b Hb.
    apply elem_of_GetByIndex in Hb as [Ho Hb]. destruct (decide (o_Id b ∈ map o_Id (map o_mark ex))) as [Hin|Hin].
    + apply list_elem_of_fmap in Hin as (c & Hc & Hcm). rewrite Hc in Hb. rewrite (Apply_in i (map o_mark ex) c) in Hb.
      * apply list_elem_of_fmap in Hcm as (d & -> & _). by rewrite o_marked, bool_decide_true in Hb.
      * intros d Hd E. apply (inj_on_NoDup o_Id (map o_mark ex)); [|done..]. rewrite Hids. apply NoDup_existing.
      * done.
    + rewrite Apply_notin in Hb by done. destruct Hin. rewrite Hids. apply (list_elem_of_fmap_2 o_Id). by apply elem_of_GetByIndex.
  - intros k Hk. apply Apply_notin. rewrite Hids. intros (b & -> & [Ho Hb]%elem_of_GetByIndex)%list_elem_of_fmap. by eapply Hk.
Qed.
