(* ===== verification/SpBuild.v ===== *)
(** * pkg/nsx/services/securitypolicy: from a policy to NSX resources

    builder.go, expand.go and builder_namespace.go: the NSX policy, rules,
    groups and shares built for a SecurityPolicy, with their identifiers (those
    of the resources in the stores, or new ones) and the tags the stores are
    indexed by. *)
From S2P Require Import Prelude GoStrings Errors NsxUtil Names Interfaces GoMonad GroupExpr NativeGroup NetPolicy SpStore.

(** ** Calls that may fail, panic, or draw random UUIDs *)

(** The state of the builders is the number of UUIDs drawn. *)
Definition M : Type -> Type := ST nat.

(** ** Constants *)
Definition TagScopeGroupType := "nsx-op/group_type".
Definition TagScopeSelectorHash := "nsx-op/selector_hash".
Definition TagScopeNSXShareCreatedFor := "nsx-op/nsx_share_created_for".
Definition TagValueGroupScope := "scope".
Definition TagValueGroupSource := "source".
Definition TagValueGroupDestination := "destination".
Definition TagValueShareCreatedForInfra := "infra".
Definition TagValueShareCreatedForProject := "project".
Definition TagValueShareNotCreated := "notShared".
Definition TargetGroupSuffix := "scope".
Definition SrcGroupSuffix := "src".
Definition DstGroupSuffix := "dst".
Definition IpSetGroupSuffix := "ipset".
Definition ShareSuffix := "share".
Definition SecurityPolicyPrefix := "sp".
Definition NetworkPolicyPrefix := "np".
Definition MaxNameLength : Z := 255.
Definition ResourceTypeSecurityPolicy := "SecurityPolicy".
Definition ResourceTypeNetworkPolicy := "NetworkPolicy".
Inductive GroupScope := VPCScopeGroup | ProjectInfraScopeGroup | InfraScopeGroup.
#[global] Instance GroupScope_eq_dec : EqDecision GroupScope.
Proof. solve_decision. Defined.

(** A Pod with the ports of its containers, for named ports. *)
Record ContainerPort := mkContainerPort { cp_Name : string; cp_ContainerPort : Z; cp_Protocol : string }.
Record kpod := mkKPod { kp_Containers : list (list ContainerPort); kp_Phase : string; kp_PodIP : string }.
Record portInfo := mkPortInfo { pi_port : SecurityPolicyPort; pi_ips : list string; pi_idSuffix : string }.
Definition newPortInfo (port : SecurityPolicyPort) : portInfo := mkPortInfo port [] "0_0".
(** [int32]. *)
Definition int32 (n : Z) : Z := (n + 2 ^ 31) mod 2 ^ 32 - 2 ^ 31.
Definition newPortInfoForNamedPort (portAddr : PortAddress) (protocol : string) : portInfo :=
  mkPortInfo (mkPort protocol (IInt (int32 (Port portAddr))) 0) (IPs portAddr) "0_0".
Definition with_suffix (i : portInfo) (s : string) : portInfo := mkPortInfo (pi_port i) (pi_ips i) s.
(** A Pod's ports of the given name and protocol, when it runs and has an address. *)
Fixpoint resolve_ports (pod : kpod) (spPort : SecurityPolicyPort) (ports : list ContainerPort) (addr : list PortAddress)
  : list PortAddress :=
  match ports with
  | [] => addr
  | port :: ports' =>
      if bool_decide (cp_Name port = IntOrString_String (port_Port spPort)) && bool_decide (cp_Protocol port = port_Protocol spPort) then
        if bool_decide (kp_Phase pod <> "Running") then addr
        else if bool_decide (kp_PodIP pod = "") then addr
        else resolve_ports pod spPort ports' (addr ++ [mkPortAddress (cp_ContainerPort port) [kp_PodIP pod]])
      else resolve_ports pod spPort ports' addr
  end.
Definition resolvePodPort (pod : kpod) (spPort : SecurityPolicyPort) : list PortAddress :=
  resolve_ports pod spPort (mjoin (kp_Containers pod)) [].
Definition validateNamedPortRule (rule : SecurityPolicyRule) : option goerr :=
  match getRuleDirection rule with
  | Err e => Some e
  | Ok ruleDirection =>
      if bool_decide (ruleDirection <> "OUT") then None
      else
        match getRuleDestinationPeers rule with
        | [] => Some (EValidation "Allow-all egress rules are not supported with named port")
        | outPeers =>
            if existsb (fun peer => negb (bool_decide (p_IPBlocks peer = []))) outPeers
            then Some (EValidation "ipBlock selectors in egress rules are not supported with named port") else None
        end
  end.

(** ** The service *)
(** [VPCMode], the cluster, whether NSX has Namespace groups. *)
Class Config := { VPCMode : bool; Cluster : string; NamespaceGroup : bool; GetNamespaceUID : string -> string }.
(** encoding/json and the random UUIDs; the fuel of the search for a free
    identifier, which has no bound in the code. *)
Class Runtime := {
  json_targets : list SecurityPolicyTarget -> string; json_peers : list SecurityPolicyPeer -> string;
  json_rule : SecurityPolicyRule -> string; uuids : nat -> string; id_fuel : nat;
  (** The error of the SDK's converter, if any. *)
  ConvertToVapi : SharedResource -> option goerr }.
(** The Kubernetes client and its label selectors. *)
Class KubeClient := {
  Selector : Type;
  LabelSelectorAsSelector : LabelSelector -> result goerr Selector;
  List_pods : option Selector -> string -> result goerr (list kpod);
  List_namespaces : Selector -> result goerr (list string) }.

Definition securityPolicyNameTagScope `{!Config} : string :=
  if VPCMode then TagScopeSecurityPolicyName else TagScopeSecurityPolicyCRName.
Definition securityPolicyUIDTagScope `{!Config} : string :=
  if VPCMode then TagScopeSecurityPolicyUID else TagScopeSecurityPolicyCRUID.
(** The scope of the owner's UID. *)
Definition owner_scope `{!Config} (createdFor : string) : string :=
  if bool_decide (createdFor = ResourceTypeNetworkPolicy) then TagScopeNetworkPolicyUID else securityPolicyUIDTagScope.
Definition owner_name_scope `{!Config} (createdFor : string) : string :=
  if bool_decide (createdFor = ResourceTypeNetworkPolicy) then TagScopeNetworkPolicyName else securityPolicyNameTagScope.
Definition getDomain `{!Config} : string := Cluster.
Definition getVPCProjectDomain : string := "default".
Definition getDefaultProjectDomain : string := "default".
Definition GetVPCPath (info : VPCResourceInfo) : string :=
  "/orgs/" +:+ OrgID info +:+ "/projects/" +:+ ProjectID info +:+ "/vpcs/" +:+ VPCID info.

Section Build.
Context {Cfg : Config} {Rt : Runtime} {Kube : KubeClient}.
Context {IP IR IG IS : Type} `{!Indexer IP NsxPolicy o_Id} `{!Indexer IR Rule o_Id} `{!Indexer IG Group o_Id} `{!Indexer IS Share o_Id}.
Context (st : stores IP IR IG IS).

(** [BuildUniqueIDWithSuffix] with the UUIDs not drawn yet; those the search
    leaves are skipped. *)
Definition unique_id (obj : SecurityPolicy) (suffix : string) (idExistsFn : string -> bool) : M string := fun n =>
  match BuildUniqueIDWithSuffix GenerateIDByObject idExistsFn (fun i => uuids (n + i)) id_fuel
          (mkObject (sp_Name obj) (parseSuffixInUid (sp_UID obj)).1) suffix MaxIdLength with
  | Some id => Some (Ok id, (n + id_fuel)%nat)
  | None => None
  end.
Definition is_some {A} (o : option A) : bool := match o with Some _ => true | None => false end.

(** *** Policies *)
Definition buildSecurityPolicyName (obj : SecurityPolicy) : M string :=
  mtotal (GenerateTruncName MaxNameLength (sp_Name obj) "" "" "" "").
Definition buildSecurityPolicyIDAndName (obj : SecurityPolicy) (createdFor : string) : M (string * string) :=
  match ix_GetByIndex (indexBySecurityPolicyUIDForScope (owner_scope createdFor)) (sp_UID obj) (securityPolicyStore st) with
  | policy :: _ => mret (po_Id policy, po_DisplayName policy)
  | [] =>
      if VPCMode then
        let suffixInUid := (parseSuffixInUid (sp_UID obj)).2 in
        let! id := unique_id obj suffixInUid (fun id => is_some (ix_GetByKey id (securityPolicyStore st))) in
        let! name := buildSecurityPolicyName obj in mret (id, name)
      else
        let prefix := if negb (bool_decide (createdFor = ResourceTypeSecurityPolicy)) then NetworkPolicyPrefix else SecurityPolicyPrefix in
        let! name := buildSecurityPolicyName obj in mret (GenerateID (sp_UID obj) prefix "" "", name)
  end.
Definition buildBasicTags (obj : SecurityPolicy) (createdFor : string) : list Tag :=
  BuildBasicTags Cluster TSecurityPolicy (sp_Namespace obj) (sp_Name obj) (sp_UID obj) (GetNamespaceUID (sp_Namespace obj)) ++
  [newTag (owner_name_scope createdFor) (sp_Name obj); newTag (owner_scope createdFor) (sp_UID obj)].
Definition buildTargetTags (obj : SecurityPolicy) (targets : list SecurityPolicyTarget) (ruleBaseID createdFor : string) : list Tag :=
  [newTag TagScopeGroupType TagValueGroupScope; newTag TagScopeSelectorHash (Sha1 (json_targets targets))] ++
  buildBasicTags obj createdFor ++
  (if VPCMode then [newTag TagScopeNSXShareCreatedFor TagValueShareNotCreated] else []) ++
  (if bool_decide (0 < slen ruleBaseID) then [newTag TagScopeRuleID ruleBaseID] else []).
Definition buildPeerTags (obj : SecurityPolicy) (rule : SecurityPolicyRule) (ruleBaseID : string) (isSource : bool)
    (groupScope : GroupScope) (createdFor : string) : list Tag :=
  let '(groupType, peers) := if isSource then (TagValueGroupSource, getRuleSourcePeers rule)
                             else (TagValueGroupDestination, getRuleDestinationPeers rule) in
  [newTag TagScopeGroupType groupType; newTag TagScopeRuleID ruleBaseID;
   newTag TagScopeSelectorHash (Sha1 (json_peers peers))] ++
  buildBasicTags obj createdFor ++
  (if VPCMode then
     [newTag TagScopeNSXShareCreatedFor
        (match groupScope with
         | InfraScopeGroup => TagValueShareCreatedForInfra
         | ProjectInfraScopeGroup => TagValueShareCreatedForProject
         | VPCScopeGroup => TagValueShareNotCreated
         end)]
   else []).
Definition buildShareTags (obj : SecurityPolicy) (groupScope : GroupScope) (createdFor : string) : list Tag :=
  buildBasicTags obj createdFor ++
  match groupScope with
  | InfraScopeGroup => [newTag TagScopeNSXShareCreatedFor TagValueShareCreatedForInfra]
  | ProjectInfraScopeGroup => [newTag TagScopeNSXShareCreatedFor TagValueShareCreatedForProject]
  | VPCScopeGroup => []
  end.

(** *** Resources that are in the stores already *)
Definition has_group_type (group : Group) (groupTypeTag : string) : bool :=
  existsb (fun tag => bool_decide (tag_Scope tag = Some TagScopeGroupType) && bool_decide (tag_Tag tag = Some groupTypeTag)) (g_Tags group).
Definition find_group_type (groups : list Group) (groupTypeTag : string) : option Group :=
  head (filter (fun group => has_group_type group groupTypeTag = true) groups).
Definition getPolicyAppliedGroupByCRUID (indexScope uid : string) : option Group :=
  head (filter (fun group => filterRuleTag (g_Tags group) = [])
    (ix_GetByIndex (indexBySecurityPolicyUIDForScope indexScope) uid (groupStore st))).
Definition getAppliedGroupByRuleID (createdFor uid ruleID : string) : option Group :=
  if bool_decide (ruleID = "") then getPolicyAppliedGroupByCRUID (owner_scope createdFor) uid
  else find_group_type (ix_GetByIndex indexGroupFunc ruleID (groupStore st)) TagValueGroupScope.
Definition getPeerGroupByRuleID (ruleID : string) (isSource : bool) (groupScope : GroupScope) : option Group :=
  let store := match groupScope with
    | InfraScopeGroup => infraGroupStore st
    | ProjectInfraScopeGroup => projectGroupStore st
    | VPCScopeGroup => groupStore st
    end in
  find_group_type (ix_GetByIndex indexGroupFunc ruleID store) (if isSource then TagValueGroupSource else TagValueGroupDestination).
Definition getRuleIDByUUIDAndRuleHash (uuid ruleHash createdFor : string) : option string :=
  let index := if bool_decide (createdFor = ResourceTypeNetworkPolicy) then indexNPByUUIDAndRuleHash
               else indexSPByUUIDAndRuleHashForScope securityPolicyUIDTagScope in
  match ix_GetByIndex index (uuid +:+ ":" +:+ ruleHash) (ruleStore st) with
  | [] => None
  | rule :: _ => match head (filter (fun tag => tag_Scope tag = Some TagScopeRuleID) (ru_Tags rule)) with
                 | Some tag => tag_Tag tag
                 | None => None
                 end
  end.

(** *** Rules *)
Definition buildRuleHashString (rule : SecurityPolicyRule) : string := Sha1 (json_rule rule).
(** [obj.Spec.Rules[ruleIdx]]. *)
Definition spec_rule (obj : SecurityPolicy) (ruleIdx : Z) : M SecurityPolicyRule :=
  mtotal (if bool_decide (0 <= ruleIdx) then sp_Rules obj !! Z.to_nat ruleIdx else None).
Definition buildVPCRuleID (obj : SecurityPolicy) (ruleHash : string) (ruleIdExistsFn : string -> bool) : M string :=
  let suffixInUid := (parseSuffixInUid (sp_UID obj)).2 in
  unique_id obj (join "-" (filter (fun s => s <> "") [suffixInUid; ruleHash])) ruleIdExistsFn.
Definition buildRuleID (obj : SecurityPolicy) (ruleIdx : Z) (createdFor : string) : M string :=
  let! rule := spec_rule obj ruleIdx in
  let ruleIndexHash := buildRuleHashString rule in
  if VPCMode then
    match getRuleIDByUUIDAndRuleHash (sp_UID obj) ruleIndexHash createdFor with
    | Some ruleID => mret ruleID
    | None => buildVPCRuleID obj ruleIndexHash (fun id => negb (bool_decide (ix_GetByIndex indexRuleFunc id (ruleStore st) = [])))
    end
  else mret (join "_" [SecurityPolicyPrefix; sp_UID obj; ruleIndexHash; itoa ruleIdx]).
Definition buildExpandedRuleID (obj : SecurityPolicy) (ruleIdx : Z) (ruleBaseID : string) (namedPort : option portInfo) : M string :=
  if VPCMode then
    let! portNumberSuffix := match namedPort with
      | Some p => mret (buildRulePortNumberString (pi_port p))
      | None => let! rule := spec_rule obj ruleIdx in mret (buildRulePortsNumberString (r_Ports rule))
      end in
    mtotal (NormalizeId (join "_" [ruleBaseID; portNumberSuffix]))
  else
    let idSuffix := match namedPort with Some p => pi_idSuffix p | None => "0_0" end in
    mtotal (NormalizeId (join "_" [ruleBaseID; idSuffix])).
Definition buildRuleDisplayName (rule : SecurityPolicyRule) (createdFor : string) (namedPortInfo : option portInfo) : M string :=
  let! ruleDirection := mresult (getRuleDirection rule) in
  let! ruleAction := mresult (getRuleAction rule) in
  let ruleAct :=
    if bool_decide (ruleAction = to_upper CRRuleActionAllow) then RuleActionAllow
    else if bool_decide (ruleAction = to_upper CRRuleActionDrop) then RuleActionDrop
    else if bool_decide (ruleAction = to_upper CRRuleActionReject) then RuleActionReject else "" in
  let ruleDir := if bool_decide (ruleDirection = "IN") then RuleIngress else RuleEgress in
  let suffix := join "_" [ruleDir; ruleAct] in
  let '(ruleName, suffix) :=
    if bool_decide (0 < slen (r_Name rule))
    then (r_Name rule, if bool_decide (createdFor = ResourceTypeNetworkPolicy) then "" else suffix)
    else (buildRulePortsString (r_Ports rule), suffix) in
  match namedPortInfo with
  | None => mtotal (GenerateTruncName MaxNameLength ruleName "" suffix "" "")
  | Some p => mtotal (GenerateTruncName MaxNameLength (ruleName +:+ "." +:+ buildRulePortString (pi_port p)) "" suffix "" "")
  end.
Definition buildRuleBasicInfo (obj : SecurityPolicy) (rule : SecurityPolicyRule) (ruleIdx : Z) (ruleBaseID createdFor : string)
    (namedPortInfo : option portInfo) : M Rule :=
  let! ruleAction := mresult (getRuleAction rule) in
  let! ruleDirection := mresult (getRuleDirection rule) in
  (* the name fails only when the direction or the action does *)
  let! displayName := buildRuleDisplayName rule createdFor namedPortInfo in
  let! hashTags := (if VPCMode then
      let! specRule := spec_rule obj ruleIdx in
      mret [newTag TagScopeRuleHash (buildRuleHashString specRule); newTag TagScopeRuleID ruleBaseID]
    else mret []) in
  let! id := buildExpandedRuleID obj ruleIdx ruleBaseID namedPortInfo in
  mret (mkNsxRule id displayName ruleDirection ruleIdx ruleAction ["ANY"] (buildBasicTags obj createdFor ++ hashTags) [] [] [] [] None).

(** *** Identifiers, names and paths of groups *)
Definition buildVpcGroupIdByRuleAndGroupType (obj : SecurityPolicy) (ruleHash groupType : string) (groupIdExistsFn : string -> bool) : M string :=
  let suffixInUid := (parseSuffixInUid (sp_UID obj)).2 in
  unique_id obj (join "-" (filter (fun s => s <> "") [suffixInUid; ruleHash] ++ [groupType])) groupIdExistsFn.
Definition group_exists (id : string) : bool := is_some (ix_GetByKey id (groupStore st)).
Definition buildAppliedGroupName (obj : SecurityPolicy) (ruleIdx : Z) : M string :=
  if bool_decide (ruleIdx = -1) then mtotal (GenerateTruncName MaxNameLength (sp_Name obj) "" TargetGroupSuffix "" "")
  else
    let! rule := spec_rule obj ruleIdx in
    mtotal (GenerateTruncName MaxNameLength (sp_Name obj) "" (join "_" [buildRuleHashString rule; TargetGroupSuffix]) "" "").
Definition buildAppliedGroupIDAndName (obj : SecurityPolicy) (ruleIdx : Z) (ruleBaseID createdFor : string) : M (string * string) :=
  if VPCMode then
    let! ruleHash := (if bool_decide (ruleIdx = -1) then mret "" else let! rule := spec_rule obj ruleIdx in mret (buildRuleHashString rule)) in
    match getAppliedGroupByRuleID createdFor (sp_UID obj) ruleBaseID with
    | Some group => mret (g_Id group, g_DisplayName group)
    | None =>
        let! id := buildVpcGroupIdByRuleAndGroupType obj ruleHash TargetGroupSuffix group_exists in
        let! name := buildAppliedGroupName obj ruleIdx in mret (id, name)
    end
  else
    let ruleIdxStr := if bool_decide (ruleIdx = -1) then "" else itoa ruleIdx in
    let! name := buildAppliedGroupName obj ruleIdx in
    mret (GenerateID (sp_UID obj) SecurityPolicyPrefix TargetGroupSuffix ruleIdxStr, name).
Definition vpc_group_path (info : VPCResourceInfo) (groupID : string) : string :=
  "/orgs/" +:+ OrgID info +:+ "/projects/" +:+ ProjectID info +:+ "/vpcs/" +:+ VPCID info +:+ "/groups/" +:+ groupID.
(** A nil [vpcInfo] panics in VPC mode. *)
Definition buildAppliedGroupPath (groupID : string) (vpcInfo : option VPCResourceInfo) : M string :=
  if VPCMode then let! info := mtotal vpcInfo in mret (vpc_group_path info groupID)
  else mret ("/infra/domains/" +:+ getDomain +:+ "/groups/" +:+ groupID).
Definition peer_suffix (isSource : bool) : string := if isSource then SrcGroupSuffix else DstGroupSuffix.
Definition buildRulePeerGroupID (obj : SecurityPolicy) (ruleIdx : Z) (ruleBaseID : string) (isSource : bool) (groupScope : GroupScope) : M string :=
  if VPCMode then
    match getPeerGroupByRuleID ruleBaseID isSource groupScope with
    | Some peerGroup => mret (g_Id peerGroup)
    | None =>
        let! rule := spec_rule obj ruleIdx in
        buildVpcGroupIdByRuleAndGroupType obj (buildRuleHashString rule) (peer_suffix isSource) group_exists
    end
  else mret (GenerateID (sp_UID obj) SecurityPolicyPrefix (peer_suffix isSource) (itoa ruleIdx)).
Definition buildRulePeerGroupName (obj : SecurityPolicy) (ruleIdx : Z) (isSource : bool) : M string :=
  let! rule := spec_rule obj ruleIdx in
  mtotal (GenerateTruncName MaxNameLength (sp_Name obj) "" (join "_" [buildRuleHashString rule; peer_suffix isSource]) "" "").
Definition buildRulePeerGroupPath (groupID : string) (groupScope : GroupScope) (vpcInfo : option VPCResourceInfo) : M string :=
  if VPCMode then
    match groupScope with
    | InfraScopeGroup => mret ("/infra/domains/" +:+ getDefaultProjectDomain +:+ "/groups/" +:+ groupID)
    | ProjectInfraScopeGroup =>
        let! info := mtotal vpcInfo in
        mret ("/orgs/" +:+ OrgID info +:+ "/projects/" +:+ ProjectID info +:+ "/infra/domains/" +:+ getVPCProjectDomain +:+ "/groups/" +:+ groupID)
    | VPCScopeGroup => let! info := mtotal vpcInfo in mret (vpc_group_path info groupID)
    end
  else mret ("/infra/domains/" +:+ getDomain +:+ "/groups/" +:+ groupID).

(** *** Shares *)
Definition buildShareName (nsxProjectID groupName : string) : M string :=
  mtotal (GenerateTruncName MaxNameLength (join "_" [nsxProjectID; "group"; groupName]) "" ShareSuffix "" "").
Definition buildShareID (nsxProjectID groupID : string) : string := GenerateID (join "_" [nsxProjectID; "group"; groupID]) "" ShareSuffix "".
Definition buildSharedResource (shareID : string) (sharedGroupPath : list string) : SharedResource := mkSharedResource shareID sharedGroupPath.
Definition buildChildSharedResource (shareID : string) (sharedGroupPath : list string) : M (list SharedResource) :=
  let sharedResource := buildSharedResource shareID sharedGroupPath in
  match ConvertToVapi sharedResource with Some e => mfail e | None => mret [sharedResource] end.
Definition buildSharedWith (vpcInfo : VPCResourceInfo) (groupScope : GroupScope) : option (list string) :=
  match groupScope with
  | InfraScopeGroup => Some ["/orgs/" +:+ OrgID vpcInfo +:+ "/projects/" +:+ ProjectID vpcInfo]
  | ProjectInfraScopeGroup => Some [GetVPCPath vpcInfo]
  | VPCScopeGroup => None
  end.
Definition buildGroupShare (obj : SecurityPolicy) (group : Group) (sharedGroupPath sharedWith : list string) (vpcInfo : VPCResourceInfo)
    (groupScope : GroupScope) (createdFor : string) : M Share :=
  let projectID := ProjectID vpcInfo in
  let shareID := buildShareID projectID (g_Id group) in
  let! shareName := buildShareName projectID (g_DisplayName group) in
  let! childSharedResource := buildChildSharedResource shareID sharedGroupPath in
  mret (mkShare shareID shareName (buildShareTags obj groupScope createdFor) sharedWith childSharedResource
          (if decide (groupScope = InfraScopeGroup) then Some "ALL_DESCENDANTS" else None) None).

(** *** Groups *)
Definition ns_uid (obj : SecurityPolicy) : string := GetNamespaceUID (sp_Namespace obj).
(** [buildPolicyGroup] and [buildNativePolicyGroup]: the group and its path. *)
Definition policy_group_messages : string * string :=
  ("total counts of policy target group criteria ", "total expression counts in policy target group criteria ").
Definition buildPolicyGroup (obj : SecurityPolicy) (createdFor : string) (vpcInfo : option VPCResourceInfo) : M (option Group * string) :=
  let! (id, name) := buildAppliedGroupIDAndName obj (-1) "" createdFor in
  let appliedTo := sp_AppliedTo obj in
  let targetTags := buildTargetTags obj appliedTo "" createdFor in
  match appliedTo with
  | [] => mret (None, "ANY")
  | _ =>
      let! expression := mresult (targets_expression VPCMode Cluster (ns_uid obj) policy_group_messages.1 policy_group_messages.2 appliedTo) in
      let! path := buildAppliedGroupPath id vpcInfo in
      mret (Some (mkGroup id name targetTags expression (Some path) None), path)
  end.
Definition buildNativePolicyGroup (obj : SecurityPolicy) (createdFor : string) (vpcInfo : option VPCResourceInfo) : M (option Group * string) :=
  let appliedTo := sp_AppliedTo obj in
  match appliedTo with
  | [] => mret (None, "ANY")
  | _ =>
      let! (id, name) := buildAppliedGroupIDAndName obj (-1) "" createdFor in
      let targetTags := buildTargetTags obj appliedTo "" createdFor in
      let! expression := mresult (native_targets_expression VPCMode (ns_uid obj) policy_group_messages.1 policy_group_messages.2 appliedTo) in
      let! path := buildAppliedGroupPath id vpcInfo in
      mret (Some (mkGroup id name targetTags expression (Some path) None), path)
  end.
Definition rule_group_messages : string * string :=
  ("total counts of rule applied group criteria ", "total expression counts in rule applied group criteria ").
(** [buildRuleAppliedGroupByRule]; [native] for [buildNativeRuleAppliedGroupByRule]. *)
Definition rule_applied_group (native : bool) (obj : SecurityPolicy) (rule : SecurityPolicyRule) (ruleIdx : Z)
    (ruleBaseID createdFor : string) (vpcInfo : option VPCResourceInfo) : M (option Group * string) :=
  let appliedTo := r_AppliedTo rule in
  let! (id, name) := buildAppliedGroupIDAndName obj ruleIdx ruleBaseID createdFor in
  let targetTags := buildTargetTags obj appliedTo ruleBaseID createdFor in
  let! path := buildAppliedGroupPath id vpcInfo in
  let! expression := mresult
    (if native then native_targets_expression VPCMode (ns_uid obj) rule_group_messages.1 rule_group_messages.2 appliedTo
     else targets_expression VPCMode Cluster (ns_uid obj) rule_group_messages.1 rule_group_messages.2 appliedTo) in
  mret (Some (mkGroup id name targetTags expression (Some path) None), path).
Definition buildRuleAppliedGroupByRule := rule_applied_group false.
Definition buildNativeRuleAppliedGroupByRule := rule_applied_group true.
(** The error is a ValidationError by value: not what [errors.As] looks for. *)
Definition buildRuleAppliedGroupByPolicy (obj : SecurityPolicy) (nsxRuleSrcGroupPath nsxRuleDstGroupPath policyAppliedGroupPath : string) : M string :=
  match sp_AppliedTo obj with
  | [] => mfail (EText "appliedTo needs to be set in either spec or rules")
  | _ =>
      mret (if bool_decide (nsxRuleSrcGroupPath = "ANY") && bool_decide (nsxRuleDstGroupPath = "ANY")
            then policyAppliedGroupPath else "ANY")
  end.
Definition rule_applied_to_group (native : bool) (obj : SecurityPolicy) (rule : SecurityPolicyRule) (ruleIdx : Z)
    (nsxRuleSrcGroupPath nsxRuleDstGroupPath createdFor policyAppliedGroupPath ruleBaseID : string) (vpcInfo : option VPCResourceInfo)
  : M (option Group * string) :=
  match r_AppliedTo rule with
  | [] =>
      let! path := buildRuleAppliedGroupByPolicy obj nsxRuleSrcGroupPath nsxRuleDstGroupPath policyAppliedGroupPath in
      mret (None, path)
  | _ => rule_applied_group native obj rule ruleIdx ruleBaseID createdFor vpcInfo
  end.
Definition buildRuleAppliedToGroup := rule_applied_to_group false.
Definition buildNativeRuleAppliedToGroup := rule_applied_to_group true.
Definition peer_group_messages (isSource : bool) : string * string :=
  let ruleDirection := if isSource then "source" else "destination" in
  ("total counts of rule " +:+ ruleDirection +:+ " group criteria ", "total expression counts in " +:+ ruleDirection +:+ " group criteria ").
(** The group of the peers, and, when it is shared, the share it goes into. *)
Definition share_group (obj : SecurityPolicy) (group : Group) (path : string) (vpcInfo : option VPCResourceInfo)
    (groupScope : GroupScope) (createdFor : string) : M (option Group * string * option GroupShare) :=
  let! info := mtotal vpcInfo in
  let! sharedWith := mtotal (buildSharedWith info groupScope) in
  let! share := buildGroupShare obj group [path] sharedWith info groupScope createdFor in
  mret (None, path, Some (mkGroupShare group share)).
Definition rule_peers (rule : SecurityPolicyRule) (isSource : bool) : list SecurityPolicyPeer :=
  if isSource then getRuleSourcePeers rule else getRuleDestinationPeers rule.
Definition buildRulePeerGroup (obj : SecurityPolicy) (rule : SecurityPolicyRule) (ruleIdx : Z) (ruleBaseID : string) (isSource : bool)
    (createdFor : string) (vpcInfo : option VPCResourceInfo) (isDefaultProject : bool) : M (option Group * string * option GroupShare) :=
  let rulePeers := rule_peers rule isSource in
  let groupShared := existsb (fun peer => is_some (p_NamespaceSelector peer)) rulePeers in
  let groupScope := if VPCMode && groupShared then (if isDefaultProject then InfraScopeGroup else ProjectInfraScopeGroup) else VPCScopeGroup in
  let! id := buildRulePeerGroupID obj ruleIdx ruleBaseID isSource groupScope in
  let! name := buildRulePeerGroupName obj ruleIdx isSource in
  let! path := buildRulePeerGroupPath id groupScope vpcInfo in
  let peerTags := buildPeerTags obj rule ruleBaseID isSource groupScope createdFor in
  let messages := peer_group_messages isSource in
  let! expression := mresult (peers_expression VPCMode Cluster (ns_uid obj) messages.1 messages.2 (dedupBlocks rulePeers) groupShared) in
  let group := mkGroup id name peerTags expression (Some path) None in
  if VPCMode && groupShared then share_group obj group path vpcInfo groupScope createdFor
  else mret (Some group, path, None).
Definition buildNativeRulePeerGroup (obj : SecurityPolicy) (rule : SecurityPolicyRule) (ruleIdx : Z) (ruleBaseID : string) (isSource : bool)
    (createdFor : string) (vpcInfo : option VPCResourceInfo) (isDefaultProject : bool) : M (option Group * string * option GroupShare) :=
  let rulePeers := rule_peers rule isSource in
  let groupScope := if VPCMode && isDefaultProject then InfraScopeGroup else ProjectInfraScopeGroup in
  let! id := buildRulePeerGroupID obj ruleIdx ruleBaseID isSource groupScope in
  let! name := buildRulePeerGroupName obj ruleIdx isSource in
  let! path := buildRulePeerGroupPath id groupScope vpcInfo in
  let peerTags := buildPeerTags obj rule ruleBaseID isSource groupScope createdFor in
  let messages := peer_group_messages isSource in
  let! expression := mresult (native_peers_expression VPCMode Cluster (ns_uid obj) messages.1 messages.2 (dedupBlocks rulePeers)) in
  let group := mkGroup id name peerTags expression (Some path) None in
  if VPCMode then share_group obj group path vpcInfo groupScope createdFor
  else mret (Some group, path, None).
Definition peer_group (native : bool) := if native then buildNativeRulePeerGroup else buildRulePeerGroup.

(** The source and the destination of a rule: a new group, the two paths, and
    the share. An IP set group of a named port is the destination already. *)
Definition rule_in_group (native : bool) (obj : SecurityPolicy) (rule : SecurityPolicyRule) (nsxRule : Rule) (ruleIdx : Z)
    (ruleBaseID createdFor : string) (vpcInfo : option VPCResourceInfo) (isDefaultProject : bool)
  : M (option Group * string * string * option GroupShare) :=
  let dst := default "ANY" (head (ru_DestinationGroups nsxRule)) in
  match getRuleSourcePeers rule with
  | [] => mret (None, "ANY", dst, None)
  | _ =>
      let! (group, src, share) := peer_group native obj rule ruleIdx ruleBaseID true createdFor vpcInfo isDefaultProject in
      mret (group, src, dst, share)
  end.
Definition rule_out_group (native : bool) (obj : SecurityPolicy) (rule : SecurityPolicyRule) (nsxRule : Rule) (ruleIdx : Z)
    (ruleBaseID createdFor : string) (vpcInfo : option VPCResourceInfo) (isDefaultProject : bool)
  : M (option Group * string * string * option GroupShare) :=
  let src := if native then default "ANY" (head (ru_SourceGroups nsxRule)) else "ANY" in
  match ru_DestinationGroups nsxRule with
  | dst :: _ => mret (None, src, dst, None)
  | [] =>
      match getRuleDestinationPeers rule with
      | [] => mret (None, src, "ANY", None)
      | _ =>
          let! (group, dst, share) := peer_group native obj rule ruleIdx ruleBaseID false createdFor vpcInfo isDefaultProject in
          mret (group, src, dst, share)
      end
  end.
Definition buildRuleInGroup := rule_in_group false.
Definition buildRuleOutGroup := rule_out_group false.
Definition buildNativeRuleInGroup := rule_in_group true.
Definition buildNativeRuleOutGroup := rule_out_group true.

(** *** Named ports (expand.go) *)
Definition buildRuleIPSetGroupID (ruleModel : Rule) : string := GenerateID (ru_Id ruleModel) "" IpSetGroupSuffix "".
Definition buildRuleIPSetGroupName (ruleModel : Rule) : M string :=
  mtotal (GenerateTruncName MaxNameLength (ru_DisplayName ruleModel) "" IpSetGroupSuffix "" "").
Definition buildRuleIPSetGroupPath (ruleModel : Rule) (vpcInfo : option VPCResourceInfo) : M string :=
  let ipSetGroupID := buildRuleIPSetGroupID ruleModel in
  if VPCMode then
    match vpcInfo with
    | None => mfail (EText ("vpcInfo is nil when building ruleIPSetGroupPath for rule " +:+ ru_Id ruleModel))
    | Some info => mret (vpc_group_path info ipSetGroupID)
    end
  else mret ("/infra/domains/" +:+ getDomain +:+ "/groups/" +:+ ipSetGroupID).
Definition buildRuleIPSetGroup (obj : SecurityPolicy) (rule : SecurityPolicyRule) (ruleModel : Rule) (ips : list string)
    (ruleBaseID createdFor : string) : M Group :=
  let! name := buildRuleIPSetGroupName ruleModel in
  mret (mkGroup (buildRuleIPSetGroupID ruleModel) name (buildPeerTags obj rule ruleBaseID false VPCScopeGroup createdFor)
    [IPAddressExpression ips] None None).
Definition with_path (g : Group) (path : string) : Group :=
  mkGroup (g_Id g) (g_DisplayName g) (g_Tags g) (g_Expression g) (Some path) (g_MarkedForDelete g).
Definition with_entries (r : Rule) (entries : list service_entry) (dst : list string) : Rule :=
  mkNsxRule (ru_Id r) (ru_DisplayName r) (ru_Direction r) (ru_SequenceNumber r) (ru_Action r) (ru_Services r) (ru_Tags r)
    entries (ru_SourceGroups r) dst (ru_Scope r) (ru_MarkedForDelete r).
Definition expandRuleByService (obj : SecurityPolicy) (rule : SecurityPolicyRule) (ruleIdx : Z) (ruleBaseID createdFor : string)
    (namedPort : portInfo) (vpcInfo : option VPCResourceInfo) : M (list Group * Rule) :=
  let! nsxRule := buildRuleBasicInfo obj rule ruleIdx ruleBaseID createdFor (Some namedPort) in
  let entries := [buildRuleServiceEntries (pi_port namedPort)] in
  match pi_ips namedPort with
  | [] => mret ([], with_entries nsxRule entries [])
  | ips =>
      let! group := buildRuleIPSetGroup obj rule nsxRule ips ruleBaseID createdFor in
      let! path := buildRuleIPSetGroupPath nsxRule vpcInfo in
      mret ([with_path group path], with_entries nsxRule entries [path])
  end.

(** [client.ListOptions]: the label selector and the Namespace. *)
Definition ListOptions : Type := option Selector * string.
Definition target_selectors (obj : SecurityPolicy) (targets : list SecurityPolicyTarget) : result goerr (list ListOptions) :=
  range_result (fun l target =>
    match t_PodSelector target with
    | None => Ok l
    | Some s => match LabelSelectorAsSelector s with Err e => Err e | Ok label => Ok (l ++ [(Some label, sp_Namespace obj)]) end
    end) [] targets.
Definition ResolveNamespace (lbs : LabelSelector) : result goerr (list string) :=
  match LabelSelectorAsSelector lbs with Err e => Err e | Ok selector => List_namespaces selector end.
Definition peer_selectors (obj : SecurityPolicy) (l : list ListOptions) (target : SecurityPolicyPeer) : result goerr (list ListOptions) :=
  match p_PodSelector target, p_NamespaceSelector target with
  | None, None => Ok l
  | pod, ns =>
      match (match pod with
             | None => Ok None
             | Some s => match LabelSelectorAsSelector s with Err e => Err e | Ok label => Ok (Some label) end
             end) with
      | Err e => Err e
      | Ok label =>
          match (match ns with None => Ok [sp_Namespace obj] | Some s => ResolveNamespace s end) with
          | Err e => Err e
          | Ok namespaces => Ok (l ++ map (fun n => (label, n)) namespaces)
          end
      end
  end.
Definition getPodSelectors (obj : SecurityPolicy) (rule : SecurityPolicyRule) : result goerr (list ListOptions) :=
  match getRuleDirection rule with
  | Err e => Err e
  | Ok ruleDirection =>
      if bool_decide (ruleDirection = "IN") then
        match sp_AppliedTo obj with
        | [] => target_selectors obj (r_AppliedTo rule)
        | appliedTo => target_selectors obj appliedTo
        end
      else range_result (peer_selectors obj) [] (getRuleDestinationPeers rule)
  end.
Definition resolveNamedPort (obj : SecurityPolicy) (rule : SecurityPolicyRule) (spPort : SecurityPolicyPort) : result goerr (list PortAddress) :=
  match getPodSelectors obj rule with
  | Err e => Err e
  | Ok podSelectors =>
      match range_result (fun portAddress selector =>
        match List_pods selector.1 selector.2 with
        | Err e => Err e
        | Ok pods => Ok (portAddress ++ mjoin (map (fun pod => resolvePodPort pod spPort) pods))
        end) [] podSelectors with
      | Err e => Err e
      | Ok portAddress => Ok (MergeAddressByPort portAddress)
      end
  end.
(** The addresses of a port. No error of [resolveNamedPort] is a
    NoEffectiveOption (they come from the Kubernetes client and the selectors),
    so the IP set groups of the rule are never cleared here. *)
Definition port_infos (obj : SecurityPolicy) (rule : SecurityPolicyRule) (port : SecurityPolicyPort) (portIdx : nat) : result goerr (list portInfo) :=
  match port_Port port with
  | IInt _ => Ok [with_suffix (newPortInfo port) (itoa (Z.of_nat portIdx) +:+ "_0")]
  | IStr _ =>
      if negb (bool_decide (port_EndPort port = 0)) then Err (ERestriction "endPort can only be defined if port is also numeric.")
      else
        match resolveNamedPort obj rule port with
        | Err e => Err e
        | Ok startPort =>
            Ok (imap (fun addrIdx portAddr => with_suffix (newPortInfoForNamedPort portAddr (port_Protocol port))
                  (itoa (Z.of_nat portIdx) +:+ "_" +:+ itoa (Z.of_nat addrIdx))) startPort)
        end
  end.
Definition expandRuleByPort (obj : SecurityPolicy) (rule : SecurityPolicyRule) (ruleIdx : Z) (port : SecurityPolicyPort) (portIdx : nat)
    (ruleBaseID createdFor : string) (vpcInfo : option VPCResourceInfo) : M (list Group * list Rule) :=
  let! portInfos := mresult (port_infos obj rule port portIdx) in
  mloop (fun acc p =>
    let! (gs, r) := expandRuleByService obj rule ruleIdx ruleBaseID createdFor p vpcInfo in
    mret (acc.1 ++ gs, acc.2 ++ [r])) ([], []) portInfos.
Definition expandRule (obj : SecurityPolicy) (rule : SecurityPolicyRule) (ruleIdx : Z) (ruleBaseID createdFor : string)
    (vpcInfo : option VPCResourceInfo) : M (list Group * list Rule) :=
  if negb (hasNamedPort rule) then
    let! nsxRule := buildRuleBasicInfo obj rule ruleIdx ruleBaseID createdFor None in
    mret ([], [with_entries nsxRule (map buildRuleServiceEntries (r_Ports rule)) []])
  else
    match validateNamedPortRule rule with
    | Some e => mfail e
    | None =>
        mloop (fun acc p =>
          let! (gs, rs) := expandRuleByPort obj rule ruleIdx p.2 p.1 ruleBaseID createdFor vpcInfo in
          mret (acc.1 ++ gs, acc.2 ++ rs)) ([], []) (imap pair (r_Ports rule))
    end.

(** *** Whole rules and policies *)
Definition with_groups (r : Rule) (src dst scope : string) : Rule :=
  mkNsxRule (ru_Id r) (ru_DisplayName r) (ru_Direction r) (ru_SequenceNumber r) (ru_Action r) (ru_Services r) (ru_Tags r)
    (ru_ServiceEntries r) [src] [dst] [scope] (ru_MarkedForDelete r).
(** One rule of the expansion: its group, its share, its scope. *)
Definition rule_groups_step (native : bool) (obj : SecurityPolicy) (rule : SecurityPolicyRule) (ruleIdx : Z)
    (ruleDirection ruleBaseID createdFor policyGroupPath : string) (vpcInfo : option VPCResourceInfo) (isDefaultProject : bool)
    (acc : list Rule * list Group * list GroupShare) (nsxRule : Rule) : M (list Rule * list Group * list GroupShare) :=
  let '(rules, ruleGroups, shares) := acc in
  let! (group, src, dst, share) :=
    (if bool_decide (ruleDirection = "IN") then rule_in_group native else rule_out_group native)
      obj rule nsxRule ruleIdx ruleBaseID createdFor vpcInfo isDefaultProject in
  let! (applied, scope) := rule_applied_to_group native obj rule ruleIdx src dst createdFor policyGroupPath ruleBaseID vpcInfo in
  mret (rules ++ [with_groups nsxRule src dst scope], ruleGroups ++ option_list group ++ option_list applied, shares ++ option_list share).
Definition rule_and_groups (native : bool) (obj : SecurityPolicy) (rule : SecurityPolicyRule) (ruleIdx : Z)
    (createdFor policyGroupPath : string) (vpcInfo : option VPCResourceInfo) (isDefaultProject : bool)
  : M (list Rule * list Group * list GroupShare) :=
  let! ruleDirection := mresult (getRuleDirection rule) in
  let! ruleBaseID := buildRuleID obj ruleIdx createdFor in
  let! (ipSetGroups, nsxRules) := expandRule obj rule ruleIdx ruleBaseID createdFor vpcInfo in
  mloop (rule_groups_step native obj rule ruleIdx ruleDirection ruleBaseID createdFor policyGroupPath vpcInfo isDefaultProject)
    ([], ipSetGroups, []) nsxRules.
Definition buildRuleAndGroups := rule_and_groups false.
Definition buildNativeRuleAndGroups := rule_and_groups true.

(** The elements whose key the set does not have yet, and the set. *)
Fixpoint dedup {A} (key : A -> string) (currentSet : gset string) (l : list A) : gset string * list A :=
  match l with
  | [] => (currentSet, [])
  | a :: l' =>
      if bool_decide (key a ∈ currentSet) then dedup key currentSet l'
      else let '(s, l'') := dedup key ({[key a]} ∪ currentSet) l' in (s, a :: l'')
  end.
(** What is built so far, with the set the next rule starts from: the code
    clears it before the groups and before the shares, not before the rules. *)
Definition built : Type := list Rule * list Group * list GroupShare.
Definition policy_step (obj : SecurityPolicy) (createdFor policyGroupPath : string) (vpcInfo : option VPCResourceInfo) (isDefaultProject : bool)
    (acc : gset string * built) (p : nat * SecurityPolicyRule) : M (gset string * built) :=
  let '(currentSet, (nsxRules, nsxGroups, nsxGroupShares)) := acc in
  let! (expandRules, buildGroups, buildGroupShares) :=
    buildRuleAndGroups obj p.2 (Z.of_nat p.1) createdFor policyGroupPath vpcInfo isDefaultProject in
  let rules := (dedup ru_Id currentSet expandRules).2 in
  let groups := (dedup g_Id ∅ buildGroups).2 in
  let '(currentSet, shares) := dedup (fun item => sh_Id (gs_share item)) ∅ buildGroupShares in
  mret (currentSet, (nsxRules ++ rules, nsxGroups ++ groups, nsxGroupShares ++ shares)).
(** The native builder has a set for each, over all the rules. *)
Definition native_policy_step (obj : SecurityPolicy) (createdFor policyGroupPath : string) (vpcInfo : option VPCResourceInfo) (isDefaultProject : bool)
    (acc : gset string * gset string * gset string * built) (p : nat * SecurityPolicyRule) : M (gset string * gset string * gset string * built) :=
  let '(ruleIDs, groupIDs, shareIDs, (nsxRules, nsxGroups, nsxGroupShares)) := acc in
  let! (expandRules, buildGroups, buildGroupShares) :=
    buildNativeRuleAndGroups obj p.2 (Z.of_nat p.1) createdFor policyGroupPath vpcInfo isDefaultProject in
  let '(ruleIDs, rules) := dedup ru_Id ruleIDs expandRules in
  let '(groupIDs, groups) := dedup g_Id groupIDs buildGroups in
  let '(shareIDs, shares) := dedup (fun item => sh_Id (gs_share item)) shareIDs buildGroupShares in
  mret (ruleIDs, groupIDs, shareIDs, (nsxRules ++ rules, nsxGroups ++ groups, nsxGroupShares ++ shares)).
Definition nil_vpc_error (native : bool) (obj : SecurityPolicy) : goerr :=
  EText ("vpcInfo is nil when building " +:+ (if native then "native " else "") +:+ "SecurityPolicy " +:+ sp_Name obj).
Definition buildNativeSecurityPolicy (obj : SecurityPolicy) (createdFor : string) (vpcInfo : option VPCResourceInfo) (isDefaultProject : bool)
  : M (NsxPolicy * list Group * list GroupShare) :=
  if VPCMode && negb (is_some vpcInfo) then mfail (nil_vpc_error true obj)
  else
    let tags := buildBasicTags obj createdFor in
    let! (policyID, policyName) := buildSecurityPolicyIDAndName obj createdFor in
    let! (policyGroup, policyGroupPath) := buildNativePolicyGroup obj createdFor vpcInfo in
    let groups := option_list policyGroup in
    let! (_, (nsxRules, nsxGroups, nsxGroupShares)) :=
      mloop (native_policy_step obj createdFor policyGroupPath vpcInfo isDefaultProject)
        (∅, list_to_set (map g_Id groups), ∅, ([], groups, [])) (imap pair (sp_Rules obj)) in
    mret (mkNsxPolicy policyID policyName (sp_Priority obj) [policyGroupPath] tags nsxRules None None, nsxGroups, nsxGroupShares).
Definition buildSecurityPolicy (obj : SecurityPolicy) (createdFor : string) (vpcInfo : option VPCResourceInfo) (isDefaultProject : bool)
  : M (NsxPolicy * list Group * list GroupShare) :=
  if NamespaceGroup then buildNativeSecurityPolicy obj createdFor vpcInfo isDefaultProject
  else if VPCMode && negb (is_some vpcInfo) then mfail (nil_vpc_error false obj)
  else
    let tags := buildBasicTags obj createdFor in
    let! (policyID, policyName) := buildSecurityPolicyIDAndName obj createdFor in
    let! (policyGroup, policyGroupPath) := buildPolicyGroup obj createdFor vpcInfo in
    let! (_, (nsxRules, nsxGroups, nsxGroupShares)) :=
      mloop (policy_step obj createdFor policyGroupPath vpcInfo isDefaultProject) (∅, ([], option_list policyGroup, [])) (imap pair (sp_Rules obj)) in
    mret (mkNsxPolicy policyID policyName (sp_Priority obj) [policyGroupPath] tags nsxRules None None, nsxGroups, nsxGroupShares).
End Build.

(** ** Inverting the calls *)
Lemma mloop_inv {St A S} (P : S -> Prop) (f : S -> A -> ST St S) l s n s' n' :
  (forall s a n s' n', a ∈ l -> P s -> f s a n = Some (Ok s', n') -> P s') ->
  P s -> mloop f s l n = Some (Ok s', n') -> P s'.
Proof.
  revert s n; induction l as [|a l IH]; intros s n Hstep HP; cbn [mloop]; [by intros [= <- _]|].
  intros (s1 & n1 & H1 & H2)%bindM_Ok. eapply (IH s1); [|eapply Hstep; [by left|done..]|done].
  intros. eapply Hstep; [by right|done..].
Qed.
(** Take a successful call apart. *)
Ltac m_inv :=
  repeat match goal with
  | H : bindM _ _ _ = Some (Ok _, _) |- _ => apply bindM_Ok in H as (? & ? & ? & H)
  | H : mret _ _ = Some _ |- _ => unfold mret in H; simplify_eq
  | H : mfail _ _ = Some _ |- _ => unfold mfail in H; simplify_eq
  | H : mresult _ _ = Some _ |- _ => unfold mresult in H; simplify_eq
  | H : mtotal _ _ = Some _ |- _ => unfold mtotal in H; destruct (_ : option _) eqn:?; simplify_eq
  end.

(** ** Tags *)
Lemma filterTag_elem tags s v : newTag s v ∈ tags -> v ∈ filterTag tags s.
Proof. intros H. apply list_elem_of_omap. exists (newTag s v). split; [done|]. cbn. by rewrite bool_decide_true. Qed.
Lemma filterTag_app t1 t2 s : filterTag (t1 ++ t2) s = filterTag t1 s ++ filterTag t2 s.
Proof. apply omap_app. Qed.
Lemma elem_of_dedup {A} (key : A -> string) s l a : a ∈ (dedup key s l).2 -> a ∈ l.
Proof.
  revert s; induction l as [|b l IH]; intros s; cbn [dedup]; [done|]. case_bool_decide; [intros H1; right; by eapply IH|].
  destruct (dedup key _ l) as [s' l'] eqn:Hd. cbn [snd]. intros [->|Ha]%elem_of_cons; [by left|]. right. eapply (IH ({[key b]} ∪ s)). by rewrite Hd.
Qed.
(** The identifiers that are left are distinct and were not in the set. *)
Lemma dedup_NoDup {A} (key : A -> string) s l s' l' :
  dedup key s l = (s', l') ->
  NoDup (map key l') /\ (forall a, a ∈ l' -> key a ∉ s) /\ s' = s ∪ list_to_set (map key l').
Proof.
  revert s s' l'; induction l as [|b l IH]; intros s s' l'; cbn [dedup].
  { intros [= <- <-]. split; [constructor|]. split; [by intros ? ?%elem_of_nil|]. cbn. set_solver. }
  case_bool_decide as Hb; [apply IH|]. destruct (dedup key _ l) as [s1 l1] eqn:Hd. intros [= <- <-].
  destruct (IH _ _ _ Hd) as (H1 & H2 & ->). split; [|split].
  - cbn [map]. constructor; [|done]. intros (a & Ha & Hin)%list_elem_of_fmap. destruct (H2 a Hin). rewrite <- Ha. set_solver.
  - intros a [->|Ha]%elem_of_cons; [done|]. pose proof (H2 a Ha). set_solver.
  - cbn [map list_to_set]. set_solver.
Qed.
Lemma dedup_all {A} (key : A -> string) s l s' l' a : dedup key s l = (s', l') -> a ∈ l -> key a ∈ s'.
Proof.
  revert s s' l'; induction l as [|b l IH]; intros s s' l' Hd; cbn [dedup] in Hd; [by intros ?%elem_of_nil|].
  case_bool_decide as Hb.
  - destruct (dedup_NoDup key s l s' l' Hd) as (_ & _ & Hs). intros [->|Ha]%elem_of_cons; [subst s'; set_solver|by eapply IH].
  - destruct (dedup key _ l) as [s1 l1] eqn:Hd1. injection Hd as <- <-. destruct (dedup_NoDup _ _ _ _ _ Hd1) as (_ & _ & Hs).
    intros [->|Ha]%elem_of_cons; [subst s1; set_solver|by eapply IH].
Qed.

(** ** Every resource carries the tags of its owner *)
Section Owned.
Context {Cfg : Config} {Rt : Runtime} {Kube : KubeClient}.
Context {IP IR IG IS : Type} `{!Indexer IP NsxPolicy o_Id} `{!Indexer IR Rule o_Id} `{!Indexer IG Group o_Id} `{!Indexer IS Share o_Id}.
Context (st : stores IP IR IG IS) (obj : SecurityPolicy) (createdFor : string).

(** New, and with the tags of the policy: of the cluster, the Namespace and the
    owner. *)
Definition filed {A} `{!NsxObject A} (a : A) : Prop :=
  buildBasicTags obj createdFor ⊆ o_Tags a /\ o_MarkedForDelete a = None.
(** One tag says which store a group or share goes to. *)
Definition created_for {A} `{!NsxObject A} (value : string) (a : A) : Prop :=
  VPCMode = true -> filterTag (o_Tags a) TagScopeNSXShareCreatedFor = [value].
Definition group_filed (g : Group) : Prop := filed g /\ created_for TagValueShareNotCreated g.
Definition share_filed (isDefaultProject : bool) (s : GroupShare) : Prop :=
  let value := if isDefaultProject then TagValueShareCreatedForInfra else TagValueShareCreatedForProject in
  filed (gs_share s) /\ created_for value (gs_share s) /\ filed (gs_shareGroup s) /\ created_for value (gs_shareGroup s).
Lemma basic_owned : newTag (owner_scope createdFor) (sp_UID obj) ∈ buildBasicTags obj createdFor.
Proof. unfold buildBasicTags. rewrite elem_of_app. right. right. left. Qed.
Lemma basic_created : filterTag (buildBasicTags obj createdFor) TagScopeNSXShareCreatedFor = [].
Proof.
  unfold buildBasicTags, BuildBasicTags, owner_name_scope, owner_scope, securityPolicyNameTagScope, securityPolicyUIDTagScope.
  rewrite !filterTag_app. destruct (bool_decide (createdFor = _)), (bool_decide (0 < _)), VPCMode; reflexivity.
Qed.
(** Which files it under the UID of the policy. *)
Lemma filed_owned {A} `{!NsxObject A} (a : A) : filed a -> sp_UID obj ∈ indexBySecurityPolicyUIDForScope (owner_scope createdFor) a.
Proof. intros [Ht _]. apply filterTag_elem, Ht, basic_owned. Qed.
Lemma target_filed id name l base e p : group_filed (mkGroup id name (buildTargetTags obj l base createdFor) e p None).
Proof.
  split.
  - split; [|done]. intros t Ht. change (t ∈ buildTargetTags obj l base createdFor).
    unfold buildTargetTags. rewrite !elem_of_app. right. by left.
  - intros HV. change (filterTag (buildTargetTags obj l base createdFor) TagScopeNSXShareCreatedFor = [TagValueShareNotCreated]).
    unfold buildTargetTags. rewrite HV, !filterTag_app, basic_created. by case_bool_decide.
Qed.
Lemma peer_filed id name rule base isSource scope e p :
  let g := mkGroup id name (buildPeerTags obj rule base isSource scope createdFor) e p None in
  filed g /\ created_for (match scope with
     | InfraScopeGroup => TagValueShareCreatedForInfra
     | ProjectInfraScopeGroup => TagValueShareCreatedForProject
     | VPCScopeGroup => TagValueShareNotCreated
     end) g.
Proof.
  intros g. assert (Ht : o_Tags g = buildPeerTags obj rule base isSource scope createdFor) by done. split.
  - split; [|done]. intros t Hb. rewrite Ht. unfold buildPeerTags. destruct (if isSource : bool then _ else _) as [groupType peers].
    rewrite !elem_of_app. right. by left.
  - intros HV. rewrite Ht. unfold buildPeerTags. destruct (if isSource : bool then _ else _) as [groupType peers].
    rewrite HV, !filterTag_app, basic_created. by destruct scope.
Qed.
Lemma basic_info_filed rule ruleIdx base namedPort n r n' :
  buildRuleBasicInfo obj rule ruleIdx base createdFor namedPort n = Some (Ok r, n') -> filed r.
Proof.
  unfold buildRuleBasicInfo. intros H. m_inv. split; [|done].
  rename select (list Tag) into hashTags. intros t Ht. change (t ∈ buildBasicTags obj createdFor ++ hashTags).
  apply elem_of_app. by left.
Qed.
Lemma filed_with_entries r entries dst : filed r -> filed (with_entries r entries dst).
Proof. done. Qed.
Lemma service_filed rule ruleIdx base p vpcInfo n gs r n' :
  expandRuleByService obj rule ruleIdx base createdFor p vpcInfo n = Some (Ok (gs, r), n') ->
  Forall (group_filed) gs /\ filed r.
Proof.
  unfold expandRuleByService. intros H. m_inv. rename select (buildRuleBasicInfo _ _ _ _ _ _ _ = _) into Hb.
  apply basic_info_filed in Hb. destruct (pi_ips p) as [|ip ips]; m_inv; [by split|].
  split; [|done]. constructor; [|done]. unfold buildRuleIPSetGroup in *. m_inv.
  apply (peer_filed _ _ rule base false VPCScopeGroup).
Qed.
Lemma port_filed rule ruleIdx port portIdx base vpcInfo n gs rs n' :
  expandRuleByPort obj rule ruleIdx port portIdx base createdFor vpcInfo n = Some (Ok (gs, rs), n') ->
  Forall (group_filed) gs /\ Forall (filed) rs.
Proof.
  unfold expandRuleByPort. intros H. m_inv.
  apply (mloop_inv (fun acc => Forall group_filed acc.1 /\ Forall filed acc.2)) in H; [exact H| |by split].
  intros [gs0 rs0] p n0 [gs1 rs1] n1 _ [H1 H2] Hs. apply bindM_Ok in Hs as ([gs2 r] & n2 & Hs & Hr). m_inv.
  apply service_filed in Hs as [? ?]. cbn [fst snd] in *. split; apply Forall_app; split; [done..|]. by constructor.
Qed.
Lemma expand_filed rule ruleIdx base vpcInfo n gs rs n' :
  expandRule obj rule ruleIdx base createdFor vpcInfo n = Some (Ok (gs, rs), n') ->
  Forall (group_filed) gs /\ Forall (filed) rs.
Proof.
  unfold expandRule. destruct (negb _).
  - intros H. m_inv. split; [done|]. constructor; [|done]. apply filed_with_entries. by eapply basic_info_filed.
  - destruct (validateNamedPortRule rule); [done|]. intros H.
    apply (mloop_inv (fun acc => Forall group_filed acc.1 /\ Forall filed acc.2)) in H; [exact H| |by split].
    intros [gs0 rs0] p n0 [gs1 rs1] n1 _ [H1 H2] Hs. apply bindM_Ok in Hs as ([gs2 r] & n2 & Hs & Hr). m_inv.
    apply port_filed in Hs as [? ?]. cbn [fst snd] in *. split; by apply Forall_app.
Qed.
Lemma share_group_filed group path vpcInfo isDefault n r n' :
  let scope := if isDefault : bool then InfraScopeGroup else ProjectInfraScopeGroup in
  share_group obj group path vpcInfo scope createdFor n = Some (Ok r, n') ->
  exists sh, r = (None, path, Some (mkGroupShare group sh)) /\ filed sh /\
    created_for (if isDefault then TagValueShareCreatedForInfra else TagValueShareCreatedForProject) sh.
Proof.
  intros scope. unfold share_group, buildGroupShare, buildChildSharedResource. intros H. m_inv. eexists. split; [done|].
  assert (Ht : forall i n w c s, o_Tags (mkShare i n (buildShareTags obj scope createdFor) w c s None) = buildBasicTags obj createdFor ++
    [newTag TagScopeNSXShareCreatedFor (if isDefault then TagValueShareCreatedForInfra else TagValueShareCreatedForProject)]).
  { intros. cbn [o_Tags share_object sh_Tags]. unfold buildShareTags, scope. by destruct isDefault. }
  split; [split; [intros t Hb; rewrite Ht; apply elem_of_app; by left|done]|].
  intros _. rewrite Ht, filterTag_app, basic_created. by destruct isDefault.
Qed.
Definition groups_filed (isDefault : bool) (group : option Group) (share : option GroupShare) : Prop :=
  Forall (group_filed) (option_list group) /\ Forall (share_filed isDefault) (option_list share).
Lemma shared_filed id name rule base isSource scope e path vpcInfo isDefault n g p s n' :
  scope = (if isDefault : bool then InfraScopeGroup else ProjectInfraScopeGroup) ->
  share_group obj (mkGroup id name (buildPeerTags obj rule base isSource scope createdFor) e (Some path) None) path vpcInfo scope createdFor n
    = Some (Ok (g, p, s), n') ->
  groups_filed isDefault g s.
Proof.
  intros -> Hs. destruct (peer_filed id name rule base isSource (if isDefault then InfraScopeGroup else ProjectInfraScopeGroup) e (Some path)) as [Hg Hc].
  apply share_group_filed in Hs as (sh & [= -> -> ->] & H1 & H2). split; [constructor|].
  constructor; [|constructor]. split; [done|]. split; [done|]. split; [done|]. by destruct isDefault.
Qed.
Lemma peer_group_filed native rule ruleIdx base isSource vpcInfo isDefault n g p s n' :
  peer_group st native obj rule ruleIdx base isSource createdFor vpcInfo isDefault n = Some (Ok (g, p, s), n') ->
  groups_filed isDefault g s.
Proof.
  destruct native; unfold peer_group, buildNativeRulePeerGroup, buildRulePeerGroup; intros H.
  - set (scope := if VPCMode && isDefault then InfraScopeGroup else ProjectInfraScopeGroup) in *. m_inv.
    destruct VPCMode eqn:HV; [by eapply shared_filed|]. m_inv. split; [|constructor]. constructor; [|constructor].
    split; [eapply peer_filed|]. intros HV'. congruence.
  - set (shared := existsb _ _) in *. set (scope := if VPCMode && shared then _ else _) in *. m_inv.
    destruct (VPCMode && shared) eqn:HV; [by eapply shared_filed|]. m_inv. split; [|constructor]. constructor; [|constructor].
    eapply peer_filed.
Qed.
Lemma in_out_filed native (ingress : bool) rule r ruleIdx base vpcInfo isDefault n g src dst s n' :
  (if ingress then rule_in_group st native else rule_out_group st native) obj rule r ruleIdx base createdFor vpcInfo isDefault n
    = Some (Ok (g, src, dst, s), n') ->
  groups_filed isDefault g s.
Proof.
  assert (Hn : groups_filed isDefault None None) by (split; constructor).
  destruct ingress; unfold rule_in_group, rule_out_group; intros H.
  - destruct (getRuleSourcePeers rule) as [|pe pes]; [by m_inv|]. apply bindM_Ok in H as ([[g0 p0] s0] & n1 & H1 & H2). m_inv. by eapply peer_group_filed.
  - destruct (ru_DestinationGroups r) as [|d ds]; [|by m_inv]. destruct (getRuleDestinationPeers rule) as [|pe pes]; [by m_inv|].
    apply bindM_Ok in H as ([[g0 p0] s0] & n1 & H1 & H2). m_inv. by eapply peer_group_filed.
Qed.
Lemma applied_filed native rule ruleIdx src dst policyGroupPath base vpcInfo n g path n' :
  rule_applied_to_group st native obj rule ruleIdx src dst createdFor policyGroupPath base vpcInfo n = Some (Ok (g, path), n') ->
  Forall group_filed (option_list g).
Proof.
  unfold rule_applied_to_group, rule_applied_group. destruct (r_AppliedTo rule) as [|t ts]; intros H; [m_inv; constructor|].
  apply bindM_Ok in H as ([id name] & n1 & H1 & H2). m_inv. constructor; [|constructor]. apply target_filed.
Qed.
Definition built_filed (isDefault : bool) (b : built) : Prop :=
  Forall filed b.1.1 /\ Forall group_filed b.1.2 /\ Forall (share_filed isDefault) b.2.
Lemma built_filed_app isDefault a1 a2 a3 b1 b2 b3 :
  built_filed isDefault (a1, a2, a3) -> built_filed isDefault (b1, b2, b3) -> built_filed isDefault (a1 ++ b1, a2 ++ b2, a3 ++ b3).
Proof. intros (? & ? & ?) (? & ? & ?). split; [|split]; by apply Forall_app. Qed.
Lemma rule_and_groups_filed native rule ruleIdx policyGroupPath vpcInfo isDefault n b n' :
  rule_and_groups st native obj rule ruleIdx createdFor policyGroupPath vpcInfo isDefault n = Some (Ok b, n') -> built_filed isDefault b.
Proof.
  unfold rule_and_groups. intros H. apply bindM_Ok in H as (dir & n1 & _ & H). apply bindM_Ok in H as (base & n2 & _ & H).
  apply bindM_Ok in H as ([gs rs] & n3 & He & H). apply expand_filed in He as [Hgs Hrs].
  apply (mloop_inv (built_filed isDefault)) in H; [exact H| |by split].
  intros [[rules groups] shares] r n4 [[rules' groups'] shares'] n5 Hr (H1 & H2 & H3) Hs. unfold rule_groups_step in Hs.
  apply bindM_Ok in Hs as ([[[g src] dst] s] & n6 & Hg & Hs). apply (in_out_filed native (bool_decide (dir = "IN"))) in Hg as [Hg1 Hg2].
  apply bindM_Ok in Hs as ([ap path] & n7 & Ha & Hs). apply applied_filed in Ha. m_inv.
  pose proof (proj1 (Forall_forall _ _) Hrs r Hr) as Hr0. split; [|split]; cbn [fst snd].
  - apply Forall_app. split; [done|]. constructor; [exact Hr0|constructor].
  - apply Forall_app. split; [done|]. by apply Forall_app.
  - by apply Forall_app.
Qed.
Lemma dedup_Forall {A} (P : A -> Prop) key s (l : list A) : Forall P l -> Forall P (dedup key s l).2.
Proof. rewrite !Forall_forall. intros H a Ha. by eapply H, elem_of_dedup. Qed.
Lemma build_filed_parts vpcInfo isDefault n policy groups shares n' :
  buildSecurityPolicy st obj createdFor vpcInfo isDefault n = Some (Ok (policy, groups, shares), n') ->
  po_Tags policy = buildBasicTags obj createdFor /\ po_MarkedForDelete policy = None /\
  built_filed isDefault (po_Rules policy, groups, shares).
Proof.
  unfold buildSecurityPolicy, buildNativeSecurityPolicy. destruct NamespaceGroup.
  - destruct (VPCMode && _); [done|]. intros H. apply bindM_Ok in H as ([id name] & n1 & _ & H).
    apply bindM_Ok in H as ([pg path] & n2 & Hp & H).
    assert (Hpg : Forall group_filed (option_list pg)).
    { unfold buildNativePolicyGroup in Hp. destruct (sp_AppliedTo obj); [m_inv; constructor|].
      apply bindM_Ok in Hp as ([id' name'] & n3 & _ & Hp). m_inv. constructor; [|constructor]. apply target_filed. }
    apply bindM_Ok in H as ([[[rids gids] sids] [[rs gs] ss]] & n3 & Hl & H). m_inv. split; [done|]. split; [done|].
    apply (mloop_inv (fun acc => built_filed isDefault acc.2)) in Hl; [exact Hl| |by split].
    intros [[[a1 a2] a3] [[b1 b2] b3]] p n4 [acc b] n5 _ Hb Hs. unfold native_policy_step in Hs.
    apply bindM_Ok in Hs as ([[c1 c2] c3] & n6 & Hc & Hs). apply rule_and_groups_filed in Hc as (H1 & H2 & H3). cbn [fst snd] in *.
    pose proof (dedup_Forall _ ru_Id a1 c1 H1) as D1. pose proof (dedup_Forall _ g_Id a2 c2 H2) as D2.
    pose proof (dedup_Forall _ (fun item => sh_Id (gs_share item)) a3 c3 H3) as D3.
    destruct (dedup ru_Id _ _), (dedup g_Id _ _), (dedup _ _ c3). m_inv. by apply built_filed_app.
  - destruct (VPCMode && _); [done|]. intros H. apply bindM_Ok in H as ([id name] & n1 & _ & H).
    apply bindM_Ok in H as ([pg path] & n2 & Hp & H).
    assert (Hpg : Forall group_filed (option_list pg)).
    { unfold buildPolicyGroup in Hp. apply bindM_Ok in Hp as ([id' name'] & n3 & _ & Hp).
      destruct (sp_AppliedTo obj); m_inv; constructor; [|constructor]. apply target_filed. }
    apply bindM_Ok in H as ([rids [[rs gs] ss]] & n3 & Hl & H). m_inv. split; [done|]. split; [done|].
    apply (mloop_inv (fun acc => built_filed isDefault acc.2)) in Hl; [exact Hl| |by split].
    intros [a [[b1 b2] b3]] p n4 [acc b] n5 _ Hb Hs. unfold policy_step in Hs.
    apply bindM_Ok in Hs as ([[c1 c2] c3] & n6 & Hc & Hs). apply rule_and_groups_filed in Hc as (H1 & H2 & H3). cbn [fst snd] in *.
    pose proof (dedup_Forall _ (fun item => sh_Id (gs_share item)) ∅ c3 H3) as D3. destruct (dedup _ ∅ c3). m_inv.
    apply built_filed_app; [done|]. split; [|split]; [by apply dedup_Forall..|done].
Qed.
End Owned.
