(* ===== verification/SpService.v ===== *)
(** * pkg/nsx/services/securitypolicy: keeping NSX and the stores in step

    firewall.go and wrap.go: the hierarchical requests, the creation, update
    and deletion of the NSX resources of a policy in both topologies, the
    queries the stores are filled with at start, and the sets the garbage
    collection works on. *)
From S2P Require Import Prelude GoStrings Errors NsxUtil Names Interfaces GoMonad Compare GroupExpr NativeGroup NetPolicy RealizeState SpStore SpBuild.

(** ** Hierarchical requests (wrap.go) *)

(** A child of a request. A rule, a group, a share or a policy comes with its
    identifier and its mark; a policy's rules are its children. *)
Inductive child :=
  | ChildRule (Id : string) (MarkedForDelete : option bool) (rule : Rule)
  | ChildGroup (Id : string) (MarkedForDelete : option bool) (group : Group)
  | ChildShare (Id : string) (MarkedForDelete : option bool) (share : Share)
  | ChildSecurityPolicy (Id : string) (MarkedForDelete : option bool) (sp : NsxPolicy) (children : list child)
  | ChildResourceReference (Id : option string) (TargetType : string) (children : list child).

(** NSX and the VPC service. [Convert]: the error of the SDK's converter. *)
Class NsxApi (W : Type) := {
  Convert : child -> option goerr;
  InfraClient_Patch : list child -> W -> option goerr * W;
  OrgRootClient_Patch : list child -> W -> option goerr * W;
  SecurityClient_Get : string -> string -> W -> result goerr NsxPolicy * W;
  VPCSecurityClient_Get : VPCResourceInfo -> string -> W -> result goerr NsxPolicy * W;
  VPCSecurityClient_Delete : VPCResourceInfo -> string -> W -> option goerr * W;
  RealizedEntities_List : string -> W -> result goerr (list Entity) * W }.
Class VPCServiceProvider := {
  ListVPCInfo : string -> list VPCResourceInfo;
  IsDefaultNSXProject : string -> string -> result goerr bool }.

Section Wrap.
Context {W : Type} `{!NsxApi W} {Cfg : Config}.
Definition convert_child (c : child) : result goerr child := match Convert c with Some e => Err e | None => Ok c end.
Definition convert_children {A} (f : A -> child) (l : list A) : result goerr (list child) :=
  range_result (fun acc a => match convert_child (f a) with Err e => Err e | Ok c => Ok (acc ++ [c]) end) [] l.
Definition wrapRules : list Rule -> result goerr (list child) :=
  convert_children (fun rule => ChildRule (ru_Id rule) (ru_MarkedForDelete rule) rule).
Definition wrapGroups : list Group -> result goerr (list child) :=
  convert_children (fun group => ChildGroup (g_Id group) (g_MarkedForDelete group) group).
Definition wrapShares : list Share -> result goerr (list child) :=
  convert_children (fun share => ChildShare (sh_Id share) (sh_MarkedForDelete share) share).
Definition wrapSecurityPolicy (sp : NsxPolicy) (rulesChildren : list child) : result goerr (list child) :=
  match convert_child (ChildSecurityPolicy (po_Id sp) (po_MarkedForDelete sp) (with_rules sp []) rulesChildren) with
  | Err e => Err e
  | Ok c => Ok [c]
  end.
Definition wrap_reference (Id : option string) (TargetType : string) (children : list child) : result goerr (list child) :=
  match convert_child (ChildResourceReference Id TargetType children) with Err e => Err e | Ok c => Ok [c] end.
Definition wrapDomainResource (children : list child) (domainId : string) : result goerr (list child) :=
  wrap_reference (Some domainId) "Domain" children.
Definition wrapChildTargetInfra (children : list child) : result goerr (list child) := wrap_reference None "Infra" children.
(** The policy with its rules as children. *)
Definition wrap_policy_rules (sp : NsxPolicy) : result goerr (list child) :=
  match wrapRules (po_Rules sp) with Err e => Err e | Ok rulesChildren => wrapSecurityPolicy sp rulesChildren end.
Definition WrapHierarchySecurityPolicy (sp : NsxPolicy) (gs : list Group) : result goerr (list child) :=
  match wrap_policy_rules sp with
  | Err e => Err e
  | Ok securityPolicyChildren =>
      match wrapGroups gs with
      | Err e => Err e
      | Ok groupsChildren => wrapDomainResource (securityPolicyChildren ++ groupsChildren) getDomain
      end
  end.
Definition wrapVPC (sp : option NsxPolicy) (vpcGroups : list Group) (vpcID : string) : result goerr (list child) :=
  match (match sp with Some sp => wrap_policy_rules sp | None => Ok [] end) with
  | Err e => Err e
  | Ok policyChildren =>
      match wrapGroups vpcGroups with
      | Err e => Err e
      | Ok groupsChildren => wrap_reference (Some vpcID) "Vpc" (policyChildren ++ groupsChildren)
      end
  end.
Definition wrapProject (sp : option NsxPolicy) (vpcGroups : list Group) (projectInfraChildren : list child) (projectID vpcID : string)
  : result goerr (list child) :=
  match wrapVPC sp vpcGroups vpcID with
  | Err e => Err e
  | Ok vpcChildren => wrap_reference (Some projectID) "Project" (projectInfraChildren ++ vpcChildren)
  end.
Definition wrapOrg (sp : option NsxPolicy) (vpcGroups : list Group) (projectInfraChildren : list child) (orgID projectID vpcID : string)
  : result goerr (list child) :=
  match wrapProject sp vpcGroups projectInfraChildren projectID vpcID with
  | Err e => Err e
  | Ok children => wrap_reference (Some orgID) "Org" children
  end.
(** [wrapOrgRoot]: the children of the root. *)
Definition wrapHierarchyVpcSecurityPolicy (sp : option NsxPolicy) (vpcGroups : list Group) (projectInfraChildren : list child)
    (vpcInfo : VPCResourceInfo) : result goerr (list child) :=
  wrapOrg sp vpcGroups projectInfraChildren (OrgID vpcInfo) (ProjectID vpcInfo) (VPCID vpcInfo).
(** The shares, and the groups in a domain. *)
Definition wrap_shares_groups (shares : list Share) (groups : list Group) (domainId : string) : result goerr (list child) :=
  match wrapShares shares with
  | Err e => Err e
  | Ok shareChildren =>
      match wrapGroups groups with
      | Err e => Err e
      | Ok groupsChildren =>
          match wrapDomainResource groupsChildren domainId with
          | Err e => Err e
          | Ok domainTargetChildren => Ok (shareChildren ++ domainTargetChildren)
          end
      end
  end.
Definition wrapHierarchyProjectResources (shares : list Share) (groups : list Group) : result goerr (list child) :=
  match wrap_shares_groups shares groups getVPCProjectDomain with
  | Err e => Err e
  | Ok infraChildren => wrapChildTargetInfra infraChildren
  end.
Definition wrapHierarchyInfraResources (shares : list Share) (groups : list Group) : result goerr (list child) :=
  wrap_shares_groups shares groups getDefaultProjectDomain.
End Wrap.

(** ** The state of the service *)
Record service (W IP IR IG IS : Type) := mkService { sv_stores : stores IP IR IG IS; sv_nsx : W; sv_drawn : nat }.
Arguments mkService {W IP IR IG IS} _ _ _.
Arguments sv_stores {W IP IR IG IS} _.
Arguments sv_nsx {W IP IR IG IS} _.
Arguments sv_drawn {W IP IR IG IS} _.

Section Service.
Context {W : Type} `{!NsxApi W} `{!VPCServiceProvider} `{!RetryDriver} `{!SdkEncoder}.
Context {Cfg : Config} {Rt : Runtime} {Kube : KubeClient}.
Context {IP IR IG IS : Type} `{!Indexer IP NsxPolicy o_Id} `{!Indexer IR Rule o_Id} `{!Indexer IG Group o_Id} `{!Indexer IS Share o_Id}.
Definition SM : Type -> Type := ST (service W IP IR IG IS).

(** *** Calls *)
Definition get_stores : SM (stores IP IR IG IS) := fun s => Some (Ok (sv_stores s), s).
Definition put_stores (st : stores IP IR IG IS) : SM unit := fun s => Some (Ok tt, mkService st (sv_nsx s) (sv_drawn s)).
(** A call of NSX; [TransNSXApiError] is applied to its error. *)
Definition nsx_result {A} (f : W -> result goerr A * W) : SM A := fun s =>
  let '(r, w) := f (sv_nsx s) in
  Some (match r with Ok a => Ok a | Err e => Err (default e (TransNSXApiError (Some e))) end, mkService (sv_stores s) w (sv_drawn s)).
Definition nsx_call (f : W -> option goerr * W) : SM unit :=
  nsx_result (fun w => let '(e, w') := f w in (match e with Some e => Err e | None => Ok tt end, w')).
Definition build (m : stores IP IR IG IS -> M (NsxPolicy * list Group * list GroupShare)) : SM (NsxPolicy * list Group * list GroupShare) := fun s =>
  match m (sv_stores s) (sv_drawn s) with
  | Some (r, n) => Some (r, mkService (sv_stores s) (sv_nsx s) n)
  | None => None
  end.
Definition set_policies (st : stores IP IR IG IS) (p : IP) : stores IP IR IG IS :=
  mkStores p (ruleStore st) (groupStore st) (infraGroupStore st) (infraShareStore st) (projectGroupStore st) (projectShareStore st).

(** *** Differences *)
Definition getFinalVPCShareResources (st : stores IP IR IG IS) (obj : SecurityPolicy) (indexScope : string) (nsxGroupShares : list GroupShare)
    (isDefaultProject : bool) : list Share * list Group :=
  let nsxShareGroups := map gs_shareGroup (reverse nsxGroupShares) in
  let nsxShares := map gs_share (reverse nsxGroupShares) in
  let '(groups, shares) := if isDefaultProject then (infraGroupStore st, infraShareStore st) else (projectGroupStore st, projectShareStore st) in
  (getUpdateShares (ix_GetByIndex (indexBySecurityPolicyUIDForScope indexScope) (sp_UID obj) shares) nsxShares,
   getUpdateGroups (ix_GetByIndex (indexBySecurityPolicyUIDForScope indexScope) (sp_UID obj) groups) nsxShareGroups).
(** The policy to send with its rules, the groups, the shares and their groups,
    and whether the policy itself changed. A policy that did not change is the
    object of the store: its rules are set in place. *)
Record final := mkFinal {
  f_policy : NsxPolicy; f_groups : list Group; f_shares : list Share; f_shareGroups : list Group; f_isChanged : bool }.
Definition final_of (st : stores IP IR IG IS) (obj : SecurityPolicy) (createdFor : string) (isDefaultProject : bool)
    (built : NsxPolicy * list Group * list GroupShare) : final * stores IP IR IG IS :=
  let '(nsxSecurityPolicy, nsxGroups, nsxGroupShares) := built in
  let indexScope := owner_scope createdFor in
  let finalRules := getUpdateRules (ix_GetByIndex (indexBySecurityPolicyUIDForScope indexScope) (sp_UID obj) (ruleStore st)) (po_Rules nsxSecurityPolicy) in
  let finalGroups := getUpdateGroups (ix_GetByIndex (indexBySecurityPolicyUIDForScope indexScope) (sp_UID obj) (groupStore st)) nsxGroups in
  let '(finalSecurityPolicy, isChanged, st') :=
    match ix_GetByIndex (indexBySecurityPolicyUIDForScope indexScope) (sp_UID obj) (securityPolicyStore st) with
    | existing :: _ =>
        if CompareResource existing nsxSecurityPolicy then (with_rules nsxSecurityPolicy finalRules, true, st)
        else (with_rules existing finalRules, false, set_policies st (ix_Add (with_rules existing finalRules) (securityPolicyStore st)))
    | [] => (with_rules nsxSecurityPolicy finalRules, true, st)
    end in
  let '(finalShares, finalShareGroups) :=
    if VPCMode then getFinalVPCShareResources st obj indexScope nsxGroupShares isDefaultProject else ([], []) in
  (mkFinal finalSecurityPolicy finalGroups finalShares finalShareGroups isChanged, st').
Definition getFinalSecurityPolicyResource (obj : SecurityPolicy) (createdFor : string) (vpcInfo : option VPCResourceInfo) (isDefaultProject : bool)
  : SM final :=
  let obj := normalizeSecurityPolicyRules obj in
  let! built := build (fun st => buildSecurityPolicy st obj createdFor vpcInfo isDefaultProject) in
  let! st := get_stores in
  let '(f, st') := final_of st obj createdFor isDefaultProject built in
  let! _ := put_stores st' in
  mret f.
(** Once its rules are wrapped, the policy, which is that of the store when it
    did not change, is left without them. *)
Definition wrapped_policy (f : final) : SM unit :=
  let! _ := mresult (wrapRules (po_Rules (f_policy f))) in
  if f_isChanged f then mret tt
  else
    let! st := get_stores in
    put_stores (set_policies st (ix_Add (with_rules (f_policy f) []) (securityPolicyStore st))).

(** *** Stores *)
Definition applySecurityPolicyStore (nsxSecurityPolicy : NsxPolicy) (nsxRules : list Rule) (isChanged : bool) : SM unit :=
  let! st := get_stores in
  put_stores (mkStores (if isChanged then apply1 (securityPolicyStore st) nsxSecurityPolicy else securityPolicyStore st)
    (Apply (ruleStore st) nsxRules) (groupStore st) (infraGroupStore st) (infraShareStore st) (projectGroupStore st) (projectShareStore st)).
Definition applyVPCGroupShareStore (nsxGroups : list Group) (nsxShares : list Share) (nsxShareGroups : list Group) (isDefaultProject : bool) : SM unit :=
  let! st := get_stores in
  put_stores (
    if isDefaultProject then
      mkStores (securityPolicyStore st) (ruleStore st) (Apply (groupStore st) nsxGroups)
        (Apply (infraGroupStore st) nsxShareGroups) (Apply (infraShareStore st) nsxShares) (projectGroupStore st) (projectShareStore st)
    else
      mkStores (securityPolicyStore st) (ruleStore st) (Apply (groupStore st) nsxGroups)
        (infraGroupStore st) (infraShareStore st) (Apply (projectGroupStore st) nsxShareGroups) (Apply (projectShareStore st) nsxShares)).
Definition apply_groups (nsxGroups : list Group) : SM unit :=
  let! st := get_stores in
  put_stores (mkStores (securityPolicyStore st) (ruleStore st) (Apply (groupStore st) nsxGroups)
    (infraGroupStore st) (infraShareStore st) (projectGroupStore st) (projectShareStore st)).

(** *** Creation and update *)
Definition checkSecurityPolicyRealizationState (spPath : string) : SM unit := fun s =>
  match CheckRealizeState RealizedEntities_List spPath [] (sv_nsx s) with
  | None => None
  | Some (e, w) => Some (match e with Some e => Err e | None => Ok tt end, mkService (sv_stores s) w (sv_drawn s))
  end.
(** The policy as NSX has it, once it is realized; a nil path panics. *)
Definition get_realized (vpcInfo : VPCResourceInfo) (id : string) : SM NsxPolicy :=
  let! nsxGetSecurityPolicy := nsx_result (VPCSecurityClient_Get vpcInfo id) in
  let! path := mtotal (po_Path nsxGetSecurityPolicy) in
  let! _ := checkSecurityPolicyRealizationState path in
  mret nsxGetSecurityPolicy.
Definition createOrUpdateNSXSecurityPolicy (f : final) (vpcInfo : VPCResourceInfo) : SM NsxPolicy :=
  let! projectInfraResource := mresult (match f_shares f with [] => Ok [] | _ => wrapHierarchyProjectResources (f_shares f) (f_shareGroups f) end) in
  let! _ := wrapped_policy f in
  let! orgRoot := mresult (wrapHierarchyVpcSecurityPolicy (Some (f_policy f)) (f_groups f) projectInfraResource vpcInfo) in
  let! _ := nsx_call (OrgRootClient_Patch orgRoot) in
  get_realized vpcInfo (po_Id (f_policy f)).
Definition patch_infra (shares : list Share) (groups : list Group) : SM unit :=
  match shares, groups with
  | [], [] => mret tt
  | _, _ =>
      let! infraResource := mresult (wrapHierarchyInfraResources shares groups) in
      nsx_call (InfraClient_Patch infraResource)
  end.
Definition createOrUpdateNSXSecurityPolicyForDefaultProject (f : final) (vpcInfo : VPCResourceInfo) : SM NsxPolicy :=
  let '(finalStaleShares, finalChangedShares) := getStaleUpdateShares (f_shares f) in
  let '(finalStaleShareGroups, finalChangedShareGroups) := getStaleUpdateGroups (f_shareGroups f) in
  let! _ := patch_infra finalChangedShares finalChangedShareGroups in
  let! _ := wrapped_policy f in
  let! orgRoot := mresult (wrapHierarchyVpcSecurityPolicy (Some (f_policy f)) (f_groups f) [] vpcInfo) in
  let! _ := nsx_call (OrgRootClient_Patch orgRoot) in
  let! _ := patch_infra finalStaleShares finalStaleShareGroups in
  get_realized vpcInfo (po_Id (f_policy f)).
Definition getVPCInfo (spNameSpace : string) : SM VPCResourceInfo :=
  match ListVPCInfo spNameSpace with
  | [] => mfail (EText ("there is no VPC info found for namespace " +:+ spNameSpace))
  | info :: _ => mret info
  end.
Definition createOrUpdateT1SecurityPolicy (obj : SecurityPolicy) (createdFor : string) : SM unit :=
  let! f := getFinalSecurityPolicyResource obj createdFor None false in
  let finalRules := po_Rules (f_policy f) in
  if negb (f_isChanged f) && bool_decide (length finalRules = 0%nat) && bool_decide (length (f_groups f) = 0%nat) then mret tt
  else
    let! _ := wrapped_policy f in
    let! infraSecurityPolicy := mresult (WrapHierarchySecurityPolicy (f_policy f) (f_groups f)) in
    let! _ := nsx_call (InfraClient_Patch infraSecurityPolicy) in
    let! finalGetNSXSecurityPolicy := nsx_result (SecurityClient_Get getDomain (po_Id (f_policy f))) in
    let! _ := applySecurityPolicyStore finalGetNSXSecurityPolicy finalRules (f_isChanged f) in
    apply_groups (f_groups f).
Definition createOrUpdateVPCSecurityPolicy (obj : SecurityPolicy) (createdFor : string) : SM unit :=
  let! vpcInfo := getVPCInfo (sp_Namespace obj) in
  let! isDefaultProject := mresult (IsDefaultNSXProject (OrgID vpcInfo) (ProjectID vpcInfo)) in
  let! f := getFinalSecurityPolicyResource obj createdFor (Some vpcInfo) isDefaultProject in
  let finalRules := po_Rules (f_policy f) in
  if negb (f_isChanged f) && bool_decide (length finalRules = 0%nat) && bool_decide (length (f_groups f) = 0%nat) &&
     bool_decide (length (f_shares f) = 0%nat) then mret tt
  else
    let! finalGetNSXSecurityPolicy :=
      if isDefaultProject then createOrUpdateNSXSecurityPolicyForDefaultProject f vpcInfo else createOrUpdateNSXSecurityPolicy f vpcInfo in
    let! _ := applySecurityPolicyStore finalGetNSXSecurityPolicy finalRules (f_isChanged f) in
    applyVPCGroupShareStore (f_groups f) (f_shares f) (f_shareGroups f) isDefaultProject.
(** The object of the call. [format_peer] prints a peer in an error message. *)
Inductive policy_object := AsNetworkPolicy (np : NetworkPolicy) | AsSecurityPolicy (sp : SecurityPolicy).
Definition CreateOrUpdateSecurityPolicy (format_peer : NetworkPolicyPeer -> string) (licensed : bool) (obj : policy_object) : SM unit :=
  if negb licensed then mfail (ERestriction "no DFW license")
  else
    match obj with
    | AsNetworkPolicy np =>
        let! internalSecurityPolicies := mresult (convertNetworkPolicyToInternalSecurityPolicies format_peer np) in
        mloop (fun _ sp => createOrUpdateVPCSecurityPolicy sp ResourceTypeNetworkPolicy) tt internalSecurityPolicies
    | AsSecurityPolicy sp =>
        if VPCMode then createOrUpdateVPCSecurityPolicy sp ResourceTypeSecurityPolicy
        else createOrUpdateT1SecurityPolicy sp ResourceTypeSecurityPolicy
    end.

(** *** Deletion *)
Definition no_vpc : VPCResourceInfo := mkVPCInfo "" "" "" "" "".
Record marked := mkMarked {
  m_policy : option NsxPolicy; m_groups : list Group; m_infraShares : list Share; m_infraShareGroups : list Group;
  m_projectShares : list Share; m_projectShareGroups : list Group; m_vpcInfo : VPCResourceInfo }.
Definition uid_index {A} `{!NsxObject A} {I} `{!Indexer I A o_Id} (indexScope uid : string) (i : I) : list A :=
  ix_GetByIndex (indexBySecurityPolicyUIDForScope indexScope) uid i.
(** The policy is the object of the store: it is marked in place. *)
Definition markSecurityPolicyResourcesDelete (indexScope spUID : string) : SM marked :=
  let! st := get_stores in
  let existingGroups := uid_index indexScope spUID (groupStore st) in
  let nsxRules := getMarkDeleteRules (uid_index indexScope spUID (ruleStore st)) in
  let! (nsxSecurityPolicy, vpcInfo) :=
    match uid_index indexScope spUID (securityPolicyStore st) with
    | policy :: _ =>
        match po_Path policy with
        | None => mfail (EText "nsxSecurityPolicy path is empty")
        | Some path =>
            let policy := with_rules (mark_policy policy) nsxRules in
            let! _ := put_stores (set_policies st (ix_Add policy (securityPolicyStore st))) in
            mret (Some policy, default no_vpc (ParseVPCResourcePath path))
        end
    | [] =>
        mret (None, match head (omap g_Path existingGroups) with
                    | Some path => default no_vpc (ParseVPCResourcePath path)
                    | None => no_vpc
                    end)
    end in
  mret (mkMarked nsxSecurityPolicy (getMarkDeleteGroups existingGroups)
    (getMarkDeleteShares (uid_index indexScope spUID (infraShareStore st))) (getMarkDeleteGroups (uid_index indexScope spUID (infraGroupStore st)))
    (getMarkDeleteShares (uid_index indexScope spUID (projectShareStore st))) (getMarkDeleteGroups (uid_index indexScope spUID (projectGroupStore st)))
    vpcInfo).
Definition deleteNSXSecurityPolicy (nsxSecurityPolicy : NsxPolicy) (vpcInfo : VPCResourceInfo) : SM unit :=
  nsx_call (VPCSecurityClient_Delete vpcInfo (po_Id nsxSecurityPolicy)).
Definition deleteNSXSecurityPolicyGroupShare (nsxGroups : list Group) (nsxShares : list Share) (nsxShareGroups : list Group)
    (vpcInfo : VPCResourceInfo) : SM unit :=
  let! projectInfraResource := mresult (match nsxShares with [] => Ok [] | _ => wrapHierarchyProjectResources nsxShares nsxShareGroups end) in
  let! orgRoot := mresult (wrapHierarchyVpcSecurityPolicy None nsxGroups projectInfraResource vpcInfo) in
  nsx_call (OrgRootClient_Patch orgRoot).
Definition deleteNSXSecurityPolicyGroupShareForDefaultProject (nsxGroups : list Group) (nsxShares : list Share) (nsxShareGroups : list Group)
    (vpcInfo : VPCResourceInfo) : SM unit :=
  let! _ := match nsxGroups with
    | [] => mret tt
    | _ =>
        let! orgRoot := mresult (wrapHierarchyVpcSecurityPolicy None nsxGroups [] vpcInfo) in
        nsx_call (OrgRootClient_Patch orgRoot)
    end in
  match nsxShares with
  | [] => mret tt
  | _ =>
      let! infraResource := mresult (wrapHierarchyInfraResources nsxShares nsxShareGroups) in
      nsx_call (InfraClient_Patch infraResource)
  end.
(** An error that is logged and not returned. *)
Definition mtry (m : SM unit) : SM (option goerr) := fun s =>
  match m s with
  | Some (Ok _, s') => Some (Ok None, s')
  | Some (Err e, s') => Some (Ok (Some e), s')
  | None => None
  end.
Definition deleteVPCSecurityPolicy (spUID : string) (isGC : bool) (createdFor : string) : SM unit :=
  let! m := markSecurityPolicyResourcesDelete (owner_scope createdFor) spUID in
  let staleInfra := isGC && (negb (bool_decide (length (m_infraShares m) = 0%nat)) || negb (bool_decide (length (m_infraShareGroups m) = 0%nat))) in
  if negb staleInfra && bool_decide (VPCID (m_vpcInfo m) = "") then mfail (EText "vpcID is empty")
  else
    let! isDefaultProject := if staleInfra then mret true
                             else mresult (IsDefaultNSXProject (OrgID (m_vpcInfo m)) (ProjectID (m_vpcInfo m))) in
    let! _ := match m_policy m with
      | None => mret tt
      | Some policy =>
          let! _ := deleteNSXSecurityPolicy policy (m_vpcInfo m) in
          applySecurityPolicyStore policy (po_Rules policy) true
      end in
    let '(shares, shareGroups) := if isDefaultProject : bool then (m_infraShares m, m_infraShareGroups m) else (m_projectShares m, m_projectShareGroups m) in
    let! err := mtry (
      (if isDefaultProject then deleteNSXSecurityPolicyGroupShareForDefaultProject else deleteNSXSecurityPolicyGroupShare)
        (m_groups m) shares shareGroups (m_vpcInfo m)) in
    match err with
    | Some _ => mret tt
    | None => applyVPCGroupShareStore (m_groups m) shares shareGroups isDefaultProject
    end.
Definition deleteT1SecurityPolicy (spUid : string) : SM unit :=
  let! st := get_stores in
  let indexScope := securityPolicyUIDTagScope in
  match uid_index indexScope spUid (securityPolicyStore st) with
  | [] => mret tt
  | policy :: _ =>
      match po_Path policy with
      | None => mfail (EText "nsxSecurityPolicy path is empty")
      | Some _ =>
          let nsxGroups := getMarkDeleteGroups (uid_index indexScope spUid (groupStore st)) in
          let nsxRules := getMarkDeleteRules (uid_index indexScope spUid (ruleStore st)) in
          let nsxSecurityPolicy := with_rules (mark_policy policy) nsxRules in
          let! _ := put_stores (set_policies st (ix_Add nsxSecurityPolicy (securityPolicyStore st))) in
          let! _ := mresult (wrapRules nsxRules) in
          let! _ := put_stores (set_policies st (ix_Add (with_rules nsxSecurityPolicy []) (securityPolicyStore st))) in
          let! infraSecurityPolicy := mresult (WrapHierarchySecurityPolicy nsxSecurityPolicy nsxGroups) in
          let! _ := nsx_call (InfraClient_Patch infraSecurityPolicy) in
          let! _ := applySecurityPolicyStore nsxSecurityPolicy nsxRules true in
          apply_groups nsxGroups
      end
  end.
Definition DeleteSecurityPolicy (spUid : string) (isGC : bool) (createdFor : string) : SM unit :=
  if VPCMode then deleteVPCSecurityPolicy spUid isGC createdFor else deleteT1SecurityPolicy spUid.

(** *** Garbage collection *)
Definition uids {A} `{!NsxObject A} {I} `{!Indexer I A o_Id} (indexScope : string) (i : I) : gset string :=
  list_to_set (mjoin (map (indexBySecurityPolicyUIDForScope indexScope) (ix_List i))).
Definition getGCSecurityPolicyIDSet (indexScope : string) (st : stores IP IR IG IS) : gset string :=
  uids indexScope (groupStore st) ∪ uids indexScope (securityPolicyStore st) ∪ uids indexScope (projectShareStore st) ∪
  uids indexScope (projectGroupStore st) ∪ uids indexScope (infraShareStore st) ∪ uids indexScope (infraGroupStore st).
Definition ListSecurityPolicyID (st : stores IP IR IG IS) : gset string := getGCSecurityPolicyIDSet securityPolicyUIDTagScope st.
Definition ListNetworkPolicyID (st : stores IP IR IG IS) : gset string := getGCSecurityPolicyIDSet TagScopeNetworkPolicyUID st.
Definition by_name (nameScope ns name : string) (st : stores IP IR IG IS) : list NsxPolicy :=
  filter (fun p => default "" (FindTag (po_Tags p) nameScope) = name) (ix_GetByIndex indexBySecurityPolicyNamespace ns (securityPolicyStore st)).
Definition ListSecurityPolicyByName := by_name securityPolicyNameTagScope.
Definition ListNetworkPolicyByName := by_name TagScopeNetworkPolicyName.
Definition GetSecurityPolicyUID (securityPolicy : option NsxPolicy) : string :=
  match securityPolicy with None => "" | Some p => default "" (FindTag (po_Tags p) securityPolicyUIDTagScope) end.
End Service.

(** ** The stores at start: what NSX is asked for *)
Inductive store_name := SPolicy | SRule | SGroup | SInfraGroup | SInfraShare | SProjectGroup | SProjectShare.
#[global] Instance store_name_eq_dec : EqDecision store_name.
Proof. solve_decision. Defined.
Inductive resource_type := RSecurityPolicy | RRule | RGroup | RShare.
#[global] Instance resource_type_eq_dec : EqDecision resource_type.
Proof. solve_decision. Defined.
Definition TagScopeCluster := "nsx-op/cluster".
Definition TagScopeNCPCluster := "ncp/cluster".
Definition tagFiltersWithOwnerScope (tagFilters : list Tag) (ownerScope : string) : list Tag := tagFilters ++ [mkTag (Some ownerScope) None].
Definition storeInitializations `{!Config} : list (resource_type * list Tag * store_name) :=
  let created value := [newTag TagScopeNSXShareCreatedFor value] in
  let ownerScopes := [securityPolicyUIDTagScope] ++ (if VPCMode then [TagScopeNetworkPolicyUID] else []) in
  mjoin (map (fun ownerScope =>
    let groupTags := if VPCMode then created TagValueShareNotCreated else [] in
    [(RGroup, tagFiltersWithOwnerScope groupTags ownerScope, SGroup);
     (RSecurityPolicy, tagFiltersWithOwnerScope [] ownerScope, SPolicy);
     (RRule, tagFiltersWithOwnerScope [] ownerScope, SRule)] ++
    (if VPCMode then
       [(RGroup, tagFiltersWithOwnerScope (created TagValueShareCreatedForInfra) ownerScope, SInfraGroup);
        (RShare, tagFiltersWithOwnerScope (created TagValueShareCreatedForInfra) ownerScope, SInfraShare);
        (RGroup, tagFiltersWithOwnerScope (created TagValueShareCreatedForProject) ownerScope, SProjectGroup);
        (RShare, tagFiltersWithOwnerScope (created TagValueShareCreatedForProject) ownerScope, SProjectShare)]
     else [])) ownerScopes).
(** The search [InitializeCommonStore] makes (services/common/store.go): the
    clauses on tags, joined by AND. A clause asks for the scope of some tag or
    for the value of some tag: nothing ties a scope to a value. *)
Inductive tag_clause := ScopeClause (scope : string) | ValueClause (value : string).
Definition containsTagScope (tags : list Tag) (scopes : list string) : bool :=
  existsb (fun tag => existsb (fun scope => bool_decide (tag_Scope tag = Some scope)) scopes) tags.
Definition tagParams `{!Config} (tags : list Tag) : list tag_clause :=
  (if containsTagScope tags [TagScopeCluster; TagScopeNCPCluster] then [] else [ScopeClause TagScopeCluster; ValueClause Cluster]) ++
  mjoin (map (fun tag => match tag_Scope tag with
                         | None => []
                         | Some scope => ScopeClause scope :: match tag_Tag tag with None => [] | Some v => [ValueClause v] end
                         end) tags).
Definition clause_matches (tags : list Tag) (c : tag_clause) : bool :=
  match c with
  | ScopeClause scope => existsb (fun t => bool_decide (tag_Scope t = Some scope)) tags
  | ValueClause value => existsb (fun t => bool_decide (tag_Tag t = Some value)) tags
  end.
(** A resource NSX returns: of the type asked for, not marked for deletion, and
    with a match for every clause. *)
Definition loaded_into `{!Config} (t : resource_type) {A} `{!NsxObject A} (a : A) (s : store_name) : bool :=
  negb (bool_decide (o_MarkedForDelete a = Some true)) &&
  existsb (fun i => bool_decide (i.1.1 = t) && bool_decide (i.2 = s) && forallb (clause_matches (o_Tags a)) (tagParams i.1.2)) storeInitializations.
