(* ===== verification/SpTheorems.v ===== *)
(** * pkg/nsx/services/securitypolicy: what the service guarantees

    The resources that are built are read back at start into the store they
    were kept in; creation and update bring the stores to what was built;
    deletion removes what a policy owns, and what it could not remove is left to
    the garbage collection. *)
From S2P Require Import Prelude GoStrings Errors NsxUtil Names Interfaces GoMonad Compare GroupExpr NativeGroup NetPolicy RealizeState SpStore SpBuild SpService.

Section Theorems.
Context {W : Type} {Nsx : NsxApi W} {Vpc : VPCServiceProvider} {Retry : RetryDriver} {Enc : SdkEncoder}.
Context {Cfg : Config} {Rt : Runtime} {Kube : KubeClient}.
Context {IP IR IG IS : Type} `{!Indexer IP NsxPolicy o_Id} `{!Indexer IR Rule o_Id} `{!Indexer IG Group o_Id} `{!Indexer IS Share o_Id}.
Implicit Types (s : service W IP IR IG IS) (st : stores IP IR IG IS).

(** *** What calls leave alone *)

(** The stores other than that of the policies. *)
Definition others st : IR * IG * IG * IS * IG * IS :=
  (ruleStore st, groupStore st, infraGroupStore st, infraShareStore st, projectGroupStore st, projectShareStore st).
(** A call that leaves a view of the stores as it is, whatever its outcome. *)
Definition keeps {T A} (view : stores IP IR IG IS -> T) (m : SM (W := W) (IP := IP) (IR := IR) (IG := IG) (IS := IS) A) : Prop :=
  forall s r s', m s = Some (r, s') -> view (sv_stores s') = view (sv_stores s).
Section Keeps.
Context {T : Type} (view : stores IP IR IG IS -> T).
Lemma keeps_bind {A B} (m : SM A) (k : A -> SM B) : keeps view m -> (forall a, keeps view (k a)) -> keeps view (bindM m k).
Proof.
  intros Hm Hk s r s' H. unfold bindM in H. destruct (m s) as [[[a|e] s1]|] eqn:E; [|injection H as <- <-|done].
  - rewrite (Hk a _ _ _ H). by eapply Hm.
  - by eapply Hm.
Qed.
Lemma keeps_ret {A} (a : A) : keeps view (mret a).
Proof. by intros s r s' [= <- <-]. Qed.
Lemma keeps_fail {A} e : keeps view (mfail (A := A) e).
Proof. by intros s r s' [= <- <-]. Qed.
Lemma keeps_result {A} (x : result goerr A) : keeps view (mresult x).
Proof. by intros s r s' [= <- <-]. Qed.
Lemma keeps_total {A} (o : option A) : keeps view (mtotal o).
Proof. intros s r s'. unfold mtotal. destruct o; [|done]. by intros [= <- <-]. Qed.
Lemma keeps_nsx {A} (f : W -> result goerr A * W) : keeps view (nsx_result f).
Proof. intros s r s'. unfold nsx_result. destruct (f _). by intros [= <- <-]. Qed.
Lemma keeps_call f : keeps view (nsx_call f).
Proof. apply keeps_nsx. Qed.
Lemma keeps_check path : keeps view (checkSecurityPolicyRealizationState path).
Proof. intros s r s'. unfold checkSecurityPolicyRealizationState. destruct (CheckRealizeState _ _ _) as [[e w]|]; [|done]. by intros [= <- <-]. Qed.
End Keeps.
Lemma keeps_wrapped f : keeps others (wrapped_policy f).
Proof.
  apply keeps_bind; [apply keeps_result|]. intros _. destruct (f_isChanged f); [apply keeps_ret|].
  intros s r s' H. cbn in H. by injection H as <- <-.
Qed.
Create HintDb keeps discriminated.
#[local] Hint Resolve keeps_ret keeps_fail keeps_result keeps_total keeps_nsx keeps_call keeps_check keeps_wrapped : keeps.
Ltac keeps_auto := repeat (first [solve [auto with keeps]|apply keeps_bind; [|intros ?]]; simpl).
Lemma keeps_realized {T} (view : _ -> T) info id : keeps view (get_realized info id).
Proof. unfold get_realized. keeps_auto. Qed.
Lemma keeps_infra {T} (view : _ -> T) shares groups : keeps view (patch_infra shares groups).
Proof. unfold patch_infra. destruct shares, groups; keeps_auto. Qed.
#[local] Hint Resolve keeps_realized keeps_infra : keeps.
Lemma keeps_createOrUpdate f info : keeps others (createOrUpdateNSXSecurityPolicy f info).
Proof. unfold createOrUpdateNSXSecurityPolicy. keeps_auto. Qed.
Lemma keeps_createOrUpdate_default f info : keeps others (createOrUpdateNSXSecurityPolicyForDefaultProject f info).
Proof.
  unfold createOrUpdateNSXSecurityPolicyForDefaultProject.
  destruct (getStaleUpdateShares _), (getStaleUpdateGroups _). keeps_auto.
Qed.
Lemma keeps_delete_groups {T} (view : _ -> T) isDefault gs shs sgs info :
  keeps view ((if isDefault : bool then deleteNSXSecurityPolicyGroupShareForDefaultProject else deleteNSXSecurityPolicyGroupShare) gs shs sgs info).
Proof.
  destruct isDefault; unfold deleteNSXSecurityPolicyGroupShareForDefaultProject, deleteNSXSecurityPolicyGroupShare; [|keeps_auto].
  apply keeps_bind; [destruct gs; keeps_auto|]. intros _. destruct shs; keeps_auto.
Qed.

(** *** Creation and update *)
Section Reconcile.
Context (obj : SecurityPolicy) (createdFor : string) (isDefault : bool).
(** The index of the stores, by the UID of the owner. *)
Definition idx {A} `{!NsxObject A} : A -> list string := indexBySecurityPolicyUIDForScope (owner_scope createdFor).
Definition share_groups st : IG := if isDefault then infraGroupStore st else projectGroupStore st.
Definition share_store st : IS := if isDefault then infraShareStore st else projectShareStore st.
Abbreviation built_t := (NsxPolicy * list Group * list GroupShare)%type.
(** What is built is distinct and takes no place of another owner. *)
Record built_ok st (b : built_t) : Prop := {
  bo_rules : expected_ok idx (sp_UID obj) (ruleStore st) (po_Rules b.1.1);
  bo_groups : expected_ok idx (sp_UID obj) (groupStore st) b.1.2;
  bo_shares : expected_ok idx (sp_UID obj) (share_store st) (map gs_share (reverse b.2));
  bo_shareGroups : expected_ok idx (sp_UID obj) (share_groups st) (map gs_shareGroup (reverse b.2)) }.
Definition rules_done st (b : built_t) st' : Prop := reconciled idx (sp_UID obj) (ruleStore st) (po_Rules b.1.1) (ruleStore st').
Definition groups_done st (b : built_t) st' : Prop := reconciled idx (sp_UID obj) (groupStore st) b.1.2 (groupStore st').
Definition shares_done st (b : built_t) st' : Prop :=
  reconciled idx (sp_UID obj) (share_store st) (map gs_share (reverse b.2)) (share_store st').
Definition shareGroups_done st (b : built_t) st' : Prop :=
  reconciled idx (sp_UID obj) (share_groups st) (map gs_shareGroup (reverse b.2)) (share_groups st').
(** The updates of the four kinds of resources. *)
Definition rule_updates st (b : built_t) : list Rule := getUpdateRules (ix_GetByIndex idx (sp_UID obj) (ruleStore st)) (po_Rules b.1.1).
Definition group_updates st (b : built_t) : list Group := getUpdateGroups (ix_GetByIndex idx (sp_UID obj) (groupStore st)) b.1.2.
Definition share_updates st (b : built_t) : list Share := getUpdateShares (ix_GetByIndex idx (sp_UID obj) (share_store st)) (map gs_share (reverse b.2)).
Definition shareGroup_updates st (b : built_t) : list Group :=
  getUpdateGroups (ix_GetByIndex idx (sp_UID obj) (share_groups st)) (map gs_shareGroup (reverse b.2)).
Definition policy_changed st (b : built_t) : bool :=
  match ix_GetByIndex idx (sp_UID obj) (securityPolicyStore st) with
  | existing :: _ => CompareResource existing b.1.1
  | [] => true
  end.
Lemma final_of_parts st b f st' :
  VPCMode = true -> final_of st obj createdFor isDefault b = (f, st') ->
  po_Rules (f_policy f) = rule_updates st b /\ f_groups f = group_updates st b /\ f_shares f = share_updates st b /\
  f_shareGroups f = shareGroup_updates st b /\ f_isChanged f = policy_changed st b /\ others st' = others st.
Proof.
  intros HV. unfold final_of, getFinalVPCShareResources, policy_changed, rule_updates, group_updates, share_updates, shareGroup_updates, share_store, share_groups.
  destruct b as [[policy groups] shares]. rewrite HV. fold (@idx NsxPolicy _) (@idx Rule _) (@idx Group _) (@idx Share _). cbn [fst snd].
  destruct (ix_GetByIndex idx _ (securityPolicyStore st)) as [|existing l]; [|destruct (CompareResource existing policy)];
    destruct isDefault; intros [= <- <-]; done.
Qed.
(** The policy that is sent: the built one, or the stored one when it did not
    change, which is then also set in the store. *)
Definition sent_policy st (b : built_t) (q : NsxPolicy) : Prop :=
  if policy_changed st b then q = b.1.1 else head (ix_GetByIndex idx (sp_UID obj) (securityPolicyStore st)) = Some q.
Lemma final_of_policy st b f st' :
  final_of st obj createdFor isDefault b = (f, st') ->
  exists q, sent_policy st b q /\ f_policy f = with_rules q (rule_updates st b) /\
    securityPolicyStore st' = if policy_changed st b then securityPolicyStore st
                              else ix_Add (with_rules q (rule_updates st b)) (securityPolicyStore st).
Proof.
  unfold final_of, sent_policy, policy_changed, rule_updates. destruct b as [[policy groups] shares].
  fold (@idx NsxPolicy _) (@idx Rule _) (@idx Group _) (@idx Share _). cbn [fst snd].
  destruct (if VPCMode then _ else _) as [finalShares finalShareGroups].
  destruct (ix_GetByIndex idx _ (securityPolicyStore st)) as [|existing l]; [|destruct (CompareResource existing policy)];
    intros [= <- <-]; (eexists; split; [done|]; by split).
Qed.
(** The store of the policies after a successful run: when the policy changed,
    with the one NSX returned once it was realized; otherwise with the rules of
    the stored one cleared. *)
Definition policy_done info st (b : built_t) (s' : service W IP IR IG IS) : Prop :=
  if policy_changed st b then
    exists p s1 s2, get_realized info (po_Id b.1.1) s1 = Some (Ok p, s2) /\ sv_nsx s2 = sv_nsx s' /\
      securityPolicyStore (sv_stores s') = apply1 (securityPolicyStore st) p
  else
    exists e, head (ix_GetByIndex idx (sp_UID obj) (securityPolicyStore st)) = Some e /\
      forall k, ix_GetByKey k (securityPolicyStore (sv_stores s')) =
                if decide (k = po_Id e) then Some (with_rules e []) else ix_GetByKey k (securityPolicyStore st).
(** NSX accepted the request that holds the policy, the rules and the groups to
    update, and in a project other than the default one the shares. *)
Definition updates_accepted info st (b : built_t) : Prop :=
  exists q infra orgRoot w w', sent_policy st b q /\
    (isDefault = false -> share_updates st b <> [] ->
       wrapHierarchyProjectResources (share_updates st b) (shareGroup_updates st b) = Ok infra) /\
    wrapHierarchyVpcSecurityPolicy (Some (with_rules q (rule_updates st b))) (group_updates st b) infra info = Ok orgRoot /\
    OrgRootClient_Patch orgRoot w = (None, w').
(** A store that took its updates in is reconciled. *)
Lemma rules_reconcile st b st' : expected_ok idx (sp_UID obj) (ruleStore st) (po_Rules b.1.1) ->
  ruleStore st' = Apply (ruleStore st) (rule_updates st b) -> rules_done st b st'.
Proof. intros H E. unfold rules_done. rewrite E. apply (reconcile_store (A:=Rule) (I:=IR)); [by intros|exact H]. Qed.
Lemma groups_reconcile st b st' : expected_ok idx (sp_UID obj) (groupStore st) b.1.2 ->
  groupStore st' = Apply (groupStore st) (group_updates st b) -> groups_done st b st'.
Proof. intros H E. unfold groups_done. rewrite E. apply (reconcile_store (A:=Group) (I:=IG)); [by intros|exact H]. Qed.
Lemma shares_reconcile st b st' : expected_ok idx (sp_UID obj) (share_store st) (map gs_share (reverse b.2)) ->
  share_store st' = Apply (share_store st) (share_updates st b) -> shares_done st b st'.
Proof. intros H E. unfold shares_done. rewrite E. apply (reconcile_store (A:=Share) (I:=IS)); [by intros|exact H]. Qed.
Lemma shareGroups_reconcile st b st' :
  expected_ok idx (sp_UID obj) (share_groups st) (map gs_shareGroup (reverse b.2)) ->
  share_groups st' = Apply (share_groups st) (shareGroup_updates st b) -> shareGroups_done st b st'.
Proof. intros H E. unfold shareGroups_done. rewrite E. apply (reconcile_store (A:=Group) (I:=IG)); [by intros|exact H]. Qed.
(** And it needs no other. *)
Lemma rules_idle st b st' : built_ok st b -> rules_done st b st' -> rule_updates st' b = [].
Proof. intros [H _ _ _]. intros Hd. exact (reconciled_idle (A:=Rule) (I:=IR) (fun _ => eq_refl) _ _ _ _ _ H Hd). Qed.
Lemma groups_idle st b st' : built_ok st b -> groups_done st b st' -> group_updates st' b = [].
Proof. intros [_ H _ _]. intros Hd. exact (reconciled_idle (A:=Group) (I:=IG) (fun _ => eq_refl) _ _ _ _ _ H Hd). Qed.
Lemma shares_idle st b st' : built_ok st b -> shares_done st b st' -> share_updates st' b = [].
Proof. intros [_ _ H _]. intros Hd. exact (reconciled_idle (A:=Share) (I:=IS) (fun _ => eq_refl) _ _ _ _ _ H Hd). Qed.
End Reconcile.

Lemma applied_stores isDefault nsxPolicy changed rules groups shares shareGroups s s' :
  (let! _ := applySecurityPolicyStore nsxPolicy rules changed in applyVPCGroupShareStore groups shares shareGroups isDefault) s = Some (Ok tt, s') ->
  ruleStore (sv_stores s') = Apply (ruleStore (sv_stores s)) rules /\ groupStore (sv_stores s') = Apply (groupStore (sv_stores s)) groups /\
  share_store isDefault (sv_stores s') = Apply (share_store isDefault (sv_stores s)) shares /\
  share_groups isDefault (sv_stores s') = Apply (share_groups isDefault (sv_stores s)) shareGroups.
Proof. destruct isDefault; intros H; cbn in H; by injection H as <-. Qed.
Lemma nsx_call_Ok f s s' : nsx_call f s = Some (Ok tt, s') -> f (sv_nsx s) = (None, sv_nsx s') /\ sv_stores s' = sv_stores s.
Proof. unfold nsx_call, nsx_result. destruct (f (sv_nsx s)) as [[e|] w]; [done|]. by intros [= <-]. Qed.
Lemma wrapped_policy_Ok f s s' :
  wrapped_policy f s = Some (Ok tt, s') ->
  securityPolicyStore (sv_stores s') = if f_isChanged f then securityPolicyStore (sv_stores s)
                                       else ix_Add (with_rules (f_policy f) []) (securityPolicyStore (sv_stores s)).
Proof.
  unfold wrapped_policy. intros H. apply bindM_Ok in H as (? & s1 & Hr & H). unfold mresult in Hr. injection Hr as _ <-.
  destruct (f_isChanged f); cbn in H; by injection H as <-.
Qed.
Lemma create_run (isDefault : bool) f info s p s' :
  (if isDefault then createOrUpdateNSXSecurityPolicyForDefaultProject f info else createOrUpdateNSXSecurityPolicy f info) s = Some (Ok p, s') ->
  (exists s1, get_realized info (po_Id (f_policy f)) s1 = Some (Ok p, s')) /\
  securityPolicyStore (sv_stores s') = (if f_isChanged f then securityPolicyStore (sv_stores s)
                                        else ix_Add (with_rules (f_policy f) []) (securityPolicyStore (sv_stores s))) /\
  exists infra orgRoot w w', (isDefault = false -> f_shares f <> [] -> wrapHierarchyProjectResources (f_shares f) (f_shareGroups f) = Ok infra) /\
    wrapHierarchyVpcSecurityPolicy (Some (f_policy f)) (f_groups f) infra info = Ok orgRoot /\ OrgRootClient_Patch orgRoot w = (None, w').
Proof.
  destruct isDefault; intros H.
  - unfold createOrUpdateNSXSecurityPolicyForDefaultProject in H.
    destruct (getStaleUpdateShares _) as [sh1 sh2], (getStaleUpdateGroups _) as [g1 g2].
    apply bindM_Ok in H as ([] & s1 & H1 & H). apply bindM_Ok in H as ([] & s2 & H2 & H). apply bindM_Ok in H as (root & s3 & H3 & H).
    unfold mresult in H3. injection H3 as H3 <-. apply bindM_Ok in H as ([] & s4 & H4 & H). apply bindM_Ok in H as ([] & s5 & H5 & H).
    split; [by exists s5|]. apply nsx_call_Ok in H4 as [H4 E4]. split; [|exists [], root; do 2 eexists; split; [done|]; split; [exact H3|exact H4]].
    rewrite (keeps_realized securityPolicyStore _ _ _ _ _ H), (keeps_infra securityPolicyStore _ _ _ _ _ H5), E4, (wrapped_policy_Ok _ _ _ H2).
    by rewrite (keeps_infra securityPolicyStore _ _ _ _ _ H1).
  - unfold createOrUpdateNSXSecurityPolicy in H.
    apply bindM_Ok in H as (infra & s1 & H1 & H). unfold mresult in H1. injection H1 as H1 <-.
    apply bindM_Ok in H as ([] & s2 & H2 & H). apply bindM_Ok in H as (root & s3 & H3 & H).
    unfold mresult in H3. injection H3 as H3 <-. apply bindM_Ok in H as ([] & s4 & H4 & H).
    split; [by exists s4|]. apply nsx_call_Ok in H4 as [H4 E4]. split.
    + by rewrite (keeps_realized securityPolicyStore _ _ _ _ _ H), E4, (wrapped_policy_Ok _ _ _ H2).
    + exists infra, root. do 2 eexists. split; [|split; [exact H3|exact H4]]. intros _ Hne. by destruct (f_shares f).
Qed.
Lemma applied_policy isDefault nsxPolicy changed rules groups shares shareGroups s s' :
  (let! _ := applySecurityPolicyStore nsxPolicy rules changed in applyVPCGroupShareStore groups shares shareGroups isDefault) s = Some (Ok tt, s') ->
  sv_nsx s' = sv_nsx s /\
  securityPolicyStore (sv_stores s') = if changed then apply1 (securityPolicyStore (sv_stores s)) nsxPolicy else securityPolicyStore (sv_stores s).
Proof. destruct isDefault; intros H; cbn in H; by injection H as <-. Qed.
(** The stores after a run that succeeds. *)
Definition run_done obj createdFor isDefault st b st' : Prop :=
  rules_done obj createdFor st b st' /\ groups_done obj createdFor st b st' /\ shares_done obj createdFor isDefault st b st'.
(** A run that succeeds: what was built, and either nothing to do or the
    updates applied to the stores. *)
Lemma createOrUpdate_run obj createdFor s s' :
  VPCMode = true -> createOrUpdateVPCSecurityPolicy obj createdFor s = Some (Ok tt, s') ->
  exists info isDefault b n, head (ListVPCInfo (sp_Namespace obj)) = Some info /\ IsDefaultNSXProject (OrgID info) (ProjectID info) = Ok isDefault /\
  buildSecurityPolicy (sv_stores s) (normalizeSecurityPolicyRules obj) createdFor (Some info) isDefault (sv_drawn s) = Some (Ok b, n) /\
  let st := sv_stores s in let st' := sv_stores s' in
  let rules := rule_updates obj createdFor st b in let groups := group_updates obj createdFor st b in
  let shares := share_updates obj createdFor isDefault st b in let shareGroups := shareGroup_updates obj createdFor isDefault st b in
  policy_done obj createdFor info st b s' /\
  ((rules = [] /\ groups = [] /\ shares = [] /\ policy_changed obj createdFor st b = false /\ sv_nsx s' = sv_nsx s /\ others st' = others st) \/
   (~ (rules = [] /\ groups = [] /\ shares = [] /\ policy_changed obj createdFor st b = false) /\
    updates_accepted obj createdFor isDefault info st b /\
    ruleStore st' = Apply (ruleStore st) rules /\ groupStore st' = Apply (groupStore st) groups /\
    share_store isDefault st' = Apply (share_store isDefault st) shares /\ share_groups isDefault st' = Apply (share_groups isDefault st) shareGroups)).
Proof.
  intros HV H. unfold createOrUpdateVPCSecurityPolicy in H. apply bindM_Ok in H as (info & s1 & Hi & H).
  unfold getVPCInfo in Hi. destruct (ListVPCInfo (sp_Namespace obj)) as [|info0 infos] eqn:Hl; [done|].
  unfold mret in Hi. injection Hi as -> <-. apply bindM_Ok in H as (isDefault & s2 & Hd & H). unfold mresult in Hd. injection Hd as Hd <-.
  apply bindM_Ok in H as (f & s3 & Hf & H). unfold getFinalSecurityPolicyResource in Hf. apply bindM_Ok in Hf as (b & s4 & Hb & Hf).
  unfold build in Hb. destruct (buildSecurityPolicy _ _ _ _ _ _) as [[rb n]|] eqn:Hbuild; [|done]. injection Hb as -> <-.
  apply bindM_Ok in Hf as (st0 & s5 & Hst & Hf). unfold get_stores in Hst. injection Hst as <- <-. cbn [sv_stores] in Hf.
  destruct (final_of _ _ _ _ b) as [f0 st1] eqn:Hfinal. apply bindM_Ok in Hf as ([] & s6 & Hp & Hf). unfold put_stores in Hp. injection Hp as <-.
  unfold mret in Hf. injection Hf as -> <-. cbn [sv_nsx sv_drawn] in H.
  pose proof (final_of_policy _ _ _ _ _ _ _ Hfinal) as (q & Hq & Hfp & Hst1).
  apply (final_of_parts _ _ _ _ _ _ _ HV) in Hfinal as (Hr & Hg & Hs & Hsg & Hc & Hot).
  change (sp_UID (normalizeSecurityPolicyRules obj)) with (sp_UID obj) in *.
  exists info, isDefault, b, n. split; [done|]. split; [done|]. split; [done|]. cbv zeta.
  change (rule_updates (normalizeSecurityPolicyRules obj)) with (rule_updates obj) in Hr.
  change (group_updates (normalizeSecurityPolicyRules obj)) with (group_updates obj) in Hg.
  change (share_updates (normalizeSecurityPolicyRules obj)) with (share_updates obj) in Hs.
  change (shareGroup_updates (normalizeSecurityPolicyRules obj)) with (shareGroup_updates obj) in Hsg.
  change (policy_changed (normalizeSecurityPolicyRules obj)) with (policy_changed obj) in Hc.
  change (sent_policy (normalizeSecurityPolicyRules obj)) with (sent_policy obj) in Hq.
  change (rule_updates (normalizeSecurityPolicyRules obj)) with (rule_updates obj) in Hfp, Hst1.
  change (policy_changed (normalizeSecurityPolicyRules obj)) with (policy_changed obj) in Hst1.
  assert (Hid : po_Id (f_policy f) = po_Id q) by by rewrite Hfp.
  destruct (_ && _) eqn:Hidle.
  - unfold mret in H. injection H as <-. go_bool. rewrite !bool_decide_eq_true in Hidle. destruct_and!. rewrite <- Hr, <- Hg, <- Hs, <- Hc.
    assert (Hr0 : po_Rules (f_policy f) = []) by (apply nil_length_inv; lia).
    split; [|left; split; [done|]; split; [apply nil_length_inv; lia|]; split; [apply nil_length_inv; lia|]; split; [done|]; by split].
    assert (Hch : policy_changed obj createdFor (sv_stores s) b = false) by by rewrite <- Hc.
    unfold policy_done, sent_policy in *. cbn [sv_stores]. rewrite Hch in *. exists q. split; [done|].
    intros k. rewrite Hst1, <- Hr, Hr0, ix_get_add. done.
  - apply bindM_Ok in H as (nsxPolicy & s7 & Hnsx & H).
    assert (Hk : others (sv_stores s7) = others (sv_stores s)).
    { rewrite <- Hot. destruct isDefault; [eapply (keeps_createOrUpdate_default _ _ _ _ _ Hnsx)|eapply (keeps_createOrUpdate _ _ _ _ _ Hnsx)]. }
    apply create_run in Hnsx as ((s8 & Hget) & Hpst & infra & root & w & w' & Hinfra & Hwrap & Hpatch). cbn [sv_stores] in Hpst.
    pose proof (applied_policy _ _ _ _ _ _ _ _ _ H) as [Enx Epol].
    apply applied_stores in H as (H1 & H2 & H3 & H4). rewrite <- Hr, <- Hg, <- Hs, <- Hsg, H1, H2, H3, H4.
    split; [|right; split; [|split]].
    + unfold policy_done, sent_policy in *. rewrite Epol, Hpst, Hst1, Hc. rewrite Hc in Hpst.
      destruct (policy_changed obj createdFor (sv_stores s) b).
      * subst q. exists nsxPolicy, s8, s7. rewrite <- Hid. by rewrite Enx.
      * exists q. split; [done|]. intros k. rewrite Hfp, !ix_get_add. cbn [o_Id].
        destruct (decide (k = po_Id q)) as [E|E]; [by rewrite decide_True by exact E|by rewrite !decide_False by exact E].
    + intros (E1 & E2 & E3 & E4). by rewrite Hc, E4, E1, E2, E3 in Hidle.
    + exists q, infra, root, w, w'. rewrite <- Hfp. rewrite Hg, Hs, Hsg in *. done.
    + unfold others in Hk. injection Hk as -> -> E1 E2 E3 E4. unfold share_store, share_groups. destruct isDefault; by rewrite ?E1, ?E2, ?E3, ?E4.
Qed.

Lemma applied_done obj createdFor isDefault st b st' :
  built_ok obj createdFor isDefault st b -> ruleStore st' = Apply (ruleStore st) (rule_updates obj createdFor st b) ->
  groupStore st' = Apply (groupStore st) (group_updates obj createdFor st b) ->
  share_store isDefault st' = Apply (share_store isDefault st) (share_updates obj createdFor isDefault st b) ->
  run_done obj createdFor isDefault st b st'.
Proof.
  intros [H1 H2 H3 _] E1 E2 E3. split; [|split].
  - by eapply rules_reconcile.
  - by eapply groups_reconcile.
  - by eapply shares_reconcile.
Qed.
Lemma idle_done obj createdFor isDefault st b st' :
  built_ok obj createdFor isDefault st b -> rule_updates obj createdFor st b = [] -> group_updates obj createdFor st b = [] ->
  share_updates obj createdFor isDefault st b = [] -> others st' = others st -> run_done obj createdFor isDefault st b st'.
Proof.
  intros Hok E1 E2 E3 Eo. unfold others in Eo. injection Eo as O1 O2 O3 O4 O5 O6.
  apply applied_done; [done|rewrite E1; exact O1|rewrite E2; exact O2|rewrite E3]. unfold share_store. destruct isDefault; assumption.
Qed.
(** A run that finds nothing to do. *)
Lemma createOrUpdate_idle obj createdFor s info isDefault b n :
  VPCMode = true -> head (ListVPCInfo (sp_Namespace obj)) = Some info -> IsDefaultNSXProject (OrgID info) (ProjectID info) = Ok isDefault ->
  buildSecurityPolicy (sv_stores s) (normalizeSecurityPolicyRules obj) createdFor (Some info) isDefault (sv_drawn s) = Some (Ok b, n) ->
  rule_updates obj createdFor (sv_stores s) b = [] -> group_updates obj createdFor (sv_stores s) b = [] ->
  share_updates obj createdFor isDefault (sv_stores s) b = [] -> policy_changed obj createdFor (sv_stores s) b = false ->
  exists s', createOrUpdateVPCSecurityPolicy obj createdFor s = Some (Ok tt, s') /\
    sv_nsx s' = sv_nsx s /\ others (sv_stores s') = others (sv_stores s).
Proof.
  intros HV Hi Hd Hb Hr Hg Hs Hp. destruct (final_of (sv_stores s) (normalizeSecurityPolicyRules obj) createdFor isDefault b) as [f st'] eqn:Hf.
  exists (mkService st' (sv_nsx s) n). pose proof (final_of_parts _ _ _ _ _ _ _ HV Hf) as (E1 & E2 & E3 & _ & E5 & Eo).
  split; [|by split]. unfold createOrUpdateVPCSecurityPolicy, getVPCInfo. destruct (ListVPCInfo (sp_Namespace obj)) as [|i l]; [done|].
  injection Hi as ->. unfold bindM at 1. cbn [mret]. unfold bindM at 1, mresult at 1. rewrite Hd.
  unfold getFinalSecurityPolicyResource, bindM at 1 2, build. rewrite Hb. unfold bindM, get_stores, put_stores, mret. cbn [sv_stores sv_nsx sv_drawn].
  rewrite Hf, E1, E2, E3, E5. change (normalizeSecurityPolicyRules obj) with (normalizeSecurityPolicyRules obj).
  unfold policy_changed, rule_updates, group_updates, share_updates in *. cbn [sp_UID normalizeSecurityPolicyRules]. by rewrite Hp, Hr, Hg, Hs.
Qed.
(** *** Deletion *)
Section Delete.
Context (createdFor uid : string) (isGC : bool).
Definition owned {A I} `{!NsxObject A} `{!Indexer I A o_Id} (i : I) : list A := uid_index (owner_scope createdFor) uid i.
(** Everything of the owner left, and nothing else changed. *)
Definition only_others {A I} `{!NsxObject A} `{!Indexer I A o_Id} (i i' : I) : Prop :=
  forall k, (forall b, ix_GetByKey k i = Some b -> uid ∉ idx createdFor b) -> ix_GetByKey k i' = ix_GetByKey k i.
Definition collected {A I} `{!NsxObject A} `{!Indexer I A o_Id} (i i' : I) : Prop := owned i' = [] /\ only_others i i'.
Lemma collected_apply {A I} `{!NsxObject A} `{!Indexer I A o_Id} (i : I) : collected i (Apply i (getMarkDelete (owned i))).
Proof. apply delete_store. Qed.
Definition marked_policy st (p : NsxPolicy) : NsxPolicy := with_rules (mark_policy p) (getMarkDeleteRules (owned (ruleStore st))).

Lemma mark_run s r s1 :
  markSecurityPolicyResourcesDelete (owner_scope createdFor) uid s = Some (r, s1) ->
  sv_nsx s1 = sv_nsx s /\ others (sv_stores s1) = others (sv_stores s) /\
  match owned (securityPolicyStore (sv_stores s)) with
  | p :: _ => securityPolicyStore (sv_stores s1) =
                if r is Ok _ then ix_Add (marked_policy (sv_stores s) p) (securityPolicyStore (sv_stores s)) else securityPolicyStore (sv_stores s)
  | [] => securityPolicyStore (sv_stores s1) = securityPolicyStore (sv_stores s)
  end /\
  forall m, r = Ok m ->
    m_policy m = match owned (securityPolicyStore (sv_stores s)) with p :: _ => Some (marked_policy (sv_stores s) p) | [] => None end /\
    m_groups m = getMarkDelete (owned (groupStore (sv_stores s))) /\
    forall isDefault, (if isDefault : bool then m_infraShares m else m_projectShares m) = getMarkDelete (owned (share_store isDefault (sv_stores s))) /\
      (if isDefault then m_infraShareGroups m else m_projectShareGroups m) = getMarkDelete (owned (share_groups isDefault (sv_stores s))).
Proof.
  unfold markSecurityPolicyResourcesDelete, bindM, get_stores, owned. intros H.
  destruct (uid_index _ uid (securityPolicyStore (sv_stores s))) as [|p ps] eqn:Ep.
  - injection H as <- <-. repeat (split; [done|]). intros m [= <-]. split; [done|]. split; [done|]. by intros [].
  - destruct (po_Path p) as [path|]; [|injection H as <- <-; split; [done|]; split; [done|]; by split].
    injection H as <- <-. split; [done|]. split; [done|]. split; [done|]. intros m [= <-]. split; [done|]. split; [done|]. by intros [].
Qed.

(** The stores of groups and shares. *)
Definition collections st : IG * IG * IS * IG * IS :=
  (groupStore st, infraGroupStore st, infraShareStore st, projectGroupStore st, projectShareStore st).
(** The policy of the owner leaves with its rules. *)
Definition policy_deleted st st' : Prop :=
  match owned (securityPolicyStore st) with
  | p :: _ => securityPolicyStore st' = ix_Delete (marked_policy st p) (ix_Add (marked_policy st p) (securityPolicyStore st)) /\
              ruleStore st' = Apply (ruleStore st) (getMarkDelete (owned (ruleStore st)))
  | [] => securityPolicyStore st' = securityPolicyStore st /\ ruleStore st' = ruleStore st
  end.
Definition policy_kept st st' : Prop :=
  ruleStore st' = ruleStore st /\
  match owned (securityPolicyStore st) with
  | p :: _ => securityPolicyStore st' = securityPolicyStore st \/
              securityPolicyStore st' = ix_Add (marked_policy st p) (securityPolicyStore st)
  | [] => securityPolicyStore st' = securityPolicyStore st
  end.
Definition collections_deleted isDefault st st' : Prop :=
  groupStore st' = Apply (groupStore st) (getMarkDelete (owned (groupStore st))) /\
  share_store isDefault st' = Apply (share_store isDefault st) (getMarkDelete (owned (share_store isDefault st))) /\
  share_groups isDefault st' = Apply (share_groups isDefault st) (getMarkDelete (owned (share_groups isDefault st))) /\
  share_store (negb isDefault) st' = share_store (negb isDefault) st /\ share_groups (negb isDefault) st' = share_groups (negb isDefault) st.

(** The deletion of the policy, when there is one. *)
Definition delete_policy (m : marked) : SM (W := W) (IP := IP) (IR := IR) (IG := IG) (IS := IS) unit :=
  match m_policy m with
  | None => mret tt
  | Some policy => let! _ := deleteNSXSecurityPolicy policy (m_vpcInfo m) in applySecurityPolicyStore policy (po_Rules policy) true
  end.
Lemma delete_policy_run s m s1 r s2 :
  markSecurityPolicyResourcesDelete (owner_scope createdFor) uid s = Some (Ok m, s1) -> delete_policy m s1 = Some (r, s2) ->
  collections (sv_stores s2) = collections (sv_stores s) /\
  (if r is Ok _ then policy_deleted (sv_stores s) (sv_stores s2) else policy_kept (sv_stores s) (sv_stores s2)).
Proof.
  intros Hm H. apply mark_run in Hm as (_ & Ho & Hp & Hm). destruct (Hm m eq_refl) as (Hmp & _ & _). unfold others in Ho.
  injection Ho as O1 O2 O3 O4 O5 O6. unfold delete_policy in H. rewrite Hmp in H. unfold policy_deleted, policy_kept.
  destruct (owned (securityPolicyStore (sv_stores s))) as [|p ps].
  - injection H as <- <-. unfold collections. rewrite O2, O3, O4, O5, O6. done.
  - unfold bindM in H. destruct (deleteNSXSecurityPolicy _ _ s1) as [[rd s3]|] eqn:Hd; [|done].
    assert (E : sv_stores s3 = sv_stores s1) by apply (keeps_call id _ _ _ _ Hd).
    destruct rd; injection H as <- <-; cbn; rewrite E; unfold collections; cbn; rewrite O1, O2, O3, O4, O5, O6, Hp.
    + split; [done|]. split; [|done]. unfold apply1. by rewrite bool_decide_true.
    + split; [done|]. split; [done|]. by right.
Qed.
(** The deletion of the groups and shares: its failure is not reported. *)
Definition delete_collections (isDefault : bool) (m : marked) : SM (W := W) (IP := IP) (IR := IR) (IG := IG) (IS := IS) unit :=
  let '(shares, shareGroups) := if isDefault then (m_infraShares m, m_infraShareGroups m) else (m_projectShares m, m_projectShareGroups m) in
  let! err := mtry ((if isDefault then deleteNSXSecurityPolicyGroupShareForDefaultProject else deleteNSXSecurityPolicyGroupShare)
                      (m_groups m) shares shareGroups (m_vpcInfo m)) in
  match err with Some _ => mret tt | None => applyVPCGroupShareStore (m_groups m) shares shareGroups isDefault end.
Lemma delete_collections_run s m s1 isDefault s2 r s' :
  markSecurityPolicyResourcesDelete (owner_scope createdFor) uid s = Some (Ok m, s1) ->
  collections (sv_stores s2) = collections (sv_stores s) -> delete_collections isDefault m s2 = Some (r, s') ->
  r = Ok tt /\ securityPolicyStore (sv_stores s') = securityPolicyStore (sv_stores s2) /\ ruleStore (sv_stores s') = ruleStore (sv_stores s2) /\
  (collections (sv_stores s') = collections (sv_stores s) \/ collections_deleted isDefault (sv_stores s) (sv_stores s')).
Proof.
  intros Hm Hc H. apply mark_run in Hm as (_ & _ & _ & Hm). destruct (Hm m eq_refl) as (_ & Hg & Hs). destruct (Hs isDefault) as [Hs1 Hs2].
  unfold delete_collections in H.
  assert (E : (if isDefault then (m_infraShares m, m_infraShareGroups m) else (m_projectShares m, m_projectShareGroups m)) =
              (getMarkDelete (owned (share_store isDefault (sv_stores s))), getMarkDelete (owned (share_groups isDefault (sv_stores s)))))
    by (rewrite <- Hs1, <- Hs2; by destruct isDefault).
  rewrite E, Hg in H. unfold bindM, mtry in H. pose proof (keeps_delete_groups id isDefault) as K.
  match type of H with context [match ?c s2 with _ => _ end] => destruct (c s2) as [[rd s3]|] eqn:Hd; [|done] end.
  pose proof (K _ _ _ _ _ _ _ Hd) as E3. unfold id in E3.
  destruct rd as [u|e]; [|injection H as <- <-; rewrite E3; split; [done|]; split; [done|]; split; [done|by left]].
  unfold collections in Hc. injection Hc as C1 C2 C3 C4 C5. unfold collections_deleted, share_store, share_groups in *.
  destruct isDefault; injection H as <- <-; cbn; rewrite E3, C1, C2, C3, C4, C5; (split; [done|split; [done|split; [done|by right]]]).
Qed.
Lemma deleteVPC_run s r s' :
  deleteVPCSecurityPolicy uid isGC createdFor s = Some (r, s') ->
  let st := sv_stores s in let st' := sv_stores s' in
  if r is Ok _ then policy_deleted st st' /\ (collections st' = collections st \/ exists isDefault, collections_deleted isDefault st st')
  else policy_kept st st' /\ collections st' = collections st.
Proof.
  intros H. unfold deleteVPCSecurityPolicy, bindM at 1 in H.
  destruct (markSecurityPolicyResourcesDelete _ _ s) as [[rm s1]|] eqn:Hm; [|done].
  assert (Hkept : policy_kept (sv_stores s) (sv_stores s1) /\ collections (sv_stores s1) = collections (sv_stores s)).
  { apply mark_run in Hm as (_ & Ho & Hp & _). unfold others in Ho. injection Ho as O1 O2 O3 O4 O5 O6. unfold policy_kept, collections.
    rewrite O1, O2, O3, O4, O5, O6. split; [|done]. split; [done|]. destruct (owned _); [done|]. destruct rm; [by right|by left]. }
  destruct rm as [m|e]; [|by injection H as <- <-]. destruct (_ && bool_decide (VPCID _ = "")); [by injection H as <- <-|].
  set (stale := isGC && _) in H. unfold bindM at 1 in H.
  match type of H with context [match ?c s1 with _ => _ end] => destruct (c s1) as [[rd s2]|] eqn:Hdef; [|done] end.
  assert (s2 = s1) as -> by (destruct stale; by injection Hdef). destruct rd as [isDefault|e]; [|by injection H as <- <-].
  unfold bindM at 1 in H. match type of H with context [match ?c s1 with _ => _ end] => change c with (delete_policy m) in H end.
  destruct (delete_policy m s1) as [[rp s3]|] eqn:Hp; [|done]. apply (delete_policy_run s _ _ _ _ Hm) in Hp as [Hc Hp].
  destruct rp as [u|e]; [|injection H as <- <-; by split].
  destruct (delete_collections_run s m s1 isDefault s3 r s' Hm Hc H) as (-> & E1 & E2 & Hd).
  split; [|destruct Hd; eauto]. unfold policy_deleted in *. by rewrite E1, E2.
Qed.
End Delete.

(** *** What the runs of a deletion mean *)
Section Collect.
Context (createdFor uid : string).
Abbreviation owned := (owned createdFor uid).
Abbreviation only_others := (only_others createdFor uid).
Lemma elem_of_owned {A I} `{!NsxObject A} `{!Indexer I A o_Id} (i : I) a :
  a ∈ owned i <-> uid ∈ idx createdFor a /\ ix_GetByKey (o_Id a) i = Some a.
Proof. apply elem_of_GetByIndex. Qed.
Lemma elem_of_uids {A I} `{!NsxObject A} `{!Indexer I A o_Id} (i : I) : uid ∈ uids (owner_scope createdFor) i <-> owned i <> [].
Proof.
  unfold uids. rewrite elem_of_list_to_set, list_elem_of_join. split.
  - intros (l & Hu & (a & -> & Ha)%list_elem_of_fmap) E. apply (not_elem_of_nil a). rewrite <- E. apply elem_of_owned.
    split; [exact Hu|by apply ix_list_get].
  - intros Hne. destruct (owned i) as [|a l] eqn:E; [done|]. assert (Ha : a ∈ owned i) by (rewrite E; by left).
    apply elem_of_owned in Ha as [Hu Ha]. exists (idx createdFor a). split; [exact Hu|]. apply list_elem_of_fmap. exists a. split; [done|].
    by apply ix_list_get.
Qed.
Lemma only_others_refl {A I} `{!NsxObject A} `{!Indexer I A o_Id} (i : I) : only_others i i.
Proof. by intros k _. Qed.

Lemma policy_deleted_spec st st' :
  policy_deleted createdFor uid st st' ->
  only_others (securityPolicyStore st) (securityPolicyStore st') /\ only_others (ruleStore st) (ruleStore st') /\
  forall p, head (owned (securityPolicyStore st)) = Some p -> ix_GetByKey (po_Id p) (securityPolicyStore st') = None /\ owned (ruleStore st') = [].
Proof.
  unfold policy_deleted. destruct (owned (securityPolicyStore st)) as [|p ps] eqn:E.
  - intros [-> ->]. split; [apply only_others_refl|]. split; [apply only_others_refl|done].
  - intros [-> ->]. destruct (collected_apply createdFor uid (ruleStore st)) as [Hgone Hothers].
    split; [|split; [exact Hothers|]].
    + intros k Hk. rewrite ix_get_delete, ix_get_add. case_decide as Hd; [|done].
      assert (Hp : p ∈ owned (securityPolicyStore st)) by (rewrite E; by left). apply elem_of_owned in Hp as [Hu Hp]. subst k. by destruct (Hk p Hp).
    + intros q [= <-]. split; [|done]. by rewrite ix_get_delete, decide_True.
Qed.
Lemma policy_kept_others st st' : policy_kept createdFor uid st st' -> only_others (securityPolicyStore st) (securityPolicyStore st').
Proof.
  intros [_ H]. destruct (owned (securityPolicyStore st)) as [|p ps] eqn:E; [rewrite H; apply only_others_refl|].
  destruct H as [->| ->]; [apply only_others_refl|]. intros k Hk. rewrite ix_get_add. case_decide as Hd; [|done].
  assert (Hp : p ∈ owned (securityPolicyStore st)) by (rewrite E; by left). apply elem_of_owned in Hp as [Hu Hp]. subst k. by destruct (Hk p Hp).
Qed.
(** What the garbage collection sees. *)
Definition holds st : Prop :=
  owned (groupStore st) <> [] \/ exists isDefault, owned (share_store isDefault st) <> [] \/ owned (share_groups isDefault st) <> [].
Lemma holds_same st st' : collections st' = collections st -> holds st -> holds st'.
Proof.
  unfold collections, holds, share_store, share_groups. intros E. injection E as -> E2 E3 E4 E5. intros [H|([] & H)]; [by left|right; exists true|right; exists false].
  - by rewrite E2, E3.
  - by rewrite E4, E5.
Qed.
Lemma elem_of_gc st : uid ∈ getGCSecurityPolicyIDSet (owner_scope createdFor) st <-> holds st \/ owned (securityPolicyStore st) <> [].
Proof.
  unfold getGCSecurityPolicyIDSet. rewrite !elem_of_union, !elem_of_uids. unfold holds. split.
  - intros [[[[[H|H]|H]|H]|H]|H]; [by left; left|by right|left; right; exists false|left; right; exists false|left; right; exists true|left; right; exists true]; tauto.
  - intros [[H|([] & [H|H])]|H]; tauto.
Qed.
Lemma gc_kept st st' : policy_kept createdFor uid st st' -> collections st' = collections st ->
  uid ∈ getGCSecurityPolicyIDSet (owner_scope createdFor) st -> uid ∈ getGCSecurityPolicyIDSet (owner_scope createdFor) st'.
Proof.
  intros [_ Hp] Hc. rewrite !elem_of_gc. intros [H|H]; [left; by eapply holds_same|right].
  destruct (owned (securityPolicyStore st)) as [|p ps] eqn:E; [done|]. destruct Hp as [->| ->]; [by rewrite E|].
  assert (Hin : p ∈ owned (securityPolicyStore st)) by (rewrite E; by left). apply elem_of_owned in Hin as [Hu _].
  intros E'. apply (not_elem_of_nil (marked_policy createdFor uid st p)). rewrite <- E'. apply elem_of_owned. split; [exact Hu|].
  by rewrite ix_get_add, decide_True.
Qed.
Lemma collections_deleted_gone isDefault st st' :
  collections_deleted createdFor uid isDefault st st' ->
  owned (groupStore st') = [] /\ exists isDefault, owned (share_store isDefault st') = [] /\ owned (share_groups isDefault st') = [].
Proof.
  intros (-> & E1 & E2 & _). split; [apply collected_apply|]. exists isDefault. rewrite E1, E2. split; apply collected_apply.
Qed.
Lemma collections_cases st st' :
  collections st' = collections st \/ (exists isDefault, collections_deleted createdFor uid isDefault st st') ->
  only_others (groupStore st) (groupStore st') /\
  forall isDefault, only_others (share_store isDefault st) (share_store isDefault st') /\ only_others (share_groups isDefault st) (share_groups isDefault st').
Proof.
  intros [E|(d & -> & E1 & E2 & E3 & E4)].
  - unfold collections in E. injection E as -> E2 E3 E4 E5. split; [apply only_others_refl|].
    unfold share_store, share_groups. intros []; rewrite ?E2, ?E3, ?E4, ?E5; split; apply only_others_refl.
  - split; [apply collected_apply|]. intros isDefault. destruct (decide (isDefault = d)) as [->|Hne].
    + rewrite E1, E2. split; apply collected_apply.
    + assert (isDefault = negb d) as -> by by destruct isDefault, d. rewrite E3, E4. split; apply only_others_refl.
Qed.
End Collect.
End Theorems.

(** ** Reading the stores back at start *)

(** What a store holds: the type of its resources, and the value of the tag
    [TagScopeNSXShareCreatedFor] it is filled by. *)
Definition store_type (s : store_name) : resource_type :=
  match s with
  | SPolicy => RSecurityPolicy
  | SRule => RRule
  | SGroup | SInfraGroup | SProjectGroup => RGroup
  | SInfraShare | SProjectShare => RShare
  end.
Definition store_marker (s : store_name) : option string :=
  match s with
  | SPolicy | SRule => None
  | SGroup => Some TagValueShareNotCreated
  | SInfraGroup | SInfraShare => Some TagValueShareCreatedForInfra
  | SProjectGroup | SProjectShare => Some TagValueShareCreatedForProject
  end.
Section Reload.
Context {Cfg : Config} (HV : VPCMode = true).
Lemma clause_scope tags scope : clause_matches tags (ScopeClause scope) = true <-> exists t, t ∈ tags /\ tag_Scope t = Some scope.
Proof.
  unfold clause_matches. rewrite existsb_exists. split.
  - intros (t & Ht%list_elem_of_In & E%bool_decide_eq_true). eauto.
  - intros (t & Ht & E). exists t. split; [by apply list_elem_of_In|by apply bool_decide_eq_true].
Qed.
Lemma clause_value tags v : clause_matches tags (ValueClause v) = true <-> exists t, t ∈ tags /\ tag_Tag t = Some v.
Proof.
  unfold clause_matches. rewrite existsb_exists. split.
  - intros (t & Ht%list_elem_of_In & E%bool_decide_eq_true). eauto.
  - intros (t & Ht & E). exists t. split; [by apply list_elem_of_In|by apply bool_decide_eq_true].
Qed.
Lemma owner_scope_cases createdFor : owner_scope createdFor = securityPolicyUIDTagScope \/ owner_scope createdFor = TagScopeNetworkPolicyUID.
Proof. unfold owner_scope. case_bool_decide; auto. Qed.
Lemma basic_cluster obj createdFor : newTag TagScopeCluster Cluster ∈ buildBasicTags obj createdFor.
Proof. unfold buildBasicTags, BuildBasicTags. rewrite !elem_of_app. left. left. by left. Qed.

Section Resource.
Context {A} `{!NsxObject A} (a : A) (obj : SecurityPolicy) (createdFor : string) (Hfiled : filed obj createdFor a).
(** The clauses that hold of every resource built for a policy. *)
Lemma cluster_clauses : clause_matches (o_Tags a) (ScopeClause TagScopeCluster) = true /\ clause_matches (o_Tags a) (ValueClause Cluster) = true.
Proof.
  destruct Hfiled as [Ht _]. pose proof (Ht _ (basic_cluster obj createdFor)) as Hc.
  split; [apply clause_scope|apply clause_value]; by eexists.
Qed.
Lemma owner_clause :
  clause_matches (o_Tags a) (ScopeClause securityPolicyUIDTagScope) || clause_matches (o_Tags a) (ScopeClause TagScopeNetworkPolicyUID) = true.
Proof.
  destruct Hfiled as [Ht _]. pose proof (Ht _ (basic_owned obj createdFor)) as Hc. apply orb_true_iff.
  destruct (owner_scope_cases createdFor) as [E|E]; rewrite E in Hc; [left|right]; apply clause_scope; by eexists.
Qed.
(** The clauses of the queries. *)
Lemma params_owner o : o = securityPolicyUIDTagScope \/ o = TagScopeNetworkPolicyUID ->
  tagParams (tagFiltersWithOwnerScope [] o) = [ScopeClause TagScopeCluster; ValueClause Cluster; ScopeClause o].
Proof. unfold securityPolicyUIDTagScope. rewrite HV. by intros [-> | ->]. Qed.
Lemma params_shared v o : o = securityPolicyUIDTagScope \/ o = TagScopeNetworkPolicyUID ->
  tagParams (tagFiltersWithOwnerScope [newTag TagScopeNSXShareCreatedFor v] o) =
    [ScopeClause TagScopeCluster; ValueClause Cluster; ScopeClause TagScopeNSXShareCreatedFor; ValueClause v; ScopeClause o].
Proof. unfold securityPolicyUIDTagScope. rewrite HV. by intros [-> | ->]. Qed.
(** The query of a store that is filled by a marker, and of the others. *)
Lemma loaded_clauses t s :
  loaded_into t a s = bool_decide (store_type s = t) &&
    match store_marker s with
    | None => true
    | Some v => clause_matches (o_Tags a) (ScopeClause TagScopeNSXShareCreatedFor) && clause_matches (o_Tags a) (ValueClause v)
    end.
Proof.
  destruct Hfiled as [_ Hm]. destruct cluster_clauses as [C1 C2]. pose proof owner_clause as Ho.
  unfold loaded_into, storeInitializations. rewrite HV, Hm.
  cbn [negb bool_decide decide_rel app map mjoin list_join existsb fst snd].
  rewrite !params_shared, !params_owner by auto. cbn [forallb]. rewrite C1, C2. clear C1 C2.
  destruct t, s; cbn [store_type store_marker]; revert Ho;
    repeat match goal with |- context [clause_matches ?tags ?c] => generalize (clause_matches tags c); intros [] end; done.
Qed.
Lemma loaded_unshared t s : store_type s = t -> store_marker s = None -> t <> RGroup -> t <> RShare ->
  forall s', loaded_into t a s' = true <-> s' = s.
Proof. intros <- Hs Hg Hsh s'. rewrite loaded_clauses. destruct s, s'; try done; split; done. Qed.
(** A resource filled by a marker is loaded where it belongs; elsewhere only
    when another of its tags has the marker of that store as its value. *)
Lemma loaded_marked s v :
  store_marker s = Some v -> filterTag (o_Tags a) TagScopeNSXShareCreatedFor = [v] ->
  forall s', loaded_into (store_type s) a s' = true <->
    s' = s \/ store_type s' = store_type s /\ exists tag, tag ∈ o_Tags a /\
                tag_Scope tag <> Some TagScopeNSXShareCreatedFor /\ is_Some (tag_Tag tag) /\ tag_Tag tag = store_marker s'.
Proof.
  intros Hs Hf s'. rewrite loaded_clauses, andb_true_iff, bool_decide_eq_true.
  assert (Hown : exists t, t ∈ o_Tags a /\ tag_Scope t = Some TagScopeNSXShareCreatedFor /\ default "" (tag_Tag t) = v).
  { assert (Hin : v ∈ filterTag (o_Tags a) TagScopeNSXShareCreatedFor) by (rewrite Hf; by left).
    apply list_elem_of_omap in Hin as (t & Ht & E). exists t. case_bool_decide; [|done]. by injection E as ->. }
  assert (Honly : forall t, t ∈ o_Tags a -> tag_Scope t = Some TagScopeNSXShareCreatedFor -> default "" (tag_Tag t) = v).
  { intros t Ht E. assert (Hin : default "" (tag_Tag t) ∈ filterTag (o_Tags a) TagScopeNSXShareCreatedFor)
      by (apply list_elem_of_omap; exists t; split; [done|]; by rewrite bool_decide_true).
    rewrite Hf in Hin. by apply list_elem_of_singleton in Hin. }
  destruct Hown as (t0 & Ht0 & Hsc & Hv0). split.
  - intros [Hty H]. destruct (store_marker s') as [w|] eqn:Hs'; [|by destruct s, s'].
    apply andb_true_iff in H as [_ (t & Ht & E)%clause_value].
    destruct (decide (tag_Scope t = Some TagScopeNSXShareCreatedFor)) as [Hcf|Hcf].
    + left. pose proof (Honly t Ht Hcf) as Hv. rewrite E in Hv. cbn in Hv. subst w. destruct s, s'; try done; cbv in Hs, Hs'; congruence.
    + right. split; [done|]. exists t. rewrite E. eauto.
  - intros [->|(Hty & t & Ht & Hcf & Hsome & E)].
    + split; [done|]. rewrite Hs. apply andb_true_iff. split; [apply clause_scope; eauto|]. apply clause_value.
      exists t0. split; [done|]. destruct (tag_Tag t0) as [x|]; [cbn in Hv0; by subst x|]. cbn in Hv0. subst v. by destruct s.
    + split; [done|]. destruct Hsome as [w Hw]. rewrite <- E, Hw. apply andb_true_iff. split; [apply clause_scope; eauto|].
      apply clause_value. eauto.
Qed.
End Resource.
End Reload.

(** ** A concrete environment *)
Module SpDemo.
(** NSX answers every call; what it is sent is kept, last first. [nsx_down]: the
    requests at the root of the organization fail. *)
Inductive sent := SentInfra (l : list child) | SentOrg (l : list child) | Deleted (id : string).
Record nsx := mkNsx { nsx_sent : list sent; nsx_down : bool }.
Definition send (m : sent) (w : nsx) : nsx := mkNsx (m :: nsx_sent w) (nsx_down w).
#[export] Instance demo_nsx : NsxApi nsx := {
  Convert _ := None;
  InfraClient_Patch l w := (None, send (SentInfra l) w);
  OrgRootClient_Patch l w := (if nsx_down w then Some (EText "down") else None, send (SentOrg l) w);
  SecurityClient_Get _ id w := (Ok (mkNsxPolicy id "" 0 [] [] [] (Some ("/p/" +:+ id)) None), w);
  VPCSecurityClient_Get _ id w := (Ok (mkNsxPolicy id "sp" 0 [] [newTag TagScopeSecurityPolicyUID "u1"] []
    (Some ("/orgs/o/projects/p/vpcs/v/security-policies/" +:+ id)) None), w);
  VPCSecurityClient_Delete _ id w := (None, send (Deleted id) w);
  RealizedEntities_List _ w := (Ok [mkEntity (Some STATE_REALIZED) None []], w) }.
#[export] Instance demo_vpcs : VPCServiceProvider := {
  ListVPCInfo _ := [mkVPCInfo "o" "p" "v" "" ""]; IsDefaultNSXProject _ _ := Ok false }.
#[export] Instance demo_encoder : SdkEncoder := {
  encode_policy p := po_Id p +:+ po_DisplayName p; encode_rule r := ru_Id r +:+ ru_DisplayName r +:+ ru_Action r;
  encode_group g := g_Id g; encode_share s := sh_Id s }.
#[export] Instance demo_config : Config := { VPCMode := true; Cluster := "k8scl"; NamespaceGroup := false; GetNamespaceUID _ := "ns-uid" }.
#[export] Instance demo_runtime : Runtime := {
  json_targets l := itoa (Z.of_nat (length l)); json_peers l := itoa (Z.of_nat (length l));
  json_rule r := r_Name r +:+ r_Action r; uuids n := itoa (Z.of_nat n); id_fuel := 10; ConvertToVapi _ := None }.
#[export] Instance demo_kube : KubeClient := {
  Selector := unit; LabelSelectorAsSelector _ := Ok tt; List_pods _ _ := Ok []; List_namespaces _ := Ok [] }.
Definition sel (k v : string) : LabelSelector := mkSelector {[k := v]} [].
(** Pods labelled app=web accept the Pods of the Namespaces labelled team=a. *)
Definition policy : SecurityPolicy :=
  mkSecurityPolicy "ns" "sp" "u1" 0 [mkTarget None (Some (sel "app" "web"))]
    [mkRule "Allow" [] "In" [] [] [mkPeer None None (Some (sel "team" "a")) []] [] [mkPort "TCP" (IInt 80) 0] "r1"].
Abbreviation P := (map_store NsxPolicy o_Id).
Abbreviation R := (map_store Rule o_Id).
Abbreviation G := (map_store Group o_Id).
Abbreviation S := (map_store Share o_Id).
Definition empty : stores P R G S := mkStores ix_empty ix_empty ix_empty ix_empty ix_empty ix_empty ix_empty.
Definition start : service nsx P R G S := mkService empty (mkNsx [] false) 0%nat.
(** The service after the creation of the policy, and what was built for it. *)
Definition created : service nsx P R G S :=
  match createOrUpdateVPCSecurityPolicy policy ResourceTypeSecurityPolicy start with Some (_, s) => s | None => start end.
Definition what : NsxPolicy * list Group * list GroupShare :=
  match buildSecurityPolicy empty (normalizeSecurityPolicyRules policy) ResourceTypeSecurityPolicy (Some (mkVPCInfo "o" "p" "v" "" "")) false 0%nat with
  | Some (Ok b, _) => b
  | _ => (mkNsxPolicy "" "" 0 [] [] [] None None, [], [])
  end.
End SpDemo.
Import SpDemo.

(** What the example builds, and that it may be built. *)
Lemma expected_ok_empty {A I} `{!NsxObject A} `{!Indexer I A o_Id} (index : A -> list string) owner (l : list A) :
  NoDup (map o_Id l) -> Forall (fun a => owner ∈ index a /\ o_MarkedForDelete a <> Some true) l -> expected_ok (I := I) index owner ix_empty l.
Proof.
  intros Hn Hl. rewrite Forall_forall in Hl. split; [done|by intros a Ha; apply Hl|by intros a Ha; apply Hl|].
  intros a b _ Hb. by rewrite ix_get_empty in Hb.
Qed.
Lemma what_ok : built_ok policy ResourceTypeSecurityPolicy false empty what.
Proof. split; (apply expected_ok_empty; apply (bool_decide_eq_true_1 _); by vm_compute). Qed.
Lemma created_run : createOrUpdateVPCSecurityPolicy policy ResourceTypeSecurityPolicy start = Some (Ok tt, created).
Proof.
  unfold created. destruct (createOrUpdateVPCSecurityPolicy _ _ start) as [[r s]|] eqn:E.
  - f_equal. f_equal. apply (f_equal (option_map fst)) in E. vm_compute in E. by injection E.
  - apply (f_equal (option_map fst)) in E. by vm_compute in E.
Qed.
Lemma what_built : buildSecurityPolicy empty (normalizeSecurityPolicyRules policy) ResourceTypeSecurityPolicy (Some (mkVPCInfo "o" "p" "v" "" "")) false 0%nat
  = Some (Ok what, 40%nat).
Proof. vm_compute. reflexivity. Qed.
Lemma what_built_again :
  buildSecurityPolicy (sv_stores created) (normalizeSecurityPolicyRules policy) ResourceTypeSecurityPolicy (Some (mkVPCInfo "o" "p" "v" "" "")) false (sv_drawn created)
  = Some (Ok what, 40%nat).
Proof. vm_compute. reflexivity. Qed.

(** ** Claims *)

(** C8. Whatever is built for a policy in VPC mode comes back after a restart:
    every policy, rule, group, share and shared group is new, is filed in the
    stores under the UID of the object it was created for, and is found by the
    query that fills the store it was kept in. A policy or rule is found by no
    other query. The queries ask for scopes and values separately, so a group or
    share is found by the query of another store of its type exactly when some
    other tag of it happens to have that store's marker as its value, as for a
    policy named "infra", "project" or "notShared". *)
Theorem built_resources_reload {Cfg : Config} {Rt : Runtime} {Kube : KubeClient} {IP IR IG IS}
    `{!Indexer IP NsxPolicy o_Id} `{!Indexer IR Rule o_Id} `{!Indexer IG Group o_Id} `{!Indexer IS Share o_Id}
    (st : stores IP IR IG IS) obj createdFor vpcInfo isDefault n policy groups shares n' :
  VPCMode = true ->
  buildSecurityPolicy st obj createdFor vpcInfo isDefault n = Some (Ok (policy, groups, shares), n') ->
  let kept {A} `{!NsxObject A} (store : store_name) (a : A) :=
    o_MarkedForDelete a = None /\ sp_UID obj ∈ indexBySecurityPolicyUIDForScope (owner_scope createdFor) a /\
    forall s, loaded_into (store_type store) a s = true <->
      s = store \/ store_type s = store_type store /\ exists tag, tag ∈ o_Tags a /\
                     tag_Scope tag <> Some TagScopeNSXShareCreatedFor /\ is_Some (tag_Tag tag) /\ tag_Tag tag = store_marker s in
  kept SPolicy policy /\
  Forall (kept SRule) (po_Rules policy) /\
  Forall (kept SGroup) groups /\
  Forall (fun s => kept (if isDefault then SInfraShare else SProjectShare) (gs_share s) /\
                   kept (if isDefault then SInfraGroup else SProjectGroup) (gs_shareGroup s)) shares.
Proof.
  intros HV Hb kept. apply build_filed_parts in Hb as (Ht & Hm & Hr & Hg & Hs). cbn [fst snd] in *.
  assert (Hpr : forall store A `{!NsxObject A} (a : A), filed obj createdFor a -> store = SPolicy \/ store = SRule -> kept A _ store a).
  { intros store A ? a Ha E. split; [apply Ha|]. split; [by eapply filed_owned|]. intros s.
    rewrite (loaded_unshared HV a obj createdFor Ha (store_type store) store) by by destruct E as [-> | ->].
    split; [by left|]. intros [->|(E' & t & _ & _ & [w Hw] & Hmk)]; [done|]. rewrite Hw in Hmk. by destruct E as [-> | ->], s. }
  assert (Hgs : forall store v A `{!NsxObject A} (a : A), filed obj createdFor a -> created_for v a -> store_marker store = Some v -> kept A _ store a).
  { intros store v A ? a Ha Hc E. split; [apply Ha|]. split; [by eapply filed_owned|].
    apply (loaded_marked HV a obj createdFor Ha store v E). by apply Hc. }
  split; [apply Hpr; [|by left]; split; [|done]; intros t Hbt; change (t ∈ po_Tags policy); by rewrite Ht|].
  split. { apply (Forall_impl _ _ _ Hr). intros r H. apply Hpr; [exact H|by right]. }
  split. { apply (Forall_impl _ _ _ Hg). intros g [H1 H2]. by eapply Hgs. }
  apply (Forall_impl _ _ _ Hs). intros s (H1 & H2 & H3 & H4). destruct isDefault; (split; by eapply Hgs).
Qed.
Lemma built_resources_reload_witness :
  VPCMode = true /\ map sh_Id (map gs_share what.2) <> [] /\
  Forall (fun s => loaded_into RGroup (gs_shareGroup s) SProjectGroup = true) what.2.
Proof.
  split; [done|]. split; [by vm_compute|].
  assert (exists n', buildSecurityPolicy empty (normalizeSecurityPolicyRules policy) ResourceTypeSecurityPolicy (Some (mkVPCInfo "o" "p" "v" "" "")) false 0%nat
    = Some (Ok (what.1.1, what.1.2, what.2), n')) as [n' H] by (eexists; vm_compute; reflexivity).
  apply built_resources_reload in H as (_ & _ & _ & H); [|done].
  eapply Forall_impl; [exact H|]. intros s [_ (_ & _ & Hl)]. apply (Hl SProjectGroup). by left.
Defined.
(** A policy named "infra": its group that is not shared is also loaded into the
    store of the groups shared from the infra. *)
Lemma policy_named_infra :
  let named := mkSecurityPolicy "ns" "infra" "u1" 0 (sp_AppliedTo policy) (sp_Rules policy) in
  exists b n, buildSecurityPolicy empty (normalizeSecurityPolicyRules named) ResourceTypeSecurityPolicy (Some (mkVPCInfo "o" "p" "v" "" "")) false 0%nat
      = Some (Ok b, n) /\ map (fun g => (loaded_into RGroup g SGroup, loaded_into RGroup g SInfraGroup, loaded_into RGroup g SProjectGroup)) b.1.2
      = [(true, true, false)].
Proof. eexists _, _. split; [vm_compute; reflexivity|]. vm_compute. reflexivity. Qed.

(** C6. Creation and update converge. When the call for a policy succeeds in VPC
    mode, the stores of rules, groups and shares hold for the UID of the policy
    exactly what was built from it, compared as the code compares, and what they
    hold for others is unchanged; the store of policies has the policy NSX
    returned for the built identifier once it was realized or, when the policy
    did not change, the stored one without its rules. Unless nothing but shared
    groups had changed, NSX accepted the request with the policy, its rules and
    groups (and in a project other than the default one its shares), and the
    store of shared groups is brought to what was built as well; in that case the
    call ends before any request and changes none of these stores. Each store
    is brought to what was built when what was built for it has distinct
    identifiers (two equal rules of a policy break this) that no resource of
    another owner has. *)
Theorem createOrUpdate_converges {W IP IR IG IS} {Nsx : NsxApi W} {Vpc : VPCServiceProvider} {Retry : RetryDriver} {Enc : SdkEncoder}
    {Cfg : Config} {Rt : Runtime} {Kube : KubeClient}
    `{!Indexer IP NsxPolicy o_Id} `{!Indexer IR Rule o_Id} `{!Indexer IG Group o_Id} `{!Indexer IS Share o_Id}
    obj createdFor (s s' : service W IP IR IG IS) :
  VPCMode = true -> createOrUpdateVPCSecurityPolicy obj createdFor s = Some (Ok tt, s') ->
  exists info isDefault b n, head (ListVPCInfo (sp_Namespace obj)) = Some info /\ IsDefaultNSXProject (OrgID info) (ProjectID info) = Ok isDefault /\
  buildSecurityPolicy (sv_stores s) (normalizeSecurityPolicyRules obj) createdFor (Some info) isDefault (sv_drawn s) = Some (Ok b, n) /\
  let st := sv_stores s in let st' := sv_stores s' in let index {A} `{!NsxObject A} : A -> list string := idx createdFor in
  let idle := rule_updates obj createdFor st b = [] /\ group_updates obj createdFor st b = [] /\
              share_updates obj createdFor isDefault st b = [] /\ policy_changed obj createdFor st b = false in
  policy_done obj createdFor info st b s' /\
  (expected_ok index (sp_UID obj) (ruleStore st) (po_Rules b.1.1) -> rules_done obj createdFor st b st') /\
  (expected_ok index (sp_UID obj) (groupStore st) b.1.2 -> groups_done obj createdFor st b st') /\
  (expected_ok index (sp_UID obj) (share_store isDefault st) (map gs_share (reverse b.2)) -> shares_done obj createdFor isDefault st b st') /\
  (idle -> sv_nsx s' = sv_nsx s /\ others st' = others st) /\
  (~ idle -> updates_accepted obj createdFor isDefault info st b /\
     (expected_ok index (sp_UID obj) (share_groups isDefault st) (map gs_shareGroup (reverse b.2)) ->
      shareGroups_done obj createdFor isDefault st b st')).
Proof.
  intros HV H. apply (createOrUpdate_run _ _ _ _ HV) in H as (info & isDefault & b & n & Hi & Hd & Hb & Hp & H).
  exists info, isDefault, b, n. split; [done|]. split; [done|]. split; [done|]. cbv zeta. split; [exact Hp|].
  destruct H as [(E1 & E2 & E3 & E4 & En & Eo)|(Hn & Hup & E1 & E2 & E3 & E5)].
  - pose proof Eo as Eo'. unfold others in Eo'. injection Eo' as O1 O2 O3 O4 O5 O6.
    split; [intros He; apply rules_reconcile; [exact He|by rewrite E1]|]. split; [intros He; apply groups_reconcile; [exact He|by rewrite E2]|].
    split; [intros He; apply shares_reconcile; [exact He|rewrite E3; unfold share_store; by destruct isDefault]|].
    split; [by split|]. intros Hn. by destruct Hn.
  - split; [intros He; by apply rules_reconcile|]. split; [intros He; by apply groups_reconcile|].
    split; [intros He; by apply shares_reconcile|]. split; [intros Hi'; by destruct Hn|]. intros _. split; [exact Hup|].
    intros He. by apply shareGroups_reconcile.
Qed.
Lemma createOrUpdate_converges_witness :
  createOrUpdateVPCSecurityPolicy policy ResourceTypeSecurityPolicy start = Some (Ok tt, created) /\
  run_done policy ResourceTypeSecurityPolicy false empty what (sv_stores created) /\
  policy_done policy ResourceTypeSecurityPolicy (mkVPCInfo "o" "p" "v" "" "") empty what created /\
  shareGroups_done policy ResourceTypeSecurityPolicy false empty what (sv_stores created).
Proof.
  split; [apply created_run|].
  destruct (createOrUpdate_converges (Cfg := demo_config) policy ResourceTypeSecurityPolicy start created eq_refl created_run)
    as (info & isDefault & b & n & Hi & Hd & Hb & Hp & H1 & H2 & H3 & _ & H5).
  injection Hi as <-. injection Hd as <-. assert (b = what) as -> by (pose proof what_built; cbn [sv_stores sv_drawn start] in Hb; congruence).
  destruct what_ok as [O1 O2 O3 O4]. split; [split; [by apply H1|split; [by apply H2|by apply H3]]|]. split; [exact Hp|].
  apply H5; [|exact O4]. intros (_ & _ & _ & E). vm_compute in E. discriminate E.
Defined.

(** C9. Reconciling again is idle. After a call that succeeded, a second call that
    builds the same resources, for a policy NSX holds unchanged, succeeds, sends
    nothing to NSX and changes no store of rules, groups or shares, whatever NSX
    would answer. *)
Theorem createOrUpdate_idempotent {W IP IR IG IS} {Nsx : NsxApi W} {Vpc : VPCServiceProvider} {Retry : RetryDriver} {Enc : SdkEncoder}
    {Cfg : Config} {Rt : Runtime} {Kube : KubeClient}
    `{!Indexer IP NsxPolicy o_Id} `{!Indexer IR Rule o_Id} `{!Indexer IG Group o_Id} `{!Indexer IS Share o_Id}
    obj createdFor (s s' : service W IP IR IG IS) info isDefault b n n' :
  VPCMode = true -> createOrUpdateVPCSecurityPolicy obj createdFor s = Some (Ok tt, s') ->
  head (ListVPCInfo (sp_Namespace obj)) = Some info -> IsDefaultNSXProject (OrgID info) (ProjectID info) = Ok isDefault ->
  let build st := buildSecurityPolicy st (normalizeSecurityPolicyRules obj) createdFor (Some info) isDefault in
  build (sv_stores s) (sv_drawn s) = Some (Ok b, n) -> build (sv_stores s') (sv_drawn s') = Some (Ok b, n') ->
  built_ok obj createdFor isDefault (sv_stores s) b -> policy_changed obj createdFor (sv_stores s') b = false ->
  exists s'', createOrUpdateVPCSecurityPolicy obj createdFor s' = Some (Ok tt, s'') /\
    sv_nsx s'' = sv_nsx s' /\ others (sv_stores s'') = others (sv_stores s').
Proof.
  intros HV H Hi Hd build Hb Hb' Hok Hp.
  assert (Hdone : run_done obj createdFor isDefault (sv_stores s) b (sv_stores s')).
  { apply (createOrUpdate_run _ _ _ _ HV) in H as (info1 & isDefault1 & b1 & n1 & Hi1 & Hd1 & Hb1 & _ & H).
    assert (info1 = info) as -> by congruence. assert (isDefault1 = isDefault) as -> by congruence. unfold build in Hb.
    assert (b1 = b) as -> by congruence.
    destruct H as [(E1 & E2 & E3 & _ & _ & Eo)|(_ & _ & E1 & E2 & E3 & E4)]; [eapply idle_done; eassumption|apply applied_done; assumption]. }
  destruct Hdone as (Hr & Hg & Hs). apply (createOrUpdate_idle obj createdFor s' info isDefault b n'); [done..| | | |done].
  - by apply (rules_idle _ _ _ _ _ _ Hok).
  - by apply (groups_idle _ _ _ _ _ _ Hok).
  - by apply (shares_idle _ _ _ _ _ _ Hok).
Qed.
Lemma createOrUpdate_idempotent_witness :
  exists s'', createOrUpdateVPCSecurityPolicy policy ResourceTypeSecurityPolicy created = Some (Ok tt, s'') /\
    sv_nsx s'' = sv_nsx created /\ others (sv_stores s'') = others (sv_stores created).
Proof.
  apply (createOrUpdate_idempotent (Cfg := demo_config) policy ResourceTypeSecurityPolicy start created (mkVPCInfo "o" "p" "v" "" "") false what 40%nat 40%nat eq_refl created_run eq_refl eq_refl
    what_built what_built_again what_ok). by vm_compute.
Defined.

(** C7. Deletion collects what it can and forgets nothing. When the deletion of
    a UID succeeds in VPC mode, the policy filed under it is gone with every rule
    of the UID, and either its groups, and its shares and shared groups of the
    project that was looked at, are gone, or NSX refused, they are all still in
    the stores, and the UID stays among those the garbage collection deletes
    again. When it fails, rules, groups and shares are kept, and so is the UID in
    that set. Resources of other owners are never touched. *)
Theorem delete_collects {W IP IR IG IS} {Nsx : NsxApi W} {Vpc : VPCServiceProvider} {Cfg : Config}
    `{!Indexer IP NsxPolicy o_Id} `{!Indexer IR Rule o_Id} `{!Indexer IG Group o_Id} `{!Indexer IS Share o_Id}
    uid isGC createdFor (s s' : service W IP IR IG IS) r :
  deleteVPCSecurityPolicy uid isGC createdFor s = Some (r, s') ->
  let st := sv_stores s in let st' := sv_stores s' in
  let gc st := getGCSecurityPolicyIDSet (owner_scope createdFor) st in
  only_others createdFor uid (securityPolicyStore st) (securityPolicyStore st') /\ only_others createdFor uid (ruleStore st) (ruleStore st') /\
  only_others createdFor uid (groupStore st) (groupStore st') /\
  (forall isDefault : bool, only_others createdFor uid (share_store isDefault st) (share_store isDefault st') /\
                     only_others createdFor uid (share_groups isDefault st) (share_groups isDefault st')) /\
  match r with
  | Ok _ =>
      (forall p, head (owned createdFor uid (securityPolicyStore st)) = Some p ->
         ix_GetByKey (po_Id p) (securityPolicyStore st') = None /\ owned createdFor uid (ruleStore st') = []) /\
      ((owned createdFor uid (groupStore st') = [] /\ exists isDefault, owned createdFor uid (share_store isDefault st') = [] /\
         owned createdFor uid (share_groups isDefault st') = []) \/
       (collections st' = collections st /\
        (owned createdFor uid (groupStore st) <> [] \/
         (exists isDefault, owned createdFor uid (share_store isDefault st) <> [] \/ owned createdFor uid (share_groups isDefault st) <> []) ->
         uid ∈ gc st')))
  | Err _ => ruleStore st' = ruleStore st /\ collections st' = collections st /\ (uid ∈ gc st -> uid ∈ gc st')
  end.
Proof.
  intros H st st' gc. apply deleteVPC_run in H. fold st st' in H. destruct r as [u|e].
  - destruct H as [Hp Hc]. pose proof (policy_deleted_spec createdFor uid _ _ Hp) as (Hp1 & Hp2 & Hp3). pose proof (collections_cases createdFor uid _ _ Hc) as (Hg & Hs).
    split; [exact Hp1|]. split; [exact Hp2|]. split; [exact Hg|]. split; [exact Hs|]. split; [exact Hp3|].
    destruct Hc as [Hc|[isDefault Hc]]; [right|left; by eapply collections_deleted_gone].
    split; [done|]. intros Hne. apply elem_of_gc. left. by eapply holds_same.
  - destruct H as [Hk Hc]. pose proof (proj1 Hk) as Hr. pose proof (collections_cases createdFor uid _ _ (or_introl Hc)) as (Hg & Hs).
    split; [by eapply policy_kept_others|]. split; [intros k _; by rewrite Hr|]. split; [exact Hg|]. split; [exact Hs|].
    split; [done|]. split; [done|]. by eapply gc_kept.
Qed.
(** NSX refuses to remove the groups of the policy. *)
Lemma delete_collects_witness :
  exists s', deleteVPCSecurityPolicy "u1" false ResourceTypeSecurityPolicy (mkService (sv_stores created) (mkNsx [] true) 0%nat) = Some (Ok tt, s') /\
     "u1" ∈ getGCSecurityPolicyIDSet (owner_scope ResourceTypeSecurityPolicy) (sv_stores s') /\
     owned ResourceTypeSecurityPolicy "u1" (ruleStore (sv_stores s')) = [].
Proof.
  set (run := deleteVPCSecurityPolicy "u1" false ResourceTypeSecurityPolicy (mkService (sv_stores created) (mkNsx [] true) 0%nat)).
  assert (Hrun : match run with
    | Some (Ok _, s') => bool_decide (owned ResourceTypeSecurityPolicy "u1" (groupStore (sv_stores s')) = []) = false
    | _ => False
    end) by (vm_compute; reflexivity).
  destruct run as [[[[]|e] s']|] eqn:E; [|destruct Hrun..]. apply bool_decide_eq_false in Hrun. exists s'. split; [reflexivity|].
  apply delete_collects in E as (_ & _ & _ & _ & H & Hc).
  assert (Hp : exists p, head (owned ResourceTypeSecurityPolicy "u1" (securityPolicyStore (sv_stores created))) = Some p)
    by (eexists; vm_compute; reflexivity).
  destruct Hp as [p Hp]. split; [|by apply (H p)]. destruct Hc as [[Hg0 _]|[Hs Hc]]; [destruct (Hrun Hg0)|]. apply Hc. left.
  apply (bool_decide_eq_false_1 _). vm_compute. reflexivity.
Defined.
