(* ===== verification/NsxCluster.v ===== *)
(** * pkg/nsx: the cluster of NSX managers

    ratelimiter.go, endpoint.go, transport.go, cluster.go and client.go: the
    rate limiters, the status of the managers, the choice of a manager for a
    request, the retries of a request, sessions and authentication, the
    version of NSX with the features it supports, and the URLs of requests.
    third_party/retry: the loop of the retries. *)
From S2P Require Import Prelude GoStrings Errors NsxUtil.

(** ** Rate limiters (ratelimiter.go). Durations and times are in nanoseconds;
    a limit is a whole number of requests in a second. *)
Definition APIReduceRateCodes : list Z := [429; 503].
Definition KeepAlivePeriod : Z := 33.
Definition second : Z := 1000000000.
(** A hundredth of a second. *)
Definition APIWaitMinThreshold : Z := 10000000.
Definition DEFAULTUPDATEPERIOD : Z := second.
Definition MAXRATELIMIT : Z := 100.
Record FixRateLimiter := mkFix { fix_l : Z; fix_disable : bool; fix_max : Z }.
Record AIMDRateLimter := mkAIMD {
  l : Z; disable : bool; max : Z; period : Z; lastAdjuctRate : Z; pos : Z; neg : Z }.
Inductive RateLimiter := Fixed (f : FixRateLimiter) | Adaptive (a : AIMDRateLimter).
Definition cap (m : Z) : Z := if bool_decide (m > MAXRATELIMIT) then MAXRATELIMIT else m.
Definition NewFixRateLimiter (m : Z) : RateLimiter :=
  if bool_decide (m = 0) then Fixed (mkFix (cap m) true 0) else Fixed (mkFix (cap m) false (cap m)).
Definition NewAIMDRateLimiter (m period now : Z) : AIMDRateLimter :=
  mkAIMD 1 (bool_decide (m = 0)) (cap m) period now 0 0.
Definition NewRateLimiter (aimd : bool) (now : Z) : RateLimiter :=
  if aimd then Adaptive (NewAIMDRateLimiter MAXRATELIMIT DEFAULTUPDATEPERIOD now) else NewFixRateLimiter MAXRATELIMIT.
Definition AIMD_AdjustRate (r : AIMDRateLimter) (waitTime statusCode now : Z) : AIMDRateLimter :=
  if disable r then r
  else
    let neg := neg r + Z.of_nat (length (filter (fun v => v = statusCode) APIReduceRateCodes)) in
    let pos := if bool_decide (APIWaitMinThreshold < waitTime) then pos r + 1 else pos r in
    if bool_decide (period r <= now - lastAdjuctRate r) then
      let limit :=
        if bool_decide (0 < pos) then (if bool_decide (l r < max r) then l r + 1 else l r)
        else if bool_decide (0 < neg) then (if bool_decide (1 < l r) then l r / 2 else l r)
        else l r in
      mkAIMD limit (disable r) (max r) (period r) now 0 0
    else mkAIMD (l r) (disable r) (max r) (period r) (lastAdjuctRate r) pos neg.
Definition AdjustRate (r : RateLimiter) (waitTime statusCode now : Z) : RateLimiter :=
  match r with Fixed f => Fixed f | Adaptive a => Adaptive (AIMD_AdjustRate a waitTime statusCode now) end.
Definition rate (r : RateLimiter) : Z :=
  match r with
  | Fixed f => if fix_disable f then 0 else fix_l f
  | Adaptive a => if disable a then 0 else l a
  end.

(** ** Retries (third_party/retry/retry.go): at most [n] runs *)
Fixpoint Do {S} (n : nat) (retryIf : goerr -> bool) (f : S -> option goerr * S) (s : S) : option goerr * S :=
  match n with
  | O => (None, s)
  | Datatypes.S n' =>
      match f s with
      | (None, s') => (None, s')
      | (Some err, s') =>
          if retryIf err then
            match n' with O => (Some err, s') | _ => Do n' retryIf f s' end
          else (Some err, s')
      end
  end.
Definition DefaultAttempts : nat := 10.

(** ** Managers (endpoint.go) *)
Inductive EndpointStatus := UP | DOWN.
#[global] Instance EndpointStatus_eq_dec : EqDecision EndpointStatus.
Proof. solve_decision. Defined.
Record Endpoint := mkEndpoint {
  ep_Host : string; ep_Scheme : string; ep_status : EndpointStatus; connnumber : Z; xXSRFToken : string;
  lastAliveTime : Z; user : string; password : string; caFile : string; Thumbprint : string; envoyUrl : string }.
Definition setStatus (s : EndpointStatus) (ep : Endpoint) : Endpoint :=
  mkEndpoint (ep_Host ep) (ep_Scheme ep) s (connnumber ep) (xXSRFToken ep) (lastAliveTime ep) (user ep) (password ep)
    (caFile ep) (Thumbprint ep) (envoyUrl ep).
Definition setXSRFToken (token : string) (ep : Endpoint) : Endpoint :=
  mkEndpoint (ep_Host ep) (ep_Scheme ep) (ep_status ep) (connnumber ep) token (lastAliveTime ep) (user ep) (password ep)
    (caFile ep) (Thumbprint ep) (envoyUrl ep).
Definition setAliveTime (t : Z) (ep : Endpoint) : Endpoint :=
  mkEndpoint (ep_Host ep) (ep_Scheme ep) (ep_status ep) (connnumber ep) (xXSRFToken ep) t (user ep) (password ep)
    (caFile ep) (Thumbprint ep) (envoyUrl ep).
Definition setUserPassword (u p : string) (ep : Endpoint) : Endpoint :=
  mkEndpoint (ep_Host ep) (ep_Scheme ep) (ep_status ep) (connnumber ep) (xXSRFToken ep) (lastAliveTime ep) u p
    (caFile ep) (Thumbprint ep) (envoyUrl ep).
Definition SetEnvoyUrl (url : string) (ep : Endpoint) : Endpoint :=
  mkEndpoint (ep_Host ep) (ep_Scheme ep) (ep_status ep) (connnumber ep) (xXSRFToken ep) (lastAliveTime ep) (user ep) (password ep)
    (caFile ep) (Thumbprint ep) url.
Definition setCaFile (ca : string) (ep : Endpoint) : Endpoint :=
  mkEndpoint (ep_Host ep) (ep_Scheme ep) (ep_status ep) (connnumber ep) (xXSRFToken ep) (lastAliveTime ep) (user ep) (password ep)
    ca (Thumbprint ep) (envoyUrl ep).
Definition setThumbprint (t : string) (ep : Endpoint) : Endpoint :=
  mkEndpoint (ep_Host ep) (ep_Scheme ep) (ep_status ep) (connnumber ep) (xXSRFToken ep) (lastAliveTime ep) (user ep) (password ep)
    (caFile ep) t (envoyUrl ep).
(** [atomic.AddInt32]. *)
Definition wrap32 (n : Z) : Z := (n + 2 ^ 31) mod 2 ^ 32 - 2 ^ 31.
Definition addConn (d : Z) (ep : Endpoint) : Endpoint :=
  mkEndpoint (ep_Host ep) (ep_Scheme ep) (ep_status ep) (wrap32 (connnumber ep + d)) (xXSRFToken ep) (lastAliveTime ep)
    (user ep) (password ep) (caFile ep) (Thumbprint ep) (envoyUrl ep).
Definition increaseConnNumber : Endpoint -> Endpoint := addConn 1.
Definition decreaseConnNumber : Endpoint -> Endpoint := addConn (-1).
Definition NewEndpoint (parse : string -> result goerr (string * string)) (url : string) : result goerr Endpoint :=
  let u := if has_prefix "http" url then url else "https://" +:+ url in
  match parse u with
  | Err e => Err e
  | Ok (host, scheme) => Ok (mkEndpoint host scheme DOWN 0 "" 0 "" "" "" "" "")
  end.
(** The interval until the next check: the time since the last answer, which is
    in nanoseconds, is compared with a number of seconds. *)
Definition nextInterval (now : Z) (ep : Endpoint) : Z :=
  let i := now - lastAliveTime ep in
  if bool_decide (KeepAlivePeriod < i) then KeepAlivePeriod else KeepAlivePeriod - i.

(** ** The choice of a manager (transport.go) *)
Fixpoint select_loop (i : nat) (small : Z) (index : option nat) (endpoints : list Endpoint) : option nat :=
  match endpoints with
  | [] => index
  | ep :: endpoints' =>
      if bool_decide (ep_status ep = DOWN) then select_loop (i + 1) small index endpoints'
      else if bool_decide (connnumber ep < small) then select_loop (i + 1) (connnumber ep) (Some i) endpoints'
      else select_loop (i + 1) small index endpoints'
  end.
Definition maxConn : Z := 100.
Definition selectEndpoint (endpoints : list Endpoint) : result goerr nat :=
  match select_loop 0 maxConn None endpoints with
  | Some i => Ok i
  | None => Err (CreateServiceClusterUnavailable (join "," (map ep_Host endpoints)))
  end.
Definition handleRoundTripError (errString : string) (host : string) : goerr :=
  if has_suffix "connection refused" errString then CreateConnectionError host
  else if has_suffix "i/o timeout" errString then CreateTimeout host
  else CreateGeneralManagerError host "RoundTrip" errString.

(** ** Requests and the network *)

(** [http.Header] as the list of its fields. *)
Definition header : Type := list (string * string).
Definition Header_Add (k v : string) (h : header) : header := h ++ [(k, v)].
Definition Header_Del (k : string) (h : header) : header := filter (fun f => f.1 <> k) h.
Definition Header_Set (k v : string) (h : header) : header := Header_Del k h ++ [(k, v)].
Definition Header_Get (k : string) (h : header) : string := default "" (snd <$> head (filter (fun f => f.1 = k) h)).
Record request := mkRequest { req_URL : url; req_Header : header }.
(** A response with what reading its body gives. *)
Record response := mkResponse { StatusCode : Z; Body : string; readError : option string }.
Record session := mkSession { ses_response : response; ses_Token : option string; ses_Cookies : list string }.
Record nsx_config := mkNsxConfig {
  cf_Username : string; cf_Password : string; cf_HasCertProvider : bool; cf_HasTokenProvider : bool;
  cf_CAFile : list string; cf_Thumbprint : list string; cf_EnvoyHost : string; cf_EnvoyPort : Z }.
(** The network, the clock, the token provider and the encoders of the
    libraries. [wait] blocks on the rate limiter. *)
Class Network (W : Type) := {
  Now : W -> Z * W;
  limiter_wait : RateLimiter -> W -> W;
  base_RoundTrip : request -> W -> result string response * W;
  post_session : string -> string -> string -> W -> result goerr session * W;
  get_health : string -> request -> W -> result goerr response * W;
  get_version : string -> request -> W -> result goerr response * W;
  GetToken : bool -> W -> result goerr string * W;
  HeaderValue : string -> string;
  BasicAuth : string -> string -> string;
  unmarshal_body : string -> result string responseBody;
  unmarshal_healthy : string -> result goerr bool;
  unmarshal_version : string -> result goerr (option string);
  CertPemBytesToHeader : string -> string }.

Definition HttpCommonError : goerr := EText "received HTTP Error".
Definition HttpNotFoundError : goerr := EText "received HTTP Not Found Error".
Definition HttpBadRequest : goerr := EText "received HTTP Bad Request Error".
(** [HandleHTTPResponse]: the value or the error, and the body it returns
    ([""] for nil). *)
Definition HandleHTTPResponse {A} (unmarshal : string -> result goerr A) (resp : response) : result goerr A * string :=
  if negb (bool_decide (StatusCode resp = 200)) && negb (bool_decide (StatusCode resp = 202)) && negb (bool_decide (StatusCode resp = 201))
  then
    (Err (if bool_decide (StatusCode resp = 404) then HttpNotFoundError
          else if bool_decide (StatusCode resp = 400) then HttpBadRequest else HttpCommonError), "")
  else
    match readError resp with
    | Some e => (Err (EText e), Body resp)
    | None => (unmarshal (Body resp), Body resp)
    end.

(** The managers with the shared limiter and cookies; no jar until a session
    was created. *)
Record net (W : Type) := mkNet { endpoints : list Endpoint; limiter : RateLimiter; jar : option (gmap string (list string)); world : W }.
Arguments mkNet {W} _ _ _ _.
Arguments endpoints {W} _.
Arguments limiter {W} _.
Arguments jar {W} _.
Arguments world {W} _.
(** A round trip in progress; [rt_panicked]: the goroutine panicked. *)
Record trip (W : Type) := mkTrip {
  rt_net : net W; rt_req : request; rt_resp : option response; rt_resul : option goerr; rt_panicked : bool }.
Arguments mkTrip {W} _ _ _ _ _.
Arguments rt_net {W} _.
Arguments rt_req {W} _.
Arguments rt_resp {W} _.
Arguments rt_resul {W} _.
Arguments rt_panicked {W} _.

Section Transport.
Context {W : Type} {Http : Network W} (config : nsx_config).
Definition upd (f : Endpoint -> Endpoint) (i : nat) (n : net W) : net W :=
  mkNet (alter f i (endpoints n)) (limiter n) (jar n) (world n).
Definition with_world (n : net W) (w : W) : net W := mkNet (endpoints n) (limiter n) (jar n) w.
Definition clock (n : net W) : Z * net W := let '(t, w) := Now (world n) in (t, with_world n w).
(** Ten runs of [GetToken(false)]; the time they take is not modelled. *)
Definition token_run (s : string * W) : option goerr * (string * W) :=
  match GetToken false s.2 with
  | (Err e, w) => (Some e, ("", w))
  | (Ok token, w) => (None, (token, w))
  end.
(** The authentication of a request: [None] is the panic on the missing jar. *)
Definition UpdateHttpRequestAuth (ep : Endpoint) (n : net W) (h : header) : option (option goerr * header) * net W :=
  if cf_HasTokenProvider config then
    let '(err, (token, w)) := Do DefaultAttempts (fun _ => true) token_run ("", world n) in
    let n := with_world n w in
    match err with
    | Some e => (Some (Some e, h), n)
    | None => (Some (None, Header_Add "Accept" "application/json" (Header_Add "Authorization" (HeaderValue token) h)), n)
    end
  else
    if bool_decide (xXSRFToken ep <> "") then
      let h := if bool_decide (Header_Get "Authorization" h <> "") then Header_Del "Authorization" h else h in
      let h := Header_Add "X-Xsrf-Token" (xXSRFToken ep) h in
      match jar n with
      | None => (None, n)
      | Some cookies => (Some (None, foldl (fun h c => Header_Set "Cookie" c h) h (default [] (cookies !! ep_Host ep))), n)
      end
    else (Some (None, Header_Set "Authorization" (BasicAuth (user ep) (password ep)) h), n).
Definition UpdateCAforEnvoy (ep : Endpoint) (h : header) : header :=
  if bool_decide (caFile ep <> "") then Header_Set "x-vmware-server-tls-cert" (caFile ep) h else h.
Definition createAuthSession (i : nat) (n : net W) : option goerr * net W :=
  match endpoints n !! i with
  | None => (None, n)
  | Some ep =>
      if cf_HasCertProvider config || cf_HasTokenProvider config then (None, n)
      else
        let base := if bool_decide (envoyUrl ep <> "") then envoyUrl ep else ep_Scheme ep +:+ "://" +:+ ep_Host ep in
        let '(r, w) := post_session (base +:+ "/api/session/create") (cf_Username config) (cf_Password config) (world n) in
        let n := with_world n w in
        match r with
        | Err e => (Some e, n)
        | Ok s =>
            if negb (bool_decide (StatusCode (ses_response s) = 200)) && negb (bool_decide (StatusCode (ses_response s) = 201))
            then (Some (EText ("session creation failed, unexpected status code " +:+ itoa (StatusCode (ses_response s)))), n)
            else
              match readError (ses_response s), ses_Token s with
              | Some e, _ => (Some (EText e), n)
              | None, None => (Some (EText "no token in response"), n)
              | None, Some token =>
                  let n := upd (setXSRFToken token) i n in
                  let n := mkNet (endpoints n) (limiter n) (Some (<[ep_Host ep := ses_Cookies s]> (default ∅ (jar n)))) (world n) in
                  (None, upd (setStatus UP) i n)
              end
        end
  end.
(** A token or a session is renewed when the error asks for it. *)
Definition regenerate (i : nat) (n : net W) : net W :=
  if cf_HasTokenProvider config then with_world n (GetToken true (world n)).2
  else (createAuthSession i n).2.
(** What is done with an answer of manager [i], asked at [start]. *)
Definition read_response (i : nat) (ep : Endpoint) (start transTime : Z) (resp : response) (n : net W) : option goerr * net W :=
  match readError resp with
  | Some e => (Some (CreateGeneralManagerError (ep_Host ep) "extract http" e), n)
  | None =>
      match InitErrorFromResponse unmarshal_body (ep_Host ep) (StatusCode resp) (Body resp) with
      | None => (None, upd (setAliveTime (start + transTime)) i n)
      | Some err => (Some err, if ShouldRegenerate (Some err) then regenerate i n else n)
      end
  end.
(** One run, between the increase and the decrease of the connections. *)
Definition send (i : nat) (ep : Endpoint) (t : trip W) : option goerr * trip W :=
  match UpdateRequestURL (req_URL (rt_req t)) (ep_Host ep) (Thumbprint ep) with
  | None => (None, mkTrip (rt_net t) (rt_req t) (rt_resp t) (rt_resul t) true)
  | Some u =>
      match UpdateHttpRequestAuth ep (rt_net t) (req_Header (rt_req t)) with
      | (None, n) => (None, mkTrip n (rt_req t) (rt_resp t) (rt_resul t) true)
      | (Some (_, h), n) =>
          let req := mkRequest u (UpdateCAforEnvoy ep h) in
          let '(start, n) := clock n in
          let n := with_world n (limiter_wait (limiter n) (world n)) in
          let '(t1, n) := clock n in
          let waitTime := t1 - start in
          let '(r, w) := base_RoundTrip req (world n) in
          let n := with_world n w in
          match r with
          | Err e => (Some (handleRoundTripError e (ep_Host ep)), mkTrip (upd (setStatus DOWN) i n) req None (Some (EText e)) false)
          | Ok resp =>
              let '(t2, n) := clock n in
              let '(t3, n) := clock n in
              let n := mkNet (endpoints n) (AdjustRate (limiter n) waitTime (StatusCode resp) t3) (jar n) (world n) in
              let '(err, n) := read_response i ep start (t2 - start - waitTime) resp n in
              (err, mkTrip n req (Some resp) None false)
          end
      end
  end.
Definition attempt (t : trip W) : option goerr * trip W :=
  match selectEndpoint (endpoints (rt_net t)) with
  | Err e => (Some e, t)
  | Ok i =>
      match endpoints (rt_net t) !! i with
      | None => (None, t)
      | Some ep =>
          let '(err, t') := send i ep (mkTrip (upd increaseConnNumber i (rt_net t)) (rt_req t) (rt_resp t) (rt_resul t) (rt_panicked t)) in
          (err, mkTrip (upd decreaseConnNumber i (rt_net t')) (rt_req t') (rt_resp t') (rt_resul t') (rt_panicked t'))
      end
  end.
Definition retryIf (err : goerr) : bool := ShouldGroundPoint (Some err) || ShouldRetry (Some err).
Definition RoundTrip (r : request) (n : net W) : trip W :=
  (Do DefaultAttempts retryIf attempt (mkTrip n r None None false)).2.

(** ** Health checks *)
Definition keepAlive_end (i : nat) (resp : response) (n : net W) : option goerr * net W :=
  match endpoints n !! i with
  | None => (None, n)
  | Some ep =>
      let '(healthy, body) := HandleHTTPResponse unmarshal_healthy resp in
      if match healthy with Ok b => b | Err _ => false end then (None, upd (setStatus UP) i n)
      else
        let err := InitErrorFromResponse unmarshal_body (ep_Host ep) (StatusCode resp) body in
        if ShouldRegenerate err then (err, upd (setStatus DOWN) i (upd (setXSRFToken "") i n))
        else if ShouldRetry err then (err, upd (setStatus UP) i n)
        else (err, upd (setStatus DOWN) i n)
  end.
Definition keepAlive (i : nat) (n : net W) : option (option goerr) * net W :=
  match endpoints n !! i with
  | None => (Some None, n)
  | Some ep =>
      let base := if bool_decide (envoyUrl ep <> "") then envoyUrl ep else ep_Scheme ep +:+ "://" +:+ ep_Host ep in
      let url := base +:+ "/api/v1/reverse-proxy/node/health" in
      match UpdateHttpRequestAuth ep n [] with
      | (None, n) => (None, n)
      | (Some (Some err, _), n) => (Some (Some err), upd (setStatus DOWN) i n)
      | (Some (None, h), n) =>
          let '(r, w) := get_health url (mkRequest (mkUrl "" "") (UpdateCAforEnvoy ep h)) (world n) in
          let n := with_world n w in
          match r with
          | Err e => (Some (Some e), n)
          | Ok resp => let '(err, n) := keepAlive_end i resp n in (Some err, n)
          end
      end
  end.
End Transport.

(** ** The cluster (cluster.go) *)
Inductive ClusterHealth := RED | ORANGE | GREEN.
Definition Health (endpoints : list Endpoint) : ClusterHealth :=
  let up := length (filter (fun ep => ep_status ep = UP) endpoints) in
  let down := length (filter (fun ep => ep_status ep <> UP) endpoints) in
  if bool_decide (down = length endpoints) then RED
  else if bool_decide (up = length endpoints) then GREEN else ORANGE.
Fixpoint remove_byte (c : ascii) (s : string) : string :=
  match s with "" => "" | String a s' => if bool_decide (a = c) then remove_byte c s' else String a (remove_byte c s') end.
Definition thumbprintToUrlPath (thumbprint : string) : string := remove_byte ":" (to_upper thumbprint).
Definition UsingEnvoy (config : nsx_config) : bool := negb (bool_decide (cf_EnvoyPort config = 0)).
Definition CreateServerUrl (config : nsx_config) (host scheme : string) : string :=
  if UsingEnvoy config then
    let mgrIP := if contains_byte ":" host then map_str (fun a => if bool_decide (a = ":"%char) then "/"%char else a) host else host +:+ "/443" in
    let envoy := "http://" +:+ cf_EnvoyHost config +:+ ":" +:+ itoa (cf_EnvoyPort config) in
    match cf_CAFile config, cf_Thumbprint config with
    | _ :: _, _ => envoy +:+ "/external-cert/http1/" +:+ mgrIP
    | [], t :: _ => envoy +:+ "/external-tp/http1/" +:+ mgrIP +:+ "/" +:+ thumbprintToUrlPath t
    | [], [] => ""
    end
  else scheme +:+ "://" +:+ host.
(** The host before the first colon; [None]: there is none, and the slice of
    the code panics. *)
Definition before_colon (addr : string) : option string := n ← index_byte ":" addr; Some (take_str n addr).
Definition host_of (ep : Endpoint) : string :=
  match index_byte ":" (ep_Host ep) with Some (S n) => take_str (S n) (ep_Host ep) | _ => ep_Host ep end.
(** [getThumbprint] and [getCaFile]: the one value, or that at the place of the
    manager; [None] is a panic, also when the list is shorter. *)
Definition per_endpoint (endpoints : list Endpoint) (values : list string) (addr : string) : option string :=
  host ← before_colon addr;
  match values with
  | [] => Some ""
  | [v] => Some v
  | _ =>
      match list_find (fun ep => host_of ep = host) endpoints with
      | None => Some ""
      | Some (index, _) => values !! index
      end
  end.
Definition getThumbprint (config : nsx_config) (endpoints : list Endpoint) (addr : string) : option string :=
  per_endpoint endpoints (cf_Thumbprint config) addr.
Definition getCaFile (config : nsx_config) (endpoints : list Endpoint) (addr : string) : option string :=
  per_endpoint endpoints (cf_CAFile config) addr.
Fixpoint createEndpoints (parse : string -> result goerr (string * string)) (apiManagers : list string) : result goerr (list Endpoint) :=
  match apiManagers with
  | [] => Ok []
  | m :: ms =>
      match NewEndpoint parse m with
      | Err e => Err e
      | Ok ep => match createEndpoints parse ms with Err e => Err e | Ok eps => Ok (ep :: eps) end
      end
  end.
(** [endpoints[i].field = v]; [None]: out of range. *)
Definition set_ep (i : nat) (f : Endpoint -> Endpoint) (eps : list Endpoint) : option (list Endpoint) :=
  match eps !! i with Some _ => Some (alter f i eps) | None => None end.
Fixpoint load_ca (toHeader : string -> string) (i : nat) (caFiles : list string) (eps : list Endpoint) : option (bool * list Endpoint) :=
  match caFiles with
  | [] => Some (false, eps)
  | ca :: caFiles' =>
      if bool_decide (toHeader ca <> "") then eps' ← set_ep i (setCaFile (toHeader ca)) eps; Some (true, eps')
      else load_ca toHeader (S i) caFiles' eps
  end.
Fixpoint load_thumbprints (i : nat) (thumbprints : list string) (eps : list Endpoint) : option (list Endpoint) :=
  match thumbprints with
  | [] => Some eps
  | t :: ts => eps' ← set_ep i (setThumbprint (to_lower (trim_space (remove_byte ":" t)))) eps; load_thumbprints (S i) ts eps'
  end.
(** It returns once a certificate was loaded: the other managers have none. *)
Definition loadCAforEnvoy (toHeader : string -> string) (config : nsx_config) (eps : list Endpoint) : option (list Endpoint) :=
  if negb (UsingEnvoy config) then Some eps
  else
    match load_ca toHeader 0 (cf_CAFile config) eps with
    | None => None
    | Some (true, eps') => Some eps'
    | Some (false, eps') => load_thumbprints 0 (cf_Thumbprint config) eps'
    end.

Section Cluster.
Context {W : Type} {Http : Network W} (config : nsx_config).
Definition createAuthSessions (n : net W) : net W :=
  foldl (fun n i => (createAuthSession config i n).2) n (seq 0 (length (endpoints n))).
(** Managers are checked until one is up; [None]: a check panicked. *)
Fixpoint setup_loop (ids : list nat) (n : net W) : option (net W) :=
  match ids with
  | [] => Some n
  | i :: ids' =>
      let n := upd (setUserPassword (cf_Username config) (cf_Password config)) i n in
      match keepAlive config i n with
      | (None, _) => None
      | (Some _, n) =>
          match endpoints n !! i with
          | Some ep => if bool_decide (ep_status ep = UP) then Some n else setup_loop ids' n
          | None => setup_loop ids' n
          end
      end
  end.
Definition NewCluster (parse : string -> result goerr (string * string)) (apiManagers : list string) (aimd : bool) (w : W)
  : option (result goerr (net W)) :=
  match createEndpoints parse apiManagers with
  | Err e => Some (Err e)
  | Ok eps =>
      eps ← loadCAforEnvoy CertPemBytesToHeader config eps;
      let '(t, w) := Now w in
      let eps := map (fun ep => SetEnvoyUrl (CreateServerUrl config (ep_Host ep) (ep_Scheme ep)) ep) eps in
      let n := createAuthSessions (mkNet eps (NewRateLimiter aimd t) None w) in
      n ← setup_loop (seq 0 (length eps)) n;
      Some (Ok n)
  end.
End Cluster.

(** ** The version of NSX and its features *)
Inductive feature :=
  | VPC | SecurityPolicy | ServiceAccount | ServiceAccountRestore | ServiceAccountCertRotation | StaticRoute
  | VPCPreferredDefaultSNATIP | SubnetIPReservation | SubnetMinimalSize8 | VTEPLessMode | RestoreVIF | StaticIPReservation
  | StatefulSetPod | IPv6 | SubnetAssociation | NamespaceGroup | SubnetPortSetting.
#[global] Instance feature_eq_dec : EqDecision feature.
Proof. solve_decision. Defined.
Definition minVersion (f : feature) : Z * Z * Z :=
  match f with
  | VPC => (4, 1, 1) | SecurityPolicy => (3, 2, 0) | ServiceAccount => (4, 0, 1) | StaticRoute => (4, 0, 1)
  | ServiceAccountRestore => (4, 1, 2) | ServiceAccountCertRotation => (4, 1, 3)
  | VPCPreferredDefaultSNATIP | SubnetIPReservation | SubnetMinimalSize8 | VTEPLessMode => (9, 1, 0)
  | RestoreVIF | StaticIPReservation => (9, 2, 0)
  | StatefulSetPod => (9, 1, 2)
  | IPv6 | SubnetAssociation | NamespaceGroup | SubnetPortSetting => (9, 2, 0)
  end.
(** One or more digits and then what [k] accepts, for some length of the digits. *)
Fixpoint digits_then (k : string -> bool) (s : string) : bool :=
  match s with
  | String a s' => is_digit a && (k s' || digits_then k s')
  | "" => false
  end.
(** Any byte but a line feed. *)
Definition any_then (k : string -> bool) (s : string) : bool :=
  match s with String a s' => negb (bool_decide (a = "010"%char)) && k s' | "" => false end.
(** A match of [^([\d]+).([\d]+).([\d]+)]: the dots are not escaped. *)
Definition Validate (ProductVersion : string) : option goerr :=
  if digits_then (any_then (digits_then (any_then (digits_then (fun _ => true))))) ProductVersion then None
  else Some (EText "error version format").
Fixpoint compare_sections (sections minVersion : list Z) : bool :=
  match sections, minVersion with
  | s :: sections', m :: minVersion' =>
      if bool_decide (s > m) then true else if bool_decide (s < m) then false else compare_sections sections' minVersion'
  | _, _ => true
  end.
Definition featureSupported (ProductVersion : string) (f : feature) : bool :=
  let buff := split_on "." ProductVersion in
  if bool_decide (length buff < 3)%nat then false
  else
    match mapM atoi buff with
    | None => false
    | Some sections => let '(a, b, c) := minVersion f in compare_sections (take 3 sections) [a; b; c]
    end.

(** The version cache of the cluster and the features the client found
    supported. *)
Definition GetNsxVersionInterval : Z := 1800 * second.
#[global] Instance feature_countable : Countable feature.
Proof.
  refine (inj_countable' (fun f => match f with
    | VPC => 0 | SecurityPolicy => 1 | ServiceAccount => 2 | ServiceAccountRestore => 3 | ServiceAccountCertRotation => 4 | StaticRoute => 5
    | VPCPreferredDefaultSNATIP => 6 | SubnetIPReservation => 7 | SubnetMinimalSize8 => 8 | VTEPLessMode => 9 | RestoreVIF => 10
    | StaticIPReservation => 11 | StatefulSetPod => 12 | IPv6 => 13 | SubnetAssociation => 14 | NamespaceGroup => 15 | SubnetPortSetting => 16
    end%nat) (fun n => match n with
    | 0 => VPC | 1 => SecurityPolicy | 2 => ServiceAccount | 3 => ServiceAccountRestore | 4 => ServiceAccountCertRotation | 5 => StaticRoute
    | 6 => VPCPreferredDefaultSNATIP | 7 => SubnetIPReservation | 8 => SubnetMinimalSize8 | 9 => VTEPLessMode | 10 => RestoreVIF
    | 11 => StaticIPReservation | 12 => StatefulSetPod | 13 => IPv6 | 14 => SubnetAssociation | 15 => NamespaceGroup | _ => SubnetPortSetting
    end%nat) _). by intros [].
Defined.
Record versions := mkVersions { nsxVersion : string; lastTimeGetVersion : Z; supported : gset feature }.
Definition reset_features (v : versions) : versions := mkVersions (nsxVersion v) (lastTimeGetVersion v) ∅.
Section Version.
Context {W : Type} {Http : Network W} (config : nsx_config).
(** The version and an error; [None]: a panic. A field that the answer does
    not have keeps its value. *)
Definition GetVersion (s : net W * versions) : option (string * option goerr) * (net W * versions) :=
  let '(n, v) := s in
  let '(now, n) := if bool_decide (nsxVersion v <> "") then clock n else (0, n) in
  if bool_decide (nsxVersion v <> "") && bool_decide (now - lastTimeGetVersion v < GetNsxVersionInterval)
  then (Some (nsxVersion v, None), (n, v))
  else
    match endpoints n with
    | [] => (None, (n, v))
    | ep :: _ =>
        let url := CreateServerUrl config (ep_Host ep) (ep_Scheme ep) +:+ "/api/v1/node/version" in
        match UpdateHttpRequestAuth config ep n [] with
        | (None, n) => (None, (n, v))
        | (Some (Some err, _), n) => (Some ("", Some err), (n, v))
        | (Some (None, h), n) =>
            let '(r, w) := get_version url (mkRequest (mkUrl "" "") (UpdateCAforEnvoy ep h)) (world n) in
            let n := with_world n w in
            match r with
            | Err err => (Some ("", Some err), (n, v))
            | Ok resp =>
                match (HandleHTTPResponse unmarshal_version resp).1 with
                | Err err => (Some ("", Some err), (n, mkVersions "" (lastTimeGetVersion v) (supported v)))
                | Ok field =>
                    let newVersion := default (nsxVersion v) field in
                    let '(t, n) := clock n in
                    let v' := mkVersions newVersion t (supported v) in
                    let changed := bool_decide (nsxVersion v <> "") && bool_decide (newVersion <> "") && bool_decide (nsxVersion v <> newVersion) in
                    (Some (newVersion, None), (n, if changed then reset_features v' else v'))
                end
            end
        end
    end.
(** [None]: a panic. *)
Definition NSXCheckVersion (f : feature) (s : net W * versions) : option bool * (net W * versions) :=
  if bool_decide (f ∈ supported s.2) then (Some true, s)
  else
    match GetVersion s with
    | (None, s) => (None, s)
    | (Some (_, Some _), s) => (Some false, s)
    | (Some (version, None), (n, v)) =>
        if bool_decide (Validate version = None) && featureSupported version f
        then (Some true, (n, mkVersions (nsxVersion v) (lastTimeGetVersion v) ({[f]} ∪ supported v)))
        else (Some false, (n, v))
    end.
Definition FeatureEnabled (f : feature) (v : versions) : bool := bool_decide (f ∈ supported v).
(** The checks [GetClient] makes before the client is used. *)
Fixpoint initial_checks (fs : list feature) (s : net W * versions) : option (net W * versions) :=
  match fs with
  | [] => Some s
  | f :: fs' => match NSXCheckVersion f s with (None, _) => None | (Some _, s) => initial_checks fs' s end
  end.
Definition GetClient_features : list feature :=
  [SecurityPolicy; ServiceAccount; ServiceAccountRestore; ServiceAccountCertRotation].
End Version.

(** ** Health and licenses *)
Definition CheckNSXHealth (endpoints : list Endpoint) : option goerr :=
  match Health endpoints with RED => Some (EText "NSX Current Status is down") | _ => None end.
(** [ValidateLicense] with the answer of the licenses API. *)
Definition ValidateLicense (hasVPC init : bool) (fetched : result goerr NsxLicense) (m : licenseMap) : option goerr * licenseMap :=
  match fetched with
  | Err err => (Some err, m)
  | Ok licenses =>
      let m' := UpdateFeatureLicense m (Some licenses) in
      if negb (IsLicensed m' "CONTAINER") then (Some (EText "NSX license check failed"), m')
      else if hasVPC && negb (IsLicensed m' "VPC") then (Some (EText "NSX license check failed"), m')
      else if negb init && (negb (bool_decide (IsLicensed m' "CONTAINER" = IsLicensed m "CONTAINER"))
                            || negb (bool_decide (GetDFWLicense hasVPC m' = GetDFWLicense hasVPC m)))
      then (Some (EText "license updated"), m')
      else (None, m')
  end.

(** ** Facts: the rate limiter *)
(** Requests in order: the wait, the status code and the time of the answer. *)
Definition AIMD_run (r : AIMDRateLimter) (evs : list (Z * Z * Z)) : AIMDRateLimter :=
  foldl (fun r e => AIMD_AdjustRate r e.1.1 e.1.2 e.2) r evs.
Definition aimd_ok (m : Z) (r : AIMDRateLimter) : Prop :=
  disable r = false /\ max r = cap m /\ 1 <= l r <= cap m /\ 0 <= pos r /\ 0 <= neg r.
Lemma AIMD_AdjustRate_ok m r w c t : aimd_ok m r -> aimd_ok m (AIMD_AdjustRate r w c t).
Proof.
  intros (Hd & Hm & Hl & Hp & Hn). unfold AIMD_AdjustRate. rewrite Hd.
  assert (1 < l r -> 1 <= l r / 2 <= l r) by (intros; split; [apply Z.div_le_lower_bound; lia|apply Z.div_le_upper_bound; lia]).
  unfold aimd_ok. repeat case_bool_decide; cbn; repeat split; try done; try lia.
Qed.
Lemma AIMD_run_ok m r evs : aimd_ok m r -> aimd_ok m (AIMD_run r evs).
Proof. revert r. induction evs as [|e evs IH]; intros r Hr; [done|]. cbn. by apply IH, AIMD_AdjustRate_ok. Qed.
Lemma NewAIMDRateLimiter_ok m p t : 1 <= m -> aimd_ok m (NewAIMDRateLimiter m p t).
Proof.
  intros Hm. unfold aimd_ok, NewAIMDRateLimiter, cap, MAXRATELIMIT. cbn.
  repeat case_bool_decide; repeat split; try done; lia.
Qed.
Lemma reduce_code_count c : 0 < Z.of_nat (length (filter (fun v => v = c) APIReduceRateCodes)) <-> c ∈ APIReduceRateCodes.
Proof.
  split; intros H.
  - destruct (filter (fun v => v = c) APIReduceRateCodes) as [|x xs] eqn:E; [cbn in H; lia|].
    assert (Hx : x ∈ filter (fun v => v = c) APIReduceRateCodes) by (rewrite E; left).
    apply list_elem_of_filter in Hx as [-> Hx]. done.
  - assert (Hx : c ∈ filter (fun v => v = c) APIReduceRateCodes) by (by apply list_elem_of_filter).
    destruct (filter _ _); [by apply not_elem_of_nil in Hx|cbn; lia].
Qed.

(** C21. The adaptive limiter: whatever the answers are, the limit stays between
    1 and the smaller of its maximum and 100 requests in a second. An answer changes it only when a
    period has passed since the last change: by one more when a request of the
    period waited, and to its half when none waited and an answer of the period
    was a 429 or a 503. *)
Theorem AIMD_rate_bounds m p t0 evs w c t :
  1 <= m ->
  let r := AIMD_run (NewAIMDRateLimiter m p t0) evs in
  let r' := AIMD_AdjustRate r w c t in
  1 <= l r <= Z.min m MAXRATELIMIT /\ 1 <= l r' <= Z.min m MAXRATELIMIT /\
  (l r' <> l r -> period r <= t - lastAdjuctRate r /\ lastAdjuctRate r' = t /\
     (l r' = l r + 1 /\ (0 < pos r \/ APIWaitMinThreshold < w) \/
      l r' = l r / 2 /\ pos r = 0 /\ w <= APIWaitMinThreshold /\ (0 < neg r \/ c ∈ APIReduceRateCodes))).
Proof.
  intros Hm r r'.
  assert (Hr : aimd_ok m r) by (by apply AIMD_run_ok, NewAIMDRateLimiter_ok).
  pose proof (AIMD_AdjustRate_ok m r w c t Hr) as (_ & _ & Hl' & _).
  assert (Hc : cap m <= Z.min m MAXRATELIMIT) by (unfold cap; case_bool_decide; lia).
  pose proof (reduce_code_count c) as Hcode.
  destruct Hr as (Hd & Hmax & Hl & Hp & Hn). split; [lia|]. split; [subst r'; lia|].
  subst r'. unfold AIMD_AdjustRate. rewrite Hd.
  assert (Hneg : 0 < neg r + Z.of_nat (length (filter (fun v => v = c) APIReduceRateCodes)) -> 0 < neg r \/ c ∈ APIReduceRateCodes).
  { intros H. destruct (decide (0 < neg r)); [by left|right; apply Hcode; lia]. }
  repeat case_bool_decide; cbn; intros Hne; try done.
  all: split; [done|split; [done|]]; first [left; lia | right; repeat split; try lia; auto].
Qed.
Lemma AIMD_rate_bounds_witness :
  let r := AIMD_run (NewAIMDRateLimiter 300 second 0) [(0, 200, 5); (20000000, 200, 2000000000)] in
  l r = 2 /\ (l (AIMD_AdjustRate r 0 429 4000000000) = 1) /\ 1 <= l r <= Z.min 300 MAXRATELIMIT.
Proof.
  split; [reflexivity|]. split; [reflexivity|].
  refine (proj1 (AIMD_rate_bounds 300 second 0 [(0, 200, 5); (20000000, 200, 2000000000)] 0 429 4000000000 _)). lia.
Defined.

(** ** Facts: the choice of a manager *)
Definition eligible (ep : Endpoint) : Prop := ep_status ep = UP /\ connnumber ep < maxConn.
(** [index] is what was chosen from the managers before place [i], and [small]
    its connections. *)
Definition chosen (i : nat) (small : Z) (index : option nat) (eps : list Endpoint) (r : option nat) : Prop :=
  (r = index /\ forall ep, ep ∈ eps -> ep_status ep = UP -> small <= connnumber ep) \/
  (exists ep k, r = Some (i + k)%nat /\ eps !! k = Some ep /\ ep_status ep = UP /\ connnumber ep < small /\
     (forall k' ep', eps !! k' = Some ep' -> ep_status ep' = UP ->
        connnumber ep <= connnumber ep' /\ ((k' < k)%nat -> connnumber ep < connnumber ep'))).
Lemma chosen_skip i small index e eps r :
  (ep_status e = UP -> small <= connnumber e) -> chosen (i + 1) small index eps r -> chosen i small index (e :: eps) r.
Proof.
  intros He [[-> H]|(ep & k & -> & Hk & Hup & Hlt & Hmin)]; [left|right].
  - split; [done|]. intros ep [->|Hin]%elem_of_cons Hu; eauto.
  - exists ep, (S k). split; [f_equal; lia|]. repeat (split; [done|]).
    intros [|k'] ep' Hl Hu; cbn in Hl.
    + injection Hl as <-. specialize (He Hu). lia.
    + destruct (Hmin k' ep' Hl Hu). split; [done|]. intros. auto with lia.
Qed.
Lemma chosen_take i small index e eps r :
  ep_status e = UP -> connnumber e < small -> chosen (i + 1) (connnumber e) (Some i) eps r -> chosen i small index (e :: eps) r.
Proof.
  intros He Hlt [[-> H]|(ep & k & -> & Hk & Hup & Hlt' & Hmin)]; right.
  - exists e, 0%nat. split; [f_equal; lia|]. repeat (split; [done|]).
    intros [|k'] ep' Hl Hu; cbn in Hl; [injection Hl as <-; lia|].
    split; [|lia]. apply H; [by eapply list_elem_of_lookup_2|done].
  - exists ep, (S k). split; [f_equal; lia|]. split; [done|]. split; [done|]. split; [lia|].
    intros [|k'] ep' Hl Hu; cbn in Hl; [injection Hl as <-; lia|].
    destruct (Hmin k' ep' Hl Hu). split; [done|]. intros. auto with lia.
Qed.
Lemma select_loop_spec eps : forall i small index, chosen i small index eps (select_loop i small index eps).
Proof.
  induction eps as [|e eps IH]; intros i small index; cbn.
  - left. split; [done|]. intros ep H. by apply not_elem_of_nil in H.
  - case_bool_decide as Hs; [by apply chosen_skip; [congruence|]|].
    case_bool_decide as Hc; [|by apply chosen_skip; [lia|]].
    apply chosen_take; [by destruct (ep_status e)|done|done].
Qed.
Lemma selectEndpoint_ok eps j :
  selectEndpoint eps = Ok j ->
  exists ep, eps !! j = Some ep /\ eligible ep /\
    (forall k ep', eps !! k = Some ep' -> ep_status ep' = UP ->
       connnumber ep <= connnumber ep' /\ ((k < j)%nat -> connnumber ep < connnumber ep')).
Proof.
  unfold selectEndpoint. destruct (select_loop_spec eps 0 maxConn None) as [[-> _]|(ep & k & -> & Hk & Hup & Hlt & Hmin)]; [done|].
  intros [= <-]. by exists ep.
Qed.
Lemma selectEndpoint_err eps e :
  selectEndpoint eps = Err e ->
  e = CreateServiceClusterUnavailable (join "," (map ep_Host eps)) /\ forall ep, ep ∈ eps -> ~ eligible ep.
Proof.
  unfold selectEndpoint. destruct (select_loop_spec eps 0 maxConn None) as [[-> H]|(ep & k & -> & _)]; [|done].
  intros [= <-]. split; [done|]. intros ep Hin [Hu Hlt]. specialize (H ep Hin Hu). lia.
Qed.

(** ** Facts: retries and round trips *)
Lemma Do_inv {S} (P : S -> Prop) retryIf (f : S -> option goerr * S) :
  (forall s, P s -> P (f s).2) -> forall n s, P s -> P (Do n retryIf f s).2.
Proof.
  intros Hf n. induction n as [|n IH]; intros s Hs; [done|]. cbn.
  specialize (Hf s Hs). destruct (f s) as [[err|] s']; [|done]. cbn in Hf.
  destruct (retryIf err); [|done]. destruct n; [done|]. by apply IH.
Qed.

Lemma Do_step {S} retryIf (f : S -> option goerr * S) n s :
  Do (Datatypes.S (Datatypes.S n)) retryIf f s =
  match f s with
  | (Some err, s') => if retryIf err then Do (Datatypes.S n) retryIf f s' else (Some err, s')
  | (None, s') => (None, s')
  end.
Proof. cbn. by destruct (f s) as [[err|] s']. Qed.

Section TransportFacts.
Context {W : Type} {Http : Network W} (config : nsx_config).
Definition conns (n : net W) : list Z := connnumber <$> endpoints n.
Lemma conns_upd f i n : (forall ep, connnumber (f ep) = connnumber ep) -> conns (upd f i n) = conns n.
Proof.
  intros Hf. unfold conns, upd. cbn. apply list_eq. intros k. rewrite !list_lookup_fmap.
  rewrite list_lookup_alter. destruct (decide (i = k)) as [<-|Hne]; [|done]. destruct (endpoints n !! i) as [ep|]; [exact (f_equal Some (Hf ep))|done].
Qed.
Lemma conns_with_world n w : conns (with_world n w) = conns n.
Proof. done. Qed.
Lemma conns_createAuthSession i n : conns (createAuthSession config i n).2 = conns n.
Proof.
  unfold createAuthSession. destruct (endpoints n !! i) as [ep|]; [|done]. case_match; [done|].
  destruct (post_session _ _ _ _) as [[s|e] w]; [|done]. case_match; [done|].
  destruct (readError _) as [e|]; [done|]. destruct (ses_Token s) as [token|]; [|done].
  cbn [snd]. rewrite conns_upd; [|done].
  change (conns (upd (setXSRFToken token) i (with_world n w)) = conns n). by rewrite conns_upd.
Qed.
Lemma conns_regenerate i n : conns (regenerate config i n) = conns n.
Proof. unfold regenerate. case_match; [done|apply conns_createAuthSession]. Qed.
Lemma conns_auth ep n h : conns (UpdateHttpRequestAuth config ep n h).2 = conns n.
Proof.
  unfold UpdateHttpRequestAuth. case_match; [destruct (Do _ _ _ _) as [[e|] [token w]]; done|].
  case_bool_decide; [|done]. by destruct (jar n).
Qed.
Lemma conns_read_response i ep start d resp n : conns (read_response config i ep start d resp n).2 = conns n.
Proof.
  unfold read_response. destruct (readError resp); [done|]. destruct (InitErrorFromResponse _ _ _ _).
  - cbn. case_match; [apply conns_regenerate|done].
  - by apply conns_upd.
Qed.
Lemma conns_send i ep t : conns (rt_net (send config i ep t).2) = conns (rt_net t).
Proof.
  unfold send. destruct (UpdateRequestURL _ _ _) as [u|]; [|done].
  pose proof (conns_auth ep (rt_net t) (req_Header (rt_req t))) as Ha.
  destruct (UpdateHttpRequestAuth _ _ _ _) as [[[err h]|] n]; [|done]. cbn [snd] in Ha.
  unfold clock. destruct (Now (world n)) as [t0 w0]. cbn [with_world endpoints limiter jar world].
  destruct (Now _) as [t1 w1]. cbn [with_world endpoints limiter jar world].
  destruct (base_RoundTrip _ _) as [[resp|e] w2]; cbn [with_world endpoints limiter jar world].
  - destruct (Now w2) as [t2 w3]. cbn [with_world endpoints limiter jar world].
    destruct (Now w3) as [t3 w4]. cbn [with_world endpoints limiter jar world].
    match goal with |- context [read_response ?c ?i ?ep ?s ?d ?r ?n] => pose proof (conns_read_response i ep s d r n) as Hr end.
    destruct (read_response _ _ _ _ _ _ _) as [err' n']. cbn in *. by rewrite Hr.
  - cbn [snd rt_net]. by rewrite conns_upd.
Qed.
Definition int32s (cs : list Z) : Prop := Forall (fun c => - 2 ^ 31 <= c < 2 ^ 31) cs.
Lemma wrap32_back c : - 2 ^ 31 <= c < 2 ^ 31 -> wrap32 (wrap32 (c + 1) + -1) = c.
Proof.
  intros Hc. unfold wrap32.
  replace ((c + 1 + 2 ^ 31) mod 2 ^ 32 - 2 ^ 31 + -1 + 2 ^ 31) with ((c + 1 + 2 ^ 31) mod 2 ^ 32 - 1) by lia.
  rewrite Zminus_mod_idemp_l. replace (c + 1 + 2 ^ 31 - 1) with (c + 2 ^ 31) by lia.
  rewrite Z.mod_small; lia.
Qed.
Lemma conns_addConn d i n : conns (upd (addConn d) i n) = alter (fun c => wrap32 (c + d)) i (conns n).
Proof. unfold conns, upd. cbn. apply list_fmap_alter. by apply Forall_forall. Qed.
Lemma conns_attempt t : int32s (conns (rt_net t)) -> conns (rt_net (attempt config t).2) = conns (rt_net t).
Proof.
  intros Hc. unfold attempt. destruct (selectEndpoint _) as [i|e]; [|done].
  destruct (endpoints (rt_net t) !! i) as [ep|] eqn:Ei; [|done].
  match goal with |- context [send ?c ?i ?ep ?t] => pose proof (conns_send i ep t) as Hs end.
  destruct (send _ _ _ _) as [err t']. cbn [snd rt_net] in *.
  unfold decreaseConnNumber, increaseConnNumber in *. rewrite conns_addConn, Hs, conns_addConn.
  apply list_eq. intros k. rewrite !list_lookup_alter. repeat (case_decide; [subst|done]).
  destruct (conns (rt_net t) !! k) as [c|] eqn:Ec; [|done].
  apply (f_equal Some), wrap32_back. by apply (Forall_lookup_1 _ _ k c Hc).
Qed.

(** A run whose selection succeeded leaves a response or an error of the
    transport, and not both, unless the goroutine panicked. *)
Definition settled (t : trip W) : Prop :=
  rt_panicked t = true \/ (rt_resp t <> None /\ rt_resul t = None) \/ (rt_resp t = None /\ rt_resul t <> None).
Lemma send_settled i ep t : settled (send config i ep t).2.
Proof.
  unfold send. destruct (UpdateRequestURL _ _ _) as [u|]; [|by left].
  destruct (UpdateHttpRequestAuth _ _ _ _) as [[[err h]|] n]; [|by left].
  destruct (clock n) as [t0 n0]. destruct (clock _) as [t1 n1].
  destruct (base_RoundTrip _ _) as [[resp|e] w2]; [|by right; right].
  destruct (clock _) as [t2 n2]. destruct (clock _) as [t3 n3].
  destruct (read_response _ _ _ _ _ _ _) as [err' n']. by right; left.
Qed.
Lemma attempt_cases t :
  (exists e, attempt config t = (Some e, t) /\ retryIf e = false /\ selectEndpoint (endpoints (rt_net t)) = Err e) \/
  (settled (attempt config t).2 /\ exists i, selectEndpoint (endpoints (rt_net t)) = Ok i).
Proof.
  unfold attempt. destruct (selectEndpoint _) as [i|e] eqn:E.
  - right. split; [|by exists i]. destruct (selectEndpoint_ok _ _ E) as (ep & Hi & _). rewrite Hi.
    match goal with |- context [send ?c ?i ?ep ?t] => pose proof (send_settled i ep t) as Hs end.
    by destruct (send _ _ _ _) as [err t'].
  - left. exists e. by destruct (selectEndpoint_err _ _ E) as [-> _].
Qed.
Lemma RoundTrip_settled r n :
  settled (RoundTrip config r n) \/
  (RoundTrip config r n = mkTrip n r None None false /\ forall ep, ep ∈ endpoints n -> ~ eligible ep).
Proof.
  unfold RoundTrip. set (t0 := mkTrip n r None None false).
  destruct (attempt_cases t0) as [(e & He & Hretry & Hsel)|[Hset _]].
  - right. unfold DefaultAttempts. rewrite Do_step, He, Hretry. split; [done|]. by apply (selectEndpoint_err _ e).
  - left. unfold DefaultAttempts. rewrite Do_step. destruct (attempt config t0) as [[err|] t1]; [|done].
    destruct (retryIf err); [|done]. apply (Do_inv settled); [|done].
    intros t Ht. destruct (attempt_cases t) as [(e & -> & _)|[Hs _]]; done.
Qed.

Definition exclusive (t : trip W) : Prop := ~ (rt_resp t <> None /\ rt_resul t <> None).
Lemma send_exclusive i ep t : exclusive t -> exclusive (send config i ep t).2.
Proof.
  intros Ht. unfold send. destruct (UpdateRequestURL _ _ _) as [u|]; [|done].
  destruct (UpdateHttpRequestAuth _ _ _ _) as [[[err h]|] n]; [|done].
  destruct (clock n) as [t0 n0]. destruct (clock _) as [t1 n1].
  destruct (base_RoundTrip _ _) as [[resp|e] w2]; [|by intros []].
  destruct (clock _) as [t2 n2]. destruct (clock _) as [t3 n3].
  destruct (read_response _ _ _ _ _ _ _) as [err' n']. by intros [].
Qed.
Lemma attempt_exclusive t : exclusive t -> exclusive (attempt config t).2.
Proof.
  intros Ht. unfold attempt. destruct (selectEndpoint _) as [i|e]; [|done].
  destruct (endpoints (rt_net t) !! i) as [ep|]; [|done].
  match goal with |- context [send ?c ?i ?ep ?t] => pose proof (send_exclusive i ep t Ht) as Hs end.
  by destruct (send _ _ _ _) as [err t'].
Qed.
Lemma RoundTrip_unavailable r n :
  (forall ep, ep ∈ endpoints n -> ~ eligible ep) -> RoundTrip config r n = mkTrip n r None None false.
Proof.
  intros Hno. unfold RoundTrip, DefaultAttempts. rewrite Do_step.
  destruct (attempt_cases (mkTrip n r None None false)) as [(e & -> & -> & _)|(_ & i & Hi)]; [done|].
  destruct (selectEndpoint_ok _ _ Hi) as (ep & Hl & He & _).
  destruct (Hno ep); [by eapply list_elem_of_lookup_2|done].
Qed.

(** C19. A request of the client, whatever the managers answer: every connection
    counter is back at its value when the round trip ends, also after a panic;
    it ends in a response or in an error, never both, except that the caller
    gets neither exactly when no manager was up with less than a hundred
    connections at the start, where the error of the selection is dropped. *)
Theorem RoundTrip_contract r n :
  int32s (conns n) ->
  let t := RoundTrip config r n in
  conns (rt_net t) = conns n /\
  ~ (rt_resp t <> None /\ rt_resul t <> None) /\
  (rt_panicked t = false ->
     (rt_resp t = None /\ rt_resul t = None <-> forall ep, ep ∈ endpoints n -> ~ eligible ep)).
Proof.
  intros Hn t. split; [|split].
  - apply (Do_inv (fun t => conns (rt_net t) = conns n)); [|done]. intros t' Ht'.
    rewrite conns_attempt; [done|by rewrite Ht'].
  - apply (Do_inv exclusive); [apply attempt_exclusive|]. by intros [].
  - intros Hp. destruct (RoundTrip_settled r n) as [H|[H Hno]]; fold t in H; [|by rewrite H].
    split; [|intros Hno; subst t; by rewrite RoundTrip_unavailable].
    intros [H1 H2]. destruct H as [H|[[H _]|[_ H]]]; congruence.
Qed.
End TransportFacts.

(** ** A concrete network: a script of answers, a clock that ticks *)
Module NetDemo.
Record script := mkScript { now : Z; answers : list (result string response); sent : list request }.
#[global] Instance scripted : Network script := {|
  Now s := (now s, mkScript (now s + 1000) (answers s) (sent s));
  limiter_wait _ s := s;
  base_RoundTrip r s :=
    match answers s with
    | [] => (Err "EOF", mkScript (now s) [] (sent s ++ [r]))
    | a :: answers' => (a, mkScript (now s) answers' (sent s ++ [r]))
    end;
  post_session _ _ _ s := (Err (EText "no session"), s);
  get_health _ _ s := (Err (EText "no health"), s);
  get_version _ _ s :=
    match answers s with
    | Ok r :: answers' => (Ok r, mkScript (now s + GetNsxVersionInterval) answers' (sent s))
    | _ => (Err (EText "no version"), s)
    end;
  GetToken _ s := (Ok "token", s);
  HeaderValue t := "Bearer " +:+ t;
  BasicAuth u p := "Basic " +:+ u +:+ ":" +:+ p;
  unmarshal_body b := Ok (mkResponseBody (if bool_decide (b = "") then 0 else 98) [] b);
  unmarshal_healthy _ := Ok true;
  unmarshal_version b := Ok (Some b);
  CertPemBytesToHeader ca := ca |}.
Definition demo_config : nsx_config := mkNsxConfig "admin" "pass" false true [] [] "" 0.
Definition manager (host : string) (s : EndpointStatus) (c : Z) : Endpoint := mkEndpoint host "https" s c "" 0 "" "" "" "" "".
Definition fleet (a b : EndpointStatus) (answers : list (result string response)) : net script :=
  mkNet [manager "10.0.0.1" a 7; manager "10.0.0.2" b 3] (NewRateLimiter true 0) None (mkScript 0 answers []).
Definition demo_request : request := mkRequest (mkUrl "10.0.0.1" "/policy/api/v1/infra") [].
(** The less busy manager refuses the connection; the other one answers. *)
Definition refused_then_ok : net script :=
  fleet UP UP [Err "dial tcp: connection refused"; Ok (mkResponse 200 "" None)].
Example refused_then_ok_trip :
  let t := RoundTrip demo_config demo_request refused_then_ok in
  (StatusCode <$> rt_resp t, ep_status <$> endpoints (rt_net t), conns (rt_net t), (length (sent (world (rt_net t)))))
  = (Some 200, [UP; DOWN], [7; 3], 2%nat).
Proof. vm_compute. reflexivity. Qed.
End NetDemo.
Lemma RoundTrip_contract_witness :
  int32s (conns NetDemo.refused_then_ok) /\
  conns (rt_net (RoundTrip NetDemo.demo_config NetDemo.demo_request NetDemo.refused_then_ok)) = conns NetDemo.refused_then_ok.
Proof.
  assert (H : int32s (conns NetDemo.refused_then_ok)) by (change (int32s [7; 3]); apply Forall_cons; split; [lia|]; apply Forall_singleton; lia).
  split; [exact H|]. exact (proj1 (RoundTrip_contract NetDemo.demo_config NetDemo.demo_request NetDemo.refused_then_ok H)).
Defined.
(** All managers down: neither a response nor an error. *)
Lemma RoundTrip_all_down :
  let t := RoundTrip NetDemo.demo_config NetDemo.demo_request (NetDemo.fleet DOWN DOWN []) in
  rt_resp t = None /\ rt_resul t = None /\ rt_panicked t = false.
Proof. vm_compute. done. Qed.
(** A retried request carries the authorization header once for each run. *)
Lemma RoundTrip_duplicates_auth :
  let t := RoundTrip NetDemo.demo_config NetDemo.demo_request NetDemo.refused_then_ok in
  length (filter (fun f => f.1 = "Authorization") (req_Header (rt_req t))) = 2%nat.
Proof. vm_compute. done. Qed.

(** ** Concurrent requests: goroutines that choose a manager, send and finish *)
Module Concurrent.
(** Where a goroutine is in [RoundTrip]: reading the status of manager [k],
    reading its connections, holding its choice, or between the increase and
    the decrease. *)
Inductive phase :=
  | Idle | Status (k : nat) (small : Z) (index : option nat) | Count (k : nat) (small : Z) (index : option nat)
  | Chosen (i : nat) | InFlight (i : nat).
#[global] Instance phase_eq_dec : EqDecision phase.
Proof. solve_decision. Defined.
Record pool := mkPool { managers : list Endpoint; threads : list phase }.
Definition goto (t : nat) (p : phase) (s : pool) : pool := mkPool (managers s) (<[t := p]> (threads s)).
Definition touch (f : Endpoint -> Endpoint) (i : nat) (s : pool) : pool := mkPool (alter f i (managers s)) (threads s).
(** What other code does to a manager meanwhile: answers and health checks. *)
Inductive environment : (Endpoint -> Endpoint) -> Prop :=
  | env_status s : environment (setStatus s)
  | env_token tok : environment (setXSRFToken tok)
  | env_alive t : environment (setAliveTime t)
  | env_login u p : environment (setUserPassword u p).
Inductive step : pool -> pool -> Prop :=
  | step_begin s t : threads s !! t = Some Idle -> step s (goto t (Status 0 maxConn None) s)
  | step_down s t k small index ep :
      threads s !! t = Some (Status k small index) -> managers s !! k = Some ep -> ep_status ep = DOWN ->
      step s (goto t (Status (k + 1) small index) s)
  | step_up s t k small index ep :
      threads s !! t = Some (Status k small index) -> managers s !! k = Some ep -> ep_status ep = UP ->
      step s (goto t (Count k small index) s)
  | step_less s t k small index ep :
      threads s !! t = Some (Count k small index) -> managers s !! k = Some ep -> connnumber ep < small ->
      step s (goto t (Status (k + 1) (connnumber ep) (Some k)) s)
  | step_more s t k small index ep :
      threads s !! t = Some (Count k small index) -> managers s !! k = Some ep -> small <= connnumber ep ->
      step s (goto t (Status (k + 1) small index) s)
  | step_none s t k small :
      threads s !! t = Some (Status k small None) -> managers s !! k = None -> step s (goto t Idle s)
  | step_some s t k small i :
      threads s !! t = Some (Status k small (Some i)) -> managers s !! k = None -> step s (goto t (Chosen i) s)
  | step_increase s t i : threads s !! t = Some (Chosen i) -> step s (touch increaseConnNumber i (goto t (InFlight i) s))
  | step_decrease s t i : threads s !! t = Some (InFlight i) -> step s (touch decreaseConnNumber i (goto t Idle s))
  | step_env s i f : environment f -> step s (touch f i s).
Definition in_flight (i : nat) (s : pool) : Z := Z.of_nat (length (filter (fun p => p = InFlight i) (threads s))).
Definition start (eps : list Endpoint) (n : nat) : pool := mkPool eps (replicate n Idle).

Definition counted (n : nat) (s : pool) : Prop :=
  length (threads s) = n /\
  forall i ep, managers s !! i = Some ep -> connnumber ep = in_flight i s.
Lemma count_insert (ts : list phase) t p q i :
  ts !! t = Some p ->
  Z.of_nat (length (filter (fun x => x = InFlight i) (<[t := q]> ts))) =
  Z.of_nat (length (filter (fun x => x = InFlight i) ts)) + (if bool_decide (q = InFlight i) then 1 else 0) - (if bool_decide (p = InFlight i) then 1 else 0).
Proof.
  revert t. induction ts as [|x ts IH]; intros [|t] Ht; [done..| |].
  - injection Ht as ->. change (<[0%nat := q]> (p :: ts)) with (q :: ts). rewrite !filter_cons. repeat case_decide; repeat case_bool_decide; cbn [length]; try congruence; lia.
  - specialize (IH t Ht). change (<[S t := q]> (x :: ts)) with (x :: <[t := q]> ts). rewrite !filter_cons. destruct (decide (x = InFlight i)); cbn [length]; lia.
Qed.
Lemma in_flight_bound i s : 0 <= in_flight i s <= Z.of_nat (length (threads s)).
Proof. unfold in_flight. split; [lia|]. apply inj_le, length_filter. Qed.
(** A move of a goroutine that is not in flight before and after. *)
Lemma counted_goto n s t p q :
  counted n s -> threads s !! t = Some p -> (forall i, p <> InFlight i) -> (forall i, q <> InFlight i) -> counted n (goto t q s).
Proof.
  intros [Hlen Hc] Ht Hp Hq. split; [cbn; by rewrite length_insert|].
  intros i ep Hi. rewrite (Hc i ep Hi). unfold in_flight. cbn. rewrite (count_insert _ _ p) by done.
  rewrite !bool_decide_eq_false_2 by auto. lia.
Qed.
Lemma counted_touch n s i f : counted n s -> (forall ep, connnumber (f ep) = connnumber ep) -> counted n (touch f i s).
Proof.
  intros [Hlen Hc] Hf. split; [done|]. intros j ep Hj. cbn in Hj. rewrite list_lookup_alter in Hj.
  case_decide; [subst j|by apply Hc].
  destruct (managers s !! i) as [ep0|] eqn:E; [|done]. injection Hj as <-. rewrite Hf. by apply Hc.
Qed.
Lemma counted_add n s t p q i d :
  Z.of_nat n < 2 ^ 31 -> counted n s -> threads s !! t = Some p ->
  (forall j, (if bool_decide (q = InFlight j) then 1 else 0) - (if bool_decide (p = InFlight j) then 1 else 0) = (if bool_decide (i = j) then d else 0)) ->
  counted n (touch (addConn d) i (goto t q s)).
Proof.
  intros Hn [Hlen Hc] Ht Hd. split; [cbn; by rewrite length_insert|].
  assert (Hin : forall j, in_flight j (goto t q s) = in_flight j s + (if bool_decide (i = j) then d else 0)).
  { intros j. rewrite <- Hd. unfold in_flight. cbn. rewrite (count_insert _ _ p) by done. lia. }
  intros j ep Hj. cbn in Hj. rewrite list_lookup_alter in Hj.
  change (in_flight j (touch (addConn d) i (goto t q s))) with (in_flight j (goto t q s)). specialize (Hin j).
  pose proof (in_flight_bound j (goto t q s)) as Hb. cbn [goto threads] in Hb. rewrite length_insert in Hb.
  case_decide as Hij; [subst j|].
  - destruct (managers s !! i) as [ep0|] eqn:E; [|done]. injection Hj as <-. rewrite bool_decide_eq_true_2 in Hin by done.
    cbn. rewrite (Hc i ep0 E), Hin. unfold wrap32. rewrite Z.mod_small; lia.
  - rewrite bool_decide_eq_false_2 in Hin by done. rewrite Hin, Z.add_0_r. by apply Hc.
Qed.
Lemma counted_step n s s' : Z.of_nat n < 2 ^ 31 -> counted n s -> step s s' -> counted n s'.
Proof.
  intros Hn Hc Hs. destruct Hs as [| | | | | | |s t i Ht|s t i Ht|s i f Hf].
  1-7: by eapply counted_goto.
  - eapply counted_add; [done..|]. intros j. repeat case_bool_decide; try lia; congruence.
  - eapply counted_add; [done..|]. intros j. repeat case_bool_decide; try lia; congruence.
  - apply counted_touch; [done|]. by destruct Hf.
Qed.

(** C20. Concurrent requests, health checks and sessions in any interleaving,
    reading a status and a counter at different moments: the connection counter of a manager is
    always the number of requests between its increase and its decrease, so it
    does not go below zero, does not wrap around and is zero when no request runs. *)
Theorem concurrent_counters eps n s :
  Z.of_nat n < 2 ^ 31 -> Forall (fun ep => connnumber ep = 0) eps -> rtc step (start eps n) s ->
  forall i ep, managers s !! i = Some ep ->
    connnumber ep = in_flight i s /\ 0 <= connnumber ep <= Z.of_nat n /\
    (Forall (fun p => p = Idle) (threads s) -> connnumber ep = 0).
Proof.
  intros Hn H0 Hr.
  assert (Hs : counted n (start eps n)).
  { split; [apply length_replicate|]. intros i ep Hi. rewrite (Forall_lookup_1 _ _ _ _ H0 Hi).
    unfold in_flight, start. cbn [threads]. clear. induction n as [|n IH]; [done|].
    change (replicate (S n) Idle) with (Idle :: replicate n Idle). rewrite filter_cons. by case_decide. }
  assert (Hc : counted n s) by (clear H0; induction Hr; [done|eauto using counted_step]).
  destruct Hc as [Hlen Hc]. intros i ep Hi. rewrite (Hc i ep Hi). split; [done|].
  pose proof (in_flight_bound i s). split; [lia|]. intros Hidle. unfold in_flight.
  destruct (filter (fun p => p = InFlight i) (threads s)) as [|p ps] eqn:E; [done|exfalso].
  assert (Hp : p ∈ filter (fun p => p = InFlight i) (threads s)) by (rewrite E; left).
  apply list_elem_of_filter in Hp as [-> Hp]. by rewrite Forall_forall in Hidle; specialize (Hidle _ Hp).
Qed.
Lemma concurrent_counters_witness :
  let eps := [NetDemo.manager "10.0.0.1" UP 0] in
  exists s, rtc step (start eps 2) s /\ connnumber <$> managers s = [1] /\
    (forall i ep, managers s !! i = Some ep -> connnumber ep = in_flight i s).
Proof.
  intros eps. eexists. split.
  - eapply rtc_l; [apply (step_begin _ 1); reflexivity|].
    eapply rtc_l; [eapply (step_up _ 1); reflexivity|].
    eapply rtc_l; [eapply (step_less _ 1); [reflexivity..|]; cbn; unfold maxConn; lia|].
    eapply rtc_l; [eapply (step_some _ 1); reflexivity|].
    eapply rtc_l; [eapply (step_increase _ 1); reflexivity|]. apply rtc_refl.
  - split; [reflexivity|]. intros i ep Hi.
    refine (proj1 (concurrent_counters eps 2 _ _ _ _ i ep Hi)); [lia|by repeat constructor|].
    eapply rtc_l; [apply (step_begin _ 1); reflexivity|].
    eapply rtc_l; [eapply (step_up _ 1); reflexivity|].
    eapply rtc_l; [eapply (step_less _ 1); [reflexivity..|]; cbn; unfold maxConn; lia|].
    eapply rtc_l; [eapply (step_some _ 1); reflexivity|].
    eapply rtc_l; [eapply (step_increase _ 1); reflexivity|]. apply rtc_refl.
Defined.
End Concurrent.

(** ** Facts: versions *)
Definition at_least (v m : Z * Z * Z) : Prop :=
  v.1.1 > m.1.1 \/ v.1.1 = m.1.1 /\ (v.1.2 > m.1.2 \/ v.1.2 = m.1.2 /\ v.2 >= m.2).
#[global] Instance at_least_dec v m : Decision (at_least v m).
Proof. unfold at_least. apply _. Defined.
Definition version_of (v : Z * Z * Z) : string := itoa v.1.1 +:+ "." +:+ itoa v.1.2 +:+ "." +:+ itoa v.2.
Definition int64s (v : Z * Z * Z) : Prop := 0 <= v.1.1 <= max_int64 /\ 0 <= v.1.2 <= max_int64 /\ 0 <= v.2 <= max_int64.
Lemma digits_no_dot s : all_bytes is_digit s = true -> contains_byte "." s = false.
Proof.
  intros H. apply all_bytes_no_sep. revert H. apply all_bytes_impl. intros a Ha. apply negb_true_iff, bool_decide_eq_false. by intros ->.
Qed.
Lemma digits_then_app k s t : all_bytes is_digit s = true -> s <> "" -> k t = true -> digits_then k (s +:+ t) = true.
Proof.
  intros Hs Hne Hk. induction s as [|a s IH]; [done|]. simpl in *. apply andb_prop in Hs as [Ha Hs]. rewrite Ha. simpl.
  destruct s as [|b s]; [by simpl; rewrite Hk|]. by rewrite IH, orb_true_r.
Qed.
Lemma Validate_version v : int64s v -> Validate (version_of v) = None.
Proof.
  intros (Ha & Hb & Hc). unfold Validate, version_of.
  destruct (itoa_digits v.1.1) as [Da Na]; [lia|]. destruct (itoa_digits v.1.2) as [Db Nb]; [lia|].
  destruct (itoa_digits v.2) as [Dc Nc]; [lia|].
  rewrite digits_then_app; [done..|]. cbn. rewrite digits_then_app; [done..|]. cbn.
  assert (He : forall s, s +:+ "" = s) by (induction s as [|x s IH]; simpl; congruence).
  rewrite <- (He (itoa v.2)). by rewrite digits_then_app.
Qed.
Lemma featureSupported_version v f : int64s v -> featureSupported (version_of v) f = bool_decide (at_least v (minVersion f)).
Proof.
  intros (Ha & Hb & Hc). unfold featureSupported, version_of.
  destruct (itoa_digits v.1.1) as [Da _]; [lia|]. destruct (itoa_digits v.1.2) as [Db _]; [lia|]. destruct (itoa_digits v.2) as [Dc _]; [lia|].
  change (itoa v.1.1 +:+ "." +:+ itoa v.1.2 +:+ "." +:+ itoa v.2) with (itoa v.1.1 +:+ String "." (itoa v.1.2 +:+ String "." (itoa v.2))).
  rewrite !split_on_app_sep, split_on_no_sep by (by apply digits_no_dot).
  cbn [length]. rewrite bool_decide_eq_false_2 by lia. cbn [mapM].
  rewrite !atoi_itoa by done. destruct (minVersion f) as [[a b] c]. unfold at_least. cbn.
  repeat case_bool_decide; cbn in *; try done; lia.
Qed.

(** The version gates: while the version read last is fresh and is three
    numbers, a feature is answered supported when it was found so before or when the version is
    at least the minimum of the feature, compared by major, minor and patch
    number; no request is sent, and what was answered is what [FeatureEnabled] gives afterwards. *)
Theorem version_gate {W} {Http : Network W} config ver f (n : net W) v :
  int64s ver -> nsxVersion v = version_of ver -> (Now (world n)).1 - lastTimeGetVersion v < GetNsxVersionInterval ->
  let '(answer, (n', v')) := NSXCheckVersion config f (n, v) in
  answer = Some (bool_decide (f ∈ supported v \/ at_least ver (minVersion f))) /\
  Some (FeatureEnabled f v') = answer /\ endpoints n' = endpoints n /\
  (world n' = world n \/ world n' = (Now (world n)).2).
Proof.
  intros Hv Hver Hfresh. unfold NSXCheckVersion. cbn [snd]. case_bool_decide as Hin.
  - unfold FeatureEnabled. rewrite !bool_decide_eq_true_2; auto.
  - assert (Hne : nsxVersion v <> "").
    { rewrite Hver. unfold version_of. destruct (itoa_digits ver.1.1) as [_ Hn]; [destruct Hv; lia|]. by destruct (itoa ver.1.1). }
    unfold GetVersion. rewrite (bool_decide_eq_true_2 (nsxVersion v <> "")) by done. unfold clock.
    destruct (Now (world n)) as [t w] eqn:En. cbn [fst] in Hfresh. rewrite bool_decide_eq_true_2 by done. cbn [andb].
    rewrite Hver, (Validate_version ver Hv), (featureSupported_version ver f Hv), (bool_decide_eq_true_2 (None = None)) by done.
    cbn [andb]. case_bool_decide as Hat; unfold FeatureEnabled; cbn; (split; [|split; [|auto]]).
    + rewrite bool_decide_eq_true_2; auto.
    + rewrite bool_decide_eq_true_2; [done|set_solver].
    + rewrite bool_decide_eq_false_2; [done|tauto].
    + by rewrite bool_decide_eq_false_2.
Qed.
Lemma version_gate_witness :
  let v := mkVersions "9.1.2" 0 ∅ in
  (NSXCheckVersion NetDemo.demo_config StatefulSetPod (NetDemo.fleet UP UP [], v)).1 = Some true /\
  (NSXCheckVersion NetDemo.demo_config RestoreVIF (NetDemo.fleet UP UP [], v)).1 = Some false.
Proof.
  intros v. split.
  - pose proof (version_gate NetDemo.demo_config (9, 1, 2) StatefulSetPod (NetDemo.fleet UP UP []) v) as H.
    destruct (NSXCheckVersion _ _ _) as [answer [n' v']]. refine (proj1 (H _ _ _)); [repeat split; cbn; unfold max_int64; lia|reflexivity|reflexivity].
  - vm_compute. reflexivity.
Defined.

(** The dots of the version pattern stand for any byte. *)
Lemma Validate_unescaped : Validate "12345" = None /\ Validate "4.1.2-x" = None /\ featureSupported "4.1.2-x" SecurityPolicy = false.
Proof. vm_compute. done. Qed.
(** A failed refresh forgets the version; a lower version read afterwards is not
    seen as a change, and a feature that it does not support stays enabled. *)
Definition stale_run : list (option bool) * bool :=
  let bad := Ok (mkResponse 503 "" None) in
  let n := NetDemo.fleet UP UP [bad; Ok (mkResponse 200 "4.1.1" None)] in
  let s0 := (n, mkVersions "9.2.0" (- GetNsxVersionInterval) {[IPv6]}) in
  let '(a1, s1) := NSXCheckVersion NetDemo.demo_config VPC s0 in
  let '(a2, s2) := NSXCheckVersion NetDemo.demo_config VPC s1 in
  ([a1; a2], FeatureEnabled IPv6 s2.2 && negb (featureSupported (nsxVersion s2.2) IPv6)).
Lemma GetVersion_forgets : stale_run = ([Some false; Some true], true).
Proof. vm_compute. reflexivity. Qed.
(** A manager without a port has no colon in its address. *)
Lemma getThumbprint_panics : getThumbprint NetDemo.demo_config [NetDemo.manager "10.0.0.1" UP 0] "10.0.0.1" = None.
Proof. reflexivity. Qed.
