(* ===== verification/Subnet.v ===== *)
(** * pkg/nsx/services/subnet: building, comparing and mapping NSX Subnets

    builder.go, compare.go, store.go and the parts of subnet.go that turn the
    Subnet and SubnetSet objects of Kubernetes into VpcSubnets of NSX and back. *)
From S2P Require Import Prelude GoStrings Errors NsxUtil IPUtil Names Interfaces Compare.

(** ** VpcSubnet: the fields that the operator reads and writes. An empty list
    is an absent one. *)
Record StaticIpAllocation := mkStaticIp { sia_Enabled : option bool; sia_PoolRanges : list string }.
Record AdvancedConfig := mkAdvanced {
  ac_GatewayAddresses : list string; ac_DhcpServerAddresses : list string;
  ac_ConnectivityState : option string; ac_StaticIpAllocation : option StaticIpAllocation }.
(** A DHCP configuration: the mode and the reserved ranges of the additional
    configuration of the server, when there is one. *)
Record DhcpConfig := mkDhcp { dc_Mode : option string; dc_Reserved : option (list string) }.
Record NsxSubnet := mkNsxSubnet {
  s_Id : string; s_DisplayName : option string; s_AccessMode : option string; s_Tags : list Tag;
  s_AdvancedConfig : option AdvancedConfig; s_Dhcp : option DhcpConfig; s_Dhcpv6 : option DhcpConfig;
  s_Ipv4SubnetSize : option Z; s_Ipv6PrefixLength : option Z; s_IpAddresses : list string;
  s_IpAddressType : option string; s_IpBlocks : list string; s_Description : option string;
  s_VlanConnection : option string; s_Path : option string; s_ParentPath : option string; s_MarkedForDelete : option bool }.
#[global] Instance StaticIpAllocation_eq_dec : EqDecision StaticIpAllocation.
Proof. solve_decision. Defined.
#[global] Instance AdvancedConfig_eq_dec : EqDecision AdvancedConfig.
Proof. solve_decision. Defined.
#[global] Instance DhcpConfig_eq_dec : EqDecision DhcpConfig.
Proof. solve_decision. Defined.
#[global] Instance NsxSubnet_eq_dec : EqDecision NsxSubnet.
Proof. solve_decision. Defined.

(** ** The objects of Kubernetes *)
Record Condition := mkCondition { cond_Type : string; cond_Status : string; cond_Message : string; cond_Reason : string }.
#[global] Instance Condition_eq_dec : EqDecision Condition.
Proof. solve_decision. Defined.
Record meta := mkMeta { m_Name : string; m_Namespace : string; m_UID : string; m_Labels : gmap string string; m_Annotations : gmap string string }.
Record SubnetSpec := mkSubnetCRSpec {
  sp_VPCName : string; sp_IPAddressType : string; sp_IPv4SubnetSize : Z; sp_IPv6PrefixLength : Z; sp_AccessMode : string;
  sp_IPAddresses : list string; sp_DHCPMode : string; sp_DHCPReserved : list string; sp_DHCPv6Mode : string;
  sp_DHCPv6Reserved : list string; sp_ConnectivityState : string; sp_StaticEnabled : option bool; sp_PoolRanges : list string;
  sp_GatewayAddresses : list string; sp_DHCPServerAddresses : list string; sp_VLANConnectionName : string;
  sp_Description : string; sp_IPBlockNames : list string }.
(** The VLAN identifier and the connection of the gateway. *)
Definition VLANExtension : Type := Z * bool.
Record SubnetStatus := mkSubnetStatus {
  st_NetworkAddresses : list string; st_GatewayAddresses : list string; st_DHCPServerAddresses : list string;
  st_VLANExtension : VLANExtension; st_Shared : bool; st_Conditions : list Condition }.
Record SubnetCR := mkSubnetCR { sub_meta : meta; sub_spec : SubnetSpec; sub_status : SubnetStatus }.
Record SubnetInfo := mkSubnetInfo { si_NetworkAddresses : list string; si_GatewayAddresses : list string; si_DHCPServerAddresses : list string }.
#[global] Instance SubnetInfo_eq_dec : EqDecision SubnetInfo.
Proof. solve_decision. Defined.
Record SubnetSetCR := mkSubnetSetCR {
  ss_meta : meta; ss_IPAddressType : string; ss_IPv4SubnetSize : Z; ss_IPv6PrefixLength : Z; ss_AccessMode : string;
  ss_DHCPMode : string; ss_DHCPv6Mode : string; ss_Conditions : list Condition; ss_Subnets : list SubnetInfo }.
(** [client.Object], with the types the service switches on. *)
Inductive k8s_object := OSubnet (o : SubnetCR) | OSubnetSet (o : SubnetSetCR) | OOther (m : meta).
Definition obj_meta (o : k8s_object) : meta :=
  match o with OSubnet o => sub_meta o | OSubnetSet o => ss_meta o | OOther m => m end.

(** ** Tags *)
Definition TagScopeSubnetCRUID := "nsx-op/subnet_uid".
Definition TagScopeSubnetCRName := "nsx-op/subnet_name".
Definition TagScopeSubnetSetCRUID := "nsx-op/subnetset_uid".
Definition TagScopeSubnetSetCRName := "nsx-op/subnetset_name".
Definition TagScopeVMNamespaceUID := "nsx-op/vm_namespace_uid".
Definition TagScopeVMNamespace := "nsx-op/vm_namespace".
Definition TagScopeNamespaceUID := "nsx-op/namespace_uid".
Definition TagNamespaceScope := "nsx-op/namespace".
Definition MaxTagsCount : nat := 26.
Definition MaxSubnetNameLength : Z := 80.
Definition tag_scope_is (scope : string) (t : Tag) : Prop := tag_Scope t = Some scope.
#[global] Instance tag_scope_is_dec scope t : Decision (tag_scope_is scope t).
Proof. unfold tag_scope_is. apply _. Defined.
(** The tags of stored Subnets have both fields; a missing one would panic. *)
Definition filterTag (tags : list Tag) (tagScope : string) : list string :=
  map (fun t => default "" (tag_Tag t)) (filter (tag_scope_is tagScope) tags).
Definition label_tags (labels : gmap string string) : list Tag :=
  map (fun k => newTag k (default "" (labels !! k))) (sets_List (dom labels)).
Definition getNamespaceUUID (tags : list Tag) : string :=
  match filterTag tags TagScopeVMNamespaceUID with
  | v :: _ => v
  | [] => default "" (head (filterTag tags TagScopeNamespaceUID))
  end.
(** The Namespaces with a VLAN backed VPC ([NetworkStack] of the first VPC of
    the first NetworkInfo): the lists of network stacks by NetworkInfo. *)
Definition IsNamespaceInTepLessMode (listed : result goerr (list (list string))) : result goerr bool :=
  match listed with
  | Err e => Err (EText "failed to list NetworkInfo")
  | Ok [] => Err (EText "no NetworkInfo found in namespace")
  | Ok ([] :: _) => Err (EText "no VPC found in NetworkInfo for namespace")
  | Ok ((stack :: _) :: _) =>
      if bool_decide (stack = "") then Err (EText "NetworkStack is not set in NetworkInfo CRD")
      else Ok (bool_decide (stack = "VLANBackedVPC"))
  end.
Definition object_kind (o : k8s_object) : tagged :=
  match o with OSubnet _ => TSubnet | OSubnetSet _ => TSubnetSet | OOther _ => TOther end.
Definition buildBasicTags (cluster : string) (o : k8s_object) : list Tag :=
  BuildBasicTags cluster (object_kind o) (m_Namespace (obj_meta o)) (m_Name (obj_meta o)) (m_UID (obj_meta o)) "".
Definition buildSubnetTags (cluster : string) (tepLess : result goerr bool) (o : k8s_object) (tags : list Tag)
  : result goerr (list Tag) :=
  let tags := buildBasicTags cluster o ++ tags in
  match tepLess with
  | Err e => Err e
  | Ok b =>
      let tags := if b : bool then tags ++ [newTag "ENABLED" "WCP_L3_SUBNET_IN_VLAN_BACKED_VPC_MODE"] else tags in
      let tags := tags ++ label_tags (m_Labels (obj_meta o)) in
      if bool_decide (MaxTagsCount < length tags)%nat
      then Err (EText ("tags cannot exceed maximum size 26, tags length: " +:+ itoa (Z.of_nat (length tags))))
      else Ok tags
  end.
(** The tags of a Namespace: [None] when the Namespace cannot be read. *)
Definition is_default_pod_subnetset (labels : gmap string string) : bool :=
  let v := match labels !! "nsxoperator.vmware.com/default-subnetset-for" with Some v => bool_decide (v = "Pod") | None => false end in
  match labels !! "nsx.vmware.com/default-network" with Some v => bool_decide (v = "pod") | None => v end.
Definition GenerateSubnetNSTags (namespace : option (string * gmap string string)) (o : k8s_object) : list Tag :=
  match namespace with
  | None => []
  | Some (nsUID, labels) =>
      let ns := m_Namespace (obj_meta o) in
      let vm := [newTag TagScopeVMNamespaceUID nsUID; newTag TagScopeVMNamespace ns] in
      [newTag "nsx/managed-by" "nsx-op"] ++
      match o with
      | OSubnet _ => vm
      | OSubnetSet _ =>
          if is_default_pod_subnetset (m_Labels (obj_meta o))
          then [newTag TagScopeNamespaceUID nsUID; newTag TagNamespaceScope ns] else vm
      | OOther _ => []
      end ++ label_tags labels
  end.

(** ** Modes, address types and IP blocks *)
Definition AccessModeProject := "PrivateTGW".
Definition AccessModeProjectInNSX := "Private_TGW".
Definition convertAccessMode (accessMode : string) : string :=
  if bool_decide (accessMode = AccessModeProject) then AccessModeProjectInNSX else accessMode.
Definition ConvertCRIPAddressTypeToNSX (crType : string) : string :=
  if bool_decide (crType = "IPv6") then "IPV6" else if bool_decide (crType = "IPv4IPv6") then "IPV4_IPV6" else "IPV4".
Definition ConvertNSXIPAddressTypeToCR (nsxType : string) : string :=
  if bool_decide (nsxType = "IPV6") then "IPv6" else if bool_decide (nsxType = "IPV4_IPV6") then "IPv4IPv6" else "IPv4".
(** A mode that is not set is deactivated. *)
Definition dhcp_default (mode : string) : string := if bool_decide (mode = "") then "DHCPDeactivated" else mode.
Definition buildSubnetDHCPConfig (mode : string) (reserved : option (list string)) : DhcpConfig :=
  mkDhcp (Some (ParseDHCPMode mode)) reserved.
Definition buildSubnetDHCPv6Config (mode : string) (reserved : option (list string)) : DhcpConfig :=
  mkDhcp (Some (ParseDHCPMode mode)) reserved.
Definition reserved_ranges (l : list string) : option (list string) := match l with [] => None | _ => Some l end.
Definition has_space (s : string) : bool :=
  contains_byte " " s || contains_byte "009" s || contains_byte "010" s || contains_byte "013" s.
Definition ip_block_path (vpcInfo : option VPCResourceInfo) (rawName : string) : result goerr string :=
  let name := trim_space rawName in
  if bool_decide (name = "") || has_space name
  then Err (EText ("invalid IPBlock name " +:+ quoted rawName +:+ ": must not be empty or contain spaces, tabs, or newlines"))
  else
    if has_prefix ":" name then
      let blockID := trim_space (drop_str 1 name) in
      if bool_decide (blockID = "")
      then Err (EText ("invalid infra IPBlock name " +:+ quoted rawName +:+ ": block ID after ':' cannot be empty"))
      else Ok ("/infra/ip-blocks/" +:+ blockID)
    else
      match vpcInfo with
      | Some i =>
          if bool_decide (OrgID i = "") || bool_decide (ProjectID i = "")
          then Err (EText ("org or project info is missing to build path for IPBlock " +:+ name))
          else Ok ("/orgs/" +:+ OrgID i +:+ "/projects/" +:+ ProjectID i +:+ "/infra/ip-blocks/" +:+ name)
      | None => Err (EText ("org or project info is missing to build path for IPBlock " +:+ name))
      end.
Fixpoint buildIPBlockPaths (ipBlockNames : list string) (vpcInfo : option VPCResourceInfo) : result goerr (list string) :=
  match ipBlockNames with
  | [] => Ok []
  | n :: names =>
      match ip_block_path vpcInfo n with
      | Err e => Err e
      | Ok p => match buildIPBlockPaths names vpcInfo with Err e => Err e | Ok ps => Ok (p :: ps) end
      end
  end.
Definition ip_block_name (path : string) : string :=
  let blockID := default "" (last (split_on "/" (trim_byte "/" path))) in
  if has_prefix "/infra/" path then ":" +:+ blockID else blockID.
Definition IPBlockPathsToNames (ipBlockPaths : list string) : list string := map ip_block_name ipBlockPaths.

(** ** Building (builder.go) *)
Section Builder.
Context (cluster : string).
(** [NSXCheckVersion(nsx.IPv6)] *)
Context (ipv6 : bool).
(** Identifiers and names that the store has; random UUIDs and how often they
    are tried; the random index of a Subnet of a SubnetSet. *)
Context (idExists nameExists : string -> bool) (uuids : nat -> string) (fuel : nat) (index : string).
Definition BuildSubnetID (obj : object) : option string := BuildUniqueIDWithRandomUUID GenerateIDByObject idExists uuids fuel obj.
Definition BuildSubnetName (obj : object) : option string :=
  BuildUniqueIDWithSuffix GenerateIDByObject nameExists uuids fuel obj "" MaxSubnetNameLength.
Definition buildSubnetSetID (obj : object) : option string :=
  BuildUniqueIDWithSuffix GenerateIDByObject idExists uuids fuel obj index MaxIdLength.
Definition buildSubnetSetName (obj : object) : option string :=
  BuildUniqueIDWithSuffix GenerateIDByObject nameExists uuids fuel obj index MaxSubnetNameLength.

Definition trimmed_ranges (l : list string) : list string := filter (fun t => t <> "") (map trim_space l).
Definition connectivity (state : string) : option string :=
  if bool_decide (state = "Connected") then Some "CONNECTED"
  else if bool_decide (state = "Disconnected") then Some "DISCONNECTED" else None.
Definition positive (n : Z) : option Z := if bool_decide (0 < n) then Some n else None.
Definition dhcp_server_mode (s : SubnetSpec) : bool :=
  bool_decide (sp_DHCPMode s = "DHCPServer") || bool_decide (sp_DHCPv6Mode s = "DHCPServer") || bool_decide (sp_DHCPv6Mode s = "DHCPServerStateless").
(** The Subnet of a Subnet CR with identifier, name, tags and blocks. *)
Definition subnet_of_spec (o : SubnetCR) (id name : string) (tags : list Tag) (ipBlocks : list string) : NsxSubnet :=
  let s := sub_spec o in
  let static := default (GetDefaultStaticIPAllocation (mkSubnetSpec (sp_DHCPMode s) (sp_DHCPv6Mode s) (sp_IPAddressType s))) (sp_StaticEnabled s) in
  let v4 := IPAddressTypeIncludesIPv4 (sp_IPAddressType s) in
  let v6 := IPAddressTypeIncludesIPv6 (sp_IPAddressType s) in
  mkNsxSubnet id (Some name) (Some (convertAccessMode (Capitalize (sp_AccessMode s)))) tags
    (Some (mkAdvanced (sp_GatewayAddresses s) (if dhcp_server_mode s then sp_DHCPServerAddresses s else [])
       (connectivity (sp_ConnectivityState s)) (Some (mkStaticIp (Some static) (trimmed_ranges (sp_PoolRanges s))))))
    (if v4 then Some (buildSubnetDHCPConfig (dhcp_default (sp_DHCPMode s)) (reserved_ranges (sp_DHCPReserved s))) else None)
    (if v6 then Some (buildSubnetDHCPv6Config (dhcp_default (sp_DHCPv6Mode s)) (reserved_ranges (sp_DHCPv6Reserved s))) else None)
    (if v4 then positive (sp_IPv4SubnetSize s) else None) (if v6 then positive (sp_IPv6PrefixLength s) else None)
    (match sp_IPAddresses s with [] => st_NetworkAddresses (sub_status o) | l => l end)
    (if bool_decide (sp_IPAddressType s <> "") && ipv6 then Some (ConvertCRIPAddressTypeToNSX (sp_IPAddressType s)) else None)
    ipBlocks (Some (sp_Description s)) None None None None.
Definition subnet_of_set (o : SubnetSetCR) (id name : string) (tags : list Tag) (ipAddresses : list string) : NsxSubnet :=
  let static := GetDefaultStaticIPAllocation (mkSubnetSpec (ss_DHCPMode o) (ss_DHCPv6Mode o) (ss_IPAddressType o)) in
  let v4 := IPAddressTypeIncludesIPv4 (ss_IPAddressType o) in
  let v6 := IPAddressTypeIncludesIPv6 (ss_IPAddressType o) in
  mkNsxSubnet id (Some name) (Some (convertAccessMode (Capitalize (ss_AccessMode o)))) tags
    (Some (mkAdvanced [] [] None (Some (mkStaticIp (Some static) []))))
    (if v4 then Some (buildSubnetDHCPConfig (dhcp_default (ss_DHCPMode o)) None) else None)
    (if v6 then Some (buildSubnetDHCPv6Config (dhcp_default (ss_DHCPv6Mode o)) None) else None)
    (if v4 then positive (ss_IPv4SubnetSize o) else None) (if v6 then positive (ss_IPv6PrefixLength o) else None)
    ipAddresses
    (if bool_decide (ss_IPAddressType o <> "") && ipv6 then Some (ConvertCRIPAddressTypeToNSX (ss_IPAddressType o)) else None)
    [] None None None None None.
(** [None]: a panic of the identifiers, or their fuel is used up. *)
Definition buildSubnet (tepLess : result goerr bool) (obj : k8s_object) (tags : list Tag) (ipAddresses : list string)
    (vpcInfo : option VPCResourceInfo) : option (result goerr NsxSubnet) :=
  match buildSubnetTags cluster tepLess obj tags with
  | Err e => Some (Err e)
  | Ok tags =>
      let forId := mkObject (m_Name (obj_meta obj)) (getNamespaceUUID tags) in
      match obj with
      | OSubnet o =>
          id ← BuildSubnetID forId;
          name ← BuildSubnetName forId;
          Some (match buildIPBlockPaths (sp_IPBlockNames (sub_spec o)) vpcInfo with
                | Err e => Err e
                | Ok ipBlocks => Ok (subnet_of_spec o id name tags ipBlocks)
                end)
      | OSubnetSet o =>
          id ← buildSubnetSetID forId;
          name ← buildSubnetSetName forId;
          Some (Ok (subnet_of_set o id name tags ipAddresses))
      | OOther _ => Some (Err (EText "unsupported type"))
      end
  end.
End Builder.

(** ** Comparison (compare.go): the fields that are compared *)
Definition compared (s : NsxSubnet) : NsxSubnet :=
  mkNsxSubnet "" None None (s_Tags s) (s_AdvancedConfig s) (s_Dhcp s) (s_Dhcpv6 s) None None [] (s_IpAddressType s) []
    (s_Description s) None None None None.
(** [encode] is the JSON encoder of the SDK. *)
Class SubnetEncoder := { encode_subnet : NsxSubnet -> string }.
#[global] Instance subnet_comparable `{SubnetEncoder} : Comparable NsxSubnet :=
  { Key := s_Id; Value s := encode_subnet (compared s) }.

(** ** Index functions (store.go) *)
Definition subnetIndexFunc (s : NsxSubnet) : list string := filterTag (s_Tags s) TagScopeSubnetCRUID.
Definition subnetSetIndexFunc (s : NsxSubnet) : list string := filterTag (s_Tags s) TagScopeSubnetSetCRUID.
Definition subnetIndexVMNamespaceFunc (s : NsxSubnet) : list string := filterTag (s_Tags s) TagScopeVMNamespace.
Definition subnetIndexNamespaceFunc (s : NsxSubnet) : list string := filterTag (s_Tags s) TagNamespaceScope.
Definition subnetIndexNameFunc (s : NsxSubnet) : list string := option_list (s_DisplayName s).
(** The path of the VPC is the parent path of its Subnets. *)
Definition subnetIndexVPCFunc (s : NsxSubnet) : list string := option_list (s_ParentPath s).

(** ** From NSX to the Subnet CR (subnet.go) *)
Definition cr_access_mode (m : string) : string :=
  if bool_decide (m = "Private_TGW") then "PrivateTGW" else if bool_decide (m = "L2_Only") then "L2Only" else m.
Definition cr_dhcp_mode (m : string) : string :=
  if bool_decide (m = "DHCP_SERVER") then "DHCPServer" else if bool_decide (m = "DHCP_RELAY") then "DHCPRelay" else "DHCPDeactivated".
Definition cr_dhcpv6_mode (m : string) : string :=
  if bool_decide (m = "DHCP_SERVER") then "DHCPServer" else if bool_decide (m = "DHCP_RELAY") then "DHCPRelay"
  else if bool_decide (m = "DHCP_SERVER_STATELESS") then "DHCPServerStateless" else "DHCPDeactivated".
(** The mode and the reserved ranges: those of the CR stay unless NSX has a
    server with ranges. *)
Definition map_dhcp (convert : string -> string) (included : bool) (dhcp : option DhcpConfig) (mode : string) (reserved : list string)
  : string * list string :=
  match dhcp ≫= dc_Mode with
  | Some m =>
      (convert m,
       if bool_decide (m = "DHCP_SERVER") then match dhcp ≫= dc_Reserved with Some (r :: rs) => r :: rs | _ => reserved end else reserved)
  | None => (if included then "DHCPDeactivated" else mode, reserved)
  end.
Definition MapNSXSubnetToSubnetCR (s : SubnetSpec) (n : NsxSubnet) : SubnetSpec :=
  let ipType := match s_IpAddressType n with Some t => ConvertNSXIPAddressTypeToCR t | None => "IPv4" end in
  let '(m4, r4) := map_dhcp cr_dhcp_mode (IPAddressTypeIncludesIPv4 ipType) (s_Dhcp n) (sp_DHCPMode s) (sp_DHCPReserved s) in
  let '(m6, r6) := map_dhcp cr_dhcpv6_mode (IPAddressTypeIncludesIPv6 ipType) (s_Dhcpv6 n) (sp_DHCPv6Mode s) (sp_DHCPv6Reserved s) in
  let adv := s_AdvancedConfig n in
  let static := adv ≫= ac_StaticIpAllocation in
  let state := default "" (adv ≫= ac_ConnectivityState) in
  mkSubnetCRSpec (sp_VPCName s) ipType (default 0 (s_Ipv4SubnetSize n)) (default (sp_IPv6PrefixLength s) (s_Ipv6PrefixLength n))
    (match s_AccessMode n with Some m => cr_access_mode m | None => sp_AccessMode s end) (s_IpAddresses n) m4 r4 m6 r6
    (if bool_decide (state = "CONNECTED") then "Connected" else if bool_decide (state = "DISCONNECTED") then "Disconnected" else "")
    (Some (default false (static ≫= sia_Enabled))) (from_option sia_PoolRanges [] static)
    (from_option ac_GatewayAddresses [] adv) (from_option ac_DhcpServerAddresses [] adv)
    (match s_VlanConnection n with Some p => default "" (last (split_on "/" p)) | None => "" end)
    (default "" (s_Description n)) (sp_IPBlockNames s).
(** A status of NSX: addresses and the VLAN extension. *)
Record VpcSubnetStatus := mkVpcSubnetStatus {
  vs_NetworkAddress : option string; vs_GatewayAddress : option string; vs_DhcpServerAddress : option string;
  vs_VlanExtension : option (option Z * option bool) }.
Definition MapNSXSubnetStatusToSubnetCRStatus (annotations : gmap string string) (st : SubnetStatus) (l : list VpcSubnetStatus) : SubnetStatus :=
  mkSubnetStatus (omap vs_NetworkAddress l) (omap vs_GatewayAddress l) (omap vs_DhcpServerAddress l)
    (foldl (fun v s => match vs_VlanExtension s with Some (id, conn) => (default 0 id, default false conn) | None => v end) (0, false) l)
    (st_Shared st || IsSharedSubnet annotations) (st_Conditions st).
Definition BuildSubnetCR (ns subnetName vpcFullID associatedName : string) (n : option NsxSubnet) : SubnetCR :=
  let spec := mkSubnetCRSpec vpcFullID "" 0 0 "" [] "" [] "" [] "" None [] [] [] "" "" [] in
  mkSubnetCR (mkMeta subnetName ns "" ∅ {["nsx.vmware.com/associated-resource" := associatedName]})
    (match n with Some n => MapNSXSubnetToSubnetCR spec n | None => spec end)
    (mkSubnetStatus [] [] [] (0, false) false []).

(** ** Merging with the Subnet of the store *)
Definition is_v6 (addr : string) : bool := if contains_byte "/" addr then IsIPv6CIDR addr else IsIPv6 addr.
Definition splitAddressesByIPType (addresses : list string) : list string * list string :=
  (filter (fun a => is_v6 a = false) addresses, filter (fun a => is_v6 a = true) addresses).
Definition mergeAddresses (existing building : list string) : list string :=
  let '(existingV4, existingV6) := splitAddressesByIPType existing in
  let '(buildingV4, buildingV6) := splitAddressesByIPType building in
  (match buildingV4 with [] => existingV4 | l => l end) ++ (match buildingV6 with [] => existingV6 | l => l end).
Definition mergeIPBlocks (existing building : list string) : list string :=
  match existing, building with
  | [], _ => building
  | _, [] => existing
  | _, _ => sets_List (list_to_set existing ∪ list_to_set building)
  end.
Definition getUpdatedSubnetSizesAndPrefixes (existing : NsxSubnet) (newSize newPrefix : option Z) (newIPType : string) : option Z * option Z :=
  let oldIPType := match s_IpAddressType existing with Some t => ConvertNSXIPAddressTypeToCR t | None => "IPv4" end in
  if bool_decide (oldIPType = "IPv4") && bool_decide (newIPType = "IPv4IPv6") then (s_Ipv4SubnetSize existing, newPrefix)
  else if bool_decide (oldIPType = "IPv6") && bool_decide (newIPType = "IPv4IPv6") then (newSize, s_Ipv6PrefixLength existing)
  else (s_Ipv4SubnetSize existing, s_Ipv6PrefixLength existing).
Definition gateways (s : NsxSubnet) : list string := from_option ac_GatewayAddresses [] (s_AdvancedConfig s).
Definition dhcpServers (s : NsxSubnet) : list string := from_option ac_DhcpServerAddresses [] (s_AdvancedConfig s).
Definition poolRanges (s : NsxSubnet) : list string := from_option sia_PoolRanges [] (s_AdvancedConfig s ≫= ac_StaticIpAllocation).
(** The built Subnet with the identity of the existing one and the addresses of
    the families it does not set. *)
Definition merged_advanced (existing built : NsxSubnet) : option AdvancedConfig :=
  let g := mergeAddresses (gateways existing) (gateways built) in
  let d := mergeAddresses (dhcpServers existing) (dhcpServers built) in
  if bool_decide (g = []) && bool_decide (d = []) then s_AdvancedConfig built
  else
    Some (mkAdvanced g d (s_AdvancedConfig built ≫= ac_ConnectivityState) (s_AdvancedConfig built ≫= ac_StaticIpAllocation)).
Definition merged (existing built : NsxSubnet) : NsxSubnet :=
  mkNsxSubnet (s_Id existing) (s_DisplayName existing) (s_AccessMode built) (s_Tags built) (merged_advanced existing built)
    (s_Dhcp built) (s_Dhcpv6 built) (s_Ipv4SubnetSize built) (s_Ipv6PrefixLength built)
    (mergeAddresses (s_IpAddresses existing) (s_IpAddresses built)) (s_IpAddressType built)
    (mergeIPBlocks (s_IpBlocks existing) (s_IpBlocks built)) (s_Description built) (s_VlanConnection built) (s_Path built) (s_ParentPath built)
    (s_MarkedForDelete built).
(** The existing Subnet with the fields that may change. *)
Definition updated (existing m : NsxSubnet) (newIPType : string) : NsxSubnet :=
  let '(size, prefix) := getUpdatedSubnetSizesAndPrefixes existing (s_Ipv4SubnetSize m) (s_Ipv6PrefixLength m) newIPType in
  mkNsxSubnet (s_Id existing) (s_DisplayName existing) (s_AccessMode m) (s_Tags m)
    (match s_AdvancedConfig m with Some a => Some a | None => s_AdvancedConfig existing end)
    (s_Dhcp m) (s_Dhcpv6 m) size prefix (s_IpAddresses m) (s_IpAddressType m) (s_IpBlocks m) (s_Description m)
    (s_VlanConnection existing) (s_Path existing) (s_ParentPath existing) (s_MarkedForDelete existing).
(** The same for a Subnet that is restored: AdvancedConfig, blocks and description stay. *)
Definition restored (existing built : NsxSubnet) (newIPType : string) : NsxSubnet :=
  let '(size, prefix) := getUpdatedSubnetSizesAndPrefixes existing (s_Ipv4SubnetSize built) (s_Ipv6PrefixLength built) newIPType in
  mkNsxSubnet (s_Id existing) (s_DisplayName existing) (s_AccessMode built) (s_Tags built) (s_AdvancedConfig existing)
    (s_Dhcp built) (s_Dhcpv6 built) size prefix (s_IpAddresses built) (s_IpAddressType built) (s_IpBlocks existing)
    (s_Description existing) (s_VlanConnection existing) (s_Path existing) (s_ParentPath existing) (s_MarkedForDelete existing).

(** ** Facts: addresses *)
(** The addresses of one family, and what a merge leaves of them. *)
Definition family (v6 : bool) (l : list string) : list string := filter (fun a => is_v6 a = v6) l.
Definition preferred (building existing : list string) : list string := match building with [] => existing | l => l end.
Lemma family_app v6 l k : family v6 (l ++ k) = family v6 l ++ family v6 k.
Proof. apply filter_app. Qed.
Lemma family_family v6 w6 l : family v6 (family w6 l) = if bool_decide (v6 = w6) then family w6 l else [].
Proof.
  unfold family. induction l as [|a l IH]; [by case_bool_decide|]. rewrite filter_cons.
  destruct (decide (is_v6 a = w6)) as [Ha|Ha]; [|exact IH]. rewrite filter_cons, IH.
  destruct (decide (is_v6 a = v6)); case_bool_decide; congruence.
Qed.
Lemma mergeAddresses_family v6 existing building :
  family v6 (mergeAddresses existing building) = preferred (family v6 building) (family v6 existing).
Proof.
  unfold mergeAddresses, splitAddressesByIPType. fold (family false existing) (family true existing) (family false building) (family true building).
  fold (preferred (family false building) (family false existing)) (preferred (family true building) (family true existing)).
  rewrite family_app.
  assert (H : forall w6, family v6 (preferred (family w6 building) (family w6 existing)) =
                    if bool_decide (v6 = w6) then preferred (family w6 building) (family w6 existing) else []).
  { intros w6. unfold preferred. destruct (family w6 building) eqn:E; [|rewrite <- E]; apply family_family. }
  rewrite !H. destruct v6; [by rewrite bool_decide_eq_false_2, bool_decide_eq_true_2|].
  by rewrite bool_decide_eq_true_2, bool_decide_eq_false_2, app_nil_r.
Qed.
Lemma family_nil l : (forall v6, family v6 l = []) -> l = [].
Proof.
  intros H. destruct l as [|a l]; [done|]. specialize (H (is_v6 a)). unfold family in H. by rewrite filter_cons, decide_True in H.
Qed.
Lemma mergeAddresses_nil existing building : mergeAddresses existing building = [] -> building = [].
Proof.
  intros H. apply family_nil. intros v6. pose proof (mergeAddresses_family v6 existing building) as Hf. rewrite H in Hf.
  by destruct (family v6 building).
Qed.
Lemma merged_gateways existing built : gateways (merged existing built) = mergeAddresses (gateways existing) (gateways built).
Proof.
  unfold gateways at 1, merged, merged_advanced. cbn. case_bool_decide as Hg; [case_bool_decide as Hd|]; cbn [andb]; cbn; [|done..].
  rewrite Hg. by apply mergeAddresses_nil in Hg.
Qed.
Lemma merged_dhcpServers existing built : dhcpServers (merged existing built) = mergeAddresses (dhcpServers existing) (dhcpServers built).
Proof.
  unfold dhcpServers at 1, merged, merged_advanced. cbn. case_bool_decide as Hg; [case_bool_decide as Hd|]; cbn [andb]; cbn; [|done..].
  rewrite Hd. by apply mergeAddresses_nil in Hd.
Qed.
Lemma mergeIPBlocks_sup existing building : existing ⊆ mergeIPBlocks existing building /\ building ⊆ mergeIPBlocks existing building.
Proof.
  unfold mergeIPBlocks. destruct existing as [|e es]; [split; [apply list_subseteq_nil|done]|].
  destruct building as [|b bs]; [split; [done|apply list_subseteq_nil]|].
  split; intros x Hx; apply elem_of_sets_List; rewrite elem_of_union, !elem_of_list_to_set; auto.
Qed.
Lemma updated_advanced existing built t :
  s_AdvancedConfig built <> None -> s_AdvancedConfig (updated existing (merged existing built) t) = merged_advanced existing built.
Proof.
  intros Hb. unfold updated. destruct (getUpdatedSubnetSizesAndPrefixes _ _ _ _) as [size prefix]. cbn.
  unfold merged_advanced. destruct (_ && _); [by destruct (s_AdvancedConfig built)|done].
Qed.

(** C23. An update of a Subnet keeps what identifies it in NSX, its VLAN
    connection and its IP blocks; of each address family it sends the
    addresses, gateways and DHCP servers of the specification, or those NSX has
    when the specification gives none of that family; and it sends the other
    compared fields as they were built, so that the same specification is no
    change afterwards. *)
Theorem subnet_update existing built t :
  s_AdvancedConfig built <> None ->
  let u := updated existing (merged existing built) t in
  (s_Id u, s_DisplayName u, s_Path u, s_ParentPath u, s_VlanConnection u)
    = (s_Id existing, s_DisplayName existing, s_Path existing, s_ParentPath existing, s_VlanConnection existing) /\
  s_IpBlocks existing ⊆ s_IpBlocks u /\
  (forall v6, family v6 (s_IpAddresses u) = preferred (family v6 (s_IpAddresses built)) (family v6 (s_IpAddresses existing)) /\
              family v6 (gateways u) = preferred (family v6 (gateways built)) (family v6 (gateways existing)) /\
              family v6 (dhcpServers u) = preferred (family v6 (dhcpServers built)) (family v6 (dhcpServers existing))) /\
  compared u = compared (merged existing built).
Proof.
  intros Hb u. assert (Hadv : s_AdvancedConfig u = merged_advanced existing built) by (by apply updated_advanced).
  assert (Hg : gateways u = gateways (merged existing built)) by (unfold gateways; by rewrite Hadv).
  assert (Hd : dhcpServers u = dhcpServers (merged existing built)) by (unfold dhcpServers; by rewrite Hadv).
  assert (Hi : s_IpAddresses u = mergeAddresses (s_IpAddresses existing) (s_IpAddresses built)) by (unfold u, updated; by case_match).
  split; [unfold u, updated; by case_match|]. split; [|split].
  - assert (s_IpBlocks u = mergeIPBlocks (s_IpBlocks existing) (s_IpBlocks built)) as -> by (unfold u, updated; by case_match).
    apply mergeIPBlocks_sup.
  - intros v6. rewrite Hi, Hg, Hd, merged_gateways, merged_dhcpServers, !mergeAddresses_family. done.
  - unfold compared. rewrite Hadv. unfold u, updated. by case_match.
Qed.

(** ** Facts: names and paths of IP blocks *)
Definition plain_name (n : string) : Prop := all_bytes (fun a => negb (is_space a) && negb (bool_decide (a = "/"%char))) n = true.
Lemma plain_no_space n : plain_name n -> all_bytes (fun a => negb (is_space a)) n = true.
Proof. apply all_bytes_impl. intros a. by rewrite andb_true_iff; intros []. Qed.
Lemma plain_no_slash n : plain_name n -> all_bytes (fun a => negb (bool_decide (a = "/"%char))) n = true.
Proof. apply all_bytes_impl. intros a. by rewrite andb_true_iff; intros []. Qed.
Lemma block_id_of_path pre n :
  plain_name n -> n <> "" ->
  trim_left_by (fun a => bool_decide (a = "/"%char)) ("/" +:+ pre +:+ String "/" n) = pre +:+ String "/" n ->
  last (split_on "/" (trim_byte "/" ("/" +:+ pre +:+ String "/" n))) = Some n.
Proof.
  intros Hn Hne Hpre. pose proof (plain_no_slash n Hn) as Hs. unfold trim_byte. rewrite Hpre, trim_right_app; [|done|].
  - rewrite split_on_app, last_app, split_on_no_sep; [done|by apply all_bytes_no_sep].
  - change (String "/" n) with ("/" +:+ n). apply trim_right_app; [done|]. by apply trim_right_id.
Qed.
Lemma infra_block_name n : plain_name n -> n <> "" -> ip_block_name ("/infra/ip-blocks/" +:+ n) = ":" +:+ n.
Proof.
  intros Hn Hne. unfold ip_block_name. change ("/infra/ip-blocks/" +:+ n) with ("/" +:+ "infra/ip-blocks" +:+ String "/" n).
  by rewrite block_id_of_path.
Qed.
Lemma project_block_name o p n :
  plain_name n -> n <> "" -> ip_block_name ("/orgs/" +:+ o +:+ "/projects/" +:+ p +:+ "/infra/ip-blocks/" +:+ n) = n.
Proof.
  intros Hn Hne. unfold ip_block_name.
  replace ("/orgs/" +:+ o +:+ "/projects/" +:+ p +:+ "/infra/ip-blocks/" +:+ n)
    with ("/" +:+ ("orgs/" +:+ o +:+ "/projects/" +:+ p +:+ "/infra/ip-blocks") +:+ String "/" n)
    by (rewrite !app_str_assoc; reflexivity).
  by rewrite block_id_of_path.
Qed.
Lemma ip_block_roundtrip info n p : plain_name n -> ip_block_path (Some info) n = Ok p -> ip_block_name p = n.
Proof.
  intros Hn. unfold ip_block_path. rewrite trim_space_id by (by apply plain_no_space).
  destruct (bool_decide (n = "") || has_space n) eqn:H; [done|].
  apply orb_false_iff in H as [Hne%bool_decide_eq_false _].
  destruct n as [|a n]; [done|]. destruct (has_prefix ":" (String a n)) eqn:Hp.
  - assert (a = ":"%char) as -> by (cbn in Hp; by case_decide).
    change (drop_str 1 (String ":" n)) with (drop_str 0 n). assert (drop_str 0 n = n) as -> by (by destruct n).
    assert (Hrest : plain_name n) by exact Hn.
    rewrite trim_space_id by (by apply plain_no_space). destruct (bool_decide (n = "")) eqn:He; [done|].
    apply bool_decide_eq_false in He. intros [= <-]. by apply infra_block_name.
  - destruct (_ || _); [done|]. intros [= <-]. by apply project_block_name.
Qed.
(** Names of IP blocks survive the trip through the paths of NSX, whether they
    are infra blocks, which start with a colon, or blocks of the project. *)
Theorem ip_blocks_roundtrip info names paths :
  Forall plain_name names -> buildIPBlockPaths names (Some info) = Ok paths -> IPBlockPathsToNames paths = names.
Proof.
  intros Hn. revert paths. induction Hn as [|n names Hn _ IH]; intros paths; cbn; [by intros [= <-]|].
  destruct (ip_block_path (Some info) n) as [p|e] eqn:E; [|done].
  destruct (buildIPBlockPaths names (Some info)) as [ps|e]; [|done]. intros [= <-]. cbn.
  by rewrite (ip_block_roundtrip info n p Hn E), IH.
Qed.
Lemma ip_blocks_roundtrip_witness :
  let info := mkVPCInfo "default" "proj" "vpc" "" "" in
  IPBlockPathsToNames ["/infra/ip-blocks/ext-1"; "/orgs/default/projects/proj/infra/ip-blocks/blk"] = [":ext-1"; "blk"].
Proof.
  intros info. apply (ip_blocks_roundtrip info); [|reflexivity]. repeat constructor.
Defined.
Lemma subnet_update_witness :
  let mk ips gws := mkNsxSubnet "id" (Some "web") None [] (Some (mkAdvanced gws [] None None)) None None (Some 16) None ips None [] None None
                      (Some "/orgs/o/projects/p/vpcs/v/subnets/id") None None in
  let existing := mk ["10.0.0.0/28"; "2001:db8::/64"] ["10.0.0.1/28"] in
  let built := mk ["10.0.1.0/28"] [] in
  s_IpAddresses (updated existing (merged existing built) "IPv4") = ["10.0.1.0/28"; "2001:db8::/64"] /\
  s_Id (updated existing (merged existing built) "IPv4") = "id".
Proof.
  intros mk existing built. split; [vm_compute; reflexivity|].
  assert (H : s_AdvancedConfig built <> None) by (intros H; inversion H).
  pose proof (subnet_update existing built "IPv4" H) as (Hid & _). exact (f_equal (fun t => t.1.1.1.1) Hid).
Defined.

(** ** Facts: a Subnet that is built and read back *)
(** The values the schema of the Subnet CR allows. *)
Record valid_spec (s : SubnetSpec) : Prop := {
  valid_type : sp_IPAddressType s ∈ ["IPv4"; "IPv6"; "IPv4IPv6"];
  valid_access : sp_AccessMode s ∈ ["Private"; "Public"; "PrivateTGW"; "L2Only"];
  valid_dhcp : sp_DHCPMode s ∈ [""; "DHCPDeactivated"; "DHCPServer"; "DHCPRelay"];
  valid_dhcpv6 : sp_DHCPv6Mode s ∈ [""; "DHCPDeactivated"; "DHCPServer"; "DHCPRelay"; "DHCPServerStateless"];
  valid_state : sp_ConnectivityState s ∈ [""; "Connected"; "Disconnected"];
  valid_size : 0 <= sp_IPv4SubnetSize s; valid_prefix : 0 <= sp_IPv6PrefixLength s }.
Ltac cases_in H := repeat (apply elem_of_cons in H as [H|H]; [|]); [..|by apply not_elem_of_nil in H].
Lemma positive_default n : 0 <= n -> default 0 (positive n) = n.
Proof. intros Hn. unfold positive. case_bool_decide; simpl; lia. Qed.
Lemma access_roundtrip m : m ∈ ["Private"; "Public"; "PrivateTGW"; "L2Only"] -> cr_access_mode (convertAccessMode (Capitalize m)) = m.
Proof. intros H. cases_in H; subst; reflexivity. Qed.
Lemma state_roundtrip m : m ∈ [""; "Connected"; "Disconnected"] ->
  (if bool_decide (default "" (connectivity m) = "CONNECTED") then "Connected"
   else if bool_decide (default "" (connectivity m) = "DISCONNECTED") then "Disconnected" else "") = m.
Proof. intros H. cases_in H; subst; reflexivity. Qed.
Lemma dhcp_roundtrip m : m ∈ [""; "DHCPDeactivated"; "DHCPServer"; "DHCPRelay"] -> cr_dhcp_mode (ParseDHCPMode (dhcp_default m)) = dhcp_default m.
Proof. intros H. cases_in H; subst; reflexivity. Qed.
Lemma dhcpv6_roundtrip m : m ∈ [""; "DHCPDeactivated"; "DHCPServer"; "DHCPRelay"; "DHCPServerStateless"] ->
  cr_dhcpv6_mode (ParseDHCPMode (dhcp_default m)) = dhcp_default m.
Proof. intros H. cases_in H; subst; reflexivity. Qed.
Lemma map_dhcp_mode convert included mode reserved m r :
  (map_dhcp convert included (Some (mkDhcp (Some mode) reserved)) m r).1 = convert mode.
Proof. done. Qed.

(** The reserved ranges read back: those of a DHCP server that has some, else
    those of the CR that is read onto. *)
Lemma map_dhcp_reserved convert included m l mode reserved :
  (map_dhcp convert included (Some (mkDhcp (Some (ParseDHCPMode m)) (reserved_ranges l))) mode reserved).2
  = if bool_decide (ParseDHCPMode m = "DHCP_SERVER") then match l with [] => reserved | _ => l end else reserved.
Proof. cbn. case_bool_decide; [by destruct l|done]. Qed.
Lemma parse_server m : m ∈ [""; "DHCPDeactivated"; "DHCPServer"; "DHCPRelay"; "DHCPServerStateless"] ->
  bool_decide (ParseDHCPMode (dhcp_default m) = "DHCP_SERVER") = bool_decide (m = "DHCPServer").
Proof. intros H. cases_in H; subst; reflexivity. Qed.
Lemma dhcp_modes_incl m : m ∈ [""; "DHCPDeactivated"; "DHCPServer"; "DHCPRelay"] ->
  m ∈ [""; "DHCPDeactivated"; "DHCPServer"; "DHCPRelay"; "DHCPServerStateless"].
Proof. intros H. cases_in H; subst; repeat (first [left | right]). Qed.
(** A list of the CR, or what is there when the CR gives none. *)
Definition given (l other : list string) : list string := match l with [] => other | _ => l end.
(** Reading the Subnet of a specification onto a CR, field by field. *)
Lemma map_of_spec o id name tags ipBlocks s0 :
  valid_spec (sub_spec o) ->
  let s := sub_spec o in
  let v4 := IPAddressTypeIncludesIPv4 (sp_IPAddressType s) in
  let v6 := IPAddressTypeIncludesIPv6 (sp_IPAddressType s) in
  MapNSXSubnetToSubnetCR s0 (subnet_of_spec true o id name tags ipBlocks) =
  mkSubnetCRSpec (sp_VPCName s0) (sp_IPAddressType s) (if v4 then sp_IPv4SubnetSize s else 0)
    (if v6 && bool_decide (0 < sp_IPv6PrefixLength s) then sp_IPv6PrefixLength s else sp_IPv6PrefixLength s0)
    (sp_AccessMode s) (given (sp_IPAddresses s) (st_NetworkAddresses (sub_status o)))
    (if v4 then dhcp_default (sp_DHCPMode s) else sp_DHCPMode s0)
    (if v4 && bool_decide (sp_DHCPMode s = "DHCPServer") then given (sp_DHCPReserved s) (sp_DHCPReserved s0) else sp_DHCPReserved s0)
    (if v6 then dhcp_default (sp_DHCPv6Mode s) else sp_DHCPv6Mode s0)
    (if v6 && bool_decide (sp_DHCPv6Mode s = "DHCPServer") then given (sp_DHCPv6Reserved s) (sp_DHCPv6Reserved s0) else sp_DHCPv6Reserved s0)
    (sp_ConnectivityState s)
    (Some (default (GetDefaultStaticIPAllocation (mkSubnetSpec (sp_DHCPMode s) (sp_DHCPv6Mode s) (sp_IPAddressType s))) (sp_StaticEnabled s)))
    (trimmed_ranges (sp_PoolRanges s)) (sp_GatewayAddresses s)
    (if dhcp_server_mode s then sp_DHCPServerAddresses s else []) "" (sp_Description s) (sp_IPBlockNames s0).
Proof.
  intros [Ht Ha H4 H6 Hc Hs Hp] s v4 v6. fold s in Ht, Ha, H4, H6, Hc, Hs, Hp. unfold MapNSXSubnetToSubnetCR.
  assert (s_IpAddressType (subnet_of_spec true o id name tags ipBlocks) = Some (ConvertCRIPAddressTypeToNSX (sp_IPAddressType s))) as ->.
  { unfold subnet_of_spec. fold s. cbn. cases_in Ht; rewrite Ht; reflexivity. }
  assert (ConvertNSXIPAddressTypeToCR (ConvertCRIPAddressTypeToNSX (sp_IPAddressType s)) = sp_IPAddressType s) as ->
    by (cases_in Ht; rewrite Ht; reflexivity).
  unfold subnet_of_spec. fold s. cbn [s_Dhcp s_Dhcpv6 s_Ipv4SubnetSize s_Ipv6PrefixLength s_AccessMode s_IpAddresses s_AdvancedConfig s_VlanConnection s_Description].
  fold v4 v6. unfold buildSubnetDHCPConfig, buildSubnetDHCPv6Config.
  rewrite (surjective_pairing (map_dhcp cr_dhcp_mode _ _ _ _)), (surjective_pairing (map_dhcp cr_dhcpv6_mode _ _ _ _)).
  cbn [from_option option_bind mbind ac_ConnectivityState ac_StaticIpAllocation ac_GatewayAddresses ac_DhcpServerAddresses sia_Enabled sia_PoolRanges default].
  rewrite access_roundtrip, state_roundtrip by done. f_equal.
  - destruct v4; [by apply positive_default|done].
  - destruct v6; [|done]. cbn. unfold positive. by case_bool_decide.
  - by destruct (sp_IPAddresses s).
  - destruct v4; [rewrite map_dhcp_mode; by apply dhcp_roundtrip|done].
  - destruct v4; [|done]. by rewrite map_dhcp_reserved, parse_server by (by apply dhcp_modes_incl).
  - destruct v6; [rewrite map_dhcp_mode; by apply dhcpv6_roundtrip|done].
  - destruct v6; [|done]. by rewrite map_dhcp_reserved, parse_server.
Qed.
(** What a build for a Subnet CR gives, whatever identifiers are taken. *)
Lemma buildSubnet_blocks cluster ipv6 idE nameE uuids fuel index tep o tags ips info b :
  buildSubnet cluster ipv6 idE nameE uuids fuel index tep (OSubnet o) tags ips info = Some (Ok b) ->
  exists ts id name blocks, buildSubnetTags cluster tep (OSubnet o) tags = Ok ts /\ b = subnet_of_spec ipv6 o id name ts blocks /\
    buildIPBlockPaths (sp_IPBlockNames (sub_spec o)) info = Ok blocks.
Proof.
  unfold buildSubnet. destruct (buildSubnetTags _ _ _ _) as [ts|e] eqn:Et; [|done].
  destruct (BuildSubnetID _ _ _ _) as [id|]; [|done]. destruct (BuildSubnetName _ _ _ _) as [name|]; [|done]. cbn.
  destruct (buildIPBlockPaths _ _) as [blocks|e] eqn:Eb; [|done]. intros [= <-]. by exists ts, id, name, blocks.
Qed.

(** C24. The Subnet that is built for a CR the schema allows, with NSX support
    of IPv6, mapped back onto any CR [s0], gives back the specification:
    - address type, access mode, connectivity, gateways, description, the pool
      ranges (trimmed) and the static allocation (its default when not given);
    - the IP addresses (those of the status when none are given) and the
      addresses of the DHCP servers, in the modes that have a server;
    - for each family in use its DHCP mode (deactivated when not given), its
      size when it is given, and the reserved ranges of a DHCP server;
    - the names of the IP blocks, from the paths of the Subnet.
    What is not recovered is stated as it is: the IPv6 prefix and the reserved
    ranges that the Subnet does not have, the mode of a family not in use, the
    VPC name and the block names of the CR are those of [s0], the size of IPv4
    is cleared and so is the VLAN connection, which no build sets.
    The access mode that is sent is the one of the CR but for PrivateTGW, so
    L2Only is sent as L2Only, and not as the L2_Only that is read from NSX. *)
Theorem subnet_roundtrip cluster idE nameE uuids fuel index tep o tags ips info b s0 :
  valid_spec (sub_spec o) -> Forall plain_name (sp_IPBlockNames (sub_spec o)) ->
  buildSubnet cluster true idE nameE uuids fuel index tep (OSubnet o) tags ips (Some info) = Some (Ok b) ->
  let s := sub_spec o in
  let v4 := IPAddressTypeIncludesIPv4 (sp_IPAddressType s) in
  let v6 := IPAddressTypeIncludesIPv6 (sp_IPAddressType s) in
  let r := MapNSXSubnetToSubnetCR s0 b in
  (sp_IPAddressType r, sp_AccessMode r, sp_ConnectivityState r, sp_GatewayAddresses r, sp_Description r)
    = (sp_IPAddressType s, sp_AccessMode s, sp_ConnectivityState s, sp_GatewayAddresses s, sp_Description s) /\
  s_AccessMode b = Some (if decide (sp_AccessMode s = "PrivateTGW") then "Private_TGW" else sp_AccessMode s) /\
  sp_PoolRanges r = filter (fun t => t <> "") (map trim_space (sp_PoolRanges s)) /\
  (forall e, sp_StaticEnabled s = Some e -> sp_StaticEnabled r = Some e) /\
  (sp_StaticEnabled s = None ->
     sp_StaticEnabled r = Some (GetDefaultStaticIPAllocation (mkSubnetSpec (sp_DHCPMode s) (sp_DHCPv6Mode s) (sp_IPAddressType s)))) /\
  sp_IPAddresses r = given (sp_IPAddresses s) (st_NetworkAddresses (sub_status o)) /\
  sp_DHCPServerAddresses r =
    (if decide (sp_DHCPMode s = "DHCPServer" \/ sp_DHCPv6Mode s = "DHCPServer" \/ sp_DHCPv6Mode s = "DHCPServerStateless")
     then sp_DHCPServerAddresses s else []) /\
  sp_IPv4SubnetSize r = (if v4 then sp_IPv4SubnetSize s else 0) /\
  sp_DHCPMode r = (if v4 then dhcp_default (sp_DHCPMode s) else sp_DHCPMode s0) /\
  sp_DHCPReserved r =
    (if v4 && bool_decide (sp_DHCPMode s = "DHCPServer") then given (sp_DHCPReserved s) (sp_DHCPReserved s0) else sp_DHCPReserved s0) /\
  sp_IPv6PrefixLength r = (if v6 && bool_decide (0 < sp_IPv6PrefixLength s) then sp_IPv6PrefixLength s else sp_IPv6PrefixLength s0) /\
  sp_DHCPv6Mode r = (if v6 then dhcp_default (sp_DHCPv6Mode s) else sp_DHCPv6Mode s0) /\
  sp_DHCPv6Reserved r =
    (if v6 && bool_decide (sp_DHCPv6Mode s = "DHCPServer") then given (sp_DHCPv6Reserved s) (sp_DHCPv6Reserved s0) else sp_DHCPv6Reserved s0) /\
  IPBlockPathsToNames (s_IpBlocks b) = sp_IPBlockNames s /\
  (sp_VPCName r, sp_IPBlockNames r, sp_VLANConnectionName r) = (sp_VPCName s0, sp_IPBlockNames s0, "").
Proof.
  intros Hv Hn (ts & id & name & blocks & _ & -> & Hb)%buildSubnet_blocks s v4 v6 r.
  pose proof (map_of_spec o id name ts blocks s0 Hv) as Hr. fold s v4 v6 r in Hr. cbv zeta in Hr.
  assert (Hm : s_AccessMode (subnet_of_spec true o id name ts blocks) = Some (if decide (sp_AccessMode s = "PrivateTGW") then "Private_TGW" else sp_AccessMode s)).
  { pose proof (valid_access _ Hv) as Ha. cbn. fold s in Ha |- *. cases_in Ha; rewrite Ha; reflexivity. }
  rewrite Hr. split_and!; try done.
  - intros e He. cbn. by rewrite He.
  - intros He. cbn. by rewrite He.
  - cbn. unfold dhcp_server_mode. go_bool. repeat case_decide; repeat case_bool_decide; naive_solver.
  - exact (ip_blocks_roundtrip _ _ _ Hn Hb).
Qed.
Lemma subnet_roundtrip_witness :
  let s := mkSubnetCRSpec "" "IPv4IPv6" 32 64 "PrivateTGW" ["10.0.0.0/27"] "DHCPServer" ["10.0.0.20-10.0.0.22"] "" [] "Connected" (Some false)
             [" 10.0.0.5-10.0.0.9 "] [] ["10.0.0.2/27"] "" "web" [":ext"; "blk"] in
  let o := mkSubnetCR (mkMeta "web" "ns" "uid" ∅ ∅) s (mkSubnetStatus [] [] [] (0, false) false []) in
  let s0 := mkSubnetCRSpec "" "" 0 0 "" [] "" [] "" [] "" None [] [] [] "" "" [] in
  let built := buildSubnet "c" true (fun _ => false) (fun _ => false) (fun _ => "u") 3 "i" (Ok false) (OSubnet o) [] []
                 (Some (mkVPCInfo "default" "proj" "vpc" "" "")) in
  exists b, built = Some (Ok b) /\ s_IpBlocks b = ["/infra/ip-blocks/ext"; "/orgs/default/projects/proj/infra/ip-blocks/blk"] /\
    IPBlockPathsToNames (s_IpBlocks b) = sp_IPBlockNames s.
Proof.
  intros s o s0 built. assert (H : valid_spec s) by (split; cbn; try lia; repeat (first [left | right])).
  assert (Hn : Forall plain_name (sp_IPBlockNames s)) by (repeat constructor).
  destruct built as [[b|e]|] eqn:E; [|vm_compute in E; discriminate|vm_compute in E; discriminate].
  exists b. split; [reflexivity|]. split.
  - vm_compute in E. injection E as <-. reflexivity.
  - pose proof (subnet_roundtrip "c" (fun _ => false) (fun _ => false) (fun _ => "u") 3 "i" (Ok false) o [] []
      (mkVPCInfo "default" "proj" "vpc" "" "") b s0 H Hn E) as (_ & _ & _ & _ & _ & _ & _ & _ & _ & _ & _ & _ & _ & Hr & _). exact Hr.
Defined.
(** The IPv6 prefix length of the CR is not cleared: it stays when NSX has none. *)
Lemma map_keeps_prefix s n : s_Ipv6PrefixLength n = None -> sp_IPv6PrefixLength (MapNSXSubnetToSubnetCR s n) = sp_IPv6PrefixLength s.
Proof. intros H. unfold MapNSXSubnetToSubnetCR. destruct (map_dhcp _ _ _ _), (map_dhcp _ _ _ _). cbn. by rewrite H. Qed.
(** An L2 only Subnet is built with the access mode L2Only, and read as L2_Only. *)
Lemma l2_only_asymmetric : convertAccessMode (Capitalize "L2Only") = "L2Only" /\ cr_access_mode "L2_Only" = "L2Only".
Proof. done. Qed.

(** ** Facts: a second build is no change *)
Lemma preferred_again p q : preferred p (preferred p q) = preferred p q.
Proof. by destruct p. Qed.
Lemma mergeAddresses_families existing building :
  mergeAddresses existing building =
  preferred (family false building) (family false existing) ++ preferred (family true building) (family true existing).
Proof. done. Qed.
Lemma mergeAddresses_again e b : mergeAddresses (mergeAddresses e b) b = mergeAddresses e b.
Proof. rewrite (mergeAddresses_families (mergeAddresses e b)), !mergeAddresses_family, !preferred_again. done. Qed.
Lemma compared_fields a b :
  compared a = compared b <->
  s_Tags a = s_Tags b /\ s_AdvancedConfig a = s_AdvancedConfig b /\ s_Dhcp a = s_Dhcp b /\ s_Dhcpv6 a = s_Dhcpv6 b /\
  s_IpAddressType a = s_IpAddressType b /\ s_Description a = s_Description b.
Proof. unfold compared. split; [by intros [= -> -> -> -> -> ->]|]. by intros (-> & -> & -> & -> & -> & ->). Qed.
Lemma compared_merged e b b' : compared b = compared b' -> compared (merged e b) = compared (merged e b').
Proof.
  rewrite !compared_fields. intros (Ht & Ha & H4 & H6 & Hi & Hd). unfold merged, merged_advanced, gateways, dhcpServers. cbn.
  by rewrite Ht, Ha, H4, H6, Hi, Hd.
Qed.
Lemma compared_merged_again e b b' g :
  compared b = compared b' -> compared g = compared (merged e b) -> compared (merged g b') = compared g.
Proof.
  intros Hb Hg. rewrite <- (compared_merged g b b' Hb), Hg.
  assert (Hgw : gateways g = mergeAddresses (gateways e) (gateways b)).
  { rewrite <- merged_gateways. apply compared_fields in Hg as (_ & Ha & _). unfold gateways. by rewrite Ha. }
  assert (Hds : dhcpServers g = mergeAddresses (dhcpServers e) (dhcpServers b)).
  { rewrite <- merged_dhcpServers. apply compared_fields in Hg as (_ & Ha & _). unfold dhcpServers. by rewrite Ha. }
  apply compared_fields. split; [done|]. split; [|done].
  change (merged_advanced g b = merged_advanced e b). unfold merged_advanced. by rewrite Hgw, Hds, !mergeAddresses_again.
Qed.
Lemma updated_compared e b t :
  s_AdvancedConfig b <> None -> compared (updated e (merged e b) t) = compared (merged e b).
Proof.
  intros Hb. apply compared_fields. rewrite updated_advanced by done. unfold updated.
  destruct (getUpdatedSubnetSizesAndPrefixes _ _ _ _). done.
Qed.
Lemma updated_Id e m t : s_Id (updated e m t) = s_Id e.
Proof. unfold updated. by destruct (getUpdatedSubnetSizesAndPrefixes _ _ _ _). Qed.
Lemma buildSubnet_subnet cluster ipv6 idE nameE uuids fuel index tep o tags ips info b :
  buildSubnet cluster ipv6 idE nameE uuids fuel index tep (OSubnet o) tags ips info = Some (Ok b) ->
  exists ts id name blocks, buildSubnetTags cluster tep (OSubnet o) tags = Ok ts /\ b = subnet_of_spec ipv6 o id name ts blocks.
Proof. intros (ts & id & name & blocks & Ht & -> & _)%buildSubnet_blocks. by exists ts, id, name, blocks. Qed.
Lemma filterTag_in tags scope v : newTag scope v ∈ tags -> v ∈ filterTag tags scope.
Proof.
  intros Hin. unfold filterTag. apply list_elem_of_In, in_map_iff. exists (newTag scope v). split; [done|].
  apply list_elem_of_In, list_elem_of_filter. by split.
Qed.
Lemma buildSubnetTags_uid cluster tep o tags ts :
  buildSubnetTags cluster tep (OSubnet o) tags = Ok ts -> m_UID (sub_meta o) ∈ filterTag ts TagScopeSubnetCRUID.
Proof.
  unfold buildSubnetTags. destruct tep as [b|e]; [|done]. case_bool_decide; [done|]. intros [= <-]. apply filterTag_in.
  destruct b; cbv iota; rewrite elem_of_app; left; apply list_elem_of_In; cbn; auto 8.
Qed.
