(* ===== verification/SubnetService.v ===== *)
(** * pkg/nsx/services/subnet: keeping Subnets in NSX and in the store

    subnet.go: creation, update, restoration and deletion of Subnets, their
    status, the conditions of SubnetSets, the look-ups, and the pages of port
    settings; cleanup.go for the local store. *)
From S2P Require Import Prelude GoStrings Errors NsxUtil IPUtil Names Interfaces GoMonad Compare RealizeState Service Subnet.

(** NSX, the Kubernetes client and the SubnetPort service. *)
Class SubnetWorld (W : Type) := {
  Subnets_Patch : VPCResourceInfo -> string -> NsxSubnet -> W -> option goerr * W;
  Subnets_Get : VPCResourceInfo -> string -> W -> result goerr NsxSubnet * W;
  Subnets_Delete : VPCResourceInfo -> string -> W -> option goerr * W;
  SubnetStatus_List : VPCResourceInfo -> string -> W -> result goerr (list VpcSubnetStatus) * W;
  Realized_List : string -> W -> result goerr (list Entity) * W;
  TepLess_List : string -> W -> result goerr (list (list string));
  Kube_GetSubnetSet : string -> string -> W -> result goerr SubnetSetCR * W;
  Kube_UpdateStatus : SubnetSetCR -> W -> option goerr * W;
  ResetSubnetTotalIP : string -> W -> W;
  IsConflict : goerr -> bool;
  error_text : goerr -> string }.
Section Service.
Context {I W : Type} `{!Indexer I NsxSubnet s_Id} `{!SubnetWorld W} `{!RetryDriver} `{!SubnetEncoder}.
Local Abbreviation SubM := (Svc (I := I) (W := W)).
Context (cluster : string) (ipv6 : bool) (uuids : nat -> string) (fuel : nat) (index : string).

(** *** Store *)
Definition store_apply (subnet : NsxSubnet) (st : I) : I :=
  if bool_decide (s_MarkedForDelete subnet = Some true) then ix_Delete subnet st else ix_Add subnet st.
Definition Apply (subnet : NsxSubnet) : SubM unit := on_store (store_apply subnet).
Definition nsxSubnetIdExists (st : I) (id : string) : bool := bool_decide (is_Some (ix_GetByKey id st)).
Definition nsxSubnetNameExists (st : I) (name : string) : bool := bool_decide (ix_GetByIndex subnetIndexNameFunc name st <> []).
Definition ListSubnetCreatedBySubnet (st : I) (id : string) : list NsxSubnet := ix_GetByIndex subnetIndexFunc id st.
Definition ListSubnetCreatedBySubnetSet (st : I) (id : string) : list NsxSubnet := ix_GetByIndex subnetSetIndexFunc id st.
Definition ListSubnetByName (st : I) (ns name : string) : list NsxSubnet :=
  filter (fun s => default "" (FindTag (s_Tags s) TagScopeSubnetCRName) = name) (ix_GetByIndex subnetIndexVMNamespaceFunc ns st).
Definition ListSubnetBySubnetSetName (st : I) (ns subnetSetName : string) : list NsxSubnet :=
  filter (fun s => default "" (FindTag (s_Tags s) TagScopeSubnetSetCRName) = subnetSetName)
    (ix_GetByIndex subnetIndexVMNamespaceFunc ns st ++ ix_GetByIndex subnetIndexNamespaceFunc ns st).
(** [ListIndexFuncValues]: the values of an index. *)
Definition ListIndexFuncValues (indexFunc : NsxSubnet -> list string) (st : I) : gset string :=
  list_to_set (mjoin (map indexFunc (ix_List st))).
Definition ListSubnetSetIDsFromNSXSubnets (st : I) : gset string := ListIndexFuncValues subnetSetIndexFunc st.
Definition ListSubnetIDsFromNSXSubnets (st : I) : gset string := ListIndexFuncValues subnetIndexFunc st.
Definition ListAllSubnet (st : I) : list NsxSubnet :=
  mjoin (map (ListSubnetCreatedBySubnet st) (elements (ListSubnetIDsFromNSXSubnets st))) ++
  mjoin (map (ListSubnetCreatedBySubnetSet st) (elements (ListSubnetSetIDsFromNSXSubnets st))).
Definition ErrSubnetNotFoundInStore : goerr := EText "NSX subnet not found in store".
Definition GetSubnetByKey (st : I) (key : string) : result goerr NsxSubnet :=
  match ix_GetByKey key st with Some s => Ok s | None => Err ErrSubnetNotFoundInStore end.
Definition DeleteMultipleObjects (subnets : list NsxSubnet) (st : I) : I := foldl (fun st s => ix_Delete s st) st subnets.
(** [CleanupVPCChildResources] with the path of a VPC that NSX has removed. *)
Definition CleanupVPCChildResources (vpcPath : string) (st : I) : I :=
  DeleteMultipleObjects (ix_GetByIndex subnetIndexVPCFunc vpcPath st) st.

(** *** Conditions of a SubnetSet *)
Definition retry_on_conflict (f : W -> option goerr * W) : SubM (option goerr) := on_world (OnError IsConflict f).
Definition SubnetCreationFailed := "SubnetCreationFailed".
Definition failed_condition (err : goerr) : Condition :=
  mkCondition SubnetCreationFailed "True" ("Failed to create NSX Subnet: " +:+ error_text err) "SubnetCreationFailed".
(** The conditions with the new one, and whether they changed. *)
Fixpoint set_failed (c : Condition) (l : list Condition) : list Condition * bool :=
  match l with
  | [] => ([c], true)
  | d :: l' =>
      if bool_decide (cond_Type d = SubnetCreationFailed) then
        if bool_decide (cond_Message d <> cond_Message c) || bool_decide (cond_Status d <> cond_Status c)
        then (c :: l', true) else (d :: l', false)
      else let '(r, b) := set_failed c l' in (d :: r, b)
  end.
Definition with_conditions (o : SubnetSetCR) (l : list Condition) : SubnetSetCR :=
  mkSubnetSetCR (ss_meta o) (ss_IPAddressType o) (ss_IPv4SubnetSize o) (ss_IPv6PrefixLength o) (ss_AccessMode o) (ss_DHCPMode o)
    (ss_DHCPv6Mode o) l (ss_Subnets o).
Definition with_subnets (o : SubnetSetCR) (l : list SubnetInfo) : SubnetSetCR :=
  mkSubnetSetCR (ss_meta o) (ss_IPAddressType o) (ss_IPv4SubnetSize o) (ss_IPv6PrefixLength o) (ss_AccessMode o) (ss_DHCPMode o)
    (ss_DHCPv6Mode o) (ss_Conditions o) l.
(** Read the SubnetSet, compute its new status, and write it if it changed. *)
Definition update_set (m : meta) (f : SubnetSetCR -> option SubnetSetCR) (w : W) : option goerr * W :=
  match Kube_GetSubnetSet (m_Namespace m) (m_Name m) w with
  | (Err e, w) => (Some e, w)
  | (Ok o, w) => match f o with Some o' => Kube_UpdateStatus o' w | None => (None, w) end
  end.
(** The errors of these updates are logged only. *)
Definition updateSubnetSetConditionOnFail (obj : k8s_object) (err : goerr) : SubM unit :=
  match obj with
  | OSubnetSet _ =>
      let! _ := retry_on_conflict (update_set (obj_meta obj) (fun o =>
        let '(l, changed) := set_failed (failed_condition err) (ss_Conditions o) in
        if changed : bool then Some (with_conditions o l) else None)) in mret tt
  | _ => mret tt
  end.
Definition removeSubnetSetConditionOnSuccess (obj : k8s_object) : SubM unit :=
  match obj with
  | OSubnetSet _ =>
      let! _ := retry_on_conflict (update_set (obj_meta obj) (fun o =>
        let l := filter (fun c => cond_Type c <> SubnetCreationFailed) (ss_Conditions o) in
        if bool_decide (l = ss_Conditions o) then None else Some (with_conditions o l))) in mret tt
  | _ => mret tt
  end.

(** *** Status *)
Definition GetSubnetStatus (subnet : NsxSubnet) : SubM (list VpcSubnetStatus) :=
  let! path := mtotal (s_Path subnet) in
  match ParseVPCResourcePath path with
  | None => mfail (EText "invalid path")
  | Some param =>
      let! statusList := nsx_result (SubnetStatus_List param (s_Id subnet)) in
      match statusList with
      | [] => mfail (EText "empty status result")
      | st :: _ =>
          if (bool_decide (vs_NetworkAddress st = None) || bool_decide (vs_GatewayAddress st = None)) &&
             negb (bool_decide (s_AccessMode subnet = Some "L2_Only"))
          then mfail (EText "invalid status result") else mret statusList
      end
  end.
(** [None]: the panic on a missing network or gateway address. *)
Definition subnet_info (statusList : list VpcSubnetStatus) : option SubnetInfo :=
  n ← mapM vs_NetworkAddress statusList;
  g ← mapM vs_GatewayAddress statusList;
  Some (mkSubnetInfo n g (omap vs_DhcpServerAddress statusList)).
Definition UpdateSubnetSetStatus (obj : SubnetSetCR) : SubM unit :=
  let! s := mget in
  let nsxSubnets := ListSubnetCreatedBySubnetSet (svc_store s) (m_UID (ss_meta obj)) in
  let! subnetInfoList := mloop (fun acc subnet =>
    let! statusList := GetSubnetStatus subnet in
    let! info := mtotal (subnet_info statusList) in
    mret (acc ++ [info])) [] nsxSubnets in
  if bool_decide (ss_Subnets obj = subnetInfoList) then mret tt
  else
    let! err := retry_on_conflict (update_set (ss_meta obj) (fun latest =>
      if bool_decide (ss_Subnets latest = subnetInfoList) then None else Some (with_subnets latest subnetInfoList))) in
    mresult (error_result err).

(** *** Creation, update and deletion *)
Definition marked_subnet (s : NsxSubnet) : NsxSubnet :=
  mkNsxSubnet (s_Id s) (s_DisplayName s) (s_AccessMode s) (s_Tags s) (s_AdvancedConfig s) (s_Dhcp s) (s_Dhcpv6 s) (s_Ipv4SubnetSize s)
    (s_Ipv6PrefixLength s) (s_IpAddresses s) (s_IpAddressType s) (s_IpBlocks s) (s_Description s) (s_VlanConnection s) (s_Path s)
    (s_ParentPath s) (Some true).
(** A path that cannot be parsed gives a request for empty identifiers. *)
Definition DeleteSubnet (nsxSubnet : NsxSubnet) : SubM unit :=
  let! path := mtotal (s_Path nsxSubnet) in
  let info := default no_info (ParseVPCResourcePath path) in
  let! _ := nsx_call (Subnets_Delete info (info_ID info)) in
  Apply (marked_subnet nsxSubnet).
Definition checkSubnetRealizeState (nsxSubnet : NsxSubnet) : SubM unit :=
  let! path := mtotal (s_Path nsxSubnet) in
  let! err := check_realized Realized_List path [] in
  match err with
  | None => mret tt
  | Some err =>
      let! deleted := mcatch (DeleteSubnet nsxSubnet) in
      match deleted with
      | Err deleteErr => mfail (EText ("realization check failed: " +:+ error_text err +:+ "; deletion failed: " +:+ error_text deleteErr))
      | Ok _ => mfail err
      end
  end.
(** An error is noted in the conditions of the SubnetSet and returned. *)
Definition noted {A} (obj : k8s_object) (m : SubM A) : SubM A :=
  let! r := mcatch m in
  match r with
  | Ok a => mret a
  | Err e => let! _ := updateSubnetSetConditionOnFail obj e in mfail e
  end.
Definition createOrUpdateSubnet (obj : k8s_object) (nsxSubnet : NsxSubnet) (vpcInfo : VPCResourceInfo) (restoreMode : bool) : SubM NsxSubnet :=
  let! _ := noted obj (nsx_call (Subnets_Patch vpcInfo (s_Id nsxSubnet) nsxSubnet)) in
  let! got := noted obj (nsx_result (Subnets_Get vpcInfo (s_Id nsxSubnet))) in
  let! _ := noted obj (checkSubnetRealizeState got) in
  let! _ := Apply got in
  let! _ :=
    if restoreMode then mret tt
    else
      let! _ := removeSubnetSetConditionOnSuccess obj in
      match obj with OSubnetSet o => UpdateSubnetSetStatus o | _ => mret tt end in
  mret got.
Definition isSubnetReady (subnet : SubnetCR) : bool :=
  existsb (fun c => bool_decide (cond_Type c = "Ready") && bool_decide (cond_Status c = "True")) (st_Conditions (sub_status subnet)).
Definition build (obj : k8s_object) (tags : list Tag) (ipAddresses : list string) (vpcInfo : VPCResourceInfo) : SubM NsxSubnet :=
  let! s := mget in
  let st := svc_store s in
  let tepLess := IsNamespaceInTepLessMode (TepLess_List (m_Namespace (obj_meta obj)) (svc_world s)) in
  let! r := mtotal (buildSubnet cluster ipv6 (nsxSubnetIdExists st) (nsxSubnetNameExists st) uuids fuel index tepLess obj tags ipAddresses (Some vpcInfo)) in
  mresult r.
Definition CreateOrUpdateSubnet (obj : k8s_object) (vpcInfo : VPCResourceInfo) (tags : list Tag) : SubM NsxSubnet :=
  let! nsxSubnet := build obj tags [] vpcInfo in
  match obj with
  | OSubnet subnet =>
      let! s := mget in
      match ListSubnetCreatedBySubnet (svc_store s) (m_UID (sub_meta subnet)) with
      | [] => createOrUpdateSubnet obj nsxSubnet vpcInfo false
      | existing :: _ =>
          let poolRangesChanged := negb (CompareArraysWithoutOrder (poolRanges existing) (poolRanges nsxSubnet)) in
          let nsxSubnet := merged existing nsxSubnet in
          if CompareResource existing nsxSubnet then
            let! got := createOrUpdateSubnet obj (updated existing nsxSubnet (sp_IPAddressType (sub_spec subnet))) vpcInfo false in
            if poolRangesChanged then
              let! path := mtotal (s_Path got) in
              let! _ := on_world (fun w => (tt, ResetSubnetTotalIP path w)) in mret got
            else mret got
          else
            let! _ := if isSubnetReady subnet then mret tt else checkSubnetRealizeState nsxSubnet in
            mret existing
      end
  | _ => createOrUpdateSubnet obj nsxSubnet vpcInfo false
  end.
(** The Subnet to restore for a status entry; [None]: nothing changed. *)
Definition restore_target (existingSubnets : list NsxSubnet) (info : SubnetInfo) (built : NsxSubnet) (ipType : string) : option NsxSubnet :=
  match List.find (fun e => CompareArraysWithoutOrder (s_IpAddresses e) (si_NetworkAddresses info)) existingSubnets with
  | None => Some built
  | Some existing => if CompareResource existing built then Some (restored existing built ipType) else None
  end.
(** The errors of the single Subnets, joined. *)
Fixpoint restore_loop (obj : SubnetSetCR) (nsxSubnets : list NsxSubnet) (vpcInfo : VPCResourceInfo) (tags : list Tag) (errList : list goerr)
    (infos : list SubnetInfo) : SubM (list goerr) :=
  match infos with
  | [] => mret errList
  | info :: infos' =>
      let! built := build (OSubnetSet obj) tags (si_NetworkAddresses info) vpcInfo in
      match restore_target nsxSubnets info built (ss_IPAddressType obj) with
      | None => restore_loop obj nsxSubnets vpcInfo tags errList infos'
      | Some target =>
          let! r := mcatch (createOrUpdateSubnet (OSubnetSet obj) target vpcInfo true) in
          restore_loop obj nsxSubnets vpcInfo tags (match r with Err e => errList ++ [e] | Ok _ => errList end) infos'
      end
  end.
Definition RestoreSubnetSet (obj : SubnetSetCR) (vpcInfo : VPCResourceInfo) (tags : list Tag) : SubM unit :=
  let! s := mget in
  let nsxSubnets := ListSubnetCreatedBySubnetSet (svc_store s) (m_UID (ss_meta obj)) in
  let! errList := restore_loop obj nsxSubnets vpcInfo tags [] (ss_Subnets obj) in
  match errList with
  | [] => mret tt
  | e :: es => mfail (foldl EJoin e es)
  end.
End Service.
(** The name of the SubnetSet and whether the Namespace matches, from the tags
    of a Subnet: the loop stops at the first Namespace that differs. *)
Fixpoint scan_tags (ns name : string) (matched : bool) (tags : list Tag) : string * bool :=
  match tags with
  | [] => (name, matched)
  | t :: tags' =>
      let v := default "" (tag_Tag t) in
      let name := if bool_decide (tag_Scope t = Some TagScopeSubnetSetCRName) then v else name in
      if bool_decide (tag_Scope t = Some TagNamespaceScope) || bool_decide (tag_Scope t = Some TagScopeVMNamespace) then
        if bool_decide (v <> ns) then (name, matched) else scan_tags ns name true tags'
      else scan_tags ns name matched tags'
  end.
Definition set_dhcp (mode : string) (included : bool) (dhcp : option DhcpConfig) : option DhcpConfig :=
  match dhcp with
  | Some d => Some (mkDhcp (Some (ParseDHCPMode mode)) (dc_Reserved d))
  | None => if included then Some (mkDhcp (Some (ParseDHCPMode mode)) None) else None
  end.
(** A Subnet of a SubnetSet with the fields of the new specification. *)
Definition set_updated (ipv6 : bool) (cr : SubnetSetCR) (newTags : list Tag) (s : NsxSubnet) : NsxSubnet :=
  let '(size, prefix) := getUpdatedSubnetSizesAndPrefixes s (positive (ss_IPv4SubnetSize cr)) (positive (ss_IPv6PrefixLength cr)) (ss_IPAddressType cr) in
  mkNsxSubnet (s_Id s) (s_DisplayName s) (Some (convertAccessMode (ss_AccessMode cr))) newTags (s_AdvancedConfig s)
    (set_dhcp (dhcp_default (ss_DHCPMode cr)) (IPAddressTypeIncludesIPv4 (ss_IPAddressType cr)) (s_Dhcp s))
    (set_dhcp (dhcp_default (ss_DHCPv6Mode cr)) (IPAddressTypeIncludesIPv6 (ss_IPAddressType cr)) (s_Dhcpv6 s))
    size prefix (s_IpAddresses s) (if ipv6 then Some (ConvertCRIPAddressTypeToNSX (ss_IPAddressType cr)) else s_IpAddressType s)
    (s_IpBlocks s) (s_Description s) (s_VlanConnection s) (s_Path s) (s_ParentPath s) (s_MarkedForDelete s).

Section UpdateSet.
Context {I W : Type} `{!Indexer I NsxSubnet s_Id} `{!SubnetWorld W} `{!RetryDriver} `{!SubnetEncoder}.
Local Abbreviation SubM := (Svc (I := I) (W := W)).
Context (cluster : string) (ipv6 : bool).
Definition update_one (ns : string) (tags : list Tag) (subnetsetCR : SubnetSetCR) (vpcSubnet : NsxSubnet) : SubM unit :=
  let '(name, matchNamespace) := scan_tags ns "" false (s_Tags vpcSubnet) in
  if negb matchNamespace then mret tt
  else
    let! got := mcatch (world_result (Kube_GetSubnetSet ns name)) in
    match got with
    | Err e => mfail (EWrap ("failed to get SubnetSet " +:+ name +:+ " in Namespace " +:+ ns) e)
    | Ok subnetSet =>
        let! s := mget in
        let! newTags := mresult (buildSubnetTags cluster (IsNamespaceInTepLessMode (TepLess_List (m_Namespace (ss_meta subnetSet)) (svc_world s)))
                                   (OSubnetSet subnetSet) tags) in
        let target := set_updated ipv6 subnetsetCR newTags vpcSubnet in
        if negb (CompareResource vpcSubnet target) then mret tt
        else
          let! path := mtotal (s_Path vpcSubnet) in
          match ParseVPCResourcePath path with
          | None => mfail (EText ("failed to parse NSX VPC path for Subnet " +:+ path))
          | Some vpcInfo =>
              let! r := mcatch (createOrUpdateSubnet (OSubnetSet subnetSet) target vpcInfo false) in
              match r with
              | Err e => mfail (EWrap ("failed to update Subnet " +:+ s_Id vpcSubnet +:+ " in SubnetSet " +:+ m_Name (ss_meta subnetSet)) e)
              | Ok _ => mret tt
              end
          end
    end.
Definition UpdateSubnetSet (ns : string) (vpcSubnets : list NsxSubnet) (tags : list Tag) (subnetsetCR : SubnetSetCR) : SubM unit :=
  mloop (fun _ s => update_one ns tags subnetsetCR s) tt vpcSubnets.

(** *** Gateways of a Subnet *)
Definition GatewayPrefixInfo : Type := string * Z.
Definition gateway_prefix (gw : string) : result goerr GatewayPrefixInfo :=
  match RemoveIPPrefix gw with
  | Err e => Err (EText e)
  | Ok gateway => match GetIPPrefix gw with (_, Some e) => Err (EText e) | (prefix, None) => Ok (gateway, prefix) end
  end.
Fixpoint gateway_prefixes (l : list string) : result goerr (list GatewayPrefixInfo) :=
  match l with
  | [] => Ok []
  | g :: l' => match gateway_prefix g with
               | Err e => Err e
               | Ok i => match gateway_prefixes l' with Err e => Err e | Ok is' => Ok (i :: is') end
               end
  end.
Definition getAllGatewayPrefixesFromNSXSubnet (s : NsxSubnet) : result goerr (list GatewayPrefixInfo) := gateway_prefixes (gateways s).
(** The statuses are read up to the first one without a gateway, which gives none. *)
Fixpoint status_gateways (acc : list GatewayPrefixInfo) (l : list VpcSubnetStatus) : result goerr (list GatewayPrefixInfo) :=
  match l with
  | [] => Ok acc
  | st :: l' =>
      match vs_GatewayAddress st with
      | None => Ok []
      | Some gw =>
          if bool_decide (gw = "") then Ok []
          else match gateway_prefix gw with Err e => Err e | Ok i => status_gateways (acc ++ [i]) l' end
      end
  end.
Definition getAllGatewayPrefixesFromNSXSubnetStatus (s : NsxSubnet) : SubM (list GatewayPrefixInfo) :=
  let! statusList := GetSubnetStatus s in mresult (status_gateways [] statusList).
Definition GetAllGatewayPrefixesOfSubnet (s : NsxSubnet) : SubM (list GatewayPrefixInfo) :=
  match getAllGatewayPrefixesFromNSXSubnet s with
  | Ok (g :: gs) => mret (g :: gs)
  | fromSubnet =>
      let! fromStatus := mcatch (getAllGatewayPrefixesFromNSXSubnetStatus s) in
      match fromStatus with
      | Ok gs => mret gs
      | Err e => mfail (EText ("errFromSubnet: " +:+ match fromSubnet with Err e => error_text e | Ok _ => "<nil>" end +:+ ", errFromStatus: " +:+ error_text e))
      end
  end.
End UpdateSet.

(** ** Pages of port settings *)
Section PortSettings.
Context {W : Type}.
(** A page from a cursor: identifiers and the next cursor. *)
Context (List_ : string -> option string -> W -> result goerr (list (option string) * option string) * W).
Fixpoint list_pages (fuel : nat) (path : string) (cursor : option string) (seenCursors : gset string) (results : list (option string)) (w : W)
  : option (result goerr (list (option string)) * W) :=
  match fuel with
  | O => None
  | S fuel' =>
      match List_ path cursor w with
      | (Err e, w) => Some (Err (default e (TransNSXApiError (Some e))), w)
      | (Ok (page, next), w) =>
          let results := results ++ page in
          match next with
          | None => Some (Ok results, w)
          | Some c =>
              if bool_decide (c = "") then Some (Ok results, w)
              else if bool_decide (c ∈ seenCursors) then Some (Err (EText "repeated PortSettings pagination cursor"), w)
              else list_pages fuel' path (Some c) ({[c]} ∪ seenCursors) results w
          end
      end
  end.
Definition ListPortSettingsByAssociatedResource (fuel : nat) (associatedResource : string) (w : W)
  : option (result goerr (list (option string)) * W) :=
  match GetSubnetPathFromAssociatedResource associatedResource with
  | None => Some (Err (EText "invalid associated resource format"), w)
  | Some path =>
      match ExtractSubnetPath path with
      | None => Some (Err (EText "invalid path"), w)
      | Some _ => list_pages fuel path None ∅ [] w
      end
  end.
End PortSettings.

(** ** Facts: the store and NSX *)
Section Facts.
Context {I W : Type} `{!Indexer I NsxSubnet s_Id} `{!SubnetWorld W} `{!RetryDriver} `{!SubnetEncoder}.
Local Abbreviation SubM := (Svc (I := I) (W := W)).
Local Abbreviation stable := (stable (I := I) (W := W)).
Implicit Types s : service_state I W.
Lemma stable_condition obj e : stable (updateSubnetSetConditionOnFail obj e).
Proof. unfold updateSubnetSetConditionOnFail, retry_on_conflict. destruct obj; auto with stable. Qed.
Lemma stable_clear obj : stable (removeSubnetSetConditionOnSuccess obj).
Proof. unfold removeSubnetSetConditionOnSuccess, retry_on_conflict. destruct obj; auto with stable. Qed.
Lemma stable_status n : stable (GetSubnetStatus n).
Proof.
  unfold GetSubnetStatus, nsx_result. apply stable_bind; [auto with stable|]. intros path.
  destruct (ParseVPCResourcePath path); [|auto with stable]. apply stable_bind; [auto with stable|].
  intros [|st l]; [auto with stable|]. destruct (_ && _); auto with stable.
Qed.
Lemma stable_set_status o : stable (UpdateSubnetSetStatus o).
Proof.
  unfold UpdateSubnetSetStatus, retry_on_conflict. apply stable_bind; [auto with stable|]. intros st. apply stable_bind.
  - apply stable_loop. intros acc n. apply stable_bind; [apply stable_status|]. auto with stable.
  - intros l. case_bool_decide; auto with stable.
Qed.
Lemma stable_noted {A} obj (m : SubM A) : stable m -> stable (noted obj m).
Proof.
  intros Hm. unfold noted. apply stable_bind; [by apply stable_catch|]. intros [a|e]; [auto with stable|].
  apply stable_bind; [apply stable_condition|auto with stable].
Qed.
Hint Resolve stable_condition stable_clear stable_set_status stable_noted : stable.
Lemma noted_Ok {A} obj (m : SubM A) s a s' : noted obj m s = Some (Ok a, s') -> m s = Some (Ok a, s').
Proof.
  unfold noted. intros (r & s1 & (r' & [= ->] & Hm)%mcatch_Some & Hk)%bindM_Ok. destruct r' as [a'|e].
  - by injection Hk as <- <-.
  - apply bindM_Ok in Hk as (? & ? & _ & Hk). discriminate.
Qed.
Lemma noted_Err {A} obj (m : SubM A) s e s' :
  noted obj m s = Some (Err e, s') -> exists s1, m s = Some (Err e, s1) /\ svc_store s' = svc_store s1.
Proof.
  unfold noted. intros [(r & s1 & (r' & [= ->] & Hm)%mcatch_Some & Hk)|(e' & (r' & [= ] & _)%mcatch_Some & _)]%bindM_Some.
  destruct r' as [a'|e']; [discriminate|].
  apply bindM_Some in Hk as [(u & s2 & Hc & Hk)|(e2 & Hc & Hk)].
  - injection Hk as <- <-. exists s1. split; [done|]. by apply stable_condition in Hc.
  - exfalso. revert Hc. unfold updateSubnetSetConditionOnFail, retry_on_conflict, on_world.
    destruct obj; cbn; try done. unfold bindM. by destruct (OnError _ _ _).
Qed.
Lemma stable_tail obj restoreMode :
  stable (if restoreMode : bool then mret tt
          else let! _ := removeSubnetSetConditionOnSuccess obj in
               match obj with OSubnetSet o => UpdateSubnetSetStatus o | _ => mret tt end).
Proof. destruct restoreMode; [apply stable_ret|]. apply stable_bind; [apply stable_clear|]. intros u. destruct obj; auto with stable. Qed.
(** The calls of a creation or an update, from the state [s] of the call: NSX
    accepted the Subnet and returned it, then reported on its realization, and
    accepted its removal. *)
Definition returned info n s g s2 : Prop :=
  exists w1 w2, Subnets_Patch info (s_Id n) n (svc_world s) = (None, w1) /\ Subnets_Get info (s_Id n) w1 = (Ok g, w2) /\
    s2 = mkService (svc_store s) w2.
Definition realization g s2 (err : option goerr) s3 : Prop :=
  exists path, s_Path g = Some path /\ check_realized Realized_List path [] s2 = Some (Ok err, s3).
Definition removed g s3 : Prop :=
  exists path w, s_Path g = Some path /\ let info := default no_info (ParseVPCResourcePath path) in
    Subnets_Delete info (info_ID info) (svc_world s3) = (None, w).
Lemma patched_got obj info n s u s1 g s2 :
  noted obj (nsx_call (Subnets_Patch info (s_Id n) n)) s = Some (Ok u, s1) ->
  noted obj (nsx_result (Subnets_Get info (s_Id n))) s1 = Some (Ok g, s2) -> returned info n s g s2.
Proof.
  intros Hp%noted_Ok Hg%noted_Ok. unfold nsx_call, nsx_result, world_result in *.
  destruct (Subnets_Patch _ _ _ _) as [e w1] eqn:Ep. destruct e as [e|]; [discriminate|]. injection Hp as _ <-. cbn in Hg.
  destruct (Subnets_Get _ _ _) as [[g'|e] w2] eqn:Eg; [|discriminate]. injection Hg as -> <-. by exists w1, w2.
Qed.
Lemma DeleteSubnet_store n s r s' :
  DeleteSubnet n s = Some (r, s') ->
  match r with
  | Ok _ => svc_store s' = ix_Delete (marked_subnet n) (svc_store s) /\ removed n s
  | Err _ => svc_store s' = svc_store s
  end.
Proof.
  unfold DeleteSubnet. intros [(path & s1 & Hp & Hk)|(e & Hp & ->)]%bindM_Some; [|by apply stable_total in Hp].
  unfold mtotal in Hp. destruct (s_Path n) as [p|] eqn:Ep; [|done]. injection Hp as -> <-.
  apply bindM_Some in Hk as [(u & s2 & Hd & Hk)|(e & Hd & ->)]; [|by apply stable_nsx_call in Hd].
  pose proof (stable_nsx_call _ _ _ _ Hd) as Hs. unfold Apply, on_store in Hk. injection Hk as <- <-. cbn. rewrite <- Hs. split; [done|].
  exists path. unfold nsx_call, nsx_result, world_result in Hd. cbn zeta.
  destruct (Subnets_Delete _ _ _) as [[e|] w]; [discriminate|]. by exists w.
Qed.
Lemma check_cases n s r s' :
  checkSubnetRealizeState n s = Some (r, s') ->
  match r with
  | Ok _ => svc_store s' = svc_store s /\ exists s3, realization n s None s3
  | Err _ => svc_store s' = svc_store s \/
             (svc_store s' = ix_Delete (marked_subnet n) (svc_store s) /\ exists e s3, realization n s (Some e) s3 /\ removed n s3)
  end.
Proof.
  unfold checkSubnetRealizeState. intros [(path & s1 & Hp & Hk)|(e & Hp & ->)]%bindM_Some; [|left; by apply stable_total in Hp].
  unfold mtotal in Hp. destruct (s_Path n) as [p|] eqn:Ep; [|done]. injection Hp as -> <-.
  apply bindM_Some in Hk as [(err & s2 & Hc & Hk)|(e & Hc & ->)]; [|left; by apply stable_check in Hc].
  pose proof (stable_check _ _ _ _ _ _ Hc) as Hs. destruct err as [err|].
  - apply bindM_Some in Hk as [(d & s3 & (d' & [= ->] & Hd)%mcatch_Some & Hk)|(e & (d' & [= ] & _)%mcatch_Some & _)].
    pose proof (DeleteSubnet_store _ _ _ _ Hd) as Hst. rewrite Hs in Hst.
    destruct d' as [u|e]; injection Hk as <- <-; [right|by left]. destruct Hst as [Hst Hrem]. split; [done|].
    exists err, s2. split; [|done]. by exists path.
  - injection Hk as <- <-. split; [done|]. exists s2. by exists path.
Qed.
(** The conditions are removed without an error; only the status of a SubnetSet
    can fail. *)
Lemma tail_Err obj (restoreMode : bool) s e s' :
  (if restoreMode then mret tt
   else let! _ := removeSubnetSetConditionOnSuccess obj in
        match obj with OSubnetSet o => UpdateSubnetSetStatus o | _ => mret tt end) s = Some (Err e, s') ->
  restoreMode = false /\ exists o, obj = OSubnetSet o.
Proof.
  destruct restoreMode; [done|]. intros Ht. split; [done|]. destruct obj as [o|o|o]; [|by eexists|]; cbn in Ht; discriminate.
Qed.

(** A creation or an update in its steps. *)
Lemma createOrUpdateSubnet_cases obj n info restoreMode s r s' :
  createOrUpdateSubnet obj n info restoreMode s = Some (r, s') ->
  match r with
  | Ok g => exists s2 s3, returned info n s g s2 /\ realization g s2 None s3 /\ svc_store s' = store_apply g (svc_store s)
  | Err _ =>
      svc_store s' = svc_store s \/
      exists g s2 s3, returned info n s g s2 /\
        ((realization g s2 None s3 /\ svc_store s' = store_apply g (svc_store s) /\ restoreMode = false /\ exists o, obj = OSubnetSet o) \/
         (exists e, realization g s2 (Some e) s3 /\ removed g s3 /\ svc_store s' = ix_Delete (marked_subnet g) (svc_store s)))
  end.
Proof.
  unfold createOrUpdateSubnet. intros [(u & s1 & Hp & Hk)|(e & Hp & ->)]%bindM_Some; [|left; by apply (stable_noted _ _ (stable_nsx_call _)) in Hp].
  pose proof (stable_noted _ _ (stable_nsx_call _) _ _ _ Hp) as Hs1.
  apply bindM_Some in Hk as [(got & s2 & Hg & Hk)|(e & Hg & ->)]; [|left; apply (stable_noted _ _ (stable_nsx_result _)) in Hg; congruence].
  pose proof (stable_noted _ _ (stable_nsx_result _) _ _ _ Hg) as Hs2.
  pose proof (patched_got _ _ _ _ _ _ _ _ Hp Hg) as Hret.
  assert (Hst : svc_store s2 = svc_store s) by congruence.
  apply bindM_Some in Hk as [(u2 & s3 & Hc & Hk)|(e & Hc & ->)].
  - apply noted_Ok, check_cases in Hc as [Hc [s5 Hreal]].
    apply bindM_Some in Hk as [(u3 & s4 & Ha & Hk)|(e & Ha & ->)]; [|discriminate].
    unfold Apply, on_store in Ha. injection Ha as _ <-.
    apply bindM_Some in Hk as [(u4 & s6 & Ht & Hk)|(e & Ht & ->)].
    + apply (stable_tail _ _) in Ht. cbn in Ht. injection Hk as <- <-. exists s2, s5. rewrite Ht, Hc, Hst. done.
    + pose proof (tail_Err _ _ _ _ _ Ht) as He. apply (stable_tail _ _) in Ht. cbn in Ht. right. exists got, s2, s5. split; [done|].
      left. rewrite Ht, Hc, Hst. done.
  - apply noted_Err in Hc as (s4 & Hc & Hs). apply check_cases in Hc. rewrite Hs. destruct Hc as [Hc|(Hc & e' & s5 & Hun & Hrem)].
    + left. congruence.
    + right. exists got, s2, s5. split; [done|]. right. exists e'. split; [done|]. split; [done|]. congruence.
Qed.

(** C22. Whatever happens in a creation or an update, the store changes only
    with what NSX says. A success means that NSX accepted the Subnet, returned it
    and reported it realized, in this order and from the state of the call, and
    that the returned Subnet entered the store. After an error the store is as it
    was, except in two cases: NSX accepted, returned and realized the Subnet,
    which entered the store, and then the status of the SubnetSet could not be
    updated; or NSX reported the Subnet it had returned as not realized and
    accepted its removal, and it left the store. *)
Theorem createOrUpdateSubnet_store obj n info restoreMode s r s' :
  createOrUpdateSubnet obj n info restoreMode s = Some (r, s') ->
  match r with
  | Ok g => exists s2 s3, returned info n s g s2 /\ realization g s2 None s3 /\ svc_store s' = store_apply g (svc_store s)
  | Err _ =>
      svc_store s' = svc_store s \/
      exists g s2 s3, returned info n s g s2 /\
        ((realization g s2 None s3 /\ svc_store s' = store_apply g (svc_store s) /\ restoreMode = false /\ exists o, obj = OSubnetSet o) \/
         (exists e, realization g s2 (Some e) s3 /\ removed g s3 /\ svc_store s' = ix_Delete (marked_subnet g) (svc_store s)))
  end.
Proof. apply createOrUpdateSubnet_cases. Qed.

Lemma only_element {A} (l : list A) a : NoDup l -> a ∈ l -> (forall x, x ∈ l -> x = a) -> l = [a].
Proof.
  intros Hnd Ha Hall. destruct l as [|x [|y l]]; [by apply not_elem_of_nil in Ha|f_equal; apply Hall; left|].
  assert (x = a) by (apply Hall; left). assert (y = a) by (apply Hall; right; left). subst.
  apply NoDup_cons in Hnd as [Hnd _]. destruct Hnd. left.
Qed.
(** A Subnet CR with one NSX Subnet has one after an update with the same identifier. *)
Lemma listed_after_apply (st : I) uid e g :
  ListSubnetCreatedBySubnet st uid = [e] -> s_Id g = s_Id e -> uid ∈ subnetIndexFunc g -> s_MarkedForDelete g <> Some true ->
  ListSubnetCreatedBySubnet (store_apply g st) uid = [g].
Proof.
  intros He Hid Hu Hm. unfold store_apply. rewrite bool_decide_eq_false_2 by done. unfold ListSubnetCreatedBySubnet in *.
  apply only_element; [apply NoDup_GetByIndex| |].
  - apply elem_of_GetByIndex. split; [done|]. rewrite ix_get_add. by rewrite decide_True.
  - intros x [Hx Hl]%elem_of_GetByIndex. rewrite ix_get_add in Hl. destruct (decide (s_Id x = s_Id g)) as [Hk|Hk]; [by injection Hl|].
    assert (Hin : x ∈ ix_GetByIndex subnetIndexFunc uid st) by (by apply elem_of_GetByIndex).
    rewrite He in Hin. apply list_elem_of_singleton in Hin as ->. congruence.
Qed.

Context (cluster : string) (ipv6 : bool) (uuids : nat -> string) (fuel : nat) (index : string).
Let run := CreateOrUpdateSubnet cluster ipv6 uuids fuel index.
Let built := build cluster ipv6 uuids fuel index.
Lemma build_subnet o tags ips info s b s' :
  built (OSubnet o) tags ips info s = Some (Ok b, s') ->
  s' = s /\ s_Path b = None /\ s_AdvancedConfig b <> None /\ m_UID (sub_meta o) ∈ subnetIndexFunc b /\
  exists ts id name blocks,
    buildSubnetTags cluster (IsNamespaceInTepLessMode (TepLess_List (m_Namespace (sub_meta o)) (svc_world s))) (OSubnet o) tags = Ok ts /\
    b = subnet_of_spec ipv6 o id name ts blocks.
Proof.
  unfold built, build. intros (s0 & s1 & [= <- <-] & (r & s2 & Hr & Hk)%bindM_Ok)%bindM_Ok. unfold mtotal in Hr.
  destruct (buildSubnet _ _ _ _ _ _ _ _ _ _ _ _) as [r'|] eqn:Eb; [|done]. injection Hr as -> <-. injection Hk as -> <-.
  apply buildSubnet_subnet in Eb as (ts & id & name & blocks & Ht & ->). cbn [obj_meta] in Ht. split; [done|]. split; [done|]. split; [done|].
  split; [|by exists ts, id, name, blocks]. by apply buildSubnetTags_uid in Ht.
Qed.
Lemma build_compared o o' tags info ips s b s1 b' s2 :
  sub_meta o' = sub_meta o -> sub_spec o' = sub_spec o ->
  (forall w w' ns, TepLess_List ns w = TepLess_List ns w') ->
  built (OSubnet o) tags ips info s = Some (Ok b, s) -> built (OSubnet o') tags ips info s1 = Some (Ok b', s2) ->
  compared b = compared b'.
Proof.
  intros Hmeta Hspec Htep (_ & _ & _ & _ & ts & id & name & blocks & Ht & ->)%build_subnet
    (_ & _ & _ & _ & ts' & id' & name' & blocks' & Ht' & ->)%build_subnet.
  assert (ts' = ts) as ->.
  { rewrite Hmeta, (Htep _ (svc_world s)) in Ht'. unfold buildSubnetTags, buildBasicTags in *. cbn [object_kind obj_meta] in *.
    rewrite Hmeta in Ht'. congruence. }
  apply compared_fields. unfold subnet_of_spec. by rewrite Hspec.
Qed.
(** The first run: what it leaves in the store, and the build that decided it. *)
Definition faithful : Prop := forall info id n w w1 r w2,
  Subnets_Patch info id n w = (None, w1) -> Subnets_Get info id w1 = (Ok r, w2) ->
  s_Id r = id /\ compared r = compared n /\ s_MarkedForDelete r <> Some true.
Lemma first_run o info tags s g s1 e :
  faithful -> ListSubnetCreatedBySubnet (svc_store s) (m_UID (sub_meta o)) = [e] ->
  run (OSubnet o) info tags s = Some (Ok g, s1) ->
  exists b, built (OSubnet o) tags [] info s = Some (Ok b, s) /\
    ListSubnetCreatedBySubnet (svc_store s1) (m_UID (sub_meta o)) = [g] /\
    ((g = e /\ CompareResource e (merged e b) = false) \/ compared g = compared (merged e b)).
Proof.
  intros Hf He. unfold run, CreateOrUpdateSubnet. intros (b & s0 & Hb & Hk)%bindM_Ok.
  pose proof (build_subnet _ _ _ _ _ _ _ Hb) as (-> & Hpath & Hadv & Huid & _). exists b. split; [done|].
  apply bindM_Ok in Hk as (st & s2 & [= <- <-] & Hk). cbn [svc_store] in Hk. rewrite He in Hk.
  destruct (CompareResource e (merged e b)) eqn:Ec.
  - apply bindM_Ok in Hk as (got & s3 & Hc & Hk).
    apply createOrUpdateSubnet_cases in Hc as (s4 & s5 & (w1 & w2 & Hp & Hg & _) & _ & Hst). rewrite updated_Id in Hp, Hg.
    destruct (Hf _ _ _ _ _ _ _ Hp Hg) as (Hid & Hcmp & Hm). rewrite updated_compared in Hcmp by done.
    assert (got = g /\ svc_store s1 = svc_store s3) as [<- Hs].
    { destruct (negb _); [|by injection Hk as <- <-].
      apply bindM_Ok in Hk as (path & s6 & Hp4%stable_total & (u & s7 & Hr%stable_on_world & Hk)%bindM_Ok).
      injection Hk as <- <-. by rewrite Hr, Hp4. }
    split; [|by right]. rewrite Hs, Hst. apply listed_after_apply with (e := e); try done.
    unfold subnetIndexFunc in *. apply compared_fields in Hcmp as (-> & _). exact Huid.
  - destruct (isSubnetReady o).
    + apply bindM_Ok in Hk as (u & s3 & [= _ <-] & Hk). injection Hk as <- <-. by auto.
    + apply bindM_Ok in Hk as (u & s3 & Hk & _). unfold checkSubnetRealizeState, mtotal, bindM in Hk. cbn in Hk. by rewrite Hpath in Hk.
Qed.

(** A Subnet CR with one Subnet in NSX, where NSX keeps the compared fields
    that it is sent: after a reconcile that succeeded, reconciling the CR again
    once it is ready makes no call of NSX or Kubernetes and changes nothing. *)
Theorem CreateOrUpdateSubnet_idempotent o o' info tags s e g s1 b' :
  faithful -> (forall w w' ns, TepLess_List ns w = TepLess_List ns w') ->
  sub_meta o' = sub_meta o -> sub_spec o' = sub_spec o -> isSubnetReady o' = true ->
  ListSubnetCreatedBySubnet (svc_store s) (m_UID (sub_meta o)) = [e] ->
  CreateOrUpdateSubnet cluster ipv6 uuids fuel index (OSubnet o) info tags s = Some (Ok g, s1) ->
  build cluster ipv6 uuids fuel index (OSubnet o') tags [] info s1 = Some (Ok b', s1) ->
  CreateOrUpdateSubnet cluster ipv6 uuids fuel index (OSubnet o') info tags s1 = Some (Ok g, s1).
Proof.
  intros Hf Htep Hmeta Hspec Hready He Hrun Hb'.
  destruct (first_run _ _ _ _ _ _ _ Hf He Hrun) as (b & Hb & Hl & Hcase).
  pose proof (build_compared _ _ _ _ _ _ _ _ _ _ Hmeta Hspec Htep Hb Hb') as Hcmp.
  assert (Hno : CompareResource g (merged g b') = false).
  { destruct Hcase as [[-> Hc]|Hc].
    - unfold CompareResource, Value, subnet_comparable in *. by rewrite <- (compared_merged e b b' Hcmp).
    - unfold CompareResource, Value, subnet_comparable. rewrite (compared_merged_again e b b' g Hcmp Hc).
      by rewrite bool_decide_eq_true_2. }
  unfold CreateOrUpdateSubnet. unfold bindM at 1. rewrite Hb'. unfold bindM at 1, mget. cbn [svc_store].
  rewrite Hmeta, Hl, Hno, Hready. reflexivity.
Qed.
End Facts.

(** ** A concrete NSX that keeps what it is sent *)
Module SubnetDemo.
Record demo := mkDemo { subnets : gmap string NsxSubnet; calls : list string }.
Definition as_kept (id : string) (n : NsxSubnet) : NsxSubnet :=
  mkNsxSubnet id (s_DisplayName n) (s_AccessMode n) (s_Tags n) (s_AdvancedConfig n) (s_Dhcp n) (s_Dhcpv6 n) (s_Ipv4SubnetSize n)
    (s_Ipv6PrefixLength n) (s_IpAddresses n) (s_IpAddressType n) (s_IpBlocks n) (s_Description n) (s_VlanConnection n)
    (Some ("/orgs/default/projects/p/vpcs/v/subnets/" +:+ id)) (Some "/orgs/default/projects/p/vpcs/v") None.
Definition log (c : string) (w : demo) : demo := mkDemo (subnets w) (calls w ++ [c]).
#[global] Instance demo_world : SubnetWorld demo := {|
  Subnets_Patch _ id n w := (None, mkDemo (<[id := as_kept id n]> (subnets w)) (calls w ++ ["patch"]));
  Subnets_Get _ id w := (match subnets w !! id with Some n => Ok n | None => Err (EText "not found") end, log "get" w);
  Subnets_Delete _ id w := (None, mkDemo (delete id (subnets w)) (calls w ++ ["delete"]));
  SubnetStatus_List _ _ w := (Ok [mkVpcSubnetStatus (Some "10.0.0.0/28") (Some "10.0.0.1/28") None None], log "status" w);
  Realized_List path w := (Ok [mkEntity (Some (if contains_str "bad" path then "ERROR" else "REALIZED")) (Some "x") []], log "realized" w);
  TepLess_List _ _ := Ok [["FullStackVPC"]];
  Kube_GetSubnetSet _ _ w := (Err (EText "not found"), log "k8s" w);
  Kube_UpdateStatus _ w := (None, log "k8s" w);
  ResetSubnetTotalIP _ w := log "reset" w;
  IsConflict _ := false;
  error_text e := match e with EText t => t | _ => "error" end |}.
Definition print_opt (o : option string) : string := default "-" o.
#[global] Instance demo_encoder : SubnetEncoder := {|
  encode_subnet n := join ";" [print_opt (s_Description n); join "," (gateways n); join "," (dhcpServers n); join "," (poolRanges n);
    print_opt (s_IpAddressType n); print_opt (s_Dhcp n ≫= dc_Mode); join "," (map (fun t => print_opt (tag_Scope t) +:+ "=" +:+ print_opt (tag_Tag t)) (s_Tags n))] |}.
Definition demo_store : Type := map_store NsxSubnet s_Id.
Definition demo_meta : meta := mkMeta "web" "ns" "uid-1" ∅ ∅.
Definition demo_spec (description : string) : SubnetSpec :=
  mkSubnetCRSpec "" "IPv4" 16 0 "Private" [] "" [] "" [] "" None [] ["10.0.0.1/28"] [] "" description [].
Definition demo_cr (description : string) (conds : list Condition) : SubnetCR :=
  mkSubnetCR demo_meta (demo_spec description) (mkSubnetStatus [] [] [] (0, false) false conds).
Definition ready : Condition := mkCondition "Ready" "True" "" "".
Definition demo_info : VPCResourceInfo := mkVPCInfo "default" "p" "v" "" "".
Definition old : NsxSubnet :=
  as_kept "web_old" (mkNsxSubnet "" (Some "web") None [newTag TagScopeSubnetCRUID "uid-1"] None None None (Some 16) None ["10.0.0.0/28"] None [] None None None None None).
Definition s0 : service_state demo_store demo := mkService (ix_Add old ix_empty) (mkDemo {["web_old" := old]} []).
Definition demo_run (o : SubnetCR) (s : service_state demo_store demo) := CreateOrUpdateSubnet "c" false (fun _ => "u") 5 "i" (OSubnet o) demo_info [] s.
Definition after (r : option (result goerr NsxSubnet * service_state demo_store demo)) : service_state demo_store demo :=
  match r with Some (_, s) => s | None => s0 end.
Definition answer (r : option (result goerr NsxSubnet * service_state demo_store demo)) : NsxSubnet :=
  match r with Some (Ok g, _) => g | _ => old end.
Definition ok (r : option (result goerr NsxSubnet * service_state demo_store demo)) : bool :=
  match r with Some (Ok _, _) => true | _ => false end.
Lemma ok_eq r : ok r = true -> r = Some (Ok (answer r), after r).
Proof. by destruct r as [[[g|e] s]|]. Qed.
Definition first := demo_run (demo_cr "new" [ready]) s0.
Lemma demo_faithful : faithful (W := demo).
Proof.
  intros info id n w w1 r w2 [= <-]. cbn. rewrite lookup_insert_eq. intros [= <- _]. done.
Qed.
(** A new description: one update, and then nothing. *)
Example first_calls : calls (svc_world (after first)) = ["patch"; "get"; "realized"].
Proof. vm_compute. reflexivity. Qed.
End SubnetDemo.
Lemma CreateOrUpdateSubnet_idempotent_witness :
  SubnetDemo.ok SubnetDemo.first = true /\
  SubnetDemo.demo_run (SubnetDemo.demo_cr "new" [SubnetDemo.ready]) (SubnetDemo.after SubnetDemo.first)
    = Some (Ok (SubnetDemo.answer SubnetDemo.first), SubnetDemo.after SubnetDemo.first).
Proof.
  assert (Hok : SubnetDemo.ok SubnetDemo.first = true) by (vm_compute; reflexivity). split; [exact Hok|].
  set (b := build "c" false (fun _ => "u") 5 "i" (OSubnet (SubnetDemo.demo_cr "new" [SubnetDemo.ready])) [] [] SubnetDemo.demo_info
              (SubnetDemo.after SubnetDemo.first)).
  assert (Hb : SubnetDemo.ok b = true) by (vm_compute; reflexivity). apply SubnetDemo.ok_eq in Hb.
  assert (Hs : SubnetDemo.after b = SubnetDemo.after SubnetDemo.first) by exact (proj1 (build_subnet _ _ _ _ _ _ _ _ _ _ _ _ Hb)).
  rewrite Hs in Hb.
  apply (CreateOrUpdateSubnet_idempotent "c" false (fun _ => "u") 5 "i" (SubnetDemo.demo_cr "new" [SubnetDemo.ready])
           (SubnetDemo.demo_cr "new" [SubnetDemo.ready]) SubnetDemo.demo_info [] SubnetDemo.s0 SubnetDemo.old (SubnetDemo.answer SubnetDemo.first) (SubnetDemo.after SubnetDemo.first) (SubnetDemo.answer b) SubnetDemo.demo_faithful
           (fun _ _ _ => eq_refl) eq_refl eq_refl eq_refl); [vm_compute; reflexivity|exact (SubnetDemo.ok_eq _ Hok)|exact Hb].
Defined.
Lemma createOrUpdateSubnet_store_witness :
  let r := createOrUpdateSubnet (OSubnet (SubnetDemo.demo_cr "" [])) SubnetDemo.old SubnetDemo.demo_info false SubnetDemo.s0 in
  SubnetDemo.ok r = true /\ svc_store (SubnetDemo.after r) = store_apply (SubnetDemo.answer r) (svc_store SubnetDemo.s0).
Proof.
  intros r. assert (Hok : SubnetDemo.ok r = true) by (vm_compute; reflexivity). split; [exact Hok|].
  destruct (createOrUpdateSubnet_store (OSubnet (SubnetDemo.demo_cr "" [])) SubnetDemo.old SubnetDemo.demo_info false SubnetDemo.s0
    (Ok (SubnetDemo.answer r)) (SubnetDemo.after r) (SubnetDemo.ok_eq r Hok)) as (s2 & s3 & _ & _ & Hst). exact Hst.
Defined.
(** A Subnet CR that is not ready and did not change: the check of its realization
    reads the path of the Subnet that was built, which has none, and panics. *)
Lemma unready_unchanged_panics :
  SubnetDemo.demo_run (SubnetDemo.demo_cr "new" []) (SubnetDemo.after SubnetDemo.first) = None.
Proof. vm_compute. reflexivity. Qed.

(** ** Facts: the pages of port settings end *)
Section Pages.
Context {W : Type} (List_ : string -> option string -> W -> result goerr (list (option string) * option string) * W).
Lemma list_pages_end (C : gset string) fuel path cursor seen results w :
  (forall cursor w page c w', List_ path cursor w = (Ok (page, Some c), w') -> c ∈ C) ->
  seen ⊆ C -> (size C - size seen < fuel)%nat -> is_Some (list_pages List_ fuel path cursor seen results w).
Proof.
  intros HC. revert cursor seen results w. induction fuel as [|fuel IH]; intros cursor seen results w Hseen Hf; [lia|]. cbn.
  destruct (List_ path cursor w) as [[[page next]|e] w'] eqn:E; [|by eexists].
  destruct next as [c|]; [|by eexists]. case_bool_decide; [by eexists|]. case_bool_decide as Hc; [by eexists|].
  assert (HcC : c ∈ C) by (by eapply HC). apply IH; [set_solver|].
  assert (Hsz : size ({[c]} ∪ seen) = S (size seen)) by (rewrite size_union, size_singleton by set_solver; done).
  assert (size ({[c]} ∪ seen) <= size C)%nat by (apply subseteq_size; set_solver). lia.
Qed.
(** Calls that gave a page and a next cursor, one after the other, and the
    cursor and state they lead to. *)
Fixpoint followed (path : string) (cursor : option string) (w : W) (l : list (list (option string) * string))
    (cursor' : option string) (w' : W) : Prop :=
  match l with
  | [] => cursor' = cursor /\ w' = w
  | (page, c) :: l => exists w1, List_ path cursor w = (Ok (page, Some c), w1) /\ c <> "" /\ followed path (Some c) w1 l cursor' w'
  end.
(** The last call, after the pages [results] and the cursors [seen]. *)
Definition last_call (path : string) (cursor : option string) (w : W) (seen : gset string) (results : list (option string))
    (r : result goerr (list (option string))) (w' : W) : Prop :=
  match List_ path cursor w with
  | (Err e, w1) => r = Err (default e (TransNSXApiError (Some e))) /\ w' = w1
  | (Ok (page, next), w1) => w' = w1 /\
      (((next = None \/ next = Some "") /\ r = Ok (results ++ page)) \/
       (exists c, next = Some c /\ c <> "" /\ c ∈ seen /\ r = Err (EText "repeated PortSettings pagination cursor")))
  end.
Lemma list_pages_spec fuel path cursor seen results w r w' :
  list_pages List_ fuel path cursor seen results w = Some (r, w') ->
  exists l cursor' w1, followed path cursor w l cursor' w1 /\ NoDup (map snd l) /\ (forall c, c ∈ map snd l -> c ∉ seen) /\
    last_call path cursor' w1 (seen ∪ list_to_set (map snd l)) (results ++ mjoin (map fst l)) r w'.
Proof.
  revert cursor seen results w. induction fuel as [|fuel IH]; intros cursor seen results w; [done|]. cbn [list_pages].
  assert (Hhere : last_call path cursor w seen results r w' -> exists l cursor' w1,
    followed path cursor w l cursor' w1 /\ NoDup (map snd l) /\ (forall c, c ∈ map snd l -> c ∉ seen) /\
    last_call path cursor' w1 (seen ∪ list_to_set (map snd l)) (results ++ mjoin (map fst l)) r w').
  { intros Hl. exists [], cursor, w. split; [by split|]. split; [constructor|]. split; [by intros c ?%elem_of_nil|].
    cbn. rewrite app_nil_r. by replace (seen ∪ ∅) with seen by set_solver. }
  unfold last_call in Hhere at 1.
  destruct (List_ path cursor w) as [[[page next]|e] w1] eqn:E; [|by intros [= <- <-]; apply Hhere].
  destruct next as [c|]; [|intros [= <- <-]; apply Hhere; split; [done|]; left; auto].
  case_bool_decide as Hc; [subst c; intros [= <- <-]; apply Hhere; split; [done|]; left; auto|].
  case_bool_decide as Hs; [intros [= <- <-]; apply Hhere; split; [done|]; right; eauto|].
  intros (l & cursor' & w2 & Hf & Hnd & Hseen & Hl)%IH. exists ((page, c) :: l), cursor', w2.
  split; [by exists w1|]. cbn [map fst snd mjoin list_join list_to_set].
  split; [constructor; [|done]; intros Hin; apply (Hseen c Hin); set_solver|].
  split; [intros d [->|Hd]%elem_of_cons; [done|]; pose proof (Hseen d Hd); set_solver|].
  rewrite (assoc_L (++)). replace (seen ∪ ({[c]} ∪ list_to_set (map snd l))) with ({[c]} ∪ seen ∪ list_to_set (map snd l)) by set_solver.
  exact Hl.
Qed.

(** C26. Reading the port settings of a shared Subnet follows the cursors from
    the first page, each once, and ends: when the cursors NSX hands out come from
    a finite set, there are at most as many calls as cursors and one more. The
    result is all the pages in order when the last one has no next cursor; a
    cursor that was given before is an error, never a partial list; so is a call
    that fails, with its error. A resource that is not a Subnet is refused
    without a call. *)
Theorem port_settings_end (C : gset string) associatedResource w :
  (forall path cursor w page c w', List_ path cursor w = (Ok (page, Some c), w') -> c ∈ C) ->
  exists r w', ListPortSettingsByAssociatedResource List_ (S (size C)) associatedResource w = Some (r, w') /\
    match GetSubnetPathFromAssociatedResource associatedResource with
    | Some path =>
        if ExtractSubnetPath path is Some _ then
          exists l cursor w1, followed path None w l cursor w1 /\ NoDup (map snd l) /\
            last_call path cursor w1 (list_to_set (map snd l)) (mjoin (map fst l)) r w'
        else is_ok r = false /\ w' = w
    | None => is_ok r = false /\ w' = w
    end.
Proof.
  intros HC. unfold ListPortSettingsByAssociatedResource. destruct (GetSubnetPathFromAssociatedResource _) as [path|]; [|by do 2 eexists].
  destruct (ExtractSubnetPath path); [|by do 2 eexists].
  destruct (list_pages_end C (S (size C)) path None ∅ [] w) as [[r w'] Hr]; [by eauto|set_solver|rewrite size_empty; lia|].
  exists r, w'. split; [exact Hr|]. apply list_pages_spec in Hr as (l & cursor & w1 & Hf & Hnd & _ & Hl).
  exists l, cursor, w1. split; [done|]. split; [done|]. by rewrite (left_id_L ∅ (∪)) in Hl.
Qed.
End Pages.
(** An NSX that hands out the same cursor again and again. *)
Definition looping_List (path : string) (cursor : option string) (w : nat) : result goerr (list (option string) * option string) * nat :=
  (Ok ([Some "s"], Some "c"), S w).
Lemma port_settings_end_witness :
  ListPortSettingsByAssociatedResource looping_List 2 "p:v:s" 0%nat = Some (Err (EText "repeated PortSettings pagination cursor"), 2%nat) /\
  exists l cursor w1, followed looping_List "/orgs/default/projects/p/vpcs/v/subnets/s" None 0%nat l cursor w1 /\ NoDup (map snd l).
Proof.
  assert (Hfin : forall path cursor w page c w', looping_List path cursor w = (Ok (page, Some c), w') -> c ∈ ({["c"]} : gset string)).
  { intros path cursor w page c w' Hl. injection Hl as _ <- _. set_solver. }
  destruct (port_settings_end looping_List {["c"]} "p:v:s" 0%nat Hfin) as (r & w' & Hr & Hl).
  split; [vm_compute; reflexivity|].
  assert (E : GetSubnetPathFromAssociatedResource "p:v:s" = Some "/orgs/default/projects/p/vpcs/v/subnets/s") by (vm_compute; reflexivity).
  rewrite E in Hl. destruct (ExtractSubnetPath "/orgs/default/projects/p/vpcs/v/subnets/s") eqn:Ex; [|vm_compute in Ex; discriminate].
  destruct Hl as (l & cursor & w1 & Hf & Hnd & _). by exists l, cursor, w1.
Defined.
