(* ===== verification/SubnetCache.v ===== *)
(** * pkg/nsx/services/subnet: the caches of shared Subnets

    The part of subnet.go that keeps the NSX Subnets shared with Namespaces and
    the CRs that refer to them, and portsettings_cache.go: snapshots of port
    settings with tokens that tell a fetch whether it was overtaken. *)
From S2P Require Import Prelude GoStrings Errors NsxUtil Names Interfaces GoMonad Compare Service Subnet SubnetService.

Definition SharedSubnetRefreshInterval : Z := 600 * 1000000000.
(** An entry is a pointer in the code: its identity is the token. No time
    marks a fetch in progress. *)
Record portSettingsCacheEntry := mkEntry { en_token : nat; en_ids : list string; en_fetchedAt : option Z }.
Record SharedSubnetData := mkShared {
  NSXSubnetCache : gmap string (option NsxSubnet * list VpcSubnetStatus);
  portSettingsCache : gmap string portSettingsCacheEntry;
  SharedSubnetResourceMap : gmap string (gset (string * string));
  next_token : nat }.
Definition set_subnets (c : gmap string (option NsxSubnet * list VpcSubnetStatus)) (d : SharedSubnetData) : SharedSubnetData :=
  mkShared c (portSettingsCache d) (SharedSubnetResourceMap d) (next_token d).
Definition set_settings (c : gmap string portSettingsCacheEntry) (d : SharedSubnetData) : SharedSubnetData :=
  mkShared (NSXSubnetCache d) c (SharedSubnetResourceMap d) (next_token d).
Definition set_resources (m : gmap string (gset (string * string))) (d : SharedSubnetData) : SharedSubnetData :=
  mkShared (NSXSubnetCache d) (portSettingsCache d) m (next_token d).

(** ** Cached Subnets *)
Definition UpdateNSXSubnetCache (associatedResource : string) (nsxSubnet : option NsxSubnet) (statusList : list VpcSubnetStatus)
  (d : SharedSubnetData) : SharedSubnetData := set_subnets (<[associatedResource := (nsxSubnet, statusList)]> (NSXSubnetCache d)) d.
Definition RemoveSubnetFromCache (associatedResource : string) (d : SharedSubnetData) : SharedSubnetData :=
  set_settings (delete associatedResource (portSettingsCache d)) (set_subnets (delete associatedResource (NSXSubnetCache d)) d).
Definition GetNSXSubnetCacheKeys (d : SharedSubnetData) : list string :=
  (map_to_list (NSXSubnetCache d)).*1 ++
  filter (fun k => NSXSubnetCache d !! k = None) (map_to_list (portSettingsCache d)).*1.
Definition shared_by (associatedResource : string) (d : SharedSubnetData) : gset (string * string) :=
  default ∅ (SharedSubnetResourceMap d !! associatedResource).
(** The caches after it, and whether something was removed. *)
Definition RemoveSubnetFromCacheIfUnshared (associatedResource : string) (d : SharedSubnetData) : bool * SharedSubnetData :=
  let removed :=
    bool_decide (shared_by associatedResource d = ∅) &&
    (bool_decide (is_Some (NSXSubnetCache d !! associatedResource)) || bool_decide (is_Some (portSettingsCache d !! associatedResource))) in
  (removed, if removed then RemoveSubnetFromCache associatedResource d else d).
Section Fetch.
Context {W : Type} `{!SubnetWorld W}.
Definition GetNSXSubnetByAssociatedResource (associatedResource : string) (w : W) : result goerr NsxSubnet * W :=
  match split_on ":" associatedResource with
  | [projectID; vpcID; subnetID] =>
      let '(r, w) := Subnets_Get (mkVPCInfo "default" projectID vpcID "" "") subnetID w in (translated r, w)
  | _ => (Err (EText ("invalid associated resource format: " +:+ associatedResource)), w)
  end.
Definition GetNSXSubnetFromCacheOrAPI (associatedResource : string) (forceAPI : bool) (s : SharedSubnetData * W)
  : result goerr NsxSubnet * (SharedSubnetData * W) :=
  let cached := if forceAPI then None else NSXSubnetCache s.1 !! associatedResource ≫= fst in
  match cached with
  | Some n => (Ok n, s)
  | None =>
      match GetNSXSubnetByAssociatedResource associatedResource s.2 with
      | (Err e, w) => (Err e, (s.1, w))
      | (Ok n, w) => (Ok n, (UpdateNSXSubnetCache associatedResource (Some n) [] s.1, w))
      end
  end.
(** [status] reads the status from NSX. *)
Definition GetSubnetStatusFromCacheOrAPI (status : NsxSubnet -> W -> option (result goerr (list VpcSubnetStatus) * W))
    (nsxSubnet : NsxSubnet) (associatedResource : string) (s : SharedSubnetData * W)
  : option (result goerr (list VpcSubnetStatus) * (SharedSubnetData * W)) :=
  match from_option snd [] (NSXSubnetCache s.1 !! associatedResource) with
  | st :: l => Some (Ok (st :: l), s)
  | [] =>
      match status nsxSubnet s.2 with
      | None => None
      | Some (Err e, w) => Some (Err e, (s.1, w))
      | Some (Ok l, w) => Some (Ok l, (UpdateNSXSubnetCache associatedResource (Some nsxSubnet) l s.1, w))
      end
  end.
(** [byKey] and [byUID] read the store of Subnets. *)
Definition GetSubnetByPath (byKey : string -> result goerr NsxSubnet) (path : string) (sharedSubnet : bool) (s : SharedSubnetData * W)
  : result goerr NsxSubnet * (SharedSubnetData * W) :=
  if sharedSubnet then
    match ConvertSubnetPathToAssociatedResource path with
    | None => (Err (EText "invalid path"), s)
    | Some associatedResource => GetNSXSubnetFromCacheOrAPI associatedResource true s
    end
  else
    match ParseVPCResourcePath path with
    | None => (Err (EText ("invalid path '" +:+ path +:+ "' while getting Subnet")), s)
    | Some info => (byKey (info_ID info), s)
    end.
Definition GetSubnetByCR (byUID : string -> list NsxSubnet) (subnet : SubnetCR) (s : SharedSubnetData * W)
  : result goerr NsxSubnet * (SharedSubnetData * W) :=
  let m := sub_meta subnet in
  match m_Annotations m !! "nsx.vmware.com/associated-resource" with
  | Some associatedResource => GetNSXSubnetFromCacheOrAPI associatedResource false s
  | None =>
      (match byUID (m_UID m) with
       | [] => Err (EText ("empty NSX resource path for Subnet CR " +:+ m_Name m))
       | [n] => Ok n
       | _ => Err (EText ("multiple NSX Subnets found for Subnet CR " +:+ m_Name m))
       end, s)
  end.
End Fetch.

(** ** The CRs that refer to a shared Subnet *)
Definition GetSharedSubnetResourceMapSnapshot (d : SharedSubnetData) : gmap string (gset (string * string)) := SharedSubnetResourceMap d.
Definition AddSharedSubnetToResourceMap (associatedResource : string) (nn : string * string) (d : SharedSubnetData) : SharedSubnetData :=
  set_resources (<[associatedResource := {[nn]} ∪ shared_by associatedResource d]> (SharedSubnetResourceMap d)) d.
Definition RemoveSharedSubnetFromResourceMap (associatedResource : string) (nn : string * string) (d : SharedSubnetData) : SharedSubnetData :=
  match SharedSubnetResourceMap d !! associatedResource with
  | None => d
  | Some names =>
      let names := names ∖ {[nn]} in
      set_resources (if bool_decide (names = ∅) then delete associatedResource (SharedSubnetResourceMap d)
                     else <[associatedResource := names]> (SharedSubnetResourceMap d)) d
  end.

(** ** Port settings (portsettings_cache.go): the critical sections of a call *)
Definition InvalidatePortSettingsCache (associatedResource : string) (d : SharedSubnetData) : SharedSubnetData :=
  set_settings (delete associatedResource (portSettingsCache d)) d.
(** The snapshot, when it is fresh and not forced. *)
Definition fresh_ids (associatedResource : string) (forceAPI : bool) (now : Z) (d : SharedSubnetData) : option (list string) :=
  if forceAPI then None
  else
    match portSettingsCache d !! associatedResource with
    | Some e =>
        match en_fetchedAt e with
        | Some t => if bool_decide (now - t < SharedSubnetRefreshInterval) then Some (en_ids e) else None
        | None => None
        end
    | None => None
    end.
(** Installing a new token: its identity, and the cache after it. *)
Definition install_token (associatedResource : string) (d : SharedSubnetData) : nat * SharedSubnetData :=
  let t := next_token d in
  (t, mkShared (NSXSubnetCache d) (<[associatedResource := mkEntry t [] None]> (portSettingsCache d)) (SharedSubnetResourceMap d) (S t)).
Definition holds_token (associatedResource : string) (t : nat) (d : SharedSubnetData) : bool :=
  bool_decide (en_token <$> portSettingsCache d !! associatedResource = Some t).
Definition fetch_failed (associatedResource : string) (t : nat) (d : SharedSubnetData) : SharedSubnetData :=
  if holds_token associatedResource t d then InvalidatePortSettingsCache associatedResource d else d.
Definition errPortSettingsCacheInvalidated : goerr := EText "PortSettings cache invalidated during fetch".
Definition non_empty_ids (l : list (option string)) : list string := filter (fun id => id <> "") (omap id l).
Definition fetch_done (associatedResource : string) (t : nat) (ids : list string) (now : Z) (d : SharedSubnetData)
  : result goerr (list string) * SharedSubnetData :=
  if holds_token associatedResource t d
  then (Ok ids, set_settings (<[associatedResource := mkEntry t ids (Some now)]> (portSettingsCache d)) d)
  else (Err errPortSettingsCacheInvalidated, d).
(** A call without interruption; [lst] reads all pages from NSX. *)
Definition GetPortSettingIDsFromCacheOrAPI (lst : string -> option (result goerr (list (option string)))) (now : Z)
    (associatedResource : string) (forceAPI : bool) (d : SharedSubnetData) : option (result goerr (list string) * SharedSubnetData) :=
  match fresh_ids associatedResource forceAPI now d with
  | Some ids => Some (Ok ids, d)
  | None =>
      let '(t, d) := install_token associatedResource d in
      match lst associatedResource with
      | None => None
      | Some (Err e) => Some (Err e, fetch_failed associatedResource t d)
      | Some (Ok l) => Some (fetch_done associatedResource t (non_empty_ids l) now d)
      end
  end.

(** ** Calls that interleave *)
Module Calls.
(** A call has installed a token and reads NSX; has read the identifiers; or is over. *)
Inductive call := Fetching (key : string) (t : nat) | Read (key : string) (t : nat) (r : result goerr (list string)) | Over.
(** The caches and the calls; what the fetches with a token read, the fetches
    that began, and the next token when a source was last removed or invalidated. *)
Record cstate := mkState {
  data : SharedSubnetData; calls : list call;
  listed : list (nat * string * list string); begun : list (nat * string); removed : gmap string nat }.
Definition start : cstate := mkState (mkShared ∅ ∅ ∅ 0) [] [] [] ∅.
Definition removed_at (key : string) (s : cstate) : nat := default 0%nat (removed s !! key).
(** A removal: [f] takes the entry of the source out of the cache. *)
Inductive removal (key : string) : (SharedSubnetData -> SharedSubnetData) -> Prop :=
  | rm_invalidate : removal key (InvalidatePortSettingsCache key)
  | rm_subnet : removal key (RemoveSubnetFromCache key).
(** An update that does not touch the port settings. *)
Inductive other : (SharedSubnetData -> SharedSubnetData) -> Prop :=
  | ot_update key n l : other (UpdateNSXSubnetCache key n l)
  | ot_add key nn : other (AddSharedSubnetToResourceMap key nn)
  | ot_remove key nn : other (RemoveSharedSubnetFromResourceMap key nn).
Inductive step : cstate -> cstate -> Prop :=
  | step_begin s key force now : fresh_ids key force now (data s) = None ->
      step s (mkState (install_token key (data s)).2 (calls s ++ [Fetching key (install_token key (data s)).1])
                (listed s) (begun s ++ [((install_token key (data s)).1, key)]) (removed s))
  | step_read s i key t ids : calls s !! i = Some (Fetching key t) ->
      step s (mkState (data s) (<[i := Read key t (Ok ids)]> (calls s)) (listed s ++ [(t, key, ids)]) (begun s) (removed s))
  | step_error s i key t e : calls s !! i = Some (Fetching key t) ->
      step s (mkState (data s) (<[i := Read key t (Err e)]> (calls s)) (listed s) (begun s) (removed s))
  | step_done s i key t ids now : calls s !! i = Some (Read key t (Ok ids)) ->
      step s (mkState (fetch_done key t ids now (data s)).2 (<[i := Over]> (calls s)) (listed s) (begun s) (removed s))
  | step_failed s i key t e : calls s !! i = Some (Read key t (Err e)) ->
      step s (mkState (fetch_failed key t (data s)) (<[i := Over]> (calls s)) (listed s) (begun s) (removed s))
  | step_remove s key f : removal key f ->
      step s (mkState (f (data s)) (calls s) (listed s) (begun s) (<[key := next_token (data s)]> (removed s)))
  | step_unshared s key : (RemoveSubnetFromCacheIfUnshared key (data s)).1 = true ->
      step s (mkState (RemoveSubnetFromCacheIfUnshared key (data s)).2 (calls s) (listed s) (begun s)
                (<[key := next_token (data s)]> (removed s)))
  | step_other s f : other f -> step s (mkState (f (data s)) (calls s) (listed s) (begun s) (removed s)).
End Calls.
Import Calls.

(** A token that holds the entry of a source was installed after its last
    removal, and no later fetch of the source began. *)
Definition current (s : cstate) (key : string) (t : nat) : Prop :=
  (removed_at key s <= t)%nat /\ forall t', (t', key) ∈ begun s -> (t' <= t)%nat.
Record safe (s : cstate) : Prop := {
  safe_bound : forall t key, (t, key) ∈ begun s -> (t < next_token (data s))%nat;
  safe_removed : forall key, (removed_at key s <= next_token (data s))%nat;
  safe_entry : forall key e, portSettingsCache (data s) !! key = Some e ->
    current s key (en_token e) /\ (en_fetchedAt e <> None -> (en_token e, key, en_ids e) ∈ listed s);
  safe_read : forall i key t ids, calls s !! i = Some (Read key t (Ok ids)) -> (t, key, ids) ∈ listed s }.
Lemma safe_start : safe start.
Proof.
  split.
  - intros t key H. by apply not_elem_of_nil in H.
  - intros key. unfold removed_at, start. cbn [removed]. rewrite lookup_empty. cbn. lia.
  - intros key e H. cbn [start data portSettingsCache] in H. by rewrite lookup_empty in H.
  - intros i key t ids H. cbn [start calls] in H. by rewrite lookup_nil in H.
Qed.
(** The entries of the cache shrink or stay; the rest of the invariant is kept. *)
Lemma safe_shrink s s' :
  safe s -> next_token (data s') = next_token (data s) -> listed s' = listed s -> begun s' = begun s -> removed s' = removed s ->
  (forall key e, portSettingsCache (data s') !! key = Some e -> portSettingsCache (data s) !! key = Some e) ->
  (forall i key t ids, calls s' !! i = Some (Read key t (Ok ids)) -> (t, key, ids) ∈ listed s) -> safe s'.
Proof.
  intros [Hb Hr He Hc] Hn Hl Hbe Hre Hcache Hcalls. unfold removed_at in *. split.
  - rewrite Hbe, Hn. exact Hb.
  - unfold removed_at. rewrite Hre, Hn. exact Hr.
  - intros key e H. unfold current, removed_at. rewrite Hl, Hbe, Hre. by apply He, Hcache.
  - rewrite Hl. exact Hcalls.
Qed.
Lemma safe_removal s key d :
  safe s -> next_token d = next_token (data s) ->
  portSettingsCache d = delete key (portSettingsCache (data s)) ->
  safe (mkState d (calls s) (listed s) (begun s) (<[key := next_token (data s)]> (removed s))).
Proof.
  intros [Hb Hr He Hc] Hn Hd. split; cbn.
  - rewrite Hn. exact Hb.
  - intros k. unfold removed_at. cbn. rewrite Hn. destruct (decide (k = key)) as [->|Hne]; [by rewrite lookup_insert_eq|].
    rewrite lookup_insert_ne by done. apply Hr.
  - intros k e. rewrite Hd. intros [Hne Hk]%lookup_delete_Some. unfold current, removed_at. cbn. rewrite lookup_insert_ne by done.
    by apply He.
  - exact Hc.
Qed.
Lemma read_insert (cs : list call) i c j key t ids :
  <[i := c]> cs !! j = Some (Read key t (Ok ids)) -> c = Read key t (Ok ids) \/ cs !! j = Some (Read key t (Ok ids)).
Proof.
  intros H. destruct (decide (i = j)) as [<-|Hne]; [|rewrite list_lookup_insert_ne in H by done; by right].
  destruct (decide (i < length cs)%nat) as [Hi|Hi]; [rewrite list_lookup_insert_eq in H by done; left; congruence|].
  rewrite list_insert_ge in H by lia. by right.
Qed.
Lemma safe_step s s' : safe s -> step s s' -> safe s'.
Proof.
  intros Hs Hstep. pose proof Hs as [Hb Hr He Hc]. destruct Hstep.
  - unfold install_token. cbn. split; cbn.
    + intros t k [Hin|Hin]%elem_of_app; [specialize (Hb _ _ Hin); lia|]. apply list_elem_of_singleton in Hin. injection Hin as -> _. lia.
    + intros k. specialize (Hr k). unfold removed_at in *. cbn. cbn in Hr. lia.
    + intros k e. destruct (decide (k = key)) as [->|Hne].
      * rewrite lookup_insert_eq. intros [= <-]. cbn. split; [|done]. split; [apply Hr|].
        intros t' [Hin|Hin]%elem_of_app; [specialize (Hb _ _ Hin); lia|]. apply list_elem_of_singleton in Hin. injection Hin as ->. lia.
      * rewrite lookup_insert_ne by done. intros Hk. destruct (He _ _ Hk) as [[H1 H2] H3]. split; [|done]. split; [done|].
        intros t' [Hin|Hin]%elem_of_app; [by apply H2|]. apply list_elem_of_singleton in Hin. congruence.
    + intros i k t ids Hi. apply lookup_app_Some in Hi as [Hi|[_ Hi]]; [by eapply Hc|].
      apply list_lookup_singleton_Some in Hi as [_ Hi]. discriminate.
  - split; cbn; [exact Hb|exact Hr| |].
    + intros k e Hk. destruct (He _ _ Hk) as [H1 H2]. split; [done|]. intros H3. apply elem_of_app. left. by apply H2.
    + intros j k t' ids' [[= -> -> ->]|Hj]%read_insert; apply elem_of_app; [right; left|left; by eapply Hc].
  - apply (safe_shrink s); try done. intros j k t' ids' [?|Hj]%read_insert; [discriminate|by eapply Hc].
  - assert (Hover : forall j k t' ids', <[i := Over]> (calls s) !! j = Some (Read k t' (Ok ids')) -> (t', k, ids') ∈ listed s).
    { intros j k t' ids' [?|Hj]%read_insert; [discriminate|by eapply Hc]. }
    unfold fetch_done. destruct (holds_token key t (data s)) eqn:Hh; [|by apply (safe_shrink s)].
    apply bool_decide_eq_true, fmap_Some in Hh as (e0 & He0 & ->).
    split; cbn; [exact Hb|exact Hr| |exact Hover]. intros k e. destruct (decide (k = key)) as [->|Hne].
    + rewrite lookup_insert_eq. intros [= <-]. cbn. split; [by apply (He key e0)|]. intros _. by eapply Hc.
    + rewrite lookup_insert_ne by done. intros Hk. by apply He.
  - apply (safe_shrink s); try done.
    + unfold fetch_failed. by destruct (holds_token _ _ _).
    + unfold fetch_failed. destruct (holds_token _ _ _); [|done]. cbn. by intros k e' [_ Hk]%lookup_delete_Some.
    + intros j k t' ids' [?|Hj]%read_insert; [discriminate|by eapply Hc].
  - destruct H; by apply safe_removal.
  - unfold RemoveSubnetFromCacheIfUnshared in *. cbn [fst snd] in *. rewrite H. by apply safe_removal.
  - apply (safe_shrink s); try done; destruct H; cbn; try done; unfold RemoveSharedSubnetFromResourceMap.
    + by destruct (SharedSubnetResourceMap _ !! _).
    + by destruct (SharedSubnetResourceMap _ !! _).
Qed.
Lemma safe_reachable s : rtc step start s -> safe s.
Proof.
  intros H. assert (Hgen : forall a b, rtc step a b -> safe a -> safe b) by (intros a b Hab; induction Hab; eauto using safe_step).
  exact (Hgen _ _ H safe_start).
Qed.

(** C25. In every interleaving of calls, removals and invalidations: a snapshot that
    the cache offers was read from NSX by a fetch that began after the last
    removal or invalidation of its source, and no later fetch of the source
    began; a fetch returns what it read only when this holds for it too, and is
    refused otherwise. *)
Theorem port_settings_fresh s :
  rtc step start s ->
  (forall key force now ids, fresh_ids key force now (data s) = Some ids ->
     exists t, (t, key, ids) ∈ listed s /\ current s key t) /\
  (forall i key t ids now, calls s !! i = Some (Read key t (Ok ids)) ->
     (t, key, ids) ∈ listed s /\
     ((fetch_done key t ids now (data s)).1 = Ok ids -> current s key t)).
Proof.
  intros [Hb Hr He Hc]%safe_reachable. split.
  - intros key force now ids. unfold fresh_ids. destruct force; [done|].
    destruct (portSettingsCache (data s) !! key) as [e|] eqn:E; [|done]. destruct (en_fetchedAt e) as [t|] eqn:Et; [|done].
    case_bool_decide; [|done]. intros [= <-]. destruct (He _ _ E) as [H1 H2]. exists (en_token e). split; [|done]. apply H2. by rewrite Et.
  - intros i key t ids now Hi. split; [by eapply Hc|]. unfold fetch_done.
    destruct (holds_token key t (data s)) eqn:Hh; [|discriminate]. intros _.
    apply bool_decide_eq_true, fmap_Some in Hh as (e & E & ->). by apply (He key e).
Qed.
Lemma port_settings_fresh_witness :
  let s := mkState (mkShared ∅ {["p:v:s" := mkEntry 0 ["port1"] (Some 5)]} ∅ 1) [Over] [(0%nat, "p:v:s", ["port1"])] [(0%nat, "p:v:s")] ∅ in
  rtc step start s /\ fresh_ids "p:v:s" false 6 (data s) = Some ["port1"] /\
  (exists t, (t, "p:v:s", ["port1"]) ∈ listed s /\ current s "p:v:s" t).
Proof.
  cbv zeta. match goal with |- rtc _ _ ?x /\ _ => set (s := x) end.
  assert (H : rtc step start s).
  { eapply rtc_l; [apply (step_begin start "p:v:s" false 5); vm_compute; reflexivity|].
    eapply rtc_l; [apply (step_read _ 0 "p:v:s" 0 ["port1"]); reflexivity|].
    eapply rtc_l; [apply (step_done _ 0 "p:v:s" 0 ["port1"] 5); reflexivity|].
    apply rtc_refl. }
  assert (F : fresh_ids "p:v:s" false 6 (data s) = Some ["port1"]) by (vm_compute; reflexivity).
  split; [exact H|]. split; [exact F|]. exact (proj1 (port_settings_fresh s H) "p:v:s" false 6 ["port1"] F).
Defined.
