(* ===== verification/Vpc.v ===== *)
(** * pkg/nsx/services/vpc: VPCs, load balancer services and attachments

    builder.go, compare.go, store.go and wrap.go: what is built for a Namespace
    from its NetworkInfo and VPCNetworkConfiguration, the keys and indexes of the
    stores, and the request that is sent. *)
From S2P Require Import Prelude GoStrings Errors NsxUtil IPUtil Names Interfaces Subnet.

(** ** Objects of NSX *)
(** [LoadBalancerVpcEndpoint]: a pointer to a structure with a pointer to a flag. *)
Record Vpc := mkVpc {
  v_Id : string; v_DisplayName : option string; v_Path : option string; v_PrivateIps : list string;
  v_LoadBalancerVpcEndpoint : option (option bool); v_IpAddressType : option string; v_Tags : list Tag;
  v_VpcServiceProfile : option string; v_MarkedForDelete : option bool }.
Record LBService := mkLBService {
  lb_Id : option string; lb_DisplayName : option string; lb_Path : option string; lb_ConnectivityPath : option string;
  lb_Size : option string; lb_Tags : list Tag; lb_RelaxScaleValidation : option bool; lb_MarkedForDelete : option bool }.
Record VpcAttachment := mkVpcAttachment {
  va_Id : string; va_DisplayName : string; va_VpcConnectivityProfile : option string; va_Path : option string; va_Tags : list Tag;
  va_PreferredDefaultSnatIp : option string }.
Record VpcIpAddressAllocation := mkVpcIpAllocation {
  ia_Id : string; ia_DisplayName : string; ia_AllocationIp : option string; ia_Visibility : option string; ia_Type : option string;
  ia_PrefixLength : option Z; ia_Tags : list Tag }.
#[global] Instance Vpc_eq_dec : EqDecision Vpc.
Proof. solve_decision. Defined.

(** ** Objects of Kubernetes *)
Record VPCNetworkConfiguration := mkNetConfig {
  nc_Name : string; nc_Annotations : gmap string string; nc_NSXProject : string; nc_VPC : string;
  nc_VPCConnectivityProfile : string; nc_PrivateIPs : list string }.
Record VPCState := mkVPCState { vs_DefaultSNATIP : string; vs_LoadBalancerIPAddresses : string; vs_LoadBalancerBackendIPs : list string }.
Record NetworkInfo := mkNetworkInfo { ni_Name : string; ni_Namespace : string; ni_UID : string; ni_VPCs : list VPCState }.
(** The conditions of a Namespace: type and status. *)
Record Namespace := mkNamespace {
  ns_Name : string; ns_UID : string; ns_Annotations : gmap string string; ns_Conditions : list (string * string) }.
Inductive LBProvider := NSXLB | AVILB | NoneLB.
#[global] Instance LBProvider_eq_dec : EqDecision LBProvider.
Proof. solve_decision. Defined.

(** ** Keys and indexes (builder.go, store.go) *)
Definition defaultLBSName := "default".
Definition combineVPCIDAndLBSID (vpcID lbsID : string) : string := vpcID +:+ "_" +:+ lbsID.
Definition generateLBSKey (lbs : LBService) : result goerr string :=
  match lb_ConnectivityPath lbs with
  | None => Err (EText "ConnectivityPath is nil or empty")
  | Some path =>
      if bool_decide (path = "") then Err (EText "ConnectivityPath is nil or empty")
      else
        let vpcID := default "" (last (split_on "/" path)) in
        if bool_decide (vpcID = "") then Err (EText "invalid VPC ID extracted from ConnectivityPath")
        else
          match lb_Id lbs with
          | Some id => if bool_decide (id = "") then Err (EText "the LBS ID is nil or empty") else Ok (combineVPCIDAndLBSID vpcID id)
          | None => Err (EText "the LBS ID is nil or empty")
          end
  end.
(** The key function of the store, where it does not fail. *)
Definition lbs_key (lbs : LBService) : string := match generateLBSKey lbs with Ok k => k | Err _ => "" end.
(** Virtual servers and pools are kept under their path. *)
Definition path_key (what : string) (path : option string) : result goerr string :=
  match path with
  | Some p => if bool_decide (p = "") then Err (EText (what +:+ " path is nil or empty")) else Ok p
  | None => Err (EText (what +:+ " path is nil or empty"))
  end.
Definition generateVirtualServerKey (path : option string) : result goerr string := path_key "LBVirtualServer" path.
Definition generatePoolKey (path : option string) : result goerr string := path_key "LBPool" path.
Definition vpcIndexNamespaceNameFunc (v : Vpc) : list string := filterTag (v_Tags v) TagNamespaceScope.
Definition vpcIndexNamespaceIDFunc (v : Vpc) : list string := filterTag (v_Tags v) TagScopeNamespaceUID.
Definition vpcIndexVpcNameFunc (v : Vpc) : list string := option_list (v_DisplayName v).
(** [Add] of an object whose key cannot be computed fails, which is not looked at. *)
Definition lbs_Add `{Indexer IL LBService lbs_key} (lbs : LBService) (st : IL) : IL :=
  match generateLBSKey lbs with Ok _ => ix_Add lbs st | Err _ => st end.
Definition lbs_Delete `{Indexer IL LBService lbs_key} (lbs : LBService) (st : IL) : IL :=
  match generateLBSKey lbs with Ok _ => ix_Delete lbs st | Err _ => st end.
Definition LBSStore_Apply `{Indexer IL LBService lbs_key} (lbs : LBService) (st : IL) : result goerr IL :=
  match generateLBSKey lbs with
  | Ok _ => Ok (if bool_decide (lb_MarkedForDelete lbs = Some true) then ix_Delete lbs st else ix_Add lbs st)
  | Err e => Err e
  end.
Definition lbs_GetByKey `{Indexer IL LBService lbs_key} (vpcID : string) (st : IL) : option LBService :=
  ix_GetByKey (combineVPCIDAndLBSID vpcID defaultLBSName) st.
Definition VPCStore_Apply `{Indexer IV Vpc v_Id} (v : Vpc) (st : IV) : IV :=
  if bool_decide (v_MarkedForDelete v = Some true) then ix_Delete v st else ix_Add v st.

(** ** Building (builder.go, compare.go) *)
Definition IsPreCreatedVPC (nc : VPCNetworkConfiguration) : bool := negb (bool_decide (nc_VPC nc = "")).
Definition IsVPCChanged (nc : VPCNetworkConfiguration) (v : Vpc) : bool :=
  negb (bool_decide (length (nc_PrivateIPs nc) = length (v_PrivateIps v))).
Definition endpoint_enabled (v : Vpc) : bool := bool_decide (v_LoadBalancerVpcEndpoint v = Some (Some true)).
Definition DefaultVPCIPAddressType := "IPV4".
Definition network_info_tags (cluster : string) (obj : NetworkInfo) (nsUID : string) : list Tag :=
  BuildBasicTags cluster TNetworkInfo (ni_Namespace obj) (ni_Name obj) (ni_UID obj) nsUID.
(** A VPC with other private addresses, and with an enabled endpoint when [enable]. *)
Definition vpc_with (v : Vpc) (enable : bool) (privateIps : list string) : Vpc :=
  mkVpc (v_Id v) (v_DisplayName v) (v_Path v) privateIps (if enable then Some (Some true) else v_LoadBalancerVpcEndpoint v)
    (v_IpAddressType v) (v_Tags v) (v_VpcServiceProfile v) (v_MarkedForDelete v).
Section Builder.
Context (idExists nameExists : string -> bool) (uuids : nat -> string) (fuel : nat).
Definition buildVpcName (ns : Namespace) : option string :=
  BuildUniqueIDWithSuffix GenerateIDByObject nameExists uuids fuel (mkObject (ns_Name ns) (ns_UID ns)) "" MaxSubnetNameLength.
Definition buildVpcId (ns : Namespace) : option string :=
  BuildUniqueIDWithRandomUUID GenerateIDByObject idExists uuids fuel (mkObject (ns_Name ns) (ns_UID ns)).
(** [Some None]: nothing changed. [None]: a panic of the identifiers, or their fuel is used up. *)
Definition buildNSXVPC (obj : NetworkInfo) (ns : Namespace) (nc : VPCNetworkConfiguration) (cluster : string) (nsxVPC : option Vpc)
    (useAVILB lbProviderChanged serviceClusterReady : bool) : option (option Vpc) :=
  let enableLBEndpoint := useAVILB || serviceClusterReady in
  match nsxVPC with
  | Some v =>
      if negb (IsVPCChanged nc v) && negb lbProviderChanged && Bool.eqb enableLBEndpoint (endpoint_enabled v) then Some None
      else Some (Some (vpc_with v enableLBEndpoint (nc_PrivateIPs nc)))
  | None =>
      name ← buildVpcName ns;
      id ← buildVpcId ns;
      let tags := network_info_tags cluster obj (ns_UID ns) ++ [newTag "nsx/managed-by" "nsx-op"] in
      Some (Some (mkVpc id (Some name) None (nc_PrivateIPs nc) (if enableLBEndpoint then Some (Some true) else None)
                    (Some DefaultVPCIPAddressType) tags None None))
  end.
End Builder.
Definition buildNSXLBS (obj : NetworkInfo) (ns : Namespace) (cluster lbsSize vpcPath : string) (relaxScaleValidation : option bool) : LBService :=
  mkLBService (Some defaultLBSName) (Some defaultLBSName) None (Some vpcPath) (Some lbsSize)
    (network_info_tags cluster obj (ns_UID ns) ++ [newTag "nsx-op/created_for" "SLB"]) relaxScaleValidation None.
Definition LBServiceIPAllocationID := "_DEFAULT--VPC_SERVICE_IP".
Definition LBServiceIPAllocationIDV6 := "_DEFAULT--VPC_SERVICE_IP_V6".
Definition user_specified : list Tag := [newTag "services/vpc_service" "__DEFAULT--VPC_SERVICE_IP__"].
Definition buildNSXLBServiceIPAllocation (lbIP : string) : VpcIpAddressAllocation :=
  mkVpcIpAllocation LBServiceIPAllocationID LBServiceIPAllocationID (Some lbIP) (Some "EXTERNAL") (Some "IPV4") None user_specified.
Definition buildNSXLBServiceIPv6Allocation (lbIP : string) : VpcIpAddressAllocation :=
  mkVpcIpAllocation LBServiceIPAllocationIDV6 LBServiceIPAllocationIDV6 (Some lbIP) None (Some "IPV6") (Some 128) user_specified.
Definition buildVpcAttachment (obj : NetworkInfo) (ns : Namespace) (cluster profile : string) (restoreMode : bool) : VpcAttachment :=
  mkVpcAttachment "default" "default" (Some profile) None (network_info_tags cluster obj (ns_UID ns))
    (match ni_VPCs obj with
     | st :: _ => if restoreMode && negb (bool_decide (vs_DefaultSNATIP st = "")) then Some (vs_DefaultSNATIP st) else None
     | [] => None
     end).

(** ** The request (wrap.go): a VPC of a project with its children, in order *)
Inductive vpc_child := ChildIPAllocation (a : VpcIpAddressAllocation) | ChildLBService (l : LBService) | ChildAttachment (a : VpcAttachment).
Record OrgRoot := mkOrgRoot { or_Org : string; or_Project : string; or_Vpc : Vpc; or_Children : list vpc_child }.
Definition WrapHierarchyVPC (org project : string) (v : Vpc) (allocs : list VpcIpAddressAllocation) (lbs : option LBService)
  (attachment : option VpcAttachment) : OrgRoot :=
  mkOrgRoot org project v (map ChildIPAllocation allocs ++ map ChildLBService (option_list lbs) ++ map ChildAttachment (option_list attachment)).

(** ** Profiles and paths (vpc.go) *)
(** A connectivity profile: the service gateway has an enabled flag, edge
    clusters and the default SNAT of its NAT configuration. *)
Record ServiceGateway := mkServiceGateway { sg_Enable : option bool; sg_EdgeClusterPaths : list string; sg_EnableDefaultSnat : option bool }.
Record VpcConnectivityProfile := mkProfile {
  cp_ParentPath : option string; cp_TransitGatewayPath : option string; cp_ServiceGateway : option ServiceGateway }.
Definition IsServiceGatewayEnabled (p : VpcConnectivityProfile) : bool :=
  match cp_ServiceGateway p with Some sg => default false (sg_Enable sg) | None => false end.
Definition IsEnableAutoSNAT (p : VpcConnectivityProfile) : bool :=
  IsServiceGatewayEnabled p && match cp_ServiceGateway p with Some sg => default false (sg_EnableDefaultSnat sg) | None => false end.
Definition IsVNAMode (profile : option VpcConnectivityProfile) : result goerr bool :=
  match profile ≫= cp_ServiceGateway with
  | None => Err (EText "VPC connectivity profile or ServiceGateway is nil, cannot determine VNA mode")
  | Some sg =>
      match sg_EdgeClusterPaths sg with
      | [] => Err (EText "VPC connectivity profile has no EdgeClusterPaths, cannot determine VNA mode")
      | ps => Ok (forallb (contains_str "/virtual-network-appliance-clusters/") ps)
      end
  end.
Definition GetConnectionTypeFromConnectionPath (connectionPath : string) : result goerr string :=
  match split_on "/" connectionPath with
  | [_; infra; ty; _] =>
      if bool_decide (infra = "infra") then Ok ty else Err (EText ("unexpected connectionPath " +:+ connectionPath))
  | _ => Err (EText ("unexpected connectionPath " +:+ connectionPath))
  end.
Definition findIpv6NdraProfilePath (paths : list string) : string :=
  default "" (List.find (contains_str "/ipv6-ndra-profiles/") paths).
Definition last_part (path : string) : string := default "" (last (split_on "/" path)).
(** [path.Base] *)
Definition path_Base (p : string) : string :=
  if bool_decide (p = "") then "."
  else
    let q := trim_right_by (fun a => bool_decide (a = "/"%char)) p in
    if bool_decide (q = "") then "/" else last_part q.
Definition extractIDFromAviPath (path : string) : string :=
  if bool_decide (path = "") then "" else last_part (if has_suffix "/" path then take_str (String.length path - 1) path else path).
Definition isNamespaceReady (ns : Namespace) : bool :=
  existsb (fun c => bool_decide (c.1 = "NamespaceNetworkReady") && bool_decide (c.2 = "True")) (ns_Conditions ns).
(** [strconv.ParseBool] *)
Definition ParseBool (s : string) : option bool :=
  if bool_decide (s ∈ ["1"; "t"; "T"; "TRUE"; "true"; "True"]) then Some true
  else if bool_decide (s ∈ ["0"; "f"; "F"; "FALSE"; "false"; "False"]) then Some false else None.
Definition IsDefaultNetworkConfigCR (nc : VPCNetworkConfiguration) : bool :=
  match nc_Annotations nc !! "nsx.vmware.com/default" with Some v => default false (ParseBool v) | None => false end.
