(* ===== verification/VpcService.v ===== *)
(** * pkg/nsx/services/vpc: keeping VPCs in NSX and in the stores

    vpc.go, cleanup.go and clean_avi.go: network configurations and the sharing
    of VPCs between Namespaces, creation, update and deletion of VPCs with their
    realization, the load balancer provider, SNAT addresses, connection status,
    router advertisement, and the clean-up. *)
From S2P Require Import Prelude GoStrings Errors NsxUtil IPUtil Names Interfaces GoMonad RealizeState Service NsxCluster Subnet Vpc.

(** The fields read of other objects of NSX. *)
Record VpcServiceProfile := mkServiceProfile { spr_Ipv6ProfilePaths : list string }.
(** NSX and Kubernetes. What the operator reads of Kubernetes comes from a cache
    and does not change the world. *)
Class VpcWorld (W : Type) := {
  Kube_Configs : W -> result goerr (list VPCNetworkConfiguration);
  Kube_Config : string -> W -> result goerr VPCNetworkConfiguration;
  Kube_Namespaces : W -> result goerr (list Namespace);
  Kube_Namespace : string -> W -> result goerr Namespace;
  Kube_IsNotFound : goerr -> bool;
  VPC_Get : string -> string -> string -> W -> result goerr Vpc * W;
  VPC_Delete : string -> string -> string -> W -> option goerr * W;
  OrgRoot_Patch : OrgRoot -> W -> option goerr * W;
  LBS_Get : string -> string -> string -> option string -> W -> result goerr LBService * W;
  LBS_List : string -> string -> string -> W -> result goerr (list LBService) * W;
  Attachment_Get : string -> string -> string -> string -> W -> result goerr VpcAttachment * W;
  Attachment_List : string -> string -> string -> W -> result goerr (list VpcAttachment) * W;
  Profile_Get : string -> string -> string -> W -> result goerr VpcConnectivityProfile * W;
  (** The network stack of a transit gateway and of a VPC. *)
  TgwState_Get : string -> string -> string -> W -> result goerr (option string) * W;
  VpcState_Get : string -> string -> string -> W -> result goerr (option string) * W;
  (** The connection paths of the attachments of a transit gateway. *)
  TgwAttachment_List : string -> string -> string -> W -> result goerr (list (option string)) * W;
  (** The translated networks of the SNAT rules; the path of a Subnet and the network addresses of its status. *)
  NatRules_List : string -> string -> string -> W -> result goerr (list (option string)) * W;
  AviSubnet_Get : string -> string -> string -> W -> result goerr (option string) * W;
  AviSubnetStatus_List : string -> string -> string -> W -> result goerr (list (option string)) * W;
  IPAllocation_Get : string -> string -> string -> string -> W -> result goerr (option string) * W;
  ServiceProfile_Get : string -> string -> string -> W -> result goerr VpcServiceProfile * W;
  (** The mode of a router advertisement profile of a project, and of the infra. *)
  ProjectNdra_Get : string -> string -> string -> W -> result goerr (option string) * W;
  Ndra_Get : string -> W -> result goerr (option string) * W;
  Interface_IPs : string -> W -> result goerr (list string) * W;
  Realized_List : string -> W -> result goerr (list Entity) * W;
  Search_VPCs : W -> list Vpc;
  Http_AlbEndpoint : W -> option goerr * W;
  Http_Project : string -> string -> W -> result goerr (option bool) * W;
  (** [httpGetAviPortsPaths]: the request and the decoding of its response. *)
  Http_Ports : string -> W -> result goerr (list string) * W;
  Http_Delete : string -> W -> option goerr * W;
  Cluster_Health : W -> ClusterHealth;
  Ctx_Err : W -> option goerr }.
Record vpc_config := mkVpcConfig {
  cf_Cluster : string; cf_IPAddressType : option string; cf_LBSize : string; cf_RelaxLBScale : bool; cf_UseAVILoadBalancer : bool;
  cf_VTEPLess : bool }.
(** The stores, and what the service remembers: the provider (a global with a
    lock of its own) and the default projects. *)
Record vpc_stores (IV IL : Type) := mkVpcStores {
  VpcStore : IV; LbsStore : IL; globalLbProvider : LBProvider; defaultProjectCache : gmap string bool }.
Arguments mkVpcStores {IV IL} _ _ _ _.
Arguments VpcStore {IV IL} _.
Arguments LbsStore {IV IL} _.
Arguments globalLbProvider {IV IL} _.
Arguments defaultProjectCache {IV IL} _.
Definition FullStackVPC := "FullStackVPC".
Definition VLANBackedVPC := "VLANBackedVPC".
Definition stack_type (state : option string) : string :=
  if bool_decide (state = Some "VLAN_BACKED_VPC") then VLANBackedVPC else FullStackVPC.
Record VPCConnectionStatus := mkConnectionStatus {
  GatewayConnectionReady : bool; GatewayConnectionReason : string; ServiceClusterReady : bool; ServiceClusterReason : string }.
Definition not_connected : VPCConnectionStatus := mkConnectionStatus false "GatewayConnectionNotSet" false "ServiceClusterNotSet".
(** An error that comes with the status read so far. *)
Fixpoint connections (status : VPCConnectionStatus) (paths : list string) : VPCConnectionStatus * option goerr :=
  match paths with
  | [] => (status, None)
  | p :: paths' =>
      match GetConnectionTypeFromConnectionPath p with
      | Err e => (status, Some e)
      | Ok ty =>
          connections
            (if bool_decide (ty = "gateway-connections")
             then mkConnectionStatus true "" (ServiceClusterReady status) (ServiceClusterReason status)
             else if bool_decide (ty = "distributed-vlan-connections") || bool_decide (ty = "distributed-vxlan-connections")
             then mkConnectionStatus (GatewayConnectionReady status) (GatewayConnectionReason status) true ""
             else status) paths'
      end
  end.
Definition project_of (path : string) : result goerr (string * string) :=
  match NSXProjectPathToId path with Some r => Ok r | None => Err (EText ("invalid NSX project path: " +:+ path)) end.
Definition vpc_info (path : string) : result goerr VPCResourceInfo :=
  match ParseVPCResourcePath path with Some r => Ok r | None => Err (EText ("invalid path '" +:+ path +:+ "'")) end.
Definition is_not_found (e : goerr) : bool := match e with ENSXApi _ ty => bool_decide (ty = "NotFound") | _ => false end.

Section Configurations.
Context {W : Type} `{!VpcWorld W}.
Implicit Types w : W.
Definition GetDefaultNetworkConfig w : result goerr VPCNetworkConfiguration :=
  match Kube_Configs w with
  | Err e => Err e
  | Ok l => match List.find IsDefaultNetworkConfigCR l with Some nc => Ok nc | None => Err (EText "failed to locate default NetworkConfig") end
  end.
Definition GetVPCNetworkConfig (ncCRName : string) w : result goerr (option VPCNetworkConfiguration) :=
  match Kube_Config ncCRName w with
  | Ok nc => Ok (Some nc)
  | Err e => if Kube_IsNotFound e then Ok None else Err e
  end.
Definition GetNetworkconfigNameFromAnnotation (annos : gmap string string) w : result goerr string :=
  match annos !! "nsx.vmware.com/vpc_network_config" with
  | Some ncName => Ok ncName
  | None => match GetDefaultNetworkConfig w with Ok nc => Ok (nc_Name nc) | Err e => Err e end
  end.
Definition GetNetworkconfigNameFromNS (ns : string) w : result goerr string :=
  match Kube_Namespace ns w with Err e => Err e | Ok obj => GetNetworkconfigNameFromAnnotation (ns_Annotations obj) w end.
Definition GetNamespacesByNetworkconfigName (nc : string) w : result goerr (list string) :=
  match Kube_Namespaces w with
  | Err e => Err e
  | Ok l => Ok (map ns_Name (filter (fun n => GetNetworkconfigNameFromAnnotation (ns_Annotations n) w = Ok nc) l))
  end.
Definition GetVPCNetworkConfigByNamespace (ns : string) w : result goerr (option VPCNetworkConfiguration) :=
  match GetNetworkconfigNameFromNS ns w with Err e => Err e | Ok ncName => GetVPCNetworkConfig ncName w end.
(** The Namespace itself, or the one whose VPC it shares. *)
Inductive vpc_owner := OwnNamespace (n : Namespace) | SharedNamespace (n : Namespace).
Definition resolveSharedVPCNamespace (ns : string) w : result goerr vpc_owner :=
  match Kube_Namespace ns w with
  | Err e => Err e
  | Ok obj =>
      match ns_Annotations obj !! "nsx.vmware.com/shared_vpc_namespace" with
      | None => Ok (OwnNamespace obj)
      | Some shared =>
          if bool_decide (shared = ns) then Ok (SharedNamespace obj)
          else match Kube_Namespace shared w with Err e => Err e | Ok s => Ok (SharedNamespace s) end
      end
  end.
Definition IsSharedVPCNamespaceByNS (ns : string) w : result goerr bool :=
  match resolveSharedVPCNamespace ns w with
  | Err e => Err e
  | Ok (OwnNamespace _) => Ok false
  | Ok (SharedNamespace s) => Ok (negb (bool_decide (ns_Name s = ns)))
  end.
Fixpoint pre_created (acc : gmap string string) (l : list VPCNetworkConfiguration) w : result goerr (gmap string string) :=
  match l with
  | [] => Ok acc
  | nc :: l' =>
      if IsPreCreatedVPC nc then
        match GetNamespacesByNetworkconfigName (nc_Name nc) w with
        | Err e => Err e
        | Ok nsList => pre_created (foldl (fun m ns => <[ns := nc_VPC nc]> m) acc nsList) l' w
        end
      else pre_created acc l' w
  end.
Definition GetNamespacesWithPreCreatedVPCs w : result goerr (gmap string string) :=
  match Kube_Configs w with Err e => Err e | Ok l => pre_created ∅ l w end.
End Configurations.

Section Service.
Context {IV IL W : Type} `{!Indexer IV Vpc v_Id} `{!Indexer IL LBService lbs_key} `{!VpcWorld W} `{!RetryDriver}.
Context (cf : vpc_config) (uuids : nat -> string) (fuel : nat).
Local Abbreviation VpcM := (Svc (I := vpc_stores IV IL) (W := W)).
Implicit Types st : vpc_stores IV IL.
Definition set_vpcs (f : IV -> IV) st : vpc_stores IV IL :=
  mkVpcStores (f (VpcStore st)) (LbsStore st) (globalLbProvider st) (defaultProjectCache st).
Definition set_lbs (f : IL -> IL) st : vpc_stores IV IL :=
  mkVpcStores (VpcStore st) (f (LbsStore st)) (globalLbProvider st) (defaultProjectCache st).
Definition nsxVpcIdExists st (vpcId : string) : bool := bool_decide (is_Some (ix_GetByKey vpcId (VpcStore st))).
Definition nsxVpcNameExists st (vpcName : string) : bool := negb (bool_decide (ix_GetByIndex vpcIndexVpcNameFunc vpcName (VpcStore st) = [])).
Definition GetVPCsByNamespace (ns : string) st : list Vpc := ix_GetByIndex vpcIndexNamespaceNameFunc ns (VpcStore st).
Definition GetVPCsByNamespaceIDFromStore (namespaceID : string) st : list Vpc := ix_GetByIndex vpcIndexNamespaceIDFunc namespaceID (VpcStore st).
Definition ListVPC st : list Vpc := ix_List (VpcStore st).
Definition GetCurrentVPCsByNamespace (ns : string) st (w : W) : list Vpc :=
  match resolveSharedVPCNamespace ns w with
  | Err _ => []
  | Ok (OwnNamespace n) | Ok (SharedNamespace n) => GetVPCsByNamespaceIDFromStore (ns_UID n) st
  end.

(** *** Network stacks *)
Definition GetVpcConnectivityProfile (nc : VPCNetworkConfiguration) (profilePath : string) (w : W) : result goerr VpcConnectivityProfile * W :=
  match project_of (nc_NSXProject nc) with
  | Err e => (Err e, w)
  | Ok (org, project) => Profile_Get org project (last_part profilePath) w
  end.
Definition GetNetworkStackFromTGW (profile : VpcConnectivityProfile) : VpcM string :=
  match cp_ParentPath profile with
  | None => mfail (EText "profile or its parent path is nil")
  | Some _ =>
      match cp_TransitGatewayPath profile with
      | None => mfail (EText "profile.TransitGatewayPath is nil")
      | Some tgw =>
          let! (org, project) := mresult (project_of tgw) in
          let! state := nsx_result (TgwState_Get org project (last_part tgw)) in
          mret (stack_type state)
      end
  end.
Definition GetNetworkStackFromVPCPath (vpcPath : string) : VpcM string :=
  let! i := mresult (vpc_info vpcPath) in
  let! state := nsx_result (VpcState_Get (OrgID i) (ProjectID i) (VPCID i)) in
  mret (stack_type state).
Definition GetNetworkStackFromNC (nc : VPCNetworkConfiguration) : VpcM string :=
  if negb (cf_VTEPLess cf) then mret FullStackVPC
  else if IsPreCreatedVPC nc then GetNetworkStackFromVPCPath (nc_VPC nc)
  else
    let! profile := world_result (GetVpcConnectivityProfile nc (nc_VPCConnectivityProfile nc)) in
    GetNetworkStackFromTGW profile.
Definition ValidateNetworkConfig (nc : VPCNetworkConfiguration) : VpcM unit :=
  match project_of (nc_NSXProject nc) with
  | Err e => mfail (EWrap ("invalid NSXProject: " +:+ nc_NSXProject nc) e)
  | Ok _ =>
      if IsPreCreatedVPC nc then mret tt
      else
        let! networkStack := GetNetworkStackFromNC nc in
        if bool_decide (networkStack = VLANBackedVPC) || bool_decide (cf_IPAddressType cf = Some "IPv6")
           || negb (bool_decide (nc_PrivateIPs nc = [])) then mret tt
        else mfail (EText "missing private cidr")
  end.

(** *** Deletion and realization *)
Definition marked_vpc (v : Vpc) : Vpc :=
  mkVpc (v_Id v) (v_DisplayName v) (v_Path v) (v_PrivateIps v) (v_LoadBalancerVpcEndpoint v) (v_IpAddressType v) (v_Tags v)
    (v_VpcServiceProfile v) (Some true).
(** The stores after NSX has deleted a VPC with its children. *)
Definition forget_vpc (vpcID : string) st : vpc_stores IV IL :=
  let st := match lbs_GetByKey vpcID (LbsStore st) with Some lbs => set_lbs (lbs_Delete lbs) st | None => st end in
  match ix_GetByKey vpcID (VpcStore st) with Some v => set_vpcs (VPCStore_Apply (marked_vpc v)) st | None => st end.
Definition DeleteVPC (path : string) : VpcM unit :=
  let! i := mresult (vpc_info path) in
  let! _ := nsx_call (VPC_Delete (OrgID i) (ProjectID i) (VPCID i)) in
  on_store (forget_vpc (VPCID i)).
(** A resource whose realization is in error takes the whole VPC with it. *)
Definition check_or_delete (path : string) (extraIds : list string) (newVpcPath : string) : VpcM unit :=
  let! err := check_realized Realized_List path extraIds in
  match err with
  | None => mret tt
  | Some e => let! _ := (if IsRealizeStateError (Some e) then DeleteVPC newVpcPath else mret tt) in mfail e
  end.
Definition checkVPCRealizationState (newVpcPath : string) : VpcM unit :=
  check_or_delete newVpcPath ["gateway-interface"] newVpcPath.
Definition checkLBSRealization (createdLBS : option LBService) (vpcId : string) (nc : VPCNetworkConfiguration) (newVpcPath : string) : VpcM unit :=
  match createdLBS with
  | None => mret tt
  | Some lbs =>
      let! (org, project) := mresult (project_of (nc_NSXProject nc)) in
      let! newLBS := world_result (LBS_Get org project vpcId (lb_Id lbs)) in
      match lb_ConnectivityPath newLBS with
      | None => mfail (EText "ConnectivityPath in LBS is empty")
      | Some _ =>
          let! _ := on_store (set_lbs (lbs_Add newLBS)) in
          let! path := mtotal (lb_Path newLBS) in
          check_or_delete path [] newVpcPath
      end
  end.
Definition checkVpcAttachmentRealization (createdAttachment : option VpcAttachment) (vpcId : string) (nc : VPCNetworkConfiguration)
    (newVpcPath : string) : VpcM unit :=
  match createdAttachment with
  | None => mret tt
  | Some a =>
      let! (org, project) := mresult (project_of (nc_NSXProject nc)) in
      let! newAttachment := world_result (Attachment_Get org project vpcId (va_Id a)) in
      match va_VpcConnectivityProfile newAttachment with
      | None => mfail (EText "VpcConnectivityProfile in VPCAttachment is empty")
      | Some _ =>
          let! path := mtotal (va_Path newAttachment) in
          check_or_delete path [] newVpcPath
      end
  end.

(** *** Creation and update *)
(** [None]: a panic on the missing path of the VPC. *)
Definition IsLBProviderChanged (existingVPC : option Vpc) (lbProvider : LBProvider) st : option bool :=
  match existingVPC, lbProvider with
  | None, _ | _, NoneLB => Some false
  | Some v, AVILB => Some (negb (endpoint_enabled v))
  | Some v, NSXLB =>
      path ← v_Path v;
      let vpcID := match ParseVPCResourcePath path with Some i => VPCID i | None => "" end in
      Some (bool_decide (lbs_GetByKey vpcID (LbsStore st) = None))
  end.
(** The first address of each family. *)
Definition backend_ips (ips : list string) : string * string :=
  (default "" (List.find (fun ip => negb (IsIPv6 ip) && negb (bool_decide (ip = ""))) ips), default "" (List.find IsIPv6 ips)).
Definition lb_allocations (v4 v6 : string) : list VpcIpAddressAllocation :=
  (if bool_decide (v4 = "") then [] else [buildNSXLBServiceIPAllocation v4]) ++
  (if bool_decide (v6 = "") then [] else [buildNSXLBServiceIPv6Allocation v6]).
Definition buildLBServiceIPAllocsForRestore (obj : NetworkInfo) (nc : VPCNetworkConfiguration) (lbProvider : LBProvider)
  : VpcM (list VpcIpAddressAllocation) :=
  if negb (bool_decide (lbProvider = NSXLB)) then mret []
  else
    let! networkStack := GetNetworkStackFromNC nc in
    if negb (bool_decide (networkStack = VLANBackedVPC)) then mret []
    else
      match ni_VPCs obj with
      | [] => mfail (EText ("cannot restore LB service IP allocations for tepless VPC: no VPC state in NetworkInfo " +:+ ni_Name obj))
      | vs :: _ =>
          match backend_ips (vs_LoadBalancerBackendIPs vs) with
          | ("", "") =>
              let primary := vs_LoadBalancerIPAddresses vs in
              if bool_decide (primary = "")
              then mfail (EText ("cannot restore LB service IP allocations for tepless VPC: LoadBalancerIPAddresses is not set in NetworkInfo " +:+ ni_Name obj))
              else if IsIPv6 primary then mret (lb_allocations "" primary) else mret (lb_allocations primary "")
          | (v4, v6) => mret (lb_allocations v4 v6)
          end
      end.
(** NSX may have created the VPC although it answered with an error. *)
Definition createNSXVPC (createdVpc : Vpc) (nc : VPCNetworkConfiguration) (orgRoot : OrgRoot) : VpcM unit :=
  let! (org, project) := mresult (project_of (nc_NSXProject nc)) in
  let! patched := mcatch (nsx_call (OrgRoot_Patch orgRoot)) in
  match patched with
  | Ok _ => mret tt
  | Err err =>
      let! failed := mcatch (nsx_result (VPC_Get org project (v_Id createdVpc))) in
      match failed with Ok _ => mret tt | Err _ => mfail err end
  end.
Definition GetVPCFromNSXByPath (vpcPath : string) : VpcM Vpc :=
  let! i := mresult (vpc_info vpcPath) in
  nsx_result (VPC_Get (OrgID i) (ProjectID i) (VPCID i)).
(** Nothing changed: the realization is checked again while the Namespace is
    not ready. *)
Definition recheck (ns : Namespace) (nc : VPCNetworkConfiguration) (v : Vpc) (lbs : option LBService) (attachment : VpcAttachment) : VpcM Vpc :=
  let! _ :=
    if isNamespaceReady ns then mret tt
    else
      let! path := mtotal (v_Path v) in
      let! _ := checkVPCRealizationState path in
      let! _ := checkLBSRealization lbs (v_Id v) nc path in
      checkVpcAttachmentRealization (Some attachment) (v_Id v) nc path in
  mret v.
Definition send_vpc (org project : string) (createdVpc : Vpc) (allocs : list VpcIpAddressAllocation) (lbs : option LBService)
    (attachment : VpcAttachment) (nc : VPCNetworkConfiguration) : VpcM Vpc :=
  let! _ := createNSXVPC createdVpc nc (WrapHierarchyVPC org project createdVpc allocs lbs (Some attachment)) in
  let! newVpc := nsx_result (VPC_Get org project (v_Id createdVpc)) in
  let! path := mtotal (v_Path newVpc) in
  let! _ := checkVPCRealizationState path in
  let! _ := on_store (set_vpcs (ix_Add newVpc)) in
  let! _ := checkLBSRealization lbs (v_Id createdVpc) nc path in
  let! _ := checkVpcAttachmentRealization (Some attachment) (v_Id createdVpc) nc path in
  mret newVpc.
(** The VPC of a Namespace that has one of its own: [existing] is the stored one. *)
Definition own_vpc (org project : string) (obj : NetworkInfo) (ns : Namespace) (nc : VPCNetworkConfiguration) (existing : option Vpc)
    (lbProvider : LBProvider) (serviceClusterReady restoreMode : bool) : VpcM Vpc :=
  let! s := mget in
  let st := svc_store s in
  let! changed := mtotal (IsLBProviderChanged existing lbProvider st) in
  let! built := mtotal (buildNSXVPC (nsxVpcIdExists st) (nsxVpcNameExists st) uuids fuel obj ns nc (cf_Cluster cf) existing
                          (bool_decide (lbProvider = AVILB)) changed serviceClusterReady) in
  let lbs := if bool_decide (lbProvider = NSXLB)
             then Some (buildNSXLBS obj ns (cf_Cluster cf) (cf_LBSize cf) ("/orgs/" +:+ org +:+ "/projects/" +:+ project +:+ "/vpcs/" +:+ nc_Name nc)
                          (if cf_RelaxLBScale cf then Some true else None))
             else None in
  let! allocs := if restoreMode then buildLBServiceIPAllocsForRestore obj nc lbProvider else mret [] in
  let attachment := buildVpcAttachment obj ns (cf_Cluster cf) (nc_VPCConnectivityProfile nc) restoreMode in
  match built with
  | None => let! v := mtotal existing in recheck ns nc v lbs attachment
  | Some createdVpc => send_vpc org project createdVpc allocs lbs attachment nc
  end.
Definition CreateOrUpdateVPC (obj : NetworkInfo) (nc : VPCNetworkConfiguration) (lbProvider : LBProvider)
    (serviceClusterReady restoreMode : bool) : VpcM Vpc :=
  let! (org, project) := mresult (project_of (nc_NSXProject nc)) in
  let! s := mget in
  let! ns := mresult (Kube_Namespace (ni_Namespace obj) (svc_world s)) in
  if IsPreCreatedVPC nc then GetVPCFromNSXByPath (nc_VPC nc)
  else
    let! isShared := mresult (IsSharedVPCNamespaceByNS (ni_Namespace obj) (svc_world s)) in
    let existing := GetCurrentVPCsByNamespace (ni_Namespace obj) (svc_store s) (svc_world s) in
    if isShared : bool then
      match existing with
      | v :: _ => mret v
      | [] => mfail (EText ("the shared VPC is not created yet, Namespace " +:+ ni_Namespace obj))
      end
    else own_vpc org project obj ns nc (head existing) lbProvider serviceClusterReady restoreMode.
End Service.

(** ** Queries of NSX *)
Section Queries.
Context {IV IL W : Type} `{!Indexer IV Vpc v_Id} `{!Indexer IL LBService lbs_key} `{!VpcWorld W} `{!RetryDriver}.
Context (cf : vpc_config).
Local Abbreviation VpcM := (Svc (I := vpc_stores IV IL) (W := W)).
Implicit Types st : vpc_stores IV IL.
(** *** The provider of load balancers *)
Definition profile_retriable (e : goerr) : bool :=
  match (DumpAPIError e).2 with Some ty => bool_decide (ty = "ServiceUnavailable") || bool_decide (ty = "TimedOut") | None => false end.
Definition GetVpcConnectivityProfileWithRetry (nc : VPCNetworkConfiguration) : VpcM VpcConnectivityProfile := fun s =>
  let '(e, (w, profile)) :=
    OnError profile_retriable (fun '(w, _) =>
      match GetVpcConnectivityProfile nc (nc_VPCConnectivityProfile nc) w with
      | (Ok p, w) => (None, (w, Some p))
      | (Err e, w) => (Some e, (w, None))
      end) (svc_world s, None) in
  let s := mkService (svc_store s) w in
  match e, profile with
  | Some e, _ => Some (Err e, s)
  | None, Some p => Some (Ok p, s)
  | None, None => None
  end.
Definition checkALBEndpoint : VpcM bool :=
  let! probe := on_world Http_AlbEndpoint in
  match probe with
  | None => mret true
  | Some e =>
      if bool_decide (HttpNotFoundError ∈ chain e) then
        let! s := mget in
        match Cluster_Health (svc_world s) with
        | RED => mfail (EText "NSX cluster status is DOWN, will recheck ALB endpoint once healthy")
        | _ => mret false
        end
      else mfail e
  end.
Definition getLBProvider (edgeEnable : bool) : VpcM LBProvider :=
  let! s := mget in
  let! found := if cf_UseAVILoadBalancer cf && bool_decide (ix_List (LbsStore (svc_store s)) = []) then checkALBEndpoint else mret false in
  mret (if found : bool then AVILB else if edgeEnable then NSXLB else NoneLB).
Definition set_provider (p : LBProvider) st : vpc_stores IV IL := mkVpcStores (VpcStore st) (LbsStore st) p (defaultProjectCache st).
(** Under the lock of the provider. *)
Definition GetLBProvider : VpcM LBProvider :=
  let! s := mget in
  if negb (bool_decide (globalLbProvider (svc_store s) = NoneLB)) then mret (globalLbProvider (svc_store s))
  else
    let! netConfig := mresult (GetVPCNetworkConfig "system" (svc_world s)) in
    match netConfig with
    | None => mret NoneLB
    | Some nc =>
        let! profile := GetVpcConnectivityProfileWithRetry nc in
        let! provider := getLBProvider (IsServiceGatewayEnabled profile) in
        let! _ := on_store (set_provider provider) in
        mret provider
    end.

(** *** Addresses *)
Definition GetDefaultSNATIP (v : Vpc) : VpcM string :=
  let! path := mtotal (v_Path v) in
  let! i := mresult (vpc_info path) in
  let! rules := nsx_result (NatRules_List (OrgID i) (ProjectID i) (VPCID i)) in
  match rules with [] => mret "" | r :: _ => mtotal r end.
Definition GetAVISubnetInfo (v : Vpc) : VpcM (string * list string) :=
  let! path := mtotal (v_Path v) in
  let! i := mresult (vpc_info path) in
  let! subnet := nsx_result (AviSubnet_Get (OrgID i) (ProjectID i) (VPCID i)) in
  let! subnetPath := mtotal subnet in
  let! statusList := nsx_result (AviSubnetStatus_List (OrgID i) (ProjectID i) (VPCID i)) in
  match statusList with
  | [] => mfail (EText ("AVI subnet status not found for VPC " +:+ v_Id v))
  | _ =>
      match omap id statusList with
      | [] => mfail (EText ("no network address found in AVI subnet status for VPC " +:+ v_Id v))
      | cidrs => mret (subnetPath, cidrs)
      end
  end.
(** The addresses of an allocation, none when it does not exist. *)
Definition allocation_ips (i : VPCResourceInfo) (id : string) : VpcM (list string) :=
  let! r := mcatch (nsx_result (IPAllocation_Get (OrgID i) (ProjectID i) (VPCID i) id)) in
  match r with
  | Ok ips => mret (option_list ips)
  | Err e => if is_not_found e then mret [] else mfail e
  end.
Definition GetNSXLBSNATIPsForTepLessVPC (vpcPath : string) : VpcM (list string) :=
  let! i := mresult (vpc_info vpcPath) in
  let! v4 := allocation_ips i LBServiceIPAllocationID in
  let! v6 := allocation_ips i LBServiceIPAllocationIDV6 in
  match v4 ++ v6 with
  | [] => mfail (EText ("no VPC service IP found for TEP-less VPC " +:+ VPCID i))
  | ips => mret ips
  end.
Definition GetNSXLBSNATIP (v : Vpc) (interfaceID : string) (tepLess : bool) : VpcM (list string) :=
  let! path := mtotal (v_Path v) in
  if tepLess then GetNSXLBSNATIPsForTepLessVPC path
  else
    let! i := mresult (vpc_info path) in
    world_result (Interface_IPs ("/orgs/" +:+ OrgID i +:+ "/projects/" +:+ ProjectID i +:+
      "/realized-state/enforcement-points/default/vpcs/" +:+ VPCID i +:+ "/" +:+ interfaceID)).

(** *** Connections *)
Definition GetVpcConnectivityProfilePathByVpcPath (vpcPath : string) : VpcM string :=
  let! i := mresult (vpc_info vpcPath) in
  let! attachments := world_result (Attachment_List (OrgID i) (ProjectID i) (VPCID i)) in
  match attachments with [] => mret "" | a :: _ => mtotal (va_VpcConnectivityProfile a) end.
Definition gateway_ready (profile : VpcConnectivityProfile) : bool :=
  match cp_ServiceGateway profile with
  | Some sg => default false (sg_Enable sg) && negb (bool_decide (sg_EdgeClusterPaths sg = []))
  | None => false
  end.
(** The status comes with the error, if there is one. *)
Definition ValidateConnectionStatus (nc : VPCNetworkConfiguration) (profilePath : string) : VpcM (option VPCConnectionStatus * option goerr) :=
  match project_of (nc_NSXProject nc) with
  | Err e => mret (None, Some e)
  | Ok (org, project) =>
      let! got := mcatch (world_result (GetVpcConnectivityProfile nc profilePath)) in
      match got with
      | Err e => mret (None, Some e)
      | Ok profile =>
          if negb (gateway_ready profile) then mret (Some not_connected, None)
          else
            let! tgw := mtotal (cp_TransitGatewayPath profile) in
            let! res := mcatch (nsx_result (TgwAttachment_List org project (last_part tgw))) in
            match res with
            | Err e => mret (Some not_connected, Some e)
            | Ok l =>
                let! paths := mtotal (mapM id l) in
                let '(status, e) := connections not_connected paths in
                mret (Some status, e)
            end
      end
  end.
(** The place of a VPC and its private addresses. *)
Definition ListVPCInfo (ns : string) st (w : W) : option (list (VPCResourceInfo * list string)) :=
  match GetVPCNetworkConfigByNamespace ns w with
  | Err _ => Some []
  | Ok nc =>
      match nc with
      | Some nc =>
          if IsPreCreatedVPC nc then Some (map (fun i => (i, [])) (option_list (ParseVPCResourcePath (nc_VPC nc))))
          else mapM (fun v => path ← v_Path v; Some (default no_info (ParseVPCResourcePath path), v_PrivateIps v)) (GetCurrentVPCsByNamespace ns st w)
      | None => mapM (fun v => path ← v_Path v; Some (default no_info (ParseVPCResourcePath path), v_PrivateIps v)) (GetCurrentVPCsByNamespace ns st w)
      end
  end.
(** The path of the default load balancer service; [None]: it is missing in the store's object. *)
Definition GetDefaultNSXLBSPathByVPC (vpcID : string) st : option string :=
  match lbs_GetByKey vpcID (LbsStore st) with None => Some "" | Some lbs => lb_Path lbs end.
Definition GetLBSsFromNSXByVPC (vpcPath : string) : VpcM string :=
  let! i := mresult (vpc_info vpcPath) in
  let! lbs := nsx_result (LBS_List (OrgID i) (ProjectID i) (VPCID i)) in
  match lbs with [] => mret "" | l :: _ => mtotal (lb_Path l) end.
(** The search fills a store whose key is the identifier; the result is by path. *)
Definition GetAllVPCsFromNSX (w : W) : option (gmap string Vpc) :=
  let found := foldl (fun found v => ix_Add v found) (ix_empty (I := IV)) (Search_VPCs w) in
  foldl (fun m v => m ← m; p ← v_Path v; Some (<[p := v]> m)) (Some ∅) (ix_List found).

(** *** Router advertisement *)
Definition getIpv6NdraProfile (i : VPCResourceInfo) (path : string) : W -> result goerr (option string) * W :=
  if has_prefix "/orgs/" path then ProjectNdra_Get (OrgID i) (ProjectID i) (path_Base path) else Ndra_Get (path_Base path).
Definition resolveRADeactivated (i : VPCResourceInfo) : VpcM bool :=
  let! v := nsx_result (VPC_Get (OrgID i) (ProjectID i) (VPCID i)) in
  match v_VpcServiceProfile v with
  | None | Some "" => mret true
  | Some sp =>
      let! profile := nsx_result (ServiceProfile_Get (OrgID i) (ProjectID i) (path_Base sp)) in
      let ndra := findIpv6NdraProfilePath (spr_Ipv6ProfilePaths profile) in
      if bool_decide (ndra = "") then mret true
      else
        let! mode := nsx_result (getIpv6NdraProfile i ndra) in
        mret (bool_decide (mode = None) || bool_decide (mode = Some "DISABLED"))
  end.
Definition IsRADeactivatedByVPCPath (vpcPath : string) : VpcM bool :=
  let! i := mresult (vpc_info vpcPath) in resolveRADeactivated i.
(** A project is asked for once. *)
Definition set_project (key : string) (b : bool) st : vpc_stores IV IL :=
  mkVpcStores (VpcStore st) (LbsStore st) (globalLbProvider st) (<[key := b]> (defaultProjectCache st)).
Definition IsDefaultNSXProject (orgID projectID : string) : VpcM bool :=
  let key := orgID +:+ "/" +:+ projectID in
  let! s := mget in
  match defaultProjectCache (svc_store s) !! key with
  | Some b => mret b
  | None =>
      let! answer := world_result (Http_Project orgID projectID) in
      let isDefault := default false answer in
      let! _ := on_store (set_project key isDefault) in
      mret isDefault
  end.

(** ** Clean-up *)
Definition ListAutoCreatedVPCPaths st : option (gset string) := list_to_set <$> mapM v_Path (ListVPC st).
(** The load balancer objects whose parent is a VPC that was not created here. *)
Definition getStaleSLBResources {A} (parent : A -> option string) (objs : list A) st : option (list A) :=
  auto ← ListAutoCreatedVPCPaths st;
  Some (List.filter (fun o => match parent o with Some p => has_prefix "/orgs" p && bool_decide (p ∉ auto) | None => false end) objs).
Fixpoint delete_ports (paths : list string) : VpcM unit :=
  match paths with
  | [] => mret tt
  | path :: paths' =>
      let! s := mget in
      match Ctx_Err (svc_world s) with
      | Some e => mfail (EJoin (EStatus 5 "failed because of timeout") e)
      | None =>
          let! err := on_world (Http_Delete ("policy/api/v1" +:+ path)) in
          match err with
          | Some e => mfail (EWrap ("failed to delete Avi Subnet port at policy/api/v1" +:+ path) e)
          | None => delete_ports paths'
          end
      end
  end.
(** The ports are a set, which the code goes through in any order; here it is
    that of the paths. *)
Definition CleanAviSubnetPorts (vpcPath : string) : VpcM unit :=
  let! ports := mcatch (world_result (Http_Ports ("policy/api/v1" +:+ vpcPath +:+ "/subnets/_services/ports/"))) in
  match ports with
  | Err e =>
      if bool_decide (HttpNotFoundError ∈ chain e) || bool_decide (HttpBadRequest ∈ chain e) then mret tt
      else mfail (EWrap "error getting Avi Subnet ports" e)
  | Ok paths => delete_ports (sets_List (list_to_set paths))
  end.
Definition cleanupAviSubnetPorts : VpcM unit :=
  let! s := mget in
  let! _ := mloop (fun _ v => let! path := mtotal (v_Path v) in CleanAviSubnetPorts path) tt (ListVPC (svc_store s)) in
  mret tt.
End Queries.

(** ** Facts: the stores and NSX *)
Section Facts.
Context {IV IL W : Type} `{!Indexer IV Vpc v_Id} `{!Indexer IL LBService lbs_key} `{!VpcWorld W} `{!RetryDriver}.
Context (cf : vpc_config) (uuids : nat -> string) (fuel : nat).
Local Abbreviation VpcM := (Svc (I := vpc_stores IV IL) (W := W)).
Local Abbreviation stable := (stable (I := vpc_stores IV IL) (W := W)).
Local Abbreviation vstate := (service_state (vpc_stores IV IL) W).
(** A store without the VPC of an identifier. *)
Definition without (vpcID : string) (V : IV) : IV :=
  match ix_GetByKey vpcID V with Some v => ix_Delete (marked_vpc v) V | None => V end.
Lemma without_get vpcID (V : IV) k : ix_GetByKey k (without vpcID V) = if decide (k = vpcID) then None else ix_GetByKey k V.
Proof.
  unfold without. destruct (ix_GetByKey vpcID V) as [v|] eqn:E.
  - rewrite ix_get_delete. pose proof (ix_get_key _ _ _ E) as <-. reflexivity.
  - case_decide; by subst.
Qed.
Lemma VpcStore_forget vpcID (st : vpc_stores IV IL) : VpcStore (forget_vpc vpcID st) = without vpcID (VpcStore st).
Proof.
  unfold forget_vpc, without. set (st1 := match lbs_GetByKey vpcID (LbsStore st) with Some lbs => set_lbs (lbs_Delete lbs) st | None => st end).
  assert (H1 : VpcStore st1 = VpcStore st) by (unfold st1; by destruct (lbs_GetByKey _ _)). rewrite H1.
  destruct (ix_GetByKey vpcID (VpcStore st)) as [v|] eqn:E; [|exact H1]. cbn. rewrite H1. unfold VPCStore_Apply.
  by rewrite bool_decide_eq_true_2.
Qed.
Lemma vpc_call_Ok f (s s' : vstate) u : nsx_call f s = Some (Ok u, s') -> f (svc_world s) = (None, svc_world s') /\ svc_store s' = svc_store s.
Proof. unfold nsx_call, world_result. destruct (f _) as [[e|] w]; [done|]. by intros [= _ <-]. Qed.
Lemma world_result_Ok {A} (f : W -> result goerr A * W) (s s' : vstate) x :
  world_result f s = Some (Ok x, s') -> f (svc_world s) = (Ok x, svc_world s') /\ svc_store s' = svc_store s.
Proof. unfold world_result. destruct (f _) as [r w]. by intros [= -> <-]. Qed.
Lemma mresult_Ok {A} (r : result goerr A) (s s' : vstate) x : mresult r s = Some (Ok x, s') -> r = Ok x /\ s' = s.
Proof. by intros [= -> ->]. Qed.
Lemma mtotal_Ok {A} (o : option A) (s s' : vstate) x : mtotal o s = Some (Ok x, s') -> o = Some x /\ s' = s.
Proof. unfold mtotal. destruct o; [|done]. by intros [= -> ->]. Qed.
Lemma nsx_result_Ok {A} (f : W -> result goerr A * W) (s s' : vstate) x :
  nsx_result f s = Some (Ok x, s') -> f (svc_world s) = (Ok x, svc_world s') /\ svc_store s' = svc_store s.
Proof. unfold nsx_result. intros [Hf Hs]%world_result_Ok. split; [|done]. destruct (f _) as [[y|e] w]; cbn in Hf; congruence. Qed.

(** The VPC at [vpath] is removed by a call that ends in [s'] with the error [e]:
    NSX reports that the resource at [path] is in error, and right after it
    accepts the deletion of the VPC at [vpath], which leaves the store. *)
Definition removed_for (vpath path : string) (ids : list string) (e : goerr) (base : IV) (s' : vstate) : Prop :=
  exists i (t t' : vstate), ParseVPCResourcePath vpath = Some i /\
    check_realized Realized_List path ids t = Some (Ok (Some e), t') /\ IsRealizeStateError (Some e) = true /\
    VPC_Delete (OrgID i) (ProjectID i) (VPCID i) (svc_world t') = (None, svc_world s') /\
    VpcStore (svc_store t) = base /\ VpcStore (svc_store s') = without (VPCID i) base.
Lemma DeleteVPC_store vpath s r s' : DeleteVPC vpath s = Some (r, s') ->
  match r with
  | Ok _ => exists i, ParseVPCResourcePath vpath = Some i /\ svc_store s' = forget_vpc (VPCID i) (svc_store s) /\
      VPC_Delete (OrgID i) (ProjectID i) (VPCID i) (svc_world s) = (None, svc_world s')
  | Err _ => svc_store s' = svc_store s
  end.
Proof.
  unfold DeleteVPC, vpc_info. intros [(i & s1 & Hp & Hk)|(e & Hp & ->)]%bindM_Some; [|by apply stable_result in Hp].
  destruct (ParseVPCResourcePath vpath) as [i'|]; [|discriminate]. injection Hp as -> <-.
  apply bindM_Some in Hk as [(u & s2 & Hd & Hk)|(e & Hd & ->)]; [|by apply stable_nsx_call in Hd].
  apply vpc_call_Ok in Hd as [Hw Hd]. injection Hk as <- <-. exists i. cbn. by rewrite Hd.
Qed.
Lemma check_or_delete_spec path ids vpath s r s' : check_or_delete path ids vpath s = Some (r, s') ->
  match r with
  | Ok _ => svc_store s' = svc_store s /\ check_realized Realized_List path ids s = Some (Ok None, s')
  | Err e => VpcStore (svc_store s') = VpcStore (svc_store s) \/ removed_for vpath path ids e (VpcStore (svc_store s)) s'
  end.
Proof.
  unfold check_or_delete. intros [(err & s1 & Hc & Hk)|(e & Hc & ->)]%bindM_Some; [|left; by apply stable_check in Hc as ->].
  pose proof (stable_check _ _ _ _ _ _ Hc) as Hs. destruct err as [e|].
  - destruct (IsRealizeStateError (Some e)) eqn:Ee.
    + apply bindM_Some in Hk as [(u & s2 & Hd & Hk)|(e' & Hd & ->)]; apply DeleteVPC_store in Hd.
      * injection Hk as <- <-. right. destruct Hd as (i & Hi & Hd & Hw). exists i, s, s1. by rewrite Hd, VpcStore_forget, Hs.
      * left. by rewrite Hd, Hs.
    + injection Hk as <- <-. left. by rewrite Hs.
  - injection Hk as <- <-. by split.
Qed.

(** The resources whose realization decides on the VPC [id] at [vpath]: the VPC
    itself with its gateway interface, its load balancer and its attachment, the
    latter as NSX returned them for this VPC. *)
Inductive part_of (nc : VPCNetworkConfiguration) (id vpath : string) : string -> list string -> Prop :=
  | part_vpc : part_of nc id vpath vpath ["gateway-interface"]
  | part_lbs org project lid l w w' path : project_of (nc_NSXProject nc) = Ok (org, project) ->
      LBS_Get org project id lid w = (Ok l, w') -> lb_Path l = Some path -> part_of nc id vpath path []
  | part_attachment org project aid a w w' path : project_of (nc_NSXProject nc) = Ok (org, project) ->
      Attachment_Get org project id aid w = (Ok a, w') -> va_Path a = Some path -> part_of nc id vpath path [].
(** A call that leaves the VPCs as they are, or removes the VPC at [vpath] for a
    part of it that is in error, and fails with this error. *)
Definition may_delete {A} nc id vpath (m : VpcM A) : Prop := forall s r s', m s = Some (r, s') ->
  VpcStore (svc_store s') = VpcStore (svc_store s) \/
  (exists e path ids, r = Err e /\ part_of nc id vpath path ids /\ removed_for vpath path ids e (VpcStore (svc_store s)) s').
Lemma may_delete_stable {A} nc id vpath (m : VpcM A) : stable m -> may_delete nc id vpath m.
Proof. intros Hm s r s' ->%Hm. by left. Qed.
(** The steps of a call: the first one that fails ends it. *)
Lemma may_delete_bind {A B} nc id vpath (m : VpcM A) (k : A -> VpcM B) :
  may_delete nc id vpath m -> (forall a, may_delete nc id vpath (k a)) -> may_delete nc id vpath (bindM m k).
Proof.
  intros Hm Hk s r s2 [(a & s1 & H1 & H2)|(e & H1 & ->)]%bindM_Some.
  - apply Hm in H1 as [H1|(e & p & l & [=] & _)]. apply Hk in H2. by rewrite H1 in H2.
  - apply Hm in H1 as [H1|(e' & p & l & [= ->] & Hr)]; [by left|right]. by exists e', p, l.
Qed.
(** As above, when what follows needs that the first step answered. *)
Lemma may_delete_bind_stable {A B} nc id vpath (m : VpcM A) (k : A -> VpcM B) :
  stable m -> (forall a s s1, m s = Some (Ok a, s1) -> may_delete nc id vpath (k a)) -> may_delete nc id vpath (bindM m k).
Proof.
  intros Hm Hk s r s2 [(a & s1 & H1 & H2)|(e & H1 & ->)]%bindM_Some; [|left; by rewrite (Hm _ _ _ H1)].
  apply (Hk a _ _ H1) in H2. by rewrite (Hm _ _ _ H1) in H2.
Qed.
Lemma may_delete_store nc id vpath f : (forall st, VpcStore (f st) = VpcStore st) -> may_delete nc id vpath (on_store f : VpcM unit).
Proof. intros Hf s r s' [= <- <-]. left. apply Hf. Qed.
Lemma may_delete_check nc id vpath path ids : part_of nc id vpath path ids -> may_delete nc id vpath (check_or_delete path ids vpath).
Proof.
  intros Hp s r s' Hc%check_or_delete_spec. destruct r as [u|e]; [left; by destruct Hc as [-> _]|].
  destruct Hc as [Hc|Hc]; [by left|right]. by exists e, path, ids.
Qed.
Lemma may_delete_lbs lbs id nc vpath : may_delete nc id vpath (checkLBSRealization lbs id nc vpath).
Proof.
  unfold checkLBSRealization. destruct lbs as [lbs|]; [|apply may_delete_stable, stable_ret].
  apply may_delete_bind_stable; [apply stable_result|]. intros [org project] ? ? [Hproj _]%mresult_Ok.
  apply may_delete_bind_stable; [apply stable_world_result|]. intros new t t1 [Hget _]%world_result_Ok.
  destruct (lb_ConnectivityPath new); [|apply may_delete_stable, stable_fail].
  apply may_delete_bind; [by apply may_delete_store|]. intros _.
  apply may_delete_bind_stable; [apply stable_total|]. intros path ? ? [Hpath _]%mtotal_Ok.
  apply may_delete_check. by eapply part_lbs.
Qed.
Lemma may_delete_attachment a id nc vpath : may_delete nc id vpath (checkVpcAttachmentRealization a id nc vpath).
Proof.
  unfold checkVpcAttachmentRealization. destruct a as [a|]; [|apply may_delete_stable, stable_ret].
  apply may_delete_bind_stable; [apply stable_result|]. intros [org project] ? ? [Hproj _]%mresult_Ok.
  apply may_delete_bind_stable; [apply stable_world_result|]. intros new t t1 [Hget _]%world_result_Ok.
  destruct (va_VpcConnectivityProfile new); [|apply may_delete_stable, stable_fail].
  apply may_delete_bind_stable; [apply stable_total|]. intros path ? ? [Hpath _]%mtotal_Ok.
  apply may_delete_check. by eapply part_attachment.
Qed.
Lemma stable_create v nc root : stable (createNSXVPC v nc root).
Proof.
  unfold createNSXVPC. apply stable_bind; [auto with stable|]. intros [org project].
  apply stable_bind; [auto with stable|]. intros [u|e]; [auto with stable|].
  apply stable_bind; [auto with stable|]. intros [u|e']; auto with stable.
Qed.
Lemma stable_stack nc : stable (GetNetworkStackFromNC cf nc).
Proof.
  unfold GetNetworkStackFromNC, GetNetworkStackFromVPCPath, GetNetworkStackFromTGW. destruct (negb _); [auto with stable|].
  destruct (IsPreCreatedVPC nc); [auto 6 with stable|]. apply stable_bind; [auto with stable|]. intros p.
  destruct (cp_ParentPath p); [|auto with stable]. destruct (cp_TransitGatewayPath p); [|auto with stable].
  apply stable_bind; [auto with stable|]. intros [org project]. auto with stable.
Qed.
Lemma stable_restore obj nc p : stable (buildLBServiceIPAllocsForRestore cf obj nc p).
Proof.
  unfold buildLBServiceIPAllocsForRestore. destruct (negb _); [auto with stable|]. apply stable_bind; [apply stable_stack|]. intros ty.
  destruct (negb _); [auto with stable|]. destruct (ni_VPCs obj) as [|vs l]; [auto with stable|].
  assert (Hp : stable (let primary := vs_LoadBalancerIPAddresses vs in
    if bool_decide (primary = "")
    then mfail (EText ("cannot restore LB service IP allocations for tepless VPC: LoadBalancerIPAddresses is not set in NetworkInfo " +:+ ni_Name obj))
    else if IsIPv6 primary then mret (lb_allocations "" primary) else mret (lb_allocations primary ""))).
  { cbv zeta. case_bool_decide; [auto with stable|]. destruct (IsIPv6 _); auto with stable. }
  destruct (backend_ips _) as [v4 v6]. destruct v4; [|auto with stable]. destruct v6; [exact Hp|auto with stable].
Qed.
(** The VPC of the Namespace, as it is stored before the call. *)
Definition stored_vpc (obj : NetworkInfo) (s : vstate) : option Vpc :=
  head (GetCurrentVPCsByNamespace (ni_Namespace obj) (svc_store s) (svc_world s)).
(** NSX returned [v] for the path of a pre-created VPC. *)
Definition pre_created_vpc (nc : VPCNetworkConfiguration) (v : Vpc) : Prop :=
  IsPreCreatedVPC nc = true /\ exists i w w', ParseVPCResourcePath (nc_VPC nc) = Some i /\
    VPC_Get (OrgID i) (ProjectID i) (VPCID i) w = (Ok v, w').
(** The VPC [id] was sent with the stores of [s], and NSX has it and returns it as [v]. *)
Definition returned_vpc (nc : VPCNetworkConfiguration) (id : string) (v : Vpc) (s t3 : vstate) : Prop :=
  exists org project root t1 t2, project_of (nc_NSXProject nc) = Ok (org, project) /\ v_Id (or_Vpc root) = id /\
    svc_store t1 = svc_store s /\ createNSXVPC (or_Vpc root) nc root t1 = Some (Ok tt, t2) /\
    VPC_Get org project id (svc_world t2) = (Ok v, svc_world t3) /\ svc_store t3 = svc_store s.
(** And then NSX reports it realized with its gateway interface. *)
Definition realized_vpc nc id v path s : Prop :=
  exists t3 t4, returned_vpc nc id v s t3 /\ v_Path v = Some path /\
    check_realized Realized_List path ["gateway-interface"] t3 = Some (Ok None, t4).
(** NSX reports the load balancer and the attachment of the VPC realized, the
    latter as the last thing of a call that ends in [s']. *)
Definition lbs_realized (nc : VPCNetworkConfiguration) (id : string) : Prop :=
  exists org project lid l w w' path t t' , project_of (nc_NSXProject nc) = Ok (org, project) /\
    LBS_Get org project id lid w = (Ok l, w') /\ lb_Path l = Some path /\
    check_realized (I := vpc_stores IV IL) Realized_List path [] t = Some (Ok None, t').
Definition attachment_realized (nc : VPCNetworkConfiguration) (id : string) (s' : vstate) : Prop :=
  exists org project aid a w path t, project_of (nc_NSXProject nc) = Ok (org, project) /\
    Attachment_Get org project id aid w = (Ok a, svc_world t) /\ va_Path a = Some path /\
    check_realized Realized_List path [] t = Some (Ok None, s').
Lemma lbs_check_Ok lbs id nc vpath s u s' : checkLBSRealization (Some lbs) id nc vpath s = Some (Ok u, s') -> lbs_realized nc id.
Proof.
  unfold checkLBSRealization. intros ([org project] & s1 & [Hproj ->]%mresult_Ok & (l & s2 & [Hl _]%world_result_Ok & Hk)%bindM_Ok)%bindM_Ok.
  destruct (lb_ConnectivityPath l); [|done]. apply bindM_Ok in Hk as (u' & s3 & _ & (path & s4 & [Hp ->]%mtotal_Ok & Hc)%bindM_Ok).
  apply check_or_delete_spec in Hc as [_ Hc]. by exists org, project, (lb_Id lbs), l, (svc_world s), (svc_world s2), path, s3, s'.
Qed.
Lemma attachment_check_Ok a id nc vpath s u s' :
  checkVpcAttachmentRealization (Some a) id nc vpath s = Some (Ok u, s') -> attachment_realized nc id s'.
Proof.
  unfold checkVpcAttachmentRealization.
  intros ([org project] & s1 & [Hproj ->]%mresult_Ok & (l & s2 & [Hl _]%world_result_Ok & Hk)%bindM_Ok)%bindM_Ok.
  destruct (va_VpcConnectivityProfile l); [|done]. apply bindM_Ok in Hk as (path & s4 & [Hp ->]%mtotal_Ok & Hc).
  apply check_or_delete_spec in Hc as [_ Hc]. by exists org, project, (va_Id a), l, (svc_world s), path, s2.
Qed.
(** What a call may do to the VPCs of the store, [existing] being the VPC of the
    Namespace, and [lb] whether a load balancer is wanted. *)
Definition vpc_effect nc (lb : bool) (existing : option Vpc) (s : vstate) (r : result goerr Vpc) (s' : vstate) : Prop :=
  let V := VpcStore (svc_store s) in let V' := VpcStore (svc_store s') in
  (V' = V /\ forall v, r = Ok v -> existing = Some v \/ pre_created_vpc nc v) \/
  (exists id v path, realized_vpc nc id v path s /\ V' = ix_Add v V /\
     forall x, r = Ok x -> x = v /\ (lb = true -> lbs_realized nc id) /\ attachment_realized nc id s') \/
  (exists id v vpath path ids e, v_Path v = Some vpath /\ r = Err e /\ part_of nc id vpath path ids /\
     ((existing = Some v /\ v_Id v = id /\ removed_for vpath path ids e V s') \/
      ((exists t3, returned_vpc nc id v s t3) /\ path = vpath /\ removed_for vpath path ids e V s') \/
      (realized_vpc nc id v vpath s /\ removed_for vpath path ids e (ix_Add v V) s'))).
Lemma effect_unchanged nc lb existing s e s' : svc_store s' = svc_store s -> vpc_effect nc lb existing s (Err e) s'.
Proof. intros Hs. left. rewrite Hs. by split. Qed.
(** The realization of a VPC with its children. *)
Lemma may_delete_children path lbs id nc a :
  may_delete nc id path (let! _ := checkLBSRealization lbs id nc path in checkVpcAttachmentRealization a id nc path : VpcM unit).
Proof. apply may_delete_bind; [apply may_delete_lbs|]. intros _. apply may_delete_attachment. Qed.
Lemma recheck_effect ns nc lb v lbs a s r s' : recheck ns nc v lbs a s = Some (r, s') -> vpc_effect nc lb (Some v) s r s'.
Proof.
  unfold recheck. intros Hk.
  assert (Hv : forall x, r = Ok x -> x = v) by (intros x ->; apply bindM_Ok in Hk as (? & ? & _ & Hret); by injection Hret as ->).
  destruct (isNamespaceReady ns).
  { left. assert (Hst : stable (let! _ := mret tt in mret v : VpcM Vpc)) by auto with stable.
    rewrite (Hst _ _ _ Hk). split; [done|]. intros x ->%Hv. by left. }
  destruct (v_Path v) as [path|] eqn:Ep; [|done].
  assert (Hm : may_delete nc (v_Id v) path (bindM (let! path := mtotal (Some path) in let! _ := checkVPCRealizationState path in
    let! _ := checkLBSRealization lbs (v_Id v) nc path in checkVpcAttachmentRealization (Some a) (v_Id v) nc path) (fun _ => mret v) : VpcM Vpc)).
  { apply may_delete_bind; [|intros _; apply may_delete_stable; auto with stable].
    change (may_delete nc (v_Id v) path (let! _ := checkVPCRealizationState path in
      let! _ := checkLBSRealization lbs (v_Id v) nc path in checkVpcAttachmentRealization (Some a) (v_Id v) nc path : VpcM unit)).
    apply may_delete_bind; [apply may_delete_check; constructor|]. intros _. apply may_delete_children. }
  apply Hm in Hk as [Hs|(e & p & ids & -> & Hpart & Hrem)].
  - left. split; [done|]. intros x ->%Hv. by left.
  - right; right. exists (v_Id v), v, path, p, ids, e. split_and!; try done. by left.
Qed.
Lemma send_vpc_effect org project v allocs lbs a nc existing s0 s r s' :
  project_of (nc_NSXProject nc) = Ok (org, project) -> svc_store s = svc_store s0 ->
  send_vpc org project v allocs lbs a nc s = Some (r, s') -> vpc_effect nc (bool_decide (is_Some lbs)) existing s0 r s'.
Proof.
  intros Hproj Hs0. unfold send_vpc.
  intros [([] & s1 & Hc & Hk)|(e & Hc%stable_create & ->)]%bindM_Some; [|apply effect_unchanged; congruence].
  pose proof (stable_create _ _ _ _ _ _ Hc) as Hs1.
  apply bindM_Some in Hk as [(new & s2 & [Hg Hs2]%nsx_result_Ok & Hk)|(e & Hg%stable_nsx_result & ->)]; [|apply effect_unchanged; congruence].
  apply bindM_Some in Hk as [(path & s3 & [Hp ->]%mtotal_Ok & Hk)|(e & Hp%stable_total & ->)]; [|apply effect_unchanged; congruence].
  assert (Hret : returned_vpc nc (v_Id v) new s0 s2).
  { exists org, project, (WrapHierarchyVPC org project v allocs lbs (Some a)), s, s1. split_and!; try done. congruence. }
  apply bindM_Some in Hk as [([] & s3 & [Hs3 Hreal]%check_or_delete_spec & Hk)|(e & Hv%check_or_delete_spec & ->)].
  - assert (Hrv : realized_vpc nc (v_Id v) new path s0) by (by exists s2, s3).
    apply bindM_Some in Hk as [(u3 & s4 & [= _ <-] & Hk)|(e & [=] & _)].
    set (s4 := mkService (set_vpcs (ix_Add new) (svc_store s3)) (svc_world s3)) in *.
    assert (Hst : VpcStore (svc_store s4) = ix_Add new (VpcStore (svc_store s0))) by (cbn; congruence).
    assert (Hm : may_delete nc (v_Id v) path (let! _ := checkLBSRealization lbs (v_Id v) nc path in
      let! _ := checkVpcAttachmentRealization (Some a) (v_Id v) nc path in mret new : VpcM Vpc)).
    { apply may_delete_bind; [apply may_delete_lbs|]. intros _. apply may_delete_bind; [apply may_delete_attachment|].
      intros _. apply may_delete_stable, stable_ret. }
    pose proof Hk as [Hs|(e & p & ids & -> & Hpart & Hrem)]%Hm; rewrite Hst in *.
    + right; left. exists (v_Id v), new, path. split_and!; [done..|]. intros x ->.
      apply bindM_Ok in Hk as ([] & s5 & Hl & ([] & s6 & Ha & [= -> ->])%bindM_Ok).
      split_and!; [done| |by apply attachment_check_Ok in Ha]. rewrite bool_decide_eq_true. intros [l ->]. by apply lbs_check_Ok in Hl.
    + right; right. exists (v_Id v), new, path, p, ids, e. split_and!; try done. right; right. by split.
  - assert (Hs02 : svc_store s2 = svc_store s0) by congruence. rewrite Hs02 in Hv.
    destruct Hv as [Hv|Hv]; [by left|]. right; right. exists (v_Id v), new, path, path, ["gateway-interface"], e.
    split_and!; try done; [constructor|]. right; left. split_and!; try done. by exists s2.
Qed.
Lemma own_vpc_effect org project obj ns nc existing p ready restore s r s' :
  project_of (nc_NSXProject nc) = Ok (org, project) ->
  own_vpc cf uuids fuel org project obj ns nc existing p ready restore s = Some (r, s') ->
  vpc_effect nc (bool_decide (p = NSXLB)) existing s r s'.
Proof.
  intros Hproj. unfold own_vpc. intros [(s0 & s1 & [= <- <-] & Hk)|(e & [=] & _)]%bindM_Some. cbn [svc_store] in Hk.
  apply bindM_Some in Hk as [(changed & s1 & Hc%stable_total & Hk)|(e & Hc%stable_total & ->)]; [|by apply effect_unchanged].
  apply bindM_Some in Hk as [(built & s2 & Hb%stable_total & Hk)|(e & Hb%stable_total & ->)]; rewrite Hc in Hb; [|by apply effect_unchanged].
  assert (Hall : stable (if restore then buildLBServiceIPAllocsForRestore cf obj nc p else mret [])) by (destruct restore; [apply stable_restore|apply stable_ret]).
  apply bindM_Some in Hk as [(allocs & s3 & Ha%Hall & Hk)|(e & Ha%Hall & ->)]; rewrite Hb in Ha; [|by apply effect_unchanged].
  destruct built as [v|].
  - replace (bool_decide (p = NSXLB)) with (bool_decide (is_Some (if bool_decide (p = NSXLB)
      then Some (buildNSXLBS obj ns (cf_Cluster cf) (cf_LBSize cf) ("/orgs/" +:+ org +:+ "/projects/" +:+ project +:+ "/vpcs/" +:+ nc_Name nc)
                          (if cf_RelaxLBScale cf then Some true else None)) else None)))
      by (case_bool_decide; [by apply bool_decide_eq_true|apply bool_decide_eq_false; by intros [? ?]]).
    by eapply send_vpc_effect.
  - destruct existing as [v|]; [|done].
    apply bindM_Some in Hk as [(x & s4 & [[= <-] ->]%mtotal_Ok & Hk)|(e & Hm & _)]; [|discriminate].
    apply (recheck_effect _ _ (bool_decide (p = NSXLB))) in Hk. revert Hk.
    unfold vpc_effect, realized_vpc, returned_vpc. by rewrite Ha.
Qed.

(** C27. Whatever happens in the creation or update of the VPC of a Namespace, the
    VPCs of the store change in one of two ways only:
    - the VPC that was sent, that NSX returned, and that it then reported realized
      with its gateway interface, is stored; a success returns this VPC, and its
      load balancer, if there is to be one, and its attachment are realized too;
    - a VPC is removed, and the call fails with the error of the realization that
      was its cause: that of this VPC, or of the load balancer or the attachment
      that NSX returned for this VPC. It is the stored VPC of the Namespace or the
      one NSX returned for what was sent, NSX has accepted the deletion under the
      organisation, project and identifier of its path, and the store loses the
      VPC with this identifier and no other.
    When they do not change, a success gives the stored VPC of the Namespace, or
    the pre-created one as NSX returned it. *)
Theorem CreateOrUpdateVPC_store obj nc p ready restore (s : vstate) r s' :
  CreateOrUpdateVPC cf uuids fuel obj nc p ready restore s = Some (r, s') ->
  let V := VpcStore (svc_store s) in let V' := VpcStore (svc_store s') in
  (V' = V /\ forall v, r = Ok v -> stored_vpc obj s = Some v \/ pre_created_vpc nc v) \/
  (exists id v path, realized_vpc nc id v path s /\ V' = ix_Add v V /\
     forall x, r = Ok x -> x = v /\ (p = NSXLB -> lbs_realized nc id) /\ attachment_realized nc id s') \/
  (exists id v vpath path ids e i (t t' : vstate) base, v_Path v = Some vpath /\ ParseVPCResourcePath vpath = Some i /\ r = Err e /\
     ((stored_vpc obj s = Some v /\ v_Id v = id /\ base = V) \/
      ((exists t3, returned_vpc nc id v s t3) /\ path = vpath /\ base = V) \/
      (realized_vpc nc id v vpath s /\ base = ix_Add v V)) /\
     part_of nc id vpath path ids /\
     check_realized Realized_List path ids t = Some (Ok (Some e), t') /\ IsRealizeStateError (Some e) = true /\
     VPC_Delete (OrgID i) (ProjectID i) (VPCID i) (svc_world t') = (None, svc_world s') /\
     V' = without (VPCID i) base /\
     forall k, ix_GetByKey k V' = if decide (k = VPCID i) then None else ix_GetByKey k base).
Proof.
  intros Hrun V V'. assert (He : vpc_effect nc (bool_decide (p = NSXLB)) (stored_vpc obj s) s r s').
  { unfold CreateOrUpdateVPC in Hrun. apply bindM_Some in Hrun as [([org project] & s1 & [Hp ->]%mresult_Ok & Hk)|(e & Hp%stable_result & ->)];
      [|by apply effect_unchanged].
    apply bindM_Some in Hk as [(s0 & s2 & [= <- <-] & Hk)|(e & [=] & _)].
    apply bindM_Some in Hk as [(ns & s2 & [Hn ->]%mresult_Ok & Hk)|(e & Hn%stable_result & ->)]; [|by apply effect_unchanged].
    destruct (IsPreCreatedVPC nc) eqn:Epre.
    - left. assert (Hst : stable (GetVPCFromNSXByPath (nc_VPC nc))) by (unfold GetVPCFromNSXByPath; auto with stable).
      rewrite (Hst _ _ _ Hk). split; [done|]. intros v ->. right. split; [done|]. unfold GetVPCFromNSXByPath, vpc_info in Hk.
      apply bindM_Ok in Hk as (i & s3 & [Hi ->]%mresult_Ok & [Hg _]%nsx_result_Ok). destruct (ParseVPCResourcePath _) as [j|] eqn:Ej; [|done].
      injection Hi as ->. by exists i, (svc_world s), (svc_world s').
    - apply bindM_Some in Hk as [(shared & s3 & [Hs ->]%mresult_Ok & Hk)|(e & Hs%stable_result & ->)]; [|by apply effect_unchanged].
      destruct shared; [|by apply own_vpc_effect in Hk]. left. unfold stored_vpc.
      destruct (GetCurrentVPCsByNamespace _ _ _) as [|x l]; injection Hk as <- <-; (split; [done|]); [done|]. intros v [= ->]. by left. }
  destruct He as [He|[(id & v & path & Hr & Ha & Hx)|(id & v & vpath & path & ids & e & Hv & -> & Hpart & Hrem)]]; [by left| |].
  - right; left. exists id, v, path. split_and!; [done..|]. intros x (-> & Hl & Hat)%Hx. split_and!; [done| |done].
    intros Hp. by apply Hl, bool_decide_eq_true.
  - right; right. assert (Hbase : exists base, ((stored_vpc obj s = Some v /\ v_Id v = id /\ base = V) \/
      ((exists t3, returned_vpc nc id v s t3) /\ path = vpath /\ base = V) \/ (realized_vpc nc id v vpath s /\ base = ix_Add v V)) /\
      removed_for vpath path ids e base s') by naive_solver.
    destruct Hbase as (base & Hbase & i & t & t' & Hi & Hc & Hre & Hdel & Ht & Hs).
    exists id, v, vpath, path, ids, e, i, t, t', base. split_and!; try done. intros k. unfold V'. by rewrite Hs, without_get.
Qed.
End Facts.

(** ** Updates settle *)
Section Settles.
Context {IV IL : Type} `{!Indexer IV Vpc v_Id} `{!Indexer IL LBService lbs_key}.
Context (idExists nameExists : string -> bool) (uuids : nat -> string) (fuel : nat).
Implicit Types st : vpc_stores IV IL.
Lemma built_fields obj ns nc cluster existing avi changed ready v :
  buildNSXVPC idExists nameExists uuids fuel obj ns nc cluster existing avi changed ready = Some (Some v) ->
  v_PrivateIps v = nc_PrivateIPs nc /\ endpoint_enabled v = (avi || ready || from_option endpoint_enabled false existing).
Proof.
  unfold buildNSXVPC. destruct existing as [e|]; cbn [from_option].
  - destruct (_ && _); [done|]. intros [= <-]. split; [done|]. unfold endpoint_enabled. cbn. by destruct (avi || ready).
  - destruct (buildVpcName _ _ _ _); [|done]. destruct (buildVpcId _ _ _ _); [|done]. intros [= <-]. split; [done|].
    unfold endpoint_enabled. cbn. by destruct (avi || ready).
Qed.
(** An update of a VPC, kept by NSX as it was sent, is the last one: the next
    reconcile with the same configuration builds nothing, except in one case, and
    then it sends the same request again each time: the endpoint was enabled and
    is not wanted any more, which the update does not express. *)
Theorem vpc_update_settles obj ns nc cluster existing p ready changed v v' st path i :
  buildNSXVPC idExists nameExists uuids fuel obj ns nc cluster existing (bool_decide (p = AVILB)) changed ready = Some (Some v) ->
  v_PrivateIps v' = v_PrivateIps v -> v_LoadBalancerVpcEndpoint v' = v_LoadBalancerVpcEndpoint v ->
  v_Path v' = Some path -> ParseVPCResourcePath path = Some i ->
  (p = NSXLB -> is_Some (lbs_GetByKey (VPCID i) (LbsStore st))) ->
  exists changed', IsLBProviderChanged (Some v') p st = Some changed' /\
    let next := buildNSXVPC idExists nameExists uuids fuel obj ns nc cluster (Some v') (bool_decide (p = AVILB)) changed' ready in
    if from_option endpoint_enabled false existing && negb (bool_decide (p = AVILB)) && negb ready
    then next = Some (Some v')
    else next = Some None.
Proof.
  intros Hb Hips Hend Hpath Hi Hlbs. apply built_fields in Hb as [Hpriv Hen].
  assert (Hen' : endpoint_enabled v' = endpoint_enabled v) by (unfold endpoint_enabled; by rewrite Hend).
  assert (Hch : IsVPCChanged nc v' = false) by (unfold IsVPCChanged; rewrite Hips, Hpriv; by rewrite bool_decide_eq_true_2).
  exists false. split.
  { unfold IsLBProviderChanged. destruct p; [|rewrite Hen', Hen; by rewrite bool_decide_eq_true_2|done].
    rewrite Hpath. cbn. rewrite Hi. destruct (Hlbs eq_refl) as [l Hl]. by rewrite Hl. }
  cbv zeta. unfold buildNSXVPC. rewrite Hch, Hen', Hen. destruct (from_option endpoint_enabled false existing), (bool_decide (p = AVILB)), ready;
    cbn; try done.
  rewrite <- Hpriv, <- Hips. by destruct v'.
Qed.
End Settles.

(** ** The provider of load balancers is decided once *)
Section Provider.
Context {IV IL W : Type} `{!Indexer IV Vpc v_Id} `{!Indexer IL LBService lbs_key} `{!VpcWorld W} `{!RetryDriver}.
Context (cf : vpc_config).
Notation sstate := (service_state (vpc_stores IV IL) W).
Definition provider (s : sstate) : LBProvider := globalLbProvider (svc_store s).
(** Calls of [GetLBProvider] with their answers, and what happens between them:
    anything that leaves the decision as it is. *)
Inductive lb_run : sstate -> list LBProvider -> sstate -> Prop :=
  | run_end s : lb_run s [] s
  | run_answer s p s1 log s2 : GetLBProvider cf s = Some (Ok p, s1) -> lb_run s1 log s2 -> lb_run s (p :: log) s2
  | run_error s e s1 log s2 : GetLBProvider cf s = Some (Err e, s1) -> lb_run s1 log s2 -> lb_run s log s2
  | run_other s s1 log s2 : provider s1 = provider s -> lb_run s1 log s2 -> lb_run s log s2.
(** Why a provider is chosen. *)
Definition justified (p : LBProvider) (st : vpc_stores IV IL) : Prop :=
  match p with
  | NoneLB => True
  | AVILB => cf_UseAVILoadBalancer cf = true /\ ix_List (LbsStore st) = [] /\ exists w : W, (Http_AlbEndpoint w).1 = None
  | NSXLB => exists nc w profile w', GetVpcConnectivityProfile (W := W) nc (nc_VPCConnectivityProfile nc) w = (Ok profile, w') /\
      IsServiceGatewayEnabled profile = true
  end.
Lemma stable_alb : stable (I := vpc_stores IV IL) (W := W) checkALBEndpoint.
Proof.
  unfold checkALBEndpoint. apply stable_bind; [auto with stable|]. intros [e|]; [|auto with stable]. case_bool_decide; [|auto with stable].
  apply stable_bind; [auto with stable|]. intros s. destruct (Cluster_Health _); auto with stable.
Qed.
Lemma profile_with_retry nc (s s' : sstate) r : GetVpcConnectivityProfileWithRetry nc s = Some (r, s') ->
  svc_store s' = svc_store s /\
  forall p, r = Ok p -> exists w w', GetVpcConnectivityProfile nc (nc_VPCConnectivityProfile nc) w = (Ok p, w').
Proof.
  unfold GetVpcConnectivityProfileWithRetry.
  match goal with |- context [OnError profile_retriable ?f ?x] => set (fn := f); set (x0 := x) end.
  destruct (OnError_attempts _ profile_retriable fn x0) as [n ->].
  destruct (attempts (S n) profile_retriable fn x0) as [e [w o]] eqn:Ea.
  pose (P := fun a : W * option VpcConnectivityProfile => forall p, a.2 = Some p ->
    exists w w', GetVpcConnectivityProfile nc (nc_VPCConnectivityProfile nc) w = (Ok p, w')).
  assert (Hinv : P (w, o)).
  { refine (attempts_inv P _ _ fn x0 e (w, o) _ _ Ea); [|intros p Hp; discriminate].
    intros [w1 o1] r1 [w2 o2] _. unfold fn. destruct (GetVpcConnectivityProfile _ _ w1) as [[q|e1] w3] eqn:Eg; intros [= <- <- <-] p; cbn; [|done].
    intros [= <-]. eauto. }
  destruct e as [e|]; [intros [= <- <-]; split; [done|intros p Hp; discriminate]|].
  destruct o as [q|]; [|done]. intros [= <- <-]. split; [done|]. intros p [= <-]. by apply Hinv.
Qed.
Lemma GetLBProvider_spec (s s' : sstate) r : GetLBProvider cf s = Some (r, s') ->
  match r with
  | Ok p => provider s' = p /\ (provider s = NoneLB -> justified p (svc_store s)) /\ (provider s <> NoneLB -> s' = s)
  | Err _ => provider s' = provider s
  end /\ VpcStore (svc_store s') = VpcStore (svc_store s) /\ LbsStore (svc_store s') = LbsStore (svc_store s).
Proof.
  unfold GetLBProvider, provider. intros [(s0 & s1 & [= <- <-] & Hk)|(e & [=] & _)]%bindM_Some. cbv beta in Hk.
  case_bool_decide as Hp; cbn [negb] in Hk; [|injection Hk as <- <-; done].
  apply bindM_Some in Hk as [(nc & s1 & Hn & Hk)|(e & Hn & ->)]; [|by rewrite (stable_result _ _ _ _ Hn)].
  injection Hn as _ <-. destruct nc as [nc|]; [|by injection Hk as <- <-].
  apply bindM_Some in Hk as [(profile & s2 & Hpr & Hk)|(e & Hpr & ->)]; apply profile_with_retry in Hpr as [Hs2 Hprof]; [|by rewrite Hs2].
  unfold getLBProvider in Hk.
  apply bindM_Some in Hk as [(p & s3 & Hget & Hk)|(e & Hget & ->)].
  - injection Hk as <- <-. cbn. split_and!; try done.
    all: apply bindM_Ok in Hget as (s4 & s5 & [= <- <-] & (found & s6 & Hf & Hget)%bindM_Ok); injection Hget as <- <-.
    all: assert (Hst : svc_store s6 = svc_store s2) by (destruct (_ && _) in Hf; [by apply stable_alb in Hf|by injection Hf as _ <-]).
    2-3: by rewrite Hst, Hs2.
    intros _. destruct found; [|destruct (IsServiceGatewayEnabled profile) eqn:Eg; [|done]; destruct (Hprof _ eq_refl) as (w & w' & Hw); by exists nc, w, profile, w'].
    destruct (cf_UseAVILoadBalancer cf && _) eqn:Eu; [|discriminate]. apply andb_true_iff in Eu as [Eu1 Eu2%bool_decide_eq_true].
    split; [done|]. split; [by rewrite <- Hs2|]. unfold checkALBEndpoint in Hf. apply bindM_Ok in Hf as (probe & s7 & Hprobe & Hf).
    unfold on_world in Hprobe. destruct (Http_AlbEndpoint (svc_world s2)) as [a w] eqn:Ea. injection Hprobe as <- <-.
    exists (svc_world s2). rewrite Ea. destruct a as [e|]; [|done]. exfalso. revert Hf. case_bool_decide; [|done].
    intros (s8 & s9 & _ & Hf)%bindM_Ok. by destruct (Cluster_Health _).
  - assert (Hst : svc_store s' = svc_store s2); [|by rewrite Hst, Hs2].
    apply bindM_Some in Hget as [(s4 & s5 & [= <- <-] & Hget)|(e' & [=] & _)].
    apply bindM_Some in Hget as [(found & s6 & Hf & Hget)|(e' & Hf & _)]; [discriminate|].
    destruct (_ && _) in Hf; [by apply stable_alb in Hf|by injection Hf as _ <-].
Qed.
Lemma lb_run_decided s log s2 : lb_run s log s2 -> provider s <> NoneLB -> log = replicate (length log) (provider s).
Proof.
  intros Hrun. induction Hrun as [s|s p s1 log s2 Hget Hrun IH|s e s1 log s2 Hget Hrun IH|s s1 log s2 Hp Hrun IH]; intros Hd.
  - done.
  - apply GetLBProvider_spec in Hget as [(Hp & _ & Hs) _]. rewrite (Hs Hd) in *. cbn. rewrite <- Hp. f_equal. by apply IH.
  - apply GetLBProvider_spec in Hget as [Hp _]. rewrite <- Hp. apply IH. by rewrite Hp.
  - rewrite <- Hp. apply IH. by rewrite Hp.
Qed.
(** Whatever happens between the calls, the provider is decided once: the
    answers are some times that there is none and from then on one and the same
    provider; and the answer that decides it is justified by what was seen then,
    the endpoint of AVI with no load balancer service stored, or a service gateway
    that is enabled. *)
Theorem lb_provider_decided s log s2 :
  lb_run s log s2 -> provider s = NoneLB ->
  exists n m p, log = replicate n NoneLB ++ replicate m p /\
    (m <> 0%nat -> exists s0, provider s0 = NoneLB /\ justified p (svc_store s0)).
Proof.
  intros Hrun. induction Hrun as [s|s p s1 log s2 Hget Hrun IH|s e s1 log s2 Hget Hrun IH|s s1 log s2 Hp Hrun IH]; intros Hd.
  - by exists 0%nat, 0%nat, NoneLB.
  - apply GetLBProvider_spec in Hget as [(Hp & Hj & _) _]. destruct (decide (p = NoneLB)) as [->|Hne].
    + destruct (IH Hp) as (n & m & q & -> & Hq). by exists (S n), m, q.
    + exists 0%nat, (S (length log)), p. cbn. split; [|intros _; exists s; auto]. f_equal. rewrite <- Hp. apply (lb_run_decided _ _ _ Hrun). by rewrite Hp.
  - apply GetLBProvider_spec in Hget as [Hp _]. apply IH. by rewrite Hp.
  - apply IH. by rewrite Hp.
Qed.
End Provider.

(** ** A concrete world: one Namespace with a configuration; NSX answers with
    what it is asked for. *)
Module VpcDemo.
Definition demo_config (vpc : string) : VPCNetworkConfiguration :=
  mkNetConfig "system" {["nsx.vmware.com/default" := "true"]} "/orgs/default/projects/p" vpc "/orgs/default/projects/p/vpc-connectivity-profiles/prof" ["172.26.0.0/16"].
Definition demo_ns (name shared : string) : Namespace :=
  mkNamespace name ("uid-" +:+ name) (if bool_decide (shared = "") then ∅ else {["nsx.vmware.com/shared_vpc_namespace" := shared]}) [].
Definition demo_path (id : string) : string := "/orgs/default/projects/p/vpcs/" +:+ id.
Definition demo_vpc (id : string) : Vpc :=
  mkVpc id (Some id) (Some (demo_path id)) ["172.26.0.0/16"] None None [newTag TagScopeNamespaceUID "uid-a"] None None.
(** The calls that write, in order; [bad] paths are in error. *)
#[global] Instance demo_world : VpcWorld (list string) := {|
  Kube_Configs _ := Ok [demo_config ""];
  Kube_Config n _ := if bool_decide (n = "system") then Ok (demo_config "") else Err (EText "not found");
  Kube_Namespaces _ := Ok [demo_ns "a" ""; demo_ns "b" "a"; demo_ns "c" "b"];
  Kube_Namespace n _ := if bool_decide (n = "a") then Ok (demo_ns "a" "") else if bool_decide (n = "b") then Ok (demo_ns "b" "a") else Ok (demo_ns "c" "b");
  Kube_IsNotFound _ := true;
  VPC_Get _ _ id w := (Ok (demo_vpc id), w);
  VPC_Delete _ _ id w := (None, w ++ ["delete " +:+ id]);
  OrgRoot_Patch r w := (None, w ++ ["patch " +:+ v_Id (or_Vpc r)]);
  LBS_Get _ _ v id w := (Ok (mkLBService id id (Some (demo_path v +:+ "/lbs")) (Some (demo_path v)) None [] None None), w);
  LBS_List _ _ _ w := (Ok [], w);
  Attachment_Get _ _ v id w := (Ok (mkVpcAttachment id id (Some "prof") (Some (demo_path v +:+ "/att")) [] None), w);
  Attachment_List _ _ _ w := (Ok [], w);
  Profile_Get _ _ _ w := (Ok (mkProfile None None (Some (mkServiceGateway (Some true) ["/edge"] (Some true)))), w);
  TgwState_Get _ _ _ w := (Ok None, w);
  VpcState_Get _ _ _ w := (Ok None, w);
  TgwAttachment_List _ _ _ w := (Ok [], w);
  NatRules_List _ _ _ w := (Ok [], w);
  AviSubnet_Get _ _ _ w := (Ok None, w);
  AviSubnetStatus_List _ _ _ w := (Ok [], w);
  IPAllocation_Get _ _ _ _ w := (Ok None, w);
  ServiceProfile_Get _ _ _ w := (Ok (mkServiceProfile []), w);
  ProjectNdra_Get _ _ _ w := (Ok None, w);
  Ndra_Get _ w := (Ok None, w);
  Interface_IPs _ w := (Ok [], w);
  Realized_List path w := (Ok [mkEntity (Some "REALIZED") (Some "gateway-interface") []], w);
  Search_VPCs _ := [demo_vpc "x"; mkVpc "x" (Some "x") (Some "/orgs/default/projects/q/vpcs/x") [] None None [] None None];
  Http_AlbEndpoint w := (Some HttpNotFoundError, w);
  Http_Project _ _ w := (Ok (Some false), w);
  Http_Ports _ w := (Ok [], w);
  Http_Delete _ w := (None, w);
  Cluster_Health _ := GREEN;
  Ctx_Err _ := None |}.
Definition IV : Type := map_store Vpc v_Id.
Definition IL : Type := map_store LBService lbs_key.
Definition demo_cf : vpc_config := mkVpcConfig "c" None "SMALL" false true false.
Definition s0 : service_state (vpc_stores IV IL) (list string) := mkService (mkVpcStores ix_empty ix_empty NoneLB ∅) [].
Definition demo_info (ns : string) : NetworkInfo := mkNetworkInfo ns ns ("ni-" +:+ ns) [].
Definition demo_run (ns : string) (s : service_state (vpc_stores IV IL) (list string)) :=
  CreateOrUpdateVPC demo_cf (fun _ => "u") 5 (demo_info ns) (demo_config "") NSXLB false false s.
Definition after (r : option (result goerr Vpc * service_state (vpc_stores IV IL) (list string))) := from_option snd s0 r.
Definition answer (r : option (result goerr Vpc * service_state (vpc_stores IV IL) (list string))) : result goerr Vpc :=
  from_option fst (Err (EText "panic")) r.
Lemma demo_ran ns s : match demo_run ns s with Some _ => true | None => false end = true -> demo_run ns s = Some (answer (demo_run ns s), after (demo_run ns s)).
Proof. by destruct (demo_run ns s) as [[r s']|]. Qed.
Definition s1 := after (demo_run "a" s0).
(** The Namespace a creates its VPC, b uses it, and c, which shares that of b,
    gets none: sharing is looked up once and not followed. *)
Lemma demo_sharing :
  (exists id, svc_world s1 = ["patch " +:+ id] /\ map v_Id (ix_List (VpcStore (svc_store s1))) = [id]) /\
  is_ok (answer (demo_run "b" s1)) = true /\ svc_world (after (demo_run "b" s1)) = svc_world s1 /\
  answer (demo_run "c" s1) = Err (EText "the shared VPC is not created yet, Namespace c").
Proof.
  split; [exists (match ix_List (VpcStore (svc_store s1)) with v :: _ => v_Id v | [] => "" end); split; vm_compute; reflexivity|].
  repeat split; vm_compute; reflexivity.
Qed.
End VpcDemo.
Import VpcDemo.
(** The first call for the Namespace creates its VPC, which is stored as NSX returned it. *)
Lemma CreateOrUpdateVPC_store_witness :
  match answer (demo_run "a" s0) with
  | Ok v => exists id path, realized_vpc (IV := IV) (IL := IL) (demo_config "") id v path s0 /\ VpcStore (svc_store s1) = ix_Add v (VpcStore (svc_store s0)) /\
      lbs_realized (IV := IV) (IL := IL) (W := list string) (demo_config "") id /\ attachment_realized (demo_config "") id s1
  | Err _ => False
  end.
Proof.
  assert (Hok : is_ok (answer (demo_run "a" s0)) = true) by (vm_compute; reflexivity).
  assert (Hne : VpcStore (svc_store s1) <> VpcStore (svc_store s0)).
  { intros Heq. assert (Hl : length (ix_List (VpcStore (svc_store s1))) = length (ix_List (VpcStore (svc_store s0)))) by (by rewrite Heq).
    revert Hl. vm_compute. discriminate. }
  assert (Hrun : demo_run "a" s0 = Some (answer (demo_run "a" s0), s1)) by (apply (demo_ran "a" s0); vm_compute; reflexivity).
  destruct (CreateOrUpdateVPC_store demo_cf (fun _ => "u") 5 (demo_info "a") (demo_config "") NSXLB false false s0 (answer (demo_run "a" s0)) s1 Hrun)
    as [[Heq _]|[(id & v & path & Hr & Ha & Hx)|(id & v & vpath & path & ids & e & i & t & t' & base & _ & _ & He & _)]].
  - by destruct Hne.
  - destruct (answer (demo_run "a" s0)) as [x|e]; [|discriminate Hok]. destruct (Hx x eq_refl) as (-> & Hl & Hat).
    exists id, path. split_and!; [exact Hr|exact Ha|exact (Hl eq_refl)|exact Hat].
  - rewrite He in Hok. discriminate Hok.
Defined.
(** An endpoint that was enabled and is not wanted any more: the update changes nothing. *)
Lemma vpc_update_settles_witness :
  let old := vpc_with (demo_vpc "x") true ["172.26.0.0/16"] in
  let st : vpc_stores IV IL := mkVpcStores ix_empty ix_empty NoneLB ∅ in
  buildNSXVPC (fun _ => false) (fun _ => false) (fun _ => "u") 5 (demo_info "a") (demo_ns "a" "") (demo_config "") "c" (Some old) false false false = Some (Some old) /\
  exists changed', IsLBProviderChanged (Some old) NoneLB st = Some changed' /\
    buildNSXVPC (fun _ => false) (fun _ => false) (fun _ => "u") 5 (demo_info "a") (demo_ns "a" "") (demo_config "") "c" (Some old) false changed' false = Some (Some old).
Proof.
  cbv zeta. split; [reflexivity|].
  exact (vpc_update_settles (IV := IV) (IL := IL) (fun _ => false) (fun _ => false) (fun _ => "u") 5 (demo_info "a") (demo_ns "a" "") (demo_config "") "c"
    (Some (vpc_with (demo_vpc "x") true ["172.26.0.0/16"])) NoneLB false false _ (vpc_with (demo_vpc "x") true ["172.26.0.0/16"])
    (mkVpcStores ix_empty ix_empty NoneLB ∅) (demo_path "x") (mkVPCInfo "default" "p" "x" "x" "p")
    eq_refl eq_refl eq_refl eq_refl ltac:(vm_compute; reflexivity) ltac:(discriminate)).
Defined.
Lemma lb_provider_decided_witness :
  lb_run demo_cf s0 [NSXLB] (mkService (set_provider NSXLB (svc_store s0)) []) /\
  exists n m p, [NSXLB] = replicate n NoneLB ++ replicate m p /\
    (m <> 0%nat -> exists s : service_state (vpc_stores IV IL) (list string), provider s = NoneLB /\ justified demo_cf p (svc_store s)).
Proof.
  assert (H : lb_run demo_cf s0 [NSXLB] (mkService (set_provider NSXLB (svc_store s0)) [])).
  { eapply run_answer; [vm_compute; reflexivity|]. apply run_end. }
  split; [exact H|]. exact (lb_provider_decided demo_cf s0 [NSXLB] _ H eq_refl).
Defined.
(** Two VPCs of different projects with one identifier: the search keeps one. *)
Lemma GetAllVPCs_collide : size <$> GetAllVPCsFromNSX (IV := IV) ([] : list string) = Some 1%nat /\ length (Search_VPCs ([] : list string)) = 2%nat.
Proof. split; vm_compute; reflexivity. Qed.
