(* ===== verification/StaticRoute.v ===== *)
(** * pkg/nsx/services/staticroute: static routes of VPCs

    builder.go, compare.go, store.go, staticroute.go and the local part of
    cleanup.go. *)
From S2P Require Import Prelude GoStrings GoNet Errors NsxUtil Names Interfaces GoMonad Compare RealizeState Service Subnet.

(** A next hop of NSX: an address and a distance. *)
Definition RouterNexthop : Type := option string * option Z.
Record StaticRoutes := mkStaticRoutes {
  sr_Id : string; sr_DisplayName : option string; sr_Network : option string; sr_NetworkIpAllocationPath : option string;
  sr_NextHops : list RouterNexthop; sr_Tags : list Tag; sr_Path : option string; sr_ParentPath : option string }.
(** The CR: its specification and the conditions of its status. *)
Record StaticRouteCR := mkStaticRouteCR {
  cr_meta : meta; cr_Network : string; cr_NetworkIPAllocationName : string; cr_NextHops : list string; cr_Conditions : list Condition }.
Definition MaxNameLength : Z := 255.

(** ** Building and comparing *)
Fixpoint validate_hops (seen : list string) (hops : list string) : option goerr :=
  match hops with
  | [] => None
  | ip :: hops' =>
      if bool_decide (ip ∈ seen) then Some (EText ("duplicate ip address " +:+ ip))
      else match ParseIP ip with
           | None => Some (EText ("invalid IP address: " +:+ ip))
           | Some _ => validate_hops (ip :: seen) hops'
           end
  end.
Definition validateStaticRoute (obj : StaticRouteCR) : option goerr := validate_hops [] (cr_NextHops obj).
Definition next_hop (ip : string) : RouterNexthop := (Some ip, Some 1).
Section Builder.
Context (cluster : string) (namespaceUID : string) (idExists : string -> bool) (uuids : nat -> string) (fuel : nat).
Definition buildBasicTags (obj : StaticRouteCR) : list Tag :=
  BuildBasicTags cluster TStaticRoute (m_Namespace (cr_meta obj)) (m_Name (cr_meta obj)) (m_UID (cr_meta obj)) namespaceUID.
Definition buildStaticRouteId (obj : object) : option string := BuildUniqueIDWithRandomUUID GenerateIDByObject idExists uuids fuel obj.
Definition buildStaticRoute (obj : StaticRouteCR) (networkIPAllocationPath : string) : option (result goerr StaticRoutes) :=
  match validateStaticRoute obj with
  | Some e => Some (Err e)
  | None =>
      let tags := buildBasicTags obj in
      id ← buildStaticRouteId (mkObject (m_Name (cr_meta obj)) (default "" (head (filterTag tags TagScopeNamespaceUID))));
      name ← GenerateTruncName MaxNameLength (m_Name (cr_meta obj)) "" "" "" "";
      let byPath := negb (bool_decide (networkIPAllocationPath = "")) in
      Some (Ok (mkStaticRoutes id (Some name) (if byPath then None else Some (cr_Network obj))
                  (if byPath then Some networkIPAllocationPath else None) (map next_hop (cr_NextHops obj)) tags None None))
  end.
End Builder.
(** The addresses of the next hops in the order of the comparison: missing ones
    first, then by address. *)
Definition sorted_hops (hops : list RouterNexthop) : list RouterNexthop :=
  map (fun _ => (None, None)) (filter (fun h : RouterNexthop => h.1 = None) hops) ++
  map (fun ip => (Some ip, None)) (sort_strings (omap fst hops)).
Definition compared_route (sr : StaticRoutes) : StaticRoutes :=
  mkStaticRoutes "" None (sr_Network sr) (sr_NetworkIpAllocationPath sr) (sorted_hops (sr_NextHops sr)) [] None None.
(** The JSON encoder of the SDK: different objects have different texts. *)
Class RouteEncoder := {
  encode_route : StaticRoutes -> string;
  encode_route_inj : forall a b, encode_route a = encode_route b -> a = b }.
#[global] Instance route_comparable `{RouteEncoder} : Comparable StaticRoutes := { Key := sr_Id; Value r := encode_route (compared_route r) }.
Definition compareStaticRoute `{RouteEncoder} (old new : option StaticRoutes) : bool :=
  match old, new with
  | None, None => true
  | Some a, Some b => negb (CompareResource a b)
  | _, _ => false
  end.
Definition isStaticRouteReady (obj : StaticRouteCR) : bool :=
  existsb (fun c => bool_decide (cond_Type c = "Ready") && bool_decide (cond_Status c = "True")) (cr_Conditions obj).

(** ** The service *)
Definition TagScopeStaticRouteCRUID := "nsx-op/static_route_uid".
Definition TagScopeStaticRouteCRName := "nsx-op/static_route_name".
Definition indexFunc (r : StaticRoutes) : list string := filterTag (sr_Tags r) TagScopeStaticRouteCRUID.
Definition indexStaticRouteNamespace (r : StaticRoutes) : list string := filterTag (sr_Tags r) TagNamespaceScope.
Definition routeIndexVPCFunc (r : StaticRoutes) : list string := option_list (sr_ParentPath r).
(** NSX, Kubernetes, and the services of VPCs and of address allocations. *)
Class RouteWorld (W : Type) := {
  Route_Patch : string -> string -> string -> StaticRoutes -> W -> option goerr * W;
  Route_Get : string -> string -> string -> string -> W -> result goerr StaticRoutes * W;
  Route_Delete : string -> string -> string -> string -> W -> option goerr * W;
  Route_Realized : string -> W -> result goerr (list Entity) * W;
  Route_NamespaceUID : string -> W -> string;
  Route_VPCs : string -> W -> list VPCResourceInfo;
  (** The UID of an IPAddressAllocation, and the path of the allocation of an owner. *)
  Allocation_CR : string -> string -> W -> result goerr string;
  Allocation_IsNotFound : goerr -> bool;
  Allocation_ByOwner : string -> W -> result goerr (option (option string));
  Route_error_text : goerr -> string }.
Section Service.
Context {I W : Type} `{!Indexer I StaticRoutes sr_Id} `{!RouteWorld W} `{!RetryDriver} `{!RouteEncoder}.
Context (cluster : string) (uuids : nat -> string) (fuel : nat).
Local Abbreviation RouteM := (Svc (I := I) (W := W)).
Definition staticRoutesIdExists (st : I) (id : string) : bool := bool_decide (is_Some (ix_GetByKey id st)).
Definition GetStaticRoutesByCRUID (uid : string) (st : I) : option StaticRoutes := head (ix_GetByIndex indexFunc uid st).
Definition GetByVPCPath (vpcPath : string) (st : I) : list StaticRoutes := ix_GetByIndex routeIndexVPCFunc vpcPath st.
Definition DeleteMultipleObjects (routes : list StaticRoutes) (st : I) : I := foldl (fun st r => ix_Delete r st) st routes.
Definition ListStaticRouteByName (ns name : string) (st : I) : list StaticRoutes :=
  filter (fun r => default "" (FindTag (sr_Tags r) TagScopeStaticRouteCRName) = name) (ix_GetByIndex indexStaticRouteNamespace ns st).
Definition ListStaticRoute (st : I) : list StaticRoutes := ix_List st.
Definition GetUID (r : option StaticRoutes) : option string :=
  r ≫= fun r => head (filter (tag_scope_is TagScopeStaticRouteCRUID) (sr_Tags r)) ≫= tag_Tag.
Definition resolveNetworkIPAllocationPath (namespace name : string) (w : W) : result goerr string :=
  let nn := namespace +:+ "/" +:+ name in
  match Allocation_CR namespace name w with
  | Err e =>
      if Allocation_IsNotFound e then Err (EText ("IPAddressAllocation CR " +:+ nn +:+ " not found"))
      else Err (EWrap ("failed to get IPAddressAllocation CR " +:+ nn) e)
  | Ok uid =>
      match Allocation_ByOwner uid w with
      | Err e => Err (EWrap ("failed to look up NSX allocation for IPAddressAllocation CR " +:+ nn) e)
      | Ok None => Err (EText ("NSX allocation for IPAddressAllocation CR " +:+ nn +:+ " not found in store"))
      | Ok (Some None) | Ok (Some (Some "")) => Err (EText ("NSX allocation for IPAddressAllocation CR " +:+ nn +:+ " has no policy path"))
      | Ok (Some (Some path)) => Ok path
      end
  end.
Definition DeleteStaticRoute (r : StaticRoutes) : RouteM unit :=
  let! path := mtotal (sr_Path r) in
  match ParseVPCResourcePath path with
  | None => mfail (EText ("invalid path '" +:+ path +:+ "'"))
  | Some i =>
      let! _ := nsx_call (Route_Delete (OrgID i) (ProjectID i) (VPCID i) (sr_Id r)) in
      on_store (ix_Delete r)
  end.
Definition checkStaticRouteRealizeState (r : StaticRoutes) : RouteM unit :=
  let! path := mtotal (sr_Path r) in
  let! err := check_realized Route_Realized path [] in
  match err with
  | None => mret tt
  | Some e =>
      let! deleted := mcatch (DeleteStaticRoute r) in
      match deleted with
      | Err d => mfail (EText ("realization check failed: " +:+ Route_error_text e +:+ "; deletion failed: " +:+ Route_error_text d))
      | Ok _ => mfail e
      end
  end.
(** The route that is sent: with the identifier and the name of the existing one. *)
Definition with_identity (r existing : StaticRoutes) : StaticRoutes :=
  mkStaticRoutes (sr_Id existing) (sr_DisplayName existing) (sr_Network r) (sr_NetworkIpAllocationPath r) (sr_NextHops r) (sr_Tags r)
    (sr_Path r) (sr_ParentPath r).
Definition send_route (namespace : string) (r : StaticRoutes) : RouteM unit :=
  let! s := mget in
  match Route_VPCs namespace (svc_world s) with
  | [] => mfail (EText ("no vpc found for ns " +:+ namespace))
  | v :: _ =>
      let! _ := nsx_call (Route_Patch (OrgID v) (ProjectID v) (info_ID v) r) in
      let! got := nsx_result (Route_Get (OrgID v) (ProjectID v) (info_ID v) (sr_Id r)) in
      let! _ := checkStaticRouteRealizeState got in
      on_store (ix_Add got)
  end.
Definition CreateOrUpdateStaticRoute (namespace : string) (obj : StaticRouteCR) : RouteM unit :=
  let! s := mget in
  let! path := if bool_decide (cr_NetworkIPAllocationName obj = "") then mret ""
               else mresult (resolveNetworkIPAllocationPath namespace (cr_NetworkIPAllocationName obj) (svc_world s)) in
  let! built := mtotal (buildStaticRoute cluster (Route_NamespaceUID (m_Namespace (cr_meta obj)) (svc_world s))
                          (staticRoutesIdExists (svc_store s)) uuids fuel obj path) in
  let! r := mresult built in
  match GetStaticRoutesByCRUID (m_UID (cr_meta obj)) (svc_store s) with
  | None => send_route namespace r
  | Some existing =>
      let! _ := mtotal (sr_DisplayName existing) in
      let r := with_identity r existing in
      if compareStaticRoute (Some existing) (Some r) then
        if isStaticRouteReady obj then mret tt else checkStaticRouteRealizeState existing
      else send_route namespace r
  end.
Definition DeleteStaticRouteByCR (obj : StaticRouteCR) : RouteM unit :=
  let! s := mget in
  match GetStaticRoutesByCRUID (m_UID (cr_meta obj)) (svc_store s) with None => mret tt | Some r => DeleteStaticRoute r end.
(** [CleanupVPCChildResources] with the path of a VPC that NSX has removed. *)
Definition CleanupVPCChildResources (vpcPath : string) (st : I) : I := DeleteMultipleObjects (GetByVPCPath vpcPath st) st.
End Service.

(** ** Facts *)
Lemma map_const {A B} (c : B) (l : list A) : map (fun _ => c) l = replicate (length l) c.
Proof. induction l as [|a l IH]; [done|]. cbn. by rewrite IH. Qed.
Lemma sorted_hops_perm k : map fst (sorted_hops k) ≡ₚ map fst k.
Proof.
  unfold sorted_hops. rewrite map_app, !map_map, sort_strings_perm.
  induction k as [|[[ip|] d] k IH]; [done| |]; cbn.
  - rewrite <- IH. symmetry. apply Permutation_middle.
  - by rewrite <- IH.
Qed.
Lemma sorted_hops_spec l l' : sorted_hops l = sorted_hops l' <-> map fst l ≡ₚ map fst l'.
Proof.
  split; intros Heq; [by rewrite <- (sorted_hops_perm l), Heq, sorted_hops_perm|].
  assert (Ho : forall k : list RouterNexthop, omap fst k = omap id (map fst k)).
  { intros k. induction k as [|[[ip|] d] k IH]; [done| |]; cbn; by rewrite IH. }
  assert (Hl : forall k : list RouterNexthop, (length (filter (fun h : RouterNexthop => h.1 = None) k) + length (omap fst k) = length (map fst k))%nat).
  { intros k. induction k as [|[[ip|] d] k IH]; [done| |]; rewrite filter_cons; case_decide as Hd; try done; cbn in *; lia. }
  assert (Hp : omap fst l ≡ₚ omap fst l') by (rewrite !Ho; by apply omap_Permutation).
  unfold sorted_hops. rewrite !map_const, (sort_strings_proper _ _ Hp). do 2 f_equal.
  pose proof (Hl l) as H1. pose proof (Hl l') as H2. apply Permutation_length in Hp, Heq. rewrite Hp in H1. rewrite <- Heq in H2. lia.
Qed.
Section Facts.
Context `{!RouteEncoder}.
(** Two routes are the same for the service exactly when they have the same
    network, the same path of an allocation, and next hops with the same
    addresses in any order: identifiers, names, tags and distances do not count. *)
Theorem compareStaticRoute_spec (a b : StaticRoutes) :
  compareStaticRoute (Some a) (Some b) = true <->
  sr_Network a = sr_Network b /\ sr_NetworkIpAllocationPath a = sr_NetworkIpAllocationPath b /\
  map fst (sr_NextHops a) ≡ₚ map fst (sr_NextHops b).
Proof.
  unfold compareStaticRoute, CompareResource. rewrite negb_involutive, bool_decide_eq_true, <- sorted_hops_spec. split.
  - intros Hv%encode_route_inj. unfold compared_route in Hv. by injection Hv.
  - intros (Hn & Hp & Hh). cbn. unfold compared_route. by rewrite Hn, Hp, Hh.
Qed.
End Facts.

(** ** Reconciling the same CR again *)
Section Settles.
Context {I W : Type} `{!Indexer I StaticRoutes sr_Id} `{!RouteWorld W} `{!RetryDriver} `{!RouteEncoder}.
Context (cluster : string) (uuids : nat -> string) (fuel : nat).
Local Abbreviation state := (service_state I W).
(** A CR owns at most one route of the store. *)
Definition one_route (st : I) : Prop := owned_once indexFunc st.
(** NSX returns a route as it was sent, with a path. *)
Definition echoes : Prop := forall org project vpc r w e w' got w2,
  Route_Patch org project vpc r w = (e, w') -> Route_Get org project vpc (sr_Id r) w' = (Ok got, w2) -> e = None ->
  sr_Id got = sr_Id r /\ sr_DisplayName got = sr_DisplayName r /\ sr_Network got = sr_Network r /\
  sr_NetworkIpAllocationPath got = sr_NetworkIpAllocationPath r /\ sr_NextHops got = sr_NextHops r /\ sr_Tags got = sr_Tags r.
(** The path of the network of a CR, when it refers to an allocation. *)
Definition network_path (namespace : string) (obj : StaticRouteCR) (w : W) : result goerr string :=
  if bool_decide (cr_NetworkIPAllocationName obj = "") then Ok ""
  else resolveNetworkIPAllocationPath namespace (cr_NetworkIPAllocationName obj) w.
Definition built_route (obj : StaticRouteCR) (path : string) (s : state) : option (result goerr StaticRoutes) :=
  buildStaticRoute cluster (Route_NamespaceUID (m_Namespace (cr_meta obj)) (svc_world s)) (staticRoutesIdExists (svc_store s)) uuids fuel obj path.
(** A route carries what the CR asks for. *)
Definition carries (obj : StaticRouteCR) (path : string) (r : StaticRoutes) : Prop :=
  sr_Network r = (if bool_decide (path = "") then Some (cr_Network obj) else None) /\
  sr_NetworkIpAllocationPath r = (if bool_decide (path = "") then None else Some path) /\
  map fst (sr_NextHops r) ≡ₚ map Some (cr_NextHops obj).
(** The store has the route of the CR, as the CR asks for it. *)
Definition settled (obj : StaticRouteCR) (path : string) (st : I) : Prop :=
  exists r, GetStaticRoutesByCRUID (m_UID (cr_meta obj)) st = Some r /\ is_Some (sr_DisplayName r) /\ carries obj path r.
Lemma route_built_fields obj path s r : built_route obj path s = Some (Ok r) ->
  carries obj path r /\ is_Some (sr_DisplayName r) /\ indexFunc r = [m_UID (cr_meta obj)].
Proof.
  unfold built_route, buildStaticRoute. destruct (validateStaticRoute obj); [discriminate|]. cbv zeta.
  intros (id & _ & (name & _ & Hr)%bind_Some)%bind_Some. injection Hr as <-. unfold carries, indexFunc. cbn.
  split_and!; [by case_bool_decide|by case_bool_decide|by rewrite map_map|by eexists|]. unfold filterTag, buildBasicTags, BuildBasicTags. destruct (bool_decide _); reflexivity.
Qed.
Lemma identity_carries obj path r existing : carries obj path r -> carries obj path (with_identity r existing).
Proof. done. Qed.
Lemma carries_same obj path a b : carries obj path b -> compareStaticRoute (Some a) (Some b) = true <-> carries obj path a.
Proof.
  intros (Hn & Hp & Hh). unfold compareStaticRoute, CompareResource. rewrite negb_involutive, bool_decide_eq_true. cbn. unfold carries.
  rewrite <- Hn, <- Hp, <- Hh, <- sorted_hops_spec. split.
  - intros Hv%encode_route_inj. unfold compared_route in Hv. by injection Hv.
  - intros (H1 & H2 & H3). unfold compared_route. by rewrite H1, H2, H3.
Qed.
Lemma GetByCRUID_finder : finder (I := I) indexFunc GetStaticRoutesByCRUID.
Proof. apply head_finder. Qed.
Lemma check_ok r (s s' : state) : checkStaticRouteRealizeState r s = Some (Ok tt, s') -> svc_store s' = svc_store s.
Proof.
  unfold checkStaticRouteRealizeState. intros (p & s1 & Hp%stable_total & Hk)%bindM_Ok.
  apply bindM_Ok in Hk as (err & s2 & Hc%stable_check & Hk). rewrite <- Hp, <- Hc. destruct err as [e|]; [|by injection Hk as <-].
  apply bindM_Ok in Hk as (d & s3 & _ & Hk). by destruct d.
Qed.
(** A route that was sent is the one of its identifier in the store. *)
Lemma send_ok ns r (s s' : state) : echoes -> send_route ns r s = Some (Ok tt, s') ->
  exists got, svc_store s' = ix_Add got (svc_store s) /\ sr_Id got = sr_Id r /\ sr_DisplayName got = sr_DisplayName r /\ sr_Network got = sr_Network r /\ sr_NetworkIpAllocationPath got = sr_NetworkIpAllocationPath r /\ sr_NextHops got = sr_NextHops r /\ sr_Tags got = sr_Tags r.
Proof.
  intros Hecho. unfold send_route. intros (s0 & s1 & [= <- <-] & Hk)%bindM_Ok.
  destruct (Route_VPCs ns (svc_world s)) as [|v l]; [discriminate|].
  apply bindM_Ok in Hk as (u & s1 & Hp & Hk). apply bindM_Ok in Hk as (got & s2 & Hg & Hk).
  apply bindM_Ok in Hk as ([] & s3 & Hc%check_ok & Hk). injection Hk as <-. cbn.
  pose proof (stable_nsx_call _ _ _ _ Hp) as Hs1. pose proof (stable_nsx_result _ _ _ _ Hg) as Hs2.
  exists got. rewrite Hc, Hs2, Hs1. split; [done|].
  unfold nsx_call, world_result in Hp. destruct (Route_Patch _ _ _ _ _) as [e w1] eqn:Ep. injection Hp as Hp <-.
  unfold nsx_result, world_result in Hg. cbn in Hg. destruct (Route_Get _ _ _ _ _) as [g w2] eqn:Eg. injection Hg as Hg <-.
  destruct g as [g|]; [|done]. injection Hg as ->. destruct e as [e|]; [done|]. by eapply Hecho.
Qed.
(** The CR with other conditions. *)
Definition with_conditions (obj : StaticRouteCR) (conditions : list Condition) : StaticRouteCR :=
  mkStaticRouteCR (cr_meta obj) (cr_Network obj) (cr_NetworkIPAllocationName obj) (cr_NextHops obj) conditions.
Local Abbreviation reconcile := (CreateOrUpdateStaticRoute (I := I) (W := W) cluster uuids fuel).
(** The parts of a reconcile. *)
Lemma reconcile_unfold ns obj (s : state) : reconcile ns obj s =
  match network_path ns obj (svc_world s) with
  | Err e => Some (Err e, s)
  | Ok path =>
      match built_route obj path s with
      | None => None
      | Some (Err e) => Some (Err e, s)
      | Some (Ok r) =>
          match GetStaticRoutesByCRUID (m_UID (cr_meta obj)) (svc_store s) with
          | None => send_route ns r s
          | Some existing =>
              match sr_DisplayName existing with
              | None => None
              | Some _ =>
                  if compareStaticRoute (Some existing) (Some (with_identity r existing)) then
                    if isStaticRouteReady obj then Some (Ok tt, s) else checkStaticRouteRealizeState existing s
                  else send_route ns (with_identity r existing) s
              end
          end
      end
  end.
Proof.
  unfold CreateOrUpdateStaticRoute, network_path, bindM, mget, mtotal, mresult, mret. fold (built_route obj).
  case_bool_decide as Hn; [|destruct (resolveNetworkIPAllocationPath _ _ _) as [path|e]; [|done]];
    unfold built_route; destruct (buildStaticRoute _ _ _ _ _ _ _) as [[r|e]|]; try done;
    destruct (GetStaticRoutesByCRUID _ _) as [existing|]; try done;
    destruct (sr_DisplayName existing); try done; destruct (compareStaticRoute _ _); try done; by destruct (isStaticRouteReady obj).
Qed.
Lemma settled_idle ns obj path (s : state) : settled obj path (svc_store s) -> network_path ns obj (svc_world s) = Ok path ->
  is_Some (built_route obj path s) -> isStaticRouteReady obj = true -> validateStaticRoute obj = None ->
  reconcile ns obj s = Some (Ok tt, s).
Proof.
  intros (x & Hx & [d Hd] & Hc) Hp [b Hb] Hready Hv. rewrite reconcile_unfold, Hp, Hb.
  destruct b as [r|e].
  - pose proof Hb as (Hr & _ & _)%route_built_fields. rewrite Hx, Hd, (proj2 (carries_same obj path x _ (identity_carries _ _ _ x Hr)) Hc). by rewrite Hready.
  - unfold built_route, buildStaticRoute in Hb. rewrite Hv in Hb. apply bind_Some in Hb as (? & _ & (? & _ & [=])%bind_Some).
Qed.
(** When NSX returns routes as they were sent, a successful reconcile of a CR
    leaves the CR one route in the store, with the network, the path of the
    allocation and the next hops the CR asks for; and a later reconcile of the CR
    with this store, once the CR is ready, sends nothing and changes nothing. *)
Theorem CreateOrUpdateStaticRoute_settles ns obj (s s1 : state) :
  echoes -> one_route (svc_store s) -> reconcile ns obj s = Some (Ok tt, s1) ->
  one_route (svc_store s1) /\
  exists path, network_path ns obj (svc_world s) = Ok path /\ settled obj path (svc_store s1) /\
    forall conditions (s2 : state), let obj' := with_conditions obj conditions in
      svc_store s2 = svc_store s1 -> network_path ns obj' (svc_world s2) = Ok path ->
      is_Some (built_route obj' path s2) -> isStaticRouteReady obj' = true -> reconcile ns obj' s2 = Some (Ok tt, s2).
Proof.
  intros Hecho Hone. rewrite reconcile_unfold.
  destruct (network_path ns obj (svc_world s)) as [path|e]; [|done].
  destruct (built_route obj path s) as [[r|e]|] eqn:Hb; [|done..]. pose proof Hb as (Hr & Hname & Hidx)%route_built_fields.
  assert (Hv : validateStaticRoute obj = None) by (unfold built_route, buildStaticRoute in Hb; by destruct (validateStaticRoute obj)).
  intros Hrun. assert (Hst : one_route (svc_store s1) /\ settled obj path (svc_store s1)).
  { assert (Hsend : forall q, carries obj path q -> is_Some (sr_DisplayName q) -> indexFunc q = [m_UID (cr_meta obj)] ->
      from_option (fun b => sr_Id q = sr_Id b) True (GetStaticRoutesByCRUID (m_UID (cr_meta obj)) (svc_store s)) ->
      send_route ns q s = Some (Ok tt, s1) -> one_route (svc_store s1) /\ settled obj path (svc_store s1)).
    { intros q Hq Hqn Hqi Hold (got & -> & Hid & Hdn & Hn & Hp & Hh & Ht)%(send_ok _ _ _ _ Hecho).
      assert (Hgi : indexFunc got = [m_UID (cr_meta obj)]) by (unfold indexFunc; by rewrite Ht).
      rewrite <- Hid in Hold. destruct (owned_once_replace _ _ _ _ _ GetByCRUID_finder Hone Hgi Hold) as [Hone' Hfind].
      split; [exact Hone'|]. exists got. split; [exact Hfind|]. rewrite Hdn. unfold carries. by rewrite Hn, Hp, Hh. }
    destruct (GetStaticRoutesByCRUID _ _) as [x|] eqn:Hx; [|by apply (Hsend _ Hr)].
    destruct (sr_DisplayName x) as [d|] eqn:Hd; [|done]. destruct (compareStaticRoute _ _) eqn:Hcmp.
    - assert (Hs1 : svc_store s1 = svc_store s) by (destruct (isStaticRouteReady obj); [by injection Hrun as <-|by eapply check_ok]).
      rewrite Hs1. split; [exact Hone|]. exists x. split; [exact Hx|]. rewrite Hd. split; [done|].
      by eapply carries_same, Hcmp.
    - apply (Hsend _ (identity_carries _ _ _ x Hr)); [by cbn; rewrite Hd|exact Hidx|done|exact Hrun]. }
  destruct Hst as [Hone1 Hset]. split; [exact Hone1|]. exists path. split; [done|]. split; [exact Hset|].
  intros conditions s2 obj' Hs2 Hp Hbuilt Hready. apply (settled_idle ns obj' path); try done. by rewrite Hs2.
Qed.
End Settles.

(** ** A concrete world: NSX keeps one route and returns it with a path. *)
Module RouteDemo.
#[global] Program Instance demo_encoder : RouteEncoder := {
  encode_route r := field_text [encode (sr_Id r); encode (sr_DisplayName r); encode (sr_Network r); encode (sr_NetworkIpAllocationPath r);
    encode (sr_NextHops r); encode (sr_Tags r); encode (sr_Path r); encode (sr_ParentPath r)] }.
Next Obligation. intros [] [] Hv%(inj field_text). cbn in Hv. by simplify_eq. Qed.
Definition demo_route_path (id : string) : string := "/orgs/default/projects/p/vpcs/v/static-routes/" +:+ id.
Definition with_path (r : StaticRoutes) (path : string) : StaticRoutes :=
  mkStaticRoutes (sr_Id r) (sr_DisplayName r) (sr_Network r) (sr_NetworkIpAllocationPath r) (sr_NextHops r) (sr_Tags r) (Some path) (sr_ParentPath r).
(** The state of NSX: the routes by identifier. *)
#[global] Instance demo_route_world : RouteWorld (gmap string StaticRoutes) := {|
  Route_Patch _ _ _ r w := (None, <[sr_Id r := r]> w);
  Route_Get _ _ _ id w := (match w !! id with Some r => Ok (with_path r (demo_route_path id)) | None => Err (EText "not found") end, w);
  Route_Delete _ _ _ id w := (None, delete id w);
  Route_Realized _ w := (Ok [mkEntity (Some "REALIZED") (Some "route") []], w);
  Route_NamespaceUID ns _ := "uid-" +:+ ns;
  Route_VPCs _ _ := [mkVPCInfo "default" "p" "v" "v" "p"];
  Allocation_CR _ name _ := Ok name;
  Allocation_IsNotFound _ := true;
  Allocation_ByOwner _ _ := Ok (Some (Some "/orgs/default/projects/p/vpcs/v/ip-address-allocations/a"));
  Route_error_text _ := "error" |}.
Definition demo_cr : StaticRouteCR :=
  mkStaticRouteCR (mkMeta "r" "ns" "cr-1" ∅ ∅) "10.0.0.0/24" "" ["192.168.0.2"; "192.168.0.1"] [].
Definition routes : Type := map_store StaticRoutes sr_Id.
Definition demo_state : service_state routes (gmap string StaticRoutes) := mkService ix_empty ∅.
Definition demo_create := CreateOrUpdateStaticRoute "c" (fun _ => "u") 5 "ns" demo_cr demo_state.
Definition demo_after : service_state routes (gmap string StaticRoutes) := from_option snd demo_state demo_create.
Lemma demo_echoes : echoes (W := gmap string StaticRoutes).
Proof. intros o p v r w e w' got w2. cbn. intros [= <- <-]. rewrite lookup_insert_eq. by intros [= <- <-]. Qed.
Lemma demo_one_route : one_route (svc_store demo_state).
Proof. intros a b uid Ha. apply ix_list_get in Ha. cbn in Ha. discriminate. Qed.
End RouteDemo.
Import RouteDemo.
Lemma CreateOrUpdateStaticRoute_settles_witness :
  demo_create = Some (Ok tt, demo_after) /\ one_route (svc_store demo_after) /\
  exists path, network_path "ns" demo_cr (svc_world demo_state) = Ok path /\ settled demo_cr path (svc_store demo_after) /\
    forall conditions (s2 : service_state routes (gmap string StaticRoutes)), let obj' := with_conditions demo_cr conditions in
      svc_store s2 = svc_store demo_after -> network_path "ns" obj' (svc_world s2) = Ok path ->
      is_Some (built_route "c" (fun _ => "u") 5 obj' path s2) -> isStaticRouteReady obj' = true ->
      CreateOrUpdateStaticRoute "c" (fun _ => "u") 5 "ns" obj' s2 = Some (Ok tt, s2).
Proof.
  assert (Hrun : demo_create = Some (Ok tt, demo_after)).
  { assert (Hok : match demo_create with Some (Ok _, _) => True | _ => False end) by (vm_compute; exact I).
    unfold demo_after. destruct demo_create as [[[[]|e] s]|]; [reflexivity|contradiction..]. }
  split; [exact Hrun|].
  refine (CreateOrUpdateStaticRoute_settles "c" (fun _ => "u") 5 "ns" demo_cr demo_state demo_after demo_echoes demo_one_route _). rewrite <- Hrun. reflexivity.
Defined.
(** The second reconcile, with the CR ready, does nothing. *)
Lemma demo_second : let ready := with_conditions demo_cr [mkCondition "Ready" "True" "" ""] in
  match CreateOrUpdateStaticRoute "c" (fun _ => "u") 5 "ns" ready demo_after with Some (Ok _, s) => svc_world s | _ => ∅ end = svc_world demo_after.
Proof. vm_compute. reflexivity. Qed.
