(* ===== verification/IPAllocation.v ===== *)
(** * pkg/nsx/services/ipaddressallocation: IP addresses allocated in VPCs

    builder.go, compare.go, store.go, ipaddressallocation.go and the local part
    of cleanup.go: allocations of IPAddressAllocation CRs, and those that
    restoration makes for AddressBinding CRs. *)
From S2P Require Import Prelude GoStrings GoNet Errors NsxUtil IPUtil Names Interfaces GoMonad Compare Service Subnet.

Record VpcIpAddressAllocation := mkAllocation {
  ia_Id : string; ia_DisplayName : option string; ia_Path : option string; ia_ParentPath : option string; ia_Tags : list Tag;
  ia_IpAddressType : option string; ia_AllocationIps : option string; ia_AllocationSize : option Z;
  ia_Ipv6AllocationPrefixLength : option Z; ia_IpBlock : option string; ia_IpAddressBlockVisibility : option string;
  ia_UsedFor : list string; ia_MarkedForDelete : option bool }.
(** The CRs: their metadata, specification and status. *)
Record IPAddressAllocation := mkAllocationCR {
  ac_meta : meta; ac_IPAddressBlockVisibility : string; ac_AllocationSize : Z; ac_AllocationIPs : string;
  ac_IPv6AllocationPrefixLength : Z; ac_IPAddressType : string; ac_UsedFor : string; ac_IPBlockName : string;
  ac_Status_AllocationIPs : string }.
Record AddressBinding := mkBindingCR { ab_meta : meta; ab_IPAddressAllocationName : string; ab_Status_IPAddress : string }.
Inductive alloc_object := OAllocation (o : IPAddressAllocation) | OBinding (o : AddressBinding).
Definition object_meta (obj : alloc_object) : meta := match obj with OAllocation o => ac_meta o | OBinding o => ab_meta o end.

(** ** Building *)
Definition convertIpAddressBlockVisibility (visibility : string) : string :=
  if bool_decide (visibility = "") then "Private"
  else if bool_decide (visibility = "PrivateTGW") then "PRIVATE_TGW" else visibility.
Definition ipAddressTypeToNSX (ipAddressType : string) : string := if bool_decide (ipAddressType = "IPv6") then "IPV6" else "IPV4".
Definition isLBAllocation (o : IPAddressAllocation) : bool := bool_decide (ac_UsedFor o = "LB_FRONTEND").
(** [strings.Cut(s, ":")] *)
Definition cut_colon (s : string) : option (string * string) := i ← index_byte ":" s; Some (take_str i s, drop_str (S i) s).
Definition has_separator (s : string) : bool := contains_byte ":" s || contains_byte "/" s.
Definition buildIPBlockPath (rawBlock orgID : string) : result goerr (option string) :=
  let rawBlock := trim_space rawBlock in
  if bool_decide (rawBlock = "") then Ok None
  else
    let invalid := Err (EText ("invalid IPBlockName format " +:+ quoted rawBlock +:+ ", expected ':<ipBlockID>' or '<project ID>:<ipBlockID>'")) in
    match cut_colon rawBlock with
    | None => invalid
    | Some (p, b) =>
        let projectID := trim_space p in let ipBlockID := trim_space b in
        if bool_decide (ipBlockID = "") || has_separator (projectID +:+ ipBlockID) then invalid
        else if bool_decide (projectID = "") then Ok (Some ("/infra/ip-blocks/" +:+ ipBlockID))
        else Ok (Some ("/orgs/" +:+ orgID +:+ "/projects/" +:+ projectID +:+ "/infra/ip-blocks/" +:+ ipBlockID))
    end.
Definition TagScopeIPAllocLB := "nsx-op/lb".
Definition TagScopeIPAddressAllocationCRName := "nsx-op/ipaddressallocation_name".
Definition TagScopeIPAddressAllocationCRUID := "nsx-op/ipaddressallocation_uid".
Definition TagScopeAddressBindingCRUID := "nsx-op/addressbinding_uid".
Definition TagScopeSubnetPortCRName := "nsx-op/subnetport_name".
Definition TagScopeSubnetPortCRUID := "nsx-op/subnetport_uid".
Definition AllocationMaxNameLength : Z := 255.
(** NSX, and what the service asks of the service of VPCs. *)
Class AllocWorld (W : Type) := {
  Alloc_Patch : string -> string -> string -> VpcIpAddressAllocation -> W -> option goerr * W;
  Alloc_Get : string -> string -> string -> string -> W -> result goerr VpcIpAddressAllocation * W;
  Alloc_Delete : string -> string -> string -> string -> W -> option goerr * W;
  (** The VPC for load balancers in the network configuration of a Namespace. *)
  Alloc_LoadBalancerVPC : string -> W -> result goerr (option string);
  Alloc_VPCs : string -> W -> list VPCResourceInfo;
  Alloc_NamespaceUID : string -> W -> string;
  Alloc_error_text : goerr -> string;
  (** The constant of the SDK for allocations of load balancers. *)
  UsedForFrontend : string }.
Section Builder.
Context {W : Type} `{!AllocWorld W} (w : W).
Context (cluster : string) (idExists : string -> bool) (uuids : nat -> string) (fuel : nat).
Definition getVPCInfo (ns : string) (isLB : bool) : result goerr (list VPCResourceInfo) :=
  let own := Ok (Alloc_VPCs ns w) in
  if isLB then
    match Alloc_LoadBalancerVPC ns w with
    | Err e => Err e
    | Ok None | Ok (Some "") => own
    | Ok (Some path) =>
        match ParseVPCResourcePath path with
        | None => Err (EText ("invalid path '" +:+ path +:+ "'"))
        | Some i => Ok [i]
        end
    end
  else own.
Definition getVPCInfoForCR (o : IPAddressAllocation) : result goerr (list VPCResourceInfo) :=
  getVPCInfo (m_Namespace (ac_meta o)) (isLBAllocation o).
Definition buildIPAddressAllocationTags (obj : alloc_object) : list Tag :=
  let m := object_meta obj in
  BuildBasicTags cluster (match obj with OAllocation _ => TIPAddressAllocation | OBinding _ => TAddressBinding end)
    (m_Namespace m) (m_Name m) (m_UID m) (Alloc_NamespaceUID (m_Namespace m) w).
Definition buildIPAddressAllocationName (obj : alloc_object) : option string :=
  GenerateTruncName AllocationMaxNameLength (m_Name (object_meta obj)) "" "" "" "".
Definition BuildIPAddressAllocationID (obj : object) : option string := BuildUniqueIDWithRandomUUID GenerateIDByObject idExists uuids fuel obj.
(** The addresses, the size and the length of the prefix that a CR asks for. *)
Definition requested (o : IPAddressAllocation) (restoreMode : bool) : option string * option Z * option Z :=
  if negb (bool_decide (ac_AllocationIPs o = "")) then (Some (ac_AllocationIPs o), None, None)
  else if restoreMode && negb (bool_decide (ac_Status_AllocationIPs o = "")) then (Some (ac_Status_AllocationIPs o), None, None)
  else if bool_decide (ipAddressTypeToNSX (ac_IPAddressType o) = "IPV6")
  then (None, None, Some (if bool_decide (ac_IPv6AllocationPrefixLength o = 0) then 64 else ac_IPv6AllocationPrefixLength o))
  else (None, Some (ac_AllocationSize o), None).
(** The allocation with the parts that do not depend on the kind of the object. *)
Definition finish (obj : alloc_object) (visibility ipAddressType : string) (asked : option string * option Z * option Z)
    (ipBlock : option string) (usedFor : list string) (lb : bool) (subnetPortCR : option (string * string)) (restoreMode : bool)
  : option VpcIpAddressAllocation :=
  let tags := buildIPAddressAllocationTags obj ++ (if lb then [newTag TagScopeIPAllocLB "true"] else []) ++
    match subnetPortCR with
    | Some (name, uid) => if restoreMode then [newTag TagScopeSubnetPortCRName name; newTag TagScopeSubnetPortCRUID uid] else []
    | None => []
    end in
  id ← BuildIPAddressAllocationID (mkObject (m_Name (object_meta obj)) (default "" (head (filterTag tags TagScopeNamespaceUID))));
  name ← buildIPAddressAllocationName obj;
  let '(ips, size, prefix) := asked in
  Some (mkAllocation id (Some name) None None tags (Some ipAddressType) ips size prefix ipBlock
          (if bool_decide (ipAddressType = "IPV6") then None else Some (to_upper visibility)) usedFor None).
(** [None] for an allocation that is not made. *)
Definition BuildIPAddressAllocation (obj : alloc_object) (subnetPortCR : option (string * string)) (restoreMode : bool)
  : option (result goerr (option VpcIpAddressAllocation * list VPCResourceInfo)) :=
  match obj with
  | OAllocation o =>
      match getVPCInfoForCR o with
      | Err e => Some (Err e)
      | Ok [] => Some (Err (EText ("failed to find VPCInfo for IPAddressAllocation CR " +:+ m_Name (ac_meta o) +:+ " in Namespace " +:+ m_Namespace (ac_meta o))))
      | Ok (v :: vs) =>
          match buildIPBlockPath (ac_IPBlockName o) (OrgID v) with
          | Err e => Some (Err e)
          | Ok ipBlock =>
              a ← finish obj (convertIpAddressBlockVisibility (ac_IPAddressBlockVisibility o)) (ipAddressTypeToNSX (ac_IPAddressType o))
                    (requested o restoreMode) ipBlock (if isLBAllocation o then [UsedForFrontend] else []) (isLBAllocation o) subnetPortCR restoreMode;
              Some (Ok (Some a, v :: vs))
          end
      end
  | OBinding o =>
      if negb restoreMode || bool_decide (subnetPortCR = None) || negb (bool_decide (ab_IPAddressAllocationName o = ""))
      then Some (Ok (None, []))
      else
        let type := ConvertCRIPAddressTypeToNSX (if IsIPv6 (ab_Status_IPAddress o) then "IPv6" else "IPv4") in
        a ← finish obj "External" type (Some (ab_Status_IPAddress o), None, None) None [] false subnetPortCR restoreMode;
        Some (Ok (Some a, Alloc_VPCs (m_Namespace (ab_meta o)) w))
  end.
End Builder.

(** ** Comparing and storing *)
Definition compared_alloc (a : VpcIpAddressAllocation) : VpcIpAddressAllocation :=
  mkAllocation (ia_Id a) (ia_DisplayName a) None None (ia_Tags a) (ia_IpAddressType a) None (ia_AllocationSize a)
    (ia_Ipv6AllocationPrefixLength a) (ia_IpBlock a) (ia_IpAddressBlockVisibility a) (ia_UsedFor a) None.
(** The JSON encoder of the SDK, on a missing allocation too. *)
Class AllocEncoder := {
  encode_alloc : option VpcIpAddressAllocation -> string;
  encode_alloc_inj : forall a b, encode_alloc a = encode_alloc b -> a = b }.
#[global] Instance alloc_comparable `{AllocEncoder} : Comparable (option VpcIpAddressAllocation) := {
  Key a := from_option ia_Id "" a; Value a := encode_alloc (compared_alloc <$> a) }.
Definition indexByIPAddressAllocation (a : VpcIpAddressAllocation) : list string := filterTag (ia_Tags a) TagScopeIPAddressAllocationCRUID.
Definition indexByAddressBinding (a : VpcIpAddressAllocation) : list string := filterTag (ia_Tags a) TagScopeAddressBindingCRUID.
Definition indexBySubnetPort (a : VpcIpAddressAllocation) : list string := filterTag (ia_Tags a) TagScopeSubnetPortCRUID.
Definition allocIndexVPC (a : VpcIpAddressAllocation) : list string := option_list (ia_ParentPath a).
(** What [DeleteIPAddressAllocation] is called with. *)
Inductive alloc_ref := ByCR (o : IPAddressAllocation) | ByUID (uid : string) | ByKey (key : string) | ByValue (a : VpcIpAddressAllocation).

(** ** The service *)
Section Service.
Context {I W : Type} `{!Indexer I VpcIpAddressAllocation ia_Id} `{!AllocWorld W} `{!AllocEncoder}.
Context (cluster : string) (uuids : nat -> string) (fuel : nat).
Local Abbreviation AllocM := (Svc (I := I) (W := W)).
Definition IPAddressAllocationStore_Apply (a : VpcIpAddressAllocation) (st : I) : I :=
  if bool_decide (ia_MarkedForDelete a = Some true) then ix_Delete a st else ix_Add a st.
Definition GetByUID (uid : string) (st : I) : option VpcIpAddressAllocation :=
  head (ix_GetByIndex indexByIPAddressAllocation uid st ++ ix_GetByIndex indexByAddressBinding uid st ++ ix_GetByIndex indexBySubnetPort uid st).
Definition allocationIdExists (st : I) (id : string) : bool := bool_decide (is_Some (ix_GetByKey id st)).
Definition Allocs_GetByVPCPath (vpcPath : string) (st : I) : list VpcIpAddressAllocation := ix_GetByIndex allocIndexVPC vpcPath st.
Definition DeleteMultipleAllocations (l : list VpcIpAddressAllocation) (st : I) : I := foldl (fun st a => ix_Delete a st) st l.
Definition CleanupVPCAllocations (vpcPath : string) (st : I) : I := DeleteMultipleAllocations (Allocs_GetByVPCPath vpcPath st) st.
Definition build_alloc (obj : alloc_object) (subnetPortCR : option (string * string)) (restoreMode : bool)
  : AllocM (option VpcIpAddressAllocation * list VPCResourceInfo) :=
  let! s := mget in
  let! built := mtotal (BuildIPAddressAllocation (svc_world s) cluster (allocationIdExists (svc_store s)) uuids fuel obj subnetPortCR restoreMode) in
  mresult built.
(** An error of the first call is kept only when the second one fails, too. *)
Definition Apply (a : VpcIpAddressAllocation) (vpcInfo : list VPCResourceInfo) : AllocM unit :=
  match vpcInfo with
  | [] => mfail (ENoEffective "no valid org and project for ipaddressallocation")
  | v :: _ =>
      let! errPatch := mcatch (nsx_call (Alloc_Patch (OrgID v) (ProjectID v) (VPCID v) a)) in
      let! got := mcatch (nsx_result (Alloc_Get (OrgID v) (ProjectID v) (VPCID v) (ia_Id a))) in
      match got with
      | Err errGet =>
          match errPatch with
          | Err p => mfail (EText ("error get " +:+ Alloc_error_text errGet +:+ ", error patch " +:+ Alloc_error_text p))
          | Ok _ => mfail errGet
          end
      | Ok new =>
          if bool_decide (ia_AllocationIps new = None) then mfail (EText "cidr not realized yet")
          else on_store (IPAddressAllocationStore_Apply new)
      end
  end.
(** What is compared and sent: with the identity of the existing allocation, and
    with its addresses instead of a size when it was restored. *)
Definition with_existing (a existing : VpcIpAddressAllocation) : option VpcIpAddressAllocation :=
  let restored := negb (bool_decide (ia_AllocationIps existing = None)) && bool_decide (ia_AllocationSize existing = None) in
  name ← ia_DisplayName existing;
  Some (mkAllocation (ia_Id existing) (Some name) (ia_Path a) (ia_ParentPath a) (ia_Tags a) (ia_IpAddressType a)
    (if restored then ia_AllocationIps existing else ia_AllocationIps a)
    (if restored then None else ia_AllocationSize a)
    (if restored then None else ia_Ipv6AllocationPrefixLength a)
    (ia_IpBlock a) (ia_IpAddressBlockVisibility a) (ia_UsedFor a) (ia_MarkedForDelete a)).
Definition expected_alloc (a : VpcIpAddressAllocation) (existing : option VpcIpAddressAllocation) : option VpcIpAddressAllocation :=
  match existing with None => Some a | Some e => with_existing a e end.
(** The addresses in the status when these are allocated, and whether they change it. *)
Definition report (status ips : string) : bool * string := (negb (bool_decide (status = ips)), ips).
(** The answer and the addresses of the status of the CR. *)
Definition CreateOrUpdateIPAddressAllocation (obj : IPAddressAllocation) (restoreMode : bool) : AllocM (bool * string) :=
  let status := ac_Status_AllocationIPs obj in
  let uid := m_UID (ac_meta obj) in
  let! (built, vpcInfo) := build_alloc (OAllocation obj) None restoreMode in
  let! s := mget in
  let existing := GetByUID uid (svc_store s) in
  let! a := mtotal (built ≫= fun a => expected_alloc a existing) in
  if negb (CompareResource existing (Some a)) then
    let! e := mtotal existing in
    match ia_AllocationIps e with
    | Some ips => mret (report status ips)
    | None => mret (false, status)
    end
  else
    let! _ := Apply a vpcInfo in
    let! s := mget in
    match GetByUID uid (svc_store s) with
    | None => mfail (EText ("created ipaddressallocation not found in cache for " +:+ uid))
    | Some created =>
        match ia_AllocationIps created with
        | None => mfail (EText ("ipaddressallocation " +:+ uid +:+ " didn't realize available allocation_ips"))
        | Some ips =>
            if restoreMode then
              if bool_decide (status = ips) then mret (false, status)
              else mfail (EText ("IP mismatches for the restored IPAddressAllocation CR " +:+ uid +:+ ": got " +:+ ips +:+ ", expecting " +:+ status))
            else mret (report status ips)
        end
    end.
Definition GetIPAddressAllocationByOwner (uid : string) (st : I) : option VpcIpAddressAllocation := GetByUID uid st.
Definition CreateIPAddressAllocationForAddressBinding (addressBinding : option AddressBinding) (subnetPort : option (string * string))
    (restoreMode : bool) : AllocM unit :=
  if negb restoreMode then mret tt
  else match addressBinding with
  | None => mret tt
  | Some ab =>
      if bool_decide (ab_Status_IPAddress ab = "") then mret tt
      else
        let! s := mget in
        match GetIPAddressAllocationByOwner (m_UID (ab_meta ab)) (svc_store s) with
        | Some _ => mret tt
        | None =>
            let! (built, vpcInfo) := build_alloc (OBinding ab) subnetPort restoreMode in
            match built with None => mret tt | Some a => Apply a vpcInfo end
        end
  end.
Definition marked_alloc (a : VpcIpAddressAllocation) : VpcIpAddressAllocation :=
  mkAllocation (ia_Id a) (ia_DisplayName a) (ia_Path a) (ia_ParentPath a) (ia_Tags a) (ia_IpAddressType a) (ia_AllocationIps a)
    (ia_AllocationSize a) (ia_Ipv6AllocationPrefixLength a) (ia_IpBlock a) (ia_IpAddressBlockVisibility a) (ia_UsedFor a) (Some true).
Definition DeleteIPAddressAllocationByNSXResource (a : VpcIpAddressAllocation) : AllocM unit :=
  let! path := mtotal (ia_Path a) in
  match ParseVPCResourcePath path with
  | None => mfail (EText ("invalid path '" +:+ path +:+ "'"))
  | Some i =>
      let! _ := world_result (fun w => let '(e, w') := Alloc_Delete (OrgID i) (ProjectID i) (VPCID i) (ia_Id a) w in (error_result e, w')) in
      on_store (IPAddressAllocationStore_Apply (marked_alloc a))
  end.
Definition DeleteIPAddressAllocationForAddressBinding (uid : string) : AllocM unit :=
  let! s := mget in
  match GetIPAddressAllocationByOwner uid (svc_store s) with None => mret tt | Some a => DeleteIPAddressAllocationByNSXResource a end.
Definition referred (obj : alloc_ref) (st : I) : option VpcIpAddressAllocation :=
  match obj with
  | ByCR o => GetByUID (m_UID (ac_meta o)) st
  | ByUID uid => GetByUID uid st
  | ByKey key => ix_GetByKey key st
  | ByValue a => Some a
  end.
Definition DeleteIPAddressAllocation (obj : alloc_ref) : AllocM unit :=
  let! s := mget in
  match referred obj (svc_store s) with None => mret tt | Some a => DeleteIPAddressAllocationByNSXResource a end.
Definition has_tag (scope value : string) (a : VpcIpAddressAllocation) : bool := bool_decide (value ∈ filterTag (ia_Tags a) scope).
Definition DeleteIPAddressAllocationByNamespacedName (namespace name : string) : AllocM unit :=
  let! s := mget in
  mloop (fun _ a => if has_tag TagNamespaceScope namespace a && has_tag TagScopeIPAddressAllocationCRName name a
                    then DeleteIPAddressAllocation (ByValue a) else mret tt) tt (ix_List (svc_store s)).
Definition ListIPAddressAllocationID (st : I) : gset string := list_to_set (ix_List st ≫= indexByIPAddressAllocation).
Definition ListIPAddressAllocationWithAddressBinding (st : I) : list VpcIpAddressAllocation :=
  filter (fun a => FindTag (ia_Tags a) TagScopeIPAddressAllocationCRUID = Some "" /\ FindTag (ia_Tags a) TagScopeAddressBindingCRUID <> Some "") (ix_List st).
Definition ListSubnetPortCRUIDFromNSXIPAddressAllocation (st : I) : gset string := list_to_set (ix_List st ≫= indexBySubnetPort).
Definition ListIPAddressAllocationKeys (st : I) : list string := map ia_Id (ix_List st).
Definition GetIPAddressAllocationNamespace (a : VpcIpAddressAllocation) : string := default "" (head (filterTag (ia_Tags a) TagNamespaceScope)).
Definition GetIPAddressAllocationUID (a : VpcIpAddressAllocation) : string :=
  default "" (head (filterTag (ia_Tags a) TagScopeIPAddressAllocationCRUID)).
End Service.

(** ** Facts *)
Section Facts.
Context {I W : Type} `{!Indexer I VpcIpAddressAllocation ia_Id} `{!AllocWorld W} `{!AllocEncoder}.
Context (cluster : string) (uuids : nat -> string) (fuel : nat).
Local Abbreviation state := (service_state I W).
Local Abbreviation reconcile := (CreateOrUpdateIPAddressAllocation (I := I) (W := W) cluster uuids fuel).
Lemma compare_alloc (a b : option VpcIpAddressAllocation) : CompareResource a b = false <-> compared_alloc <$> a = compared_alloc <$> b.
Proof.
  unfold CompareResource. rewrite negb_false_iff, bool_decide_eq_true. cbn. split; [apply encode_alloc_inj|]. by intros ->.
Qed.
(** The allocation that a reconcile compares and sends. *)
Definition sent (obj : IPAddressAllocation) (restoreMode : bool) (s : state) (a : VpcIpAddressAllocation) (vpcInfo : list VPCResourceInfo) : Prop :=
  exists built, BuildIPAddressAllocation (svc_world s) cluster (allocationIdExists (svc_store s)) uuids fuel (OAllocation obj) None restoreMode =
    Some (Ok (Some built, vpcInfo)) /\ expected_alloc built (GetByUID (m_UID (ac_meta obj)) (svc_store s)) = Some a.
(** The two ways a reconcile succeeds. *)
Lemma reconcile_Ok obj m (s s' : state) r : reconcile obj m s = Some (Ok r, s') ->
  let uid := m_UID (ac_meta obj) in let status := ac_Status_AllocationIPs obj in
  exists a vpcInfo, sent obj m s a vpcInfo /\
    ((exists e, GetByUID uid (svc_store s) = Some e /\ compared_alloc e = compared_alloc a /\ s' = s /\
        r = match ia_AllocationIps e with Some ips => report status ips | None => (false, status) end) \/
     (exists s1 e ips, CompareResource (GetByUID uid (svc_store s)) (Some a) = true /\ Apply a vpcInfo s = Some (Ok tt, s') /\ s1 = s' /\
        GetByUID uid (svc_store s') = Some e /\ ia_AllocationIps e = Some ips /\ r = report status ips)).
Proof.
  unfold CreateOrUpdateIPAddressAllocation, build_alloc. cbv zeta.
  intros ([b vpcInfo] & s1 & Hb & Hk)%bindM_Ok.
  apply bindM_Ok in Hb as (s0 & s0' & [= <- <-] & Hb). apply bindM_Ok in Hb as (built & s2 & Hb & Hr).
  unfold mtotal in Hb. destruct (BuildIPAddressAllocation _ _ _ _ _ _ _ _) as [built'|] eqn:Eb; [|done]. injection Hb as -> <-.
  injection Hr as -> <-. apply bindM_Ok in Hk as (s0 & s0' & [= <- <-] & Hk). apply bindM_Ok in Hk as (a & s2 & Ha & Hk).
  unfold mtotal in Ha. destruct (b ≫= _) as [a'|] eqn:Ea; [|done]. injection Ha as -> <-.
  apply bind_Some in Ea as (built & -> & Ea). exists a, vpcInfo. split; [by exists built|].
  destruct (CompareResource _ _) eqn:Ec; cbn in Hk.
  - right. apply bindM_Ok in Hk as ([] & s1 & Happ & Hk). apply bindM_Ok in Hk as (s3 & s3' & [= <- <-] & Hk).
    destruct (GetByUID _ (svc_store s1)) as [e|] eqn:Ee; [|done]. destruct (ia_AllocationIps e) as [ips|] eqn:Ei; [|done].
    assert (s' = s1 /\ r = report (ac_Status_AllocationIPs obj) ips) as [-> ->].
    { destruct m; [|by injection Hk as <- <-]. unfold report. case_bool_decide as Hs; [|done]. injection Hk as <- <-. by rewrite Hs. }
    by exists s1, e, ips.
  - left. apply compare_alloc in Ec. unfold mtotal in Hk. destruct (GetByUID _ (svc_store s)) as [e|]; [|done].
    exists e. cbn in Ec. injection Ec as Ec. do 2 (split; [by unfold compared_alloc; congruence|]). apply bindM_Ok in Hk as (e' & s2 & [= <- <-] & Hk).
    destruct (ia_AllocationIps e); by injection Hk as <- <-.
Qed.
(** A successful reconcile ends with an allocation of the CR in the store. The
    status it leaves in the CR is the addresses of this allocation, and it reports
    a change exactly when the status was another one; an allocation of the store
    without addresses leaves the status. *)
Theorem CreateOrUpdateIPAddressAllocation_status obj m (s s' : state) changed status :
  reconcile obj m s = Some (Ok (changed, status), s') ->
  exists e, GetByUID (m_UID (ac_meta obj)) (svc_store s') = Some e /\
    match ia_AllocationIps e with
    | Some ips => status = ips /\ (changed = true <-> ac_Status_AllocationIPs obj <> ips)
    | None => status = ac_Status_AllocationIPs obj /\ changed = false
    end.
Proof.
  assert (Hrep : forall ips, (changed, status) = report (ac_Status_AllocationIPs obj) ips ->
    status = ips /\ (changed = true <-> ac_Status_AllocationIPs obj <> ips)).
  { intros ips [= -> ->]. split; [done|]. by rewrite negb_true_iff, bool_decide_eq_false. }
  intros Hrun. apply reconcile_Ok in Hrun as (a & v & _ & [(e & He & _ & -> & Hr)|(s1 & e & ips & _ & _ & _ & He & Hi & Hr)]);
    exists e; (split; [exact He|]).
  - destruct (ia_AllocationIps e) as [ips|]; [by apply Hrep|]. by injection Hr as -> ->.
  - rewrite Hi. by apply Hrep.
Qed.

(** ** Reconciling again *)
(** The UIDs that own an allocation: of a CR, of an AddressBinding or of a SubnetPort. *)
Definition owners (a : VpcIpAddressAllocation) : list string :=
  indexByIPAddressAllocation a ++ indexByAddressBinding a ++ indexBySubnetPort a.
Lemma GetByUID_finder : finder (I := I) owners GetByUID.
Proof.
  intros uid st. unfold GetByUID.
  assert (Hin : forall a, a ∈ ix_GetByIndex indexByIPAddressAllocation uid st ++ ix_GetByIndex indexByAddressBinding uid st ++
      ix_GetByIndex indexBySubnetPort uid st <-> a ∈ ix_List st /\ uid ∈ owners a).
  { intros a. unfold owners. rewrite !elem_of_app, !elem_of_GetByIndex, ix_list_get. tauto. }
  destruct (_ ++ _) as [|x l]; [|apply Hin, list_elem_of_here].
  intros a Ha Hu. by apply (not_elem_of_nil a), Hin.
Qed.
(** NSX returns what it accepted, in the fields that are compared. *)
Definition returns_sent : Prop := forall org project vpc a w w' got w2,
  Alloc_Patch org project vpc a w = (None, w') -> Alloc_Get org project vpc (ia_Id a) w' = (Ok got, w2) ->
  compared_alloc got = compared_alloc a /\ ia_MarkedForDelete got = None.
(** NSX refuses an allocation. *)
Definition refused (a : VpcIpAddressAllocation) (vpcInfo : list VPCResourceInfo) (w : W) : Prop :=
  exists v vs e w', vpcInfo = v :: vs /\ Alloc_Patch (OrgID v) (ProjectID v) (VPCID v) a w = (Some e, w').
Lemma Apply_Ok a vpcInfo (s s' : state) : returns_sent -> Apply a vpcInfo s = Some (Ok tt, s') ->
  refused a vpcInfo (svc_world s) \/
  exists got, svc_store s' = ix_Add got (svc_store s) /\ compared_alloc got = compared_alloc a /\ is_Some (ia_AllocationIps got).
Proof.
  intros Hret. unfold Apply. destruct vpcInfo as [|v vs]; [discriminate|].
  intros (p & s1 & (p' & [= ->] & Hp)%mcatch_Some & Hk)%bindM_Ok.
  apply bindM_Ok in Hk as (g & s2 & (g' & [= ->] & Hg)%mcatch_Some & Hk).
  pose proof (stable_nsx_call _ _ _ _ Hp) as Hs1. pose proof (stable_nsx_result _ _ _ _ Hg) as Hs2.
  unfold nsx_call, world_result in Hp. destruct (Alloc_Patch _ _ _ _ _) as [e w1] eqn:Ep. injection Hp as Hp <-.
  unfold nsx_result, world_result in Hg. cbn in Hg. destruct (Alloc_Get _ _ _ _ _) as [got w2] eqn:Eg. injection Hg as <- <-.
  destruct e as [e|]; [left; by exists v, vs, e, w1|]. right.
  destruct got as [got|]; cbn in Hk; [|by destruct p']. destruct (Hret _ _ _ _ _ _ _ _ Ep Eg) as [Hc Hm].
  case_bool_decide as Hi; [done|]. injection Hk as <-. exists got. cbn. unfold IPAddressAllocationStore_Apply. rewrite Hm.
  split; [done|]. split; [done|]. destruct (ia_AllocationIps got); [by eexists|done].
Qed.
(** The service of VPCs and the Namespace answer the same in two worlds. *)
Definition same_namespace (ns : string) (w w' : W) : Prop :=
  Alloc_VPCs ns w' = Alloc_VPCs ns w /\ Alloc_LoadBalancerVPC ns w' = Alloc_LoadBalancerVPC ns w /\
  Alloc_NamespaceUID ns w' = Alloc_NamespaceUID ns w.
(** What a build takes from the specification and the Namespace alone. *)
Definition core (a : VpcIpAddressAllocation) :=
  (ia_Tags a, ia_IpAddressType a, ia_IpBlock a, ia_IpAddressBlockVisibility a, ia_UsedFor a).
Definition amount (a : VpcIpAddressAllocation) := (ia_AllocationIps a, ia_AllocationSize a, ia_Ipv6AllocationPrefixLength a).
Lemma built_owners w obj (lb : bool) : let tags := buildIPAddressAllocationTags w cluster (OAllocation obj) ++ (if lb then [newTag TagScopeIPAllocLB "true"] else []) ++ [] in
  filterTag tags TagScopeIPAddressAllocationCRUID ++ filterTag tags TagScopeAddressBindingCRUID ++ filterTag tags TagScopeSubnetPortCRUID =
  [m_UID (ac_meta obj)].
Proof.
  unfold filterTag, buildIPAddressAllocationTags, BuildBasicTags. destruct (bool_decide _), lb; vm_compute; reflexivity.
Qed.
Lemma finish_shape w ex obj visibility type asked block used lb m b :
  finish w cluster ex uuids fuel obj visibility type asked block used lb None m = Some b ->
  amount b = asked /\ is_Some (ia_DisplayName b) /\
  core b = (buildIPAddressAllocationTags w cluster obj ++ (if lb then [newTag TagScopeIPAllocLB "true"] else []) ++ [],
    Some type, block, (if bool_decide (type = "IPV6") then None else Some (to_upper visibility)), used).
Proof.
  unfold finish. intros (id & _ & (name & _ & Ha)%bind_Some)%bind_Some. destruct asked as [[ips size] prefix]. injection Ha as <-.
  split; [done|]. split; [by eexists|]. reflexivity.
Qed.
Lemma build_shape w ex obj m b v :
  BuildIPAddressAllocation w cluster ex uuids fuel (OAllocation obj) None m = Some (Ok (Some b, v)) ->
  amount b = requested obj m /\ is_Some (ia_DisplayName b) /\ owners b = [m_UID (ac_meta obj)] /\
  exists v0 vs, getVPCInfoForCR w obj = Ok (v0 :: vs) /\ v = v0 :: vs /\ exists block, buildIPBlockPath (ac_IPBlockName obj) (OrgID v0) = Ok block /\
    core b = (buildIPAddressAllocationTags w cluster (OAllocation obj) ++ (if isLBAllocation obj then [newTag TagScopeIPAllocLB "true"] else []) ++ [],
      Some (ipAddressTypeToNSX (ac_IPAddressType obj)), block,
      (if bool_decide (ipAddressTypeToNSX (ac_IPAddressType obj) = "IPV6") then None
       else Some (to_upper (convertIpAddressBlockVisibility (ac_IPAddressBlockVisibility obj)))),
      if isLBAllocation obj then [UsedForFrontend] else []).
Proof.
  cbn [BuildIPAddressAllocation]. destruct (getVPCInfoForCR w obj) as [[|v0 vs]|]; [done| |done].
  destruct (buildIPBlockPath _ _) as [block|] eqn:Eblk; [|done]. intros (a & Ha & [= -> <-])%bind_Some.
  apply finish_shape in Ha as (Ham & Hn & Hc). split; [exact Ham|]. split; [exact Hn|]. split.
  - injection Hc as Ht _. unfold owners, indexByIPAddressAllocation, indexByAddressBinding, indexBySubnetPort. rewrite Ht. apply built_owners.
  - exists v0, vs. split; [done|]. split; [done|]. exists block. split; [done|exact Hc].
Qed.
Lemma build_again w w' ex ex' obj obj' m m' b v b' v' : same_namespace (m_Namespace (ac_meta obj)) w w' ->
  obj' = (mkAllocationCR (ac_meta obj) (ac_IPAddressBlockVisibility obj) (ac_AllocationSize obj) (ac_AllocationIPs obj)
    (ac_IPv6AllocationPrefixLength obj) (ac_IPAddressType obj) (ac_UsedFor obj) (ac_IPBlockName obj) (ac_Status_AllocationIPs obj')) ->
  BuildIPAddressAllocation w cluster ex uuids fuel (OAllocation obj) None m = Some (Ok (Some b, v)) ->
  BuildIPAddressAllocation w' cluster ex' uuids fuel (OAllocation obj') None m' = Some (Ok (Some b', v')) -> core b' = core b.
Proof.
  intros (Hv & Hl & Hu) Ho (_ & _ & _ & v0 & vs & Hi & _ & block & Hblock & ->)%build_shape (_ & _ & _ & v1 & vs' & Hi' & _ & block' & Hblock' & ->)%build_shape.
  rewrite Ho in *. unfold getVPCInfoForCR, getVPCInfo, isLBAllocation, buildIPAddressAllocationTags, object_meta in *. cbn in *.
  rewrite Hv, Hl, Hi in Hi'. injection Hi' as <- <-. rewrite Hblock in Hblock'. injection Hblock' as <-. by rewrite Hu.
Qed.
(** The CR with other addresses in its status. *)
Definition with_status (obj : IPAddressAllocation) (status : string) : IPAddressAllocation :=
  mkAllocationCR (ac_meta obj) (ac_IPAddressBlockVisibility obj) (ac_AllocationSize obj) (ac_AllocationIPs obj)
    (ac_IPv6AllocationPrefixLength obj) (ac_IPAddressType obj) (ac_UsedFor obj) (ac_IPBlockName obj) status.
(** Every allocation of the store has addresses. *)
Definition with_ips (st : I) : Prop := forall a, a ∈ ix_List st -> is_Some (ia_AllocationIps a).
Lemma compared_core a b : compared_alloc a = compared_alloc b <->
  ia_Id a = ia_Id b /\ ia_DisplayName a = ia_DisplayName b /\ core a = core b /\ (amount a).1.2 = (amount b).1.2 /\ (amount a).2 = (amount b).2.
Proof. destruct a, b. unfold compared_alloc, core, amount. cbn. split; [intros [=]; subst; done|]. intros (-> & -> & [=] & -> & ->). by subst. Qed.
(** What was compared equal stays so without restoration, unless a length of a
    prefix was asked for. *)
Lemma same_again (s s2 : state) obj obj' m b v b' v' e a : same_namespace (m_Namespace (ac_meta obj)) (svc_world s) (svc_world s2) ->
  obj' = with_status obj (ac_Status_AllocationIPs obj') ->
  BuildIPAddressAllocation (svc_world s) cluster (allocationIdExists (svc_store s)) uuids fuel (OAllocation obj) None m = Some (Ok (Some b, v)) ->
  expected_alloc b (GetByUID (m_UID (ac_meta obj)) (svc_store s)) = Some a ->
  BuildIPAddressAllocation (svc_world s2) cluster (allocationIdExists (svc_store s2)) uuids fuel (OAllocation obj') None false = Some (Ok (Some b', v')) ->
  (requested obj m).2 = None -> is_Some (ia_AllocationIps e) -> compared_alloc e = compared_alloc a ->
  exists a', with_existing b' e = Some a' /\ compared_alloc a' = compared_alloc e.
Proof.
  intros Hns Ho Hb Ha Hb' Hp [ips Hips] (Hid & Hn & Hc & Hsize & Hpre)%compared_core.
  pose proof (build_again _ _ _ _ _ _ _ _ _ _ _ _ Hns Ho Hb Hb') as Hcc.
  apply build_shape in Hb as (Hbam & [bn Hbn] & _ & _). apply build_shape in Hb' as (Hbam' & _ & _ & _).
  assert (core a = core b /\ is_Some (ia_DisplayName a) /\ (amount a).2 = None /\
    ((amount a).1.2 = (amount b).1.2 \/ (amount a).1.2 = None)) as (Hca & [an Han] & Hap & Has).
  { rewrite <- Hbam in Hp. destruct (GetByUID _ _) as [x|]; cbn in Ha.
    - unfold with_existing in Ha. apply bind_Some in Ha as (name & _ & Ha). injection Ha as <-. unfold core, amount in *. cbn in *.
      split; [done|]. split; [by eexists|]. destruct (_ && _); auto.
    - injection Ha as <-. split; [done|]. split; [by eexists|]. auto. }
  rewrite Han in Hn. unfold with_existing. rewrite Hn, Hips. cbn [mbind option_bind]. eexists. split; [reflexivity|].
  apply compared_core. unfold core, amount in *. cbn in *. split; [done|]. split; [done|].
  split; [by rewrite Hc, Hca, <- Hcc|]. rewrite Hpre, Hap.
  destruct (ia_AllocationSize e) as [n|] eqn:En; [|done]. cbn.
  assert (Hb3 : (requested obj m).1.2 = Some n).
  { rewrite <- Hbam. cbn. rewrite <- Hsize in Has. destruct Has as [<-|[=]]. done. }
  assert (Hr : (requested obj' false) = (requested obj m)).
  { rewrite Ho. unfold requested in *. cbn. destruct (negb _); [done|]. cbn in *. destruct (_ && _); [done|]. destruct (bool_decide _); done. }
  rewrite Hr, <- Hbam in Hbam'. injection Hbam' as _ Hsz Hpr. rewrite <- Hbam in Hb3, Hp. cbn in *. by rewrite Hsz, Hpr, Hb3, Hp.
Qed.
Lemma build_succeeds w w' ex ex' obj status m b v : same_namespace (m_Namespace (ac_meta obj)) w w' ->
  BuildIPAddressAllocation w cluster ex uuids fuel (OAllocation obj) None m = Some (Ok (Some b, v)) ->
  is_Some (BuildIPAddressAllocation w' cluster ex' uuids fuel (OAllocation (with_status obj status)) None false) ->
  exists b' v', BuildIPAddressAllocation w' cluster ex' uuids fuel (OAllocation (with_status obj status)) None false = Some (Ok (Some b', v')).
Proof.
  intros (Hv & Hl & _) (_ & _ & _ & v0 & vs & Hi & _ & block & Hblock & _)%build_shape [x Hx].
  cbn [BuildIPAddressAllocation] in Hx |- *.
  assert (Hi' : getVPCInfoForCR w' (with_status obj status) = Ok (v0 :: vs)).
  { rewrite <- Hi. unfold getVPCInfoForCR, getVPCInfo. cbn. by rewrite Hv, Hl. }
  rewrite Hi' in Hx |- *. cbn [ac_IPBlockName with_status] in Hx |- *. rewrite Hblock in Hx |- *.
  apply bind_Some in Hx as (a & -> & _). by exists a, (v0 :: vs).
Qed.
Lemma sent_identity obj m (s : state) a vpcInfo : sent obj m s a vpcInfo -> owners a = [m_UID (ac_meta obj)] /\
  from_option (fun b => ia_Id a = ia_Id b) True (GetByUID (m_UID (ac_meta obj)) (svc_store s)).
Proof.
  intros (b & (_ & _ & Hb & _)%build_shape & Ha). destruct (GetByUID _ _) as [x|]; cbn in Ha.
  - unfold with_existing in Ha. apply bind_Some in Ha as (name & _ & Ha). injection Ha as <-. done.
  - by injection Ha as <-.
Qed.
(** C28. When NSX returns what it accepted, a successful reconcile of a CR that asks
    for no prefix length, with or without restoration, is final: the next ordinary
    reconcile sends nothing, and puts the addresses that the first one found in the
    status. The exception is an allocation that NSX refused and still returned: its
    error is dropped and the reconcile succeeds. *)
Theorem CreateOrUpdateIPAddressAllocation_settles obj m (s s1 : state) r :
  returns_sent -> owned_once owners (svc_store s) -> with_ips (svc_store s) -> (requested obj m).2 = None ->
  reconcile obj m s = Some (Ok r, s1) ->
  (exists a vpcInfo, sent obj m s a vpcInfo /\ refused a vpcInfo (svc_world s)) \/
  (owned_once owners (svc_store s1) /\ with_ips (svc_store s1) /\
   forall status (s2 : state), let obj' := with_status obj status in
     svc_store s2 = svc_store s1 -> same_namespace (m_Namespace (ac_meta obj)) (svc_world s) (svc_world s2) ->
     is_Some (BuildIPAddressAllocation (svc_world s2) cluster (allocationIdExists (svc_store s2)) uuids fuel (OAllocation obj') None false) ->
     reconcile obj' false s2 = Some (Ok (report status r.2), s2)).
Proof.
  intros Hret Hone Hips Hreq Hrun. apply reconcile_Ok in Hrun as (a & vpcInfo & Hsent & Hrun).
  assert (Hsettled : refused a vpcInfo (svc_world s) \/
    exists e ips, owned_once owners (svc_store s1) /\ with_ips (svc_store s1) /\ GetByUID (m_UID (ac_meta obj)) (svc_store s1) = Some e /\
      compared_alloc e = compared_alloc a /\ ia_AllocationIps e = Some ips /\ r.2 = ips).
  { destruct Hrun as [(e & He & Hc & -> & ->)|(s1' & e & ips & _ & Happ & _ & He & Hi & ->)].
    - pose proof (GetByUID_finder (m_UID (ac_meta obj)) (svc_store s)) as Hf. rewrite He in Hf. destruct (Hips e (proj1 Hf)) as [ips Hi].
      right. exists e, ips. by rewrite Hi.
    - apply Apply_Ok in Happ as [Href|(got & Hst & Hc & Hgi)]; [by left| |done]. right. exists e, ips.
      destruct (sent_identity _ _ _ _ _ Hsent) as [Hown Hid].
      assert (Hgo : owners got = [m_UID (ac_meta obj)]).
      { rewrite <- Hown. apply compared_core in Hc as (_ & _ & Hc & _). injection Hc as Ht _.
        unfold owners, indexByIPAddressAllocation, indexByAddressBinding, indexBySubnetPort. by rewrite Ht. }
      assert (Hgid : ia_Id got = ia_Id a) by (by apply compared_core in Hc as [-> _]). rewrite <- Hgid in Hid.
      destruct (owned_once_replace _ _ _ _ _ GetByUID_finder Hone Hgo Hid) as [Hone' Hfind]. rewrite Hst in He |- *.
      rewrite Hfind in He. injection He as <-. split_and!; try done.
      intros x [->|[_ Hx]]%elem_of_List_add; [done|by apply Hips]. }
  destruct Hsettled as [Href|(e & ips & Hone1 & Hips1 & He & Hc & Hi & Hr)]; [left; by exists a, vpcInfo|right].
  split; [exact Hone1|]. split; [exact Hips1|]. intros status s2 obj' Hst Hns Hbuilt. subst obj'.
  destruct Hsent as (b & Hb & Ha). destruct (build_succeeds _ _ _ _ _ _ _ _ _ Hns Hb Hbuilt) as (b' & v' & Hb').
  destruct (same_again s s2 obj (with_status obj status) m b vpcInfo b' v' e a Hns eq_refl Hb Ha Hb' Hreq (ex_intro _ ips Hi) Hc) as (a' & Ha' & Hca).
  unfold CreateOrUpdateIPAddressAllocation, build_alloc, bindM, mget, mtotal, mresult, mret. rewrite Hb'.
  cbn [mbind option_bind]. change (m_UID (ac_meta (with_status obj status))) with (m_UID (ac_meta obj)). rewrite Hst, He. cbn [expected_alloc]. rewrite Ha'.
  assert (Hcmp : CompareResource (Some e) (Some a') = false) by (apply compare_alloc; cbn; by rewrite Hca).
  rewrite Hcmp. cbn [negb]. by rewrite Hi, Hr.
Qed.
End Facts.

(** ** A concrete world: NSX keeps the allocations it is sent and gives them an
    address. *)
Module AllocDemo.
#[global] Program Instance demo_alloc_encoder : AllocEncoder := {
  encode_alloc o := match o with
    | None => ""
    | Some a => String "x" (field_text [encode (ia_Id a); encode (ia_DisplayName a); encode (ia_Path a); encode (ia_ParentPath a); encode (ia_Tags a);
        encode (ia_IpAddressType a); encode (ia_AllocationIps a); encode (ia_AllocationSize a); encode (ia_Ipv6AllocationPrefixLength a);
        encode (ia_IpBlock a); encode (ia_IpAddressBlockVisibility a); encode (ia_UsedFor a); encode (ia_MarkedForDelete a)])
    end }.
Next Obligation. intros [[]|] [[]|] Hv; [|done..]. injection Hv as Hv%(inj field_text). cbn in Hv. by simplify_eq. Qed.
(** The allocations of NSX, and how many requests it got. *)
Definition nsx_allocs : Type := gmap string VpcIpAddressAllocation * nat.
Definition allocated (a : VpcIpAddressAllocation) : VpcIpAddressAllocation :=
  mkAllocation (ia_Id a) (ia_DisplayName a) (Some ("/orgs/o/projects/p/vpcs/v/ip-address-allocations/" +:+ ia_Id a)) (Some "/orgs/o/projects/p/vpcs/v") (ia_Tags a)
    (ia_IpAddressType a) (Some (default "10.0.0.5" (ia_AllocationIps a))) (ia_AllocationSize a) (ia_Ipv6AllocationPrefixLength a) (ia_IpBlock a)
    (ia_IpAddressBlockVisibility a) (ia_UsedFor a) None.
#[global] Instance demo_alloc_world : AllocWorld nsx_allocs := {|
  Alloc_Patch _ _ _ a w := (None, (<[ia_Id a := a]> w.1, S w.2));
  Alloc_Get _ _ _ id w := (match w.1 !! id with Some a => Ok (allocated a) | None => Err (EText "not found") end, w);
  Alloc_Delete _ _ _ id w := (None, (delete id w.1, w.2));
  Alloc_LoadBalancerVPC _ _ := Ok (Some "/orgs/o/projects/p/vpcs/lb");
  Alloc_VPCs _ _ := [mkVPCInfo "o" "p" "v" "v" "p"];
  Alloc_NamespaceUID ns _ := "uid-" +:+ ns;
  Alloc_error_text _ := "error";
  UsedForFrontend := "FRONTEND" |}.
Definition AS : Type := map_store VpcIpAddressAllocation ia_Id.
Definition alloc_state : service_state AS nsx_allocs := mkService ix_empty (∅, 0%nat).
Definition demo_alloc (type status : string) : IPAddressAllocation :=
  mkAllocationCR (mkMeta "a" "ns" "cr-1" ∅ ∅) "" 1 "" 0 type "" ":blk" status.
Definition demo_reconcile (cr : IPAddressAllocation) (m : bool) (s : service_state AS nsx_allocs) :=
  CreateOrUpdateIPAddressAllocation "c" (fun _ => "u") 5 cr m s.
Definition alloc_after (r : option (result goerr (bool * string) * service_state AS nsx_allocs)) := from_option snd alloc_state r.
(** A restoration of the address of the status. *)
Definition restored_state := alloc_after (demo_reconcile (demo_alloc "IPv4" "10.0.0.9") true alloc_state).
Lemma demo_restored_ok : demo_reconcile (demo_alloc "IPv4" "10.0.0.9") true alloc_state = Some (Ok (false, "10.0.0.9"), restored_state).
Proof. vm_compute. reflexivity. Qed.
Lemma demo_returns_sent : returns_sent (W := nsx_allocs).
Proof. intros o p v a w w' got w2. cbn. intros [= <-]. cbn. rewrite lookup_insert_eq. by intros [= <- <-]. Qed.
Lemma demo_owned : owned_once owners (svc_store alloc_state).
Proof. intros a b uid Ha. by apply ix_list_get in Ha. Qed.
Lemma demo_with_ips : with_ips (svc_store alloc_state).
Proof. intros a Ha. by apply ix_list_get in Ha. Qed.
(** The exception of [CreateOrUpdateIPAddressAllocation_settles]: for an IPv6
    allocation that was asked for by the length of its prefix, the length is dropped
    from what is compared, as for restored allocations, because there is no size;
    every reconcile of an unchanged CR sends the allocation again. *)
Definition ipv6_state := alloc_after (demo_reconcile (demo_alloc "IPv6" "") false alloc_state).
Definition ipv6_again := alloc_after (demo_reconcile (demo_alloc "IPv6" "10.0.0.5") false ipv6_state).
Lemma ipv6_resent : demo_reconcile (demo_alloc "IPv6" "") false alloc_state = Some (Ok (true, "10.0.0.5"), ipv6_state) /\
  demo_reconcile (demo_alloc "IPv6" "10.0.0.5") false ipv6_state = Some (Ok (false, "10.0.0.5"), ipv6_again) /\
  (svc_world ipv6_state).2 = 1%nat /\ (svc_world ipv6_again).2 = 2%nat.
Proof. split_and!; vm_compute; reflexivity. Qed.
End AllocDemo.
Import AllocDemo.
Lemma CreateOrUpdateIPAddressAllocation_status_witness :
  demo_reconcile (demo_alloc "IPv4" "10.0.0.9") true alloc_state = Some (Ok (false, "10.0.0.9"), restored_state) /\
  exists e, GetByUID "cr-1" (svc_store restored_state) = Some e /\
    match ia_AllocationIps e with
    | Some ips => "10.0.0.9" = ips /\ (false = true <-> "10.0.0.9" <> ips)
    | None => "10.0.0.9" = "10.0.0.9" /\ false = false
    end.
Proof.
  split; [exact demo_restored_ok|].
  exact (CreateOrUpdateIPAddressAllocation_status "c" (fun _ => "u") 5 (demo_alloc "IPv4" "10.0.0.9") true alloc_state restored_state false "10.0.0.9" demo_restored_ok).
Defined.
Lemma CreateOrUpdateIPAddressAllocation_settles_witness :
  (exists a vpcInfo, sent "c" (fun _ => "u") 5 (demo_alloc "IPv4" "10.0.0.9") true alloc_state a vpcInfo /\ refused a vpcInfo (svc_world alloc_state)) \/
  (owned_once owners (svc_store restored_state) /\ with_ips (svc_store restored_state) /\
   forall status (s2 : service_state AS nsx_allocs), let obj' := with_status (demo_alloc "IPv4" "10.0.0.9") status in
     svc_store s2 = svc_store restored_state -> same_namespace "ns" (svc_world alloc_state) (svc_world s2) ->
     is_Some (BuildIPAddressAllocation (svc_world s2) "c" (allocationIdExists (svc_store s2)) (fun _ => "u") 5 (OAllocation obj') None false) ->
     demo_reconcile obj' false s2 = Some (Ok (report status "10.0.0.9"), s2)).
Proof.
  refine (CreateOrUpdateIPAddressAllocation_settles "c" (fun _ => "u") 5 (demo_alloc "IPv4" "10.0.0.9") true alloc_state restored_state (false, "10.0.0.9")
    demo_returns_sent demo_owned demo_with_ips eq_refl _).
  rewrite <- demo_restored_ok. reflexivity.
Defined.
