(* ===== verification/IPReservation.v ===== *)
(** * pkg/nsx/services/subnetipreservation: IP addresses reserved in Subnets

    builder.go, compare.go, store.go and subnetipreservation.go. A CR asks for
    given addresses, kept as a static reservation of NSX, or for a number of
    addresses, kept as a dynamic one; restoration makes static reservations of
    both. *)
From S2P Require Import Prelude GoStrings Errors NsxUtil Names Interfaces GoMonad Compare Service Subnet.

Record StaticIpAddressReservation := mkStaticReservation {
  sres_Id : string; sres_DisplayName : option string; sres_Path : option string; sres_Tags : list Tag; sres_ReservedIps : list string;
  sres_MarkedForDelete : option bool }.
Record DynamicIpAddressReservation := mkDynamicReservation {
  dres_Id : string; dres_DisplayName : option string; dres_Path : option string; dres_Tags : list Tag; dres_NumberOfIps : option Z;
  dres_IpAddressType : option string; dres_Ips : list string; dres_MarkedForDelete : option bool }.
Record SubnetIPReservation := mkReservationCR {
  rc_meta : meta; rc_NumberOfIPs : Z; rc_ReservedIPs : list string; rc_IPAddressType : string; rc_Status_IPs : list string }.
(** The JSON encoder of the SDK. *)
Class ReservationEncoder := {
  encode_reservation : StaticIpAddressReservation -> string;
  encode_reservation_inj : forall a b, encode_reservation a = encode_reservation b -> a = b }.
Definition compared_reservation (r : StaticIpAddressReservation) : StaticIpAddressReservation :=
  mkStaticReservation (sres_Id r) (sres_DisplayName r) None (sres_Tags r) (sres_ReservedIps r) None.
#[global] Instance reservation_comparable `{ReservationEncoder} : Comparable StaticIpAddressReservation := {
  Key := sres_Id; Value r := encode_reservation (compared_reservation r) }.

(** ** Stores *)
Definition TagScopeSubnetIPReservationCRUID := "nsx-op/subnetipreservation_uid".
Definition TagScopeSubnetIPReservationCRName := "nsx-op/subnetipreservation_name".
Definition ipReservationCRUIDIndexFunc (tags : list Tag) : list string := option_list (head (filterTag tags TagScopeSubnetIPReservationCRUID)).
Definition NamespacedName (ns name : string) : string := ns +:+ "/" +:+ name.
Definition ipReservationCRNameIndexFunc (tags : list Tag) : list string :=
  let crName := default "" (last (filterTag tags TagScopeSubnetIPReservationCRName)) in
  let crNamespace := default "" (last (filterTag tags TagNamespaceScope)) in
  if negb (bool_decide (crName = "")) && negb (bool_decide (crNamespace = "")) then [NamespacedName crNamespace crName] else [].
Record reservation_stores (ID IS : Type) := mkReservations { DynamicIPReservationStore : ID; StaticIPReservationStore : IS }.
Arguments mkReservations {ID IS} _ _.
Arguments DynamicIPReservationStore {ID IS} _.
Arguments StaticIPReservationStore {ID IS} _.
(** NSX, and the service of ports that counts the addresses of Subnets. *)
Class ReservationWorld (W : Type) := {
  Static_Patch : VPCResourceInfo -> StaticIpAddressReservation -> W -> option goerr * W;
  Static_Get : VPCResourceInfo -> string -> W -> result goerr StaticIpAddressReservation * W;
  Static_Delete : VPCResourceInfo -> string -> W -> option goerr * W;
  Dynamic_Patch : VPCResourceInfo -> DynamicIpAddressReservation -> W -> option goerr * W;
  Dynamic_Get : VPCResourceInfo -> string -> W -> result goerr DynamicIpAddressReservation * W;
  Dynamic_Delete : VPCResourceInfo -> string -> W -> option goerr * W;
  Ports_ResetSubnetTotalIP : string -> W -> W }.

Section Reservations.
Context {ID IS W : Type} `{!Indexer ID DynamicIpAddressReservation dres_Id} `{!Indexer IS StaticIpAddressReservation sres_Id}.
Context `{!ReservationWorld W} `{!ReservationEncoder}.
(** The version of NSX has IPv6. *)
Context (cluster : string) (ipv6 : bool) (uuids : nat -> string) (fuel : nat).
Local Abbreviation stores := (reservation_stores ID IS).
Local Abbreviation ResM := (Svc (I := stores) (W := W)).
Definition set_dynamic (f : ID -> ID) (st : stores) : stores := mkReservations (f (DynamicIPReservationStore st)) (StaticIPReservationStore st).
Definition set_static (f : IS -> IS) (st : stores) : stores := mkReservations (DynamicIPReservationStore st) (f (StaticIPReservationStore st)).
Definition Dynamic_Apply (r : DynamicIpAddressReservation) (st : ID) : ID :=
  if bool_decide (dres_MarkedForDelete r = Some true) then ix_Delete r st else ix_Add r st.
Definition Static_Apply (r : StaticIpAddressReservation) (st : IS) : IS :=
  if bool_decide (sres_MarkedForDelete r = Some true) then ix_Delete r st else ix_Add r st.
Definition Dynamic_GetByCRUID (uid : string) (st : stores) : list DynamicIpAddressReservation :=
  ix_GetByIndex (fun r => ipReservationCRUIDIndexFunc (dres_Tags r)) uid (DynamicIPReservationStore st).
Definition Static_GetByCRUID (uid : string) (st : stores) : list StaticIpAddressReservation :=
  ix_GetByIndex (fun r => ipReservationCRUIDIndexFunc (sres_Tags r)) uid (StaticIPReservationStore st).
Definition Dynamic_GetByCRName (nn : string) (st : stores) : list DynamicIpAddressReservation :=
  ix_GetByIndex (fun r => ipReservationCRNameIndexFunc (dres_Tags r)) nn (DynamicIPReservationStore st).
Definition Static_GetByCRName (nn : string) (st : stores) : list StaticIpAddressReservation :=
  ix_GetByIndex (fun r => ipReservationCRNameIndexFunc (sres_Tags r)) nn (StaticIPReservationStore st).
Definition Dynamic_DeleteMultipleObjects (l : list DynamicIpAddressReservation) (st : ID) : ID := foldl (fun st r => ix_Delete r st) st l.
Definition Static_DeleteMultipleObjects (l : list StaticIpAddressReservation) (st : IS) : IS := foldl (fun st r => ix_Delete r st) st l.

(** ** Building *)
Definition reservation_tags (cr : SubnetIPReservation) : list Tag :=
  BuildBasicTags cluster TSubnetIPReservation (m_Namespace (rc_meta cr)) (m_Name (rc_meta cr)) (m_UID (rc_meta cr)) "".
Definition reservation_exists (st : stores) (id : string) : bool :=
  bool_decide (is_Some (ix_GetByKey id (DynamicIPReservationStore st))) || bool_decide (is_Some (ix_GetByKey id (StaticIPReservationStore st))).
Definition buildIPReservationID (cr : SubnetIPReservation) (subnetPath : string) (st : stores) : option string :=
  BuildUniqueIDWithRandomUUID GenerateIDByObject (reservation_exists st) uuids fuel (mkObject (m_Name (rc_meta cr)) subnetPath).
Definition buildDynamicIPReservation (cr : SubnetIPReservation) (subnetPath : string) (st : stores) : option DynamicIpAddressReservation :=
  id ← buildIPReservationID cr subnetPath st;
  Some (mkDynamicReservation id (Some (m_Name (rc_meta cr))) None (reservation_tags cr) (Some (rc_NumberOfIPs cr))
    (if negb (bool_decide (rc_IPAddressType cr = "")) && ipv6 then Some (ConvertCRIPAddressTypeToNSX (rc_IPAddressType cr)) else None) [] None).
(** Without given addresses this is a restoration: the addresses of the status. *)
Definition reserved_of (cr : SubnetIPReservation) : list string :=
  match rc_ReservedIPs cr with [] => rc_Status_IPs cr | l => l end.
Definition buildStaticIPReservation (cr : SubnetIPReservation) (subnetPath : string) (st : stores) : option StaticIpAddressReservation :=
  id ← buildIPReservationID cr subnetPath st;
  Some (mkStaticReservation id (Some (m_Name (rc_meta cr))) None (reservation_tags cr) (reserved_of cr) None).
Definition with_id (r : StaticIpAddressReservation) (id : string) : StaticIpAddressReservation :=
  mkStaticReservation id (sres_DisplayName r) (sres_Path r) (sres_Tags r) (sres_ReservedIps r) (sres_MarkedForDelete r).

(** ** Operations *)
Definition parsed (subnetPath : string) : ResM VPCResourceInfo :=
  match ParseVPCResourcePath subnetPath with Some i => mret i | None => mfail (EText ("invalid path '" +:+ subnetPath +:+ "'")) end.
Definition reset_total (path : string) : ResM unit := on_world (fun w => (tt, Ports_ResetSubnetTotalIP path w)).
Definition send_static (r : StaticIpAddressReservation) (subnetPath : string) : ResM (list string) :=
  let! i := parsed subnetPath in
  let! _ := nsx_call (Static_Patch i r) in
  let! created := nsx_result (Static_Get i (sres_Id r)) in
  let! _ := reset_total subnetPath in
  let! _ := on_store (set_static (Static_Apply created)) in
  mret (sres_ReservedIps created).
Definition CreateOrUpdateStaticIPReservation (cr : SubnetIPReservation) (subnetPath : string) : ResM (list string) :=
  let! s := mget in
  let! r := mtotal (buildStaticIPReservation cr subnetPath (svc_store s)) in
  match Static_GetByCRUID (m_UID (rc_meta cr)) (svc_store s) with
  | [] => send_static r subnetPath
  | existing :: _ =>
      let r := with_id r (sres_Id existing) in
      if negb (CompareResource existing r) then
        let! _ := mtotal (sres_Path existing) in mret (sres_ReservedIps existing)
      else send_static r subnetPath
  end.
Definition send_dynamic (r : DynamicIpAddressReservation) (subnetPath : string) : ResM (list string) :=
  let! i := parsed subnetPath in
  let! _ := nsx_call (Dynamic_Patch i r) in
  let! created := nsx_result (Dynamic_Get i (dres_Id r)) in
  let! _ := reset_total subnetPath in
  let! _ := on_store (set_dynamic (Dynamic_Apply created)) in
  mret (dres_Ips created).
Definition GetOrCreateDynamicIPReservation (cr : SubnetIPReservation) (subnetPath : string) : ResM (list string) :=
  let! s := mget in
  let! r := mtotal (buildDynamicIPReservation cr subnetPath (svc_store s)) in
  match Dynamic_GetByCRUID (m_UID (rc_meta cr)) (svc_store s) with
  | existing :: _ => mret (dres_Ips existing)
  | [] =>
      match Static_GetByCRUID (m_UID (rc_meta cr)) (svc_store s) with
      | existing :: _ => mret (sres_ReservedIps existing)
      | [] => send_dynamic r subnetPath
      end
  end.
Definition CreateOrUpdateSubnetIPReservation (cr : SubnetIPReservation) (subnetPath : string) (restoreMode : bool) : ResM (list string) :=
  if restoreMode || negb (bool_decide (rc_ReservedIPs cr = []))
  then CreateOrUpdateStaticIPReservation cr subnetPath
  else GetOrCreateDynamicIPReservation cr subnetPath.
(** The error of the path is ignored: the identifiers are empty then. *)
Definition delete_reservation (call : VPCResourceInfo -> string -> W -> option goerr * W) (path : option string) (id : string)
    (forget : stores -> stores) : ResM unit :=
  let! path := mtotal path in
  let i := default no_info (ParseVPCResourcePath path) in
  let! _ := nsx_call (call i id) in
  let! _ := reset_total ("/orgs/" +:+ OrgID i +:+ "/projects/" +:+ ProjectID i +:+ "/vpcs/" +:+ VPCID i +:+ "/subnets/" +:+ ParentID i) in
  on_store forget.
Definition DeleteStaticIPReservation (r : StaticIpAddressReservation) : ResM unit :=
  delete_reservation Static_Delete (sres_Path r) (sres_Id r) (set_static (ix_Delete r)).
Definition DeleteDynamicIPReservation (r : DynamicIpAddressReservation) : ResM unit :=
  delete_reservation Dynamic_Delete (dres_Path r) (dres_Id r) (set_dynamic (ix_Delete r)).
Definition delete_found (dynamic : stores -> list DynamicIpAddressReservation) (static : stores -> list StaticIpAddressReservation) : ResM unit :=
  let! s := mget in
  let! _ := mloop (fun _ r => DeleteDynamicIPReservation r) tt (dynamic (svc_store s)) in
  let! s := mget in
  mloop (fun _ r => DeleteStaticIPReservation r) tt (static (svc_store s)).
Definition DeleteIPReservationByCRName (ns name : string) : ResM unit :=
  delete_found (Dynamic_GetByCRName (NamespacedName ns name)) (Static_GetByCRName (NamespacedName ns name)).
Definition DeleteIPReservationByCRId (id : string) : ResM unit := delete_found (Dynamic_GetByCRUID id) (Static_GetByCRUID id).
Definition ListSubnetIPReservationCRUIDsInStore (st : stores) : gset string :=
  list_to_set (ix_List (DynamicIPReservationStore st) ≫= fun r => filterTag (dres_Tags r) TagScopeSubnetIPReservationCRUID) ∪
  list_to_set (ix_List (StaticIPReservationStore st) ≫= fun r => filterTag (sres_Tags r) TagScopeSubnetIPReservationCRUID).
End Reservations.

#[local] Strategy opaque [BuildUniqueIDWithRandomUUID].
(** ** Facts: reconciling again *)
Section Facts.
Context {ID IS W : Type} `{!Indexer ID DynamicIpAddressReservation dres_Id} `{!Indexer IS StaticIpAddressReservation sres_Id}.
Context `{!ReservationWorld W} `{!ReservationEncoder}.
Context (cluster : string) (ipv6 : bool) (uuids : nat -> string) (fuel : nat).
Local Abbreviation stores := (reservation_stores ID IS).
Local Abbreviation state := (service_state stores W).
Local Abbreviation reconcile := (CreateOrUpdateSubnetIPReservation (ID := ID) (IS := IS) (W := W) cluster ipv6 uuids fuel).
Definition static_owners (r : StaticIpAddressReservation) : list string := ipReservationCRUIDIndexFunc (sres_Tags r).
Definition dynamic_owners (r : DynamicIpAddressReservation) : list string := ipReservationCRUIDIndexFunc (dres_Tags r).
Definition find_static (uid : string) (st : IS) : option StaticIpAddressReservation := head (ix_GetByIndex static_owners uid st).
Definition find_dynamic (uid : string) (st : ID) : option DynamicIpAddressReservation := head (ix_GetByIndex dynamic_owners uid st).
(** The addresses a CR has: of its dynamic reservation, else of its static one. *)
Definition reserved (uid : string) (st : stores) : option (list string) :=
  match find_dynamic uid (DynamicIPReservationStore st) with
  | Some r => Some (dres_Ips r)
  | None => sres_ReservedIps <$> find_static uid (StaticIPReservationStore st)
  end.
(** A CR has one reservation of a kind. *)
Definition one_reservation (st : stores) : Prop :=
  owned_once dynamic_owners (DynamicIPReservationStore st) /\ owned_once static_owners (StaticIPReservationStore st).
(** NSX returns the reservations it accepted: static ones as they were sent, with a
    path, dynamic ones with their identity. *)
Definition returns_reservations : Prop :=
  (forall i r w w' got w2, Static_Patch i r w = (None, w') -> Static_Get i (sres_Id r) w' = (Ok got, w2) ->
    compared_reservation got = compared_reservation r /\ is_Some (sres_Path got) /\ sres_MarkedForDelete got = None) /\
  (forall i r w w' got w2, Dynamic_Patch i r w = (None, w') -> Dynamic_Get i (dres_Id r) w' = (Ok got, w2) ->
    dres_Id got = dres_Id r /\ dres_Tags got = dres_Tags r /\ dres_MarkedForDelete got = None).
Lemma tags_owner cr : ipReservationCRUIDIndexFunc (reservation_tags cluster cr) = [m_UID (rc_meta cr)].
Proof. reflexivity. Qed.
Lemma send_static_Ok r path (s s' : state) ips : returns_reservations -> send_static r path s = Some (Ok ips, s') ->
  exists got, svc_store s' = set_static (ix_Add got) (svc_store s) /\ compared_reservation got = compared_reservation r /\
    is_Some (sres_Path got) /\ ips = sres_ReservedIps got.
Proof.
  intros [Hret _]. unfold send_static, parsed. intros (i & s1 & Hi & Hk)%bindM_Ok.
  destruct (ParseVPCResourcePath path) as [i'|]; [|done]. injection Hi as -> <-.
  apply bindM_Ok in Hk as (u & s1 & Hp & Hk). apply bindM_Ok in Hk as (got & s2 & Hg & Hk).
  pose proof (stable_nsx_call _ _ _ _ Hp) as Hs1. pose proof (stable_nsx_result _ _ _ _ Hg) as Hs2.
  unfold nsx_call, world_result in Hp. destruct (Static_Patch _ _ _) as [e w1] eqn:Ep. injection Hp as Hp <-.
  unfold nsx_result, world_result in Hg. cbn in Hg. destruct (Static_Get _ _ _) as [g w2] eqn:Eg. injection Hg as Hg <-.
  destruct g as [g|]; [|done]. injection Hg as ->. destruct e as [e|]; [done|]. destruct (Hret _ _ _ _ _ _ Ep Eg) as (Hc & Hpath & Hm).
  apply bindM_Ok in Hk as (u2 & s3 & [= _ <-] & Hk). apply bindM_Ok in Hk as (u3 & s4 & [= _ <-] & Hk). injection Hk as <- <-.
  exists got. cbn in *. unfold Static_Apply. by rewrite Hm.
Qed.
Lemma send_dynamic_Ok r path (s s' : state) ips : returns_reservations -> send_dynamic r path s = Some (Ok ips, s') ->
  exists got, svc_store s' = set_dynamic (ix_Add got) (svc_store s) /\ dres_Id got = dres_Id r /\ dres_Tags got = dres_Tags r /\ ips = dres_Ips got.
Proof.
  intros [_ Hret]. unfold send_dynamic, parsed. intros (i & s1 & Hi & Hk)%bindM_Ok.
  destruct (ParseVPCResourcePath path) as [i'|]; [|done]. injection Hi as -> <-.
  apply bindM_Ok in Hk as (u & s1 & Hp & Hk). apply bindM_Ok in Hk as (got & s2 & Hg & Hk).
  unfold nsx_call, world_result in Hp. destruct (Dynamic_Patch _ _ _) as [e w1] eqn:Ep. injection Hp as Hp <-.
  unfold nsx_result, world_result in Hg. cbn in Hg. destruct (Dynamic_Get _ _ _) as [g w2] eqn:Eg. injection Hg as Hg <-.
  destruct g as [g|]; [|done]. injection Hg as ->. destruct e as [e|]; [done|]. destruct (Hret _ _ _ _ _ _ Ep Eg) as (Hid & Ht & Hm).
  apply bindM_Ok in Hk as (u2 & s3 & [= _ <-] & Hk). apply bindM_Ok in Hk as (u3 & s4 & [= _ <-] & Hk). injection Hk as <- <-.
  exists got. cbn in *. unfold Dynamic_Apply. by rewrite Hm.
Qed.
Lemma find_static_finder : finder (I := IS) static_owners find_static.
Proof. apply head_finder. Qed.
Lemma find_dynamic_finder : finder (I := ID) dynamic_owners find_dynamic.
Proof. apply head_finder. Qed.
(** What a reconcile compares for a static reservation. *)
Definition wanted (cr : SubnetIPReservation) (r : StaticIpAddressReservation) : Prop :=
  sres_DisplayName r = Some (m_Name (rc_meta cr)) /\ sres_Tags r = reservation_tags cluster cr /\ sres_ReservedIps r = reserved_of cr.
Lemma compare_reservation (a b : StaticIpAddressReservation) : CompareResource a b = false <-> compared_reservation a = compared_reservation b.
Proof. unfold CompareResource. rewrite negb_false_iff, bool_decide_eq_true. cbn. split; [apply encode_reservation_inj|]. by intros ->. Qed.
Lemma compared_wanted cr a b : compared_reservation a = compared_reservation b -> wanted cr b -> sres_Id a = sres_Id b /\ wanted cr a.
Proof. destruct a, b. unfold compared_reservation, wanted. cbn. by intros [= -> -> -> ->]. Qed.
Lemma built_wanted cr path st r : buildStaticIPReservation cluster uuids fuel cr path st = Some r -> wanted cr r.
Proof. unfold buildStaticIPReservation. by intros (id & _ & [= <-])%bind_Some. Qed.
Lemma static_Ok cr path (s s1 : state) ips : returns_reservations -> one_reservation (svc_store s) ->
  CreateOrUpdateStaticIPReservation cluster uuids fuel cr path s = Some (Ok ips, s1) ->
  one_reservation (svc_store s1) /\ DynamicIPReservationStore (svc_store s1) = DynamicIPReservationStore (svc_store s) /\
  exists e, find_static (m_UID (rc_meta cr)) (StaticIPReservationStore (svc_store s1)) = Some e /\ wanted cr e /\ is_Some (sres_Path e) /\
    ips = sres_ReservedIps e.
Proof.
  intros Hret Hone. unfold CreateOrUpdateStaticIPReservation. intros (s0 & s0' & [= <- <-] & Hk)%bindM_Ok.
  apply bindM_Ok in Hk as (r & s2 & Hb & Hk). unfold mtotal in Hb.
  destruct (buildStaticIPReservation _ _ _ _ _ _) as [r'|] eqn:Er; [|done]. injection Hb as -> <-. apply built_wanted in Er as Hw. clear Er.
  assert (Hsend : forall q, wanted cr q ->
    from_option (fun b => sres_Id q = sres_Id b) True (find_static (m_UID (rc_meta cr)) (StaticIPReservationStore (svc_store s))) ->
    send_static q path s = Some (Ok ips, s1) ->
    one_reservation (svc_store s1) /\ DynamicIPReservationStore (svc_store s1) = DynamicIPReservationStore (svc_store s) /\
    exists e, find_static (m_UID (rc_meta cr)) (StaticIPReservationStore (svc_store s1)) = Some e /\ wanted cr e /\ is_Some (sres_Path e) /\ ips = sres_ReservedIps e).
  { intros q Hq Hid (got & -> & Hc & Hp & ->)%(send_static_Ok _ _ _ _ _ Hret). destruct Hone as [Hd Hs].
    destruct (compared_wanted _ _ _ Hc Hq) as [Hgid Hgw]. rewrite <- Hgid in Hid.
    assert (Hgo : static_owners got = [m_UID (rc_meta cr)]) by (unfold static_owners; destruct Hgw as (_ & -> & _); apply tags_owner).
    destruct (owned_once_replace _ _ _ _ _ find_static_finder Hs Hgo Hid) as [Hs' Hfind].
    split; [done|]. split; [done|]. by exists got. }
  assert (Hfs : find_static (m_UID (rc_meta cr)) (StaticIPReservationStore (svc_store s)) = head (Static_GetByCRUID (m_UID (rc_meta cr)) (svc_store s))) by done.
  destruct (Static_GetByCRUID _ _) as [|x l]; [apply (Hsend r Hw); [by rewrite Hfs|done]|].
  destruct (CompareResource x _) eqn:Hcmp; cbn in Hk.
  - apply (Hsend (with_id r (sres_Id x))); [exact Hw|by rewrite Hfs|exact Hk].
  - apply compare_reservation in Hcmp. apply bindM_Ok in Hk as (p & s3 & Hp & Hk). unfold mtotal in Hp.
    destruct (sres_Path x) as [xp|] eqn:Ex; [|done]. injection Hp as -> <-. injection Hk as <- <-.
    split; [exact Hone|]. split; [done|]. exists x. split; [exact Hfs|].
    split; [by apply (compared_wanted cr _ _ Hcmp)|]. rewrite Ex. by split; [eexists|].
Qed.
Lemma reserved_lists uid (st : stores) : reserved uid st =
  match Dynamic_GetByCRUID uid st, Static_GetByCRUID uid st with
  | d :: _, _ => Some (dres_Ips d) | [], e :: _ => Some (sres_ReservedIps e) | [], [] => None
  end.
Proof.
  unfold reserved, find_dynamic, find_static.
  change (ix_GetByIndex dynamic_owners uid (DynamicIPReservationStore st)) with (Dynamic_GetByCRUID uid st).
  change (ix_GetByIndex static_owners uid (StaticIPReservationStore st)) with (Static_GetByCRUID uid st).
  by destruct (Dynamic_GetByCRUID _ _), (Static_GetByCRUID _ _).
Qed.
Lemma dynamic_idle cr path (s : state) ips : reserved (m_UID (rc_meta cr)) (svc_store s) = Some ips ->
  is_Some (buildIPReservationID uuids fuel cr path (svc_store s)) ->
  GetOrCreateDynamicIPReservation cluster ipv6 uuids fuel cr path s = Some (Ok ips, s).
Proof.
  rewrite reserved_lists. intros Hr [id Hid]. unfold GetOrCreateDynamicIPReservation, buildDynamicIPReservation, bindM, mget, mtotal.
  rewrite Hid. cbn [mbind option_bind].
  destruct (Dynamic_GetByCRUID _ _) as [|d l]; [|by injection Hr as <-]. destruct (Static_GetByCRUID _ _); [done|by injection Hr as <-].
Qed.
Lemma dynamic_Ok cr path (s s1 : state) ips : returns_reservations -> one_reservation (svc_store s) ->
  GetOrCreateDynamicIPReservation cluster ipv6 uuids fuel cr path s = Some (Ok ips, s1) ->
  one_reservation (svc_store s1) /\ reserved (m_UID (rc_meta cr)) (svc_store s1) = Some ips.
Proof.
  intros Hret Hone Hrun. unfold GetOrCreateDynamicIPReservation in Hrun. apply bindM_Ok in Hrun as (s0 & s0' & [= <- <-] & Hk).
  apply bindM_Ok in Hk as (r & s2 & Hb & Hk). unfold mtotal in Hb.
  destruct (buildDynamicIPReservation _ _ _ _ _ _) as [r'|] eqn:Er; [|done]. injection Hb as -> <-.
  pose proof (reserved_lists (m_UID (rc_meta cr)) (svc_store s)) as Hr.
  assert (Hfd : find_dynamic (m_UID (rc_meta cr)) (DynamicIPReservationStore (svc_store s)) = head (Dynamic_GetByCRUID (m_UID (rc_meta cr)) (svc_store s))) by done.
  destruct (Dynamic_GetByCRUID _ _) as [|d l]; [|by injection Hk as <- <-].
  destruct (Static_GetByCRUID _ _) as [|e l]; [|by injection Hk as <- <-]. clear Hr.
  apply (send_dynamic_Ok _ _ _ _ _ Hret) in Hk as (got & -> & Hid & Ht & ->). destruct Hone as [Hd Hs].
  assert (Hgo : dynamic_owners got = [m_UID (rc_meta cr)]).
  { unfold dynamic_owners. rewrite Ht. unfold buildDynamicIPReservation in Er. apply bind_Some in Er as (id & _ & Er). injection Er as <-. apply tags_owner. }
  destruct (owned_once_replace _ find_dynamic _ got _ find_dynamic_finder Hd Hgo) as [Hd' Hfind]; [by rewrite Hfd|].
  split; [done|]. unfold reserved. cbn. by rewrite Hfind.
Qed.
(** C29. When NSX returns the reservations it accepted, a CR keeps the addresses that
    a successful reconcile gave it, in ordinary work or in a restoration: the next
    ordinary reconcile answers with the same addresses, sends nothing and changes
    nothing. A restoration has to be for a CR without a dynamic reservation, when
    the CR asks for a number of addresses: it makes a static one from the status. *)
Theorem CreateOrUpdateSubnetIPReservation_settles cr path m (s s1 : state) ips :
  returns_reservations -> one_reservation (svc_store s) ->
  (m = true -> rc_ReservedIPs cr = [] -> find_dynamic (m_UID (rc_meta cr)) (DynamicIPReservationStore (svc_store s)) = None) ->
  reconcile cr path m s = Some (Ok ips, s1) ->
  one_reservation (svc_store s1) /\
  forall s2 : state, svc_store s2 = svc_store s1 -> is_Some (buildIPReservationID uuids fuel cr path (svc_store s2)) ->
    reconcile cr path false s2 = Some (Ok ips, s2).
Proof.
  intros Hret Hone Hdyn. unfold CreateOrUpdateSubnetIPReservation. destruct (m || _) eqn:Em; cbn [orb].
  - intros Hrun. destruct (static_Ok _ _ _ _ _ Hret Hone Hrun) as (Hone1 & Hd & e & He & Hw & [ep Hep] & ->).
    split; [exact Hone1|]. intros s2 Hst [id Hid].
    assert (Hfs : head (Static_GetByCRUID (m_UID (rc_meta cr)) (svc_store s2)) = Some e) by (by rewrite Hst).
    destruct (Static_GetByCRUID _ _) as [|x l] eqn:Es; [done|]. injection Hfs as ->.
    case_bool_decide as Hr; cbn.
    + rewrite orb_false_r in Em. specialize (Hdyn Em Hr). apply dynamic_idle; [|by eexists]. unfold reserved. by rewrite Hst, Hd, Hdyn, He.
    + unfold CreateOrUpdateStaticIPReservation, buildStaticIPReservation, bindM, mget, mtotal. rewrite Hid. cbn [mbind option_bind]. rewrite Es.
      assert (Hcmp : CompareResource e (with_id (mkStaticReservation id (Some (m_Name (rc_meta cr))) None (reservation_tags cluster cr) (reserved_of cr) None)
        (sres_Id e)) = false).
      { apply compare_reservation. destruct Hw as (Hn & Ht & Hi). unfold compared_reservation. cbn. by rewrite Hn, Ht, Hi. }
      rewrite Hcmp. cbn [negb]. by rewrite Hep.
  - apply orb_false_iff in Em as [-> Hr]. rewrite Hr. intros Hrun.
    destruct (dynamic_Ok _ _ _ _ _ Hret Hone Hrun) as [Hone1 Hres]. split; [exact Hone1|].
    intros s2 Hst Hid. apply dynamic_idle; [by rewrite Hst|exact Hid].
Qed.
End Facts.

(** ** A concrete world: NSX keeps the reservations it is sent; a dynamic one gets
    an address. *)
Module ReservationDemo.
#[global] Program Instance demo_reservation_encoder : ReservationEncoder := {
  encode_reservation r := field_text [encode (sres_Id r); encode (sres_DisplayName r); encode (sres_Path r); encode (sres_Tags r);
    encode (sres_ReservedIps r); encode (sres_MarkedForDelete r)] }.
Next Obligation. intros [] [] Hv%(inj field_text). cbn in Hv. by simplify_eq. Qed.
Definition nsx : Type := gmap string StaticIpAddressReservation * gmap string DynamicIpAddressReservation.
#[global] Instance demo_reservation_world : ReservationWorld nsx := {|
  Static_Patch _ r w := (None, (<[sres_Id r := r]> w.1, w.2));
  Static_Get _ id w := (match w.1 !! id with
    | Some r => Ok (mkStaticReservation (sres_Id r) (sres_DisplayName r) (Some ("/static/" +:+ id)) (sres_Tags r) (sres_ReservedIps r) None)
    | None => Err (EText "not found") end, w);
  Static_Delete _ id w := (None, (delete id w.1, w.2));
  Dynamic_Patch _ r w := (None, (w.1, <[dres_Id r := r]> w.2));
  Dynamic_Get _ id w := (match w.2 !! id with
    | Some r => Ok (mkDynamicReservation (dres_Id r) (dres_DisplayName r) (Some ("/dynamic/" +:+ id)) (dres_Tags r) (dres_NumberOfIps r) (dres_IpAddressType r) ["10.0.0.7"] None)
    | None => Err (EText "not found") end, w);
  Dynamic_Delete _ id w := (None, (w.1, delete id w.2));
  Ports_ResetSubnetTotalIP _ w := w |}.
Definition DS : Type := map_store DynamicIpAddressReservation dres_Id.
Definition SS : Type := map_store StaticIpAddressReservation sres_Id.
Definition demo_reservation_state : service_state (reservation_stores DS SS) nsx := mkService (mkReservations ix_empty ix_empty) (∅, ∅).
(** A CR that asked for one address and got 10.0.0.9 before the restoration. *)
Definition demo_reservation : SubnetIPReservation := mkReservationCR (mkMeta "r" "ns" "cr-1" ∅ ∅) 1 [] "" ["10.0.0.9"].
Definition demo_subnet := "/orgs/o/projects/p/vpcs/v/subnets/s".
Definition demo_restored := CreateOrUpdateSubnetIPReservation "c" false (fun _ => "u") 5 demo_reservation demo_subnet true demo_reservation_state.
Definition demo_restored_state : service_state (reservation_stores DS SS) nsx := from_option snd demo_reservation_state demo_restored.
Lemma demo_returns : returns_reservations (W := nsx).
Proof.
  split; intros i r w w' got w2; cbn; intros [= <-]; cbn; rewrite lookup_insert_eq; intros [= <- <-]; [|done].
  split; [done|]. split; [by eexists|done].
Qed.
Lemma demo_one : one_reservation (svc_store demo_reservation_state).
Proof. by split; intros a b uid Ha; apply ix_list_get in Ha. Qed.
End ReservationDemo.
Import ReservationDemo.
Lemma CreateOrUpdateSubnetIPReservation_settles_witness :
  demo_restored = Some (Ok ["10.0.0.9"], demo_restored_state) /\ one_reservation (svc_store demo_restored_state) /\
  forall s2 : service_state (reservation_stores DS SS) nsx, svc_store s2 = svc_store demo_restored_state ->
    is_Some (buildIPReservationID (fun _ => "u") 5 demo_reservation demo_subnet (svc_store s2)) ->
    CreateOrUpdateSubnetIPReservation "c" false (fun _ => "u") 5 demo_reservation demo_subnet false s2 = Some (Ok ["10.0.0.9"], s2).
Proof.
  assert (Hrun : demo_restored = Some (Ok ["10.0.0.9"], demo_restored_state)) by (vm_compute; reflexivity).
  split; [exact Hrun|].
  refine (CreateOrUpdateSubnetIPReservation_settles "c" false (fun _ => "u") 5 demo_reservation demo_subnet true demo_reservation_state demo_restored_state
    ["10.0.0.9"] demo_returns demo_one (fun _ _ => eq_refl) _).
  vm_compute; reflexivity.
Defined.
