(* ===== verification/CtlCommon.v ===== *)
(** * pkg/controllers/common: what the controllers share

    The computations of utils.go and types.go: families of addresses, the changes
    of a specification that an update may make, names of ports, conditions, kinds
    of Namespaces, default SubnetSets and requeues. An error printed into the
    text of another with %v is the text before it. *)
From S2P Require Import Prelude GoStrings GoNet Errors NsxUtil IPUtil Names Subnet.

(** ** Types of addresses *)
Definition ConvertCRStaticIPAddressTypeToNSX (crType : string) : string :=
  if bool_decide (crType = "IPv4") then "IPV4"
  else if bool_decide (crType = "IPv6") then "IPV6"
  else if bool_decide (crType = "IPv4IPv6") then "IPV4_IPV6"
  else if bool_decide (crType = "None") || bool_decide (crType = "") then "NONE" else "IPV4".
Definition intersect_step (acc t : string) : result goerr string :=
  if bool_decide (acc = t) then Ok acc
  else if bool_decide (acc = "IPv4IPv6") then Ok t
  else if bool_decide (t = "IPv4IPv6") then Ok acc
  else Err (EText ("no intersection between IP address types " +:+ acc +:+ " and " +:+ t)).
Fixpoint intersect_loop (acc : string) (types : list string) : result goerr string :=
  match types with
  | [] => Ok acc
  | t :: types' => match intersect_step acc t with Err e => Err e | Ok r => intersect_loop r types' end
  end.
Definition IntersectIPAddressTypes (types : list string) : result goerr string :=
  match types with
  | [] => Err (EText "no IP address types provided")
  | t :: types' => intersect_loop t types'
  end.
Definition IsSupersetIPAddressTypes (base target : string) : bool :=
  if bool_decide (base = target) then true
  else bool_decide (base = "IPv4IPv6") && (bool_decide (target = "IPv4") || bool_decide (target = "IPv6")).
(** The type of a SubnetSet made of Subnets, from the reads of their CRs (the
    type of their specification, or the error of the read). *)
Fixpoint subnet_types (reads : list (result goerr string)) : result goerr (list string) :=
  match reads with
  | [] => Ok []
  | Err e :: _ => Err e
  | Ok t :: reads' =>
      match subnet_types reads' with
      | Err e => Err e
      | Ok ts => Ok ((if bool_decide (t = "") then "IPv4" else t) :: ts)
      end
  end.
Definition GetPrecreatedSubnetSetIPAddressType (read : string -> result goerr string) (subnetNames : option (list string))
    (ipAddressType supervisorIPFamily : string) : result goerr string :=
  if negb (bool_decide (ipAddressType = "")) then Ok ipAddressType
  else match subnetNames with
  | None | Some [] => Ok "IPv4"
  | Some names =>
      match subnet_types (map read names) with
      | Err e => Err e
      | Ok types =>
          match IntersectIPAddressTypes (supervisorIPFamily :: types) with
          | Err _ => Err (EText "IP address types of Subnets in SubnetSet do not have intersection: ")
          | Ok t => Ok t
          end
      end
  end.
(** ** What an update may change *)
Definition single_family (t : string) : bool := bool_decide (t = "IPv4") || bool_decide (t = "IPv6").
Definition ValidateIPAddressTypeTransition (oldType newType : string) : option string :=
  if bool_decide (oldType = newType) then None
  else
    let widen := bool_decide (newType = "IPv4IPv6") && single_family oldType in
    if negb (bool_decide (oldType = "")) && negb widen
    then Some ("IPAddressType converting from " +:+ oldType +:+ " to " +:+ newType +:+ " is not supported") else None.
Definition ValidateAccessModeTransition (oldAccessMode newAccessMode oldType newType : string) : option string :=
  if bool_decide (oldAccessMode = newAccessMode) then None
  else if negb (bool_decide (oldAccessMode = "")) && (negb (bool_decide (newType = "IPv4IPv6")) || negb (bool_decide (oldType = "IPv6")))
  then Some "accessMode is immutable" else None.
Definition widens (oldType newType : string) : bool := single_family oldType && bool_decide (newType = "IPv4IPv6").
(** The first address added that is not of the new family. *)
Fixpoint added_of_family (oldType : string) (added : list string) : option string :=
  match added with
  | [] => None
  | ip :: added' =>
      let isIPv6 := IsIPv6CIDR ip in
      if bool_decide (oldType = "IPv4") && negb isIPv6
      then Some "only IPv6 addresses can be added when transitioning from IPv4 to IPv4IPv6"
      else if bool_decide (oldType = "IPv6") && isIPv6
      then Some "only IPv4 addresses can be added when transitioning from IPv6 to IPv4IPv6"
      else added_of_family oldType added'
  end.
Definition ValidateIPAddressesTransition (oldIPs newIPs : list string) (oldType newType : string) : option string :=
  let oldSet : gset string := list_to_set oldIPs in let newSet : gset string := list_to_set newIPs in
  if bool_decide (oldSet = newSet) then None
  else if negb (widens oldType newType)
  then Some "ipAddresses can only be updated when ipAddressType transitions from IPv4 or IPv6 to IPv4IPv6"
  else if negb (bool_decide (oldSet ⊆ newSet)) then Some "existing ipAddresses cannot be removed or modified"
  else added_of_family oldType (elements (newSet ∖ oldSet)).
Definition ValidateIPBlockNamesTransition (oldBlocks newBlocks : list string) (oldType newType : string) : option string :=
  let oldSet : gset string := list_to_set oldBlocks in let newSet : gset string := list_to_set newBlocks in
  if bool_decide (oldSet = newSet) then None
  else if negb (widens oldType newType)
  then Some "ipBlockNames can only be updated when ipAddressType transitions from IPv4 or IPv6 to IPv4IPv6"
  else if negb (bool_decide (oldSet ⊆ newSet)) then Some "existing ipBlockNames cannot be removed or modified"
  else None.
(** ** Conditions *)
Record PodCondition := mkPodCondition { pc_Type : string; pc_Status : string; pc_Reason : string; pc_Message : string; pc_LastTransitionTime : Z }.
Definition isPodConditionSemanticEqual (matched : option PodCondition) (new : PodCondition) : bool :=
  match matched with
  | None => false
  | Some c => bool_decide (pc_Status c = pc_Status new) && bool_decide (pc_Reason c = pc_Reason new) && bool_decide (pc_Message c = pc_Message new)
  end.
Definition GetExistingPodConditionOfType (type : string) (conditions : list PodCondition) : option PodCondition :=
  head (filter (fun c => pc_Type c = type) conditions).
(** The first condition of the type is overwritten in place. *)
Fixpoint set_condition (conditions : list PodCondition) (new : PodCondition) : list PodCondition :=
  match conditions with
  | [] => []
  | c :: cs => if bool_decide (pc_Type c = pc_Type new)
               then mkPodCondition (pc_Type c) (pc_Status new) (pc_Reason new) (pc_Message new) (pc_LastTransitionTime new) :: cs
               else c :: set_condition cs new
  end.
Definition MergePodStatusCondition (conditions : list PodCondition) (new : PodCondition) : list PodCondition * bool :=
  let matched := GetExistingPodConditionOfType (pc_Type new) conditions in
  if isPodConditionSemanticEqual matched new then (conditions, false)
  else match matched with
  | Some _ => (set_condition conditions new, true)
  | None => (conditions ++ [new], true)
  end.
Definition merge_step (st : list PodCondition * bool) (c : PodCondition) : list PodCondition * bool :=
  let '(cs, changed) := MergePodStatusCondition st.1 c in (cs, st.2 || changed).
(** The new conditions of a Pod and whether its status is sent. *)
Definition UpdatePodStatusConditions (conditions new : list PodCondition) : list PodCondition * bool :=
  foldl merge_step (conditions, false) new.
Definition IsConditionSemanticEqual (matched : option Condition) (new : Condition) : bool :=
  match matched with
  | None => false
  | Some c => bool_decide (cond_Status c = cond_Status new) && bool_decide (cond_Reason c = cond_Reason new) && bool_decide (cond_Message c = cond_Message new)
  end.
(** ** Names and annotations *)
(** The annotation that asks for interfaces to be configured again. *)
Definition reconfigure_value (existing : option string) (value : string) : string :=
  match existing with
  | None => value
  | Some restoreValue =>
      if bool_decide (restoreValue = "") || bool_decide (value = "true") then value
      else if negb (contains_str value restoreValue) then restoreValue +:+ ", " +:+ value else restoreValue
  end.
Definition AnnotationAttachmentRef := "nsx.vmware.com/attachment_ref".
Definition GetVirtualMachineNameForSubnetPort (annotations : gmap string string) : result goerr (string * string) :=
  match annotations !! AnnotationAttachmentRef with
  | None => Ok ("", "")
  | Some attachmentRef =>
      let invalid := Err (EText ("invalid annotation value of '" +:+ AnnotationAttachmentRef +:+ "': " +:+ attachmentRef)) in
      match split_on "/" attachmentRef with
      | [kind; ns; name] => if bool_decide (to_lower kind = "virtualmachine") then Ok (ns, name) else invalid
      | _ => invalid
      end
  end.
Definition suffixLength : nat := 5.
Definition maxPodNameLength : nat := 57.
Definition is_trailing (a : ascii) : bool := bool_decide (a = "-"%char) || bool_decide (a = "."%char).
(** [random]: the text of [rand.String(suffixLength)]. *)
Definition GenerateSubnetPortName (podName podUID : string) (attempt : Z) (random : string) : string :=
  let podNamePrefix := trim_right_by is_trailing (take_str maxPodNameLength podName) in
  podNamePrefix +:+ "-" +:+ (if bool_decide (attempt = 0) then take_str suffixLength podUID else random).
(** ** Nodes, Namespaces and default SubnetSets *)
Definition NodeIsMaster (labels : gmap string string) : bool :=
  bool_decide (is_Some (labels !! "node-role.kubernetes.io/master")) || bool_decide (is_Some (labels !! "node-role.kubernetes.io/control-plane")).
Inductive NameSpaceType := SystemNs | SVServiceNs | NormalNs.
#[global] Instance NameSpaceType_eq_dec : EqDecision NameSpaceType.
Proof. solve_decision. Defined.
Definition GetNamespaceType (annotations labels : gmap string string) : NameSpaceType :=
  if bool_decide (annotations !! "nsx.vmware.com/vpc_network_config" = Some "system") then SystemNs
  else if bool_decide (is_Some (labels !! "appplatform.vmware.com/serviceId")) && bool_decide (labels !! "managedBy" = Some "vSphere-AppPlatform")
  then SVServiceNs else NormalNs.
Definition IsDefaultSubnetSet (m : meta) : bool :=
  bool_decide (is_Some (m_Labels m !! "nsx.vmware.com/default-network")) ||
  bool_decide (is_Some (m_Labels m !! "nsxoperator.vmware.com/default-subnetset-for")) ||
  bool_decide (m_Name m = "vm-default") || bool_decide (m_Name m = "pod-default").
(** The kind of the owner of a port and its name. *)
Definition GetPodNameForSubnetPort (owners : list (string * string)) : string :=
  match filter (fun o : string * string => o.1 = "Pod") owners with [] => "" | o :: _ => o.2 end.
Definition PodIsDeleted (phase : string) : bool := bool_decide (phase = "Succeeded") || bool_decide (phase = "Failed").
Inductive node_error := NoReader | NodeNotFoundError (NodeName : string) | ManyNodes (name : string) (ids : list string).
(** [nodes]: the reader of the node service, [None] when nil; a node is its
    [UniqueId], [None] when the node or the identifier is nil. *)
Definition GetNodeByName (reader : option (string -> list (option string))) (nodeName : string) : result node_error (option string) :=
  match reader with
  | None => Err NoReader
  | Some nodes =>
      match nodes nodeName with
      | [] => Err (NodeNotFoundError nodeName)
      | [n] => Ok n
      | ns => Err (ManyNodes nodeName (map (default "<nil>") ns))
      end
  end.
(** ** A Subnet by one of its addresses *)
Definition networkNumberAndMask (n : IPNet) : option (IP * list Z) :=
  match To4 (net_IP n) with
  | Some ip =>
      if bool_decide (length (net_Mask n) = 4%nat) then Some (ip, net_Mask n)
      else if bool_decide (length (net_Mask n) = 16%nat) then Some (ip, drop 12 (net_Mask n)) else None
  | None =>
      if bool_decide (length (net_IP n) = 16%nat) && bool_decide (length (net_Mask n) = 16%nat) then Some (net_IP n, net_Mask n) else None
  end.
Definition IPNet_Contains (n : IPNet) (ip : IP) : bool :=
  let ip := default ip (To4 ip) in
  match networkNumberAndMask n with
  | None => bool_decide (ip = [])
  | Some (nn, m) => bool_decide (length ip = length nn) && bool_decide (zip_with Z.land nn m = zip_with Z.land ip m)
  end.
(** The first block that has the address, in the blocks of one Subnet. *)
Fixpoint find_block (blocks : list string) (path : option string) (ip : IP) : result goerr (option string) :=
  match blocks with
  | [] => Ok None
  | cidr :: blocks' =>
      match ParseCIDR cidr with
      | None => Err (EParseCIDR cidr)
      | Some (_, net) =>
          match path with
          | Some p => if IPNet_Contains net ip then Ok (Some p) else find_block blocks' path ip
          | None => find_block blocks' path ip
          end
      end
  end.
Fixpoint GetSubnetByIP (subnets : list NsxSubnet) (ip : IP) : result goerr string :=
  match subnets with
  | [] => Err (EText ("failed to find Subnet matching IP " +:+ IP_String ip))
  | s :: subnets' =>
      match find_block (s_IpAddresses s) (s_Path s) ip with
      | Err e => Err e
      | Ok (Some p) => Ok p
      | Ok None => GetSubnetByIP subnets' ip
      end
  end.
(** ** Network stacks of a Namespace

    [networkInfos]: the network stacks of the VPCs of its NetworkInfos, or the
    error of the listing. *)
Inductive check_error := ErrFailedToListNetworkInfo (e : goerr) | NotSupported (msg : string).
Definition IsTepLessMode (networkInfos : result goerr (list (list string))) : result goerr bool :=
  match networkInfos with
  | Err e => Err e
  | Ok [] => Ok false
  | Ok (vpcs :: _) => Ok (existsb (fun stack => bool_decide (stack = "VLANBackedVPC")) vpcs)
  end.
Definition CheckNetworkStack (networkInfos : result goerr (list (list string))) (resourceType : string) : option check_error :=
  match IsTepLessMode networkInfos with
  | Err e => Some (ErrFailedToListNetworkInfo e)
  | Ok true => Some (NotSupported (resourceType +:+ " is not supported in VLANBackedVPC VPC"))
  | Ok false => None
  end.
Definition CheckAccessModeOrVisibility (networkInfos : result goerr (list (list string))) (accessMode resourceType : string) : option check_error :=
  match IsTepLessMode networkInfos with
  | Err e => Some (ErrFailedToListNetworkInfo e)
  | Ok tepLess =>
      if tepLess && (bool_decide (accessMode = "Private") || bool_decide (accessMode = "PrivateTGW"))
      then Some (NotSupported (if bool_decide (resourceType = "VpcIpAddressAllocation")
             then "IPAddressVisibility other than External is not supported for VLANBackedVPC"
             else "AccessMode other than Public/L2Only is not supported for VLANBackedVPC"))
      else None
  end.
(** ** SubnetSets with [spec.subnetNames], nil for the ones made by the operator *)
Record SubnetSet := mkSubnetSet { set_CR : SubnetSetCR; set_SubnetNames : option (list string) }.
(** ** Requeues *)
Record ctrl_Result := mkResult { Requeue : bool; RequeueAfter : Z }.   (* seconds *)
Definition ResultNormal := mkResult false 0.
Definition ResultRequeueAfter10sec := mkResult false 10.
Definition RequeueResultFromReconcileError (err : option goerr) : ctrl_Result :=
  match err with
  | None => ResultNormal
  | Some _ =>
      match ConvertToRetryAfterError err with
      | Some e => mkResult false (default 0 (RetryAfterSeconds e))
      | None => ResultRequeueAfter10sec
      end
  end.
Definition IsReconcileResultRequeue (r : ctrl_Result) : bool := Requeue r || bool_decide (0 < RequeueAfter r).

(** * Properties *)
(** ** Families of addresses *)
Definition families (t : string) : gset string :=
  if bool_decide (t = "IPv4") then {["IPv4"]} else if bool_decide (t = "IPv6") then {["IPv6"]}
  else if bool_decide (t = "IPv4IPv6") then {["IPv4"; "IPv6"]} else ∅.
Definition address_type (t : string) : Prop := t = "IPv4" \/ t = "IPv6" \/ t = "IPv4IPv6".
Lemma families_two t f : f ∈ families t -> f = "IPv4" \/ f = "IPv6".
Proof. unfold families; repeat case_bool_decide; set_solver. Qed.
Lemma intersect_step_spec a t : address_type a -> address_type t ->
  match intersect_step a t with
  | Ok r => address_type r /\ families r = families a ∩ families t
  | Err _ => families a ∩ families t = ∅
  end.
Proof.
  intros [-> | [-> | ->]] [-> | [-> | ->]]; vm_compute intersect_step; repeat split; try (unfold address_type; naive_solver); vm_compute; reflexivity.
Qed.
Lemma intersect_loop_spec types : forall a, address_type a -> Forall address_type types ->
  match intersect_loop a types with
  | Ok r => address_type r /\ (forall f, f ∈ families r <-> f ∈ families a /\ forall u, u ∈ types -> f ∈ families u)
  | Err _ => forall f, ~ (f ∈ families a /\ forall u, u ∈ types -> f ∈ families u)
  end.
Proof.
  induction types as [|t types IH]; intros a Ha Hall; cbn [intersect_loop].
  { split; [done|]. intros f; set_solver. }
  apply Forall_cons in Hall as [Ht Hall]. pose proof (intersect_step_spec a t Ha Ht) as Hstep.
  destruct (intersect_step a t) as [r|e].
  - destruct Hstep as [Hr Hfam]. specialize (IH r Hr Hall). destruct (intersect_loop r types) as [r'|e'].
    + destruct IH as [Hr' IH]. split; [done|]. intros f. rewrite IH, Hfam. set_solver.
    + intros f [Hf Hus]. apply (IH f). rewrite Hfam. set_solver.
  - intros f [Hf Hus]. assert (f ∈ families a ∩ families t) as Hin by set_solver. rewrite Hstep in Hin. set_solver.
Qed.
(** IntersectIPAddressTypes is the intersection of the families of its
    types: it answers the type whose families are those common to all of them,
    and an error exactly when there is none. *)
Theorem IntersectIPAddressTypes_common types : types <> [] -> Forall address_type types ->
  match IntersectIPAddressTypes types with
  | Ok t => address_type t /\ forall f, f ∈ families t <-> forall u, u ∈ types -> f ∈ families u
  | Err _ => ~ exists f, forall u, u ∈ types -> f ∈ families u
  end.
Proof.
  destruct types as [|a types]; [done|]. intros _ [Ha Hall]%Forall_cons. cbn [IntersectIPAddressTypes].
  pose proof (intersect_loop_spec types a Ha Hall) as Hl. destruct (intersect_loop a types) as [t|e].
  - destruct Hl as [Ht Hf]. split; [done|]. intros f. rewrite Hf. set_solver.
  - intros [f Hf]. apply (Hl f). set_solver.
Qed.
Lemma IntersectIPAddressTypes_common_witness :
  (exists t, IntersectIPAddressTypes ["IPv4IPv6"; "IPv6"; "IPv4IPv6"] = Ok t /\ t = "IPv6") /\
  match IntersectIPAddressTypes ["IPv4IPv6"; "IPv6"; "IPv4IPv6"] with
  | Ok t => address_type t /\ forall f, f ∈ families t <-> forall u, u ∈ ["IPv4IPv6"; "IPv6"; "IPv4IPv6"] -> f ∈ families u
  | Err _ => ~ exists f, forall u, u ∈ ["IPv4IPv6"; "IPv6"; "IPv4IPv6"] -> f ∈ families u
  end.
Proof.
  split; [by eexists|]. apply (IntersectIPAddressTypes_common ["IPv4IPv6"; "IPv6"; "IPv4IPv6"]); [done|].
  repeat constructor; unfold address_type; naive_solver.
Defined.
(** ** Names of ports *)
Lemma trim_right_prefix p s : exists t, s = trim_right_by p s +:+ t.
Proof.
  induction s as [|a s [t IH]]; [by exists ""|]. cbn [trim_right_by].
  destruct (trim_right_by p s) as [|b r] eqn:E.
  - destruct (p a); [by exists (String a s)|]. by exists s.
  - exists t. cbn. by rewrite IH at 1.
Qed.
Lemma trim_right_last p s : forall r a, trim_right_by p s = r +:+ String a "" -> p a = false.
Proof.
  induction s as [|b s IH]; intros r a; cbn [trim_right_by]; [by destruct r|].
  destruct (trim_right_by p s) as [|c t] eqn:E.
  - destruct (p b) eqn:Hb; [by destruct r|]. destruct r as [|d [|]]; cbn; [by intros [= ->]|done..].
  - destruct r as [|d r]; cbn; intros [= -> Heq]. by apply (IH r).
Qed.
Lemma take_str_prefix n s : exists t, s = take_str n s +:+ t.
Proof.
  revert n; induction s as [|a s IH]; intros [|n]; cbn; try by eexists. destruct (IH n) as [t Ht]. exists t. by rewrite <- Ht.
Qed.
(** The name of a Pod's SubnetPort fits a DNS label of 63 bytes, whatever the
    Pod is called: a prefix of its name that ends in neither a hyphen nor a dot,
    a hyphen, and a suffix of at most five bytes. *)
Theorem GenerateSubnetPortName_fits podName podUID attempt random : String.length random = 5%nat ->
  (String.length (GenerateSubnetPortName podName podUID attempt random) <= 63)%nat /\
  exists prefix rest suffix,
    GenerateSubnetPortName podName podUID attempt random = prefix +:+ "-" +:+ suffix /\ podName = prefix +:+ rest /\
    (String.length suffix <= 5)%nat /\ (forall r a, prefix = r +:+ String a "" -> a <> "-"%char /\ a <> "."%char).
Proof.
  intros Hrandom. unfold GenerateSubnetPortName.
  set (suffix := if bool_decide (attempt = 0) then take_str suffixLength podUID else random).
  assert (String.length suffix <= 5)%nat as Hsuf.
  { unfold suffix. case_bool_decide; [rewrite length_take_str; unfold suffixLength|]; lia. }
  set (prefix := trim_right_by is_trailing (take_str maxPodNameLength podName)).
  destruct (trim_right_prefix is_trailing (take_str maxPodNameLength podName)) as [t Ht].
  destruct (take_str_prefix maxPodNameLength podName) as [u Hu]. fold prefix in Ht. split.
  - assert (String.length prefix <= 57)%nat as Hpre.
    { pose proof (f_equal String.length Ht) as Hl. rewrite length_take_str, length_app_str in Hl. unfold maxPodNameLength in Hl. lia. }
    rewrite !length_app_str. change (String.length "-") with 1%nat. lia.
  - exists prefix, (t +:+ u), suffix. split_and!; [done| |done|].
    + by rewrite Hu at 1; rewrite Ht, app_str_assoc.
    + intros r a Heq. apply trim_right_last in Heq. unfold is_trailing in Heq. apply orb_false_iff in Heq as [?%bool_decide_eq_false ?%bool_decide_eq_false]. done.
Qed.
Lemma GenerateSubnetPortName_fits_witness :
  let name := GenerateSubnetPortName "a-very-long-pod-name-that-has-a-hyphen-at-place-fifty-seven-of-it" "12345678-aaaa" 0 "abcde" in
  (String.length name <= 63)%nat /\
  exists prefix rest suffix,
    name = prefix +:+ "-" +:+ suffix /\ "a-very-long-pod-name-that-has-a-hyphen-at-place-fifty-seven-of-it" = prefix +:+ rest /\
    (String.length suffix <= 5)%nat /\ (forall r a, prefix = r +:+ String a "" -> a <> "-"%char /\ a <> "."%char).
Proof. apply (GenerateSubnetPortName_fits _ "12345678-aaaa" 0 "abcde"). reflexivity. Defined.
(** ** Requeues *)
(** A reconcile that failed is tried again, one that did not is not. *)
Lemma requeue_iff_error err : IsReconcileResultRequeue (RequeueResultFromReconcileError err) = bool_decide (is_Some err).
Proof.
  destruct err as [e|]; [|done]. unfold RequeueResultFromReconcileError. rewrite bool_decide_true by eauto.
  destruct (ConvertToRetryAfterError (Some e)) as [r|] eqn:E; [|done].
  assert (exists n, RetryAfterSeconds r = Some n /\ 0 < n) as (n & Hn & Hpos).
  { assert (forall api x, apiErrorToRetryAfterError api = Some x -> exists n, RetryAfterSeconds x = Some n /\ 0 < n) as Hapi.
    { intros api x. unfold apiErrorToRetryAfterError. destruct api as [api|]; [|done]. cbn.
      assert (forall c m d, exists n, RetryAfterSeconds (toNsxPendingDelete c m d) = Some n /\ 0 < n) as Hto.
      { intros [c|] m d; by exists 300. }
      case_match; [intros [= <-]; apply Hto|]. destruct (List.find _ _) as [rel|]; [intros [= <-]; apply Hto|done]. }
    unfold ConvertToRetryAfterError in E. destruct (AsRetryAfterError (Some e)) as [r'|] eqn:Ea.
    - injection E as ->. unfold AsRetryAfterError, errors_As in Ea. cbn in Ea.
      apply head_Some_elem_of in Ea. apply list_elem_of_omap in Ea as (x & _ & Hx).
      destruct (RetryAfterSeconds x) as [n|] eqn:Er; [|done]. injection Hx as ->. exists n. split; [done|].
      destruct r; try done. destruct k; try done. by injection Er as <-.
    - destruct (apiErrorToRetryAfterError _) eqn:E1 in E; [injection E as ->; by eapply Hapi|by eapply Hapi]. }
  unfold IsReconcileResultRequeue; cbn. rewrite Hn. cbn. by apply bool_decide_eq_true.
Qed.
(** ** Conditions *)
Lemma set_condition_other cs new t : t <> pc_Type new -> filter (fun c => pc_Type c = t) (set_condition cs new) = filter (fun c => pc_Type c = t) cs.
Proof.
  intros Ht. induction cs as [|c cs IH]; [done|]. cbn [set_condition]. case_bool_decide as Hc.
  - rewrite !filter_cons. cbn. rewrite !decide_False by congruence. done.
  - rewrite !filter_cons. by rewrite IH.
Qed.
Lemma merge_other cs new t : t <> pc_Type new ->
  filter (fun c => pc_Type c = t) (MergePodStatusCondition cs new).1 = filter (fun c => pc_Type c = t) cs.
Proof.
  intros Ht. unfold MergePodStatusCondition. case_match; [done|]. case_match; cbn; [by apply set_condition_other|].
  rewrite filter_app, filter_cons, decide_False by congruence. by rewrite app_nil_r.
Qed.
Lemma merge_sets cs new : isPodConditionSemanticEqual (GetExistingPodConditionOfType (pc_Type new) (MergePodStatusCondition cs new).1) new = true.
Proof.
  unfold MergePodStatusCondition. destruct (isPodConditionSemanticEqual (GetExistingPodConditionOfType (pc_Type new) cs) new) eqn:E; [done|].
  unfold GetExistingPodConditionOfType in *. destruct (head (filter _ cs)) as [m|] eqn:Em; cbn.
  - clear E. induction cs as [|c cs IH]; [done|]. cbn [set_condition]. rewrite filter_cons in Em. case_bool_decide as Hc.
    + rewrite filter_cons. cbn. rewrite decide_True by done. cbn. by rewrite ?bool_decide_eq_true_2.
    + rewrite decide_False in Em by done. rewrite filter_cons, decide_False by done. by apply IH.
  - destruct (filter _ cs) eqn:F; [|done]. rewrite filter_app, F, filter_cons, decide_True by done. cbn. by rewrite ?bool_decide_eq_true_2.
Qed.
(** Sending the same conditions again changes nothing. *)
Lemma update_conditions_settled cs new : NoDup (map pc_Type new) ->
  UpdatePodStatusConditions (UpdatePodStatusConditions cs new).1 new = ((UpdatePodStatusConditions cs new).1, false).
Proof.
  intros Hnd. unfold UpdatePodStatusConditions.
  assert (forall l st, (forall c, c ∈ l -> isPodConditionSemanticEqual (GetExistingPodConditionOfType (pc_Type c) st.1) c = true) ->
    foldl merge_step st l = st) as Hidle.
  { induction l as [|c l IH]; [done|]. intros [cs0 b] Hall. cbn [foldl]. assert (merge_step (cs0, b) c = (cs0, b)) as ->.
    { unfold merge_step, MergePodStatusCondition. rewrite Hall by set_solver. cbn. by rewrite orb_false_r. }
    apply IH. intros c' Hc'. apply Hall. set_solver. }
  assert (forall l st, (forall t, t ∉ map pc_Type l -> filter (fun c => pc_Type c = t) (foldl merge_step st l).1 = filter (fun c => pc_Type c = t) st.1)) as Hkeep.
  { induction l as [|c l IH]; [done|]. intros st t Ht. cbn [foldl]. rewrite IH by set_solver.
    unfold merge_step. pose proof (merge_other st.1 c t) as Hm. destruct (MergePodStatusCondition st.1 c). apply Hm. set_solver. }
  apply Hidle. clear Hidle. generalize (cs, false). induction new as [|c new IH]; intros st c' Hc'; [set_solver|].
  apply NoDup_cons in Hnd as [Hni Hnd]. cbn [foldl]. apply elem_of_cons in Hc' as [-> | Hc']; [|by apply IH].
  unfold GetExistingPodConditionOfType. cbn [fst]. rewrite Hkeep by done. unfold merge_step. pose proof (merge_sets st.1 c) as Hm.
  destruct (MergePodStatusCondition st.1 c). apply Hm.
Qed.
