(* ===== verification/Webhooks.v ===== *)
(** * The admission webhooks: what users may ask for

    The validating webhooks of Subnets, SubnetSets, IPAddressAllocations,
    AddressBindings and StaticRoutes (the *_webhook.go files of pkg/controllers).
    The reads of a handler see one state of the cluster, the class [Cluster]. A
    denied answer carries the error whose text it shows; an error printed into
    another with %v is the text before it. *)
From S2P Require Import Prelude GoStrings GoNet Errors NsxUtil IPUtil Names Subnet IPAllocation CtlCommon.

(** ** Requests and answers *)
Inductive operation := Create | Update | Delete | Connect.
#[global] Instance operation_eq_dec : EqDecision operation.
Proof. solve_decision. Defined.
(** A request with what its two objects decode to. *)
Record request (A : Type) := mkRequest {
  rq_Operation : operation; rq_Username : string; rq_Namespace : string;
  rq_Object : result goerr A; rq_OldObject : result goerr A }.
Arguments mkRequest {A}. Arguments rq_Operation {A}. Arguments rq_Username {A}. Arguments rq_Namespace {A}.
Arguments rq_Object {A}. Arguments rq_OldObject {A}.
Inductive response := Allowed | Denied (e : goerr) | Errored (code : Z) (e : goerr).
Definition NSXOperatorSA := "system:serviceaccount:vmware-system-nsx:ncp-svc-account".
Definition StatusBadRequest := 400.
Definition StatusInternalServerError := 500.
Definition StatusServiceUnavailable := 503.
Definition denied (msg : string) : response := Denied (EText msg).
(** [err != nil] returns early. *)
Definition or_else (r : option response) (k : response) : response := match r with Some r => r | None => k end.
Definition deny_if (b : bool) (msg : string) : option response := if b then Some (denied msg) else None.
Definition deny_error (prefix : string) (e : option string) : option response :=
  match e with Some m => Some (denied (prefix +:+ m)) | None => None end.
(** What a checked network stack answers. *)
Definition check_response (e : option check_error) : option response :=
  match e with
  | None => None
  | Some (ErrFailedToListNetworkInfo e) => Some (Errored StatusServiceUnavailable e)
  | Some (NotSupported m) => Some (denied m)
  end.
Definition bad_request {A} (r : result goerr A) (k : A -> response) : response :=
  match r with Err e => Errored StatusBadRequest e | Ok a => k a end.
(** The operation decides which object is decoded. *)
Definition decoded {A} (req : request A) : result goerr A :=
  if bool_decide (rq_Operation req = Delete) then rq_OldObject req else rq_Object req.

(** ** The cluster the webhooks read *)
Record SubnetPortCR := mkSubnetPortCR { spc_Name : string; spc_UID : string; spc_Subnet : string; spc_SubnetSet : string }.
Record Binding := mkBinding { bd_Namespace : string; bd_Name : string; bd_VMName : string; bd_InterfaceName : string; bd_IPAddressAllocationName : string }.
#[global] Instance Binding_eq_dec : EqDecision Binding.
Proof. solve_decision. Defined.
(** A Service: its name and [spec.loadBalancerIP]. *)
Definition service : Type := string * string.
Class Cluster := {
  networkStacks : string -> result goerr (list (list string));      (* of the VPCs of the NetworkInfos of a Namespace *)
  listSubnetPorts : string -> result goerr (list SubnetPortCR);
  subnetPortsOf : string -> string -> result goerr (list string);   (* names, by Namespace and spec.subnet *)
  reservationsOf : string -> string -> result goerr (list string);
  listSubnetSets : string -> result goerr (list SubnetSet);
  listPods : string -> result goerr (list string);                  (* UIDs *)
  listServices : string -> result goerr (list service);
  getSubnet : string -> string -> result goerr SubnetCR;
  getAllocation : string -> string -> result goerr IPAddressAllocation;
  bindingsOfAllocation : string -> string -> result goerr (list string);
  routesOfAllocation : string -> string -> result goerr (list string);
  bindingsOfVM : string -> string -> result goerr (list Binding);   (* by Namespace and VM, any Namespace of that name *)
  nsxSubnetPath : SubnetCR -> result goerr string;                  (* GetSubnetByCR: the path *)
  portSubnetPath : string -> string;                                (* GetSubnetPathForSubnetPortFromStore, by UID *)
  vpcInfos : string -> list VPCResourceInfo;                        (* ListVPCInfo *)
  minimalSize8 : bool;                                              (* NSXCheckVersion(SubnetMinimalSize8) *)
  ip_family : option string }.                                      (* K8sConfig.IPFamily, None without configuration *)
(** [ParseIPFamily] *)
Definition ParseIPFamily (s : string) : string :=
  let t := to_lower (trim_space s) in
  if bool_decide (t = "ipv6") then "IPv6" else if bool_decide (t = "dualstack") then "IPv4IPv6" else "IPv4".

Section Handlers.
Context {C : Cluster}.
(** The families of a resource and of the supervisor must meet. *)
Definition supervisor_check (kind ipAddressType : string) : option response :=
  if bool_decide (ipAddressType = "") then None
  else match ip_family with
  | None => None
  | Some f =>
      match IntersectIPAddressTypes [ipAddressType; ParseIPFamily f] with
      | Ok _ => None
      | Err _ => Some (denied (kind +:+ " IPAddressType " +:+ ipAddressType +:+ " does not intersect with supervisor IP family " +:+ ParseIPFamily f))
      end
  end.
(** *** Subnets *)
Definition shared (s : SubnetCR) : bool := IsSharedSubnet (m_Annotations (sub_meta s)).
Definition qualified (m : meta) : string := m_Namespace m +:+ "/" +:+ m_Name m.
Definition subnet_create (user : bool) (s : SubnetCR) : option response :=
  let name := "Subnet " +:+ qualified (sub_meta s) in
  let '(valid, msg) := ValidateSubnetSize minimalSize8 (sp_IPv4SubnetSize (sub_spec s)) in
  if negb valid then Some (denied (name +:+ " has invalid size " +:+ itoa (sp_IPv4SubnetSize (sub_spec s)) +:+ ": " +:+ msg))
  else if shared s && user then Some (denied ("Shared " +:+ name +:+ " can only be created by NSX Operator"))
  else if user then
    if negb (bool_decide (sp_VPCName (sub_spec s) = "")) then Some (denied (name +:+ ": spec.vpcName can only be set by NSX Operator"))
    else if negb (bool_decide (sp_VLANConnectionName (sub_spec s) = "")) then Some (denied (name +:+ ": spec.vlanConnectionName can only be set by NSX Operator"))
    else deny_if (bool_decide (sp_AccessMode (sub_spec s) = "L2Only")) (name +:+ ": spec.accessMode L2Only is not supported")
  else None.
(** The fields that an update by a user may not change, or only widen. *)
Definition subnet_transition (old new : SubnetSpec) : option string :=
  let ot := sp_IPAddressType old in let nt := sp_IPAddressType new in
  match ValidateIPAddressTypeTransition ot nt with Some m => Some m | None =>
  match ValidateAccessModeTransition (sp_AccessMode old) (sp_AccessMode new) ot nt with Some m => Some m | None =>
  match ValidateIPAddressesTransition (sp_IPAddresses old) (sp_IPAddresses new) ot nt with Some m => Some m | None =>
  ValidateIPBlockNamesTransition (sp_IPBlockNames old) (sp_IPBlockNames new) ot nt end end end.
Definition subnet_update (user : bool) (old s : SubnetCR) : option response :=
  let name := "Subnet " +:+ qualified (sub_meta s) in
  if (shared old || shared s) && user then Some (denied ("Shared " +:+ name +:+ " can only be updated by NSX Operator"))
  else if user then
    if negb (bool_decide (sp_VPCName (sub_spec old) = sp_VPCName (sub_spec s))) then Some (denied (name +:+ ": spec.vpcName can only be updated by NSX Operator"))
    else if negb (bool_decide (sp_VLANConnectionName (sub_spec old) = sp_VLANConnectionName (sub_spec s)))
    then Some (denied (name +:+ ": spec.vlanConnectionName can only be updated by NSX Operator"))
    else deny_error "Subnet " (subnet_transition (sub_spec old) (sub_spec s))
  else None.
Definition checkSubnetPort (ns subnetName : string) : result goerr bool :=
  match subnetPortsOf ns subnetName with
  | Err _ => Err (EText "failed to list SubnetPort: ")
  | Ok l => Ok (negb (bool_decide (l = [])))
  end.
Definition checkSubnetIPReservation (ns subnetName : string) : result goerr bool :=
  match reservationsOf ns subnetName with
  | Err _ => Err (EText "failed to list SubnetIPReservations: ")
  | Ok l => Ok (negb (bool_decide (l = [])))
  end.
Definition refers_to (subnetName : string) (s : SubnetSet) : bool := bool_decide (subnetName ∈ default [] (set_SubnetNames s)).
Definition checkSubnetSet (ns subnetName : string) : result goerr bool :=
  match listSubnetSets ns with
  | Err _ => Err (EText "failed to list SubnetSet: ")
  | Ok l => Ok (existsb (refers_to subnetName) l)
  end.
Definition subnet_delete (user : bool) (old s : SubnetCR) : response :=
  let ns := m_Namespace (sub_meta s) in let n := m_Name (sub_meta s) in
  let name := "Subnet " +:+ qualified (sub_meta s) in
  if (shared old || shared s) && user then denied ("Shared " +:+ name +:+ " can only be deleted by NSX Operator")
  else bad_request (checkSubnetSet ns n) (fun referred =>
    if referred : bool then denied (name +:+ " used by SubnetSet cannot be deleted")
    else if user then
      bad_request (checkSubnetPort ns n) (fun ports =>
        if ports : bool then denied (name +:+ " with stale SubnetPorts cannot be deleted")
        else bad_request (checkSubnetIPReservation ns n) (fun reserved =>
          if reserved : bool then denied (name +:+ " with stale SubnetIPReservations cannot be deleted") else Allowed))
    else Allowed).
Definition by_user {A} (req : request A) : bool := negb (bool_decide (rq_Username req = NSXOperatorSA)).
(** What is checked last, unless the Subnet is deleted. *)
Definition subnet_checks (s : SubnetCR) : response :=
  or_else (check_response (CheckAccessModeOrVisibility (networkStacks (m_Namespace (sub_meta s))) (sp_AccessMode (sub_spec s)) "subnet"))
    (or_else (supervisor_check "Subnet" (sp_IPAddressType (sub_spec s))) Allowed).
Definition SubnetValidator_Handle (req : request SubnetCR) : response :=
  bad_request (decoded req) (fun s =>
    match rq_Operation req with
    | Create => or_else (subnet_create (by_user req) s) (subnet_checks s)
    | Update => bad_request (rq_OldObject req) (fun old => or_else (subnet_update (by_user req) old s) (subnet_checks s))
    | Delete => bad_request (rq_OldObject req) (fun old => subnet_delete (by_user req) old s)
    | Connect => subnet_checks s
    end).
(** *** SubnetSets *)
Inductive SubnetSetType := PreCreated | AutoCreated | NoType.
#[global] Instance SubnetSetType_eq_dec : EqDecision SubnetSetType.
Proof. solve_decision. Defined.
Definition names_set (s : SubnetSet) : bool := bool_decide (is_Some (set_SubnetNames s)).
(** One of the fields of an auto-created SubnetSet is there. *)
Definition auto_fields (s : SubnetSetCR) : bool :=
  negb (bool_decide (ss_IPv4SubnetSize s = 0)) || negb (bool_decide (ss_IPv6PrefixLength s = 0)) || negb (bool_decide (ss_AccessMode s = "")) ||
  negb (bool_decide (ss_DHCPMode s = "")) || negb (bool_decide (ss_DHCPv6Mode s = "")).
Definition defaultSubnetSetLabelChanged (old s : SubnetSet) : bool :=
  negb (bool_decide (m_Labels (ss_meta (set_CR old)) !! "nsx.vmware.com/default-network" = m_Labels (ss_meta (set_CR s)) !! "nsx.vmware.com/default-network")).
Definition hasExclusiveFields (s : SubnetSet) : bool := names_set s && auto_fields (set_CR s).
Definition subnetSetType (s : SubnetSet) : SubnetSetType :=
  if names_set s then PreCreated else if auto_fields (set_CR s) then AutoCreated else NoType.
Definition switchSubnetSetType (old new : SubnetSet) : option string :=
  let typeOld := subnetSetType old in let typeNew := subnetSetType new in
  if negb (bool_decide (typeOld = typeNew)) && negb (bool_decide (typeOld = NoType)) && negb (bool_decide (typeNew = NoType))
  then Some "SubnetSet type cannot be switched between Pre-created and Auto-created"
  else if names_set old && negb (names_set new) then Some "SubnetName should at least have value like subnetNames:[]" else None.
(** The SubnetPorts (or Pods) that a default SubnetSet serves without naming it. *)
Definition unplaced (p : SubnetPortCR) : bool := bool_decide (spc_SubnetSet p = "") && bool_decide (spc_Subnet p = "").
Definition default_users (s : SubnetSet) (ports : list SubnetPortCR) : result goerr (list string) :=
  let m := ss_meta (set_CR s) in
  if negb (IsDefaultSubnetSet m) then Ok []
  else if bool_decide (GetSubnetSetKind (m_Labels m) = "pod") then
    match listPods (m_Namespace m) with Err _ => Err (EText "failed to list Pod: ") | Ok pods => Ok pods end
  else if bool_decide (GetSubnetSetKind (m_Labels m) = "vm") then Ok (map spc_UID (filter (fun p => unplaced p = true) ports))
  else Ok [].
Definition names_it (s : SubnetSet) (p : SubnetPortCR) : Prop := spc_SubnetSet p = m_Name (ss_meta (set_CR s)).
#[global] Instance names_it_dec s p : Decision (names_it s p).
Proof. unfold names_it. apply _. Defined.
Definition SubnetSet_checkSubnetPort (s : SubnetSet) : result goerr bool :=
  match listSubnetPorts (m_Namespace (ss_meta (set_CR s))) with
  | Err _ => Err (EText "failed to list SubnetPort: ")
  | Ok ports =>
      if bool_decide (filter (names_it s) ports = []) then
        match default_users s ports with Err e => Err e | Ok users => Ok (negb (bool_decide (users = []))) end
      else Ok true
  end.
Definition getSubnetPortsID (s : SubnetSet) : result goerr (list string) :=
  match listSubnetPorts (m_Namespace (ss_meta (set_CR s))) with
  | Err _ => Err (EText "failed to list SubnetPort: ")
  | Ok ports =>
      match default_users s ports with Err e => Err e | Ok users => Ok (map spc_UID (filter (names_it s) ports) ++ users) end
  end.
Definition usedSubnetPaths (ids : list string) : list string := filter (fun p => p <> "") (map portSubnetPath ids).
(** Whether none of the Subnets is used. *)
Fixpoint removable (ns : string) (used : list string) (subnetNames : list string) : result goerr bool :=
  match subnetNames with
  | [] => Ok true
  | n :: names =>
      match getSubnet ns n with
      | Err _ => Err (EText ("failed to get Subnet " +:+ ns +:+ "/" +:+ n +:+ ": "))
      | Ok cr =>
          match nsxSubnetPath cr with
          | Err _ => Err (EText ("failed to get NSX Subnet " +:+ ns +:+ "/" +:+ n +:+ ": "))
          | Ok path => if bool_decide (path ∈ used) then Ok false else removable ns used names
          end
      end
  end.
Definition validateRemovedSubnets (s : SubnetSet) (subnetNames : list string) : result goerr bool :=
  match getSubnetPortsID s with
  | Err _ => Err (EText "failed to get SubnetPort IDs: ")
  | Ok ids => removable (m_Namespace (ss_meta (set_CR s))) (usedSubnetPaths ids) subnetNames
  end.
Definition getVPCPath (ns : string) : result goerr string :=
  match vpcInfos ns with
  | [] => Err (EText ("failed to get VPC Info " +:+ ns))
  | v :: _ => Ok ("/orgs/" +:+ OrgID v +:+ "/projects/" +:+ ProjectID v +:+ "/vpcs/" +:+ VPCID v)
  end.
Definition crd_spec (s : SubnetSpec) : subnetSpec := mkSubnetSpec (sp_DHCPMode s) (sp_DHCPv6Mode s) (sp_IPAddressType s).
Definition getEffectiveStaticIPAllocation (s : SubnetSpec) : bool :=
  match sp_StaticEnabled s with Some b => b | None => GetDefaultStaticIPAllocation (crd_spec s) end.
Definition getEffectiveDHCPMode (s : SubnetSpec) : string := if bool_decide (sp_DHCPMode s = "") then "DHCPDeactivated" else sp_DHCPMode s.
Definition getEffectiveDHCPv6Mode (s : SubnetSpec) : string := if bool_decide (sp_DHCPv6Mode s = "") then "DHCPDeactivated" else sp_DHCPv6Mode s.
(** What the loop remembers: the first Subnet, the VPC of the Namespace once it
    is read and the VPC of the Subnets. *)
Record seen := mkSeen { sn_first : option SubnetSpec; sn_namespaceVpc : string; sn_existingVPC : string }.
Definition no_seen : seen := mkSeen None "" "".
(** An error with its [deny] flag. *)
Definition rejected {A} (msg : string) : result (bool * goerr) A := Err (true, EText msg).
Definition go_bool (b : bool) : string := if b then "true" else "false".
Definition subnet_supported (setType : string) (cr : SubnetCR) : result (bool * goerr) unit :=
  let sp := sub_spec cr in
  if bool_decide (getEffectiveDHCPMode sp = "DHCPRelay") then rejected ("DHCPRelay Subnet " +:+ qualified (sub_meta cr) +:+ " is not supported in SubnetSet")
  else if bool_decide (getEffectiveDHCPv6Mode sp = "DHCPRelay") || bool_decide (sp_DHCPv6Mode sp = "DHCPServerStateless")
  then rejected ("DHCPRelay or DHCPServerStateless Subnet " +:+ qualified (sub_meta cr) +:+ " is not supported in SubnetSet")
  else if negb (bool_decide (setType = "")) && negb (IsSupersetIPAddressTypes (sp_IPAddressType sp) setType)
  then rejected ("Subnet " +:+ m_Name (sub_meta cr) +:+ " with IPAddressType " +:+ sp_IPAddressType sp +:+ " cannot be added to SubnetSet of IPAddressType " +:+ setType)
  else Ok tt.
(** A later Subnet against the first one. *)
Definition different (name field fields a b : string) : string :=
  "Subnets in SubnetSet " +:+ name +:+ " must have the same " +:+ field +:+ ", found different " +:+ fields +:+ ": [" +:+ a +:+ ", " +:+ b +:+ "]".
Definition same_as_first (name expected : string) (f sp : SubnetSpec) : result (bool * goerr) unit :=
  let v4 := IPAddressTypeIncludesIPv4 expected in let v6 := IPAddressTypeIncludesIPv6 expected in
  let fs := getEffectiveStaticIPAllocation f in let s := getEffectiveStaticIPAllocation sp in
  if v4 && negb (bool_decide (sp_AccessMode f = sp_AccessMode sp))
  then rejected (different name "AccessMode" "AccessModes" (sp_AccessMode f) (sp_AccessMode sp))
  else if v4 && negb (bool_decide (getEffectiveDHCPMode f = getEffectiveDHCPMode sp))
  then rejected (different name "DHCPConfigMode" "DHCPConfigModes" (getEffectiveDHCPMode f) (getEffectiveDHCPMode sp))
  else if v6 && negb (bool_decide (getEffectiveDHCPv6Mode f = getEffectiveDHCPv6Mode sp))
  then rejected (different name "DHCPv6ConfigMode" "DHCPv6ConfigModes" (getEffectiveDHCPv6Mode f) (getEffectiveDHCPv6Mode sp))
  else if negb (bool_decide (fs = s)) then rejected (different name "StaticIPAllocation" "StaticIPAllocations" (go_bool fs) (go_bool s))
  else Ok tt.
(** The VPC of a Subnet, and the VPC of the Namespace when it had to be read.
    [strings.Split(path, "/subnets/")[0]]: the text before it. *)
Fixpoint before (sub s : string) : string :=
  if has_prefix sub s then "" else match s with "" => "" | String a s' => String a (before sub s') end.
Definition vpc_of (ns : string) (namespaceVpc : string) (cr : SubnetCR) : result (bool * goerr) (string * string) :=
  match m_Annotations (sub_meta cr) !! "nsx.vmware.com/associated-resource" with
  | Some associated =>
      match GetSubnetPathFromAssociatedResource associated with
      | None => Err (false, EText ("failed to parse associated resource annotation " +:+ associated))
      | Some path => Ok (before "/subnets/" path, namespaceVpc)
      end
  | None =>
      if bool_decide (namespaceVpc = "") then
        match getVPCPath ns with Err e => Err (false, e) | Ok v => Ok (v, v) end
      else Ok (namespaceVpc, namespaceVpc)
  end.
Definition subnet_step (ns subnetSet setType expected : string) (st : seen) (subnetName : string) : result (bool * goerr) seen :=
  match getSubnet ns subnetName with
  | Err _ => Err (false, EText ("failed to get Subnet " +:+ ns +:+ "/" +:+ subnetName +:+ ": "))
  | Ok cr =>
      _ ← subnet_supported setType cr;
      _ ← (match sn_first st with None => Ok tt | Some f => same_as_first (ns +:+ "/" +:+ subnetSet) expected f (sub_spec cr) end);
      v ← vpc_of ns (sn_namespaceVpc st) cr;
      let existing := if bool_decide (sn_existingVPC st = "") then v.1 else sn_existingVPC st in
      if bool_decide (existing = v.1) then Ok (mkSeen (Some (default (sub_spec cr) (sn_first st))) v.2 existing)
      else rejected ("Subnets under SubnetSet " +:+ ns +:+ "/" +:+ subnetSet +:+ " are from different VPCs")
  end.
Definition read_type (ns name : string) : result goerr string := cr ← getSubnet ns name; Ok (sp_IPAddressType (sub_spec cr)).
Definition expected_type (ns : string) (subnetNames : option (list string)) (setType : string) : result goerr string :=
  GetPrecreatedSubnetSetIPAddressType (read_type ns) subnetNames setType (match ip_family with Some f => ParseIPFamily f | None => "IPv4" end).
Definition validateSubnets (ns : string) (subnetNames : option (list string)) (subnetSet setType : string) : result (bool * goerr) unit :=
  match subnetNames with
  | None => Ok tt
  | Some names =>
      match expected_type ns subnetNames setType with
      | Err _ => rejected "failed to calculate expected IPAddressType for SubnetSet: "
      | Ok expected => _ ← range_result (subnet_step ns subnetSet setType expected) no_seen names; Ok tt
      end
  end.
Definition subnets_response (r : result (bool * goerr) unit) : option response :=
  match r with
  | Ok _ => None
  | Err (true, e) => Some (Denied e)
  | Err (false, e) => Some (Errored StatusBadRequest e)
  end.
Definition validated (s : SubnetSet) : option response :=
  let m := ss_meta (set_CR s) in
  subnets_response (validateSubnets (m_Namespace m) (set_SubnetNames s) (m_Name m) (ss_IPAddressType (set_CR s))).
Definition set_create (user : bool) (s : SubnetSet) : option response :=
  let cr := set_CR s in
  let '(valid, msg) := ValidateSubnetSize minimalSize8 (ss_IPv4SubnetSize cr) in
  if negb valid then Some (denied ("SubnetSet " +:+ qualified (ss_meta cr) +:+ " has invalid size " +:+ itoa (ss_IPv4SubnetSize cr) +:+ ": " +:+ msg))
  else if IsDefaultSubnetSet (ss_meta cr) && user then Some (denied "default SubnetSet only can be created by nsx-operator")
  else if names_set s && negb (bool_decide (ss_IPAddressType cr = "")) && user
  then Some (denied "Pre-created SubnetSet spec.ipAddressType can only be set by NSX Operator")
  else validated s.
(** Whether the Subnets an update removes may go; asked under the write lock. *)
Definition removal_check (old s : SubnetSet) : option response :=
  match set_SubnetNames old, set_SubnetNames s with
  | Some oldNames, Some names =>
      let removed := DiffArrays oldNames names in
      match validateRemovedSubnets s removed with
      | Err e => Some (Errored StatusBadRequest e)
      | Ok false => Some (denied ("Subnets " +:+ fmt_strs removed +:+ " on SubnetSet " +:+ qualified (ss_meta (set_CR s)) +:+ " used by SubnetPorts cannot be removed"))
      | Ok true => None
      end
  | _, _ => None
  end.
Definition set_transition (old s : SubnetSetCR) : option string :=
  match ValidateIPAddressTypeTransition (ss_IPAddressType old) (ss_IPAddressType s) with
  | Some m => Some m
  | None => ValidateAccessModeTransition (ss_AccessMode old) (ss_AccessMode s) (ss_IPAddressType old) (ss_IPAddressType s)
  end.
Definition set_update (user : bool) (old s : SubnetSet) : option response :=
  if (IsDefaultSubnetSet (ss_meta (set_CR s)) || IsDefaultSubnetSet (ss_meta (set_CR old))) && user
  then Some (denied "default SubnetSet only can be updated by nsx-operator")
  else if defaultSubnetSetLabelChanged old s && user
  then Some (denied "SubnetSet label nsx.vmware.com/default-network can only be updated by NSX Operator")
  else if names_set s && negb (bool_decide (ss_IPAddressType (set_CR s) = ss_IPAddressType (set_CR old))) && user
  then Some (denied "Pre-created SubnetSet spec.ipAddressType can only be set by NSX Operator")
  else match (if names_set s then None else deny_error "SubnetSet " (set_transition (set_CR old) (set_CR s))) with
  | Some r => Some r
  | None =>
      match validated s with
      | Some r => Some r
      | None =>
          match switchSubnetSetType old s with
          | Some msg => Some (denied msg)
          | None => removal_check old s
          end
      end
  end.
Definition set_delete (user : bool) (s : SubnetSet) : response :=
  if IsDefaultSubnetSet (ss_meta (set_CR s)) && user then denied "default SubnetSet only can be deleted by nsx-operator"
  else bad_request (SubnetSet_checkSubnetPort s) (fun used =>
    if used : bool then denied ("SubnetSet " +:+ qualified (ss_meta (set_CR s)) +:+ " with stale SubnetPorts cannot be deleted") else Allowed).
Definition set_checks (s : SubnetSet) : response :=
  let cr := set_CR s in
  if hasExclusiveFields s then denied "SubnetSet spec.subnetNames is exclusive with spec.ipv4SubnetSize, spec.accessMode and spec.subnetDHCPConfig"
  else or_else (check_response (CheckAccessModeOrVisibility (networkStacks (m_Namespace (ss_meta cr))) (ss_AccessMode cr) "subnetset"))
    (or_else (supervisor_check "SubnetSet" (ss_IPAddressType cr)) Allowed).
Definition SubnetSetValidator_Handle (req : request SubnetSet) : response :=
  bad_request (decoded req) (fun s =>
    match rq_Operation req with
    | Create => or_else (set_create (by_user req) s) (set_checks s)
    | Update => bad_request (rq_OldObject req) (fun old => or_else (set_update (by_user req) old s) (set_checks s))
    | Delete => set_delete (by_user req) s
    | Connect => set_checks s
    end).
(** *** IPAddressAllocations *)
Definition ifIPUsed (loadBalancerIP ipRange : string) : bool :=
  match ParseIP loadBalancerIP with
  | None => false
  | Some ip =>
      match ParseCIDR ipRange with
      | Some (_, ipNet) => IPNet_Contains ipNet ip
      | None => match ParseIP ipRange with Some rangeIP => IP_Equal ip rangeIP | None => false end
      end
  end.
(** [ready]: the first condition is of the type Ready. *)
Fixpoint service_using (allocationIPs : string) (svcs : list service) : option service :=
  match svcs with
  | [] => None
  | (name, lbIP) :: svcs' =>
      if negb (bool_decide (lbIP = "")) && ifIPUsed lbIP allocationIPs then Some (name, lbIP) else service_using allocationIPs svcs'
  end.
Definition validateServiceVIP (ns : string) (ready : bool) (o : IPAddressAllocation) : response :=
  if negb ready then Allowed
  else match listServices ns with
  | Err e => Errored StatusInternalServerError e
  | Ok svcs =>
      match service_using (ac_Status_AllocationIPs o) svcs with
      | Some (name, lbIP) =>
          denied ("cannot delete IPAddressAllocation " +:+ m_Name (ac_meta o) +:+ ": IP " +:+ lbIP +:+ " is still in use by Service " +:+ name)
      | None => Allowed
      end
  end.
(** An IPAddressAllocation with the types of its conditions. *)
Record AllocationObject := mkAllocationObject { ao_CR : IPAddressAllocation; ao_Conditions : list string }.
Definition allocation_visibility (o : IPAddressAllocation) : string :=
  if bool_decide (ac_IPAddressType o = "IPv6") then ""
  else if bool_decide (ac_IPAddressBlockVisibility o = "") then "Private" else ac_IPAddressBlockVisibility o.
Definition used_by (kind : string) (o : IPAddressAllocation) (l : result goerr (list string)) : option response :=
  match l with
  | Err e => Some (Errored StatusBadRequest e)
  | Ok (n :: _) => Some (denied ("IPAddressAllocation " +:+ m_Name (ac_meta o) +:+ " is used by " +:+ kind +:+ " " +:+ n))
  | Ok [] => None
  end.
Definition allocation_delete (ns : string) (a : AllocationObject) : response :=
  let o := ao_CR a in let m := ac_meta o in
  or_else (used_by "AddressBinding" o (bindingsOfAllocation (m_Namespace m) (m_Name m)))
    (or_else (used_by "StaticRoute" o (routesOfAllocation (m_Namespace m) (m_Name m)))
       (validateServiceVIP ns (match ao_Conditions a with t :: _ => bool_decide (t = "Ready") | [] => false end) o)).
Definition IPAddressAllocationValidator_Handle (req : request AllocationObject) : response :=
  bad_request (decoded req) (fun a =>
    let o := ao_CR a in
    if bool_decide (rq_Operation req = Delete) then allocation_delete (rq_Namespace req) a
    else if bool_decide (allocation_visibility o = "") then Allowed
    else or_else (check_response (CheckAccessModeOrVisibility (networkStacks (m_Namespace (ac_meta o))) (allocation_visibility o) "VpcIpAddressAllocation")) Allowed).
(** *** AddressBindings and StaticRoutes *)
Definition binding_conflict (b : Binding) (existing : list Binding) : bool :=
  let hasDefault := bool_decide (bd_InterfaceName b = "") || existsb (fun e => bool_decide (bd_InterfaceName e = "")) existing in
  existsb (fun e => negb (bool_decide (bd_Name b = bd_Name e)) && (hasDefault || bool_decide (bd_InterfaceName b = bd_InterfaceName e))) existing.
Definition binding_create (b : Binding) : option response :=
  match bindingsOfVM (bd_Namespace b) (bd_VMName b) with
  | Err e => Some (Errored StatusInternalServerError e)
  | Ok existing => deny_if (binding_conflict b existing) "interface already has AddressBinding"
  end.
Definition binding_update (old b : Binding) : option response :=
  deny_if (negb (bool_decide (bd_VMName b = bd_VMName old)) || negb (bool_decide (bd_InterfaceName b = bd_InterfaceName old)))
    "update AddressBinding vmName/interfaceName is not allowed".
Definition binding_allocation (b : Binding) : response :=
  if bool_decide (bd_IPAddressAllocationName b = "") then Allowed
  else match getAllocation (bd_Namespace b) (bd_IPAddressAllocationName b) with
  | Err _ => denied ("IPAddressAllocation " +:+ bd_IPAddressAllocationName b +:+ " does not exist")
  | Ok a =>
      let v6 := bool_decide (ac_IPAddressType a = "IPv6") in
      if negb v6 && negb (bool_decide (ac_IPAddressBlockVisibility a = "External"))
      then denied ("IPBlock visibility of IPAddressAllocation must be " +:+ String "034" "External" +:+ String "034" "")
      else if negb (bool_decide (ac_AllocationIPs a = "")) && negb (bool_decide (is_Some (ParseIP (ac_AllocationIPs a))))
      then denied "IPAddressAllocation must be a single IP"
      else if bool_decide (ac_AllocationIPs a = "") then
        if v6 then if bool_decide (ac_IPv6AllocationPrefixLength a = 128) then Allowed else denied "IPAddressAllocation must be a single IP"
        else if bool_decide (ac_AllocationSize a = 1) then Allowed else denied "IPAddressAllocation must be a single IP"
      else Allowed
  end.
Definition AddressBindingValidator_Handle (req : request Binding) : response :=
  if bool_decide (rq_Operation req = Delete) then Allowed
  else bad_request (rq_Object req) (fun b =>
    or_else (check_response (CheckNetworkStack (networkStacks (rq_Namespace req)) "AddressBinding"))
      (match rq_Operation req with
       | Create => or_else (binding_create b) (binding_allocation b)
       | Update => bad_request (rq_OldObject req) (fun old => or_else (binding_update old b) (binding_allocation b))
       | _ => binding_allocation b
       end)).
Definition StaticRouteValidator_Handle {A} (req : request A) : response :=
  if bool_decide (rq_Operation req = Delete) then Allowed
  else bad_request (rq_Object req) (fun _ =>
    or_else (check_response (CheckNetworkStack (networkStacks (rq_Namespace req)) "StaticRoute")) Allowed).
End Handlers.

(** * Properties *)
Lemma bad_request_Allowed {A} (r : result goerr A) k : bad_request r k = Allowed <-> exists a, r = Ok a /\ k a = Allowed.
Proof. destruct r; cbn; naive_solver. Qed.
Lemma or_else_Allowed r k : or_else r k = Allowed <-> (r = None \/ r = Some Allowed) /\ (r = None -> k = Allowed).
Proof. destruct r as [r|]; cbn; [destruct r|]; naive_solver. Qed.
Lemma deny_if_None b msg : deny_if b msg = None <-> b = false.
Proof. destruct b; cbn; naive_solver. Qed.
Lemma deny_if_Allowed b msg : deny_if b msg <> Some Allowed.
Proof. by destruct b. Qed.
Lemma deny_error_None p e : deny_error p e = None <-> e = None.
Proof. destruct e; cbn; naive_solver. Qed.
Lemma deny_error_Allowed p e : deny_error p e <> Some Allowed.
Proof. by destruct e. Qed.

(** ** AddressBindings of an interface *)
Section Bindings.
(** The cluster whose AddressBindings are those of [l]. *)
Definition with_bindings (C : Cluster) (l : list Binding) : Cluster :=
  {| networkStacks := networkStacks; listSubnetPorts := listSubnetPorts; subnetPortsOf := subnetPortsOf; reservationsOf := reservationsOf;
     listSubnetSets := listSubnetSets; listPods := listPods; listServices := listServices; getSubnet := getSubnet; getAllocation := getAllocation;
     bindingsOfAllocation := bindingsOfAllocation; routesOfAllocation := routesOfAllocation;
     bindingsOfVM := fun ns vm => Ok (filter (fun b => bd_Namespace b = ns /\ bd_VMName b = vm) l);
     nsxSubnetPath := nsxSubnetPath; portSubnetPath := portSubnetPath; vpcInfos := vpcInfos; minimalSize8 := minimalSize8; ip_family := ip_family |}.
Definition binding_key (b : Binding) : string * string := (bd_Namespace b, bd_Name b).
Definition admits (C : Cluster) (l : list Binding) (op : operation) (user : string) (b old : Binding) : Prop :=
  AddressBindingValidator_Handle (C := with_bindings C l) (mkRequest op user (bd_Namespace b) (Ok b) (Ok old)) = Allowed.
(** A binding of the API server, with what the webhook read of the bindings when
    it admitted its creation: a list of the cache, which may lag behind and need
    not have been admitted before or after any other. *)
Record stored := mkStored { sb_binding : Binding; sb_view : list Binding }.
Definition stored_key (x : stored) : string * string := binding_key (sb_binding x).
Definition replaced (b : Binding) (x : stored) : stored :=
  if bool_decide (stored_key x = binding_key b) then mkStored b (sb_view x) else x.
(** The API server, latest first: what is admitted is stored, under a fresh or
    the same key, whatever the cache showed. The old object of an update is the
    one the API server has. *)
Inductive binding_step : list stored -> list stored -> Prop :=
  | binding_created C view l user b old : binding_key b ∉ map stored_key l -> admits C view Create user b old ->
      binding_step l (mkStored b view :: l)
  | binding_updated C view l user b x : x ∈ l -> binding_key b = stored_key x -> admits C view Update user b (sb_binding x) ->
      binding_step l (map (replaced b) l)
  | binding_deleted l k : binding_step l (filter (fun x => stored_key x <> k) l).
Definition same_vm (b1 b2 : Binding) : Prop := bd_Namespace b1 = bd_Namespace b2 /\ bd_VMName b1 = bd_VMName b2.
(** They name different interfaces, and neither stands for all. *)
Definition apart (b1 b2 : Binding) : Prop :=
  bd_InterfaceName b1 <> bd_InterfaceName b2 /\ bd_InterfaceName b1 <> "" /\ bd_InterfaceName b2 <> "".
(** The list shows a binding with its machine and interface. *)
Definition shown (b : Binding) (view : list Binding) : Prop :=
  exists e, e ∈ view /\ binding_key e = binding_key b /\ bd_VMName e = bd_VMName b /\ bd_InterfaceName e = bd_InterfaceName b.
Lemma admits_create C l user b old : admits C l Create user b old ->
  binding_conflict b (filter (fun e => bd_Namespace e = bd_Namespace b /\ bd_VMName e = bd_VMName b) l) = false.
Proof.
  unfold admits, AddressBindingValidator_Handle. cbn -[or_else check_response binding_create binding_update binding_allocation]. rewrite bool_decide_false by done. rewrite or_else_Allowed. intros [[Hc | Hc] Hk].
  - specialize (Hk Hc). apply or_else_Allowed in Hk as [[Hd | Hd] _]; [by apply deny_if_None in Hd|by apply deny_if_Allowed in Hd].
  - destruct (CheckNetworkStack _ _) as [[|]|] in Hc; by cbn in Hc.
Qed.
Lemma admits_update C l user b old : admits C l Update user b old -> bd_VMName b = bd_VMName old /\ bd_InterfaceName b = bd_InterfaceName old.
Proof.
  unfold admits, AddressBindingValidator_Handle. cbn -[or_else check_response binding_create binding_update binding_allocation]. rewrite bool_decide_false by done. rewrite or_else_Allowed. intros [[Hc | Hc] Hk].
  - specialize (Hk Hc). apply or_else_Allowed in Hk as [[Hd | Hd] _]; [apply deny_if_None in Hd|by apply deny_if_Allowed in Hd].
    apply orb_false_iff in Hd as [?%negb_false_iff%bool_decide_eq_true ?%negb_false_iff%bool_decide_eq_true]. done.
  - destruct (CheckNetworkStack _ _) as [[|]|] in Hc; by cbn in Hc.
Qed.
Lemma no_conflict b l e : binding_conflict b l = false -> e ∈ l -> bd_Name b <> bd_Name e ->
  bd_InterfaceName b <> bd_InterfaceName e /\ bd_InterfaceName b <> "" /\ bd_InterfaceName e <> "".
Proof.
  unfold binding_conflict. intros Hf He Hn. rewrite <- not_true_iff_false, existsb_exists in Hf.
  assert (forall x, x = true -> x || bool_decide (bd_InterfaceName b = bd_InterfaceName e) = true) as Ho by (by intros ? ->).
  split_and!; intros Heq; apply Hf; exists e; (split; [by apply list_elem_of_In|]); cbv beta; rewrite (bool_decide_false (bd_Name b = bd_Name e)) by done; cbn [negb andb].
  - apply orb_true_iff. right. by apply bool_decide_eq_true.
  - apply Ho, orb_true_iff. left. by apply bool_decide_eq_true.
  - apply Ho, orb_true_iff. right. apply existsb_exists. exists e. split; [by apply list_elem_of_In|by apply bool_decide_eq_true].
Qed.
(** A binding is apart from those of its machine that its admission was shown. *)
Definition admitted (x : stored) : Prop := forall e, e ∈ sb_view x -> same_vm (sb_binding x) e -> binding_key (sb_binding x) <> binding_key e ->
  apart (sb_binding x) e.
Definition bindings_ok (l : list stored) : Prop := NoDup (map stored_key l) /\ forall x, x ∈ l -> admitted x.
Lemma keys_filter P `{!forall x : stored, Decision (P x)} l : NoDup (map stored_key l) -> NoDup (map stored_key (filter P l)).
Proof.
  induction l as [|b l IH]; [done|]. rewrite filter_cons. intros [Hn Hd]%NoDup_cons. case_decide; [|by apply IH].
  apply NoDup_cons. split; [|by apply IH]. intros (x & Hx & Hin)%list_elem_of_fmap. apply Hn, list_elem_of_fmap.
  exists x. apply list_elem_of_filter in Hin as [_ Hin]. done.
Qed.
Lemma key_of_two l x1 x2 : NoDup (map stored_key l) -> x1 ∈ l -> x2 ∈ l -> stored_key x1 = stored_key x2 -> x1 = x2.
Proof.
  induction l as [|b l IH]; [set_solver|]. intros [Hn Hd]%NoDup_cons. rewrite !elem_of_cons. intros [-> | H1] [-> | H2] Hk; [done| | |by apply IH].
  - destruct Hn. apply list_elem_of_fmap. by exists x2.
  - destruct Hn. apply list_elem_of_fmap. by exists x1.
Qed.
Lemma keys_replaced b l : map stored_key (map (replaced b) l) = map stored_key l.
Proof. rewrite map_map. apply map_ext. intros e. unfold replaced. case_bool_decide; done. Qed.
Lemma created_admitted C view user b old : admits C view Create user b old -> admitted (mkStored b view).
Proof.
  intros Had%admits_create e He [Hns Hvm] Hk. apply (no_conflict _ _ e Had).
  - cbn in *. apply list_elem_of_filter. by rewrite Hns, Hvm.
  - intros Hn. apply Hk. unfold binding_key. cbn in *. congruence.
Qed.
Lemma admitted_same x b : binding_key b = stored_key x -> bd_VMName b = bd_VMName (sb_binding x) -> bd_InterfaceName b = bd_InterfaceName (sb_binding x) ->
  admitted x -> admitted (mkStored b (sb_view x)).
Proof.
  intros Hk Hvm Hif Hx e He [Hns Hv] Hne. cbn in *. unfold apart. rewrite Hif. apply Hx; [done| |by rewrite Hk in Hne].
  split; [|congruence]. unfold stored_key, binding_key in Hk. congruence.
Qed.
Lemma binding_step_ok l l' : binding_step l l' -> bindings_ok l -> bindings_ok l'.
Proof.
  intros Hstep [Hnd Had]. destruct Hstep as [C view l user b old Hfresh Hc|C view l user b x Hx Hkey Hu|l k].
  - split; [by constructor|]. intros x [-> | Hx]%elem_of_cons; [by eapply created_admitted|by apply Had].
  - apply admits_update in Hu as [Hvm Hif]. split; [by rewrite keys_replaced|]. intros y (z & -> & Hz)%list_elem_of_fmap.
    unfold replaced. case_bool_decide as Hk; [|by apply Had]. assert (z = x) as -> by (apply (key_of_two l); congruence).
    apply admitted_same; [done..|by apply Had].
  - split; [by apply keys_filter|]. intros x [_ Hx]%list_elem_of_filter. by apply Had.
Qed.
Lemma bindings_ok_run l : rtc binding_step [] l -> bindings_ok l.
Proof.
  intros Hrun. assert (H0 : bindings_ok []) by (split; [constructor|intros ? Hx; by apply not_elem_of_nil in Hx]).
  revert H0. induction Hrun as [|l1 l2 l3 Hstep _ IH]; [done|]. intros H1. by apply IH, (binding_step_ok l1).
Qed.
(** C38. AddressBindings exclude each other as far as the webhook can see. It
    reads the existing bindings from the cache of the operator, which may lag
    behind the API server, and other requests may be admitted before this one is
    stored: nothing is assumed of the list that it reads. Whatever AddressBindings
    are created, updated and deleted in any order through the webhook, with any
    answers of the rest of the cluster, two bindings of one virtual machine name
    different interfaces, and none stands for all interfaces, unless the list that
    admitted the later one did not show the earlier one with its interface. So if
    every admission was shown the bindings stored before, all are apart. *)
Theorem bindings_exclusive l : rtc binding_step [] l ->
  NoDup (map stored_key l) /\
  (forall l1 later l2 earlier, l = l1 ++ later :: l2 -> earlier ∈ l2 -> same_vm (sb_binding later) (sb_binding earlier) ->
     apart (sb_binding later) (sb_binding earlier) \/ ~ shown (sb_binding earlier) (sb_view later)) /\
  ((forall l1 later l2 earlier, l = l1 ++ later :: l2 -> earlier ∈ l2 -> shown (sb_binding earlier) (sb_view later)) ->
     forall x y, x ∈ l -> y ∈ l -> same_vm (sb_binding x) (sb_binding y) -> stored_key x <> stored_key y -> apart (sb_binding x) (sb_binding y)).
Proof.
  intros [Hnd Had]%bindings_ok_run. split; [done|].
  assert (Hpair : forall l1 later l2 earlier, l = l1 ++ later :: l2 -> earlier ∈ l2 -> same_vm (sb_binding later) (sb_binding earlier) ->
    shown (sb_binding earlier) (sb_view later) -> apart (sb_binding later) (sb_binding earlier)).
  { intros l1 x l2 y -> Hy [Hns Hvm] (e & He & Hk & Hv & Hi). unfold apart. rewrite <- Hi.
    apply (Had x); [set_solver|done| |].
    - unfold binding_key in Hk. split; congruence.
    - rewrite Hk. intros Heq. rewrite map_app in Hnd. apply NoDup_app in Hnd as (_ & _ & [Hn _]%NoDup_cons). apply Hn, list_elem_of_fmap. by exists y. }
  split.
  - intros l1 x l2 y Hl Hy Hvm. destruct (decide (Exists (fun e => binding_key e = binding_key (sb_binding y) /\ bd_VMName e = bd_VMName (sb_binding y) /\
      bd_InterfaceName e = bd_InterfaceName (sb_binding y)) (sb_view x))) as [Hs|Hs].
    + left. eapply Hpair; [done..|]. by apply Exists_exists in Hs.
    + right. intros He. by apply Hs, Exists_exists.
  - intros Hall x y Hx Hy Hvm Hne. apply list_elem_of_split in Hx as (l1 & l2 & Hl). pose proof Hy as Hy'. rewrite Hl in Hy'.
    apply elem_of_app in Hy' as [Hy1|[-> | Hy2]%elem_of_cons]; [|done|by eapply Hpair; eauto].
    apply list_elem_of_split in Hy1 as (l3 & l4 & ->). rewrite <- app_assoc in Hl. cbn in Hl.
    assert (apart (sb_binding y) (sb_binding x)) as (? & ? & ?); [|split_and!; congruence].
    assert (x ∈ l4 ++ x :: l2) by set_solver. eapply Hpair; [exact Hl|done| |by eapply Hall]. by destruct Hvm.
Qed.
End Bindings.

(** ** What the users of a Subnet can change *)
(** Types over an update: equal, set for the first time, or widened. *)
Definition type_le (old new : string) : Prop := old = new \/ old = "" \/ (single_family old = true /\ new = "IPv4IPv6").
Lemma type_transition old new : ValidateIPAddressTypeTransition old new = None <-> type_le old new.
Proof.
  unfold ValidateIPAddressTypeTransition, type_le. case_bool_decide as Heq; [naive_solver|].
  destruct (bool_decide_reflect (old = "")), (bool_decide_reflect (new = "IPv4IPv6")), (single_family old); cbn; naive_solver.
Qed.
Lemma single_cases t : single_family t = true <-> t = "IPv4" \/ t = "IPv6".
Proof. unfold single_family. by rewrite orb_true_iff, !bool_decide_eq_true. Qed.
Lemma type_le_families old new : type_le old new -> families old ⊆ families new.
Proof.
  intros [-> | [-> | [[-> | ->]%single_cases ->]]]; [done|set_solver| |]; apply (bool_decide_eq_true_1 _); reflexivity.
Qed.
Lemma type_le_trans a b c : type_le a b -> type_le b c -> type_le a c.
Proof.
  unfold type_le. intros [-> | [-> | [Ha ->]]] [<- | [Hb | [Hb ->]]]; auto; discriminate.
Qed.
Lemma type_le_between a b : type_le a b -> type_le b a -> a = b.
Proof.
  unfold type_le. intros [-> | [-> | [Ha ->]]] [Hb | [Hb | [Hb Hc]]]; auto; try discriminate; subst; discriminate.
Qed.
(** What [new] keeps of [old]. *)
Record widened (old new : SubnetSpec) : Prop := {
  wd_type : type_le (sp_IPAddressType old) (sp_IPAddressType new);
  wd_addresses : sp_IPAddresses old ⊆ sp_IPAddresses new;
  wd_blocks : sp_IPBlockNames old ⊆ sp_IPBlockNames new;
  wd_fixed : sp_IPAddressType old = sp_IPAddressType new -> sp_IPAddresses new ⊆ sp_IPAddresses old /\ sp_IPBlockNames new ⊆ sp_IPBlockNames old;
  wd_mode : sp_AccessMode old <> "" -> sp_AccessMode old = sp_AccessMode new \/ (sp_IPAddressType new = "IPv4IPv6" /\ sp_IPAddressType old <> "IPv4IPv6");
  wd_vpc : sp_VPCName old = sp_VPCName new;
  wd_vlan : sp_VLANConnectionName old = sp_VLANConnectionName new }.
Lemma sets_le (l1 l2 : list string) : (list_to_set l1 : gset string) ⊆ list_to_set l2 <-> l1 ⊆ l2.
Proof. split; intros Hs x; specialize (Hs x); rewrite !elem_of_list_to_set in *; done. Qed.
Lemma addresses_transition old new ot nt : ValidateIPAddressesTransition old new ot nt = None ->
  old ⊆ new /\ (new ⊆ old \/ widens ot nt = true).
Proof.
  unfold ValidateIPAddressesTransition. case_bool_decide as Heq; [intros _; rewrite <- !sets_le, Heq; auto|].
  destruct (widens ot nt); [|done]. cbn [negb]. case_bool_decide as Hs; [|done]. rewrite sets_le in Hs. auto.
Qed.
Lemma blocks_transition old new ot nt : ValidateIPBlockNamesTransition old new ot nt = None ->
  old ⊆ new /\ (new ⊆ old \/ widens ot nt = true).
Proof.
  unfold ValidateIPBlockNamesTransition. case_bool_decide as Heq; [intros _; rewrite <- !sets_le, Heq; auto|].
  destruct (widens ot nt); [|done]. cbn [negb]. case_bool_decide as Hs; [|done]. rewrite sets_le in Hs. auto.
Qed.
Lemma widens_changes ot nt : widens ot nt = true -> ot <> nt.
Proof. unfold widens. rewrite andb_true_iff, single_cases, bool_decide_eq_true. intros [[-> | ->] ->]; done. Qed.
Lemma mode_transition om nm ot nt : ValidateAccessModeTransition om nm ot nt = None -> om <> "" -> om = nm \/ (nt = "IPv4IPv6" /\ ot <> "IPv4IPv6").
Proof.
  unfold ValidateAccessModeTransition. case_bool_decide; [auto|]. intros Hn Hm. rewrite (bool_decide_false (om = "")) in Hn by done.
  destruct (bool_decide_reflect (nt = "IPv4IPv6")), (bool_decide_reflect (ot = "IPv6")); try done. right. split; [done|]. by subst.
Qed.
Lemma transition_widened old new : subnet_transition old new = None -> sp_VPCName old = sp_VPCName new -> sp_VLANConnectionName old = sp_VLANConnectionName new ->
  widened old new.
Proof.
  unfold subnet_transition. destruct (ValidateIPAddressTypeTransition _ _) eqn:Et; [done|]. destruct (ValidateAccessModeTransition _ _ _ _) eqn:Em; [done|].
  destruct (ValidateIPAddressesTransition _ _ _ _) eqn:Ea; [done|]. intros Eb Hv Hl.
  apply type_transition in Et. apply addresses_transition in Ea as [Ha Ha']. apply blocks_transition in Eb as [Hb Hb'].
  split; try done.
  - intros Heq. destruct Ha' as [Ha' | Ha'%widens_changes]; [|done]. destruct Hb' as [Hb' | Hb'%widens_changes]; [|done]. done.
  - by apply mode_transition.
Qed.
Lemma widened_refl s : widened s s.
Proof. split; try done; [by left|auto]. Qed.
Lemma widened_trans a b c : widened a b -> widened b c -> widened a c.
Proof.
  intros H1 H2. split.
  - by eapply type_le_trans; apply wd_type.
  - etrans; by apply wd_addresses.
  - etrans; by apply wd_blocks.
  - intros Heq. assert (sp_IPAddressType a = sp_IPAddressType b) as Hab.
    { apply type_le_between; [by apply wd_type|]. rewrite Heq. by apply wd_type. }
    destruct (wd_fixed _ _ H1 Hab) as [??]. destruct (wd_fixed _ _ H2) as [??]; [congruence|]. split; by etrans.
  - intros Hm. destruct (wd_mode _ _ H1 Hm) as [Heq | [Hb Ha]].
    + destruct (wd_mode _ _ H2) as [? | [Hc Hb]]; [congruence|left; congruence|]. right. split; [done|]. intros Ha.
      pose proof (wd_type _ _ H1) as Ht. rewrite Ha in Ht. destruct Ht as [Ht | [Ht | [Ht _]]]; [congruence|done|done].
    + right. split; [|done]. pose proof (wd_type _ _ H2) as Ht. rewrite Hb in Ht. destruct Ht as [Ht | [Ht | [Ht _]]]; [congruence|done|done].
  - rewrite (wd_vpc _ _ H1). by apply wd_vpc.
  - rewrite (wd_vlan _ _ H1). by apply wd_vlan.
Qed.
Section Users.
(** An update of the Subnet that the webhook admits from a user, with any
    answers of the cluster. *)
Definition user_update (old new : SubnetCR) : Prop := exists (C : Cluster) user ns, user <> NSXOperatorSA /\
  SubnetValidator_Handle (mkRequest Update user ns (Ok new) (Ok old)) = Allowed.
Lemma user_update_spec old new : user_update old new ->
  shared old = false /\ shared new = false /\ widened (sub_spec old) (sub_spec new).
Proof.
  intros (C & user & ns & Hu & Hh). unfold SubnetValidator_Handle, decoded in Hh. cbn -[or_else subnet_update subnet_checks by_user] in Hh.
  rewrite bool_decide_false in Hh by done. cbn -[or_else subnet_update subnet_checks by_user] in Hh.
  apply or_else_Allowed in Hh as [[Hn | Hn] _].
  all: unfold subnet_update, by_user in Hn; cbn [rq_Username] in Hn; rewrite (bool_decide_false (user = _)) in Hn by done; cbn [negb] in Hn;
    rewrite andb_true_r in Hn; destruct (shared old || shared new) eqn:Esh; [done|].
  all: case_bool_decide as Hv; [|done]; cbn [negb] in Hn; case_bool_decide as Hl; [|done]; cbn [negb] in Hn.
  - apply deny_error_None in Hn. apply orb_false_iff in Esh as [??]. split_and!; [done|done|]. by apply transition_widened.
  - by apply deny_error_Allowed in Hn.
Qed.
(** C36. Users only widen Subnets: after any sequence of updates that the webhook
    admits from users, the families of the Subnet's type, its addresses and its
    IP blocks contain the ones it had, they are the same sets while the type is,
    the access mode once set changes only with a type that becomes dual, the VPC
    and the VLAN connection are the same, and the Subnet is shared exactly when it
    was: none becomes shared or private, and a shared one is untouched. *)
Theorem user_updates_widen old new : rtc user_update old new ->
  families (sp_IPAddressType (sub_spec old)) ⊆ families (sp_IPAddressType (sub_spec new)) /\ widened (sub_spec old) (sub_spec new) /\
  (shared new = true <-> shared old = true) /\ (shared old = true -> new = old).
Proof.
  intros Hrun. enough (widened (sub_spec old) (sub_spec new) /\ shared new = shared old /\ (shared old = true -> new = old)) as (Hw & Hiff & Hs).
  { split; [by apply type_le_families, wd_type|]. by rewrite Hiff. }
  induction Hrun as [s|s1 s2 s3 Hstep _ (Hw & Hiff & _)]; [split; [apply widened_refl|done]|].
  apply user_update_spec in Hstep as (Hs & Hs2 & Hw1). split; [by eapply widened_trans|]. split; congruence.
Qed.
End Users.

(** ** SubnetSets made of Subnets *)
Section Uniform.
Context {C : Cluster}.
(** Two Subnets that may serve one SubnetSet of a type. *)
Record agree (expected : string) (a b : SubnetSpec) : Prop := {
  ag_v4 : IPAddressTypeIncludesIPv4 expected = true ->
    sp_AccessMode a = sp_AccessMode b /\ getEffectiveDHCPMode a = getEffectiveDHCPMode b;
  ag_v6 : IPAddressTypeIncludesIPv6 expected = true -> getEffectiveDHCPv6Mode a = getEffectiveDHCPv6Mode b;
  ag_static : getEffectiveStaticIPAllocation a = getEffectiveStaticIPAllocation b }.
#[global] Instance agree_equiv expected : Equivalence (agree expected).
Proof.
  split.
  - intros a. split; done.
  - intros a b [H4 H6 Hs]. split; [|by intros ->%H6|done]. intros [??]%H4. done.
  - intros a b c [H4 H6 Hs] [H4' H6' Hs']. split.
    + intros Hv. destruct (H4 Hv), (H4' Hv). split; congruence.
    + intros Hv. rewrite (H6 Hv). by apply H6'.
    + congruence.
Qed.
(** The VPC of a Subnet: that of its resource, or that of its Namespace. *)
Definition subnet_vpc (ns : string) (cr : SubnetCR) : option string :=
  match m_Annotations (sub_meta cr) !! "nsx.vmware.com/associated-resource" with
  | Some associated => before "/subnets/" <$> GetSubnetPathFromAssociatedResource associated
  | None => match getVPCPath ns with Ok v => Some v | Err _ => None end
  end.
(** What the SubnetSet requires of each of its Subnets. *)
Record member (ns setType : string) (first : SubnetSpec) (expected vpc : string) (cr : SubnetCR) : Prop := {
  mb_supported : subnet_supported setType cr = Ok tt;
  mb_agree : agree expected first (sub_spec cr);
  mb_vpc : subnet_vpc ns cr = Some vpc }.
Lemma same_as_first_Ok name expected f sp : same_as_first name expected f sp = Ok tt -> agree expected f sp.
Proof.
  unfold same_as_first. intros Hs. repeat case_match; try done.
  all: repeat match goal with H : _ && negb _ = false |- _ => rewrite andb_false_iff, negb_false_iff, ?bool_decide_eq_true in H
       | H : negb _ = false |- _ => rewrite negb_false_iff, ?bool_decide_eq_true in H end.
  split; naive_solver congruence.
Qed.
Lemma getVPCPath_nonempty ns v : getVPCPath ns = Ok v -> v <> "".
Proof. unfold getVPCPath. destruct (vpcInfos ns); [done|]. by intros [= <-]. Qed.
Lemma resource_vpc_nonempty a p : GetSubnetPathFromAssociatedResource a = Some p -> before "/subnets/" p <> "".
Proof. unfold GetSubnetPathFromAssociatedResource. repeat case_match; try done. by intros [= <-]. Qed.
(** The VPC of the Namespace is remembered once read. *)
Definition remembered (ns namespaceVpc : string) : Prop := namespaceVpc <> "" -> getVPCPath ns = Ok namespaceVpc.
Lemma vpc_of_Ok ns nv cr v nv' : remembered ns nv -> vpc_of ns nv cr = Ok (v, nv') ->
  remembered ns nv' /\ subnet_vpc ns cr = Some v /\ v <> "".
Proof.
  unfold vpc_of, subnet_vpc. intros Hr. destruct (_ !! _).
  - destruct (GetSubnetPathFromAssociatedResource _) eqn:E; [|done]. intros [= <- <-]. split_and!; [done|done|by eapply resource_vpc_nonempty].
  - case_bool_decide as Hn.
    + destruct (getVPCPath ns) as [p|] eqn:E; [|done]. intros [= <- <-]. split_and!; [intros _; done|done|by eapply getVPCPath_nonempty].
    + intros [= <- <-]. specialize (Hr Hn). rewrite Hr. split_and!; [by intros _|done|done].
Qed.
Lemma subnet_step_Ok ns subnetSet setType expected st n st' : remembered ns (sn_namespaceVpc st) ->
  subnet_step ns subnetSet setType expected st n = Ok st' ->
  exists cr, getSubnet ns n = Ok cr /\ remembered ns (sn_namespaceVpc st') /\
    sn_first st' = Some (default (sub_spec cr) (sn_first st)) /\
    (sn_existingVPC st <> "" -> sn_existingVPC st' = sn_existingVPC st) /\ sn_existingVPC st' <> "" /\
    member ns setType (default (sub_spec cr) (sn_first st)) expected (sn_existingVPC st') cr.
Proof.
  intros Hr. unfold subnet_step. destruct (getSubnet ns n) as [cr|]; [|done].
  destruct (subnet_supported setType cr) as [[]|] eqn:Es; [|done]. cbn.
  destruct (match sn_first st with None => _ | Some _ => _ end) as [[]|] eqn:Ef; [|done]. cbn.
  destruct (vpc_of ns _ cr) as [[v nv]|] eqn:Ev; [|done]. cbn. apply vpc_of_Ok in Ev as (Hr' & Hv & Hne); [|done].
  destruct (bool_decide (_ = v)) eqn:Eq; [|done]. apply bool_decide_eq_true in Eq. intros [= <-]. cbn. exists cr.
  assert (agree expected (default (sub_spec cr) (sn_first st)) (sub_spec cr)) as Hag.
  { destruct (sn_first st); cbn in *; [by eapply same_as_first_Ok|done]. }
  rewrite Eq. split_and!; try done. intros Hx. by rewrite bool_decide_false in Eq by done.
Qed.
Lemma subnet_loop_Ok ns subnetSet setType expected names : forall st st', remembered ns (sn_namespaceVpc st) ->
  range_result (subnet_step ns subnetSet setType expected) st names = Ok st' ->
  forall f, sn_first st = Some f -> sn_existingVPC st <> "" ->
  forall n, n ∈ names -> exists cr, getSubnet ns n = Ok cr /\ member ns setType f expected (sn_existingVPC st) cr.
Proof.
  induction names as [|n names IH]; intros st st' Hr Hrun f Hf Hv m Hm; [set_solver|]. cbn in Hrun.
  destruct (subnet_step _ _ _ _ st n) as [st1|] eqn:Es; [|done].
  apply subnet_step_Ok in Es as (cr & Hg & Hr1 & Hf1 & Hv1 & _ & Hmb); [|done]. rewrite Hf in *; cbn in *. specialize (Hv1 Hv).
  rewrite Hv1 in Hmb. apply elem_of_cons in Hm as [-> | Hm]; [by exists cr|]. rewrite <- Hv1. apply (IH st1 st'); eauto. congruence.
Qed.
(** A SubnetSet is admitted only for uniform Subnets: when validateSubnets
    accepts the names, every Subnet exists, relays no DHCP, lies in one VPC common
    to all, and any two agree on static allocation, on access mode and DHCP mode
    when the SubnetSet serves IPv4, and on DHCPv6 mode when it serves IPv6. *)
Theorem validateSubnets_uniform ns names subnetSet setType : validateSubnets ns (Some names) subnetSet setType = Ok tt ->
  exists expected vpc, expected_type ns (Some names) setType = Ok expected /\
  forall n1 n2, n1 ∈ names -> n2 ∈ names -> exists c1 c2, getSubnet ns n1 = Ok c1 /\ getSubnet ns n2 = Ok c2 /\
    agree expected (sub_spec c1) (sub_spec c2) /\ subnet_vpc ns c1 = Some vpc /\ subnet_vpc ns c2 = Some vpc /\
    subnet_supported setType c1 = Ok tt /\ subnet_supported setType c2 = Ok tt.
Proof.
  unfold validateSubnets. destruct (expected_type ns (Some names) setType) as [expected|]; [|done].
  destruct (range_result _ no_seen names) as [st|] eqn:Erun; [|done]. intros _. exists expected.
  destruct names as [|n names]; [exists ""; split; [done|]; set_solver|]. cbn in Erun.
  destruct (subnet_step _ _ _ _ no_seen n) as [st1|] eqn:Es; [|done].
  apply subnet_step_Ok in Es as (cr & Hg & Hr1 & Hf1 & _ & Hv1 & Hmb); [|by intros []]. cbn in Hf1, Hmb.
  assert (forall m, m ∈ n :: names -> exists c, getSubnet ns m = Ok c /\ member ns setType (sub_spec cr) expected (sn_existingVPC st1) c) as Hall.
  { intros m [-> | Hm]%elem_of_cons; [by exists cr|]. by eapply (subnet_loop_Ok ns subnetSet setType expected names st1). }
  exists (sn_existingVPC st1). split; [done|]. intros n1 n2 [c1 [H1 [Hs1 Ha1 Hv1']]]%Hall [c2 [H2 [Hs2 Ha2 Hv2]]]%Hall.
  exists c1, c2. split_and!; try done. by rewrite <- Ha1.
Qed.
End Uniform.

(** ** Deletion *)
Section Deletion.
Context {C : Cluster}.
(** A user deletes a Subnet only when nothing refers to it. *)
Lemma subnet_delete_free user ns obj s : user <> NSXOperatorSA ->
  SubnetValidator_Handle (mkRequest Delete user ns obj (Ok s)) = Allowed ->
  shared s = false /\ subnetPortsOf (m_Namespace (sub_meta s)) (m_Name (sub_meta s)) = Ok [] /\
  reservationsOf (m_Namespace (sub_meta s)) (m_Name (sub_meta s)) = Ok [] /\
  exists sets, listSubnetSets (m_Namespace (sub_meta s)) = Ok sets /\ forall x, x ∈ sets -> m_Name (sub_meta s) ∉ default [] (set_SubnetNames x).
Proof.
  intros Hu. unfold SubnetValidator_Handle, decoded. cbn. unfold subnet_delete, by_user. cbn.
  rewrite (bool_decide_true (Delete = Delete)), (bool_decide_false (user = _)) by done. cbn. rewrite orb_diag, andb_true_r. destruct (shared s); [done|].
  rewrite bad_request_Allowed. intros (refd & Hrefd & H1). destruct refd; cbn in H1; [done|].
  apply bad_request_Allowed in H1 as (ports & Hports & H2). destruct ports; cbn in H2; [done|].
  apply bad_request_Allowed in H2 as (res & Hres & H3). destruct res; cbn in H3; [done|].
  unfold checkSubnetSet in Hrefd. unfold checkSubnetPort in Hports. unfold checkSubnetIPReservation in Hres.
  destruct (subnetPortsOf _ _) as [l|]; [|done]. destruct (reservationsOf _ _) as [l'|]; [|done]. destruct (listSubnetSets _) as [sets|]; [|done].
  injection Hports as Hp%negb_false_iff%bool_decide_eq_true. injection Hres as Hr%negb_false_iff%bool_decide_eq_true. injection Hrefd as He.
  rewrite Hp, Hr. split_and!; try done. exists sets. split; [done|]. intros x Hx Hin.
  rewrite <- not_true_iff_false in He. apply He, existsb_exists. exists x. split; [by apply list_elem_of_In|]. by apply bool_decide_eq_true.
Qed.
Lemma service_using_None ips svcs : service_using ips svcs = None <-> forall n lb, (n, lb) ∈ svcs -> lb <> "" -> ifIPUsed lb ips = false.
Proof.
  induction svcs as [|[n lb] svcs IH]; cbn; [split; [intros _ ??; set_solver|done]|].
  destruct (bool_decide_reflect (lb = "")); cbn.
  - rewrite IH. split; [intros H n' lb' [[= -> ->]|Hin]%elem_of_cons|intros H n' lb' Hin; apply (H n'); set_solver]; [done|by apply (H n')].
  - destruct (ifIPUsed lb ips) eqn:E.
    + split; [done|]. intros H. by rewrite (H n lb) in E by set_solver.
    + rewrite IH. split; [intros H n' lb' [[= -> ->]|Hin]%elem_of_cons; [done|by apply (H n')]|intros H n' lb' Hin; apply (H n'); set_solver].
Qed.
(** An IPAddressAllocation is deleted exactly when no AddressBinding, no
    StaticRoute and, once it is ready, no Service uses it. *)
Lemma allocation_delete_free user ns obj a :
  IPAddressAllocationValidator_Handle (mkRequest Delete user ns obj (Ok a)) = Allowed <->
  let m := ac_meta (ao_CR a) in
  bindingsOfAllocation (m_Namespace m) (m_Name m) = Ok [] /\ routesOfAllocation (m_Namespace m) (m_Name m) = Ok [] /\
  (head (ao_Conditions a) = Some "Ready" -> exists svcs, listServices ns = Ok svcs /\
     forall n lb, (n, lb) ∈ svcs -> lb <> "" -> ifIPUsed lb (ac_Status_AllocationIPs (ao_CR a)) = false).
Proof.
  unfold IPAddressAllocationValidator_Handle, decoded. cbn -[or_else used_by validateServiceVIP]. rewrite !(bool_decide_true (Delete = Delete)) by done. cbn -[or_else used_by validateServiceVIP]. unfold allocation_delete.
  rewrite !or_else_Allowed. unfold used_by.
  destruct (bindingsOfAllocation _ _) as [[|]|]; try naive_solver. destruct (routesOfAllocation _ _) as [[|]|]; try naive_solver.
  assert (validateServiceVIP ns (match ao_Conditions a with t :: _ => bool_decide (t = "Ready") | [] => false end) (ao_CR a) = Allowed <->
    (head (ao_Conditions a) = Some "Ready" -> exists svcs, listServices ns = Ok svcs /\
     forall n lb, (n, lb) ∈ svcs -> lb <> "" -> ifIPUsed lb (ac_Status_AllocationIPs (ao_CR a)) = false)) as Hv; [|naive_solver].
  unfold validateServiceVIP. destruct (ao_Conditions a) as [|t ts]; cbn [head]; [split; [intros _ ?; discriminate|done]|].
  destruct (bool_decide_reflect (t = "Ready")) as [-> | Ht]; cbn [negb]; [|split; [intros _ [= ?]; done|done]].
  destruct (listServices ns) as [svcs|e]; [|split; [done|intros H; by destruct (H eq_refl) as (? & ? & _)]].
  pose proof (service_using_None (ac_Status_AllocationIPs (ao_CR a)) svcs) as Hs. destruct (service_using _ svcs) as [[n lb]|].
  - split; [done|]. intros H. destruct (H eq_refl) as (svcs' & [= <-] & Hf). by apply Hs in Hf.
  - split; [|done]. intros _ _. exists svcs. split; [done|]. by apply Hs.
Qed.
End Deletion.

(** ** Examples *)
Module WebhookDemo.
Definition subnet_named (n mode : string) : SubnetCR :=
  mkSubnetCR (mkMeta n "ns" n ∅ ∅) (mkSubnetCRSpec "" "IPv4" 16 0 mode [] "" [] "" [] "" None [] [] [] "" "" []) (mkSubnetStatus [] [] [] (0, false) false []).
#[global] Instance demo : Cluster :=
  {| networkStacks := fun _ => Ok []; listSubnetPorts := fun _ => Ok []; subnetPortsOf := fun _ _ => Ok []; reservationsOf := fun _ _ => Ok [];
     listSubnetSets := fun _ => Ok []; listPods := fun _ => Ok []; listServices := fun _ => Ok [];
     getSubnet := fun _ n => Ok (subnet_named n "Private"); getAllocation := fun _ _ => Err (EText "not found");
     bindingsOfAllocation := fun _ _ => Ok []; routesOfAllocation := fun _ _ => Ok []; bindingsOfVM := fun _ _ => Ok [];
     nsxSubnetPath := fun s => Ok (m_Name (sub_meta s)); portSubnetPath := fun _ => ""; vpcInfos := fun _ => [mkVPCInfo "default" "p" "v" "" ""];
     minimalSize8 := true; ip_family := None |}.
Definition b1 := mkBinding "ns" "b1" "vm" "eth0" "".
Definition b2 := mkBinding "ns" "b2" "vm" "eth1" "".
Definition two_families : SubnetCR :=
  mkSubnetCR (mkMeta "s" "ns" "s" ∅ ∅) (mkSubnetCRSpec "" "IPv4IPv6" 16 0 "Private" ["2001:db8::/64"] "" [] "" [] "" None [] [] [] "" "" []) (mkSubnetStatus [] [] [] (0, false) false []).
End WebhookDemo.
Lemma bindings_exclusive_witness : apart WebhookDemo.b2 WebhookDemo.b1.
Proof.
  assert (Hrun : rtc binding_step [] [mkStored WebhookDemo.b2 [WebhookDemo.b1]; mkStored WebhookDemo.b1 []]).
  { apply (rtc_l _ _ [mkStored WebhookDemo.b1 []]).
    - apply (binding_created WebhookDemo.demo [] [] "u" WebhookDemo.b1 WebhookDemo.b1); [vm_compute; apply not_elem_of_nil|reflexivity].
    - apply rtc_once, (binding_created WebhookDemo.demo [WebhookDemo.b1] [mkStored WebhookDemo.b1 []] "u" WebhookDemo.b2 WebhookDemo.b2); [|reflexivity].
      apply (bool_decide_eq_true_1 _). reflexivity. }
  destruct (bindings_exclusive _ Hrun) as (_ & Hpair & _).
  destruct (Hpair [] (mkStored WebhookDemo.b2 [WebhookDemo.b1]) [mkStored WebhookDemo.b1 []] (mkStored WebhookDemo.b1 []) eq_refl) as [Ha|Hn].
  - left.
  - split; reflexivity.
  - exact Ha.
  - destruct Hn. exists WebhookDemo.b1. split_and!; [left|reflexivity..].
Defined.
(** Two bindings of one interface that are created at the same time: the cache
    shows neither to the admission of the other, and both are stored. *)
Lemma binding_race : let b3 := mkBinding "ns" "b3" "vm" "eth0" "" in
  rtc binding_step [] [mkStored b3 []; mkStored WebhookDemo.b1 []] /\ same_vm b3 WebhookDemo.b1 /\ ~ apart b3 WebhookDemo.b1.
Proof.
  intros b3. split_and!; [|done|by intros [? _]].
  apply (rtc_l _ _ [mkStored WebhookDemo.b1 []]).
  - apply (binding_created WebhookDemo.demo [] [] "u" WebhookDemo.b1 WebhookDemo.b1); [vm_compute; apply not_elem_of_nil|reflexivity].
  - apply rtc_once, (binding_created WebhookDemo.demo [] [mkStored WebhookDemo.b1 []] "u" b3 b3); [|reflexivity].
    apply (bool_decide_eq_true_1 _). reflexivity.
Qed.
Lemma user_updates_widen_witness :
  families "IPv4" ⊆ families "IPv4IPv6" /\ widened (sub_spec (WebhookDemo.subnet_named "s" "Private")) (sub_spec WebhookDemo.two_families) /\
  (shared WebhookDemo.two_families = true <-> shared (WebhookDemo.subnet_named "s" "Private") = true) /\
  (shared (WebhookDemo.subnet_named "s" "Private") = true -> WebhookDemo.two_families = WebhookDemo.subnet_named "s" "Private").
Proof.
  apply (user_updates_widen (WebhookDemo.subnet_named "s" "Private") WebhookDemo.two_families).
  apply rtc_once. exists WebhookDemo.demo, "u", "ns". split; [done|]. vm_compute. reflexivity.
Defined.
Lemma validateSubnets_uniform_witness :
  exists expected vpc, expected_type "ns" (Some ["a"; "b"]) "" = Ok expected /\
  forall n1 n2, n1 ∈ ["a"; "b"] -> n2 ∈ ["a"; "b"] -> exists c1 c2, getSubnet "ns" n1 = Ok c1 /\ getSubnet "ns" n2 = Ok c2 /\
    agree expected (sub_spec c1) (sub_spec c2) /\ subnet_vpc "ns" c1 = Some vpc /\ subnet_vpc "ns" c2 = Some vpc /\
    subnet_supported "" c1 = Ok tt /\ subnet_supported "" c2 = Ok tt.
Proof. apply (validateSubnets_uniform "ns" ["a"; "b"] "set" ""). vm_compute. reflexivity. Defined.
(** A user may not create a Subnet that is L2Only, and may make one of it. *)
Lemma L2Only_by_update :
  SubnetValidator_Handle (mkRequest Create "u" "ns" (Ok (WebhookDemo.subnet_named "s" "L2Only")) (Err (EText ""))) =
    denied "Subnet ns/s: spec.accessMode L2Only is not supported" /\
  SubnetValidator_Handle (mkRequest Create "u" "ns" (Ok (WebhookDemo.subnet_named "s" "")) (Err (EText ""))) = Allowed /\
  SubnetValidator_Handle (mkRequest Update "u" "ns" (Ok (WebhookDemo.subnet_named "s" "L2Only")) (Ok (WebhookDemo.subnet_named "s" ""))) = Allowed.
Proof. split_and!; vm_compute; reflexivity. Qed.
