(* ===== verification/SubnetAlloc.v ===== *)
(** * Reserving an address of a SubnetSet for a port

    GetSubnetFromSubnetSet, AllocateSubnetFromSubnetSet and the look-ups around
    them (controllers/common/utils.go), the choice of the Subnet of a Pod
    (controllers/pod) and of a SubnetPort (controllers/subnetport), with the
    counters of reserved addresses and the locks of SubnetSets. The counters are
    those of PortAlloc; the locks taken and given back are a list of events. *)
From S2P Require Import Prelude GoStrings GoNet Errors NsxUtil IPUtil Names GoMonad PortAlloc Subnet CtlCommon.

(** ** State and environment *)
Inductive lock_event := RLocked (uid : string) | RUnlocked (uid : string) | WLocked (uid : string) | WUnlocked (uid : string).
#[global] Instance lock_event_eq_dec : EqDecision lock_event.
Proof. solve_decision. Defined.
Record alloc_state (W : Type) := mkAlloc { as_counts : gmap string CountInfo; as_locks : list lock_event; as_world : W }.
Arguments mkAlloc {W}. Arguments as_counts {W}. Arguments as_locks {W}. Arguments as_world {W}.
(** A Subnet of a VPCNetworkConfiguration: its path and what it is default for. *)
Record default_subnet := mkDefaultSubnet { ds_Path : string; ds_PodDefault : bool; ds_VMDefault : bool }.
(** The services and the API server. Only the creation of a Subnet changes them. *)
Class AllocEnv (W : Type) := {
  addressCount : IPNet -> Z;
  poolStats : NsxSubnet -> W -> nsx_stats;
  portsOn : string -> W -> list VpcSubnetPort;
  clock : W -> Z;
  getSubnetCR : string -> string -> W -> result goerr SubnetCR;
  subnetByCR : SubnetCR -> W -> result goerr NsxSubnet;
  subnetsBySet : string -> W -> list NsxSubnet;                 (* GetSubnetsByIndex on the UID of the SubnetSet *)
  readSubnetSet : SubnetSet -> W -> result goerr SubnetSet;     (* apiReader.Get *)
  networkConfig : string -> W -> result goerr (option (list default_subnet));
  nsTags : SubnetSet -> W -> list Tag;                          (* GenerateSubnetNSTags, nil when it fails *)
  vpcsOf : string -> W -> list VPCResourceInfo;
  makeSubnet : SubnetSet -> VPCResourceInfo -> list Tag -> W -> result goerr NsxSubnet * W }.
Definition set_meta (s : SubnetSet) : meta := ss_meta (set_CR s).

Section Alloc.
Context {W : Type} `{!AllocEnv W}.
Definition Call : Type -> Type := ST (alloc_state W).
Definition on_env {A} (f : W -> A) : Call A := fun s => Some (Ok (f (as_world s)), s).
Definition env_result {A} (f : W -> result goerr A) : Call A := fun s => Some (f (as_world s), s).
Definition log_lock (e : lock_event) : Call unit := fun s => Some (Ok tt, mkAlloc (as_counts s) (as_locks s ++ [e]) (as_world s)).
(** The fields of a Subnet that the capacity and the defaults depend on. *)
Definition static_enabled_of (s : NsxSubnet) : option bool :=
  match s_AdvancedConfig s with Some c => ac_StaticIpAllocation c ≫= sia_Enabled | None => None end.
Definition capacity_view (s : NsxSubnet) (path : string) : PortAlloc.Subnet :=
  PortAlloc.mkSubnet path (s_Dhcp s ≫= dc_Mode) (s_Dhcpv6 s ≫= dc_Mode) (static_enabled_of s) (s_Ipv4SubnetSize s) (s_IpAddresses s).
Definition dhcp_view (s : NsxSubnet) : Names.VpcSubnet := Names.mkVpcSubnet (s_Dhcp s ≫= dc_Mode) (s_Dhcpv6 s ≫= dc_Mode) (static_enabled_of s).
Definition ResolveEffectiveStaticIPAllocationType (rawStaticType : string) (s : NsxSubnet) (ipType : string) : string :=
  if bool_decide (rawStaticType = "") then ComputeDefaultStaticIPAllocationType (dhcp_view s) ipType else rawStaticType.
(** [AllocatePortFromSubnet] of the service of ports. *)
Definition allocatePort (s : NsxSubnet) (shared : bool) (ipType staticType : string) (bindings : list string) : Call bool :=
  let! path := mtotal (s_Path s) in
  fun st => let '(r, counts) := AllocatePortFromSubnet addressCount (as_counts st) (poolStats s (as_world st)) (portsOn path (as_world st)) (clock (as_world st))
                                  (capacity_view s path) shared ipType staticType bindings in
            Some (r, mkAlloc counts (as_locks st) (as_world st)).
Definition releasePort (path ipType staticType : string) (bindings : list string) : Call unit := fun st =>
  Some (Ok tt, mkAlloc (ReleasePortInSubnet (as_counts st) path ipType staticType bindings) (as_locks st) (as_world st)).

(** ** Default Subnets of a Namespace *)
Definition GetVpcNetworkConfig (ns : string) : Call (list default_subnet) :=
  let! c := env_result (networkConfig ns) in
  match c with Some l => mret l | None => mfail (EText "VPCNetworkConfig not found") end.
Definition default_for (kind : string) (d : default_subnet) : bool :=
  (bool_decide (kind = "pod") && ds_PodDefault d) || (bool_decide (kind = "vm") && ds_VMDefault d).
Definition getSubnetFromVPCNetworkConfiguration (ns kind : string) : Call (list string) :=
  let! l := GetVpcNetworkConfig ns in mret (map ds_Path (filter (fun d => default_for kind d = true) l)).
(** The NSX Subnets of a SubnetSet. *)
Fixpoint subnets_of_names (ns : string) (names : list string) : Call (list NsxSubnet) :=
  match names with
  | [] => mret []
  | n :: names' =>
      let! cr := env_result (getSubnetCR ns n) in
      let! s := env_result (subnetByCR cr) in
      let! l := subnets_of_names ns names' in mret (s :: l)
  end.
Definition GetNSXSubnetsForSubnetSet (s : SubnetSet) : Call (list NsxSubnet) :=
  match set_SubnetNames s with
  | None => on_env (subnetsBySet (m_UID (set_meta s)))
  | Some names => subnets_of_names (m_Namespace (set_meta s)) names
  end.

(** ** Choosing a Subnet *)
(** One Subnet of a pre-created SubnetSet: reserved in it with its path and
    static type, or passed over with the error to report, if any. *)
Inductive tried := Reserved (path staticType : string) | Skipped (e : option goerr).
Definition try_subnet (ns : string) (fromConfig : option (list string)) (ipType rawStaticType : string) (bindings : list string) (name : string) : Call tried :=
  let! got := mcatch (let! cr := env_result (getSubnetCR ns name) in let! s := env_result (subnetByCR cr) in mret (cr, s)) in
  match got with
  | Err e => mret (Skipped (Some e))
  | Ok (cr, s) =>
      let go : Call tried :=
        let staticType := ResolveEffectiveStaticIPAllocationType rawStaticType s ipType in
        let! r := mcatch (allocatePort s (IsSharedSubnet (m_Annotations (sub_meta cr))) ipType staticType bindings) in
        match r with
        | Err e => mret (Skipped (Some e))
        | Ok false => mret (Skipped None)
        | Ok true => let! path := mtotal (s_Path s) in mret (Reserved path staticType)
        end in
      match fromConfig with
      | None => go
      | Some paths => let! path := mtotal (s_Path s) in if bool_decide (path ∈ paths) then go else mret (Skipped None)
      end
  end.
Fixpoint try_subnets (ns : string) (fromConfig : option (list string)) (ipType rawStaticType : string) (bindings names : list string) (errs : list goerr)
    : Call (string * string + list goerr) :=
  match names with
  | [] => mret (inr errs)
  | n :: names' =>
      let! t := try_subnet ns fromConfig ipType rawStaticType bindings n in
      match t with
      | Reserved path staticType => mret (inl (path, staticType))
      | Skipped e => try_subnets ns fromConfig ipType rawStaticType bindings names' (errs ++ option_list e)
      end
  end.
Definition GetSubnetFromSubnetSet (s : SubnetSet) (ipType rawStaticType : string) (bindings : list string) : Call (string * string) :=
  let m := set_meta s in let kind := GetSubnetSetKind (m_Labels m) in
  let! fromConfig := (if bool_decide (kind = "") then mret None
                      else let! l := getSubnetFromVPCNetworkConfiguration (m_Namespace m) kind in mret (Some l)) in
  let! names := mtotal (set_SubnetNames s) in
  let! r := try_subnets (m_Namespace m) fromConfig ipType rawStaticType bindings names [] in
  match r with
  | inl won => mret won
  | inr [] => mfail (EText ("all Subnets for SubnetSet " +:+ m_Namespace m +:+ "/" +:+ m_Name m +:+ " are not available"))
  | inr (e :: es) => mfail (foldl EJoin e es)
  end.
(** The Subnets the operator made for the SubnetSet, in their order. *)
Fixpoint first_with_room (ipType rawStaticType : string) (bindings : list string) (subnets : list NsxSubnet) : Call (option (string * string)) :=
  match subnets with
  | [] => mret None
  | s :: subnets' =>
      let staticType := ResolveEffectiveStaticIPAllocationType rawStaticType s ipType in
      let! ok := allocatePort s false ipType staticType bindings in
      if ok : bool then let! path := mtotal (s_Path s) in mret (Some (path, staticType))
      else first_with_room ipType rawStaticType bindings subnets'
  end.
Definition make_subnet (s : SubnetSet) (vpc : VPCResourceInfo) (tags : list Tag) : Call NsxSubnet := fun st =>
  let '(r, w) := makeSubnet s vpc tags (as_world st) in Some (r, mkAlloc (as_counts st) (as_locks st) w).
Definition from_new_subnet (s : SubnetSet) (ipType rawStaticType : string) (bindings : list string) : Call (string * string) :=
  let! tags := on_env (nsTags s) in
  if bool_decide (tags = []) then mfail (EText "failed to generate subnet tags")
  else
    let! vpcs := on_env (vpcsOf (m_Namespace (set_meta s))) in
    match vpcs with
    | [] => mfail (EText "no VPC found")
    | vpc :: _ =>
        let! n := make_subnet s vpc tags in
        let! won := first_with_room ipType rawStaticType bindings [n] in
        match won with
        | Some r => mret r
        | None => mfail (EText ("cannot allocate Port from SubnetSet " +:+ m_Name (set_meta s)))
        end
    end.
(** What AllocateSubnetFromSubnetSet answers: the path and the static type, or an
    error, and the UID of the SubnetSet whose read lock the caller now holds. *)
Record answer := mkAnswer { an_result : result goerr (string * string); an_lock : option string }.
Definition AllocateSubnetFromSubnetSet (s : SubnetSet) (ipType rawStaticType : string) (bindings : list string) : Call answer :=
  let uid := m_UID (set_meta s) in
  if bool_decide (ss_DHCPMode (set_CR s) = "DHCPRelay") then mret (mkAnswer (Err (EText "Creating SubnetPort on DHCPRelay SubnetSet is not supported")) None)
  else match set_SubnetNames s with
  | Some _ =>
      let! _ := log_lock (RLocked uid) in
      let! r := mcatch (let! s' := env_result (readSubnetSet s) in GetSubnetFromSubnetSet s' ipType rawStaticType bindings) in
      mret (mkAnswer r (Some uid))
  | None =>
      let! _ := log_lock (WLocked uid) in
      let! r := mcatch (
        let! subnets := on_env (subnetsBySet uid) in
        let! won := first_with_room ipType rawStaticType bindings subnets in
        match won with Some r => mret r | None => from_new_subnet s ipType rawStaticType bindings end) in
      let! _ := log_lock (WUnlocked uid) in
      mret (mkAnswer r None)
  end.
End Alloc.

(** ** The Subnet of a port *)
(** A SubnetPort CR: its owners by kind, name and UID, and the addresses of its
    status with their gateways. *)
Record PortCR := mkPortCR {
  pr_meta : meta; pr_Subnet : string; pr_SubnetSet : string; pr_InterfaceIPType : string; pr_StaticIPAllocationType : string;
  pr_AddressBindings : list string; pr_Owners : list (string * string * string); pr_Addresses : list (string * string) }.
Record PodCR := mkPodCR { po_meta : meta; po_StsUID : string; po_PodIP : string }.
(** What the choice reads beside [AllocEnv]. An object comes with whether it is
    being deleted, a stored port with its parent path. *)
Class PortEnv (W : Type) := {
  readSubnet : string -> string -> W -> result goerr (SubnetCR * bool);
  readSet : string -> string -> W -> result goerr (SubnetSet * bool);
  setsLabelled : string -> string -> string -> W -> result goerr (list (SubnetSet * bool));   (* by Namespace, label and value *)
  portByUID : string -> W -> result goerr (option (option string));
  portOfStatefulSet : string -> string -> W -> option (option string);                        (* GetExistingSubnetPortForStatefulSetPod *)
  readPod : string -> string -> W -> result goerr PodCR;
  statefulSetPorts : W -> bool }.                                                              (* StatefulSetPodSubnetPortFeatureEnabled *)
Definition GetDefaultInterfaceIPType (interfaceIPType parentIPAddressType : string) : result goerr string :=
  if negb (bool_decide (interfaceIPType = "")) then
    if bool_decide (parentIPAddressType = "") then Err (EText "Subnet/SubnetSet IPAddressType is not determined")
    else if IsSupersetIPAddressTypes parentIPAddressType interfaceIPType then Ok interfaceIPType
    else Err (EText ("Subnet/SubnetSet IPAddressType " +:+ parentIPAddressType +:+ " is not a superset of interfaceIPType " +:+ interfaceIPType))
  else Ok (if bool_decide (parentIPAddressType = "IPv6") then "IPv6" else "IPv4").
(** What is answered for a port: whether it exists, whether its parent is going,
    the path of its Subnet, the SubnetSet whose read lock is held, the types it
    was reserved with, and the error. *)
Record port_path := mkPortPath {
  pp_existing : bool; pp_stale : bool; pp_path : string; pp_lock : option string; pp_ipType : string; pp_static : string; pp_error : option goerr }.
Definition path_of (path : string) : port_path := mkPortPath true false path None "" "" None.
Definition failed (e : goerr) : port_path := mkPortPath false false "" None "" "" (Some e).
Definition of_answer (ipType : string) (a : answer) : port_path :=
  match an_result a with
  | Ok (path, st) => mkPortPath false false path (an_lock a) ipType st None
  | Err e => mkPortPath false false "" (an_lock a) ipType "" (Some e)
  end.
Section Ports.
Context {W : Type} `{!AllocEnv W, !PortEnv W}.
Definition GetDefaultSubnetSetByNamespace (ns resourceType : string) (w : W) : result goerr (SubnetSet * bool) :=
  match setsLabelled ns "nsx.vmware.com/default-network" resourceType w with
  | Err e => Err e
  | Ok [] => Err (EText "default SubnetSet not found")
  | Ok [s] => Ok s
  | Ok _ => Err (EText "multiple default SubnetSets found")
  end.
(** [ListDefaultSubnetSet]: by the label of today, then by the old one. *)
Definition listSubnetSet (ns label value : string) (w : W) : result goerr (option SubnetSet) :=
  match setsLabelled ns label value w with Err e => Err e | Ok l => Ok (fst <$> head l) end.
Definition old_default_label (subnetSetType : string) : string :=
  if bool_decide (subnetSetType = "pod") then "Pod" else if bool_decide (subnetSetType = "vm") then "VirtualMachine" else "".
Definition ListDefaultSubnetSet (ns subnetSetType : string) (w : W) : result goerr (option SubnetSet) :=
  match listSubnetSet ns "nsx.vmware.com/default-network" subnetSetType w with
  | Ok None => listSubnetSet ns "nsxoperator.vmware.com/default-subnetset-for" (old_default_label subnetSetType) w
  | r => r
  end.
(** The Subnet CR a SubnetPort names; an error says whether it is being deleted. *)
Definition getSubnetCR_of (p : PortCR) (w : W) : result (bool * goerr) (option SubnetCR) :=
  if bool_decide (pr_Subnet p = "") then Ok None
  else match readSubnet (m_Namespace (pr_meta p)) (pr_Subnet p) w with
  | Err e => Err (false, e)
  | Ok (_, true) => Err (true, EText ("subnet " +:+ m_Namespace (pr_meta p) +:+ "/" +:+ pr_Subnet p +:+ " is being deleted, cannot operate SubnetPort " +:+ m_Name (pr_meta p)))
  | Ok (cr, false) => Ok (Some cr)
  end.
(** The stored port of the CR, or else that of an owner Pod. *)
Fixpoint port_of_owners (owners : list (string * string * string)) (w : W) : option (option string) :=
  match owners with
  | [] => None
  | (kind, _, uid) :: owners' =>
      if bool_decide (kind = "Pod") && negb (bool_decide (uid = "")) then
        match portByUID uid w with Ok (Some p) => Some p | _ => port_of_owners owners' w end
      else port_of_owners owners' w
  end.
Definition existing_port (p : PortCR) (w : W) : result goerr (option (option string)) :=
  match portByUID (m_UID (pr_meta p)) w with
  | Err e => Err e
  | Ok (Some port) => Ok (Some port)
  | Ok None => Ok (port_of_owners (pr_Owners p) w)
  end.
Definition pod_owner (p : PortCR) : option (string * string * string) := head (filter (fun o : string * string * string => o.1.1 = "Pod") (pr_Owners p)).
(** [GetPodForSubnetPort]: the Pod of the first owner of the kind, by its UID. *)
Definition GetPodForSubnetPort (p : PortCR) (w : W) : result goerr (option PodCR) :=
  match pod_owner p with
  | None => Ok None
  | Some (_, name, uid) =>
      match readPod (m_Namespace (pr_meta p)) name w with
      | Err e => Err e
      | Ok pod =>
          if bool_decide (m_UID (po_meta pod) = uid) then Ok (Some pod)
          else Err (EText ("SubnetPort " +:+ m_Namespace (pr_meta p) +:+ "/" +:+ m_Name (pr_meta p) +:+ " owner Pod " +:+ name +:+ " UID changed from " +:+ uid +:+ " to " +:+ m_UID (po_meta pod)))
      end
  end.
(** The path kept for the Pod of a StatefulSet, [Some ""] when its port has none. *)
Definition kept_for_statefulset (p : PortCR) (w : W) : result goerr (option string) :=
  if match pod_owner p with Some (_, name, _) => negb (bool_decide (name = "")) | None => false end && statefulSetPorts w then
    match GetPodForSubnetPort p w with
    | Err e => Err e
    | Ok None => Ok None
    | Ok (Some pod) => Ok (default "" <$> portOfStatefulSet (m_Name (po_meta pod)) (po_StsUID pod) w)
    end
  else Ok None.
(** In a restoration: the Subnets the port may have been on, by its addresses. *)
Definition before_slash (s : string) : string := hd "" (split_on "/" s).
Fixpoint by_addresses (p : PortCR) (subnets : list NsxSubnet) (addresses : list (string * string)) : result goerr string :=
  match addresses with
  | [] => Err (EText ("SubnetPort " +:+ m_Namespace (pr_meta p) +:+ "/" +:+ m_Name (pr_meta p) +:+ " has no persisted IP or gateway to locate its original Subnet"))
  | (address, gateway) :: addresses' =>
      match (match ParseIP gateway with Some ip => Some ip | None => ParseIP (before_slash address) end) with
      | Some ip => GetSubnetByIP subnets ip
      | None => by_addresses p subnets addresses'
      end
  end.
Definition getSubnetBySubnetPort (p : PortCR) (cr : option SubnetCR) : Call (W := W) string :=
  let ns := m_Namespace (pr_meta p) in
  let! subnets := (
    if negb (bool_decide (pr_Subnet p = "")) then
      match cr with
      | None => mfail (EText ("Subnet CR " +:+ ns +:+ "/" +:+ pr_Subnet p +:+ " not provided"))
      | Some cr => let! s := env_result (subnetByCR cr) in mret [s]
      end
    else
      let! s := env_result (if negb (bool_decide (pr_SubnetSet p = "")) then readSet ns (pr_SubnetSet p) else GetDefaultSubnetSetByNamespace ns "vm") in
      GetNSXSubnetsForSubnetSet s.1) in
  mresult (by_addresses p subnets (pr_Addresses p)).
(** A new port on a Subnet, and on a SubnetSet. *)
Definition reserve_on_subnet (p : PortCR) (cr : SubnetCR) : Call (W := W) (string * string * string) :=
  let! s := env_result (subnetByCR cr) in
  let! ipType := mresult (GetDefaultInterfaceIPType (pr_InterfaceIPType p) (sp_IPAddressType (sub_spec cr))) in
  let st := ResolveEffectiveStaticIPAllocationType (pr_StaticIPAllocationType p) s ipType in
  let! ok := allocatePort s (IsSharedSubnet (m_Annotations (sub_meta cr))) ipType st (pr_AddressBindings p) in
  if ok : bool then let! path := mtotal (s_Path s) in mret (path, ipType, st)
  else mfail (EText ("Subnet " +:+ s_Id s +:+ " is exhausted")).
Definition set_title (p : PortCR) (s : SubnetSet) : string :=
  if bool_decide (pr_SubnetSet p = "") then "default subnetset " +:+ m_Name (set_meta s)
  else "subnetset " +:+ m_Namespace (pr_meta p) +:+ "/" +:+ pr_SubnetSet p.
Definition reserve_on_set (p : PortCR) (found : result goerr (SubnetSet * bool)) : Call (W := W) port_path :=
  match found with
  | Err e => mret (failed e)
  | Ok (s, true) => mret (mkPortPath false true "" None "" "" (Some (EText (set_title p s +:+ " is being deleted, cannot operate subnetport " +:+ m_Name (pr_meta p)))))
  | Ok (s, false) =>
      if bool_decide (pr_InterfaceIPType p = "") && bool_decide (ss_IPAddressType (set_CR s) = "")
      then mret (failed (EText ("waiting for SubnetSet " +:+ m_Namespace (set_meta s) +:+ "/" +:+ m_Name (set_meta s) +:+ " IPAddressType calculation")))
      else match GetDefaultInterfaceIPType (pr_InterfaceIPType p) (ss_IPAddressType (set_CR s)) with
      | Err e => mret (failed e)
      | Ok ipType =>
          let! a := AllocateSubnetFromSubnetSet s ipType (pr_StaticIPAllocationType p) (pr_AddressBindings p) in
          mret (of_answer ipType a)
      end
  end.
Definition new_port (p : PortCR) (cr : option SubnetCR) : Call (W := W) port_path :=
  let ns := m_Namespace (pr_meta p) in
  if negb (bool_decide (pr_Subnet p = "")) then
    match cr with
    | None => mret (failed (EText ("failed to get Subnet CR " +:+ ns +:+ "/" +:+ pr_Subnet p)))
    | Some cr =>
        let! r := mcatch (reserve_on_subnet p cr) in
        mret (match r with Ok (path, ipType, st) => mkPortPath false false path None ipType st None | Err e => failed e end)
    end
  else
    let! found := on_env (if negb (bool_decide (pr_SubnetSet p = "")) then readSet ns (pr_SubnetSet p) else GetDefaultSubnetSetByNamespace ns "vm") in
    reserve_on_set p found.
Definition restored_path (restoreMode : bool) (p : PortCR) (cr : option SubnetCR) : option (Call (W := W) port_path) :=
  if restoreMode && negb (bool_decide (pr_Addresses p = [])) then
    Some (let! r := mcatch (getSubnetBySubnetPort p cr) in mret (match r with Ok path => path_of path | Err e => failed e end))
  else None.
Definition CheckAndGetSubnetPathForSubnetPort (restoreMode : bool) (p : PortCR) : Call (W := W) port_path :=
  let! cr := on_env (getSubnetCR_of p) in
  match cr with
  | Err (stale, e) => mret (mkPortPath false stale "" None "" "" (Some e))
  | Ok cr =>
      let! port := on_env (existing_port p) in
      match port with
      | Err e => mret (failed e)
      | Ok port =>
          match mjoin port with
          | Some (String a path) => mret (path_of (String a path))
          | _ =>
              let! kept := on_env (kept_for_statefulset p) in
              match kept with
              | Err e => mret (failed e)
              | Ok (Some path) => mret (path_of path)
              | Ok None => match restored_path restoreMode p cr with Some restored => restored | None => new_port p cr end
              end
          end
      end
  end.
(** The Subnet of a Pod, by the default SubnetSet of its Namespace. [stored]: the
    path of its stored port, "" when there is none. *)
Definition pod_path (ipType path : string) : port_path := mkPortPath true false path None ipType "" None.
Definition GetSubnetPathForPod (restoreMode : bool) (stored : string -> W -> string) (pod : PodCR) : Call (W := W) port_path :=
  let m := po_meta pod in
  let! found := on_env (GetDefaultSubnetSetByNamespace (m_Namespace m) "pod") in
  match found with
  | Err e => mret (failed e)
  | Ok (s, _) =>
      let setType := ss_IPAddressType (set_CR s) in
      match (if bool_decide (setType = "") then Ok "" else GetDefaultInterfaceIPType setType setType) with
      | Err e => mret (failed e)
      | Ok ipType =>
          let! path := on_env (stored (m_UID m)) in
          if negb (bool_decide (path = "")) then mret (pod_path ipType path)
          else
            let! sts := on_env (fun w => if statefulSetPorts w then portOfStatefulSet (m_Name m) (po_StsUID pod) w else None) in
            match sts with
            | Some kept => mret (pod_path ipType (default "" kept))
            | None =>
                if restoreMode && negb (bool_decide (po_PodIP pod = "")) then
                  let! r := mcatch (let! subnets := GetNSXSubnetsForSubnetSet s in mresult (GetSubnetByIP subnets (default [] (ParseIP (po_PodIP pod))))) in
                  mret (match r with Ok path => pod_path ipType path | Err e => failed e end)
                else if bool_decide (setType = "") then mret (failed (EText "default Pod SubnetSet IPAddressType is under calculation"))
                else let! a := AllocateSubnetFromSubnetSet s ipType "" [] in mret (of_answer ipType a)
            end
      end
  end.
(** ** The frame of a reconcile
    The deferred calls of [Reconcile] (subnetport) and [reconcileLegacy] (pod):
    the reservation of a new port is released, then the read lock is given back. *)
Definition reconcile_port (get : Call (W := W) port_path) (bindings : list string) (body : port_path -> Call (W := W) unit) : Call (W := W) unit :=
  let! pp := get in
  let! r := mcatch (
    if pp_stale pp then mfail (EText "parent resource is terminating, SubnetPort cannot be created")
    else match pp_error pp with
    | Some e => mfail e
    | None =>
        let! r := mcatch (body pp) in
        let! _ := (if pp_existing pp then mret tt else releasePort (pp_path pp) (pp_ipType pp) (pp_static pp) bindings) in
        mresult r
    end) in
  let! _ := (match pp_lock pp with Some uid => log_lock (RUnlocked uid) | None => mret tt end) in
  mresult r.
End Ports.

(** * Properties *)
(** ** Reserved addresses *)
Definition reserved (c : gmap string CountInfo) (path : string) (v6 static : bool) : Z := dirty (default newCountInfo (c !! path)) v6 static.
(** Counters with the same reservations, whatever they know of the totals. *)
Definition same_reserved (c1 c2 : gmap string CountInfo) : Prop := forall path v6 static, reserved c1 path v6 static = reserved c2 path v6 static.
#[global] Instance same_reserved_equiv : Equivalence same_reserved.
Proof. split; [done|by intros c1 c2 Hs p a b|intros c1 c2 c3 H1 H2 p a b; by rewrite H1]. Qed.
Definition counted (c : gmap string CountInfo) : Prop := forall path v6 static, 0 <= reserved c path v6 static.
#[global] Instance counted_proper : Proper (same_reserved ==> iff) counted.
Proof. intros c1 c2 Hs. split; intros Hc p a b; [rewrite <- Hs|rewrite Hs]; apply Hc. Qed.
Lemma reserved_insert c path info p a b : reserved (<[path := info]> c) p a b = if bool_decide (p = path) then dirty info a b else reserved c p a b.
Proof. unfold reserved. case_bool_decide as Hp; [by rewrite Hp, lookup_insert_eq|by rewrite lookup_insert_ne by done]. Qed.
Section Refused.
Context (AddressCount : IPNet -> Z) (stats : nsx_stats) (ports : list VpcSubnetPort) (now : Z) (s : PortAlloc.Subnet) (shared : bool)
  (ipType staticType : string) (bindings : list string).
(** A port that is not given a place leaves the reservations as they were. *)
Lemma refused_same_dirty entry r info : allocate_info AddressCount stats ports now s shared ipType staticType bindings entry = (r, info) -> r <> Ok true ->
  forall a b, dirty info a b = dirty (default newCountInfo entry) a b.
Proof.
  unfold allocate_info. destruct (requested ipType bindings) as [v4 v6]. intros Ha Hr a b.
  destruct (if IPAddressTypeIncludesIPv4 ipType then _ else _) as [r4 i4] eqn:E4.
  assert (forall a b, dirty i4 a b = dirty (default newCountInfo entry) a b) as D4.
  { destruct (IPAddressTypeIncludesIPv4 ipType); [by apply checkIPv4Capacity_spec in E4 as [[D _] _]|by injection E4 as <- <-]. }
  destruct r4 as [[|]|e]; [|by injection Ha as <- <-..].
  destruct (if IPAddressTypeIncludesIPv6 ipType then _ else _) as [r6 i6] eqn:E6.
  assert (forall a b, dirty i6 a b = dirty i4 a b) as D6.
  { destruct (IPAddressTypeIncludesIPv6 ipType); [by apply checkIPv6Capacity_spec in E6 as [[D _] _]|by injection E6 as <- <-]. }
  destruct r6 as [[|]|e]; [|injection Ha as <- <-; by rewrite D6, D4..]. by injection Ha as <- <-.
Qed.
Lemma refused_same_reserved c r c' : AllocatePortFromSubnet AddressCount c stats ports now s shared ipType staticType bindings = (r, c') -> r <> Ok true ->
  same_reserved c c'.
Proof.
  unfold AllocatePortFromSubnet. destruct (allocate_info _ _ _ _ _ _ _ _ _ _) as [r0 info] eqn:E. intros [= <- <-] Hr p a b.
  rewrite reserved_insert. case_bool_decide as Hp; [|done]. by rewrite (refused_same_dirty _ _ _ E Hr), Hp.
Qed.
(** What was reserved is released by the same arguments. *)
Lemma reserved_undone c c' : counted c -> AllocatePortFromSubnet AddressCount c stats ports now s shared ipType staticType bindings = (Ok true, c') ->
  same_reserved c (ReleasePortInSubnet c' (sn_Path s) ipType staticType bindings).
Proof.
  unfold AllocatePortFromSubnet. destruct (allocate_info _ _ _ _ _ _ _ _ _ _) as [r0 info] eqn:E. intros Hc [= -> <-] p a b.
  unfold ReleasePortInSubnet. rewrite lookup_insert_eq, !reserved_insert. case_bool_decide as Hp; [|done]. subst p.
  apply allocate_info_added in E as (i & Hi & ->). rewrite release_added; [by rewrite Hi|]. intros. rewrite Hi. apply (Hc (sn_Path s)).
Qed.
End Refused.

(** ** Calls *)
Section Calls.
Context {W : Type} `{!AllocEnv W}.
(** A call that reserves nothing and takes no lock. *)
Definition neutral {A} (m : Call (W := W) A) : Prop := forall s r s', m s = Some (r, s') ->
  same_reserved (as_counts s) (as_counts s') /\ as_locks s' = as_locks s.
Lemma neutral_ret {A} (a : A) : neutral (mret a).
Proof. by intros s r s' [= <- <-]. Qed.
Lemma neutral_fail {A} e : neutral (A := A) (mfail e).
Proof. by intros s r s' [= <- <-]. Qed.
Lemma neutral_total {A} (o : option A) : neutral (mtotal o).
Proof. destruct o; [by intros s r s' [= <- <-]|by intros s r s' [=]]. Qed.
Lemma neutral_result {A} (x : result goerr A) : neutral (mresult x).
Proof. by intros s r s' [= <- <-]. Qed.
Lemma neutral_on_env {A} (f : W -> A) : neutral (on_env f).
Proof. by intros s r s' [= <- <-]. Qed.
Lemma neutral_env_result {A} (f : W -> result goerr A) : neutral (env_result f).
Proof. by intros s r s' [= <- <-]. Qed.
Lemma neutral_make s vpc tags : neutral (make_subnet s vpc tags).
Proof. intros st r st'. unfold make_subnet. destruct (makeSubnet _ _ _ _). by intros [= <- <-]. Qed.
Lemma neutral_bind {A B} (m : Call (W := W) A) (k : A -> Call (W := W) B) : neutral m -> (forall a, neutral (k a)) -> neutral (let! x := m in k x).
Proof.
  intros Hm Hk s r s' [(a & s1 & Hrun & Hrest)|(e & Hrun & ->)]%bindM_Some; [|by eapply Hm].
  destruct (Hm _ _ _ Hrun) as [H1 H2]. destruct (Hk _ _ _ _ Hrest) as [H3 H4]. split; [by etrans|congruence].
Qed.
Lemma neutral_catch {A} (m : Call (W := W) A) : neutral m -> neutral (mcatch m).
Proof. intros Hm s r s' (r' & -> & Hrun)%mcatch_Some. by eapply Hm. Qed.

(** A call whose answer, when it is [sel r = Some (path, static)], has reserved in
    that Subnet what releasing with these arguments gives back; and nothing
    otherwise. *)
Definition reserving {A} (sel : result goerr A -> option (string * string * string)) (bindings : list string) (m : Call (W := W) A) : Prop :=
  forall s r s', counted (as_counts s) -> m s = Some (r, s') ->
  as_locks s' = as_locks s /\
  same_reserved (as_counts s) match sel r with
    | Some (path, ipType, st) => ReleasePortInSubnet (as_counts s') path ipType st bindings
    | None => as_counts s'
    end.
Lemma reserving_neutral {A} sel bindings (m : Call (W := W) A) : neutral m -> (forall r s s', m s = Some (r, s') -> sel r = None) -> reserving sel bindings m.
Proof. intros Hm Hsel s r s' _ Hrun. rewrite (Hsel _ _ _ Hrun). destruct (Hm _ _ _ Hrun). done. Qed.
(** A neutral call before, and a continuation by cases. *)
Lemma reserving_bind {A B} sel bindings (m : Call (W := W) A) (k : A -> Call (W := W) B) :
  neutral m -> (forall e, sel (Err e) = None) -> (forall a, reserving sel bindings (k a)) -> reserving sel bindings (let! x := m in k x).
Proof.
  intros Hm Herr Hk s r s' Hc [(a & s1 & Hrun & Hrest)|(e & Hrun & ->)]%bindM_Some.
  - destruct (Hm _ _ _ Hrun) as [H1 H2]. rewrite H1 in Hc. destruct (Hk _ _ _ _ Hc Hrest) as [H3 H4]. split; [congruence|by etrans].
  - destruct (Hm _ _ _ Hrun) as [H1 H2]. by rewrite Herr.
Qed.
Lemma reserving_ret {A} (sel : result goerr A -> _) bindings a : sel (Ok a) = None -> reserving sel bindings (mret a).
Proof. intros Hs s r s' _ [= <- <-]. by rewrite Hs. Qed.
Lemma reserving_fail {A} (sel : result goerr A -> _) bindings e : sel (Err e) = None -> reserving sel bindings (mfail e).
Proof. intros Hs s r s' _ [= <- <-]. by rewrite Hs. Qed.
(** The reservation of one port, and what follows it. *)
Lemma allocatePort_cases s shared ipType st bindings x r x' : counted (as_counts x) -> allocatePort s shared ipType st bindings x = Some (r, x') ->
  as_locks x' = as_locks x /\ as_world x' = as_world x /\ exists path, s_Path s = Some path /\
  (r = Ok true -> same_reserved (as_counts x) (ReleasePortInSubnet (as_counts x') path ipType st bindings)) /\
  (r <> Ok true -> same_reserved (as_counts x) (as_counts x')).
Proof.
  intros Hc. unfold allocatePort, bindM, mtotal. destruct (s_Path s) as [path|]; [|done].
  destruct (AllocatePortFromSubnet _ _ _ _ _ _ _ _ _ _) as [r0 c'] eqn:E. intros [= <- <-]. cbn. split_and!; [done|done|]. exists path. split_and!; [done| |].
  - intros ->. exact (reserved_undone _ _ _ _ _ _ _ _ _ _ _ Hc E).
  - intros Hr. exact (refused_same_reserved _ _ _ _ _ _ _ _ _ _ _ _ E Hr).
Qed.
End Calls.
Create HintDb neutral discriminated.
#[export] Hint Resolve neutral_ret neutral_fail neutral_total neutral_result neutral_on_env neutral_env_result neutral_make neutral_catch neutral_bind : neutral.

Section Reserving.
Context {W : Type} `{!AllocEnv W}.
Definition won (ipType : string) (r : result goerr (string * string)) : option (string * string * string) :=
  match r with Ok (path, st) => Some (path, ipType, st) | Err _ => None end.
Definition won_opt (ipType : string) (r : result goerr (option (string * string))) : option (string * string * string) :=
  match r with Ok (Some (path, st)) => Some (path, ipType, st) | _ => None end.
Definition won_tried (ipType : string) (r : result goerr tried) : option (string * string * string) :=
  match r with Ok (Reserved path st) => Some (path, ipType, st) | _ => None end.
Definition won_sum (ipType : string) (r : result goerr (string * string + list goerr)) : option (string * string * string) :=
  match r with Ok (inl (path, st)) => Some (path, ipType, st) | _ => None end.
(** A step that reserves or goes on, then the rest. *)
Lemma first_with_room_reserving ipType raw bindings subnets : reserving (won_opt ipType) bindings (first_with_room (W := W) ipType raw bindings subnets).
Proof.
  induction subnets as [|s subnets IH]; [by apply reserving_ret|]. intros x r x' Hc. cbn [first_with_room]. cbv zeta.
  intros [(ok & x1 & Hrun & Hrest)|(e & Hrun & ->)]%bindM_Some; apply allocatePort_cases in Hrun as (Hl & _ & path & Hp & Htrue & Hfalse); [|done| |done].
  - destruct ok.
    + unfold mtotal, bindM, mret in Hrest. rewrite Hp in Hrest. injection Hrest as <- <-. split; [done|]. by apply Htrue.
    + specialize (Hfalse ltac:(done)). rewrite Hfalse in Hc. destruct (IH _ _ _ Hc Hrest) as [H1 H2]. split; [congruence|]. by rewrite Hfalse.
  - split; [done|]. by apply Hfalse.
Qed.
Lemma try_subnet_reserving ns config ipType raw bindings name : reserving (won_tried ipType) bindings (try_subnet (W := W) ns config ipType raw bindings name).
Proof.
  unfold try_subnet. apply reserving_bind; [auto 10 with neutral|done|]. intros [[cr s]|e]; [|by apply reserving_ret].
  set (go := let! r := mcatch _ in _). assert (reserving (won_tried ipType) bindings go) as Hgo.
  { intros x r x' Hc. unfold go. cbv zeta. intros [(res & x1 & Hrun & Hrest)|(e & Hrun & ->)]%bindM_Some; apply mcatch_Some in Hrun as (res' & Hres & Hrun); [|done].
    injection Hres as ->. apply allocatePort_cases in Hrun as (Hl & _ & path & Hp & Htrue & Hfalse); [|done].
    destruct res' as [[|]|e].
    - unfold mtotal, bindM, mret in Hrest. rewrite Hp in Hrest. injection Hrest as <- <-. split; [done|]. by apply Htrue.
    - injection Hrest as <- <-. split; [done|]. by apply Hfalse.
    - injection Hrest as <- <-. split; [done|]. by apply Hfalse. }
  destruct config as [paths|]; [|done]. apply reserving_bind; [auto with neutral|done|]. intros path. case_bool_decide; [done|by apply reserving_ret].
Qed.
Lemma try_subnets_reserving ns config ipType raw bindings names : forall errs,
  reserving (won_sum ipType) bindings (try_subnets (W := W) ns config ipType raw bindings names errs).
Proof.
  induction names as [|n names IH]; intros errs; [by apply reserving_ret|]. intros x r x' Hc. cbn [try_subnets].
  intros [(t & x1 & Hrun & Hrest)|(e & Hrun & ->)]%bindM_Some; destruct (try_subnet_reserving ns config ipType raw bindings n _ _ _ Hc Hrun) as [Hl Hs].
  - destruct t as [path st|e]; cbn in Hs.
    + injection Hrest as <- <-. done.
    + rewrite Hs in Hc. destruct (IH _ _ _ _ Hc Hrest) as [H1 H2]. split; [congruence|]. by rewrite Hs.
  - done.
Qed.
Lemma GetSubnetFromSubnetSet_reserving s ipType raw bindings : reserving (won ipType) bindings (GetSubnetFromSubnetSet (W := W) s ipType raw bindings).
Proof.
  unfold GetSubnetFromSubnetSet, getSubnetFromVPCNetworkConfiguration, GetVpcNetworkConfig. apply reserving_bind; [|done|].
  { case_bool_decide; [auto with neutral|]. do 2 (apply neutral_bind; [|auto with neutral]). apply neutral_bind; [auto with neutral|]. intros [?|]; auto with neutral. }
  intros config. apply reserving_bind; [auto with neutral|done|]. intros names x r x' Hc.
  intros [(t & x1 & Hrun & Hrest)|(e & Hrun & ->)]%bindM_Some; destruct (try_subnets_reserving _ _ _ _ _ _ _ _ _ _ Hc Hrun) as [Hl Hs]; [|done].
  destruct t as [[path st]|[|e es]]; injection Hrest as <- <-; done.
Qed.
Lemma from_new_subnet_reserving s ipType raw bindings : reserving (won ipType) bindings (from_new_subnet (W := W) s ipType raw bindings).
Proof.
  unfold from_new_subnet. apply reserving_bind; [auto with neutral|done|]. intros tags. case_bool_decide; [by apply reserving_fail|].
  apply reserving_bind; [auto with neutral|done|]. intros [|vpc vpcs]; [by apply reserving_fail|].
  apply reserving_bind; [auto with neutral|done|]. intros n x r x' Hc.
  intros [(t & x1 & Hrun & Hrest)|(e & Hrun & ->)]%bindM_Some; destruct (first_with_room_reserving _ _ _ _ _ _ _ Hc Hrun) as [Hl Hs]; [|done].
  destruct t as [[path st]|]; injection Hrest as <- <-; done.
Qed.
End Reserving.

(** ** The Subnet of a SubnetSet *)
Section Answers.
Context {W : Type} `{!AllocEnv W, !PortEnv W}.
Definition kept_locks (lock : option string) (evs : list lock_event) : Prop :=
  match lock with Some uid => evs = [RLocked uid] | None => evs = [] \/ exists uid, evs = [WLocked uid; WUnlocked uid] end.
Definition answer_spec (ipType : string) (bindings : list string) (m : Call (W := W) answer) : Prop := forall s r s',
  counted (as_counts s) -> m s = Some (r, s') -> exists a, r = Ok a /\
  (exists evs, as_locks s' = as_locks s ++ evs /\ kept_locks (an_lock a) evs) /\
  same_reserved (as_counts s) match an_result a with Ok (path, st) => ReleasePortInSubnet (as_counts s') path ipType st bindings | Err _ => as_counts s' end.
(** A reserving call whose answer is caught, between the events of the lock. *)
Lemma caught_answer ipType bindings (m : Call (W := W) (string * string)) s r s' : reserving (won ipType) bindings m -> counted (as_counts s) ->
  mcatch m s = Some (r, s') -> exists x, r = Ok x /\ as_locks s' = as_locks s /\
  same_reserved (as_counts s) match x with Ok (path, st) => ReleasePortInSubnet (as_counts s') path ipType st bindings | Err _ => as_counts s' end.
Proof.
  intros Hm Hc (x & -> & Hrun)%mcatch_Some. exists x. destruct (Hm _ _ _ Hc Hrun) as [Hl Hs]. split_and!; [done|done|]. by destruct x as [[]|].
Qed.
Lemma own_subnets_reserving s ipType raw bindings : reserving (W := W) (won ipType) bindings (
  let! subnets := on_env (subnetsBySet (m_UID (set_meta s))) in
  let! won := first_with_room ipType raw bindings subnets in
  match won with Some r => mret r | None => from_new_subnet s ipType raw bindings end).
Proof.
  apply reserving_bind; [auto with neutral|done|]. intros subnets x r x' Hc.
  intros [(t & x1 & Hrun & Hrest)|(e & Hrun & ->)]%bindM_Some; destruct (first_with_room_reserving _ _ _ _ _ _ _ Hc Hrun) as [Hl Hs]; [|done].
  destruct t as [[path st]|]; [by injection Hrest as <- <-|]. cbn in Hs. rewrite Hs in Hc.
  destruct (from_new_subnet_reserving _ _ _ _ _ _ _ Hc Hrest) as [H1 H2]. split; [congruence|]. by rewrite Hs.
Qed.
Lemma log_lock_Some e x (r : result goerr unit) x' : log_lock (W := W) e x = Some (r, x') -> r = Ok tt /\ x' = mkAlloc (as_counts x) (as_locks x ++ [e]) (as_world x).
Proof. by intros [= <- <-]. Qed.
Lemma AllocateSubnetFromSubnetSet_spec s ipType raw bindings : answer_spec ipType bindings (AllocateSubnetFromSubnetSet s ipType raw bindings).
Proof.
  intros x r x' Hc. unfold AllocateSubnetFromSubnetSet. case_bool_decide.
  { intros [= <- <-]. eexists. split_and!; [done|exists []; rewrite app_nil_r; split; [done|by left]|done]. }
  destruct (set_SubnetNames s) as [names|].
  - intros Hrun. apply bindM_Some in Hrun as [(u & x1 & (Hu & ->)%log_lock_Some & Hrun)|(e & [Hu _]%log_lock_Some & _)]; [|done].
    apply bindM_Some in Hrun as [(a & x2 & Hrun & [= <- <-])|(e & (? & [=] & _)%mcatch_Some & _)].
    apply (caught_answer ipType bindings) in Hrun as (res & [= ->] & Hl & Hs); [| |exact Hc].
    + eexists. split_and!; [done| |exact Hs]. exists [RLocked (m_UID (set_meta s))]. split; [exact Hl|done].
    + apply reserving_bind; [auto with neutral|done|]. intros s'. apply GetSubnetFromSubnetSet_reserving.
  - intros Hrun. apply bindM_Some in Hrun as [(u & x1 & (Hu & ->)%log_lock_Some & Hrun)|(e & [Hu _]%log_lock_Some & _)]; [|done].
    apply bindM_Some in Hrun as [(a & x2 & Hrun & Hrest)|(e & (? & [=] & _)%mcatch_Some & _)].
    apply (caught_answer ipType bindings) in Hrun as (res & [= ->] & Hl & Hs); [|apply own_subnets_reserving|exact Hc].
    injection Hrest as <- <-. eexists. split_and!; [done| |exact Hs].
    exists [WLocked (m_UID (set_meta s)); WUnlocked (m_UID (set_meta s))]. cbn. rewrite Hl. cbn. split; [by rewrite <- app_assoc|eauto].
Qed.

(** ** The Subnet of a port *)
Definition port_spec (bindings : list string) (m : Call (W := W) port_path) : Prop := forall s r s',
  counted (as_counts s) -> m s = Some (r, s') -> exists pp, r = Ok pp /\
  (exists evs, as_locks s' = as_locks s ++ evs /\ kept_locks (pp_lock pp) evs) /\
  (pp_stale pp = true -> pp_error pp <> None) /\
  same_reserved (as_counts s) match pp_existing pp, pp_error pp with
    | false, None => ReleasePortInSubnet (as_counts s') (pp_path pp) (pp_ipType pp) (pp_static pp) bindings
    | _, _ => as_counts s'
    end.
(** A path that reserves nothing. *)
Definition unreserved (pp : port_path) : Prop := pp_lock pp = None /\ (pp_stale pp = true -> pp_error pp <> None) /\ (pp_existing pp = true \/ pp_error pp <> None).
Lemma port_ret bindings pp : unreserved pp -> port_spec bindings (mret pp).
Proof.
  intros (Hl & Hs & Hn) s r s' _ [= <- <-]. exists pp. split_and!; [done| |done|].
  - exists []. rewrite app_nil_r, Hl. split; [done|by left].
  - destruct (pp_existing pp), (pp_error pp); destruct Hn; done.
Qed.
Lemma port_bind {A} bindings (m : Call (W := W) A) k : neutral m -> (forall s e s', m s <> Some (Err e, s')) -> (forall a, port_spec bindings (k a)) ->
  port_spec bindings (let! x := m in k x).
Proof.
  intros Hm Hok Hk s r s' Hc [(a & s1 & Hrun & Hrest)|(e & Hrun & ->)]%bindM_Some; [|by apply Hok in Hrun].
  destruct (Hm _ _ _ Hrun) as [H1 H2]. rewrite H1 in Hc. destruct (Hk _ _ _ _ Hc Hrest) as (pp & -> & (evs & Hl & Hkept) & Hst & Hs).
  exists pp. split_and!; [done| |done|by rewrite H1]. exists evs. split; [congruence|done].
Qed.
Lemma on_env_ok {A} (f : W -> A) s e s' : on_env f s <> Some (Err e, s').
Proof. done. Qed.
Lemma mcatch_ok {A} (m : Call (W := W) A) s e s' : mcatch m s <> Some (Err e, s').
Proof. by intros (? & [=] & _)%mcatch_Some. Qed.
Lemma port_of_answer ipType bindings (m : Call (W := W) answer) : answer_spec ipType bindings m -> port_spec bindings (let! a := m in mret (of_answer ipType a)).
Proof.
  intros Hm s r s' Hc [(a & s1 & Hrun & [= <- <-])|(e & Hrun & ->)]%bindM_Some; destruct (Hm _ _ _ Hc Hrun) as (a' & Ha & Hl & Hs); [|done].
  injection Ha as ->. exists (of_answer ipType a'). unfold of_answer. by destruct (an_result a') as [[path st]|e].
Qed.
Lemma neutral_names ns names : neutral (subnets_of_names (W := W) ns names).
Proof. induction names; cbn; [apply neutral_ret|]. repeat (apply neutral_bind; [auto with neutral|]; intros). auto with neutral. Qed.
Lemma neutral_nsx_subnets s : neutral (GetNSXSubnetsForSubnetSet (W := W) s).
Proof. unfold GetNSXSubnetsForSubnetSet. destruct (set_SubnetNames s); [apply neutral_names|auto with neutral]. Qed.
Lemma neutral_restore p cr : neutral (getSubnetBySubnetPort (W := W) p cr).
Proof.
  unfold getSubnetBySubnetPort. apply neutral_bind; [|auto with neutral]. case_bool_decide; cbn [negb].
  - apply neutral_bind; [auto with neutral|]. intros. apply neutral_nsx_subnets.
  - destruct cr; auto with neutral.
Qed.
Lemma unreserved_failed e : unreserved (failed e).
Proof. split_and!; [done|done|by right]. Qed.
Lemma unreserved_path path : unreserved (path_of path).
Proof. split_and!; [done|done|by left]. Qed.
Lemma unreserved_pod ipType path : unreserved (pod_path ipType path).
Proof. split_and!; [done|done|by left]. Qed.
Lemma reserve_on_subnet_reserving p cr : reserving (W := W) (fun r => match r with Ok x => Some x | Err _ => None end) (pr_AddressBindings p) (reserve_on_subnet p cr).
Proof.
  unfold reserve_on_subnet. apply reserving_bind; [auto with neutral|done|]. intros n. apply reserving_bind; [auto with neutral|done|]. intros ipType. cbv zeta.
  intros x r x' Hc [(ok & x1 & Hrun & Hrest)|(e & Hrun & ->)]%bindM_Some; apply allocatePort_cases in Hrun as (Hl & _ & path & Hp & Htrue & Hfalse); [|done| |done].
  - destruct ok.
    + unfold mtotal, bindM, mret in Hrest. rewrite Hp in Hrest. injection Hrest as <- <-. split; [done|]. by apply Htrue.
    + injection Hrest as <- <-. split; [done|]. by apply Hfalse.
  - split; [done|]. by apply Hfalse.
Qed.
Lemma new_port_spec p cr : port_spec (pr_AddressBindings p) (new_port (W := W) p cr).
Proof.
  unfold new_port. case_bool_decide; cbn [negb].
  - apply port_bind; [auto with neutral|apply on_env_ok|]. intros [[s [|]]|e]; [apply port_ret; split_and!; [done|done|by right]| |apply port_ret, unreserved_failed].
    cbn [reserve_on_set]. destruct (_ && _); [apply port_ret, unreserved_failed|]. destruct (GetDefaultInterfaceIPType _ _); [|apply port_ret, unreserved_failed].
    apply port_of_answer, AllocateSubnetFromSubnetSet_spec.
  - destruct cr as [cr|]; [|apply port_ret, unreserved_failed].
    intros x r x' Hc [(res & x1 & Hrun & [= <- <-])|(e & (? & [=] & _)%mcatch_Some & _)]%bindM_Some.
    apply mcatch_Some in Hrun as (res' & [= ->] & Hrun). destruct (reserve_on_subnet_reserving _ _ _ _ _ Hc Hrun) as [Hl Hs].
    eexists. split_and!; [done| | |]; destruct res' as [[[path ipType] st]|e]; try done; exists []; rewrite app_nil_r; (split; [done|by left]).
Qed.
Lemma CheckAndGet_spec restoreMode p : port_spec (pr_AddressBindings p) (CheckAndGetSubnetPathForSubnetPort (W := W) restoreMode p).
Proof.
  unfold CheckAndGetSubnetPathForSubnetPort. apply port_bind; [auto with neutral|apply on_env_ok|]. intros [cr|[stale e]]; [|by apply port_ret; split_and!; [|intros _|right]].
  apply port_bind; [auto with neutral|apply on_env_ok|]. intros [port|e]; [|apply port_ret, unreserved_failed].
  assert (port_spec (pr_AddressBindings p) (
    let! kept := on_env (kept_for_statefulset p) in
    match kept with
    | Err e => mret (failed e)
    | Ok (Some path) => mret (path_of path)
    | Ok None => match restored_path (W := W) restoreMode p cr with Some restored => restored | None => new_port p cr end
    end)) as Hnew.
  { apply port_bind; [auto with neutral|apply on_env_ok|]. intros [[path|]|e]; [apply port_ret, unreserved_path| |apply port_ret, unreserved_failed].
    unfold restored_path. destruct (restoreMode && _); [|apply new_port_spec].
    apply port_bind; [apply neutral_catch, neutral_restore|apply mcatch_ok|]. intros [path|e]; apply port_ret; [apply unreserved_path|apply unreserved_failed]. }
  destruct (mjoin port) as [[|a path]|]; [done|apply port_ret, unreserved_path|done].
Qed.
Lemma GetSubnetPathForPod_spec restoreMode stored pod : port_spec [] (GetSubnetPathForPod (W := W) restoreMode stored pod).
Proof.
  unfold GetSubnetPathForPod. apply port_bind; [auto with neutral|apply on_env_ok|]. intros [[s b]|e]; [|apply port_ret, unreserved_failed].
  destruct (if bool_decide _ then _ else _) as [ipType|e]; [|apply port_ret, unreserved_failed].
  apply port_bind; [auto with neutral|apply on_env_ok|]. intros path. case_bool_decide; cbn [negb]; [|apply port_ret, unreserved_pod].
  apply port_bind; [auto with neutral|apply on_env_ok|]. intros [kept|]; [apply port_ret, unreserved_pod|]. destruct (restoreMode && _).
  - apply port_bind; [|apply mcatch_ok|].
    + apply neutral_catch, neutral_bind; [apply neutral_nsx_subnets|]. intros. auto with neutral.
    + intros [p|e]; apply port_ret; [apply unreserved_pod|apply unreserved_failed].
  - case_bool_decide; [apply port_ret, unreserved_failed|]. apply port_of_answer, AllocateSubnetFromSubnetSet_spec.
Qed.
End Answers.

(** ** Reconciles *)
Section Reconciles.
Context {W : Type} `{!AllocEnv W, !PortEnv W}.
Inductive port_source : Call (W := W) port_path -> list string -> Prop :=
  | of_SubnetPort restoreMode p : port_source (CheckAndGetSubnetPathForSubnetPort restoreMode p) (pr_AddressBindings p)
  | of_Pod restoreMode stored pod : port_source (GetSubnetPathForPod restoreMode stored pod) [].
Lemma port_source_spec get bindings : port_source get bindings -> port_spec bindings get.
Proof. intros []; [apply CheckAndGet_spec|apply GetSubnetPathForPod_spec]. Qed.
Definition balanced (evs : list lock_event) : Prop :=
  evs = [] \/ exists uid, evs = [WLocked uid; WUnlocked uid] \/ evs = [RLocked uid; RUnlocked uid].
Lemma kept_balanced lock evs : kept_locks lock evs -> balanced (evs ++ match lock with Some uid => [RUnlocked uid] | None => [] end).
Proof.
  unfold kept_locks, balanced. destruct lock as [uid|]; [intros ->; right; exists uid; by right|].
  intros [-> | [uid ->]]; [by left|right; exists uid; by left].
Qed.
Lemma unlock_run lock x (r0 r : result goerr unit) x' :
  (let! _ := (match lock with Some uid => log_lock (W := W) (RUnlocked uid) | None => mret tt end) in mresult r0) x = Some (r, x') ->
  as_counts x' = as_counts x /\ as_locks x' = as_locks x ++ match lock with Some uid => [RUnlocked uid] | None => [] end.
Proof. destruct lock; intros [= <- <-]; cbn; [done|by rewrite app_nil_r]. Qed.
Lemma release_same c c' path ipType st bindings : same_reserved c c' ->
  same_reserved (ReleasePortInSubnet c path ipType st bindings) (ReleasePortInSubnet c' path ipType st bindings).
Proof.
  intros Hs p a b. unfold ReleasePortInSubnet.
  assert (forall i, (forall a b, dirty i a b = 0) -> forall a b, dirty (release_info ipType st bindings i) a b = dirty i a b) as Hzero.
  { intros i Hi a' b'. unfold release_info. destruct (requested ipType bindings) as [v4 v6] eqn:E.
    pose proof (requested_nonneg ipType bindings) as [R4 R6]. rewrite E in R4, R6. cbn in R4, R6.
    assert (forall i f s n, (forall a b, dirty i a b = 0) -> 0 <= n -> forall a b, dirty (release_family i f s n) a b = 0) as Hf.
    { intros j f s n Hj Hn a0 b0. unfold release_family. case_bool_decide as Hlt; [done|]. rewrite Hj in Hlt. assert (n = 0) as -> by lia.
      rewrite dirty_add_dirty, Hj. case_bool_decide; lia. }
    rewrite Hi. destruct (IPAddressTypeIncludesIPv4 ipType), (IPAddressTypeIncludesIPv6 ipType); [apply Hf; [intros; by apply Hf|done]|by apply Hf|by apply Hf|apply Hi]. }
  assert (forall i j, (forall a b, dirty i a b = dirty j a b) -> forall a b, dirty (release_info ipType st bindings i) a b = dirty (release_info ipType st bindings j) a b) as Hcong.
  { intros i j Hij. unfold release_info. destruct (requested ipType bindings) as [v4 v6].
    assert (forall i j f s n, (forall a b, dirty i a b = dirty j a b) -> forall a b, dirty (release_family i f s n) a b = dirty (release_family j f s n) a b) as Hf.
    { intros i' j' f s n Hij' a0 b0. unfold release_family. rewrite Hij'. case_bool_decide; [done|]. by rewrite !dirty_add_dirty, Hij'. }
    destruct (IPAddressTypeIncludesIPv4 ipType), (IPAddressTypeIncludesIPv6 ipType); [intros; apply Hf; intros; by apply Hf|intros; by apply Hf|intros; by apply Hf|done]. }
  pose proof (Hs path) as Hpath. unfold reserved in Hpath.
  destruct (c !! path) as [i|] eqn:E1, (c' !! path) as [j|] eqn:E2; rewrite ?reserved_insert; try case_bool_decide as Hp; try apply Hs; subst.
  - by apply Hcong.
  - rewrite Hzero; [|intros; rewrite Hpath; by destruct a0, b0]. unfold reserved. rewrite E2. by apply Hpath.
  - rewrite Hzero; [|intros; rewrite <- Hpath; by destruct a0, b0]. unfold reserved. rewrite E1. by apply Hpath.
Qed.
(** C34. Reconciling a Pod or a SubnetPort leaves no reservation and no lock
    behind: however the Subnet is chosen and whether the reconcile fails before,
    in or after it, when it returns every reservation counter of every Subnet is
    what it was, and the lock of a SubnetSet it took has been given back once. *)
Theorem reconcile_port_balanced get bindings body s r s' : port_source get bindings -> (forall pp, neutral (body pp)) -> counted (as_counts s) ->
  reconcile_port get bindings body s = Some (r, s') ->
  same_reserved (as_counts s) (as_counts s') /\ exists evs, as_locks s' = as_locks s ++ evs /\ balanced evs.
Proof.
  intros Hget%port_source_spec Hbody Hc Hrun. unfold reconcile_port in Hrun.
  apply bindM_Some in Hrun as [(pp & s1 & Hpp & Hrun)|(e & Hpp & ->)]; destruct (Hget _ _ _ Hc Hpp) as (pp' & Heq & (evs & Hl & Hkept) & Hst & Hs); [|done].
  injection Heq as ->. apply bindM_Some in Hrun as [(r1 & s2 & Hmid & Hun)|(e & (? & [=] & _)%mcatch_Some & _)].
  apply unlock_run in Hun as [Hc2 Hl2]. rewrite Hc2, Hl2.
  assert (same_reserved (as_counts s) (as_counts s2) /\ as_locks s2 = as_locks s1) as [Hs2 ->].
  { apply mcatch_Some in Hmid as (r0 & [= ->] & Hmid). destruct (pp_stale pp') eqn:Estale.
    - specialize (Hst eq_refl). injection Hmid as <- <-. destruct (pp_existing pp'), (pp_error pp'); done.
    - destruct (pp_error pp') as [e|]; [injection Hmid as <- <-; by destruct (pp_existing pp')|].
      apply bindM_Some in Hmid as [(rb & s3 & Hb & Hmid)|(e & (? & [=] & _)%mcatch_Some & _)].
      apply mcatch_Some in Hb as (rb' & [= ->] & Hb). destruct (Hbody _ _ _ _ Hb) as [Hcb Hlb].
      destruct (pp_existing pp'); injection Hmid as <- <-; cbn; (split; [|done]).
      + by rewrite Hs.
      + rewrite Hs. by apply release_same. }
  split; [done|]. rewrite Hl, <- app_assoc. eexists. split; [done|]. by apply kept_balanced.
Qed.
(** ** One Subnet at a time *)
(** The attempt to reserve in a Subnet with the counters [c], in the world [w]:
    the answer and the counters after it. *)
Definition attempt (w : W) (ipType raw : string) (bindings : list string) (c : gmap string CountInfo) (n : NsxSubnet)
  : result goerr bool * gmap string CountInfo :=
  let path := default "" (s_Path n) in
  AllocatePortFromSubnet addressCount c (poolStats n w) (portsOn path w) (clock w) (capacity_view n path) false ipType
    (ResolveEffectiveStaticIPAllocationType raw n ipType) bindings.
(** The counters after attempts on some Subnets, one after the other. *)
Definition after_attempts (w : W) (ipType raw : string) (bindings : list string) (c : gmap string CountInfo) (l : list NsxSubnet) :=
  foldl (fun c m => (attempt w ipType raw bindings c m).2) c l.
(** A Subnet that has no room for the port with the counters [c]. *)
Definition full (w : W) (c : gmap string CountInfo) (ipType raw : string) (bindings : list string) (n : NsxSubnet) : Prop :=
  (attempt w ipType raw bindings c n).1 = Ok false.
(** An attempt reads the counters of its Subnet only, and writes them only. *)
Lemma attempt_local w ipType raw bindings c c' n : c !! default "" (s_Path n) = c' !! default "" (s_Path n) ->
  (attempt w ipType raw bindings c n).1 = (attempt w ipType raw bindings c' n).1.
Proof. unfold attempt, AllocatePortFromSubnet. cbn. intros ->. by destruct (allocate_info _ _ _ _ _ _ _ _ _ _). Qed.
Lemma attempt_other w ipType raw bindings c n p : p <> default "" (s_Path n) -> (attempt w ipType raw bindings c n).2 !! p = c !! p.
Proof. unfold attempt, AllocatePortFromSubnet. cbn. intros Hp. destruct (allocate_info _ _ _ _ _ _ _ _ _ _). cbn. by rewrite lookup_insert_ne. Qed.
Lemma after_attempts_other w ipType raw bindings l p : (forall m, m ∈ l -> is_Some (s_Path m) /\ s_Path m <> Some p) -> forall c,
  after_attempts w ipType raw bindings c l !! p = c !! p.
Proof.
  intros Hl. induction l as [|m l IH]; intros c; [done|]. cbn. unfold after_attempts in IH. rewrite IH by (intros; apply Hl; by right).
  apply attempt_other. destruct (Hl m ltac:(left)) as [[q Hq] Hne]. rewrite Hq in Hne |- *. cbn. congruence.
Qed.
Lemma allocatePort_attempt n ipType raw bindings x ok x' :
  allocatePort n false ipType (ResolveEffectiveStaticIPAllocationType raw n ipType) bindings x = Some (Ok ok, x') ->
  attempt (as_world x) ipType raw bindings (as_counts x) n = (Ok ok, as_counts x') /\ as_world x' = as_world x /\ is_Some (s_Path n).
Proof.
  unfold allocatePort, attempt, bindM, mtotal. destruct (s_Path n) as [path|]; [|done]. cbn [default from_option id].
  destruct (AllocatePortFromSubnet _ _ _ _ _ _ _ _ _ _) as [r c]. intros [= -> <-]. done.
Qed.
Lemma no_room_all_full ipType raw bindings subnets : forall x x',
  first_with_room ipType raw bindings subnets x = Some (Ok None, x') ->
  as_world x' = as_world x /\ (forall n, n ∈ subnets -> is_Some (s_Path n)) /\ forall l1 n l2, subnets = l1 ++ n :: l2 ->
    full (as_world x) (after_attempts (as_world x) ipType raw bindings (as_counts x) l1) ipType raw bindings n.
Proof.
  induction subnets as [|n subnets IH]; intros x x'; [intros [= <-]; split_and!; [done|set_solver|by intros []]|]. cbn [first_with_room]. cbv zeta.
  intros [(ok & x1 & (Ha & Hw & path & Hp)%allocatePort_attempt & Hrest)|(e & _ & [=])]%bindM_Some. destruct ok.
  { unfold mtotal, bindM, mret in Hrest. by rewrite Hp in Hrest. }
  apply IH in Hrest as (Hw2 & Hsome & Hall). rewrite Hw in *. split; [done|]. split.
  { intros m [-> | Hm]%elem_of_cons; [by exists path|by apply Hsome]. }
  intros [|m l1] n' l2 [= <- ->].
  - unfold full. cbn. by rewrite Ha.
  - unfold after_attempts. cbn [foldl]. rewrite Ha. cbn. by eapply Hall.
Qed.
Lemma first_with_room_world ipType raw bindings subnets : forall x r x', counted (as_counts x) ->
  first_with_room ipType raw bindings subnets x = Some (r, x') -> as_world x' = as_world x.
Proof.
  induction subnets as [|n subnets IH]; intros x r x' Hc; [by intros [= <- <-]|]. cbn [first_with_room]. cbv zeta.
  intros [(ok & x1 & Hrun & Hrest)|(e & Hrun & ->)]%bindM_Some; apply allocatePort_cases in Hrun as (_ & Hw & path & Hp & _ & Hfalse); [|done| |done]; [|done].
  destruct ok; [unfold mtotal, bindM, mret in Hrest; rewrite Hp in Hrest; by injection Hrest as <- <-|].
  specialize (Hfalse ltac:(done)). rewrite <- Hw. eapply IH; [|exact Hrest]. by rewrite <- Hfalse.
Qed.
(** C35. A SubnetSet grows only when it must: if choosing a Subnet for a port
    changed anything in NSX, every Subnet the operator had made for the SubnetSet
    refused the port, on the counters the operator had of it: those left by the
    attempts on the Subnets before it in the list, which are the counters from
    before the call unless one of these has the same path. And all happened
    under the SubnetSet's write lock. The call is taken alone, with no counter
    below zero before it and no other reservation meanwhile. *)
Theorem new_subnet_only_when_full s ipType raw bindings x r x' : set_SubnetNames s = None -> counted (as_counts x) ->
  AllocateSubnetFromSubnetSet s ipType raw bindings x = Some (r, x') -> as_world x' <> as_world x ->
  as_locks x' = as_locks x ++ [WLocked (m_UID (set_meta s)); WUnlocked (m_UID (set_meta s))] /\
  forall l1 n l2, subnetsBySet (m_UID (set_meta s)) (as_world x) = l1 ++ n :: l2 ->
    full (as_world x) (after_attempts (as_world x) ipType raw bindings (as_counts x) l1) ipType raw bindings n /\
    ((forall m, m ∈ l1 -> s_Path m <> s_Path n) -> full (as_world x) (as_counts x) ipType raw bindings n).
Proof.
  intros En Hc. unfold AllocateSubnetFromSubnetSet. case_bool_decide; [by intros [= <- <-]|]. rewrite En. intros Hrun Hw.
  apply bindM_Some in Hrun as [(u & x1 & (Hu & ->)%log_lock_Some & Hrun)|(e & [Hu _]%log_lock_Some & _)]; [|done].
  apply bindM_Some in Hrun as [(a & x2 & Hrun & [= <- <-])|(e & (? & [=] & _)%mcatch_Some & _)]. cbn in Hw |- *.
  pose proof Hrun as Hl. apply (caught_answer ipType bindings) in Hl as (_ & _ & Hl & _); [|apply own_subnets_reserving|exact Hc]. cbn in Hl.
  split; [by rewrite Hl, <- app_assoc|]. apply mcatch_Some in Hrun as (res & _ & Hrun).
  apply bindM_Some in Hrun as [(l & x3 & [= <- <-] & Hrun)|(e & [=] & _)]. cbn in Hrun.
  assert (Hall : (forall n, n ∈ subnetsBySet (m_UID (set_meta s)) (as_world x) -> is_Some (s_Path n)) /\
    forall l1 n l2, subnetsBySet (m_UID (set_meta s)) (as_world x) = l1 ++ n :: l2 ->
    full (as_world x) (after_attempts (as_world x) ipType raw bindings (as_counts x) l1) ipType raw bindings n).
  { apply bindM_Some in Hrun as [(t & x4 & Hroom & Hrest)|(e & Hroom & _)].
    - destruct t as [won|]; [|by apply no_room_all_full in Hroom as [_ ?]]. apply first_with_room_world in Hroom; [|exact Hc]. injection Hrest as _ <-. done.
    - apply first_with_room_world in Hroom; [|exact Hc]. done. }
  destruct Hall as [Hsome Hall]. intros l1 n l2 Hsplit. pose proof (Hall l1 n l2 Hsplit) as Hn. split; [done|]. intros Hother. unfold full in *.
  rewrite Hsplit in Hsome. destruct (Hsome n ltac:(set_solver)) as [path Hp]. rewrite Hp in Hother.
  rewrite <- Hn. apply attempt_local. rewrite Hp. symmetry. apply after_attempts_other. intros m Hm. split; [set_solver|by apply Hother].
Qed.
End Reconciles.

(** ** Examples *)
Module AllocDemo.
(** The Subnets that NSX has, each with one static address. *)
Definition world : Type := list NsxSubnet.
Definition subnet_at (path : string) : NsxSubnet :=
  mkNsxSubnet path None None [] (Some (mkAdvanced [] [] None (Some (mkStaticIp (Some true) [])))) None None None None [] None [] None None (Some path) None None.
Definition set_web : SubnetSet := mkSubnetSet (mkSubnetSetCR (mkMeta "web" "ns" "uid" ∅ ∅) "IPv4" 16 0 "Private" "" "" [] []) None.
#[global] Instance env : AllocEnv world :=
  {| addressCount := fun _ => 16; poolStats := fun _ _ => mkStats (fun _ => Ok (Some 1, Some 0)) (Ok (None, None, None)) false;
     portsOn := fun _ _ => []; clock := fun _ => 0; getSubnetCR := fun _ _ _ => Err (EText "not found"); subnetByCR := fun _ _ => Err (EText "not found");
     subnetsBySet := fun _ w => w; readSubnetSet := fun s _ => Ok s; networkConfig := fun _ _ => Ok None; nsTags := fun _ _ => [newTag "a" "b"];
     vpcsOf := fun _ _ => [mkVPCInfo "default" "p" "v" "" ""];
     makeSubnet := fun _ _ _ w => (Ok (subnet_at "/s2"), w ++ [subnet_at "/s2"]) |}.
#[global] Instance ports : PortEnv world :=
  {| readSubnet := fun _ _ _ => Err (EText "not found"); readSet := fun _ _ _ => Ok (set_web, false); setsLabelled := fun _ _ _ _ => Ok [];
     portByUID := fun _ _ => Ok None; portOfStatefulSet := fun _ _ _ => None; readPod := fun _ _ _ => Err (EText "not found"); statefulSetPorts := fun _ => false |}.
Definition port : PortCR := mkPortCR (mkMeta "p" "ns" "pu" ∅ ∅) "" "web" "" "" [] [] [].
Definition one_reserved : gmap string CountInfo := {["/s1" := mkCountInfo 0 1 0 0 0 1 None 0 None]}.
Definition x0 : alloc_state world := mkAlloc one_reserved [] [subnet_at "/s1"].
Definition state_of {A} (r : option (A * alloc_state world)) : alloc_state world := match r with Some (_, x) => x | None => x0 end.
Definition run := AllocateSubnetFromSubnetSet set_web "IPv4" "" [] x0.
Definition reconciled := reconcile_port (CheckAndGetSubnetPathForSubnetPort false port) (pr_AddressBindings port) (fun _ => mret tt) x0.
Lemma counted_x0 : counted (as_counts x0).
Proof.
  intros p a b. cbn [x0 as_counts]. unfold one_reserved. rewrite <- insert_empty, reserved_insert. case_bool_decide; [by destruct a, b|].
  unfold reserved. rewrite lookup_empty. by destruct a, b.
Qed.
End AllocDemo.
Lemma reconcile_port_balanced_witness :
  same_reserved (as_counts AllocDemo.x0) (as_counts (AllocDemo.state_of AllocDemo.reconciled)) /\
  exists evs, as_locks (AllocDemo.state_of AllocDemo.reconciled) = as_locks AllocDemo.x0 ++ evs /\ balanced evs.
Proof.
  refine (reconcile_port_balanced _ _ (fun _ => mret tt) AllocDemo.x0 (Ok tt) _ (of_SubnetPort false AllocDemo.port) (fun _ => neutral_ret tt) AllocDemo.counted_x0 _).
  vm_compute. reflexivity.
Defined.
Lemma new_subnet_only_when_full_witness :
  as_locks (AllocDemo.state_of AllocDemo.run) = [WLocked "uid"; WUnlocked "uid"] /\
  full (as_world AllocDemo.x0) (as_counts AllocDemo.x0) "IPv4" "" [] (AllocDemo.subnet_at "/s1").
Proof.
  assert (Hrun : AllocDemo.run = Some (Ok (mkAnswer (Ok ("/s2", "IPv4")) None), AllocDemo.state_of AllocDemo.run)) by (vm_compute; reflexivity).
  assert (Hne : as_world (AllocDemo.state_of AllocDemo.run) <> as_world AllocDemo.x0) by (vm_compute; discriminate).
  destruct (new_subnet_only_when_full AllocDemo.set_web "IPv4" "" [] AllocDemo.x0 _ _ eq_refl AllocDemo.counted_x0 Hrun Hne) as [Hl Hf].
  split; [exact Hl|]. refine (proj2 (Hf [] (AllocDemo.subnet_at "/s1") [] eq_refl) _).
  intros m Hm. inversion Hm.
Defined.
