(* ===== verification/SubnetPortService.v ===== *)
(** * pkg/nsx/services/subnetport: the service of Subnet ports

    builder.go, compare.go, store.go and the parts of subnetport.go around the
    counters of PortAlloc: the port built for a SubnetPort or a Pod, the store
    and its indexes, creating, updating and deleting ports, and the addresses of
    virtual interfaces. *)
From S2P Require Import Prelude GoStrings GoNet Errors NsxUtil IPUtil Names Interfaces GoMonad Compare RealizeState PolicyTree SpBuild Service IPAllocation PortAlloc Subnet CtlCommon.

(** ** Ports of NSX: the fields the operator reads and writes. An empty list is
    an absent one. *)
Record PortAttachment := mkAttachment {
  at_AllocateAddresses : option string; at_AppId : option string; at_ContextId : option string;
  at_Id : option string; at_TrafficTag : option Z; at_Type : option string }.
Record NsxPort := mkNsxPort {
  np_Id : string; np_DisplayName : option string; np_Attachment : option PortAttachment; np_Tags : list Tag;
  np_Path : option string; np_ParentPath : option string; np_External : option (option string);
  np_StaticIpAllocationType : option string; np_AddressBindings : list PortBinding; np_MarkedForDelete : option bool }.
(** What the counters of a Subnet see of a port. *)
Definition port_view (p : NsxPort) : VpcSubnetPort := mkPort (np_Attachment p ≫= at_AllocateAddresses) (np_AddressBindings p).

(** ** The objects of Kubernetes *)
Record port_status := mkPortStatus {
  ps_AttachmentID : string; ps_IPAddresses : list (string * string); ps_MACAddress : string; ps_Conditions : list Condition }.
(** Owners and controllers by kind, name and UID; the addresses of bindings are
    an IP and a MAC address, those of a status an address and its gateway. *)
Record SubnetPortCR := mkSubnetPortCR {
  pc_meta : meta; pc_Owners : list (string * string * string); pc_InterfaceIPType : string; pc_StaticIPAllocationType : string;
  pc_AddressBindings : list (string * string); pc_Status : port_status }.
Record Pod := mkPod { pod_meta : meta; pod_Controller : option (string * string * string); pod_PodIPs : list string; pod_PodIP : string }.
Record AddressBindingCR := mkAddressBindingCR {
  abc_meta : meta; abc_VMName : string; abc_InterfaceName : string; abc_IPAddressAllocationName : string; abc_IPAddress : string; abc_CreationTimestamp : Z }.
Inductive port_object := OSubnetPort (p : SubnetPortCR) | OPod (p : Pod) | OUnsupported.
Definition getObjectMeta (o : port_object) : option meta :=
  match o with OSubnetPort p => Some (pc_meta p) | OPod p => Some (pod_meta p) | OUnsupported => None end.
Definition AnnotationAttachment := "nsx.vmware.com/attachment".
Definition AnnotationPodMAC := "nsx.vmware.com/mac".
Definition TagScopePodName := "nsx-op/pod_name".
Definition TagScopePodUID := "nsx-op/pod_uid".
Definition TagScopeStatefulSetName := "nsx-op/sts_name".
Definition TagScopeStatefulSetUID := "nsx-op/sts_uid".

(** ** Comparing: the fields that count. The type of the attachment is compared
    by the way its addresses are allocated. *)
Definition compared_attachment (a : PortAttachment) : PortAttachment :=
  mkAttachment (at_AllocateAddresses a) (at_AppId a) (at_ContextId a) (at_Id a) (at_TrafficTag a) (at_AllocateAddresses a).
Definition compared_port (p : NsxPort) : NsxPort :=
  mkNsxPort (np_Id p) (np_DisplayName p) (compared_attachment <$> np_Attachment p) (np_Tags p) None None
    (np_External p) (np_StaticIpAllocationType p) (map (fun b => mkPortBinding (pb_IpAddress b) (pb_MacAddress b)) (np_AddressBindings p)) None.
(** The JSON encoder of the SDK: different objects have different texts. *)
Class PortEncoder := {
  encode_port : NsxPort -> string;
  encode_port_inj : forall a b, encode_port a = encode_port b -> a = b }.
#[global] Instance port_comparable `{PortEncoder} : Comparable NsxPort := { Key := np_Id; Value p := encode_port (compared_port p) }.

(** ** The store: ports with their indexes, and the counters of each Subnet *)
Definition subnetPortIndexByCRUID (p : NsxPort) : list string := filterTag (np_Tags p) TagScopeSubnetPortCRUID.
Definition subnetPortIndexByPodUID (p : NsxPort) : list string := filterTag (np_Tags p) TagScopePodUID.
Definition subnetPortIndexBySubnetPath (p : NsxPort) : list string := option_list (np_ParentPath p).
Definition subnetPortIndexNamespace (p : NsxPort) : list string := filterTag (np_Tags p) TagScopeVMNamespace.
Definition subnetPortIndexPodNamespace (p : NsxPort) : list string := filterTag (np_Tags p) TagNamespaceScope.
Definition subnetPortIndexByStatefulSetUID (p : NsxPort) : list string := filterTag (np_Tags p) TagScopeStatefulSetUID.
Definition subnetPortIndexByStatefulSetName (p : NsxPort) : list string := filterTag (np_Tags p) TagScopeStatefulSetName.
Definition tag_value (p : NsxPort) (scope : string) : string := default "" (FindTag (np_Tags p) scope).
Definition subnetPortIndexBySts (p : NsxPort) : list string :=
  if bool_decide (tag_value p TagScopeStatefulSetUID = "") then [] else ["allStsPorts"].
Record port_store (I : Type) := mkPortStore { st_ports : I; st_counts : gmap string CountInfo }.
Arguments mkPortStore {I}. Arguments st_ports {I}. Arguments st_counts {I}.
Section Store.
Context {I : Type} `{!Indexer I NsxPort np_Id}.
Definition applied (p : NsxPort) (st : I) : I := if default false (np_MarkedForDelete p) then ix_Delete p st else ix_Add p st.
Definition DeleteMultipleObjects (l : list NsxPort) (st : I) : I := foldl (fun st p => ix_Delete p st) st l.
Definition GetVpcSubnetPortByUID (uid : string) (st : I) : option NsxPort :=
  head (ix_GetByIndex subnetPortIndexByCRUID uid st ++ ix_GetByIndex subnetPortIndexByPodUID uid st).
Definition GetPortsOfSubnet (subnetPath : string) (st : I) : list NsxPort := ix_GetByIndex subnetPortIndexBySubnetPath subnetPath st.
Definition GetSubnetPathForSubnetPortFromStore (uid : string) (st : I) : string :=
  default "" (GetVpcSubnetPortByUID uid st ≫= np_ParentPath).
Definition GetExistingSubnetPortForStatefulSetPod (podName stsUID : string) (st : I) : option NsxPort :=
  if bool_decide (stsUID = "") then None
  else head (filter (fun p => tag_value p TagScopePodName = podName) (ix_GetByIndex subnetPortIndexByStatefulSetUID stsUID st)).
Definition with_tag (scope value : string) (l : list NsxPort) : list NsxPort := filter (fun p => tag_value p scope = value) l.
Definition ListSubnetPortByName (ns name : string) (st : I) : list NsxPort :=
  with_tag TagScopeSubnetPortCRName name (ix_GetByIndex subnetPortIndexNamespace ns st ++ ix_GetByIndex subnetPortIndexPodNamespace ns st).
Definition ListSubnetPortByPodName (ns name : string) (st : I) : list NsxPort :=
  with_tag TagScopePodName name (ix_GetByIndex subnetPortIndexPodNamespace ns st).
Definition ListSubnetPortByStsName (ns stsName : string) (st : I) : list NsxPort :=
  with_tag TagNamespaceScope ns (ix_GetByIndex subnetPortIndexByStatefulSetName stsName st).
Definition ListSubnetPortByStsUid (ns stsUid : string) (st : I) : list NsxPort :=
  with_tag TagNamespaceScope ns (ix_GetByIndex subnetPortIndexByStatefulSetUID stsUid st).
(** The identifiers of the ports that an index files under some value. *)
Definition indexed_ids (index : NsxPort -> list string) (st : I) : gset string :=
  list_to_set (map np_Id (filter (fun p => index p <> []) (ix_List st))).
Definition ListNSXSubnetPortIDForCR (st : I) : gset string := indexed_ids subnetPortIndexByCRUID st.
Definition ListNSXSubnetPortIDForPod (st : I) : gset string := indexed_ids subnetPortIndexByPodUID st.
(** [uids]: the UIDs of the listed SubnetPorts, or the error of the list. *)
Definition ListSubnetPortIDsFromCRs (uids : result goerr (list string)) (st : I) : result goerr (gset string) :=
  match uids with
  | Err e => Err e
  | Ok l => Ok (list_to_set (map np_Id (omap (fun uid => GetVpcSubnetPortByUID uid st) l)))
  end.
End Store.

(** ** NSX, Kubernetes, and the services of VPCs and of address allocations *)
Class PortWorld (W : Type) := {
  PortState : Type;                                                            (* SegmentPortState *)
  world_ipv6 : W -> bool;                                                      (* NSXCheckVersion(nsx.IPv6) *)
  world_podV2 : W -> bool;                                                     (* the enabled features *)
  world_restoreVif : W -> bool;
  world_stsPorts : W -> bool;
  world_now : W -> Z;
  world_Namespace : string -> W -> result goerr string;                        (* the UID of a Namespace *)
  world_Pod : string -> string -> W -> result goerr Pod;
  world_AddressBindings : string -> W -> result goerr (list AddressBindingCR); (* indexed by Namespace and VM *)
  world_SubnetPorts : string -> W -> result goerr nat;                         (* how many there are for a Namespace and VM *)
  world_IPAddressAllocation : string -> string -> W -> result goerr string;    (* the UID of the CR *)
  world_AllocationByOwner : string -> W -> result goerr (option (string * option string));  (* its identifier and path *)
  world_VPCs : string -> W -> list VPCResourceInfo;
  (** The UUID made from the bytes of a UID, and the one salted with the time. *)
  uuid_of : string -> result goerr string;
  restore_uuid : string -> W -> result goerr string;
  Port_Patch : VPCResourceInfo -> NsxPort -> W -> option goerr * W;
  Port_Get : VPCResourceInfo -> string -> W -> result goerr NsxPort * W;
  Port_Delete : string -> string -> string -> string -> string -> W -> option goerr * W;
  Port_State : VPCResourceInfo -> string -> W -> result goerr PortState * W;
  Port_Realized : string -> W -> result goerr (list Entity) * W }.

(** ** Building (builder.go) *)
Definition is_StatefulSet (c : option (string * string * string)) : option (string * string) :=
  c ≫= fun '(kind, name, uid) => if bool_decide (kind = "StatefulSet") then Some (name, uid) else None.
Definition GetStatefulSetUID (o : port_object) : string :=
  match o with OPod p => from_option snd "" (is_StatefulSet (pod_Controller p)) | _ => "" end.
Definition GetPodRestoreStatus (p : Pod) : port_status :=
  let annotation k := default "" (m_Annotations (pod_meta p) !! k) in
  let ips := map (fun ip => (ip, "")) (pod_PodIPs p) in
  mkPortStatus (annotation AnnotationAttachment)
    (if bool_decide (ips = []) && negb (bool_decide (pod_PodIP p = "")) then [(pod_PodIP p, "")] else ips) (annotation AnnotationPodMAC) [].
(** The Pod behind a port. *)
Record pod_info := mkPodInfo { pi_appId : string; pi_podName : string; pi_stsName : string; pi_stsUID : string }.
Definition pod_info_of (p : Pod) : pod_info :=
  mkPodInfo (m_UID (pod_meta p)) (m_Name (pod_meta p)) (from_option fst "" (is_StatefulSet (pod_Controller p))) (GetStatefulSetUID (OPod p)).
Definition no_pod : pod_info := mkPodInfo "" "" "" "".
(** The part of a Subnet that decides on static allocation. *)
Definition dhcp_of (s : NsxSubnet) : Names.VpcSubnet :=
  Names.mkVpcSubnet (s_Dhcp s ≫= dc_Mode) (s_Dhcpv6 s ≫= dc_Mode)
    (match s_AdvancedConfig s with Some c => ac_StaticIpAllocation c ≫= sia_Enabled | None => None end).
Definition nonempty (s : string) : option string := if bool_decide (s = "") then None else Some s.
(** The binding of one entry of the specification, and whether it has a MAC
    address that is used. *)
Definition spec_binding (ipv6 static : bool) (statusMAC : string) (ab : string * string) : PortBinding * bool :=
  let '(ip, mac) := ab in
  let has_ip := negb (bool_decide (ip = "")) in
  let setMac := negb (bool_decide (mac = "")) && (ipv6 || static || has_ip) in
  (mkPortBinding (nonempty ip)
     (if setMac then Some mac else if static && has_ip && negb (bool_decide (statusMAC = "")) then Some statusMAC else None), setMac).
Definition is_bound (b : PortBinding) : Prop := pb_IpAddress b <> None \/ pb_MacAddress b <> None.
#[global] Instance is_bound_dec b : Decision (is_bound b).
Proof. unfold is_bound. apply _. Defined.
Definition port_bindings (ipv6 static restoreMode : bool) (p : SubnetPortCR) : list PortBinding * bool :=
  let status := pc_Status p in
  if restoreMode && negb (bool_decide (ps_IPAddresses status = [])) then
    (map (fun a : string * string => mkPortBinding (Some (default "" (head (split_on "/" a.1)))) (Some (ps_MACAddress status)))
       (filter (fun a : string * string => a.1 <> "") (ps_IPAddresses status)),
     match pc_AddressBindings p with (_, mac) :: _ => negb (bool_decide (mac = "")) | [] => false end)
  else
    let l := map (spec_binding ipv6 static (ps_MACAddress status)) (pc_AddressBindings p) in
    (filter is_bound (map fst l), existsb snd l).
Definition pod_bindings (restoreMode : bool) (p : Pod) : list PortBinding :=
  if restoreMode && negb (bool_decide (pod_PodIPs p = [])) then
    let status := GetPodRestoreStatus p in
    map (fun a : string * string => mkPortBinding (Some a.1) (nonempty (ps_MACAddress status))) (ps_IPAddresses status)
  else [].
Definition allocate_addresses (staticType : string) (hasMac : bool) : string :=
  if bool_decide (staticType = "NONE") then "NONE" else if hasMac then "IP_POOL" else "BOTH".
(** The tags of the other kind of port are left out. *)
Definition dropped_scopes (isVm : bool) : list string :=
  if isVm then [TagScopeNamespaceUID; TagNamespaceScope] else [TagScopeVMNamespaceUID; TagScopeVMNamespace].
Definition port_tag (isVm : bool) (t : Tag) : Prop := default "" (tag_Scope t) ∉ dropped_scopes isVm.
#[global] Instance port_tag_dec isVm t : Decision (port_tag isVm t).
Proof. unfold port_tag. apply _. Defined.
Definition tag_unless_empty (scope value : string) : list Tag := if bool_decide (value = "") then [] else [newTag scope value].
Definition pod_tags (i : pod_info) : list Tag :=
  tag_unless_empty TagScopePodName (pi_podName i) ++ tag_unless_empty TagScopePodUID (pi_appId i) ++
  tag_unless_empty TagScopeStatefulSetName (pi_stsName i) ++ tag_unless_empty TagScopeStatefulSetUID (pi_stsUID i).
Definition port_kind (o : port_object) : tagged :=
  match o with OSubnetPort _ => TSubnetPort | OPod p => TPod (pod_Controller p) | OUnsupported => TOther end.
Definition port_tags (cluster : string) (o : port_object) (m : meta) (namespaceUID : string) (isVm : bool) (i : pod_info)
    (labels : option (gmap string string)) : list Tag :=
  filter (port_tag isVm) (BuildBasicTags cluster (port_kind o) (m_Namespace m) (m_Name m) (m_UID m) namespaceUID) ++
  (match o with OSubnetPort _ => if isVm then [] else pod_tags i | _ => [] end) ++ from_option label_tags [] labels.

Section Build.
Context {I W : Type} `{!Indexer I NsxPort np_Id} `{!PortWorld W}.
Local Abbreviation PortM := (Svc (I := port_store I) (W := W)).
Definition asks {A} (f : W -> A) : PortM A := on_world (fun w => (f w, w)).
Definition asks_result {A} (f : W -> result goerr A) : PortM A := world_result (fun w => (f w, w)).
Definition older (a b : AddressBindingCR) : Prop := abc_CreationTimestamp a <= abc_CreationTimestamp b.
#[global] Instance older_dec : RelDecision older.
Proof. intros a b. unfold older. apply _. Defined.
Fixpoint binding_of_port (port : string) (l : list AddressBindingCR) (w : W) : option AddressBindingCR :=
  match l with
  | [] => None
  | ab :: l' =>
      if bool_decide (abc_InterfaceName ab = "") then
        match world_SubnetPorts (m_Namespace (abc_meta ab) +:+ "/" +:+ abc_VMName ab) w with
        | Err _ | Ok 0%nat => None
        | Ok 1%nat => Some ab
        | Ok _ => binding_of_port port l' w
        end
      else if bool_decide (abc_InterfaceName ab = port) then Some ab else binding_of_port port l' w
  end.
Definition GetAddressBindingBySubnetPort (p : SubnetPortCR) (w : W) : option AddressBindingCR :=
  match GetVirtualMachineNameForSubnetPort (m_Annotations (pc_meta p)) with
  | Err _ => None
  | Ok (vm, port) =>
      if bool_decide (vm = "") then None
      else match world_AddressBindings (m_Namespace (pc_meta p) +:+ "/" +:+ vm) w with
      | Err _ => None
      | Ok l => binding_of_port port (merge_sort older l) w
      end
  end.
Definition wrong_binding : goerr := EText "failed to find an existing external AddressBidning: ".
Definition allocation_of_binding (ab : AddressBindingCR) : PortM (option (string * option string)) :=
  let! found := mcatch (asks_result (world_AllocationByOwner (m_UID (abc_meta ab)))) in
  match found with Err _ => mfail wrong_binding | Ok a => mret a end.
Definition external_of_binding (p : SubnetPortCR) (restoreMode : bool) (ab : AddressBindingCR) : PortM (option string) :=
  let hasIP := negb (bool_decide (abc_IPAddress ab = "")) in
  if negb (bool_decide (abc_IPAddressAllocationName ab = "")) then
    let! uid := asks_result (world_IPAddressAllocation (m_Namespace (abc_meta ab)) (abc_IPAddressAllocationName ab)) in
    let! found := asks_result (world_AllocationByOwner uid) in
    let! a := mtotal found in mret a.2
  else if restoreMode && hasIP then
    let! vpcs := asks (world_VPCs (m_Namespace (pc_meta p))) in
    match vpcs with
    | [] => mfail (EText "failed to listVPCInfo for AddressBinding")
    | v :: _ =>
        let! found := allocation_of_binding ab in
        let! a := mtotal found in mret (Some (GetVPCPath v +:+ "/ip-address-allocations/" +:+ a.1))
    end
  else if hasIP then let! found := allocation_of_binding ab in mret (found ≫= snd)
  else mret None.
Definition is_public (s : NsxSubnet) : bool := match s_AccessMode s with Some m => bool_decide (to_lower m = "public") | None => false end.
Definition buildExternalAddressBinding (p : SubnetPortCR) (s : NsxSubnet) (restoreMode : bool) : PortM (option (option string)) :=
  if bool_decide (pc_InterfaceIPType p = "IPv6") || is_public s then mret None
  else
    let! ab := asks (GetAddressBindingBySubnetPort p) in
    match ab with
    | None => mret None
    | Some ab => let! path := external_of_binding p restoreMode ab in mret (Some path)
    end.
(** The Pod of the first owner of that kind, by its UID. *)
Definition GetPodForSubnetPort (p : SubnetPortCR) : PortM (option Pod) :=
  match filter (fun o : string * string * string => o.1.1 = "Pod") (pc_Owners p) with
  | [] => mret None
  | (_, name, uid) :: _ =>
      let! pod := asks_result (world_Pod (m_Namespace (pc_meta p)) name) in
      if bool_decide (m_UID (pod_meta pod) = uid) then mret (Some pod)
      else mfail (EText ("SubnetPort " +:+ m_Namespace (pc_meta p) +:+ "/" +:+ m_Name (pc_meta p) +:+ " owner Pod " +:+ name +:+
                         " UID changed from " +:+ uid +:+ " to " +:+ m_UID (pod_meta pod)))
  end.
Context (cluster : string) (uuids : nat -> string) (fuel : nat).
Definition BuildSubnetPortName (m : meta) : option string := GenerateTruncName 255 (m_Name m) "" "" "" "".
Definition BuildSubnetPortIdAndName (stsPorts : bool) (m : meta) (namespaceUID stsUID podName podUID : string) (st : I) : option (string * string) :=
  let reuse (p : NsxPort) := name ← np_DisplayName p; Some (np_Id p, name) in
  match GetVpcSubnetPortByUID (m_UID m) st with
  | Some p => reuse p
  | None =>
      let target := if bool_decide (podName = "") then m_Name m else podName in
      match (if bool_decide (podUID = "") then None else GetVpcSubnetPortByUID podUID st) with
      | Some p => reuse p
      | None =>
          match (if stsPorts then GetExistingSubnetPortForStatefulSetPod target stsUID st else None) with
          | Some p => reuse p
          | None =>
              id ← BuildUniqueIDWithRandomUUID GenerateIDByObject (fun id => bool_decide (is_Some (ix_GetByKey id st))) uuids fuel
                     (mkObject (m_Name m) namespaceUID);
              name ← BuildSubnetPortName m; Some (id, name)
          end
      end
  end.
(** What the kind of the object decides: the Pod behind it, the external address,
    the bindings, whether one has a MAC address, and the static type. *)
Record port_plan := mkPlan { pl_pod : pod_info; pl_external : option (option string); pl_bindings : list PortBinding; pl_hasMac : bool; pl_static : string }.
Definition plan_port (o : port_object) (s : NsxSubnet) (restoreMode : bool) (ipType : string) : PortM port_plan :=
  match o with
  | OPod p =>
      mret (mkPlan (pod_info_of p) None (pod_bindings restoreMode p) false
              (ConvertCRStaticIPAddressTypeToNSX (ComputeDefaultStaticIPAllocationType (dhcp_of s) ipType)))
  | OSubnetPort p =>
      let! pod := GetPodForSubnetPort p in
      let! external := buildExternalAddressBinding p s restoreMode in
      let! ipv6 := asks world_ipv6 in
      let '(bindings, hasMac) := port_bindings ipv6 (NSXSubnetStaticIPAllocationEnabled (dhcp_of s)) restoreMode p in
      mret (mkPlan (from_option pod_info_of no_pod pod) external bindings hasMac (ConvertCRStaticIPAddressTypeToNSX (pc_StaticIPAllocationType p)))
  | OUnsupported => mfail (EText "unsupported object: ")
  end.
Definition port_of_plan (pl : port_plan) (id name path uuid contextID : string) (subnetPath : option string) (ipv6 : bool) (tags : list Tag) : NsxPort :=
  let appId := pi_appId (pl_pod pl) in
  mkNsxPort id (Some name)
    (Some (mkAttachment (Some (allocate_addresses (pl_static pl) (pl_hasMac pl))) (nonempty appId)
             (if bool_decide (appId = "") then None else nonempty contextID) (Some uuid) (Some 0) (Some "INDEPENDENT")))
    tags (Some path) subnetPath (pl_external pl) (if ipv6 then Some (pl_static pl) else None) (pl_bindings pl) None.
Definition buildSubnetPort (o : port_object) (s : NsxSubnet) (contextID : string) (labelTags : option (gmap string string))
    (isVm restoreMode : bool) (ipType : string) : PortM NsxPort :=
  let! pl := plan_port o s restoreMode ipType in
  let! m := mtotal (getObjectMeta o) in
  let! uuid := if restoreMode then asks_result (restore_uuid (m_UID m)) else mresult (uuid_of (m_UID m)) in
  let! namespaceUID := asks_result (world_Namespace (m_Namespace m)) in
  let! stsPorts := asks world_stsPorts in
  let! st := mget in
  let! idName := mtotal (BuildSubnetPortIdAndName stsPorts m namespaceUID (pi_stsUID (pl_pod pl)) (pi_podName (pl_pod pl)) (pi_appId (pl_pod pl)) (st_ports (svc_store st))) in
  let! subnetPath := mtotal (s_Path s) in
  let! ipv6 := asks world_ipv6 in
  mret (port_of_plan pl idName.1 idName.2 (subnetPath +:+ "/ports/" +:+ idName.1) uuid contextID (s_Path s) ipv6
          (port_tags cluster o m namespaceUID isVm (pl_pod pl) labelTags)).
End Build.

(** ** The service (subnetport.go) *)
(** [portAlreadyRealized]; [None] is a nil attachment. *)
Definition expected_ips (p : SubnetPortCR) : Z :=
  let n := if bool_decide (pc_StaticIPAllocationType p = "IPv4IPv6") then 2
           else if (bool_decide (pc_StaticIPAllocationType p = "") || bool_decide (pc_StaticIPAllocationType p = "None")) &&
                   bool_decide (pc_InterfaceIPType p = "IPv4IPv6") then 2 else 1 in
  Z.max n (Z.of_nat (length (pc_AddressBindings p))).
Definition allocates (a : PortAttachment) (kinds : list string) : bool :=
  match at_AllocateAddresses a with Some v => bool_decide (v ∈ kinds) | None => false end.
Definition ready_condition (c : Condition) : bool := bool_decide (cond_Reason c = "SubnetPortReady") && bool_decide (cond_Status c = "True").
Definition portAlreadyRealized (o : port_object) (p : NsxPort) : option bool :=
  a ← np_Attachment p;
  match o with
  | OSubnetPort cr =>
      let status := pc_Status cr in
      Some ((negb (allocates a ["BOTH"; "IP_POOL"]) || allIPAddressesRealized (map fst (ps_IPAddresses status)) (expected_ips cr)) &&
            (negb (allocates a ["BOTH"; "MAC_POOL"]) || negb (bool_decide (ps_MACAddress status = ""))) &&
            existsb ready_condition (ps_Conditions status) && negb (bool_decide (ps_AttachmentID status = "")) &&
            match ps_IPAddresses status with (_, gateway) :: _ => negb (bool_decide (gateway = "")) | [] => false end)
  | OPod pod =>
      match m_Annotations (pod_meta pod) !! AnnotationAttachment with
      | Some v => id ← at_Id a; Some (bool_decide (v = id))
      | None => Some false
      end
  | OUnsupported => Some false
  end.
(** The attachment of the status of the object. *)
Definition status_attachment (o : port_object) : string :=
  match o with
  | OSubnetPort p => ps_AttachmentID (pc_Status p)
  | OPod p => default "" (m_Annotations (pod_meta p) !! AnnotationAttachment)
  | OUnsupported => ""
  end.
Definition object_uid (o : port_object) : string := from_option m_UID "" (getObjectMeta o).
Definition set_attachment_id (id : option string) (a : PortAttachment) : PortAttachment :=
  mkAttachment (at_AllocateAddresses a) (at_AppId a) (at_ContextId a) id (at_TrafficTag a) (at_Type a).
Definition set_context (c : option string) (a : PortAttachment) : PortAttachment :=
  mkAttachment (at_AllocateAddresses a) (at_AppId a) c (at_Id a) (at_TrafficTag a) (at_Type a).
Definition with_attachment (f : PortAttachment -> PortAttachment) (p : NsxPort) : NsxPort :=
  mkNsxPort (np_Id p) (np_DisplayName p) (f <$> np_Attachment p) (np_Tags p) (np_Path p) (np_ParentPath p) (np_External p)
    (np_StaticIpAllocationType p) (np_AddressBindings p) (np_MarkedForDelete p).
Definition keeps_context (o : port_object) (contextID : string) (podV2 : bool) : bool :=
  match o with
  | OSubnetPort p => negb (bool_decide (GetPodNameForSubnetPort (map fst (pc_Owners p)) = "")) && bool_decide (contextID = "") && podV2
  | _ => false
  end.
(** The built port with what it keeps of the existing one. *)
Definition keep_existing (keepContext : bool) (existing p : NsxPort) : NsxPort :=
  let p := match np_Attachment existing with
           | Some a => with_attachment (fun b => let b := set_attachment_id (at_Id a) b in if keepContext then set_context (at_ContextId a) b else b) p
           | None => p
           end in
  mkNsxPort (np_Id p) (np_DisplayName p) (np_Attachment p) (np_Tags p) (np_Path p) (np_ParentPath p) (np_External p)
    (match np_StaticIpAllocationType existing with None => None | Some _ => np_StaticIpAllocationType p end)
    (mergeSubnetPortAddressBinding (np_AddressBindings existing) (np_AddressBindings p)) (np_MarkedForDelete p).
Definition vif_restored (o : port_object) (restoreMode restoreVif : bool) : bool :=
  restoreMode && restoreVif && negb (bool_decide (status_attachment o = "")).
Section Service.
Context {I W : Type} `{!Indexer I NsxPort np_Id} `{!PortWorld W} `{!RetryDriver} `{!PortEncoder}.
Context (cluster : string) (uuids : nat -> string) (fuel : nat).
Local Abbreviation PortM := (Svc (I := port_store I) (W := W)).
Definition on_ports (f : I -> I) : PortM unit := on_store (fun st => mkPortStore (f (st_ports st)) (st_counts st)).
Definition path_info (path : string) : VPCResourceInfo := default no_info (ParseVPCResourcePath path).
Definition GetSubnetPortState (portID subnetPath : string) : PortM PortState := nsx_result (Port_State (path_info subnetPath) portID).
Definition DeleteSubnetPort (p : NsxPort) : PortM unit :=
  match np_Path p with
  | None => mfail (EText "subnet port path is nil")
  | Some path =>
      let i := path_info path in
      let! _ := nsx_call (Port_Delete (OrgID i) (ProjectID i) (VPCID i) (ParentID i) (np_Id p)) in
      on_ports (ix_Delete p)
  end.
Definition DeleteSubnetPortById (portID : string) : PortM unit :=
  let! s := mget in
  match ix_GetByKey portID (st_ports (svc_store s)) with None => mret tt | Some p => DeleteSubnetPort p end.
Definition mark_exhausted (subnetPath : string) : PortM unit := fun s =>
  Some (Ok tt, mkService (mkPortStore (st_ports (svc_store s)) (updateExhaustedSubnet (st_counts (svc_store s)) subnetPath (world_now (svc_world s)))) (svc_world s)).
Definition ExhaustedErrorCodes : list Z := [8212; 520054].
Definition CheckSubnetPortState (uid subnetPath : string) : PortM PortState :=
  let! s := mget in
  match GetVpcSubnetPortByUID uid (st_ports (svc_store s)) with
  | None => mfail (EText "failed to get subnet port from store")
  | Some p =>
      let! path := mtotal (np_Path p) in
      let! err := check_realized Port_Realized path [] in
      match err with
      | None => GetSubnetPortState (np_Id p) subnetPath
      | Some e =>
          if IsRealizeStateError (Some e) then
            let! _ := if HasAnyErrorCode (Some e) ExhaustedErrorCodes then mark_exhausted subnetPath else mret tt in
            let! _ := DeleteSubnetPortById (np_Id p) in mfail e
          else mfail e
      end
  end.
(** The update of a port that changed, and what follows for every port. *)
Definition send_port (i : VPCResourceInfo) (p : NsxPort) : PortM unit :=
  let! _ := nsx_call (Port_Patch i p) in on_ports (applied p).
Definition finish_port (uid subnetPath : string) (i : VPCResourceInfo) (portID : string) : PortM (option PortState) :=
  let! state := CheckSubnetPortState uid subnetPath in
  let! got := world_result (Port_Get i portID) in
  let! _ := on_ports (applied got) in
  mret (Some state).
Definition CreateOrUpdateSubnetPort (o : port_object) (s : NsxSubnet) (contextID : string) (tags : option (gmap string string))
    (isVm restoreMode : bool) (ipType : string) : PortM (option PortState) :=
  let! subnetPath := mtotal (s_Path s) in
  let! built := buildSubnetPort cluster uuids fuel o s contextID tags isVm restoreMode ipType in
  let! st := mget in
  let existing := ix_GetByKey (np_Id built) (st_ports (svc_store st)) in
  let p := from_option (fun e => keep_existing (keeps_context o contextID (world_podV2 (svc_world st))) e built) built existing in
  let isChanged := from_option (fun e => CompareResource e p) true existing in
  let p := if vif_restored o restoreMode (world_restoreVif (svc_world st)) then with_attachment (set_attachment_id (Some (status_attachment o))) p else p in
  match ParseVPCResourcePath subnetPath with
  | None => mfail (EText ("invalid path '" +:+ subnetPath +:+ "'"))
  | Some i =>
      if isChanged then let! _ := send_port i p in finish_port (object_uid o) subnetPath i (np_Id p)
      else
        let! realized := if restoreMode then mret false else mtotal (portAlreadyRealized o p) in
        if realized : bool then mret None else finish_port (object_uid o) subnetPath i (np_Id p)
  end.
End Service.

(** ** Cleaning up and virtual interfaces *)
Definition marked (p : NsxPort) : NsxPort :=
  mkNsxPort (np_Id p) (np_DisplayName p) (np_Attachment p) (np_Tags p) (np_Path p) (np_ParentPath p) (np_External p)
    (np_StaticIpAllocationType p) (np_AddressBindings p) (Some true).
Definition DefaultHAPIChildrenCount : Z := 500.
Section Cleanup.
Context {I N SV : Type} `{!Indexer I NsxPort np_Id}.
(** The builder of requests for ports, [OrgRootClient.Patch], and the context. *)
Context (builder : PolicyTreeBuilder NsxPort SV) (Patch : string * list (option SV) -> N -> option goerr * N) (done_at : nat -> bool) (ctx_err : goerr).
Context `{!Converter SV}.
(** The ports of the store are marked where they are, before they are sent. *)
Definition mark_all (st : I) : I := foldl (fun st p => ix_Add (marked p) st) st (ix_List st).
Definition CleanupBeforeVPCDeletion (nsx : N) (st : I) : option (option goerr * N * I) :=
  match ix_List st with
  | [] => Some (None, nsx, st)
  | objs => PagingUpdateResources (UpdateMultipleResourcesOnNSX Patch builder) done_at ctx_err (Some DeleteMultipleObjects) (map marked objs) DefaultHAPIChildrenCount nsx (mark_all st)
  end.
End Cleanup.
Record VIF := mkVIF { vif_LportAttachmentId : option string; vif_MacAddress : option string }.
Definition vifIndexByAttachmentID (v : VIF) : list string := option_list (vif_LportAttachmentId v).
(** The store: every interface is filed under a key of its own. *)
Definition VifStore : Type := list VIF.
Definition macs_of (l : list VIF) : gset string := list_to_set (filter (fun m => m <> "") (omap vif_MacAddress l)).
Definition GetMACByAttachmentID (store : VifStore) (attachmentID : string) : result goerr string :=
  match filter (fun v => attachmentID ∈ vifIndexByAttachmentID v) store with
  | [] => Err (EText ("VIF not found for attachment ID: " +:+ attachmentID))
  | objects =>
      match elements (macs_of objects) with
      | [] => Err (EText ("MAC address not found for attachment ID: " +:+ attachmentID))
      | [mac] => Ok mac
      | _ => Err (EText ("multiple MAC addresses found for attachment ID: " +:+ attachmentID))
      end
  end.
Section Vifs.
Context {W : Type} (VifsList : string -> W -> result goerr (list VIF * option string) * W).
(** The pages from a cursor on; [None] when there are more than [fuel]. *)
Fixpoint list_vifs (fuel : nat) (cursor : string) (allVIFs : list VIF) (w : W) : option (result goerr (list VIF) * W) :=
  match fuel with
  | O => None
  | S fuel' =>
      let '(page, w) := VifsList cursor w in
      match page with
      | Err e => Some (Err (EWrap "failed to list VIFs" e), w)
      | Ok (results, next) =>
          let allVIFs := allVIFs ++ results in
          if bool_decide (default "" next = "") then Some (Ok allVIFs, w) else list_vifs fuel' (default "" next) allVIFs w
      end
  end.
Definition GetAllVIFs (fuel : nat) (w : W) : option (result goerr VifStore * W) := list_vifs fuel "" [] w.
End Vifs.

(** ** Facts *)
Section Reading.
Context {I W : Type}.
(** Calls that change neither the store nor the world. *)
Definition reads {A} (m : Svc (I := I) (W := W) A) : Prop := forall s r s', m s = Some (r, s') -> s' = s.
Lemma reads_bind {A B} (m : Svc A) (k : A -> Svc B) : reads m -> (forall a, reads (k a)) -> reads (bindM m k).
Proof. intros Hm Hk s r s2 [(a & s1 & ->%Hm & H2%Hk)|(e & ->%Hm & _)]%bindM_Some; done. Qed.
Lemma reads_ret {A} (a : A) : reads (mret a).
Proof. by intros s r s' [= <- <-]. Qed.
Lemma reads_fail {A} e : reads (A := A) (mfail e).
Proof. by intros s r s' [= <- <-]. Qed.
Lemma reads_total {A} (o : option A) : reads (mtotal o).
Proof. intros s r s'. unfold mtotal. destruct o; [|done]. by intros [= <- <-]. Qed.
Lemma reads_result {A} (r : result goerr A) : reads (mresult r).
Proof. by intros s r' s' [= <- <-]. Qed.
Lemma reads_get : reads mget.
Proof. by intros s r s' [= <- <-]. Qed.
Lemma reads_catch {A} (m : Svc A) : reads m -> reads (mcatch m).
Proof. intros Hm s r s' (r' & -> & Hc)%mcatch_Some. by apply Hm in Hc. Qed.
End Reading.
Lemma reads_asks {I W A} (f : W -> A) : reads (asks (I := I) f).
Proof. intros [st w] r s'. unfold asks, on_world. by intros [= <- <-]. Qed.
Lemma reads_asks_result {I W A} (f : W -> result goerr A) : reads (asks_result (I := I) f).
Proof. intros [st w] r s'. unfold asks_result, world_result. by intros [= <- <-]. Qed.
Create HintDb reads.
#[export] Hint Resolve reads_bind reads_ret reads_fail reads_total reads_result reads_get reads_catch reads_asks reads_asks_result : reads.
(** Splits on what the call depends on. *)
Ltac solve_reads :=
  repeat first [ apply reads_ret | apply reads_fail | apply reads_total | apply reads_result | apply reads_get | apply reads_asks
    | apply reads_asks_result | apply reads_catch | apply reads_bind; [|intros ?] | progress intros | case_match | progress cbv zeta ].

Section Building.
Context {I W : Type} `{!Indexer I NsxPort np_Id} `{!PortWorld W}.
Context (cluster : string) (uuids : nat -> string) (fuel : nat).
Local Abbreviation state := (service_state (port_store I) W).
Lemma reads_plan o sn restoreMode ipType : reads (plan_port (I := I) (W := W) o sn restoreMode ipType).
Proof.
  unfold plan_port, GetPodForSubnetPort, buildExternalAddressBinding, external_of_binding, allocation_of_binding. solve_reads.
Qed.
Lemma reads_build o sn contextID labels isVm restoreMode ipType :
  reads (buildSubnetPort (I := I) (W := W) cluster uuids fuel o sn contextID labels isVm restoreMode ipType).
Proof. unfold buildSubnetPort. apply reads_bind; [apply reads_plan|]. solve_reads. Qed.
(** The Pod behind an object. *)
Inductive pod_behind (w : W) : port_object -> pod_info -> Prop :=
  | behind_pod p : pod_behind w (OPod p) (pod_info_of p)
  | behind_none p : filter (fun o : string * string * string => o.1.1 = "Pod") (pc_Owners p) = [] -> pod_behind w (OSubnetPort p) no_pod
  | behind_owner p kind name uid l pod : filter (fun o : string * string * string => o.1.1 = "Pod") (pc_Owners p) = (kind, name, uid) :: l ->
      world_Pod (m_Namespace (pc_meta p)) name w = Ok pod -> m_UID (pod_meta pod) = uid -> pod_behind w (OSubnetPort p) (pod_info_of pod).
Lemma plan_pod o sn restoreMode ipType (s s' : state) pl :
  plan_port o sn restoreMode ipType s = Some (Ok pl, s') -> pod_behind (svc_world s) o (pl_pod pl).
Proof.
  destruct o as [p|p|]; [|intros [= <- _]; constructor|discriminate]. cbn [plan_port].
  intros (pod & s1 & Hpod & (ext & s2 & _ & (v6 & s3 & _ & Hk)%bindM_Ok)%bindM_Ok)%bindM_Ok.
  destruct (port_bindings _ _ _ _) as [bs hasMac]. injection Hk as <- _. cbn.
  unfold GetPodForSubnetPort in Hpod. destruct (filter _ (pc_Owners p)) as [|[[kind name] uid] l] eqn:E.
  { injection Hpod as <- _. by constructor. }
  apply bindM_Ok in Hpod as (x & s0 & Hx & Hpod). unfold asks_result, world_result in Hx. injection Hx as Hx _.
  case_bool_decide as Hu; [|discriminate]. injection Hpod as <- _. by eapply behind_owner.
Qed.
(** What a built port carries, and how it got its identifier. *)
Lemma port_shape o sn contextID labels isVm restoreMode ipType (s s' : state) p :
  buildSubnetPort cluster uuids fuel o sn contextID labels isVm restoreMode ipType s = Some (Ok p, s') ->
  s' = s /\ np_ParentPath p = s_Path sn /\ np_MarkedForDelete p = None /\ is_Some (np_Attachment p) /\
  exists m i namespaceUID name, getObjectMeta o = Some m /\ pod_behind (svc_world s) o i /\
    BuildSubnetPortIdAndName uuids fuel (world_stsPorts (svc_world s)) m namespaceUID (pi_stsUID i) (pi_podName i) (pi_appId i) (st_ports (svc_store s)) = Some (np_Id p, name).
Proof.
  intros Hrun. pose proof (reads_build _ _ _ _ _ _ _ _ _ _ Hrun) as ->. split; [done|]. unfold buildSubnetPort in Hrun.
  apply bindM_Ok in Hrun as (pl & s1 & Hpl & Hrun). pose proof (reads_plan _ _ _ _ _ _ _ Hpl) as ->. apply plan_pod in Hpl.
  apply bindM_Ok in Hrun as (m & s1 & Hm & Hrun). unfold mtotal in Hm. destruct (getObjectMeta o) as [m'|]; [|discriminate]. injection Hm as -> <-.
  apply bindM_Ok in Hrun as (u & s1 & Hu & Hrun).
  assert (s1 = s) as -> by (destruct restoreMode; [by apply reads_asks_result in Hu|by apply reads_result in Hu]).
  apply bindM_Ok in Hrun as (nsUID & s1 & ->%reads_asks_result & Hrun).
  apply bindM_Ok in Hrun as (sts & s1 & Hsts & Hrun). pose proof (reads_asks _ _ _ _ Hsts) as ->. injection Hsts as <- _.
  apply bindM_Ok in Hrun as (st & s1 & [= <- <-] & Hrun). apply bindM_Ok in Hrun as (x & s1 & Hx & Hrun).
  unfold mtotal in Hx. destruct (BuildSubnetPortIdAndName _ _ _ _ _ _ _ _ _) as [[id name]|] eqn:Eid; [|discriminate]. injection Hx as <- <-.
  apply bindM_Ok in Hrun as (path & s1 & Hp & Hrun). unfold mtotal in Hp. destruct (s_Path sn); [|discriminate]. injection Hp as -> <-.
  apply bindM_Ok in Hrun as (v6 & s1 & _ & Hrun). injection Hrun as <- _. cbn. split_and!; [done..|by eexists|]. by exists m, (pl_pod pl), nsUID, name.
Qed.
End Building.
Section Owned.
Context {I : Type} `{!Indexer I NsxPort np_Id}.
Definition owners (p : NsxPort) : list string := subnetPortIndexByCRUID p ++ subnetPortIndexByPodUID p.
Lemma GetVpcSubnetPortByUID_finder : finder (I := I) owners GetVpcSubnetPortByUID.
Proof.
  intros uid st. unfold GetVpcSubnetPortByUID.
  assert (Hin : forall a, a ∈ ix_GetByIndex subnetPortIndexByCRUID uid st ++ ix_GetByIndex subnetPortIndexByPodUID uid st <->
    a ∈ ix_List st /\ uid ∈ owners a).
  { intros a. rewrite elem_of_app, !elem_of_GetByIndex, ix_list_get. unfold owners. rewrite elem_of_app. tauto. }
  destruct (_ ++ _) as [|x l]; [|apply Hin, list_elem_of_here]. intros a Ha Hu. by apply (not_elem_of_nil a), Hin.
Qed.
Lemma GetVpc_Some uid (st : I) p : GetVpcSubnetPortByUID uid st = Some p -> ix_GetByKey (np_Id p) st = Some p /\ uid ∈ owners p.
Proof. intros Hf. pose proof (GetVpcSubnetPortByUID_finder uid st) as H. rewrite Hf in H. by rewrite <- ix_list_get. Qed.
End Owned.
Section Own.
Context {I W : Type} `{!Indexer I NsxPort np_Id} `{!PortWorld W}.
Context (uuids : nat -> string) (fuel : nat).
(** The ports that are an object's own: filed under its UID, or that of its Pod,
    or, when they may be taken over, those of a Pod of its name in its StatefulSet. *)
Inductive belongs (w : W) (o : port_object) (p : NsxPort) : Prop :=
  | own_uid m : getObjectMeta o = Some m -> m_UID m ∈ owners p -> belongs w o p
  | own_pod i : pod_behind w o i -> pi_appId i <> "" -> pi_appId i ∈ owners p -> belongs w o p
  | own_statefulset i m : pod_behind w o i -> getObjectMeta o = Some m -> world_stsPorts w = true -> pi_stsUID i <> "" ->
      pi_stsUID i ∈ subnetPortIndexByStatefulSetUID p ->
      tag_value p TagScopePodName = (if bool_decide (pi_podName i = "") then m_Name m else pi_podName i) -> belongs w o p.
Lemma fresh_id gen ex us n obj id : BuildUniqueIDWithRandomUUID gen ex us n obj = Some id -> ex id = false.
Proof. unfold BuildUniqueIDWithRandomUUID. intros (res & _ & Hid)%bind_Some. by eapply unique_loop_fresh. Qed.
#[local] Strategy opaque [BuildUniqueIDWithRandomUUID GenerateTruncName].
Lemma id_spec (st : I) w o m i nsUID id name : getObjectMeta o = Some m -> pod_behind w o i ->
  BuildSubnetPortIdAndName uuids fuel (world_stsPorts w) m nsUID (pi_stsUID i) (pi_podName i) (pi_appId i) st = Some (id, name) ->
  ix_GetByKey id st = None \/ exists p, ix_GetByKey id st = Some p /\ np_Id p = id /\ np_DisplayName p = Some name /\ belongs w o p.
Proof.
  intros Hm Hi. unfold BuildSubnetPortIdAndName.
  assert (Hreuse : forall p, ix_GetByKey (np_Id p) st = Some p -> belongs w o p -> (name ← np_DisplayName p; Some (np_Id p, name)) = Some (id, name) ->
    ix_GetByKey id st = None \/ exists p, ix_GetByKey id st = Some p /\ np_Id p = id /\ np_DisplayName p = Some name /\ belongs w o p).
  { intros p Hk Hb (n & Hn & [= <- <-])%bind_Some. right. by exists p. }
  destruct (GetVpcSubnetPortByUID (m_UID m) st) as [p|] eqn:E1.
  { apply GetVpc_Some in E1 as [Hk Hu]. apply Hreuse; [done|]. by eapply own_uid. }
  destruct (if bool_decide (pi_appId i = "") then None else GetVpcSubnetPortByUID (pi_appId i) st) as [p|] eqn:E2.
  { case_bool_decide; [discriminate|]. apply GetVpc_Some in E2 as [Hk Hu]. apply Hreuse; [done|]. by eapply own_pod. }
  destruct (if world_stsPorts w then _ else _) as [p|] eqn:E3.
  { destruct (world_stsPorts w) eqn:Ew; [|discriminate]. unfold GetExistingSubnetPortForStatefulSetPod in E3. case_bool_decide; [discriminate|].
    apply head_Some_elem_of in E3. apply list_elem_of_filter in E3 as [Ht [Hs Hk]%elem_of_GetByIndex].
    apply Hreuse; [done|]. by eapply own_statefulset. }
  intros (id' & Hid & (n & _ & [= -> _])%bind_Some)%bind_Some. left.
  apply fresh_id in Hid. case_bool_decide as Hs; [discriminate|]. by apply eq_None_not_Some.
Qed.
End Own.

(** *** What follows the update of a port *)
Lemma CheckRealizeState_inv {N} `{!RetryDriver} (List_ : string -> N -> result goerr (list Entity) * N) (P : N -> Prop) path ids n r n' :
  (forall n r n', P n -> List_ path n = (r, n') -> P n') -> P n -> CheckRealizeState List_ path ids n = Some (r, n') -> P n'.
Proof.
  intros Hstep Hn. unfold CheckRealizeState. destruct (OnError _ _ _) as [e [n1 panicked]] eqn:Eo. destruct panicked; [done|]. intros [= <- <-].
  destruct (OnError_attempts _ (fun err => negb (IsRealizeStateError (Some err))) (realize_fn List_ path ids) (n, false)) as [k Hk].
  rewrite Hk in Eo. clear Hk. revert Eo. generalize (S k) as fuel. intros fuel.
  assert (Hfn : forall x e x', P x.1 -> realize_fn List_ path ids x = (e, x') -> P x'.1).
  { intros [m b] e' x' Hm. unfold realize_fn. cbn [fst]. destruct (List_ path m) as [listed m'] eqn:El. pose proof (Hstep _ _ _ Hm El).
    destruct (check_once _ _ _); by intros [= <- <-]. }
  assert (Hall : forall x e x', P x.1 -> attempts fuel (fun err => negb (IsRealizeStateError (Some err))) (realize_fn List_ path ids) x = (e, x') -> P x'.1).
  { induction fuel as [|fuel IH]; intros x e' x' Hx; cbn [attempts]; destruct (realize_fn List_ path ids x) as [[er|] x1] eqn:Ef;
      pose proof (Hfn _ _ _ Hx Ef); try (by intros [= <- <-]). destruct fuel; [by intros [= <- <-]|].
    destruct (negb _); [by apply IH|by intros [= <- <-]]. }
  intros Ha. by apply Hall in Ha.
Qed.

Section Running.
Context {I W : Type} `{!Indexer I NsxPort np_Id} `{!PortWorld W} `{!RetryDriver}.
Local Abbreviation state := (service_state (port_store I) W).
(** Calls of NSX that only read. *)
Inductive quiet (w : W) : W -> Prop :=
  | quiet_refl : quiet w w
  | quiet_realized path r w1 w2 : quiet w w1 -> Port_Realized path w1 = (r, w2) -> quiet w w2
  | quiet_state i k r w1 w2 : quiet w w1 -> Port_State i k w1 = (r, w2) -> quiet w w2
  | quiet_get i k r w1 w2 : quiet w w1 -> Port_Get i k w1 = (r, w2) -> quiet w w2.
Definition deletes (q : NsxPort) (w : W) (e : option goerr) (w' : W) : Prop :=
  exists org project vpc subnet, Port_Delete org project vpc subnet (np_Id q) w = (e, w').
(** How the second half of a call ends. *)
Inductive finished (uid : string) (i : VPCResourceInfo) (k : string) (s : state) : result goerr (option PortState) -> state -> Prop :=
  | fin_failed e s' : st_ports (svc_store s') = st_ports (svc_store s) -> quiet (svc_world s) (svc_world s') -> finished uid i k s (Err e) s'
  | fin_stuck q w1 e d s' : GetVpcSubnetPortByUID uid (st_ports (svc_store s)) = Some q -> quiet (svc_world s) w1 -> deletes q w1 (Some d) (svc_world s') ->
      st_ports (svc_store s') = st_ports (svc_store s) -> finished uid i k s (Err e) s'
  | fin_deleted q w1 e s' : GetVpcSubnetPortByUID uid (st_ports (svc_store s)) = Some q -> quiet (svc_world s) w1 -> deletes q w1 None (svc_world s') ->
      st_ports (svc_store s') = ix_Delete q (st_ports (svc_store s)) -> IsRealizeStateError (Some e) = true -> finished uid i k s (Err e) s'
  | fin_done w1 got st s' : quiet (svc_world s) w1 -> Port_Get i k w1 = (Ok got, svc_world s') ->
      st_ports (svc_store s') = applied got (st_ports (svc_store s)) -> finished uid i k s (Ok (Some st)) s'.
Lemma check_quiet path (s s' : state) e : check_realized Port_Realized path [] s = Some (Ok e, s') ->
  svc_store s' = svc_store s /\ quiet (svc_world s) (svc_world s').
Proof.
  unfold check_realized. destruct (CheckRealizeState _ _ _ _) as [[e' w]|] eqn:Ec; [|done]. intros [= _ <-]. split; [done|].
  apply (CheckRealizeState_inv _ (quiet (svc_world s))) in Ec; [done| |apply quiet_refl]. intros. by eapply quiet_realized.
Qed.
Lemma delete_cases q (s s' : state) r : ix_GetByKey (np_Id q) (st_ports (svc_store s)) = Some q -> DeleteSubnetPortById (np_Id q) s = Some (r, s') ->
  (exists e, r = Err e /\ s' = s) \/ (exists e d, r = Err e /\ deletes q (svc_world s) (Some d) (svc_world s') /\ svc_store s' = svc_store s) \/
  (r = Ok tt /\ deletes q (svc_world s) None (svc_world s') /\ st_ports (svc_store s') = ix_Delete q (st_ports (svc_store s))).
Proof.
  intros Hk. unfold DeleteSubnetPortById. intros [(x & s1 & [= <- <-] & Hrun)|(e & [=] & _)]%bindM_Some. rewrite Hk in Hrun. unfold DeleteSubnetPort in Hrun.
  destruct (np_Path q) as [path|]; [|injection Hrun as <- <-; left; by eexists].
  unfold nsx_call, world_result, bindM in Hrun. destruct (Port_Delete _ _ _ _ _ _) as [[d|] w'] eqn:Ed; cbn in Hrun; injection Hrun as <- <-; right.
  - left. eexists _, d. split; [done|]. split; [|done]. by eexists _, _, _, _.
  - right. split; [done|]. split; [|done]. by eexists _, _, _, _.
Qed.
Lemma finish_cases uid subnetPath i k (s s' : state) r : finish_port uid subnetPath i k s = Some (r, s') -> finished uid i k s r s'.
Proof.
  unfold finish_port. intros Hrun.
  assert (Hcheck : forall r1 s1, CheckSubnetPortState uid subnetPath s = Some (r1, s1) ->
    match r1 with
    | Ok _ => svc_store s1 = svc_store s /\ quiet (svc_world s) (svc_world s1)
    | Err e => finished uid i k s (Err e) s1
    end).
  { intros r1 s1. unfold CheckSubnetPortState. intros [(x & s0 & [= <- <-] & Hc)|(e & [=] & _)]%bindM_Some.
    destruct (GetVpcSubnetPortByUID _ _) as [q|] eqn:Eq; [|injection Hc as <- <-; apply fin_failed; [done|apply quiet_refl]].
    apply bindM_Some in Hc as [(path & s0 & Hp & Hc)|(e & Hp & ->)]; [|unfold mtotal in Hp; by destruct (np_Path q)].
    apply reads_total in Hp as ->. apply bindM_Some in Hc as [(err & s0 & [Hst Hq]%check_quiet & Hc)|(e & He & _)];
      [|unfold check_realized in He; destruct (CheckRealizeState _ _ _ _) as [[]|]; done].
    destruct err as [e|].
    - destruct (IsRealizeStateError (Some e)) eqn:Ere; [|injection Hc as <- <-; apply fin_failed; [by rewrite Hst|done]].
      apply bindM_Some in Hc as [(u & s2 & Hm & Hc)|(e' & Hm & _)]; [|by destruct (HasAnyErrorCode _ _)].
      assert (st_ports (svc_store s2) = st_ports (svc_store s) /\ svc_world s2 = svc_world s0) as [Hp2 Hw2]
        by (destruct (HasAnyErrorCode _ _); injection Hm as _ <-; cbn; by rewrite Hst).
      pose proof Eq as [Hk _]%GetVpc_Some. rewrite <- Hp2 in Hk.
      apply bindM_Some in Hc as [(v & s3 & Hd & Hc)|(e' & Hd & ->)]; apply delete_cases in Hd; try exact Hk; rewrite Hw2, Hp2 in Hd.
      + injection Hc as <- <-. destruct Hd as [(e' & [=] & _)|[(e' & d & [=] & _)|(_ & Hd & Hs)]]. by eapply fin_deleted.
      + destruct Hd as [(e0 & [= ->] & ->)|[(e0 & d & [= ->] & Hd & Hs)|([=] & _)]].
        * apply fin_failed; [done|by rewrite Hw2].
        * eapply fin_stuck; try done. by rewrite Hs.
    - unfold GetSubnetPortState, nsx_result, world_result in Hc. destruct (Port_State _ _ _) as [x w'] eqn:Es. injection Hc as <- <-.
      assert (quiet (svc_world s) w') by by eapply quiet_state. destruct x; [by rewrite <- Hst|]. apply fin_failed; cbn; [by rewrite Hst|done]. }
  apply bindM_Some in Hrun as [(st & s1 & [Hst Hq]%Hcheck & Hrun)|(e & He%Hcheck & ->)]; [|done].
  unfold world_result in Hrun. apply bindM_Some in Hrun as [(got & s2 & Hg & Hrun)|(e & Hg & ->)];
    destruct (Port_Get _ _ _) as [x w'] eqn:Eg; injection Hg as -> <-.
  - injection Hrun as <- <-. cbn. rewrite Hst. by eapply fin_done.
  - apply fin_failed; cbn; [by rewrite Hst|by eapply quiet_get].
Qed.
End Running.

(** ** Attachments in NSX *)
(** The attachment that NSX has for a port of a Subnet, as its calls show it: an
    accepted update sets it, a failed one may, a deletion may remove it. *)
Class AttachmentView (W : Type) `{!PortWorld W} := {
  att : VPCResourceInfo -> string -> W -> option (option string);
  att_patch : forall i p w e w' j k, Port_Patch i p w = (e, w') ->
    att j k w' = att j k w \/ (j = i /\ k = np_Id p /\ att j k w' = Some (np_Attachment p ≫= at_Id));
  att_patched : forall i p w w', Port_Patch i p w = (None, w') -> att i (np_Id p) w' = Some (np_Attachment p ≫= at_Id);
  att_get : forall i k w r w' j k', Port_Get i k w = (r, w') -> att j k' w' = att j k' w;
  att_got : forall i k w got w', Port_Get i k w = (Ok got, w') -> np_Id got = k /\ np_MarkedForDelete got <> Some true /\
    (forall path, np_ParentPath got = Some path -> ParseVPCResourcePath path = Some i) /\ att i k w = Some (np_Attachment got ≫= at_Id);
  att_delete : forall a b c d k w e w' j k', Port_Delete a b c d k w = (e, w') -> att j k' w' = att j k' w \/ att j k' w' = None;
  att_realized : forall path w r w' j k, Port_Realized path w = (r, w') -> att j k w' = att j k w;
  att_state : forall i k w r w' j k', Port_State i k w = (r, w') -> att j k' w' = att j k' w }.

(** *** A call of [CreateOrUpdateSubnetPort] *)
Section Calls.
Context {I W : Type} `{!Indexer I NsxPort np_Id} `{!PortWorld W} `{!RetryDriver} `{!PortEncoder}.
Context (cluster : string) (uuids : nat -> string) (fuel : nat).
Local Abbreviation state := (service_state (port_store I) W).
Context (o : port_object) (sn : NsxSubnet) (contextID : string) (labels : option (gmap string string)) (isVm restoreMode : bool) (ipType : string).
Local Abbreviation create := (CreateOrUpdateSubnetPort (I := I) (W := W) cluster uuids fuel o sn contextID labels isVm restoreMode ipType).
(** The built port with what it keeps, and the port that is sent. *)
Definition kept_port (s : state) (built : NsxPort) : NsxPort :=
  from_option (fun e => keep_existing (keeps_context o contextID (world_podV2 (svc_world s))) e built) built (ix_GetByKey (np_Id built) (st_ports (svc_store s))).
Definition sent_port (s : state) (built : NsxPort) : NsxPort :=
  if vif_restored o restoreMode (world_restoreVif (svc_world s))
  then with_attachment (set_attachment_id (Some (status_attachment o))) (kept_port s built) else kept_port s built.
Lemma sent_fields s built : np_Id (sent_port s built) = np_Id built /\ np_MarkedForDelete (sent_port s built) = np_MarkedForDelete built /\
  np_ParentPath (sent_port s built) = np_ParentPath built.
Proof.
  unfold sent_port, kept_port. destruct (ix_GetByKey _ _) as [e|]; cbn; [|by destruct (vif_restored _ _ _)].
  unfold keep_existing. by destruct (np_Attachment e), (vif_restored _ _ _).
Qed.
(** How a call goes: it ends before anything is sent, the update fails, or it
    goes on with the state the update left, or that of the start. *)
Inductive went (s : state) (r : result goerr (option PortState)) (s' : state) : Prop :=
  | went_nowhere : (exists e, r = Err e) \/ r = Ok None -> s' = s -> went s r s'
  | went_unsent i path built e w' : s_Path sn = Some path -> ParseVPCResourcePath path = Some i ->
      buildSubnetPort cluster uuids fuel o sn contextID labels isVm restoreMode ipType s = Some (Ok built, s) ->
      Port_Patch i (sent_port s built) (svc_world s) = (Some e, w') -> s' = mkService (svc_store s) w' -> (exists e, r = Err e) -> went s r s'
  | went_on i path built s1 : s_Path sn = Some path -> ParseVPCResourcePath path = Some i ->
      buildSubnetPort cluster uuids fuel o sn contextID labels isVm restoreMode ipType s = Some (Ok built, s) ->
      (exists w', Port_Patch i (sent_port s built) (svc_world s) = (None, w') /\
         s1 = mkService (mkPortStore (ix_Add (sent_port s built) (st_ports (svc_store s))) (st_counts (svc_store s))) w') \/
      (is_Some (ix_GetByKey (np_Id built) (st_ports (svc_store s))) /\ s1 = s) ->
      finish_port (object_uid o) path i (np_Id built) s1 = Some (r, s') -> went s r s'.
Lemma create_went s r s' : create s = Some (r, s') -> went s r s'.
Proof.
  unfold CreateOrUpdateSubnetPort. intros Hrun. destruct (s_Path sn) as [path|] eqn:Ep; [|discriminate].
  apply bindM_Some in Hrun as [(x & s1 & [= <- <-] & Hrun)|(e & [=] & _)].
  apply bindM_Some in Hrun as [(built & s1 & Hb & Hrun)|(e & Hb & ->)]; pose proof (reads_build _ _ _ _ _ _ _ _ _ _ _ _ _ Hb) as ->;
    [|apply went_nowhere; [left; by eexists|done]].
  apply bindM_Some in Hrun as [(x & s1 & [= <- <-] & Hrun)|(e & [=] & _)]. fold (kept_port s built) in Hrun. fold (sent_port s built) in Hrun.
  destruct (ParseVPCResourcePath path) as [i|] eqn:Ei; [|injection Hrun as <- <-; apply went_nowhere; [left; by eexists|done]].
  destruct (sent_fields s built) as (Hid & Hmark & _). pose proof (port_shape _ _ _ _ _ _ _ _ _ _ _ _ _ Hb) as (_ & _ & Hm & _ & _).
  rewrite Hid in Hrun. destruct (from_option _ true _) eqn:Echanged.
  - unfold send_port, nsx_call, world_result in Hrun.
    apply bindM_Some in Hrun as [(u & s1 & Hsend & Hrun)|(e & Hsend & ->)]; unfold bindM in Hsend; destruct (Port_Patch _ _ _) as [[d|] w'] eqn:Epatch;
      cbn in Hsend; try discriminate.
    + injection Hsend as <-. eapply went_on; try done. left. exists w'. split; [done|]. subst s1. unfold applied. by rewrite Hmark, Hm.
    + injection Hsend as _ <-. eapply went_unsent; try done. by eexists.
  - destruct (ix_GetByKey (np_Id built) _) as [e|] eqn:Eex; [|discriminate].
    apply bindM_Some in Hrun as [(b & s1 & Hreal & Hrun)|(d & Hreal & _)]; [|destruct restoreMode; [discriminate|unfold mtotal in Hreal; by destruct (portAlreadyRealized _ _)]].
    assert (s1 = s) as -> by (destruct restoreMode; [by injection Hreal|by apply reads_total in Hreal]).
    destruct b; [injection Hrun as <- <-; apply went_nowhere; [by right|done]|]. eapply went_on; try done. right. rewrite Eex. split; [by eexists|done].
Qed.
(** NSX returns the port it was asked for. *)
Definition returns_asked : Prop := forall i k w got w', Port_Get i k w = (Ok got, w') -> np_Id got = k.
(** C32. Reconciling a port never touches a port of somebody else: whatever the
    outcome, every port of the store that is filed neither under the UID of the
    object nor under that of its Pod, and that is not of a Pod with this name in
    its StatefulSet, is in the store afterwards as it was. *)
Theorem foreign_ports_untouched (s s' : state) r : returns_asked -> create s = Some (r, s') ->
  forall p, ix_GetByKey (np_Id p) (st_ports (svc_store s)) = Some p -> ~ belongs (svc_world s) o p ->
    ix_GetByKey (np_Id p) (st_ports (svc_store s')) = Some p.
Proof.
  intros Hget Hrun%create_went p Hp Hforeign. destruct Hrun as [_ ->|? ? ? ? ? _ _ _ _ -> _|i path built s1 _ _ Hb Hs1 Hfin%finish_cases]; [done..|].
  apply port_shape in Hb as (_ & _ & _ & _ & m & inf & nsUID & name & Hm & Hi & Hid).
  assert (np_Id p <> np_Id built) as Hne.
  { intros Heq. rewrite Heq in Hp. eapply id_spec in Hid as [Hn|(q & Hq & _ & _ & Hown)]; [congruence| |done..]. rewrite Hp in Hq. by injection Hq as ->. }
  assert (Hp1 : ix_GetByKey (np_Id p) (st_ports (svc_store s1)) = Some p).
  { destruct Hs1 as [(w' & _ & ->)|[_ ->]]; [|done]. cbn [svc_store st_ports]. rewrite ix_get_add. destruct (sent_fields s built) as (-> & _ & _). by rewrite decide_False. }
  destruct Hfin as [e s' Hs _|q w1 e d s' _ _ _ Hs|q w1 e s' Hq _ _ Hs _|w1 got st s' _ Hg Hs]; rewrite Hs; [done|done| |].
  - rewrite ix_get_delete. rewrite decide_False; [done|]. intros Heq. apply GetVpc_Some in Hq as [Hq Hu]. rewrite <- Heq, Hp1 in Hq. injection Hq as ->.
    apply Hforeign. eapply own_uid; [exact Hm|]. unfold object_uid in Hu. by rewrite Hm in Hu.
  - apply Hget in Hg. unfold applied. rewrite ?ix_get_add, ?ix_get_delete. destruct (default _ _);
      rewrite ?ix_get_add, ?ix_get_delete; rewrite decide_False; congruence.
Qed.
(** *** The store and NSX agree on attachments *)
Section Attachments.
Context `{!AttachmentView W}.
(** A stored port has the attachment that NSX has for it, if NSX has the port. *)
Definition in_sync (st : I) (w : W) : Prop := forall p a path i a', ix_GetByKey (np_Id p) st = Some p -> np_Attachment p = Some a ->
  np_ParentPath p = Some path -> ParseVPCResourcePath path = Some i -> att i (np_Id p) w = Some a' -> a' = at_Id a.
Lemma quiet_att w w' j k : quiet w w' -> att j k w' = att j k w.
Proof. induction 1 as [|? ? ? ? _ IH Hs|? ? ? ? ? _ IH Hs|? ? ? ? ? _ IH Hs]; [done| | |]; rewrite <- IH; [by eapply att_realized|by eapply att_state|by eapply att_get]. Qed.
Lemma in_sync_weaken st w w' : (forall j k, att j k w' = att j k w \/ att j k w' = None) -> in_sync st w -> in_sync st w'.
Proof. intros Hw Hs p a path i a' Hp Ha Hpa Hi Hatt. destruct (Hw i (np_Id p)) as [Heq|Heq]; rewrite Heq in Hatt; [|done]. by eapply Hs. Qed.
Lemma in_sync_delete st q w : in_sync st w -> in_sync (ix_Delete q st) w.
Proof. intros Hs p a path i a'. rewrite ix_get_delete. case_decide; [done|]. by apply Hs. Qed.
Lemma in_sync_add st q w : in_sync st w ->
  (forall a path i a', np_Attachment q = Some a -> np_ParentPath q = Some path -> ParseVPCResourcePath path = Some i -> att i (np_Id q) w = Some a' -> a' = at_Id a) ->
  in_sync (ix_Add q st) w.
Proof. intros Hs Hq p a path i a'. rewrite ix_get_add. case_decide as Hk; [|by apply Hs]. intros [= <-]. by apply Hq. Qed.
(** The second half keeps the agreement, and the attachments of the ports of the
    Subnet; a port only leaves when it failed to be realized. *)
Lemma finished_in_sync uid path i k (s s' : state) r : ParseVPCResourcePath path = Some i ->
  in_sync (st_ports (svc_store s)) (svc_world s) -> finished uid i k s r s' ->
  in_sync (st_ports (svc_store s')) (svc_world s') /\
  forall p a, ix_GetByKey (np_Id p) (st_ports (svc_store s)) = Some p -> np_Attachment p = Some a -> np_ParentPath p = Some path ->
    match ix_GetByKey (np_Id p) (st_ports (svc_store s')) with
    | Some p' => np_Attachment p' ≫= at_Id = at_Id a
    | None => exists e, r = Err e /\ IsRealizeStateError (Some e) = true
    end.
Proof.
  intros Hi Hs [e s2 Hst Hq|q w1 e d s2 _ Hq (? & ? & ? & ? & Hd) Hst|q w1 e s2 _ Hq (? & ? & ? & ? & Hd) Hst Hre|w1 got x s2 Hq Hg Hst]; rewrite Hst.
  - split; [|intros p a -> Ha _; by rewrite Ha]. eapply in_sync_weaken; [|exact Hs]. intros. left. by apply quiet_att.
  - split; [|intros p a -> Ha _; by rewrite Ha]. eapply in_sync_weaken; [|exact Hs]. intros j k'. rewrite <- (quiet_att _ _ j k' Hq). by eapply att_delete.
  - split; [|intros p a Hp Ha _; rewrite ix_get_delete; case_decide; [by exists e|by rewrite Hp, Ha]].
    apply in_sync_delete. eapply in_sync_weaken; [|exact Hs]. intros j k'. rewrite <- (quiet_att _ _ j k' Hq). by eapply att_delete.
  - pose proof (att_got _ _ _ _ _ Hg) as (Hk & Hm & Hpath & Hatt).
    assert (applied got (st_ports (svc_store s)) = ix_Add got (st_ports (svc_store s))) as -> by (unfold applied; by destruct (np_MarkedForDelete got) as [[]|]).
    assert (Hw : in_sync (st_ports (svc_store s)) (svc_world s2)).
    { eapply in_sync_weaken; [|exact Hs]. intros j k'. left. rewrite (att_get _ _ _ _ _ j k' Hg). by apply quiet_att. }
    split.
    + apply in_sync_add; [exact Hw|]. intros a path' i' a' Ha Hp' Hi' Ha'. apply Hpath in Hp'. rewrite Hp' in Hi'. injection Hi' as <-.
      rewrite (att_get _ _ _ _ _ _ _ Hg), Hk, Hatt, Ha in Ha'. by injection Ha'.
    + intros p a Hp Ha Hpp. rewrite ix_get_add. case_decide as Heq; [|by rewrite Hp, Ha]. rewrite (quiet_att _ _ _ _ Hq), <- Hk, <- Heq in Hatt. by eapply Hs.
Qed.
Lemma kept_attachment s built e a : is_Some (np_Attachment built) -> ix_GetByKey (np_Id built) (st_ports (svc_store s)) = Some e -> np_Attachment e = Some a ->
  exists b, np_Attachment (kept_port s built) = Some b /\ at_Id b = at_Id a.
Proof.
  intros [b Hb] He Ha. unfold kept_port. rewrite He. cbn. unfold keep_existing. rewrite Ha. cbn. rewrite Hb. cbn. eexists. split; [done|]. by destruct (keeps_context _ _ _).
Qed.
(** C31. The store and NSX agree on the attachment of every port, the identity that
    the hypervisors know the port by, and a call without restored attachments keeps
    it that way, whatever fails on the way. The attachment of a stored port of the
    Subnet never changes, and the port leaves the store only when the call fails
    because the port could not be realized. *)
Theorem attachments_in_sync (s s' : state) r : vif_restored o restoreMode (world_restoreVif (svc_world s)) = false ->
  in_sync (st_ports (svc_store s)) (svc_world s) -> create s = Some (r, s') ->
  in_sync (st_ports (svc_store s')) (svc_world s') /\
  forall p a, ix_GetByKey (np_Id p) (st_ports (svc_store s)) = Some p -> np_Attachment p = Some a -> np_ParentPath p = s_Path sn ->
    match ix_GetByKey (np_Id p) (st_ports (svc_store s')) with
    | Some p' => np_Attachment p' ≫= at_Id = at_Id a
    | None => exists e, r = Err e /\ IsRealizeStateError (Some e) = true
    end.
Proof.
  intros Hvif Hs Hrun%create_went.
  destruct Hrun as [_ ->|i path built e w' Hpath Hi Hb Hpatch -> _|i path built s1 Hpath Hi Hb Hs1 Hfin%finish_cases].
  { split; [done|]. intros p a -> Ha _. by rewrite Ha. }
  all: apply port_shape in Hb as (_ & Hparent & _ & Hatt & _); destruct (sent_fields s built) as (Hid & _ & Hpp);
    assert (Hsent : sent_port s built = kept_port s built) by (unfold sent_port; by rewrite Hvif).
  - cbn [svc_store svc_world]. split; [|intros p a -> Ha _; by rewrite Ha]. intros p a q j a' Hp Ha Hq Hj Ha'.
    destruct (att_patch _ _ _ _ _ j (np_Id p) Hpatch) as [Heq|(-> & Hk & Heq)]; rewrite Heq in Ha'; [by eapply Hs|].
    rewrite Hid in Hk. rewrite Hk in Hp. destruct (kept_attachment s built p a Hatt Hp Ha) as (b & Hb & Hba). rewrite Hsent, Hb in Ha'. cbn in Ha'. congruence.
  - assert (Hmid : in_sync (st_ports (svc_store s1)) (svc_world s1) /\ forall p a, ix_GetByKey (np_Id p) (st_ports (svc_store s)) = Some p -> np_Attachment p = Some a ->
      np_ParentPath p = s_Path sn -> exists p1 a1, np_Id p1 = np_Id p /\ ix_GetByKey (np_Id p1) (st_ports (svc_store s1)) = Some p1 /\ np_Attachment p1 = Some a1 /\ at_Id a1 = at_Id a /\ np_ParentPath p1 = s_Path sn).
    { destruct Hs1 as [(w' & Hpatch & ->)|[_ ->]]; [|split; [done|]; intros p a ? ? ?; by exists p, a]. cbn [svc_store svc_world st_ports]. split.
      - intros p a q j a'. rewrite ix_get_add. case_decide as Hk.
        + intros [= <-] Ha Hq Hj. rewrite Hpp, Hparent, Hpath in Hq. injection Hq as <-. rewrite Hi in Hj. injection Hj as <-.
          rewrite (att_patched _ _ _ _ Hpatch), Ha. by intros [= <-].
        + intros Hp Ha Hq Hj Ha'. destruct (att_patch _ _ _ _ _ j (np_Id p) Hpatch) as [Heq|(_ & Hk' & _)]; [|done]. rewrite Heq in Ha'. by eapply Hs.
      - intros p a Hp Ha Hpar. destruct (decide (np_Id p = np_Id built)) as [Hk|Hk].
        + rewrite Hk in Hp. destruct (kept_attachment s built p a Hatt Hp Ha) as (b & Hb & Hba). exists (sent_port s built), b.
          rewrite ix_get_add, decide_True by done. rewrite Hid, Hsent, <- Hsent, Hpp, Hparent, Hsent. done.
        + exists p, a. rewrite ix_get_add, decide_False; [done|]. by rewrite Hid. }
    destruct Hmid as [Hs' Hkeep]. destruct (finished_in_sync _ _ _ _ _ _ _ Hi Hs' Hfin) as [Hout Hports]. split; [done|].
    intros p a Hp Ha Hpar. destruct (Hkeep p a Hp Ha Hpar) as (p1 & a1 & Hid1 & Hp1 & Ha1 & <- & Hpar1). rewrite <- Hid1. apply Hports; [done..|]. by rewrite Hpar1.
Qed.
End Attachments.
End Calls.

(** ** A Subnet without addresses is left alone *)
Section BackOff.
Context (AddressCount : IPNet -> Z) (stats : nsx_stats) (prts : list VpcSubnetPort) (now : Z).
Lemma exhausted_same i j : same_dirty i j -> exhausted_recently now i = exhausted_recently now j.
Proof. intros [_ Ht]. unfold exhausted_recently. by rewrite Ht. Qed.
Lemma check4_exhausted sub shared info existed static n i : checkIPv4Capacity AddressCount stats prts now sub shared info existed static n = (Ok true, i) ->
  exhausted_recently now info = true -> unchecked4 sub.
Proof.
  unfold checkIPv4Capacity, unchecked4. destruct (bool_decide _ && _) eqn:Hd.
  { intros _ _. go_bool. destruct Hd as [Hd1 Hd2]. by apply bool_decide_eq_true in Hd1. }
  destruct (refresh_ipv4 _ _ _ _ _ _ _) as [[j al]|e] eqn:Er; [|done]. apply refresh_ipv4_dirty, exhausted_same in Er. rewrite Er. by destruct (exhausted_recently now info).
Qed.
Lemma check6_exhausted sub shared info existed static n i : checkIPv6Capacity stats prts now sub shared info existed static n = (Ok true, i) ->
  exhausted_recently now info = true -> unchecked6 stats sub static.
Proof.
  intros Hc He. unfold checkIPv6Capacity in Hc. unfold unchecked6. destruct (bool_decide _ && _) eqn:Hd.
  { left. go_bool. destruct Hd as [Hd1 Hd2]. by apply bool_decide_eq_true in Hd1. }
  destruct static; cbn [negb] in Hc.
  - destruct (if negb existed || _ || _ then _ else _) as [[j al]|e] eqn:Ef; [|discriminate].
    assert (exhausted_recently now j = true) as Hj; [|by rewrite Hj in Hc]. rewrite <- He. apply exhausted_same.
    destruct (negb existed || _ || _); [|injection Ef as <- _; done]. destruct (ip_pool stats _) as [[total req]|er]; [|discriminate].
    cbn in Ef. injection Ef as <- _. destruct total; by_fields.
  - right. split; [done|]. destruct (nsx_ipv6 stats); [|by left]. right. cbn [negb] in Hc.
    destruct (dhcp_stats stats) as [[x [[size alloc]|]]|er]; [|by exists x|discriminate].
    destruct x as [x y]. cbn in Hc. exfalso. set (j := match size ≫= big_SetString with Some n0 => _ | None => _ end) in Hc.
    assert (exhausted_recently now j = true) as Hj; [|by rewrite Hj in Hc]. rewrite <- He. apply exhausted_same. subst j. destruct (size ≫= big_SetString); by_fields.
Qed.
End BackOff.
Section Exhausted.
Context {I W : Type} `{!Indexer I NsxPort np_Id} `{!PortWorld W} `{!RetryDriver}.
Local Abbreviation state := (service_state (port_store I) W).
(** Whether the pools of a family are checked at all in a Subnet. *)
Definition checks_capacity (stats : nsx_stats) (sub : PortAlloc.Subnet) (ipType static : string) : Prop :=
  (IPAddressTypeIncludesIPv4 ipType = true /\ ~ unchecked4 sub) \/
  (IPAddressTypeIncludesIPv6 ipType = true /\ ~ unchecked6 stats sub (StaticIPAllocationTypeIncludesIPv6 static)).
Lemma delete_counts k (s s' : state) r : DeleteSubnetPortById k s = Some (r, s') -> st_counts (svc_store s') = st_counts (svc_store s).
Proof.
  unfold DeleteSubnetPortById. intros [(x & s1 & [= <- <-] & Hrun)|(e & [=] & _)]%bindM_Some. destruct (ix_GetByKey _ _) as [q|]; [|by injection Hrun as <- <-].
  unfold DeleteSubnetPort in Hrun. destruct (np_Path q); [|by injection Hrun as <- <-].
  unfold nsx_call, world_result, bindM in Hrun. destruct (Port_Delete _ _ _ _ _ _) as [[d|] w']; cbn in Hrun; by injection Hrun as <- <-.
Qed.
(** What happens to the counters of the Subnets: reservations and their release,
    the totals read again, another exhaustion, and the counters of a Subnet
    dropped when it is deleted. *)
Inductive count_op :=
  | OpAllocate (stats : nsx_stats) (prts : list VpcSubnetPort) (now : Z) (sub : PortAlloc.Subnet) (shared : bool)
      (ipType static : string) (bindings : list string)
  | OpRelease (path ipType static : string) (bindings : list string)
  | OpReset (path : string)
  | OpExhausted (path : string) (now : Z)
  | OpDelete (path : string).
Definition count_apply (AddressCount : IPNet -> Z) (counts : gmap string CountInfo) (op : count_op) : gmap string CountInfo :=
  match op with
  | OpAllocate stats prts now sub shared ipType static bindings =>
      (AllocatePortFromSubnet AddressCount counts stats prts now sub shared ipType static bindings).2
  | OpRelease path ipType static bindings => ReleasePortInSubnet counts path ipType static bindings
  | OpReset path => ResetSubnetTotalIP counts path
  | OpExhausted path now => updateExhaustedSubnet counts path now
  | OpDelete path => DeletePortCount counts path
  end.
(** The operations after the time [since] that keep the counters of [path]. *)
Definition keeps (path : string) (since : Z) (op : count_op) : Prop :=
  match op with OpExhausted _ now => since <= now | OpDelete p => p <> path | _ => True end.
(** The Subnet at [path] was found without addresses at [since] or later. *)
Definition marked_since (path : string) (since : Z) (counts : gmap string CountInfo) : Prop :=
  exists info t, counts !! path = Some info /\ exhaustedCheckTime info = Some t /\ since <= t.
Lemma allocate_info_time AddressCount stats prts now s shared ipType static bindings entry :
  exhaustedCheckTime (allocate_info AddressCount stats prts now s shared ipType static bindings entry).2 = exhaustedCheckTime (default newCountInfo entry).
Proof.
  unfold allocate_info. destruct (requested ipType bindings) as [v4 v6].
  destruct (if IPAddressTypeIncludesIPv4 ipType then _ else _) as [r4 i1] eqn:E4.
  assert (H4 : exhaustedCheckTime i1 = exhaustedCheckTime (default newCountInfo entry)).
  { destruct (IPAddressTypeIncludesIPv4 ipType); [by apply checkIPv4Capacity_spec in E4 as [[_ ?] _]|by injection E4 as _ <-]. }
  destruct r4 as [[]|e]; [|done..]. destruct (if IPAddressTypeIncludesIPv6 ipType then _ else _) as [r6 i2] eqn:E6.
  assert (H6 : exhaustedCheckTime i2 = exhaustedCheckTime i1).
  { destruct (IPAddressTypeIncludesIPv6 ipType); [by apply checkIPv6Capacity_spec in E6 as [[_ ?] _]|by injection E6 as _ <-]. }
  rewrite <- H4, <- H6. destruct r6 as [[]|e]; [|done..]. by destruct (IPAddressTypeIncludesIPv4 ipType), (IPAddressTypeIncludesIPv6 ipType).
Qed.
Lemma release_info_time ipType static bindings info : exhaustedCheckTime (release_info ipType static bindings info) = exhaustedCheckTime info.
Proof.
  assert (Hf : forall i x st n, exhaustedCheckTime (release_family i x st n) = exhaustedCheckTime i)
    by (intros; unfold release_family; by case_bool_decide).
  unfold release_info. destruct (requested _ _). by destruct (IPAddressTypeIncludesIPv4 ipType), (IPAddressTypeIncludesIPv6 ipType); rewrite ?Hf.
Qed.
Lemma marked_insert path since counts p info :
  (path = p -> exists i, counts !! path = Some i /\ exhaustedCheckTime info = exhaustedCheckTime i) ->
  marked_since path since counts -> marked_since path since (<[p := info]> counts).
Proof.
  intros Hp (i & t & Hi & Ht & Hle). destruct (decide (path = p)) as [->|Hne].
  - destruct (Hp eq_refl) as (i' & Hi' & Heq). exists info, t. rewrite lookup_insert_eq. split; [done|]. split; [congruence|done].
  - exists i, t. by rewrite lookup_insert_ne.
Qed.
Lemma marked_apply AddressCount path since counts op :
  keeps path since op -> marked_since path since counts -> marked_since path since (count_apply AddressCount counts op).
Proof.
  intros Hk Hm. destruct op as [stats prts now sub shared ipType static bindings|p ipType static bindings|p|p now|p]; cbn in Hk |- *.
  - unfold AllocatePortFromSubnet. rewrite (surjective_pairing (allocate_info _ _ _ _ _ _ _ _ _ _)). apply marked_insert; [|done].
    intros ->. destruct Hm as (i & t & Hi & _). exists i. by rewrite allocate_info_time, Hi.
  - unfold ReleasePortInSubnet. destruct (counts !! p) as [i|] eqn:E; [|done]. apply marked_insert; [|done]. intros ->. exists i. by rewrite release_info_time.
  - unfold ResetSubnetTotalIP. destruct (counts !! p) as [i|] eqn:E; [|done]. apply marked_insert; [|done]. intros ->. by exists i.
  - unfold updateExhaustedSubnet. destruct (counts !! p) as [i|] eqn:E; [|done]. destruct (decide (path = p)) as [->|Hne].
    + exists (set_exhausted i now), now. by rewrite lookup_insert_eq.
    + by apply marked_insert.
  - destruct Hm as (i & t & Hi & Ht). exists i, t. unfold DeletePortCount. by rewrite lookup_delete_ne.
Qed.
Lemma marked_run AddressCount path since ops : Forall (keeps path since) ops -> forall counts,
  marked_since path since counts -> marked_since path since (foldl (count_apply AddressCount) counts ops).
Proof. induction 1 as [|op ops Hk _ IH]; intros counts Hm; [done|]. by apply IH, marked_apply. Qed.
(** A reservation in a marked Subnet. *)
Lemma marked_refuses AddressCount counts stats prts t sub shared ipType static bindings since :
  marked_since (PortAlloc.sn_Path sub) since counts -> t < since + IPReleaseTime -> checks_capacity stats sub ipType static ->
  (AllocatePortFromSubnet AddressCount counts stats prts t sub shared ipType static bindings).1 <> Ok true.
Proof.
  intros (info & t0 & Hc & Hinfo & Hle) Ht Hcheck Hok. unfold AllocatePortFromSubnet in Hok. rewrite Hc in Hok.
  destruct (allocate_info _ _ _ _ _ _ _ _ _ _) as [r0 info'] eqn:Ea. cbn in Hok. subst r0.
  apply allocate_info_true in Ea as (i1 & i2 & H4 & H6 & _). cbn [default from_option id] in H4, H6.
  assert (Hex : exhausted_recently t info = true) by (unfold exhausted_recently; rewrite Hinfo; apply bool_decide_eq_true; lia).
  assert (Hex1 : exhausted_recently t i1 = true).
  { destruct (IPAddressTypeIncludesIPv4 ipType); [|by subst i1]. apply checkIPv4Capacity_spec in H4 as [Hsame%(exhausted_same t) _]. by rewrite Hsame. }
  destruct Hcheck as [[E4 Hno]|[E6 Hno]].
  - rewrite E4 in H4. by apply Hno, (check4_exhausted _ _ _ _ _ _ _ _ _ _ _ H4).
  - rewrite E6 in H6. by apply Hno, (check6_exhausted _ _ _ _ _ _ _ _ _ _ H6).
Qed.

(** C33. A Subnet that ran out of addresses is left alone for two minutes. When a
    port could not be realized for want of an address, the check of its state
    fails. If the operator has counters of its Subnet, then whatever reservations,
    releases, resets and further exhaustions of this and other Subnets follow, as
    long as the counters are not dropped with the Subnet, no attempt within two
    minutes of the failure reserves a port in the Subnet, whatever NSX says about
    it and whatever the port asks for, unless the Subnet has no pool that is
    checked for such a port. If there are no counters, as after a restart until
    the first port is reserved, the failure leaves no trace: it is only logged. *)
Theorem exhausted_subnet_backs_off uid path (s s' : state) r q qpath e w1 :
  GetVpcSubnetPortByUID uid (st_ports (svc_store s)) = Some q -> np_Path q = Some qpath ->
  CheckRealizeState Port_Realized qpath [] (svc_world s) = Some (Some e, w1) ->
  IsRealizeStateError (Some e) = true -> HasAnyErrorCode (Some e) ExhaustedErrorCodes = true ->
  CheckSubnetPortState uid path s = Some (r, s') ->
  (exists d, r = Err d) /\
  match st_counts (svc_store s) !! path with
  | None => st_counts (svc_store s') = st_counts (svc_store s)
  | Some _ =>
      forall AddressCount ops stats prts t sub shared ipType static bindings,
        Forall (keeps path (world_now w1)) ops -> PortAlloc.sn_Path sub = path ->
        t < world_now w1 + 120 -> checks_capacity stats sub ipType static ->
        let counts := foldl (count_apply AddressCount) (st_counts (svc_store s')) ops in
        (AllocatePortFromSubnet AddressCount counts stats prts t sub shared ipType static bindings).1 <> Ok true
  end.
Proof.
  intros Hq Hpath Hreal Hstate Hcode. unfold CheckSubnetPortState. intros [(x & s1 & [= <- <-] & Hrun)|(d & [=] & _)]%bindM_Some.
  rewrite Hq in Hrun. unfold mtotal, check_realized, bindM at 1 2 in Hrun. rewrite Hpath, Hreal, Hstate, Hcode in Hrun.
  assert (Hc : (exists d, r = Err d) /\ st_counts (svc_store s') = updateExhaustedSubnet (st_counts (svc_store s)) path (world_now w1)).
  { unfold mark_exhausted, bindM at 1 in Hrun. cbn [svc_store svc_world st_ports st_counts] in Hrun.
    apply bindM_Some in Hrun as [(u & s2 & Hd%delete_counts & Hrun)|(d & Hd%delete_counts & ->)].
    - injection Hrun as <- <-. rewrite Hd. split; [by exists e|done].
    - rewrite Hd. split; [by exists d|done]. }
  destruct Hc as [Herr Hc]. split; [done|]. rewrite Hc. unfold updateExhaustedSubnet.
  destruct (st_counts (svc_store s) !! path) as [info|]; [|done]. intros AddressCount ops stats prts t sub shared ipType static bindings Hops <- Ht Hcheck.
  apply (marked_refuses _ _ _ _ _ _ _ _ _ _ (world_now w1)); [|unfold IPReleaseTime; lia|done].
  apply marked_run; [done|]. exists (set_exhausted info (world_now w1)), (world_now w1). by rewrite lookup_insert_eq.
Qed.
End Exhausted.

(** ** Virtual interfaces *)
(** The address of an attachment is known when all its interfaces that have one
    have the same. *)
Lemma GetMACByAttachmentID_spec store id mac : GetMACByAttachmentID store id = Ok mac <->
  mac <> "" /\ (exists v, v ∈ store /\ vif_LportAttachmentId v = Some id /\ vif_MacAddress v = Some mac) /\
  forall v m, v ∈ store -> vif_LportAttachmentId v = Some id -> vif_MacAddress v = Some m -> m <> "" -> m = mac.
Proof.
  unfold GetMACByAttachmentID. set (l := filter _ store).
  assert (Hl : forall v, v ∈ l <-> v ∈ store /\ vif_LportAttachmentId v = Some id).
  { intros v. unfold l. rewrite list_elem_of_filter. unfold vifIndexByAttachmentID. destruct (vif_LportAttachmentId v); cbn; set_solver. }
  assert (Hm : forall m, m ∈ elements (macs_of l) <-> m <> "" /\ exists v, v ∈ store /\ vif_LportAttachmentId v = Some id /\ vif_MacAddress v = Some m).
  { intros m. unfold macs_of. rewrite elem_of_elements, elem_of_list_to_set, list_elem_of_filter, list_elem_of_omap. split.
    - intros (Hne & v & [Hv Hid]%Hl & Hmac). split; [done|]. by exists v.
    - intros (Hne & v & Hv & Hid & Hmac). split; [done|]. exists v. by rewrite Hl. }
  pose proof (NoDup_elements (macs_of l)) as Hnd. clearbody l. destruct l as [|v0 l].
  - split; [done|]. intros (_ & (v & Hv & Hid & _) & _). exfalso. by apply (not_elem_of_nil v), Hl.
  - destruct (elements (macs_of (v0 :: l))) as [|x [|y tl]].
    + split; [done|]. intros (Hne & Hex & _). exfalso. by apply (not_elem_of_nil mac), Hm.
    + split.
      * intros [= <-]. destruct (proj1 (Hm x) ltac:(set_solver)) as [Hne Hex]. split_and!; [done..|]. intros v m Hv Hid Hmac Hmne.
        assert (m ∈ [x]) as Hin by (apply Hm; split; [done|by exists v]). set_solver.
      * intros (Hne & Hex & _). assert (mac ∈ [x]) as Hin by by apply Hm. f_equal. set_solver.
    + split; [done|]. intros (_ & _ & Hall). exfalso. apply NoDup_cons in Hnd as [Hnin _]. apply Hnin.
      destruct (proj1 (Hm x) ltac:(set_solver)) as [Hx (v & ? & ? & ?)], (proj1 (Hm y) ltac:(set_solver)) as [Hy (v' & ? & ? & ?)].
      rewrite (Hall v x), (Hall v' y) by done. set_solver.
Qed.
(** The pages of NSX from a cursor on, and that as many steps as there are pages
    list the interfaces of all of them. *)
Inductive pages_from {W} (VifsList : string -> W -> result goerr (list VIF * option string) * W) : string -> W -> list (list VIF) -> W -> Prop :=
  | last_page c w l next w' : VifsList c w = (Ok (l, next), w') -> default "" next = "" -> pages_from VifsList c w [l] w'
  | more_pages c w l next w1 pages w' : VifsList c w = (Ok (l, Some next), w1) -> next <> "" -> pages_from VifsList next w1 pages w' -> pages_from VifsList c w (l :: pages) w'.
Lemma GetAllVIFs_pages {W} (VifsList : string -> W -> result goerr (list VIF * option string) * W) pages w w' fuel :
  pages_from VifsList "" w pages w' -> (length pages <= fuel)%nat -> GetAllVIFs VifsList fuel w = Some (Ok (mjoin pages), w').
Proof.
  unfold GetAllVIFs. assert (Hgen : forall c acc w, pages_from VifsList c w pages w' -> (length pages <= fuel)%nat ->
    list_vifs VifsList fuel c acc w = Some (Ok (acc ++ mjoin pages), w')); [|intros; by apply (Hgen _ [])].
  clear w. intros c acc w Hp. revert acc fuel. induction Hp as [c w l next w' Hl Hn|c w l next w1 pages w' Hl Hn _ IH]; intros acc [|fuel] Hf; cbn in Hf; try lia;
    cbn [list_vifs]; rewrite Hl; cbn [default from_option id].
  - rewrite bool_decide_true by done. cbn. by rewrite app_nil_r.
  - rewrite bool_decide_false by done. rewrite IH by lia. cbn. by rewrite app_assoc.
Qed.

(** ** A concrete world: NSX keeps the ports of one Subnet, and cannot give them
    addresses when it is full. *)
Module PortDemo.
#[global] Instance attachment_eq_dec : EqDecision PortAttachment.
Proof. solve_decision. Defined.
#[global] Instance port_binding_eq_dec : EqDecision PortBinding.
Proof. solve_decision. Defined.
#[global] Instance info_eq_dec : EqDecision VPCResourceInfo.
Proof. solve_decision. Defined.
#[global] Instance attachment_countable : Countable PortAttachment :=
  inj_countable' (fun a => (at_AllocateAddresses a, at_AppId a, at_ContextId a, at_Id a, at_TrafficTag a, at_Type a))
    (fun '(a, b, c, d, e, f) => mkAttachment a b c d e f) ltac:(by intros []).
#[global] Instance binding_countable : Countable PortBinding :=
  inj_countable' (fun b => (pb_IpAddress b, pb_MacAddress b)) (fun '(a, b) => mkPortBinding a b) ltac:(by intros []).
#[global] Program Instance demo_port_encoder : PortEncoder := {
  encode_port p := field_text [encode (np_Id p); encode (np_DisplayName p); encode (np_Attachment p); encode (np_Tags p); encode (np_Path p);
    encode (np_ParentPath p); encode (np_External p); encode (np_StaticIpAllocationType p); encode (np_AddressBindings p); encode (np_MarkedForDelete p)] }.
Next Obligation. intros [] [] Hv%(inj field_text). cbn in Hv. by simplify_eq. Qed.
Definition subnet_path := "/orgs/o/projects/p/vpcs/v/subnets/s".
Definition demo_info : VPCResourceInfo := mkVPCInfo "o" "p" "v" "s" "v".
Record demo_nsx := mkNsx { dn_ports : gmap string NsxPort; dn_full : bool }.
(** A port as NSX returns it. *)
Definition returned (k : string) (p : NsxPort) : NsxPort :=
  mkNsxPort k (np_DisplayName p) (np_Attachment p) (np_Tags p) (np_Path p) (Some subnet_path) (np_External p) (np_StaticIpAllocationType p) (np_AddressBindings p) None.
Definition no_address : Entity := mkEntity (Some STATE_ERROR) (Some "port") [mkAlarm None (Some (mkApiError (Some 8212) None None []))].
#[global] Instance demo_port_world : PortWorld demo_nsx := {|
  PortState := unit; world_ipv6 _ := true; world_podV2 _ := false; world_restoreVif _ := false; world_stsPorts _ := true; world_now _ := 1000;
  world_Namespace ns _ := Ok ("uid-" +:+ ns); world_Pod _ _ _ := Err (EText "not found"); world_AddressBindings _ _ := Ok [];
  world_SubnetPorts _ _ := Ok 1%nat; world_IPAddressAllocation _ _ _ := Err (EText "not found"); world_AllocationByOwner _ _ := Ok None;
  world_VPCs _ _ := []; uuid_of uid := Ok ("vif-" +:+ uid); restore_uuid uid _ := Ok ("new-" +:+ uid);
  Port_Patch i p w := if decide (i = demo_info) then (None, mkNsx (<[np_Id p := p]> (dn_ports w)) (dn_full w)) else (Some (EText "not found"), w);
  Port_Get i k w := (if decide (i = demo_info) then match dn_ports w !! k with Some p => Ok (returned k p) | None => Err (EText "not found") end
                     else Err (EText "not found"), w);
  Port_Delete _ _ _ _ k w := (None, mkNsx (delete k (dn_ports w)) (dn_full w));
  Port_State _ _ w := (Ok tt, w);
  Port_Realized _ w := (Ok [if dn_full w then no_address else mkEntity (Some STATE_REALIZED) (Some "port") []], w) |}.
#[global] Program Instance demo_view : AttachmentView demo_nsx := {
  att i k w := if decide (i = demo_info) then (fun p => np_Attachment p ≫= at_Id) <$> dn_ports w !! k else None }.
Next Obligation.
  intros i p w e w' j k. cbn. case_decide; intros [= <- <-]; cbn; [|by left]. case_decide; [|by left]. subst.
  destruct (decide (k = np_Id p)) as [->|]; [right|left; by rewrite lookup_insert_ne]. by rewrite lookup_insert_eq.
Qed.
Next Obligation. intros i p w w'. cbn. case_decide; [|discriminate]. intros [= <-]. cbn. by rewrite lookup_insert_eq. Qed.
Next Obligation. intros i k w r w' j k'. cbn. by intros [= _ <-]. Qed.
Next Obligation.
  intros i k w got w'. cbn. case_decide; [|discriminate]. destruct (dn_ports w !! k) as [p|]; [|discriminate]. intros [= <- <-]. cbn. subst.
  split_and!; [done|done| |done]. by intros path [= <-].
Qed.
Next Obligation.
  intros a b c d k w e w' j k'. cbn. intros [= _ <-]. cbn. case_decide; [|by left].
  destruct (decide (k' = k)) as [->|]; [right; by rewrite lookup_delete_eq|left; by rewrite lookup_delete_ne].
Qed.
Next Obligation. intros path w r w' j k. cbn. by intros [= _ <-]. Qed.
Next Obligation. intros i k w r w' j k'. cbn. by intros [= _ <-]. Qed.
Definition PS : Type := map_store NsxPort np_Id.
Definition static_subnet : NsxSubnet :=
  mkNsxSubnet "s" None None [] (Some (mkAdvanced [] [] None (Some (mkStaticIp (Some true) [])))) None None None None [] None [] None None (Some subnet_path) None None.
(** The port of somebody else, and the objects of the calls. *)
Definition other_port : NsxPort :=
  mkNsxPort "other" (Some "other") (Some (mkAttachment (Some "BOTH") None None (Some "vif-other") None None)) [newTag TagScopeSubnetPortCRUID "uid-other"]
    (Some "/orgs/o/projects/p/vpcs/v/subnets/s/ports/other") (Some subnet_path) None None [] None.
Definition cr (mac : string) : SubnetPortCR := mkSubnetPortCR (mkMeta "web" "ns" "uid-web" ∅ ∅) [] "IPv4" "IPv4" [("", mac)] (mkPortStatus "" [] "" []).
Definition counted_once : gmap string CountInfo := {[subnet_path := newCountInfo]}.
Definition start : service_state (port_store PS) demo_nsx :=
  mkService (mkPortStore (ix_Add other_port ix_empty) counted_once) (mkNsx {["other" := other_port]} false).
Definition reconcile (mac : string) := CreateOrUpdateSubnetPort (I := PS) (W := demo_nsx) "c" (fun _ => "u") 5 (OSubnetPort (cr mac)) static_subnet "" None true false "IPv4".
Definition after {A} (r : option (A * service_state (port_store PS) demo_nsx)) := from_option snd start r.
Definition created := after (reconcile "" start).
(** The port of the CR. *)
Definition web_port : option NsxPort := GetVpcSubnetPortByUID "uid-web" (st_ports (svc_store created)).
Definition created_full := mkService (svc_store created) (mkNsx (dn_ports (svc_world created)) true).
Lemma port_demo_ran : reconcile "" start = Some (Ok (Some tt), created).
Proof.
  assert (match reconcile "" start with Some (Ok (Some _), _) => True | _ => False end) by (vm_compute; exact I).
  unfold created, after. destruct (reconcile "" start) as [[[[[]|]|e] s]|]; [reflexivity|contradiction..].
Qed.
End PortDemo.
Import PortDemo.
Definition obj : port_object := OSubnetPort (cr "").
Lemma demo_asked : returns_asked (W := demo_nsx).
Proof. intros i k w got w'. apply att_got. Qed.
Lemma demo_sync : in_sync (st_ports (svc_store start)) (svc_world start).
Proof.
  intros p a path i a'. unfold start. cbn [svc_store svc_world st_ports]. rewrite ix_get_add. case_decide as Hk; [|by rewrite ix_get_empty].
  intros [= <-]. cbn. intros [= <-] _ _. case_decide; [|discriminate]. vm_compute. by intros [= <-].
Qed.
Lemma foreign_ports_untouched_witness :
  ix_GetByKey "other" (st_ports (svc_store created)) = Some other_port /\ is_Some web_port.
Proof.
  split; [|vm_compute; by eexists].
  refine (foreign_ports_untouched "c" (fun _ => "u") 5 obj static_subnet "" None true false "IPv4" start created _ demo_asked port_demo_ran other_port _ _).
  - vm_compute. reflexivity.
  - intros [m Hm Hu|i Hi Hne Hu|i m Hi Hm _ Hne Hu _].
    + injection Hm as <-. vm_compute in Hu. by apply list_elem_of_singleton in Hu.
    + inversion Hi; subst; [done|discriminate].
    + inversion Hi; subst; [done|discriminate].
Defined.
Lemma attachments_in_sync_witness :
  in_sync (st_ports (svc_store created)) (svc_world created) /\
  forall p a, ix_GetByKey (np_Id p) (st_ports (svc_store start)) = Some p -> np_Attachment p = Some a -> np_ParentPath p = Some subnet_path ->
    match ix_GetByKey (np_Id p) (st_ports (svc_store created)) with
    | Some p' => np_Attachment p' ≫= at_Id = at_Id a
    | None => exists e, Ok (Some tt) = Err e /\ IsRealizeStateError (Some e) = true
    end.
Proof.
  refine (attachments_in_sync "c" (fun _ => "u") 5 obj static_subnet "" None true false "IPv4" start created (Ok (Some tt)) _ demo_sync port_demo_ran). reflexivity.
Defined.
(** The check of the port once the Subnet is full. *)
Definition checked := CheckSubnetPortState (I := PS) (W := demo_nsx) "uid-web" subnet_path created_full.
Definition exhausted_error : goerr := ERealizeState "/orgs/o/projects/p/vpcs/v/subnets/s/ports/web_6hiro realized with errors: []" 8212 [].
(** With counters of the Subnet: attempts fail although the counters are reset in
    between and another port was refused. *)
Lemma exhausted_subnet_backs_off_witness :
  let ops := [OpAllocate (mkStats (fun _ => Ok (Some 8, None)) (Ok (None, None, None)) true) [] 1010
                (PortAlloc.mkSubnet subnet_path None None (Some true) None []) false "IPv4" "IPv4" []; OpReset subnet_path; OpDelete "other"] in
  (exists d, Err (E := goerr) (A := unit) exhausted_error = Err d) /\
  (AllocatePortFromSubnet (fun _ => 0) (foldl (count_apply (fun _ => 0)) (st_counts (svc_store (after checked))) ops)
     (mkStats (fun _ => Ok (Some 8, None)) (Ok (None, None, None)) true) [] 1100
     (PortAlloc.mkSubnet subnet_path None None (Some true) None []) false "IPv4" "IPv4" []).1 <> Ok true.
Proof.
  intros ops. set (final := after checked).
  assert (Hrun : CheckSubnetPortState (I := PS) (W := demo_nsx) "uid-web" subnet_path created_full = Some (Err exhausted_error, final)).
  { assert (match checked with Some (Err e, _) => e = exhausted_error | _ => False end) as He by (vm_compute; reflexivity).
    subst final. fold checked. unfold after. destruct checked as [[[x|e] s]|]; [contradiction| |contradiction]. cbn. by rewrite He. }
  destruct web_port as [q|] eqn:Eq; [|exfalso; revert Eq; vm_compute; discriminate].
  assert (Hpath : np_Path q = Some "/orgs/o/projects/p/vpcs/v/subnets/s/ports/web_6hiro").
  { assert (web_port ≫= np_Path = Some "/orgs/o/projects/p/vpcs/v/subnets/s/ports/web_6hiro") as Hp by (vm_compute; reflexivity). by rewrite Eq in Hp. }
  assert (Hreal : CheckRealizeState Port_Realized "/orgs/o/projects/p/vpcs/v/subnets/s/ports/web_6hiro" [] (svc_world created_full)
    = Some (Some exhausted_error, svc_world created_full)) by (unfold CheckRealizeState; vm_compute; reflexivity).
  destruct (exhausted_subnet_backs_off "uid-web" subnet_path created_full final (Err exhausted_error) q _ exhausted_error (svc_world created_full)
    Eq Hpath Hreal eq_refl ltac:(vm_compute; reflexivity) Hrun) as [Hd Hb]. split; [exact Hd|].
  assert (Hinfo : st_counts (svc_store created_full) !! subnet_path = Some newCountInfo) by (vm_compute; reflexivity).
  rewrite Hinfo in Hb. apply Hb.
  - repeat constructor; cbn; discriminate.
  - reflexivity.
  - vm_compute. reflexivity.
  - left. split; [reflexivity|]. unfold unchecked4. cbn. by intros [_ ?].
Defined.
(** Without counters, which the operator does not have after a restart, a Subnet
    that just ran out of addresses is tried again at once. *)
Lemma uncounted_subnet_tried :
  (AllocatePortFromSubnet (fun _ => 0) (updateExhaustedSubnet ∅ subnet_path 1000)
     (mkStats (fun _ => Ok (Some 8, None)) (Ok (None, None, None)) true) [] 1001
     (PortAlloc.mkSubnet subnet_path None None (Some true) None []) false "IPv4" "IPv4" []).1 = Ok true.
Proof. vm_compute. reflexivity. Qed.

(** ** Exceptions *)
(** A port whose AddressBinding names an allocation that NSX does not have yet
    cannot be built: the missing allocation is used. *)
Lemma unallocated_binding_panics {I W} `{!PortWorld W} p sn restoreMode ab uid (s : service_state (port_store I) W) :
  pc_InterfaceIPType p <> "IPv6" -> is_public sn = false -> GetAddressBindingBySubnetPort p (svc_world s) = Some ab ->
  abc_IPAddressAllocationName ab <> "" -> world_IPAddressAllocation (m_Namespace (abc_meta ab)) (abc_IPAddressAllocationName ab) (svc_world s) = Ok uid ->
  world_AllocationByOwner uid (svc_world s) = Ok None -> buildExternalAddressBinding p sn restoreMode s = None.
Proof.
  intros H6 Hp Hab Hn Hcr Hown. unfold buildExternalAddressBinding. rewrite bool_decide_false, Hp by done. cbn [orb].
  unfold bindM, asks, on_world. cbn [svc_world svc_store]. rewrite Hab. unfold external_of_binding. rewrite bool_decide_false by done. cbn [negb].
  unfold bindM, asks_result, world_result, mtotal. cbn [svc_world svc_store]. by rewrite Hcr, Hown.
Qed.
(** The type of the attachment is not compared. *)
Definition with_type (type : option string) (p : NsxPort) : NsxPort :=
  with_attachment (fun a => mkAttachment (at_AllocateAddresses a) (at_AppId a) (at_ContextId a) (at_Id a) (at_TrafficTag a) type) p.
Lemma attachment_type_ignored `{!PortEncoder} p type : CompareResource p (with_type type p) = false.
Proof.
  unfold CompareResource. cbn. assert (compared_port (with_type type p) = compared_port p) as ->; [|by rewrite bool_decide_true].
  unfold compared_port. cbn. by destruct (np_Attachment p).
Qed.
