(* ===== verification/IPBlocksInfo.v ===== *)
(** * pkg/nsx/services/ipblocksinfo: the address blocks of the VPCs

    ipblocksinfo.go and store.go: merging CIDR blocks, collecting the blocks of
    the VPCNetworkConfigurations from NSX, and the IPBlocksInfo object that shows
    them. *)
From S2P Require Import Prelude GoStrings GoNet Errors NsxUtil IPUtil Names GoMonad Service Subnet Vpc CtlCommon.

(** ** Masks of the standard library: [IPMask.Size] *)
Fixpoint lead_ones (fuel : nat) (v : Z) : Z * Z :=
  match fuel with
  | O => (0, v)
  | S fuel' => if Z.testbit v 7 then let '(n, r) := lead_ones fuel' (Z.land (2 * v) 255) in (n + 1, r) else (0, v)
  end.
Fixpoint simpleMaskLength (mask : list Z) : option Z :=
  match mask with
  | [] => Some 0
  | v :: mask' =>
      if bool_decide (v = 255) then Z.add 8 <$> simpleMaskLength mask'
      else let '(n, r) := lead_ones 8 v in
           if bool_decide (r = 0) && forallb (Z.eqb 0) mask' then Some n else None
  end.
Definition IPMask_Size (mask : list Z) : Z * Z :=
  match simpleMaskLength mask with Some n => (n, 8 * Z.of_nat (length mask)) | None => (0, 0) end.

(** ** Merging CIDR blocks *)
Definition maskContains (sMask tMask : list Z) : bool :=
  let '(onesS, bitsS) := IPMask_Size sMask in
  let '(onesT, bitsT) := IPMask_Size tMask in
  bool_decide (bitsS = bitsT) && bool_decide (onesS <= onesT).
Definition cidrSubset (ip : IP) (tNet sNet : IPNet) : bool := IPNet_Contains sNet ip && maskContains (net_Mask sNet) (net_Mask tNet).
Definition merge_source (source : list string) : list (string * IPNet) := omap (fun c => match ParseCIDR c with Some (_, n) => Some (c, n) | None => None end) source.
Definition merge_target (acc : list (string * IPNet)) (t : string) : list (string * IPNet) :=
  match ParseCIDR t with
  | None => acc
  | Some (ip, tNet) => if existsb (fun s => cidrSubset ip tNet s.2) acc then acc else acc ++ [(t, tNet)]
  end.
Definition mergeIPCidrs (source target : list string) : list string :=
  match source with [] => target | _ => map fst (foldl merge_target (merge_source source) target) end.

(** ** What NSX and Kubernetes have *)
Abbreviation ip_pool_range := (string * string)%type.
Record IPBlocksInfo := mkBlocksInfo {
  ExternalIPCIDRs : list string; PrivateTGWIPCIDRs : list string; ExternalIPRanges : list ip_pool_range; PrivateTGWIPRanges : list ip_pool_range }.
(** A VPCNetworkConfiguration with the Subnets it shares. *)
Record VPCConfig := mkVPCConfig { vc_Config :> VPCNetworkConfiguration; vc_Subnets : list string }.
Record VpcAttachment := mkVpcAttachment { va_Path : string; va_ParentPath : string; va_Profile : option string; va_Marked : option bool }.
Record ConnectivityProfile := mkProfile {
  cp_Path : string; cp_ExternalIpBlocks : list string; cp_Ipv6Blocks : list string; cp_PrivateTgwIpBlocks : list string; cp_Marked : option bool }.
Record IpAddressBlock := mkIpBlock {
  ib_Path : string; ib_Cidrs : option (list string); ib_Cidr : option string; ib_Ranges : list (option string * option string); ib_Marked : option bool }.
Class BlocksWorld (W : Type) := {
  world_configs : W -> result goerr (list VPCConfig);
  search_attachments : W -> result goerr (list VpcAttachment);
  search_profiles : W -> result goerr (list ConnectivityProfile);
  search_ipblocks : W -> result goerr (list IpAddressBlock);
  shared_subnet : string -> W -> result goerr NsxSubnet * W;      (* GetNSXSubnetFromCacheOrAPI *)
  get_info : W -> result goerr (option IPBlocksInfo);             (* None: not found *)
  create_info : IPBlocksInfo -> W -> option goerr * W;
  update_info : IPBlocksInfo -> W -> option goerr * W }.

(** ** Collecting the blocks *)
(** A store filled by a search: the objects by their paths. *)
Definition by_path {A} (path : A -> string) (marked : A -> option bool) (l : list A) : gmap string A :=
  foldl (fun m a => if default false (marked a) then delete (path a) m else <[path a := a]> m) ∅ l.
(** A path of its own, or the identifier under the project of the configuration. *)
Definition full_path (project segment path : string) : string :=
  if contains_byte "/" path then path else project +:+ segment +:+ path.
Section Collect.
Context {W : Type} `{!BlocksWorld W}.
(** The state: the path of the default project, once it is known. *)
Local Abbreviation BlocksM := (Svc (I := string) (W := W)).
Definition queries {A} (f : W -> result goerr A) : BlocksM A := world_result (fun w => (f w, w)).
(** The profiles of the configurations, whether they are of the default project,
    and the VPCs that are named; the default project is remembered. *)
Definition read_config (acc : gmap string bool * gset string * string) (c : VPCConfig) : gmap string bool * gset string * string :=
  let '(profiles, vpcs, project) := acc in
  if negb (bool_decide (nc_VPCConnectivityProfile c = "")) then
    if IsDefaultNetworkConfigCR c
    then (<[full_path (nc_NSXProject c) "/vpc-connectivity-profiles/" (nc_VPCConnectivityProfile c) := true]> profiles, vpcs, nc_NSXProject c)
    else acc
  else (profiles, {[full_path (nc_NSXProject c) "/vpcs/" (nc_VPC c)]} ∪ vpcs, project).
Definition GetByVpcPath (vpcPath : string) (attachments : gmap string VpcAttachment) : list VpcAttachment :=
  filter (fun a => va_ParentPath a = vpcPath) (map_to_list attachments).*2.
Definition project_path (i : VPCResourceInfo) : string := "/orgs/" +:+ OrgID i +:+ "/projects/" +:+ ProjectID i.
Definition profile_of_vpc (attachments : gmap string VpcAttachment) (project : string) (profiles : gmap string bool) (vpcPath : string) : BlocksM (gmap string bool) :=
  match ParseVPCResourcePath vpcPath with
  | None => mfail (EText ("invalid path '" +:+ vpcPath +:+ "'"))
  | Some i =>
      match GetByVpcPath vpcPath attachments with
      | [] => mret profiles
      | a :: _ => let! profile := mtotal (va_Profile a) in mret (<[profile := bool_decide (project_path i = project)]> profiles)
      end
  end.
Definition blocks_of_profile (found : gmap string ConnectivityProfile) (acc : gset string * gset string) (p : string * bool) : BlocksM (gset string * gset string) :=
  match found !! p.1 with
  | None => mfail (EText ("failed to get VPCConnectivityProfile " +:+ p.1 +:+ " from NSX"))
  | Some cp => mret (list_to_set (cp_ExternalIpBlocks cp ++ cp_Ipv6Blocks cp) ∪ acc.1, if p.2 then list_to_set (cp_PrivateTgwIpBlocks cp) ∪ acc.2 else acc.2)
  end.
Definition range_of (r : option string * option string) : option ip_pool_range := s ← r.1; e ← r.2; Some (s, e).
Definition block_step (found : gmap string IpAddressBlock) (acc : list string * list ip_pool_range) (path : string) : BlocksM (list string * list ip_pool_range) :=
  match found !! path with
  | None => mfail (EText ("failed to get IPBlock " +:+ path +:+ " from NSX"))
  | Some b =>
      let! ranges := mtotal (mapM range_of (ib_Ranges b)) in
      mret (acc.1 ++ match ib_Cidrs b with Some l => l | None => option_list (ib_Cidr b) end, acc.2 ++ ranges)
  end.
Definition getIPBlockCIDRsAndRangesFromStore (paths : gset string) (found : gmap string IpAddressBlock) : BlocksM (list string * list ip_pool_range) :=
  mloop (block_step found) ([], []) (elements paths).
Definition getCIDRsRangesFromStore (external private : gset string) (found : gmap string IpAddressBlock) : BlocksM IPBlocksInfo :=
  let! e := getIPBlockCIDRsAndRangesFromStore external found in
  let! p := getIPBlockCIDRsAndRangesFromStore private found in
  mret (mkBlocksInfo e.1 p.1 e.2 p.2).
Definition getIPBlockCIDRsByVPCConfig (configs : list VPCConfig) : BlocksM IPBlocksInfo :=
  let! s := mget in
  let '(profiles, vpcs, project) := foldl read_config (∅, ∅, svc_store s) configs in
  let! _ := on_store (fun _ => project) in
  if bool_decide (project = "") then mfail (EText "default project not found, try later")
  else
    let! attachments := queries search_attachments in
    let! profiles := mloop (profile_of_vpc (by_path va_Path va_Marked attachments) project) profiles (elements vpcs) in
    let! found := queries search_profiles in
    let! paths := mloop (blocks_of_profile (by_path cp_Path cp_Marked found)) (∅, ∅) (map_to_list profiles) in
    let! ipblocks := queries search_ipblocks in
    getCIDRsRangesFromStore paths.1 paths.2 (by_path ib_Path ib_Marked ipblocks).
(** The blocks of a shared Subnet: those of a public Subnet and of IPv6 are
    external, those of the transit gateway count for the default project. *)
Definition subnet_cidr (project : string) (i : VPCResourceInfo) (sn : NsxSubnet) (acc : list string * list string) (cidr : string) : list string * list string :=
  match ParseCIDR cidr with
  | None => acc
  | Some (ip, _) =>
      if bool_decide (To4 ip = None) then (acc.1 ++ [cidr], acc.2)
      else let mode := default "Public" (s_AccessMode sn) in
           if bool_decide (mode = "Public") then (acc.1 ++ [cidr], acc.2)
           else if bool_decide (mode = "Private_TGW") && bool_decide (project_path i = project) then (acc.1, acc.2 ++ [cidr]) else acc
  end.
Definition shared_step (acc : list string * list string) (path : string) : BlocksM (list string * list string) :=
  match ParseVPCResourcePath path with
  | None => mret acc
  | Some i =>
      let! got := mcatch (world_result (shared_subnet (ProjectID i +:+ ":" +:+ VPCID i +:+ ":" +:+ info_ID i))) in
      match got with
      | Err _ => mret acc
      | Ok sn => let! s := mget in mret (foldl (subnet_cidr (svc_store s) i sn) acc (s_IpAddresses sn))
      end
  end.
Definition getSharedSubnetsCIDRs (configs : list VPCConfig) : BlocksM (list string * list string) :=
  mloop shared_step ([], []) (elements (list_to_set (configs ≫= vc_Subnets) : gset string)).

(** ** The object *)
Definition same_blocks (a b : IPBlocksInfo) : bool :=
  CompareArraysWithoutOrder (ExternalIPCIDRs a) (ExternalIPCIDRs b) && CompareArraysWithoutOrder (PrivateTGWIPCIDRs a) (PrivateTGWIPCIDRs b) &&
  CompareArraysWithoutOrder (ExternalIPRanges a) (ExternalIPRanges b) && CompareArraysWithoutOrder (PrivateTGWIPRanges a) (PrivateTGWIPRanges b).
Definition merge_blocks (old new : IPBlocksInfo) : IPBlocksInfo :=
  mkBlocksInfo (mergeIPCidrs (ExternalIPCIDRs old) (ExternalIPCIDRs new)) (mergeIPCidrs (PrivateTGWIPCIDRs old) (PrivateTGWIPCIDRs new))
    (MergeArraysWithoutDuplicate (ExternalIPRanges old) (ExternalIPRanges new)) (MergeArraysWithoutDuplicate (PrivateTGWIPRanges old) (PrivateTGWIPRanges new)).
(** A call of Kubernetes: its error is returned as it is. *)
Definition k8s_call (f : W -> option goerr * W) : BlocksM unit := world_result (fun w => let '(e, w') := f w in (error_result e, w')).
Definition createOrUpdateIPBlocksInfo (info : IPBlocksInfo) (incremental : bool) : BlocksM unit :=
  let! old := queries get_info in
  match old with
  | None => k8s_call (create_info info)
  | Some old =>
      let info := if incremental then merge_blocks old info else info in
      if same_blocks old info then mret tt else k8s_call (update_info info)
  end.
(** The blocks of the configurations: those of their profiles and VPCs, and of
    the Subnets they share. *)
Definition collect_blocks (configs : list VPCConfig) : BlocksM IPBlocksInfo :=
  let! info := getIPBlockCIDRsByVPCConfig configs in
  let! shared := getSharedSubnetsCIDRs configs in
  mret (mkBlocksInfo (mergeIPCidrs (ExternalIPCIDRs info) shared.1) (mergeIPCidrs (PrivateTGWIPCIDRs info) shared.2) (ExternalIPRanges info) (PrivateTGWIPRanges info)).
Definition updateIPBlocksInfo (configs : list VPCConfig) (incremental : bool) : BlocksM unit :=
  let! info := collect_blocks configs in createOrUpdateIPBlocksInfo info incremental.
Definition UpdateIPBlocksInfo (c : VPCConfig) : BlocksM unit := updateIPBlocksInfo [c] true.
Definition SyncIPBlocksInfo : BlocksM unit :=
  let! configs := queries world_configs in updateIPBlocksInfo configs false.
End Collect.
(** ** The periodic task: when it runs next *)
Record sync_task := mkSyncTask { syncInterval : Z; retryInterval : Z; nextRun : Z }.
Definition NewIPBlocksInfoSyncTask (sync retry now : Z) : sync_task := mkSyncTask sync retry (now + retry).
(** The task wakes up at its time, and the synchronization succeeds or not; or it
    is told to wait for another interval. *)
Inductive sync_event := Synced (ok : bool) | Reset.
Definition after_event (t : sync_task) (e : sync_event) (now : Z) : sync_task :=
  mkSyncTask (syncInterval t) (retryInterval t) (now + match e with Synced false => retryInterval t | _ => syncInterval t end).

(** ** Facts on masks *)
(** Every one of the second mask is one of the first. *)
Definition mask_within (ms mt : list Z) : Prop := Forall2 (fun s t => Z.land s t = s) ms mt.
Definition mask_byte (n : Z) : Z := 255 - 255 / 2 ^ n.
Definition byte_cases (p q : Z) : bool :=
  bool_decide (lead_ones 8 (mask_byte p) = (p, 0)) && negb (bool_decide (mask_byte p = 255)) &&
  (bool_decide (q < p) || bool_decide (Z.land (mask_byte p) (mask_byte q) = mask_byte p)) && bool_decide (Z.land (mask_byte p) 255 = mask_byte p).
Lemma mask_bytes p q : 0 <= p < 8 -> 0 <= q < 8 -> byte_cases p q = true.
Proof.
  intros Hp Hq. assert (Hall : forallb (fun p => forallb (byte_cases p) (seqZ 0 8)) (seqZ 0 8) = true) by (vm_compute; reflexivity).
  rewrite forallb_forall in Hall. specialize (Hall p). rewrite <- list_elem_of_In in Hall. specialize (Hall ltac:(apply elem_of_seqZ; lia)).
  rewrite forallb_forall in Hall. specialize (Hall q). rewrite <- list_elem_of_In in Hall. by specialize (Hall ltac:(apply elem_of_seqZ; lia)).
Qed.
Lemma mask_byte_facts p : 0 <= p < 8 -> lead_ones 8 (mask_byte p) = (p, 0) /\ mask_byte p <> 255 /\ Z.land (mask_byte p) 255 = mask_byte p /\
  forall q, p <= q < 8 -> Z.land (mask_byte p) (mask_byte q) = mask_byte p.
Proof.
  intros Hp. pose proof (mask_bytes p p Hp Hp) as H. unfold byte_cases in H. go_bool. destruct H as [[[H1 H2] _] H4]. go_bool.
  split_and!; [done..|]. intros q Hq. pose proof (mask_bytes p q Hp ltac:(lia)) as H. unfold byte_cases in H.
  go_bool. destruct H as [[_ [H|H]] _]; go_bool; [lia|done].
Qed.
Lemma cidr_mask_nil p len : p <= 0 -> 0 <= p -> cidr_mask p len = repeat 0 len.
Proof.
  intros Hp Hp'. assert (p = 0) as -> by lia. clear. induction len as [|len IH]; [done|]. cbn [cidr_mask repeat]. rewrite bool_decide_false by lia. by rewrite IH.
Qed.
Lemma Size_mask len : forall p, 0 <= p <= 8 * Z.of_nat len -> IPMask_Size (cidr_mask p len) = (p, 8 * Z.of_nat len).
Proof.
  intros p Hp. unfold IPMask_Size. rewrite length_cidr_mask. assert (simpleMaskLength (cidr_mask p len) = Some p) as ->; [|done].
  revert p Hp. induction len as [|len IH]; intros p Hp; [cbn; f_equal; lia|]. cbn [cidr_mask]. case_bool_decide as H8; cbn [simpleMaskLength].
  - rewrite bool_decide_true by done. rewrite IH by lia. cbn. f_equal. lia.
  - destruct (mask_byte_facts p) as (Hl & Hne & _); [lia|]. fold (mask_byte p). rewrite bool_decide_false by done. rewrite Hl, bool_decide_true by done. cbn [andb].
    rewrite cidr_mask_nil by lia. assert (forallb (Z.eqb 0) (repeat 0 len) = true) as ->; [|done]. apply forallb_forall. intros x Hx%repeat_spec. subst x. done.
Qed.
Lemma mask_order len : forall p q, 0 <= p -> p <= q -> mask_within (cidr_mask p len) (cidr_mask q len).
Proof.
  unfold mask_within. induction len as [|len IH]; intros p q Hp Hq; [constructor|]. cbn [cidr_mask]. case_bool_decide as Hp8; case_bool_decide as Hq8; try lia; constructor; try (apply IH; lia).
  - done.
  - destruct (mask_byte_facts p) as (_ & _ & H & _); [lia|]. done.
  - destruct (mask_byte_facts p) as (_ & _ & _ & H); [lia|]. apply H. lia.
Qed.
(** Addresses that agree under a mask agree under one within it. *)
Lemma agree_within ms mt : mask_within ms mt -> forall a b, length a = length ms -> length b = length ms ->
  zip_with Z.land a mt = zip_with Z.land b mt -> zip_with Z.land a ms = zip_with Z.land b ms.
Proof.
  induction 1 as [|s t ms mt Hst _ IH]; intros [|x a] [|y b] Ha Hb; try done. cbn. intros [= Hxy Hab]. f_equal; [|apply IH; auto with lia].
  rewrite <- Hst, (Z.land_comm s t), !Z.land_assoc. by rewrite Hxy.
Qed.
Lemma land_idem l m : zip_with Z.land (zip_with Z.land l m) m = zip_with Z.land l m.
Proof. revert m. induction l as [|x l IH]; intros [|y m]; [done..|]. cbn. by rewrite <- Z.land_assoc, Z.land_diag, IH. Qed.

(** ** Facts on blocks *)
Lemma mask_lookup len : forall p i, 0 <= p -> p < 8 * (Z.of_nat i + 1) -> (i < len)%nat -> exists b, cidr_mask p len !! i = Some b /\ is_byte b /\ b <> 255.
Proof.
  induction len as [|len IH]; intros p i Hp Hi Hl; [lia|]. cbn [cidr_mask]. case_bool_decide as H8.
  - destruct i as [|i]; [lia|]. cbn. apply IH; lia.
  - destruct i as [|i]; cbn; [|apply IH; lia]. exists (mask_byte p). split; [done|]. split; [|by apply mask_byte_facts; lia].
    unfold is_byte, mask_byte. assert (0 < 2 ^ p) by (apply Z.pow_pos_nonneg; lia).
    assert (0 <= 255 / 2 ^ p) by (apply Z.div_pos; lia). assert (255 / 2 ^ p <= 255) by (apply Z.div_le_upper_bound; lia). lia.
Qed.
Lemma land_full x b : is_byte b -> Z.land x b = 255 -> b = 255.
Proof.
  unfold is_byte. intros Hb Hx. assert (Z.land 255 b = 255) as H by (rewrite <- Hx at 1; by rewrite <- Z.land_assoc, Z.land_diag).
  rewrite Z.land_comm in H. change 255 with (Z.ones 8) in H at 1. rewrite Z.land_ones, Z.mod_small in H by lia. done.
Qed.
Lemma mask_split k n p : 8 * Z.of_nat k <= p -> cidr_mask p (k + n) = repeat 255 k ++ cidr_mask (p - 8 * Z.of_nat k) n.
Proof.
  revert p. induction k as [|k IH]; intros p Hp; [cbn; f_equal; lia|]. cbn [Nat.add cidr_mask repeat app]. rewrite bool_decide_true by lia.
  rewrite IH by lia. do 3 f_equal. lia.
Qed.
Lemma land_bytes l : wf_ip l -> zip_with Z.land l (repeat 255 (length l)) = l.
Proof.
  induction 1 as [|b l Hb _ IH]; [done|]. cbn. rewrite IH. f_equal. unfold is_byte in Hb. change 255 with (Z.ones 8). rewrite Z.land_ones by lia. by apply Z.mod_small.
Qed.
(** A block of addresses as its bytes and the length of its prefix, with IPv4
    addresses in four bytes. *)
Definition mapped (b : IP * Z) : bool := bool_decide (length b.1 = 16%nat) && bool_decide (take 12 b.1 = v4InV6Prefix).
Definition norm_block (b : IP * Z) : IP * Z := if mapped b && bool_decide (96 <= b.2) then (drop 12 b.1, b.2 - 96) else b.
Definition norm_ip (x : IP) : IP := default x (To4 x).
Definition in_norm (b : IP * Z) (x : IP) : Prop :=
  length x = length b.1 /\ zip_with Z.land b.1 (cidr_mask b.2 (length b.1)) = zip_with Z.land x (cidr_mask b.2 (length b.1)).
Lemma To4_mapped l : length l = 16%nat -> take 12 l = v4InV6Prefix -> To4 l = Some (drop 12 l).
Proof. intros Hl Ht. unfold To4. rewrite Hl, bool_decide_false, bool_decide_true by done. cbn [andb]. by rewrite bool_decide_true. Qed.
Lemma To4_unmapped l : length l = 16%nat -> take 12 l <> v4InV6Prefix -> To4 l = None.
Proof. intros Hl Ht. unfold To4. rewrite Hl, bool_decide_false, bool_decide_true by done. cbn [andb]. by rewrite bool_decide_false. Qed.
Lemma masked_prefix ip p : wf_ip ip -> length ip = 16%nat -> 0 <= p ->
  (take 12 (zip_with Z.land ip (cidr_mask p 16)) = v4InV6Prefix <-> take 12 ip = v4InV6Prefix /\ 96 <= p).
Proof.
  intros Hwf Hl Hp. destruct (decide (96 <= p)) as [Hge|Hlt].
  - change 16%nat with (12 + 4)%nat. rewrite mask_split by lia. rewrite <- (take_drop 12 ip) at 1.
    assert (Ht : length (take 12 ip) = 12%nat) by (rewrite length_take; lia).
    rewrite zip_with_app by (by rewrite repeat_length). rewrite take_app_length' by (by rewrite length_zip_with, repeat_length, Ht).
    pose proof (land_bytes (take 12 ip) (Forall_take _ _ _ Hwf)) as Hid. rewrite Ht in Hid. rewrite Hid. tauto.
  - split; [|lia]. intros Heq. exfalso. destruct (mask_lookup 16 p 11) as (b & Hb & Hbyte & Hne); [lia..|].
    destruct (lookup_lt_is_Some_2 ip 11) as [x Hx]; [lia|].
    assert (Hz : zip_with Z.land ip (cidr_mask p 16) !! 11%nat = Some (Z.land x b)) by (by rewrite lookup_zip_with, Hx, Hb).
    rewrite <- (lookup_take_lt _ 12 11), Heq in Hz by lia. cbn in Hz. injection Hz as Hz. by apply Hne, (land_full x).
Qed.
Lemma contains_norm ip p x : wf_ip ip -> length ip = 4%nat \/ length ip = 16%nat -> 0 <= p <= 8 * Z.of_nat (length ip) ->
  IPNet_Contains (mkIPNet (zip_with Z.land ip (cidr_mask p (length ip))) (cidr_mask p (length ip))) x = true <-> in_norm (norm_block (ip, p)) (norm_ip x).
Proof.
  intros Hwf Hl Hp. unfold IPNet_Contains, networkNumberAndMask. cbn [net_IP net_Mask]. rewrite !length_cidr_mask. fold (norm_ip x).
  assert (Hlen : length (zip_with Z.land ip (cidr_mask p (length ip))) = length ip) by (by rewrite length_zip_with, length_cidr_mask, Nat.min_id).
  unfold norm_block, mapped, in_norm. cbn [fst snd]. destruct Hl as [Hl|Hl].
  - rewrite Hl in *. rewrite (bool_decide_false (4%nat = 16%nat)) by done. cbn [andb].
    unfold To4. rewrite Hlen, bool_decide_true by done. cbn [fst snd]. rewrite land_idem, Hlen, Hl. rewrite andb_true_iff, !bool_decide_eq_true. tauto.
  - rewrite Hl in *. rewrite (bool_decide_true (16%nat = 16%nat)) by done. cbn [andb].
    pose proof (masked_prefix ip p Hwf Hl ltac:(lia)) as Hpre.
    destruct (decide (take 12 ip = v4InV6Prefix /\ 96 <= p)) as [[Ht H96]|Hno].
    + rewrite (bool_decide_true (take 12 ip = v4InV6Prefix)), (bool_decide_true (96 <= p)) by done. cbn [andb fst snd].
      rewrite (To4_mapped _ Hlen) by tauto. rewrite (bool_decide_false (16%nat = 4%nat)) by done.
      assert (Hdrop : forall l, length l = 16%nat -> drop 12 (zip_with Z.land l (cidr_mask p 16)) = zip_with Z.land (drop 12 l) (cidr_mask (p - 96) 4)).
      { intros l Hll. change 16%nat with (12 + 4)%nat. rewrite mask_split by lia. rewrite <- (take_drop 12 l) at 1.
        assert (length (take 12 l) = 12%nat) by (rewrite length_take; lia). rewrite zip_with_app by (by rewrite repeat_length).
        by rewrite drop_app_length' by (by rewrite length_zip_with, repeat_length, H). }
      assert (Hm : drop 12 (cidr_mask p 16) = cidr_mask (p - 96) 4) by (change 16%nat with (12 + 4)%nat; rewrite mask_split by lia; by rewrite drop_app_length').
      rewrite Hdrop, Hm by done. assert (Hd : length (drop 12 ip) = 4%nat) by (rewrite length_drop; lia). rewrite Hd, land_idem, length_zip_with, length_cidr_mask, Hd.
      rewrite andb_true_iff, !bool_decide_eq_true. tauto.
    + assert (bool_decide (take 12 ip = v4InV6Prefix) && bool_decide (96 <= p) = false) as ->.
      { repeat case_bool_decide; try done. tauto. }
      cbn [fst snd]. rewrite (To4_unmapped _ Hlen) by tauto. rewrite Hlen, Hl, (bool_decide_true (16%nat = 16%nat)) by done. cbn [andb].
      rewrite land_idem, Hlen, andb_true_iff, !bool_decide_eq_true. tauto.
Qed.
Lemma ParseCIDR_cidr_block c ip net : ParseCIDR c = Some (ip, net) -> exists b, cidr_block c = Some b /\
  ip = To16 b.1 /\ net = mkIPNet (zip_with Z.land b.1 (cidr_mask b.2 (length b.1))) (cidr_mask b.2 (length b.1)).
Proof.
  intros Hc. assert (exists b, cidr_block c = Some b) as [[a p] Hb].
  { unfold ParseCIDR in Hc. unfold cidr_block. apply bind_Some in Hc as ([addr m] & -> & (a & Ha & (n & Hn & Hc)%bind_Some)%bind_Some).
    cbn. rewrite Ha. cbn. rewrite Hn. cbn. case_bool_decide; [by eexists|done]. }
  exists (a, p). split; [done|]. rewrite (ParseCIDR_block _ _ _ Hb) in Hc. by injection Hc as <- <-.
Qed.
(** An address is in a block given as a text. *)
Definition in_cidr (c : string) (x : IP) : Prop := exists ip net, ParseCIDR c = Some (ip, net) /\ IPNet_Contains net x = true.
Definition covers (cidrs : list string) (x : IP) : Prop := exists c, c ∈ cidrs /\ in_cidr c x.
(** What is found to be a part of another block has only addresses of it. *)
Lemma cidrSubset_sound s t ips nets ipt nett x : ParseCIDR s = Some (ips, nets) -> ParseCIDR t = Some (ipt, nett) ->
  cidrSubset ipt nett nets = true -> IPNet_Contains nett x = true -> IPNet_Contains nets x = true.
Proof.
  intros ([s0 ps] & (Hws & Hls & Hps)%cidr_block_wf & -> & ->)%ParseCIDR_cidr_block ([t0 pt] & (Hwt & Hlt & Hpt)%cidr_block_wf & -> & ->)%ParseCIDR_cidr_block.
  cbn [fst snd] in *. unfold cidrSubset, maskContains. cbn [net_Mask]. rewrite !Size_mask by done. intros [Hc Hm]%andb_true_iff.
  go_bool. destruct Hm as [Hbits Hones]. go_bool. assert (Hlen : length s0 = length t0) by lia. rewrite contains_norm in Hc by done. rewrite !contains_norm by done.
  assert (Hcase : exists a l, norm_ip (To16 t0) = l /\ norm_block (t0, pt) = (l, pt - a) /\ norm_block (s0, ps) = ((norm_block (s0, ps)).1, ps - a) /\
    length l = length (norm_block (s0, ps)).1 /\ 0 <= ps - a).
  { destruct Hc as [Hcl _]. revert Hcl. unfold norm_ip, norm_block, mapped. cbn [fst snd]. destruct Hlt as [Hl|Hl].
    - rewrite Hlen, Hl. rewrite (bool_decide_false (4%nat = 16%nat)) by done. cbn [andb fst]. intros _. exists 0, t0. unfold To16, To4.
      rewrite (bool_decide_true (length t0 = 4%nat)) by done. rewrite length_app, Hl. rewrite (bool_decide_false _) by done. rewrite (bool_decide_true _) by done.
      cbn [andb]. rewrite take_app_length', drop_app_length' by done. rewrite bool_decide_true by done. cbn. split_and!; [done|f_equal; lia|f_equal; lia|lia|lia].
    - rewrite Hlen, Hl. rewrite (bool_decide_true (16%nat = 16%nat)) by done. cbn [andb].
      assert (To16 t0 = t0) as -> by (unfold To16; rewrite Hl, bool_decide_false, bool_decide_true; done).
      destruct (decide (take 12 t0 = v4InV6Prefix)) as [Ht|Ht].
      + rewrite (To4_mapped _ Hl Ht). cbn [default from_option id]. rewrite (bool_decide_true (take 12 t0 = _)) by done. cbn [andb].
        assert (length (drop 12 t0) = 4%nat) as Hd by (rewrite length_drop; lia). rewrite Hd.
        destruct (bool_decide (take 12 s0 = v4InV6Prefix) && bool_decide (96 <= ps)) eqn:Es; cbn [fst]; [|intros; lia]. go_bool. destruct Es as [_ Es]. go_bool. intros Hds.
        rewrite (bool_decide_true (96 <= pt)) by lia. exists 96, (drop 12 t0). split_and!; [done..|lia|lia].
      + rewrite (To4_unmapped _ Hl Ht). cbn [default from_option id]. rewrite (bool_decide_false (take 12 t0 = _)) by done. cbn [andb]. rewrite Hl.
        destruct (bool_decide (take 12 s0 = v4InV6Prefix) && bool_decide (96 <= ps)) eqn:Es; cbn [fst]; [rewrite length_drop; lia|]. intros _.
        exists 0, t0. split_and!; [done|f_equal; lia|f_equal; lia|lia|lia]. }
  destruct Hcase as (a & l & Hl & Ht & Hs & Hll & Hpa). rewrite Ht, Hs. rewrite Hl, Hs in Hc. unfold in_norm in *. cbn [fst snd] in *.
  destruct Hc as [Hc1 Hc2]. intros [Hx1 Hx2]. split; [congruence|]. rewrite Hc2.
  eapply agree_within; [apply (mask_order _ (ps - a) (pt - a)); lia|rewrite length_cidr_mask; congruence..|]. by rewrite <- Hll.
Qed.
(** The merged blocks have the addresses of both lists. *)
Lemma merged_covers source target x : covers (mergeIPCidrs source target) x <-> covers source x \/ covers target x.
Proof.
  unfold mergeIPCidrs. destruct source as [|c0 source0]; [split; [by right|intros [(c & Hc & _)|H]; [by apply not_elem_of_nil in Hc|done]]|].
  set (source := c0 :: source0). clearbody source. clear c0 source0.
  pose (pairs (l : list (string * IPNet)) := forall c n, (c, n) ∈ l -> exists ip, ParseCIDR c = Some (ip, n)).
  assert (Hsrc : pairs (merge_source source) /\ (covers (map fst (merge_source source)) x <-> covers source x)).
  { unfold pairs, merge_source. split.
    - intros c n (c' & _ & Hc)%list_elem_of_omap. destruct (ParseCIDR c') as [[ip net]|] eqn:E; [|done]. injection Hc as <- <-. by exists ip.
    - unfold covers. split; intros (c & Hc & ip & net & Hp & Hx).
      + apply list_elem_of_fmap in Hc as ([c1 n1] & -> & (c' & Hc' & Hc)%list_elem_of_omap). cbn in *. destruct (ParseCIDR c') as [[ip' net']|] eqn:E; [|done].
        injection Hc as <- <-. exists c'. split; [done|]. by exists ip, net.
      + exists c. split; [|by exists ip, net]. apply list_elem_of_fmap. exists (c, net). split; [done|]. apply list_elem_of_omap. exists c. by rewrite Hp. }
  destruct Hsrc as [Hpairs <-]. generalize dependent (merge_source source). intros acc Hpairs. revert acc Hpairs.
  assert (Happ : forall l1 l2, covers (l1 ++ l2) x <-> covers l1 x \/ covers l2 x).
  { intros l1 l2. unfold covers. setoid_rewrite elem_of_app. naive_solver. }
  induction target as [|t target IH]; intros acc Hpairs; cbn [foldl].
  { split; [by left|intros [H|(c & Hc & _)]; [done|by apply not_elem_of_nil in Hc]]. }
  change (t :: target) with ([t] ++ target). rewrite (Happ [t] target).
  assert (Hone : covers [t] x <-> in_cidr t x) by (unfold covers; setoid_rewrite list_elem_of_singleton; naive_solver). rewrite Hone. clear Hone.
  unfold merge_target at 2. destruct (ParseCIDR t) as [[ip net]|] eqn:Et.
  2:{ rewrite (IH acc Hpairs). assert (~ in_cidr t x) by (intros (? & ? & Hp & _); congruence). tauto. }
  destruct (existsb _ acc) eqn:Ec.
  - rewrite (IH acc Hpairs). enough (in_cidr t x -> covers (map fst acc) x) by tauto.
    apply existsb_exists in Ec as ([c n] & Hin%list_elem_of_In & Hsub). cbn in Hsub. destruct (Hpairs _ _ Hin) as [ips Hs].
    intros (? & ? & Hp & Hx). rewrite Et in Hp. injection Hp as <- <-. exists c. split; [by apply (list_elem_of_fmap_2 fst _ (c, n))|].
    exists ips, n. split; [done|]. exact (cidrSubset_sound _ _ _ _ _ _ _ Hs Et Hsub Hx).
  - rewrite (IH (acc ++ [(t, net)])); [|intros c n [Hin|[= -> ->]%list_elem_of_singleton]%elem_of_app; [by apply Hpairs|by exists ip]].
    rewrite map_app, Happ. cbn [map fst]. assert (covers [t] x <-> in_cidr t x) by (unfold covers; setoid_rewrite list_elem_of_singleton; naive_solver). tauto.
Qed.

(** ** The object covers what the configurations have *)
(** Kubernetes keeps the object as it was last written; only its own calls
    change it. *)
Class BlocksLaws (W : Type) `{!BlocksWorld W} := {
  shared_keeps : forall a w r w', shared_subnet a w = (r, w') -> get_info w' = get_info w;
  create_stored : forall i w w', create_info i w = (None, w') -> get_info w' = Ok (Some i);
  update_stored : forall i w w', update_info i w = (None, w') -> get_info w' = Ok (Some i) }.
Lemma same_elements {T} `{Countable T} (a b : list T) : CompareArraysWithoutOrder a b = true -> forall x, x ∈ a <-> x ∈ b.
Proof. unfold CompareArraysWithoutOrder. case_bool_decide; [|done]. rewrite bool_decide_eq_true. intros Hs x. set_solver. Qed.
Lemma merged_elements {T} `{Countable T} (a b : list T) x : x ∈ MergeArraysWithoutDuplicate a b <-> x ∈ a \/ x ∈ b.
Proof. unfold MergeArraysWithoutDuplicate. destruct a as [|y a], b as [|z b]; [set_solver..|]. rewrite elem_of_elements. set_solver. Qed.
Lemma covers_proper a b : (forall c, c ∈ a <-> c ∈ b) -> forall x, covers a x <-> covers b x.
Proof. intros Hab x. unfold covers. by setoid_rewrite Hab. Qed.
Section Covered.
Context {W : Type} `{!BlocksWorld W, !BlocksLaws W}.
Local Abbreviation state := (service_state string W).
(** Calls after which the object is what it was. *)
Definition keeps {A} (m : Svc (I := string) (W := W) A) : Prop := forall s r s', m s = Some (r, s') -> get_info (svc_world s') = get_info (svc_world s).
Lemma same_info_bind {A B} (m : Svc A) (k : A -> Svc B) : keeps m -> (forall a, keeps (k a)) -> keeps (bindM m k).
Proof. intros Hm Hk s r s2 [(a & s1 & H1 & H2)|(e & H1 & _)]%bindM_Some; [by rewrite (Hk _ _ _ _ H2), (Hm _ _ _ H1)|by eapply Hm]. Qed.
Lemma same_info_ret {A} (a : A) : keeps (mret a).
Proof. by intros s r s' [= _ <-]. Qed.
Lemma same_info_fail {A} e : keeps (A := A) (mfail e).
Proof. by intros s r s' [= _ <-]. Qed.
Lemma same_info_total {A} (o : option A) : keeps (mtotal o).
Proof. intros s r s'. unfold mtotal. destruct o; [|done]. by intros [= _ <-]. Qed.
Lemma same_info_get : keeps mget.
Proof. by intros s r s' [= _ <-]. Qed.
Lemma same_info_store f : keeps (on_store f).
Proof. by intros s r s' [= _ <-]. Qed.
Lemma same_info_queries {A} (f : W -> result goerr A) : keeps (queries f).
Proof. intros s r s'. unfold queries, world_result. by intros [= _ <-]. Qed.
Lemma same_info_shared a : keeps (mcatch (world_result (shared_subnet a))).
Proof. intros s r s' (r' & -> & Hc)%mcatch_Some. unfold world_result in Hc. destruct (shared_subnet _ _) as [x w] eqn:E. injection Hc as _ <-. by eapply shared_keeps. Qed.
Lemma same_info_loop {A S} (f : S -> A -> Svc S) l : (forall x a, keeps (f x a)) -> forall x, keeps (mloop f x l).
Proof. intros Hf. induction l as [|a l IH]; intros x; [apply same_info_ret|]. apply same_info_bind; [apply Hf|apply IH]. Qed.
Lemma same_info_collect configs : keeps (collect_blocks configs).
Proof.
  unfold collect_blocks, getIPBlockCIDRsByVPCConfig, getSharedSubnetsCIDRs, getCIDRsRangesFromStore, getIPBlockCIDRsAndRangesFromStore.
  repeat first [ apply same_info_ret | apply same_info_fail | apply same_info_total | apply same_info_get | apply same_info_store | apply same_info_queries | apply same_info_shared
    | apply same_info_loop; intros | apply same_info_bind; [|intros ?] | progress unfold profile_of_vpc, blocks_of_profile, block_step, shared_step | case_match ].
Qed.
(** What the object shows: what the configurations have, and for an incremental
    update what it showed before. *)
Definition shows (inc : bool) (old : option IPBlocksInfo) (info cur : IPBlocksInfo) : Prop :=
  let before (P : IPBlocksInfo -> Prop) := inc = true /\ exists o, old = Some o /\ P o in
  (forall x, covers (ExternalIPCIDRs cur) x <-> covers (ExternalIPCIDRs info) x \/ before (fun o => covers (ExternalIPCIDRs o) x)) /\
  (forall x, covers (PrivateTGWIPCIDRs cur) x <-> covers (PrivateTGWIPCIDRs info) x \/ before (fun o => covers (PrivateTGWIPCIDRs o) x)) /\
  (forall r, r ∈ ExternalIPRanges cur <-> r ∈ ExternalIPRanges info \/ before (fun o => r ∈ ExternalIPRanges o)) /\
  (forall r, r ∈ PrivateTGWIPRanges cur <-> r ∈ PrivateTGWIPRanges info \/ before (fun o => r ∈ PrivateTGWIPRanges o)).
Lemma shows_same inc old a b c : same_blocks c b = true -> shows inc old a b -> shows inc old a c.
Proof.
  unfold same_blocks, shows. intros Hs (H1 & H2 & H3 & H4). go_bool. destruct Hs as [[[S1 S2] S3] S4].
  pose proof (same_elements _ _ S1) as E1. pose proof (same_elements _ _ S2) as E2. pose proof (same_elements _ _ S3) as E3. pose proof (same_elements _ _ S4) as E4.
  split_and!; intros x; rewrite <- ?H1, <- ?H2, <- ?H3, <- ?H4; [by apply covers_proper|by apply covers_proper|apply E3|apply E4].
Qed.
Lemma shows_create inc info : shows inc None info info.
Proof. unfold shows. split_and!; intros x; naive_solver. Qed.
Lemma shows_update inc old info : shows inc (Some old) info (if inc then merge_blocks old info else info).
Proof. unfold shows. destruct inc; cbn; split_and!; intros x; rewrite ?merged_covers, ?merged_elements; naive_solver. Qed.
Lemma k8s_call_Ok f (s s' : state) : k8s_call f s = Some (Ok tt, s') -> f (svc_world s) = (None, svc_world s').
Proof. unfold k8s_call, world_result. destruct (f _) as [[e|] w'] eqn:E; cbn; [done|]. by intros [= <-]. Qed.
Lemma createOrUpdate_shows info inc (s s' : state) : createOrUpdateIPBlocksInfo info inc s = Some (Ok tt, s') ->
  exists old cur, get_info (svc_world s) = Ok old /\ get_info (svc_world s') = Ok (Some cur) /\ shows inc old info cur.
Proof.
  unfold createOrUpdateIPBlocksInfo. intros (old & s1 & Hq & Hrun)%bindM_Ok. unfold queries, world_result in Hq. injection Hq as Hold <-.
  exists old. destruct old as [old|].
  - destruct (same_blocks old _) eqn:Hs.
    + injection Hrun as <-. exists old. split_and!; [done..|]. eapply shows_same; [done|apply shows_update].
    + apply k8s_call_Ok, update_stored in Hrun. eexists. split_and!; [done..|apply shows_update].
  - apply k8s_call_Ok, create_stored in Hrun. exists info. split_and!; [done..|apply shows_create].
Qed.
(** C16. When the update of the IPBlocksInfo object succeeds, the object shows
    exactly what was collected from NSX for the configurations: an address is in
    its external (or private) blocks, and a range among its ranges, precisely when
    it is in what was collected or, for an incremental update only, in what the
    object had before. A full synchronization so also removes the blocks that are
    gone, and an update that writes nothing had nothing to change. *)
Theorem updateIPBlocksInfo_covers configs inc (s s' : state) : updateIPBlocksInfo configs inc s = Some (Ok tt, s') ->
  exists info s1 old cur, collect_blocks configs s = Some (Ok info, s1) /\ get_info (svc_world s) = Ok old /\
    get_info (svc_world s') = Ok (Some cur) /\ shows inc old info cur.
Proof.
  unfold updateIPBlocksInfo. intros (info & s1 & Hc & Hrun)%bindM_Ok. apply createOrUpdate_shows in Hrun as (old & cur & Hold & Hcur & Hs).
  exists info, s1, old, cur. split_and!; [done| |done..]. by rewrite <- (same_info_collect _ _ _ _ Hc).
Qed.
End Covered.
(** C37. Merging loses and invents no address: the merged blocks have exactly the
    addresses of the blocks of both lists, whatever their families and prefixes,
    and texts that are no block count for nothing. *)
Theorem mergeIPCidrs_union source target x : covers (mergeIPCidrs source target) x <-> covers source x \/ covers target x.
Proof. apply merged_covers. Qed.

(** ** A concrete world *)
Module BlocksDemo.
Record demo_cluster := mkCluster { dm_configs : list VPCConfig; dm_blocks : list IpAddressBlock; dm_info : option IPBlocksInfo }.
Definition demo_profile : ConnectivityProfile := mkProfile "/orgs/o/projects/p/vpc-connectivity-profiles/default" ["/infra/ip-blocks/ext"] [] ["/infra/ip-blocks/tgw"] None.
#[global] Instance demo_blocks_world : BlocksWorld demo_cluster := {|
  world_configs w := Ok (dm_configs w); search_attachments _ := Ok []; search_profiles _ := Ok [demo_profile]; search_ipblocks w := Ok (dm_blocks w);
  shared_subnet _ w := (Err (EText "not found"), w); get_info w := Ok (dm_info w);
  create_info i w := (None, mkCluster (dm_configs w) (dm_blocks w) (Some i)); update_info i w := (None, mkCluster (dm_configs w) (dm_blocks w) (Some i)) |}.
#[global] Program Instance demo_blocks_laws : BlocksLaws demo_cluster.
Next Obligation. by intros a w r w' [= _ <-]. Qed.
Next Obligation. by intros i w w' [= <-]. Qed.
Next Obligation. by intros i w w' [= <-]. Qed.
Definition demo_config : VPCConfig := mkVPCConfig (mkNetConfig "default" {["nsx.vmware.com/default" := "true"]} "/orgs/o/projects/p" "" "default" []) [].
Definition ext_block : IpAddressBlock := mkIpBlock "/infra/ip-blocks/ext" (Some ["172.26.0.0/16"; "172.26.4.0/24"]) None [(Some "10.1.0.1", Some "10.1.0.9")] None.
Definition tgw_block : IpAddressBlock := mkIpBlock "/infra/ip-blocks/tgw" None (Some "10.246.0.0/16") [] None.
Definition old_info : IPBlocksInfo := mkBlocksInfo ["172.26.0.0/16"] ["10.246.8.0/24"] [] [].
Definition start : service_state string demo_cluster := mkService "" (mkCluster [demo_config] [ext_block; tgw_block] (Some old_info)).
Definition after {A} (r : option (A * service_state string demo_cluster)) := from_option snd start r.
Definition refreshed := after (updateIPBlocksInfo [demo_config] true start).
(** The incremental update keeps the wider block and adds the others. *)
Lemma demo_updated : updateIPBlocksInfo [demo_config] true start = Some (Ok tt, refreshed) /\
  get_info (svc_world refreshed) = Ok (Some (mkBlocksInfo ["172.26.0.0/16"] ["10.246.8.0/24"; "10.246.0.0/16"] [("10.1.0.1", "10.1.0.9")] [])).
Proof. split; vm_compute; reflexivity. Qed.
End BlocksDemo.
Lemma updateIPBlocksInfo_covers_witness :
  exists info s1 old cur, collect_blocks [BlocksDemo.demo_config] BlocksDemo.start = Some (Ok info, s1) /\ get_info (svc_world BlocksDemo.start) = Ok old /\
    get_info (svc_world BlocksDemo.refreshed) = Ok (Some cur) /\ shows true old info cur.
Proof. refine (updateIPBlocksInfo_covers [BlocksDemo.demo_config] true BlocksDemo.start BlocksDemo.refreshed _). exact (proj1 BlocksDemo.demo_updated). Defined.
